(* ===== verification/_CoqProject ===== *)
-Q . S2P
Prelude.v
CString.v
Umalloc.v
Ring.v
Numeral.v
Pipe.v
Console.v
Kbd.v
Printf.v
Vim.v
Bytes.v
Ata.v
Irq.v
Uart.v
Boot.v
Bio.v
Log.v
Disk.v
Fs.v
FsAlloc.v
FsModel.v
FsFile.v
FsTheorems.v
FsTx.v
FsInode.v
FsDir.v
Mkfs.v
MkfsTheorems.v
FsPath.v
FsLink.v
FsRest.v
Kalloc.v
Mp.v
Spinlock.v
Vm.v
Uvm.v
UvmCopy.v
UvmWrite.v
Proc.v
ProcTheorems.v
ProcSched.v
ProcMem.v
ProcFair.v
Sleeplock.v
Ide.v
IdeTheorems.v
Exec.v
ExecTheorems.v
ExecFs.v
Syscall.v
Sysproc.v
File.v
FileWrite.v
Sysfile.v
SysfileTheorems.v
Tools.v
Sh.v
ShTheorems.v
ShPrint.v
ShRun.v
