(* ===== verification/Prelude.v ===== *)
(** * Verification of xv6-vim

    xv6-vim is a small Unix-like kernel for x86 with its user programs, among them a
    full-screen editor.  This library models the parts of it that can be stated as
    functions on a state and proves what makes them correct.  All sources named here
    are under [src/].

    ** The program

    - The kernel keeps files on a disk: an array in memory ([memide.c]) or an IDE drive ([ide.c]).  The
      buffer cache ([bio.c]) holds copies of blocks, the log ([log.c]) makes the writes of a
      system call atomic, and [fs.c] builds files, directories and paths from blocks.
    - Physical pages come from a free list ([kalloc.c]); page tables map them into
      the address space of a process ([vm.c]); [proc.c] creates, schedules, puts to
      sleep and ends processes; [exec.c] loads programs; pipes ([pipe.c]) connect them.
      Spinlocks ([spinlock.c]) protect the tables between CPUs, sleep locks ([sleeplock.c]) between processes.
    - The keyboard driver ([kbd.c]) turns scan codes into characters.  The console ([console.c]) turns key presses into lines, and writes to the text
      screen; the additions for the editor switch its buffering off and let a program
      draw, save and restore the screen.
    - The user programs use these through system calls ([syscall.c], [sysproc.c], [sysfile.c]): the editor ([vim.c]), the shell
      ([sh.c]), [grep.c], [wc.c], [cat.c], with the C library of [ulib.c], [umalloc.c] and [printf.c].
    - [mkfs.c] runs on the host and builds the image of the disk.

    ** The files

    - [Prelude]: machine integers, the monad [cm] of C computations, arrays and C strings.
      A C function that reads and writes a state [S] is a [cm S A]: it returns ([Ok]), stops
      in [panic] ([Panic]), or does something that C leaves undefined ([Ub]).  The word [Ub "loop"]
      marks fuel that ran out, [Ub "sleeps"] a wait for another process.
    - [CString]: [string.c] and [ulib.c].  [Umalloc]: [umalloc.c] over an interface [Break] of [sbrk].  [Ring]: a buffer used in a circle with two
      counters, as an interface that [Pipe] and [Console] instantiate.  [Numeral]: numbers and
      their digits in a base.  [Bytes]: little-endian words in blocks.
    - [Pipe]: [pipe.c].  [Console]: [console.c].  [Kbd]: [kbd.c] and [kbd.h], over the console.  [Printf]: [printf.c].  [Vim]: [vim.c] over the console
      and an interface [Files] of the file calls.
    - [Ata]: the ports of a machine and what the drivers rely on of the disk controller behind them.  [Irq]: [ioapic.c], [lapic.c] and [picirq.c].
      [Uart]: [uart.c].  [Boot]: [bootmain.c].  [Mp]: [mp.c].  [Ide]: [ide.c], over the sleep locks and processes.  [IdeTheorems]:
      what the driver does for them.
    - [Bio]: [bio.c] and [memide.c].  [Log]: [log.c].  [Disk]: the interface between the file system
      and the log ([Disk], [DiskOk]) and the proof that the log over the cache implements it.
    - [Fs]: all operations of [fs.c].  [FsAlloc]: the block bitmap.  [FsModel]: what the blocks of
      a disk mean as files.  [FsFile]: reading and writing files.  [FsTheorems]: the theorems on files.
      [FsTx]: transactions.  [FsInode]: the inode cache.  [FsDir]: directories.  [FsPath]: paths.  [FsLink]: new
      entries.  [FsRest]: a file system between two system calls.
    - [Mkfs]: [mkfs.c].  [MkfsTheorems]: its image is a file system in the sense of [FsModel].
    - [Kalloc]: [kalloc.c].  [Vm]: [vm.c], page tables in physical memory.  [Uvm]: user address spaces.
      [UvmCopy]: the copy that [fork] makes.  [UvmWrite]: writing into an address space.
    - [Spinlock]: [spinlock.c], as steps of several CPUs.  [Sleeplock]: [sleeplock.c], over the processes.
    - [Proc]: [proc.c].  [ProcTheorems]: the invariant of the process table under any
      interleaving of calls.  [ProcSched]: what [wait], [exit] and [growproc] do.  [ProcMem]: the memory of all
      processes.  [ProcFair]: the scheduler, over processes that make any of the calls ([FileRefsOk]: references to files
      are counted).
    - [Exec]: [exec.c] and [loaduvm], over an interface [Inodes] of the inode calls.  [ExecTheorems]: what it does to the
      process.  [ExecFs]: the file system as an instance of the interface.
    - [Syscall]: [syscall.c].  [Sysproc]: [sysproc.c], and [mirrorctx] of [console.c].  [File]: [file.c] and [pipealloc].  [FileWrite]: [filewrite] in
      transactions.  [Sysfile]: [sysfile.c].  [SysfileTheorems]: the descriptors of all processes.
    - [Tools]: [grep.c], [wc.c] and [cat.c] over the class [Sys] of the system calls they make.
    - [Sh]: [sh.c].  [ShTheorems]: the parser ends.  [ShPrint]: printing and parsing.  [ShRun]: [runcmd]
      and the loop of the shell.

    A component's state is a record with the fields of the C structure, an operation of the code
    a definition of the same name; a loop is a [Fixpoint] named after its function.  A
    pointer is the index of the object in its table, or, in memory that is modelled byte by byte
    ([Kalloc], [Vm]), its address.  Components that call each other through few functions meet at a
    class ([Disk], [Files], [FileRefs], [Sys], [Devices], [Kernel], [Inodes], [Break],
      [Ports], [Mmio]) that states these functions, and where
    the caller's theorems need it their laws.

    ** What the theorems show

    - Crash safety: [commit_atomic], [recovery_installs], [log_reservation] on the log; [bcache_transparent]:
      the cache never shows anything but the block last written; [writei_crash_atomic]: a
      write to a file is on disk whole or not at all after a crash at any disk write of its commit.
    - Files: [writei_overwrites], [readi_reads], [writei_readi], [filewrite_writes]; names: [namei_resolves],
      [dirlink_links]; descriptors: [descriptors_counted]; the image of the disk: [mkfs_makes].
    - Memory: [kalloc_refines], [mappages_maps], [allocuvm_grows], [deallocuvm_frees], [copyuvm_copies], [growproc_resizes];
      in user programs [malloc_refines].
    - Processes: [process_table_invariant], [scheduler_fair], [exit_wakes_wait], [wait_outcomes]; programs:
      [exec_replaces], [exec_passes_args], and with the file system below, [exec_runs_file].
    - Devices: [ide_refines], [ide_serves]: the disk driver serves the requests of all processes in order; [bootmain_loads];
      [mpinit_takes], [ioapicinit_masks], [lapicinit_sets], [cmostime_reads], [uartputc_sends], [uartintr_types].
    - Locks: [spinlock_excludes], [spinlock_nests], [sleeplock_refines].
    - Communication: [pipe_fifo], [pipe_no_lost_wakeup], [piperead_eof]; the console's
      [consoleintr_line_discipline], [consoleread_takes], [consolewrite_prints_on_paper], [screen_restored]; the keyboard's
      [keyboard_line].  System calls see only the memory of their process: [args_within].
    - Programs: the editor's [vim_open_save], [vim_types_into_file], [vim_save_overwrites], [vim_modes],
      [vim_exit_restores_screen]; the shell's [parse_print], [parsecmd_terminates], [runcmd_plumbs],
      [main_serves]; [match_decides], [grep_prints], [wc_counts]; [printf_agrees_with_cprintf],
      [printint_reads_back]; [memmove_copies], [strncpy_strncmp].

    Lemmas named in the text of a finding (for example [uva2ka_null_pte], [growproc_to_zero]) prove
    that the code does something other than what it is meant to.

    ** Fuel and bounds

    A loop that is not structural takes fuel from its caller, computed from the data it runs over (bytes
    left to read or write, blocks of the disk, inodes, pages of a range, four units per byte of a
    command line); a loop that polls a device takes the number of polls from the laws of the device.  The theorems state that the call returns, so the fuel is enough; no
    theorem has running out of fuel as a way out.  Table sizes and limits (30 buffers, 50 inodes, 64
    processes, 512 bytes in a pipe) are those of [param.h] and the sources.  Integers wrap at
    their width wherever the code relies on it.

    ** Not modelled

    - Assembly and processor state: [bootasm.S], [entry.S], [swtch.S], [trapasm.S], [initcode.S], [usys.S],
      segment and control registers ([seginit], [kvmalloc]).  [swtch] appears as the point where a
      call ends a slice of execution.
    - [main.c] and [trap.c], which call the parts in order and by the number of the trap, and load processor state.
    - The programs [init.c], [ls.c], [echo.c], [kill.c], [ln.c], [mkdir.c], [rm.c], and the test programs [usertests.c],
      [forktest.c], [stressfs.c], [zombie.c]. *)
From stdpp Require Export base numbers list strings gmap.
From Stdlib Require Export ZArith Lia ZifyBool.
Open Scope Z_scope.

(** ** Machine integers

    An unsigned [w]-bit value is its residue in [[0, 2^w)], a signed one the
    representative in [[-2^(w-1), 2^(w-1))]. *)

Definition u8 (x : Z) : Z := x mod 2 ^ 8.
Definition u16 (x : Z) : Z := x mod 2 ^ 16.
Definition u32 (x : Z) : Z := x mod 2 ^ 32.
Definition i8 (x : Z) : Z := (x + 2 ^ 7) mod 2 ^ 8 - 2 ^ 7.
Definition i16 (x : Z) : Z := (x + 2 ^ 15) mod 2 ^ 16 - 2 ^ 15.
Definition i32 (x : Z) : Z := (x + 2 ^ 31) mod 2 ^ 32 - 2 ^ 31.

(** ** C computations

    A C function that reads and writes the state [S] runs to a value, stops in
    [panic(msg)], or performs an access that C leaves undefined (an array
    index out of bounds, a null dereference, a read of an uninitialised
    variable). *)

Inductive outcome (S A : Type) : Type :=
| Ok (a : A) (s : S)
| Panic (msg : string)
| Ub (what : string).
Arguments Ok {S A} a s.
Arguments Panic {S A} msg.
Arguments Ub {S A} what.

Definition cm (S A : Type) : Type := S → outcome S A.

Global Instance cm_ret {S} : MRet (cm S) := λ A a s, Ok a s.
Global Instance cm_bind {S} : MBind (cm S) := λ A B k m s,
  match m s with
  | Ok a s' => k a s'
  | Panic e => Panic e
  | Ub e => Ub e
  end.

Definition panic {S A} (msg : string) : cm S A := λ _, Panic msg.
Definition ub {S A} (what : string) : cm S A := λ _, Ub what.
Definition get {S} : cm S S := λ s, Ok s s.
Definition gets {S A} (f : S → A) : cm S A := λ s, Ok (f s) s.
Definition modify {S} (f : S → S) : cm S unit := λ s, Ok tt (f s).
Definition cwhen {S} (b : bool) (m : cm S unit) : cm S unit :=
  if b then m else mret tt.

(** ** Spinlocks, as one execution sees them

    The code of a component runs on one CPU.  Of each spinlock its state keeps
    whether this CPU holds it: acquiring a lock the CPU already holds panics, as
    does releasing one it does not hold.  Contention between CPUs is the subject
    of the lock component itself. *)

Definition acquire {S} (held : S → bool) (set_held : bool → S → S) : cm S unit :=
  λ s, if held s then Panic "acquire" else Ok tt (set_held true s).

Definition release {S} (held : S → bool) (set_held : bool → S → S) : cm S unit :=
  λ s, if held s then Ok tt (set_held false s) else Panic "release".

(** ** Total correctness of a run

    [returns r Q]: the run [r] neither panics nor goes undefined, and its value
    and final state satisfy [Q]. *)

Definition returns {S A} (r : outcome S A) (Q : A → S → Prop) : Prop :=
  match r with Ok a s => Q a s | Panic _ => False | Ub _ => False end.

(** The run does not reach undefined behaviour (it may still panic). *)
Definition defined {S A} (r : outcome S A) : Prop :=
  match r with Ub _ => False | _ => True end.

(** ** Arrays

    A C array is a list of its elements.  An access outside the array has no
    value ([None]); the code that performs it is undefined. *)

Definition arr_get {A} (l : list A) (i : Z) : option A :=
  if 0 <=? i then l !! Z.to_nat i else None.

Definition arr_set {A} (l : list A) (i : Z) (v : A) : option (list A) :=
  if (0 <=? i) && (i <? Z.of_nat (length l))
  then Some (<[Z.to_nat i := v]> l) else None.

(** Memory that is only ever addressed by index, as a total map. *)
Definition upd {A} (m : Z → A) (k : Z) (v : A) : Z → A :=
  λ x, if x =? k then v else m x.

(** ** C strings

    A [char] is kept as its byte, [0 <= b < 256].  [cstrlen l] is the index of
    the first NUL of the array [l]; without one the C loop runs off the array. *)

Fixpoint cstrlen (l : list Z) : option Z :=
  match l with
  | [] => None
  | b :: l' => if b =? 0 then Some 0 else Z.succ <$> cstrlen l'
  end.

(** The string held in a buffer: the bytes before the first NUL. *)
Fixpoint cstr (l : list Z) : list Z :=
  match l with
  | [] => []
  | b :: l' => if b =? 0 then [] else b :: cstr l'
  end.

(** ** Declarations shared by the components *)

Create HintDb xv6.
Create Rewrite HintDb xv6.

Ltac dlia := Z.to_euclidean_division_equations; lia.

(** Case analysis on the boolean tests and matches of a definition. *)
Ltac zbool :=
  repeat match goal with
  | H : (_ && _) = true |- _ => apply andb_true_iff in H as [? ?]
  | H : (_ || _) = false |- _ => apply orb_false_iff in H as [? ?]
  | H : negb _ = true |- _ => apply negb_true_iff in H
  | H : negb _ = false |- _ => apply negb_false_iff in H
  | H : (_ =? _) = true |- _ => apply Z.eqb_eq in H
  | H : (_ =? _) = false |- _ => apply Z.eqb_neq in H
  | H : (_ <? _) = true |- _ => apply Z.ltb_lt in H
  | H : (_ <? _) = false |- _ => apply Z.ltb_ge in H
  | H : (_ <=? _) = true |- _ => apply Z.leb_le in H
  | H : (_ <=? _) = false |- _ => apply Z.leb_gt in H
  end.

Ltac case_b :=
  match goal with
  | |- context [if ?b then _ else _] => let E := fresh "E" in destruct b eqn:E
  end; zbool.

(** ** Lemmas: runs *)

Lemma returns_bind {S A B} (m : cm S A) (k : A → cm S B) s Q :
  returns (m s) (λ a s', returns (k a s') Q) → returns ((m ≫= k) s) Q.
Proof. unfold mbind, cm_bind. by destruct (m s). Qed.

Lemma bind_ok {S A B} (m : cm S A) (k : A → cm S B) s a s' : m s = Ok a s' → (m ≫= k) s = k a s'.
Proof. unfold mbind, cm_bind. by intros ->. Qed.

Lemma bind_gets {S A B} (f : S → A) (k : A → cm S B) s : (gets f ≫= k) s = k (f s) s.
Proof. done. Qed.

Lemma bind_modify {S B} (f : S → S) (k : unit → cm S B) s : (modify f ≫= k) s = k tt (f s).
Proof. done. Qed.

Lemma bind_ret {S A B} (a : A) (k : A → cm S B) s : (mret a ≫= k) s = k a s.
Proof. done. Qed.

Lemma bind_assoc {S A B C} (m : cm S A) (f : A → cm S B) (g : B → cm S C) s :
  (x ← (y ← m; f y); g x) s = (y ← m; x ← f y; g x) s.
Proof. unfold mbind, cm_bind. by destruct (m s). Qed.

Lemma returns_mono {S A} (r : outcome S A) (P Q : A → S → Prop) :
  returns r P → (∀ a s, P a s → Q a s) → returns r Q.
Proof. destruct r; simpl; naive_solver. Qed.

Lemma returns_and {S A} (r : outcome S A) (P Q : A → S → Prop) :
  returns r P → returns r Q → returns r (λ a s, P a s ∧ Q a s).
Proof. destruct r; simpl; auto. Qed.

Lemma returns_Ok {S A} (r : outcome S A) (Q : A → S → Prop) :
  returns r Q ↔ ∃ a s, r = Ok a s ∧ Q a s.
Proof. destruct r; naive_solver. Qed.

(** ** Lemmas: arrays *)

Lemma arr_get_Some {A} (l : list A) i v :
  arr_get l i = Some v → 0 ≤ i < Z.of_nat (length l) ∧ l !! Z.to_nat i = Some v.
Proof.
  unfold arr_get. case_b; [|done]. intros H.
  pose proof (lookup_lt_Some _ _ _ H). split; [lia|done].
Qed.

Lemma arr_get_in {A} (l : list A) i :
  0 ≤ i < Z.of_nat (length l) → is_Some (arr_get l i).
Proof.
  intros H. unfold arr_get. rewrite (proj2 (Z.leb_le 0 i)) by lia.
  apply lookup_lt_is_Some. lia.
Qed.

Lemma arr_set_in {A} (l : list A) i v :
  0 ≤ i < Z.of_nat (length l) → arr_set l i v = Some (<[Z.to_nat i := v]> l).
Proof.
  intros H. unfold arr_set.
  rewrite (proj2 (Z.leb_le 0 i)), (proj2 (Z.ltb_lt i _)) by lia. done.
Qed.

Lemma arr_set_Some {A} (l l' : list A) i v :
  arr_set l i v = Some l' →
  0 ≤ i < Z.of_nat (length l) ∧ l' = <[Z.to_nat i := v]> l.
Proof. unfold arr_set. case_b; [|done]. intros [= <-]. split; [lia|done]. Qed.

Lemma upd_eq {A} (m : Z → A) k v : upd m k v k = v.
Proof. unfold upd. by rewrite Z.eqb_refl. Qed.

Lemma upd_ne {A} (m : Z → A) k v x : x ≠ k → upd m k v x = m x.
Proof. intros H. unfold upd. by rewrite (proj2 (Z.eqb_neq x k) H). Qed.

(** ** Lemmas: bits *)

Lemma i32_small x : - 2 ^ 31 ≤ x < 2 ^ 31 → i32 x = x.
Proof. intros Hx. unfold i32. rewrite Z.mod_small; lia. Qed.

Lemma u32_small a : 0 ≤ a < 2 ^ 32 → u32 a = a.
Proof. intros. unfold u32. apply Z.mod_small. lia. Qed.

Lemma elem_of_rev {A} (l : list A) x : x ∈ rev l ↔ x ∈ l.
Proof. by rewrite !list_elem_of_In, <- in_rev. Qed.

Lemma elem_of_take_in {A} (l : list A) k x : x ∈ take k l → x ∈ l.
Proof. intros Hx. rewrite <- (take_drop k l). apply elem_of_app. by left. Qed.

Lemma take_but_last {A} (l : list A) x : take (length (l ++ [x]) - 1) (l ++ [x]) = l.
Proof. rewrite length_app, Nat.add_sub. apply take_app_length. Qed.

Lemma testbit_high b w i : 0 ≤ b < 2 ^ w → w ≤ i → Z.testbit b i = false.
Proof.
  intros Hb Hi. destruct (Z.eq_dec b 0) as [->|]; [apply Z.bits_0|].
  apply Z.bits_above_log2; [lia|].
  apply Z.lt_le_trans with w; [apply Z.log2_lt_pow2; lia|done].
Qed.

(** Or-ing a value into the zero bits below [k] adds it. *)
Lemma lor_shiftl_add a b k :
  0 ≤ k → 0 ≤ b < 2 ^ k → Z.lor (a * 2 ^ k) b = a * 2 ^ k + b.
Proof.
  intros Hk Hb. pose proof (Z.add_lor_land (a * 2 ^ k) b) as H.
  replace (Z.land (a * 2 ^ k) b) with 0 in H; [lia|].
  symmetry. apply Z.bits_inj_iff'. intros i Hi. rewrite Z.land_spec, Z.bits_0.
  rewrite <- Z.shiftl_mul_pow2 by lia.
  destruct (Z.lt_ge_cases i k).
  - by rewrite Z.shiftl_spec_low.
  - by rewrite (testbit_high b k), andb_false_r.
Qed.

Lemma land_ones_mod x k : 0 ≤ k → Z.land x (2 ^ k - 1) = x mod 2 ^ k.
Proof. intros. rewrite <- Z.land_ones, Z.ones_equiv by done. f_equal; lia. Qed.

(** ** Lemmas: C strings *)

Lemma cstrlen_cstr l n : cstrlen l = Some n → n = Z.of_nat (length (cstr l)).
Proof.
  revert n. induction l as [|b l IH]; intros n; simpl; [done|].
  case_b; [by intros [= <-]|].
  destruct (cstrlen l) as [m|]; simpl; [|done]. intros [= <-].
  specialize (IH m eq_refl). lia.
Qed.

Lemma cstrlen_bound l n : cstrlen l = Some n → 0 ≤ n < Z.of_nat (length l).
Proof.
  revert n. induction l as [|b l IH]; intros n; simpl; [done|].
  case_b; [intros [= <-]; lia|].
  destruct (cstrlen l) as [m|]; simpl; [|done]. intros [= <-].
  specialize (IH m eq_refl). lia.
Qed.

Lemma cstrlen_Some_iff l : is_Some (cstrlen l) ↔ 0 ∈ l.
Proof.
  induction l as [|b l IH]; simpl.
  - split; [intros [? ?]; done|]. intros H. by apply not_elem_of_nil in H.
  - rewrite elem_of_cons. case_b; [naive_solver|].
    rewrite fmap_is_Some, IH. naive_solver.
Qed.

(** A buffer that starts with the non-NUL bytes [s] and a NUL holds [s]. *)
Lemma cstrlen_prefix l r n : cstrlen l = Some n → cstrlen (l ++ r) = Some n.
Proof.
  revert n. induction l as [|b l IH]; intros n; simpl; [done|]. case_b; [done|].
  destruct (cstrlen l) as [m|]; [|done]. by rewrite (IH m).
Qed.

Lemma cstrlen_app s r :
  Forall (λ b, b ≠ 0) s → cstrlen (s ++ 0 :: r) = Some (Z.of_nat (length s)).
Proof.
  induction 1 as [|b s Hb Hs IH]; simpl; [done|].
  rewrite (proj2 (Z.eqb_neq b 0) Hb), IH. simpl. f_equal. lia.
Qed.

Lemma cstr_app s r : Forall (λ b, b ≠ 0) s → cstr (s ++ 0 :: r) = s.
Proof.
  induction 1 as [|b s Hb Hs IH]; simpl; [done|].
  by rewrite (proj2 (Z.eqb_neq b 0) Hb), IH.
Qed.

Lemma cstr_no_nul l : Forall (λ b, b ≠ 0) l → cstr l = l.
Proof.
  induction 1 as [|b s Hb Hs IH]; simpl; [done|].
  by rewrite (proj2 (Z.eqb_neq b 0) Hb), IH.
Qed.

Lemma cstr_nonzero l : Forall (λ b, b ≠ 0) (cstr l).
Proof. induction l as [|b l IH]; simpl; [done|]. case_b; by constructor. Qed.

(** A test of every number below [n]. *)
Lemma range_forall (f : Z → bool) n : forallb f (seqZ 0 n) = true → ∀ x, 0 ≤ x < n → f x = true.
Proof. intros H x Hx. rewrite forallb_forall in H. apply H. apply list_elem_of_In, elem_of_seqZ. lia. Qed.

#[export] Hint Resolve upd_eq upd_ne cstr_nonzero : xv6.
#[export] Hint Rewrite @length_insert @upd_eq : xv6.
