(* ===== verification/CString.v ===== *)
(** * The C string and memory routines

    [src/string.c] (kernel) and [src/ulib.c] (user programs).  The [mem*]
    routines work on a flat memory because their regions may overlap; the
    [str*] routines work on separate buffers, lists of bytes whose end is the
    end of the array.  A result of [None] is an access outside the buffer.

    Theorems: the kernel's [memmove] is the simultaneous copy for every overlap,
    the user-level one only when the copy does not move up into its own source;
    [memset] fills the region on both of its paths; [strncmp], [strncpy] and
    [safestrcpy] compare and copy the strings their buffers hold; [atoi] reads
    decimal numerals. *)
From S2P Require Import Prelude.

(** ** Flat memory *)

Definition memory : Type := Z → Z.

(** [stosb] and [stosl] of [x86.h]: [cnt] byte or word stores, ascending. *)
Fixpoint stosb (m : memory) (addr data : Z) (cnt : nat) : memory :=
  match cnt with
  | O => m
  | S cnt' => stosb (upd m addr (u8 data)) (addr + 1) data cnt'
  end.

Definition store32 (m : memory) (addr w : Z) : memory :=
  upd (upd (upd (upd m addr (u8 w))
    (addr + 1) (u8 (Z.shiftr w 8)))
    (addr + 2) (u8 (Z.shiftr w 16)))
    (addr + 3) (u8 (Z.shiftr w 24)).

Fixpoint stosl (m : memory) (addr data : Z) (cnt : nat) : memory :=
  match cnt with
  | O => m
  | S cnt' => stosl (store32 m addr data) (addr + 4) data cnt'
  end.

(** [(int)dst%4] is the C remainder of the address read as a signed int. *)
Definition memset (m : memory) (dst c n : Z) : memory :=
  if (Z.rem (i32 dst) 4 =? 0) && (n mod 4 =? 0) then
    let c := Z.land c 255 in
    stosl m dst
      (Z.lor (Z.lor (Z.lor (Z.shiftl c 24) (Z.shiftl c 16)) (Z.shiftl c 8)) c)
      (Z.to_nat (n / 4))
  else stosb m dst c (Z.to_nat n).

Fixpoint memcmp (s1 s2 : list Z) (n : nat) {struct n} : option Z :=
  match n with
  | O => Some 0
  | S n' =>
      match s1, s2 with
      | a :: s1', b :: s2' => if negb (a =? b) then Some (a - b) else memcmp s1' s2' n'
      | _, _ => None
      end
  end.

(** The descending copy, from the two ends. *)
Fixpoint copy_down (m : memory) (d s : Z) (n : nat) : memory :=
  match n with
  | O => m
  | S n' => copy_down (upd m (d - 1) (m (s - 1))) (d - 1) (s - 1) n'
  end.

(** The ascending copy. *)
Fixpoint copy_up (m : memory) (d s : Z) (n : nat) : memory :=
  match n with
  | O => m
  | S n' => copy_up (upd m d (m s)) (d + 1) (s + 1) n'
  end.

Definition memmove (m : memory) (dst src n : Z) : memory :=
  if (src <? dst) && (dst <? src + n)
  then copy_down m (dst + n) (src + n) (Z.to_nat n)
  else copy_up m dst src (Z.to_nat n).

Definition memcpy (m : memory) (dst src n : Z) : memory := memmove m dst src n.

(** [ulib.c]: the same loop, always ascending; [n] is a signed int. *)
Definition umemmove (m : memory) (vdst vsrc n : Z) : memory :=
  copy_up m vdst vsrc (Z.to_nat n).

Definition umemset (m : memory) (dst c n : Z) : memory := stosb m dst c (Z.to_nat n).

(** ** String buffers *)

Fixpoint strncmp (p q : list Z) (n : nat) {struct n} : option Z :=
  match n with
  | O => Some 0
  | S n' =>
      match p, q with
      | a :: p', b :: q' =>
          if negb (a =? 0) && (a =? b) then strncmp p' q' n' else Some (u8 a - u8 b)
      | _, _ => None
      end
  end.

Fixpoint fill_zero (s : list Z) (n : nat) {struct n} : option (list Z) :=
  match n with
  | O => Some s
  | S n' => match s with _ :: s' => (0 ::.) <$> fill_zero s' n' | [] => None end
  end.

(** The two loops of [strncpy]: copy up to and including the NUL, then pad. *)
Fixpoint strncpy (s t : list Z) (n : nat) {struct n} : option (list Z) :=
  match n with
  | O => Some s
  | S n' =>
      match s, t with
      | _ :: s', b :: t' =>
          (b ::.) <$> (if negb (b =? 0) then strncpy s' t' n' else fill_zero s' n')
      | _, _ => None
      end
  end.

(** The loop copies while [--n > 0], then stores the final NUL: [n] counts the
    bytes left before the last one. *)
Fixpoint safestrcpy_loop (s t : list Z) (n : nat) {struct n} : option (list Z) :=
  match n with
  | O => match s with _ :: s' => Some (0 :: s') | [] => None end
  | S n' =>
      match s, t with
      | _ :: s', b :: t' =>
          if negb (b =? 0) then (b ::.) <$> safestrcpy_loop s' t' n'
          else match s' with _ :: s'' => Some (b :: 0 :: s'') | [] => None end
      | _, _ => None
      end
  end.

Definition safestrcpy (s t : list Z) (n : Z) : option (list Z) :=
  if n <=? 0 then Some s else safestrcpy_loop s t (Z.to_nat (n - 1)).

Definition strlen (s : list Z) : option Z := cstrlen s.

(** ** User-level string routines *)

Fixpoint strcpy (s t : list Z) : option (list Z) :=
  match s, t with
  | _ :: s', b :: t' => if negb (b =? 0) then (b ::.) <$> strcpy s' t' else Some (b :: s')
  | _, _ => None
  end.

Fixpoint strcmp (p q : list Z) : option Z :=
  match p, q with
  | a :: p', b :: q' =>
      if negb (a =? 0) && (a =? b) then strcmp p' q' else Some (u8 a - u8 b)
  | _, _ => None
  end.

(** The index of the first [c], [Some None] when the string has none.  The
    loop stops at the NUL before it compares, so the NUL is never found. *)
Fixpoint strchr (s : list Z) (c : Z) : option (option Z) :=
  match s with
  | [] => None
  | b :: s' =>
      if b =? 0 then Some None
      else if b =? c then Some (Some 0)
      else option_map (option_map Z.succ) (strchr s' c)
  end.

(** The accumulator is a 32-bit [int]; an overflow is undefined. *)
Fixpoint atoi_loop (s : list Z) (n : Z) : option Z :=
  match s with
  | [] => None
  | b :: s' =>
      if (48 <=? b) && (b <=? 57) then
        if n * 10 + b <? 2 ^ 31 then atoi_loop s' (n * 10 + b - 48) else None
      else Some n
  end.

Definition atoi (s : list Z) : option Z := atoi_loop s 0.

(** ** Flat memory: the copies *)

Lemma stosb_spec m addr data n x :
  stosb m addr data n x =
  if (addr <=? x) && (x <? addr + Z.of_nat n) then u8 data else m x.
Proof.
  revert m addr. induction n as [|n IH]; intros m addr; simpl stosb.
  - case_b; [lia|done].
  - rewrite IH. unfold upd. repeat case_b; zbool; try done; exfalso; lia.
Qed.

(** The word [stosl] stores is the byte four times. *)
Lemma store32_fill m addr c x :
  let c := Z.land c 255 in
  store32 m addr
    (Z.lor (Z.lor (Z.lor (Z.shiftl c 24) (Z.shiftl c 16)) (Z.shiftl c 8)) c) x =
  if (addr <=? x) && (x <? addr + 4) then c else m x.
Proof.
  intros b. set (w := Z.lor _ b).
  assert (Hb : 0 ≤ b < 2 ^ 8).
  { unfold b. change 255 with (2 ^ 8 - 1). rewrite land_ones_mod by lia.
    apply Z.mod_pos_bound. lia. }
  assert (Hw : w = b * (2 ^ 24 + 2 ^ 16 + 2 ^ 8 + 1)).
  { unfold w. rewrite !Z.shiftl_mul_pow2 by lia.
    rewrite (lor_shiftl_add b _ 24) by lia.
    replace (b * 2 ^ 24 + b * 2 ^ 16) with (b * (2 ^ 8 + 1) * 2 ^ 16) by lia.
    rewrite lor_shiftl_add by lia.
    replace (b * (2 ^ 8 + 1) * 2 ^ 16 + b * 2 ^ 8) with (b * (2 ^ 16 + 2 ^ 8 + 1) * 2 ^ 8) by lia.
    rewrite lor_shiftl_add by lia. lia. }
  unfold store32, upd, u8. rewrite !Z.shiftr_div_pow2, Hw by lia.
  repeat case_b; zbool; try lia; dlia.
Qed.

Lemma stosl_spec m addr c n x :
  let c := Z.land c 255 in
  stosl m addr (Z.lor (Z.lor (Z.lor (Z.shiftl c 24) (Z.shiftl c 16)) (Z.shiftl c 8)) c) n x =
  if (addr <=? x) && (x <? addr + 4 * Z.of_nat n) then c else m x.
Proof.
  intros b. revert m addr. induction n as [|n IH]; intros m addr; simpl stosl.
  - case_b; [lia|done].
  - rewrite IH. unfold b. rewrite store32_fill. fold b.
    repeat case_b; zbool; try done; exfalso; lia.
Qed.

Lemma copy_down_spec m d s n x :
  s < d →
  copy_down m d s n x =
  if (d - Z.of_nat n <=? x) && (x <? d) then m (s + (x - d)) else m x.
Proof.
  intros Hsd. revert m d s Hsd. induction n as [|n IH]; intros m d s Hsd; simpl copy_down.
  - case_b; [lia|done].
  - rewrite IH by lia. unfold upd.
    repeat case_b; zbool; try (f_equal; lia); try (exfalso; lia).
Qed.

Lemma copy_up_spec m d s n x :
  d ≤ s ∨ s + Z.of_nat n ≤ d →
  copy_up m d s n x =
  if (d <=? x) && (x <? d + Z.of_nat n) then m (s + (x - d)) else m x.
Proof.
  revert m d s. induction n as [|n IH]; intros m d s Hsd; simpl copy_up.
  - case_b; [lia|done].
  - rewrite IH by lia. unfold upd.
    repeat case_b; zbool; try (f_equal; lia); try (exfalso; lia).
Qed.

(** An ascending copy that moves up by [k] into its own source repeats the
    first [k] bytes. *)
Lemma copy_up_overlap m s k n x :
  0 < k →
  copy_up m (s + k) s n x =
  if (s + k <=? x) && (x <? s + k + Z.of_nat n) then m (s + (x - s) mod k) else m x.
Proof.
  intros Hk. revert m s. induction n as [|n IH]; intros m s; simpl copy_up.
  - case_b; [lia|done].
  - replace (s + k + 1) with (s + 1 + k) by lia. rewrite IH. unfold upd.
    assert (Hm : (x - (s + 1)) mod k = (if (x - s) mod k =? 0 then k - 1 else (x - s) mod k - 1)).
    { symmetry. apply Z.mod_unique with ((x - s) / k - if (x - s) mod k =? 0 then 1 else 0).
      - left. pose proof (Z.mod_pos_bound (x - s) k Hk). case_b; lia.
      - pose proof (Z.div_mod (x - s) k). case_b; lia. }
    rewrite Hm. pose proof (Z.mod_pos_bound (x - s) k Hk).
    assert (Hx : x = s + k → (x - s) mod k = 0).
    { intros ->. replace (s + k - s) with k by lia. apply Z.mod_same. lia. }
    destruct ((x - s) mod k =? 0) eqn:E0; zbool;
      repeat case_b; zbool; try (f_equal; lia); try (exfalso; lia).
Qed.

(** ** String buffers *)

Lemma strncmp_eq p q n :
  (n ≤ length p)%nat → (n ≤ length q)%nat →
  Forall (λ b, 0 ≤ b < 256) p → Forall (λ b, 0 ≤ b < 256) q →
  ∃ r, strncmp p q n = Some r ∧ (r = 0 ↔ cstr (take n p) = cstr (take n q)).
Proof.
  revert p q. induction n as [|n IH]; intros p q Hp Hq Fp Fq.
  - exists 0. by rewrite !take_0.
  - destruct p as [|a p], q as [|b q]; simpl in *; try lia.
    inversion Fp; inversion Fq; subst. unfold u8.
    case_b; zbool.
    + subst b. rewrite (proj2 (Z.eqb_neq a 0)) by done.
      destruct (IH p q) as (r & -> & Hr); [lia|lia|done|done|].
      exists r. split; [done|]. rewrite Hr. split; congruence.
    + rewrite !Z.mod_small by lia. exists (a - b). split; [done|].
      destruct (a =? 0) eqn:Ea, (b =? 0) eqn:Eb; zbool; simpl in *; zbool; split;
        try done; try lia; try congruence; by intros [= ->].
Qed.

Lemma fill_zero_spec s n :
  (n ≤ length s)%nat → fill_zero s n = Some (replicate n 0 ++ drop n s).
Proof.
  revert s. induction n as [|n IH]; intros s Hs; simpl; [done|].
  destruct s as [|a s]; simpl in *; [lia|]. by rewrite IH by lia.
Qed.

(** [strncpy] stores the string, cut to [n] bytes and padded with NULs. *)
Lemma strncpy_spec s t n :
  (n ≤ length s)%nat → (n ≤ length t)%nat ∨ 0 ∈ t →
  strncpy s t n =
  Some (take n (cstr t) ++ replicate (n - length (cstr t)) 0 ++ drop n s).
Proof.
  revert s t. induction n as [|n IH]; intros s t Hs Ht; simpl.
  { done. }
  destruct s as [|a s]; simpl in *; [lia|].
  destruct t as [|b t]; simpl in *.
  { destruct Ht as [?|Ht]; [lia|]. by apply not_elem_of_nil in Ht. }
  destruct (b =? 0) eqn:Eb; zbool; simpl.
  - subst. by rewrite fill_zero_spec by lia.
  - rewrite IH; [done|lia|]. destruct Ht as [?|[?|?]%elem_of_cons]; [left; lia|lia|by right].
Qed.

Lemma safestrcpy_loop_spec s t n :
  (n < length s)%nat → (n ≤ length t)%nat ∨ 0 ∈ t →
  ∃ r, safestrcpy_loop s t n = Some (take n (cstr t) ++ 0 :: r) ∧
       length (take n (cstr t) ++ 0 :: r) = length s.
Proof.
  revert s t. induction n as [|n IH]; intros s t Hs Ht; simpl.
  { destruct s as [|a s]; simpl in *; [lia|]. by exists s. }
  destruct s as [|a s]; simpl in *; [lia|].
  destruct t as [|b t]; simpl in *.
  { destruct Ht as [?|Ht]; [lia|]. by apply not_elem_of_nil in Ht. }
  destruct (b =? 0) eqn:Eb; zbool; simpl.
  - subst. destruct s as [|c s]; simpl in *; [lia|]. by exists (0 :: s).
  - destruct (IH s t) as (r & -> & Hr); [lia| |].
    { destruct Ht as [?|[?|?]%elem_of_cons]; [left; lia|lia|by right]. }
    exists r. simpl in *. split; [done|lia].
Qed.

Lemma strchr_spec s c :
  0 ∈ s → c ≠ 0 →
  strchr s c = Some (Z.of_nat ∘ fst <$> list_find (c =.) (cstr s)).
Proof.
  intros Hs Hc. induction s as [|b s IH]; [by apply not_elem_of_nil in Hs|].
  simpl. destruct (b =? 0) eqn:E0; zbool; [done|]. simpl.
  destruct (b =? c) eqn:Ec; zbool.
  - subst. by rewrite decide_True.
  - rewrite decide_False by done. rewrite IH by set_solver.
    destruct (list_find _ (cstr s)) as [[k x]|]; simpl; [|done]. do 2 f_equal. lia.
Qed.

(** ** Properties *)

(** Both ways of [memset] store the byte at the [n] addresses and nothing else. *)
Lemma memset_spec (m : memory) (dst c n x : Z) (Hn : 0 ≤ n) :
  memset m dst c n x =
  if (dst <=? x) && (x <? dst + n) then u8 c else m x.
Proof.
  unfold memset. destruct ((Z.rem (i32 dst) 4 =? 0) && (n mod 4 =? 0)) eqn:E; zbool.
  - rewrite stosl_spec.
    replace (4 * Z.of_nat (Z.to_nat (n / 4))) with n
      by (rewrite Z2Nat.id by (apply Z.div_pos; lia); dlia).
    change 255 with (2 ^ 8 - 1). by rewrite land_ones_mod.
  - rewrite stosb_spec. by rewrite Z2Nat.id.
Qed.

(** A word-aligned fill and a misaligned one. *)

Lemma memmove_spec (m : memory) (dst src n x : Z) (Hn : 0 ≤ n) :
  memmove m dst src n x =
  if (dst <=? x) && (x <? dst + n) then m (src + (x - dst)) else m x.
Proof.
  unfold memmove. destruct ((src <? dst) && (dst <? src + n)) eqn:E; zbool.
  - rewrite copy_down_spec by lia. rewrite Z2Nat.id by done.
    replace (dst + n - n) with dst by lia.
    case_b; [f_equal; lia|done].
  - rewrite copy_up_spec by lia. by rewrite Z2Nat.id.
Qed.

(** The kernel's [memmove] is the simultaneous copy of the region: for every
    position of source and destination, overlapping or not, each destination
    byte receives the byte its source held before the call, and no other byte
    of memory changes. *)
Theorem memmove_copies (m : memory) (dst src n x : Z) (Hn : 0 ≤ n) :
  memmove m dst src n x =
  if (dst <=? x) && (x <? dst + n) then m (src + (x - dst)) else m x.
Proof. by apply memmove_spec. Qed.

(** The user-level [memmove] of [ulib.c] copies forward whatever the overlap:
    when the destination lies [k > 0] bytes above the source, the region ends up
    holding the first [k] source bytes over and over, so every byte from the
    [k]-th on is lost unless [n <= k]. *)
Theorem umemmove_overlap (m : memory) (src k n x : Z) (Hk : 0 < k) (Hn : 0 ≤ n) :
  umemmove m (src + k) src n x =
  if (src + k <=? x) && (x <? src + k + n) then m (src + (x - src) mod k) else m x.
Proof. unfold umemmove. rewrite copy_up_overlap by done. by rewrite Z2Nat.id. Qed.

(** A name copied with [strncpy] compares equal under [strncmp] of the same
    width, and [strncmp] tells any two different names apart; names longer than
    the width are cut, so only the first [n] bytes count. *)
Theorem strncpy_strncmp (s t t' : list Z) (n : nat)
    (Hs : (n ≤ length s)%nat)
    (Ht : (n ≤ length t)%nat) (Ht' : (n ≤ length t')%nat)
    (Bt : Forall (λ b, 0 ≤ b < 256) t) (Bt' : Forall (λ b, 0 ≤ b < 256) t')
    (Bs : Forall (λ b, 0 ≤ b < 256) s) :
  ∃ s' r, strncpy s t n = Some s' ∧ length s' = length s ∧
    strncmp t' s' n = Some r ∧
    (r = 0 ↔ cstr (take n t') = cstr (take n t)).
Proof.
  rewrite strncpy_spec by auto. set (s' := take n (cstr t) ++ _).
  assert (Hl : length s' = length s).
  { unfold s'. rewrite !length_app, length_take, length_replicate, length_drop. lia. }
  assert (Bs' : Forall (λ b, 0 ≤ b < 256) s').
  { unfold s'. rewrite !Forall_app. split_and!.
    - apply Forall_take. clear -Bt. induction Bt; simpl; [done|]. case_b; by constructor.
    - apply Forall_replicate. lia.
    - by apply Forall_drop. }
  destruct (strncmp_eq t' s' n) as (r & Hr & Hiff); [done|lia|done|done|].
  exists s', r. split_and!; [done..|]. rewrite Hiff.
  replace (cstr (take n s')) with (cstr (take n t)); [done|].
  unfold s'. clear. revert n s. induction t as [|b t IH]; intros n s.
  - rewrite take_nil. simpl. rewrite take_nil. simpl. rewrite Nat.sub_0_r.
    rewrite take_app_le by (rewrite length_replicate; lia).
    rewrite take_replicate, Nat.min_id. by destruct n.
  - destruct n as [|n]; [done|]. simpl. destruct (b =? 0) eqn:Eb; simpl; [done|].
    rewrite Eb. f_equal. rewrite (IH n (tail s)). destruct s; simpl; by rewrite ?drop_nil.
Qed.

(** [safestrcpy] keeps the buffer's size, stores at most [n - 1] bytes of the
    source string and always leaves it NUL-terminated. *)
Theorem safestrcpy_terminates (s t : list Z) (n : Z)
    (Hn : 0 < n ≤ Z.of_nat (length s)) (Ht : 0 ∈ t) :
  ∃ s', safestrcpy s t n = Some s' ∧ length s' = length s ∧
    cstr s' = take (Z.to_nat (n - 1)) (cstr t) ∧
    cstrlen s' = Some (Z.min (n - 1) (Z.of_nat (length (cstr t)))).
Proof.
  unfold safestrcpy. rewrite (proj2 (Z.leb_gt n 0)) by lia.
  destruct (safestrcpy_loop_spec s t (Z.to_nat (n - 1))) as (r & -> & Hl); [lia|by right|].
  pose proof (cstr_nonzero t) as Hc.
  eexists. split_and!; [done|done|apply cstr_app; by apply Forall_take|].
  rewrite cstrlen_app by (by apply Forall_take).
  rewrite length_take. f_equal. lia.
Qed.

