(* ===== verification/Umalloc.v ===== *)
(** * The user-level allocator

    [src/umalloc.c] over the words of a process's memory.  A [Header] at [p] is the word [p] ([s.ptr]) and the word [p + 4]
    ([s.size], in headers); [base] is the static header.  [sbrk] is an interface: the kernel moves the end of the process.
    Loops take [fuel]; a run that exhausts it is [Ub "loop"].

    Theorems: against any client that uses the blocks as C asks, [malloc] and [free] are the abstract allocator that hands out
    fresh, disjoint blocks of at least the size asked for and never touches a block that is in use. *)
From S2P Require Import Prelude.

(** ** The break *)

Class Break (K : Type) := {
  brk : K → Z;
  k_sbrk : Z → K → Z * K
}.

(** [sbrk] of an amount that is not negative fails, or adds the memory after the break. *)
Class BreakOk (K : Type) `{Break K} (limit : Z) := {
  brk_good : K → Prop;
  limit_user : 0 < limit ≤ 2 ^ 31;
  sbrk_law k n : brk_good k → 0 ≤ n < 2 ^ 31 →
    let '(r, k') := k_sbrk n k in
    brk_good k' ∧ ((r = u32 (-1) ∧ brk k' = brk k) ∨ (r = brk k ∧ brk k' = brk k + n ∧ brk k' ≤ limit))
}.

Section malloc.
Context {K : Type} `{Break K} (base : Z) (fuel : nat).

Record heap : Type := Heap { h_mem : Z → Z; freep : Z; h_k : K }.

Definition get_ptr (p : Z) : cm heap Z := gets (λ h, h_mem h p).
Definition get_size (p : Z) : cm heap Z := gets (λ h, h_mem h (p + 4)).
Definition put_word (a v : Z) : cm heap unit := modify (λ h, Heap (upd (h_mem h) a v) (freep h) (h_k h)).
Definition set_ptr (p v : Z) : cm heap unit := put_word p v.
Definition set_size (p v : Z) : cm heap unit := put_word (p + 4) v.
Definition set_freep (p : Z) : cm heap unit := modify (λ h, Heap (h_mem h) p (h_k h)).
Definition sbrk (n : Z) : cm heap Z := λ h, let '(r, k') := k_sbrk (i32 n) (h_k h) in Ok r (Heap (h_mem h) (freep h) k').

(** [p + n] for a [Header *p]. *)
Definition hdr (p n : Z) : Z := u32 (p + 8 * n).

(** The loop of [free]: the free block before [bp]. *)
Fixpoint free_find (f : nat) (bp p : Z) : cm heap Z :=
  match f with
  | O => ub "loop"
  | S f' =>
      n ← get_ptr p;
      if (p <? bp) && (bp <? n) then mret p else
      if (n <=? p) && ((p <? bp) || (bp <? n)) then mret p else
      free_find f' bp n
  end.

(** [if(bp + bp->s.size == p->s.ptr)] and its branches. *)
Definition free_upper (bp p : Z) : cm heap unit :=
  bs ← get_size bp;
  n ← get_ptr p;
  if hdr bp bs =? n then
    ns ← get_size n;
    set_size bp (u32 (bs + ns)) ;;
    nn ← get_ptr n;
    set_ptr bp nn
  else set_ptr bp n.

(** [if(p + p->s.size == bp)] and its branches. *)
Definition free_lower (bp p : Z) : cm heap unit :=
  ps ← get_size p;
  if hdr p ps =? bp then
    bs ← get_size bp;
    set_size p (u32 (ps + bs)) ;;
    bn ← get_ptr bp;
    set_ptr p bn
  else set_ptr p bp.

Definition free (ap : Z) : cm heap unit :=
  let bp := hdr ap (-1) in
  p0 ← gets freep;
  p ← free_find fuel bp p0;
  free_upper bp p ;;
  free_lower bp p ;;
  set_freep p.

Definition morecore (nu : Z) : cm heap Z :=
  let nu := if nu <? 4096 then 4096 else nu in
  p ← sbrk (u32 (nu * 8));
  if p =? u32 (-1) then mret 0 else
  set_size p nu ;;
  free (hdr p 1) ;;
  gets freep.

(** The block [p] is large enough. *)
Definition malloc_take (nunits prevp p : Z) : cm heap Z :=
  ps ← get_size p;
  if ps =? nunits then
    n ← get_ptr p;
    set_ptr prevp n ;;
    set_freep prevp ;;
    mret (hdr p 1)
  else
    set_size p (u32 (ps - nunits)) ;;
    ps' ← get_size p;
    let p' := hdr p ps' in
    set_size p' nunits ;;
    set_freep prevp ;;
    mret (hdr p' 1).

Fixpoint malloc_loop (f : nat) (nunits prevp p : Z) : cm heap Z :=
  match f with
  | O => ub "loop"
  | S f' =>
      ps ← get_size p;
      if nunits <=? ps then malloc_take nunits prevp p else
      fp ← gets freep;
      if p =? fp then
        p' ← morecore nunits;
        if p' =? 0 then mret 0 else
        n ← get_ptr p'; malloc_loop f' nunits p' n
      else n ← get_ptr p; malloc_loop f' nunits p n
  end.

Definition units (nbytes : Z) : Z := u32 (u32 (nbytes + 8 - 1) / 8 + 1).

Definition malloc (nbytes : Z) : cm heap Z :=
  let nunits := units nbytes in
  p0 ← gets freep;
  prevp ← (if p0 =? 0 then set_freep base ;; set_ptr base base ;; set_size base 0 ;; mret base else mret p0);
  n ← get_ptr prevp;
  malloc_loop fuel nunits prevp n.

(** ** What the heap holds

    A block is its address and its size in headers.  The free blocks form a circle through [base] in the order of their
    addresses, no two of them adjacent. *)
Abbreviation block := (Z * Z)%type.

Definition first (l : list block) (e : Z) : Z := match l with [] => e | (a, _) :: _ => a end.

Fixpoint chain (m : Z → Z) (l : list block) (e : Z) : Prop :=
  match l with
  | [] => True
  | (a, s) :: l' => m a = first l' e ∧ m (a + 4) = s ∧ chain m l' e
  end.

(** In the order of the addresses, with a gap before each block. *)
Fixpoint laid (lo : Z) (l : list block) (hi : Z) : Prop :=
  match l with
  | [] => lo ≤ hi
  | (a, s) :: l' => lo < a ∧ 0 ≤ s ∧ laid (a + 8 * s) l' hi
  end.

Definition apart (b c : block) : Prop := b.1 + 8 * b.2 ≤ c.1 ∨ c.1 + 8 * c.2 ≤ b.1.

Fixpoint all_apart (l : list block) : Prop :=
  match l with
  | [] => True
  | b :: l' => Forall (apart b) l' ∧ all_apart l'
  end.

Definition real (b : block) : Prop := base + 8 ≤ b.1 ∧ 0 < b.2.

(** A block in use: it lies between [base] and the break, and its header has its size. *)
Definition in_use (m : Z → Z) (top : Z) (b : block) : Prop := real b ∧ b.1 + 8 * b.2 ≤ top ∧ m (b.1 + 4) = b.2.

Abbreviation ring fr := ((base, 0) :: fr).

(** The free blocks [fr] and the blocks in use [us]. *)
Record ready (fr us : list block) (h : heap) : Prop := {
  rd_brk : base + 8 ≤ brk (h_k h);
  rd_freep : freep h ∈ (ring fr).*1;
  rd_chain : chain (h_mem h) (ring fr) base;
  rd_laid : laid (base - 1) (ring fr) (brk (h_k h));
  rd_real : Forall real fr;
  rd_used : Forall (in_use (h_mem h) (brk (h_k h))) us;
  rd_mixed : Forall (λ b, Forall (apart b) us) fr;
  rd_apart : all_apart us
}.

(** ** Lists of blocks *)

Lemma chain_app m l1 l2 e : chain m (l1 ++ l2) e ↔ chain m l1 (first l2 e) ∧ chain m l2 e.
Proof.
  induction l1 as [|[a s] l1 IH]; cbn; [tauto|]. rewrite IH.
  assert (first (l1 ++ l2) e = first l1 (first l2 e)) as -> by (by destruct l1 as [|[??] ?]). tauto.
Qed.

Lemma chain_frame m m' l e :
  (∀ a s, (a, s) ∈ l → m' a = m a ∧ m' (a + 4) = m (a + 4)) → chain m l e → chain m' l e.
Proof.
  induction l as [|[a s] l IH]; [done|]. intros Hf (E1 & E2 & Hl). destruct (Hf a s) as [F1 F2]; [left|]. cbn.
  split; [congruence|]. split; [congruence|]. apply IH; [|done]. intros b t Hb. apply (Hf b t). by right.
Qed.

Lemma laid_weaken lo lo' l hi hi' : lo' ≤ lo → hi ≤ hi' → laid lo l hi → laid lo' l hi'.
Proof. revert lo lo'. induction l as [|[a s] l IH]; cbn; intros lo lo' H1 H2; [lia|]. intros (? & ? & ?). repeat split; [lia..|]. by eapply IH; [| |done]. Qed.

Lemma laid_le lo l hi : laid lo l hi → lo ≤ hi.
Proof. revert lo. induction l as [|[a s] l IH]; cbn; intros lo; [done|]. intros (? & ? & HL). apply IH in HL. lia. Qed.

Lemma laid_elem lo l hi a s : laid lo l hi → (a, s) ∈ l → lo < a ∧ 0 ≤ s ∧ a + 8 * s ≤ hi.
Proof.
  revert lo. induction l as [|[b t] l IH]; cbn; intros lo; [intros _ E; by apply not_elem_of_nil in E|].
  intros (? & ? & HL) E. apply elem_of_cons in E as [[= -> ->]|E]; [apply laid_le in HL; lia|].
  destruct (IH _ HL E). lia.
Qed.

Lemma laid_app lo l1 a s l2 hi :
  laid lo (l1 ++ (a, s) :: l2) hi ↔ laid lo l1 (a - 1) ∧ 0 ≤ s ∧ laid (a + 8 * s) l2 hi.
Proof.
  revert lo. induction l1 as [|[b t] l1 IH]; cbn; intros lo; [lia || (split; intuition lia)|]. rewrite IH. tauto.
Qed.

Lemma apart_sym b c : apart b c → apart c b.
Proof. unfold apart. lia. Qed.

Lemma apart_join a s t c : apart (a, s) c → apart (a + 8 * s, t) c → 0 < s → 0 < t → 0 < c.2 → apart (a, s + t) c.
Proof. unfold apart. cbn. lia. Qed.

Lemma apart_sub a s b t c : apart (a, s) c → a ≤ b → b + 8 * t ≤ a + 8 * s → apart (b, t) c.
Proof. unfold apart. cbn. lia. Qed.

Lemma all_apart_app l1 b l2 : all_apart (l1 ++ b :: l2) ↔ Forall (apart b) (l1 ++ l2) ∧ all_apart (l1 ++ l2).
Proof.
  induction l1 as [|c l1 IH]; cbn; [done|]. rewrite IH, !Forall_cons, !Forall_app, !Forall_cons.
  split; intros; destruct_and!; split_and!; auto using apart_sym.
Qed.

(** ** The invariant *)

Section laws.
Context (limit : Z) `{!BreakOk K limit} (Hbase : 0 < base).

Lemma hdr_small p n : 0 ≤ p + 8 * n < 2 ^ 32 → hdr p n = p + 8 * n.
Proof. apply u32_small. Qed.

(** A block that nobody uses and that is not on the list yet. *)
Definition loose (fr us : list block) (m : Z → Z) (top : Z) (b : block) : Prop :=
  in_use m top b ∧ Forall (λ c, apart c b) fr ∧ Forall (apart b) us.

Section ring.
Context (fr us : list block) (h : heap) (R : ready fr us h) (top : Z) (Etop : top = brk (h_k h)) (Htop : top ≤ limit).

Lemma top_small : top < 2 ^ 32.
Proof using BreakOk0 Htop. pose proof limit_user. lia. Qed.

Lemma ring_base a s k2 : ring fr = (a, s) :: k2 → a = base ∧ s = 0 ∧ k2 = fr.
Proof. by intros [= <- <- <-]. Qed.

(** The blocks before and after one of the ring. *)
Lemma ring_split k1 q qs k2 :
  ring fr = k1 ++ (q, qs) :: k2 →
  base ≤ q ∧ 0 ≤ qs ∧ q + 8 * qs ≤ top ∧ laid (base - 1) k1 (q - 1) ∧ laid (q + 8 * qs) k2 top ∧
  (∀ a s, (a, s) ∈ k1 → a + 8 ≤ q ∧ a + 8 * s < q) ∧ (∀ a s, (a, s) ∈ k2 → q + 8 ≤ a ∧ q + 8 * qs < a ∧ 0 < s).
Proof using R Etop.
  intros E. pose proof (rd_laid _ _ _ R) as HL. pose proof (rd_real _ _ _ R) as Hr. rewrite <- Etop in HL.
  rewrite E in HL. pose proof HL as HL0. apply laid_app in HL as (H1 & H2 & H3). pose proof (laid_le _ _ _ H1). pose proof (laid_le _ _ _ H3).
  assert (Hk : ∀ a s, (a, s) ∈ k2 → base + 8 ≤ a ∧ 0 < s).
  { intros a s Ha. assert (Hin : (a, s) ∈ fr).
    { destruct k1 as [|b k1]; [injection E as _ _ E1|injection E as _ E1]; rewrite E1; [done|]. apply elem_of_app. right. by right. }
    apply (proj1 (Forall_forall _ _) Hr _ Hin). }
  assert (Hq : k1 = [] ∧ q = base ∧ qs = 0 ∨ base + 8 ≤ q ∧ 0 < qs).
  { destruct k1 as [|b k1]; [left; by injection E as <- <- _|right]. injection E as _ E.
    assert (Hin : (q, qs) ∈ fr) by (rewrite E; apply elem_of_app; right; left). apply (proj1 (Forall_forall _ _) Hr _ Hin). }
  split_and!; try done; try lia.
  - intros a s Ha. destruct (laid_elem _ _ _ _ _ H1 Ha) as (? & ? & ?). split; [|lia]. destruct Hq as [(-> & _)|Hq]; [by apply not_elem_of_nil in Ha|].
    destruct k1 as [|b k1]; [by apply not_elem_of_nil in Ha|]. injection E as <- E. apply elem_of_cons in Ha as [[= -> ->]|Ha]; [lia|].
    assert (Hin : (a, s) ∈ fr) by (rewrite E; apply elem_of_app; by left).
    destruct (proj1 (Forall_forall _ _) Hr _ Hin) as [? ?]. cbn in *. lia.
  - intros a s Ha. destruct (laid_elem _ _ _ _ _ H3 Ha) as (? & ? & ?). destruct (Hk _ _ Ha). lia.
Qed.

Lemma ring_elem a s : (a, s) ∈ ring fr → base ≤ a ∧ 0 ≤ s ∧ a + 8 * s ≤ top ∧ h_mem h (a + 4) = s.
Proof using R Etop.
  intros Ha. apply list_elem_of_split in Ha as (k1 & k2 & E). destruct (ring_split _ _ _ _ E) as (? & ? & ? & _).
  pose proof (rd_chain _ _ _ R) as Hc. rewrite E in Hc. apply chain_app in Hc as [_ (_ & Es & _)]. done.
Qed.

Lemma ring_next k1 q qs k2 : ring fr = k1 ++ (q, qs) :: k2 → h_mem h q = first k2 base ∧ h_mem h (q + 4) = qs.
Proof using R. intros E. pose proof (rd_chain _ _ _ R) as Hc. rewrite E in Hc. apply chain_app in Hc as [_ (? & ? & _)]. done. Qed.

Lemma ring_length : 8 * Z.of_nat (length (ring fr)) ≤ limit.
Proof using R Etop Htop Hbase.
  assert (HL : ∀ l lo, laid lo l top → Forall real l → lo + 8 * Z.of_nat (length l) ≤ top).
  { induction l as [|[a s] l IH]; cbn; intros lo; [lia|]. intros (H1 & H2 & H3) Hr. apply Forall_cons in Hr as [[_ Hs] Hr]. cbn in Hs.
    specialize (IH _ H3 Hr). lia. }
  pose proof (rd_laid _ _ _ R) as (_ & _ & H3). rewrite <- Etop in H3. pose proof (rd_real _ _ _ R) as Hr.
  assert (Hlo : laid (base + 7) fr top).
  { destruct fr as [|[a s] l]; cbn in *; [pose proof (rd_brk _ _ _ R); lia|]. destruct H3 as (? & ? & ?). apply Forall_cons in Hr as [[? ?] _]. cbn in *. split_and!; [lia|done..]. }
  specialize (HL _ _ Hlo Hr). cbn [length]. lia.
Qed.

(** ** The search of [free] *)

Context (bp n : Z) (L : loose fr us (h_mem h) top (bp, n)).

Lemma loose_side a s : (a, s) ∈ ring fr → a + 8 ≤ bp ∧ a + 8 * s ≤ bp ∨ bp + 8 * n ≤ a.
Proof using R L Etop.
  intros Ha. destruct L as (((Hb & Hn) & _ & _) & Hf & _). cbn in Hb, Hn. apply elem_of_cons in Ha as [[= -> ->]|Ha]; [left; lia|].
  pose proof (proj1 (Forall_forall _ _) Hf _ Ha) as Hap. pose proof (proj1 (Forall_forall _ _) (rd_real _ _ _ R) _ Ha) as [_ Hs].
  unfold apart in Hap. cbn in *. lia.
Qed.

(** The block of the ring before [bp]. *)
Definition before (q qs : Z) (j1 j2 : list block) : Prop :=
  ring fr = j1 ++ (q, qs) :: j2 ∧ q < bp ∧ ∀ a s, (a, s) ∈ j2 → bp < a.

Lemma find_up k2 : ∀ k1 p ps f,
  ring fr = k1 ++ (p, ps) :: k2 → p < bp → (length k2 < f)%nat →
  ∃ q qs j1 j2, before q qs j1 j2 ∧ free_find f bp p h = Ok q h.
Proof using R L Etop.
  induction k2 as [|[a s] k2 IH]; intros k1 p ps [|f] E Hp Hf; cbn [length] in Hf; try lia; cbn [free_find]; unfold get_ptr; rewrite bind_gets;
    destruct (ring_next _ _ _ _ E) as [-> _]; cbn [first].
  - destruct (ring_split _ _ _ _ E) as (Hb & _). exists p, ps, k1, []. split; [split_and!; try done; intros ? ? Ha; by apply not_elem_of_nil in Ha|].
    destruct L as (((Hbb & _) & _) & _). cbn in Hbb.
    rewrite (proj2 (Z.ltb_ge bp base)), andb_false_r by lia. by rewrite (proj2 (Z.leb_le base p)), (proj2 (Z.ltb_lt p bp)) by lia.
  - destruct (ring_split _ _ _ _ E) as (_ & _ & _ & _ & HL & _ & Hk2). destruct (Hk2 a s) as (Ha & _); [left|].
    assert (Hin : (a, s) ∈ ring fr) by (rewrite E; apply elem_of_app; right; right; left).
    rewrite (proj2 (Z.ltb_lt p bp)), (proj2 (Z.leb_gt a p)) by lia. cbn [andb]. destruct (Z.ltb_spec bp a) as [Hlt|Hge].
    + exists p, ps, k1, ((a, s) :: k2). split; [|done]. split_and!; try done. intros c cs Hc.
      apply elem_of_cons in Hc as [[= -> ->]|Hc]; [done|]. cbn in HL. destruct HL as (_ & ? & HL). destruct (laid_elem _ _ _ _ _ HL Hc). lia.
    + apply (IH (k1 ++ [(p, ps)]) a s); [by rewrite <- app_assoc| |lia]. pose proof (loose_side _ _ Hin).
      destruct L as (((_ & ?) & _) & _). cbn in *. lia.
Qed.

Lemma find_wrap k2 : ∀ k1 p ps f,
  ring fr = k1 ++ (p, ps) :: k2 → bp < p → (length k2 + length (ring fr) < f)%nat →
  ∃ q qs j1 j2, before q qs j1 j2 ∧ free_find f bp p h = Ok q h.
Proof using R L Etop.
  induction k2 as [|[a s] k2 IH]; intros k1 p ps [|f] E Hp Hf; cbn [length] in Hf; try lia; cbn [free_find]; unfold get_ptr; rewrite bind_gets;
    destruct (ring_next _ _ _ _ E) as [-> _]; cbn [first]; rewrite (proj2 (Z.ltb_ge p bp)) by lia; cbn [andb orb].
  - destruct L as (((Hbb & _) & _) & _). cbn in Hbb. rewrite (proj2 (Z.ltb_ge bp base)), andb_false_r by lia.
    apply (find_up fr [] base 0 f); [done|lia|lia].
  - destruct (ring_split _ _ _ _ E) as (_ & _ & _ & _ & _ & _ & Hk2). destruct (Hk2 a s) as (Ha & _); [left|].
    rewrite (proj2 (Z.leb_gt a p)) by lia. cbn [andb]. apply (IH (k1 ++ [(p, ps)]) a s); [by rewrite <- app_assoc|lia|cbn [length]; lia].
Qed.

Lemma find_ok p0 f :
  p0 ∈ (ring fr).*1 → (2 * length (ring fr) ≤ f)%nat → ∃ q qs j1 j2, before q qs j1 j2 ∧ free_find f bp p0 h = Ok q h.
Proof using R L Etop.
  intros Hp Hf. apply list_elem_of_fmap in Hp as ([p ps] & -> & Hp). cbn [fst]. pose proof (loose_side _ _ Hp) as Hs.
  destruct L as (((_ & Hn) & _) & _). cbn in Hn. apply list_elem_of_split in Hp as (k1 & k2 & E).
  assert (Hl : (length k2 < length (ring fr))%nat) by (rewrite E, length_app; cbn; lia).
  destruct (Z.lt_ge_cases p bp); [eapply find_up; [done..|lia]|eapply find_wrap; [done|lia..]].
Qed.

(** ** The merges of [free] *)

Context (q qs : Z) (j1 j2 : list block) (B : before q qs j1 j2).

(** What [bp] has become, and what follows it. *)
Definition merged_up (ns : Z) (r : list block) : Prop :=
  r = j2 ∧ ns = n ∧ bp + 8 * n ≠ first j2 base ∨ ∃ cs, j2 = (bp + 8 * n, cs) :: r ∧ ns = n + cs.

Lemma loose_bounds : base + 8 ≤ bp ∧ 0 < n ∧ bp + 8 * n ≤ top ∧ h_mem h (bp + 4) = n.
Proof using L. destruct L as (((? & ?) & ? & ?) & _). done. Qed.

Lemma upper_ok : ∃ ns r m1,
  free_upper bp q h = Ok tt (Heap m1 (freep h) (h_k h)) ∧ merged_up ns r ∧ m1 bp = first r base ∧ m1 (bp + 4) = ns ∧
  ∀ x, x ≠ bp → x ≠ bp + 4 → m1 x = h_mem h x.
Proof using R L B Etop Htop Hbase BreakOk0.
  destruct loose_bounds as (Hb & Hn & Ht & Es). destruct B as (E & Hq & Hj). pose proof top_small. destruct (ring_next _ _ _ _ E) as [En _].
  unfold free_upper, get_size, get_ptr, set_size, set_ptr, put_word. rewrite !bind_gets, Es, En, hdr_small by lia.
  destruct (Z.eqb_spec (bp + 8 * n) (first j2 base)) as [He|He].
  - destruct j2 as [|[c cs] r] eqn:Ej; cbn [first] in *; [lia|]. clear En. subst c.
    assert (E' : ring fr = (j1 ++ [(q, qs)]) ++ (bp + 8 * n, cs) :: r) by (by rewrite <- app_assoc).
    destruct (ring_next _ _ _ _ E') as [En' Es']. destruct (ring_split _ _ _ _ E') as (_ & ? & ? & _).
    rewrite bind_gets, bind_modify, bind_gets. cbn [h_mem freep h_k]. rewrite upd_ne, Es', En', u32_small by lia.
    eexists (n + cs), r, _. split; [reflexivity|]. cbn [h_mem freep h_k]. split; [right; by exists cs|]. split; [apply upd_eq|]. split; [by rewrite upd_ne, upd_eq by lia|].
    intros x Hx Hx'. by rewrite !upd_ne by done.
  - eexists n, j2, _. split; [reflexivity|]. split; [by left|]. split; [apply upd_eq|]. split; [by rewrite upd_ne by lia|].
    intros x Hx Hx'. by rewrite upd_ne by done.
Qed.

(** The ring with the block in it. *)
Definition merged (fr' : list block) (ns : Z) (r : list block) : Prop :=
  q + 8 * qs = bp ∧ ring fr' = j1 ++ (q, qs + ns) :: r ∨ ring fr' = j1 ++ (q, qs) :: (bp, ns) :: r ∧ q + 8 * qs < bp.

Lemma merged_facts ns r : merged_up ns r → 0 < ns ∧ laid (bp + 8 * ns) r top ∧ bp + 8 * ns ≤ top ∧
  (∀ a s, (a, s) ∈ r → (a, s) ∈ j2) ∧ chain (h_mem h) r base.
Proof using R L B Etop Htop Hbase BreakOk0.
  destruct loose_bounds as (Hb & Hn & Ht & Es). destruct B as (E & Hq & Hj). destruct (ring_split _ _ _ _ E) as (_ & _ & _ & _ & HL & _).
  pose proof (rd_chain _ _ _ R) as Hc. rewrite E in Hc. apply chain_app in Hc as [_ (_ & _ & Hc)].
  intros [(-> & -> & Hne)|(cs & Ej & ->)].
  - split_and!; try done. destruct j2 as [|[c cs] j2'] eqn:Ej; cbn in *; [done|]. destruct HL as (? & ? & HL). split_and!; try done.
    assert (Hin : (c, cs) ∈ ring fr) by (rewrite E; apply elem_of_app; right; right; left). pose proof (loose_side _ _ Hin).
    specialize (Hj c cs ltac:(left)). lia.
  - rewrite Ej in HL, Hc. cbn in HL, Hc. destruct HL as (? & Hs & HL). destruct Hc as (_ & _ & Hc).
    pose proof (laid_le _ _ _ HL). split_and!; try done; [lia| |lia|].
    + by replace (bp + 8 * (n + cs)) with (bp + 8 * n + 8 * cs) by lia.
    + intros a s Ha. rewrite Ej. by right.
Qed.

Lemma lower_ok ns r m1 :
  merged_up ns r → m1 bp = first r base → m1 (bp + 4) = ns → (∀ x, x ≠ bp → x ≠ bp + 4 → m1 x = h_mem h x) →
  ∃ fr' m2, free_lower bp q (Heap m1 (freep h) (h_k h)) = Ok tt (Heap m2 (freep h) (h_k h)) ∧ merged fr' ns r ∧
    chain m2 (ring fr') base ∧ ∀ x, x ≠ bp → x ≠ bp + 4 → x ≠ q → x ≠ q + 4 → m2 x = h_mem h x.
Proof using R L B Etop Htop Hbase BreakOk0.
  intros Hm E1 E2 Hx. destruct (merged_facts _ _ Hm) as (Hns & HL & Hle & Hr & Hc).
  destruct loose_bounds as (Hb & Hn & Ht & _). destruct B as (E & Hq & Hj). pose proof top_small. destruct (ring_next _ _ _ _ E) as [_ Es].
  destruct (ring_split _ _ _ _ E) as (? & ? & ? & _ & _ & Hj1 & Hj2).
  assert (Hin : (q, qs) ∈ ring fr) by (rewrite E; apply elem_of_app; right; left). destruct (loose_side _ _ Hin) as [[? ?]|?]; [|lia].
  pose proof (rd_chain _ _ _ R) as Hc0. rewrite E in Hc0. apply chain_app in Hc0 as [Hc1 _]. cbn [first] in Hc1.
  assert (Hrest : ∀ m2, (∀ x, x ≠ bp → x ≠ bp + 4 → x ≠ q → x ≠ q + 4 → m2 x = h_mem h x) → chain m2 j1 q ∧ chain m2 r base).
  { intros m2 Hm2. split; eapply chain_frame; [|exact Hc1| |exact Hc]; intros a s Ha.
    - destruct (Hj1 _ _ Ha). rewrite !Hm2 by lia. done.
    - specialize (Hr _ _ Ha). destruct (Hj2 _ _ Hr). specialize (Hj _ _ Hr).
      assert (Hin' : (a, s) ∈ ring fr) by (rewrite E; apply elem_of_app; right; by right). pose proof (loose_side _ _ Hin'). rewrite !Hm2 by lia. done. }
  unfold free_lower, get_size, get_ptr, set_size, set_ptr, put_word. rewrite bind_gets. cbn [h_mem]. rewrite Hx, Es, hdr_small by lia.
  destruct (Z.eqb_spec (q + 8 * qs) bp) as [He|He].
  - rewrite bind_gets, bind_modify, bind_gets. cbn [h_mem freep h_k]. rewrite E2, upd_ne, E1, u32_small by lia.
    set (m2 := upd (upd m1 (q + 4) (qs + ns)) q (first r base)).
    assert (Hm2 : ∀ x, x ≠ bp → x ≠ bp + 4 → x ≠ q → x ≠ q + 4 → m2 x = h_mem h x) by (intros x ????; unfold m2; by rewrite !upd_ne, Hx by done).
    destruct (Hrest m2 Hm2) as [C1 C2].
    assert (Hfr : ∃ fr', ring fr' = j1 ++ (q, qs + ns) :: r).
    { destruct j1 as [|b j1']; [injection E as <- <- _; lia|injection E as <- _]. by eexists. }
    destruct Hfr as [fr' Ef]. exists fr', m2. split; [done|]. split; [by left|]. split; [|done]. rewrite Ef. apply chain_app.
    split; [done|]. cbn [chain]. split; [apply upd_eq|]. split; [|done]. unfold m2. by rewrite upd_ne, upd_eq by lia.
  - cbn [h_mem freep h_k].
    set (m2 := upd m1 q bp).
    assert (Hm2 : ∀ x, x ≠ bp → x ≠ bp + 4 → x ≠ q → x ≠ q + 4 → m2 x = h_mem h x) by (intros x ????; unfold m2; by rewrite !upd_ne, Hx by done).
    destruct (Hrest m2 Hm2) as [C1 C2].
    assert (Hfr : ∃ fr', ring fr' = j1 ++ (q, qs) :: (bp, ns) :: r).
    { destruct j1 as [|b j1']; [injection E as <- <- _|injection E as <- _]; by eexists. }
    destruct Hfr as [fr' Ef]. exists fr', m2. split; [done|]. split; [right; split; [done|lia]|]. split; [|done]. rewrite Ef. apply chain_app.
    split; [done|]. cbn [chain]. split; [apply upd_eq|]. unfold m2. rewrite !upd_ne by lia. by rewrite Hx, E1, E2 by lia.
Qed.

(** The new ring is in order, its blocks are free ones. *)
Lemma merged_laid fr' ns r : merged_up ns r → merged fr' ns r → laid (base - 1) (ring fr') top.
Proof using R L B Etop Htop Hbase BreakOk0.
  intros Hm Hf. destruct (merged_facts _ _ Hm) as (Hns & HL & _). destruct B as (E & Hq & _). destruct (ring_split _ _ _ _ E) as (_ & ? & _ & H1 & _).
  destruct Hf as [[He ->]|[-> Hlt]]; apply laid_app; split_and!; try done; [lia| |].
  - by replace (q + 8 * (qs + ns)) with (bp + 8 * ns) by lia.
  - cbn. split_and!; [lia|lia|done].
Qed.

(** A property of blocks that merging keeps. *)
Lemma merged_all (P : block → Prop) fr' ns r :
  (∀ a s t, P (a, s) → P (a + 8 * s, t) → 0 < s → 0 < t → P (a, s + t)) → P (bp, n) → Forall P fr →
  merged_up ns r → merged fr' ns r → Forall P fr'.
Proof using R L B Etop Htop Hbase BreakOk0.
  intros HP Hbn Hfr Hm Hf. destruct (merged_facts _ _ Hm) as (Hns & _). pose proof B as (E & Hq & _). destruct loose_bounds as (Hb & Hn & _).
  pose proof (rd_real _ _ _ R) as Hreal.
  assert (Hj : Forall P j2 ∧ Forall real j2).
  { destruct j1 as [|b j1']; [injection E as _ _ E|injection E as _ E]; rewrite E in Hfr, Hreal; [done|].
    apply Forall_app in Hfr as [_ Hfr]. apply Forall_cons in Hfr as [_ ?]. apply Forall_app in Hreal as [_ Hreal]. by apply Forall_cons in Hreal as [_ ?]. }
  destruct Hj as [HPj Hrj].
  assert (HP2 : P (bp, ns) ∧ Forall P r).
  { destruct Hm as [(-> & -> & _)|(cs & Ej & ->)]; [done|]. rewrite Ej in HPj, Hrj. apply Forall_cons in HPj as [? ?]. apply Forall_cons in Hrj as [[_ ?] _].
    cbn in *. split; [|done]. by apply HP. }
  destruct HP2 as [HPb HPr]. destruct Hf as [[He Ef]|[Ef Hlt]].
  - destruct j1 as [|b j1']; [injection E as <- <- _; lia|]. injection E as _ E. injection Ef as _ Ef. rewrite E in Hfr, Hreal. rewrite Ef.
    apply Forall_app in Hfr as [? Hfr]. apply Forall_cons in Hfr as [? _]. apply Forall_app in Hreal as [_ Hreal]. apply Forall_cons in Hreal as [[_ ?] _].
    apply Forall_app. split; [done|]. apply Forall_cons. split; [|done]. apply HP; try done. by rewrite He.
  - destruct j1 as [|b j1']; [injection Ef as _ _ Ef; rewrite Ef; by repeat (apply Forall_cons; split)|].
    injection E as _ E. injection Ef as _ Ef. rewrite E in Hfr. rewrite Ef. apply Forall_app in Hfr as [? Hfr]. apply Forall_cons in Hfr as [? _].
    apply Forall_app. split; [done|]. by repeat (apply Forall_cons; split).
Qed.
End ring.

Context (Hfuel : limit + 8 ≤ 4 * Z.of_nat fuel).

(** The words of the blocks in use, headers included. *)
Definition untouched (us : list block) (m m' : Z → Z) : Prop := ∀ a s x, (a, s) ∈ us → a ≤ x < a + 8 * s → m' x = m x.

Lemma untouched_used us m m' top : untouched us m m' → Forall (in_use m top) us → Forall (in_use m' top) us.
Proof.
  intros Hu Hus. apply Forall_forall. intros [a s] Hb. destruct (proj1 (Forall_forall _ _) Hus _ Hb) as ((? & ?) & ? & ?). cbn in *.
  split_and!; try done. cbn. rewrite (Hu a s); [done..|lia].
Qed.

Lemma header_untouched us top c cs u us' x m :
  Forall (in_use m top) us' → (u, us) ∈ us' → u ≤ x < u + 8 * us → (c = base ∨ Forall (apart (c, cs)) us' ∧ 0 < cs) → x ≠ c ∧ x ≠ c + 4.
Proof.
  intros Hus Hu Hx Hc. destruct (proj1 (Forall_forall _ _) Hus _ Hu) as ((? & ?) & _). cbn in *.
  destruct Hc as [->|[Hc ?]]; [lia|]. pose proof (proj1 (Forall_forall _ _) Hc _ Hu) as Hap. unfold apart in Hap. cbn in Hap. lia.
Qed.

Lemma merged_freep q qs j1 bp fr' ns r : merged bp q qs j1 fr' ns r → q ∈ (ring fr').*1.
Proof. intros [[_ ->]|[-> _]]; rewrite fmap_app; apply elem_of_app; right; left. Qed.

Lemma merged_size fr us h top bp n q qs j1 j2 fr' ns r :
  ready fr us h → top = brk (h_k h) → before fr bp q qs j1 j2 → loose fr us (h_mem h) top (bp, n) →
  merged_up bp n j2 ns r → merged bp q qs j1 fr' ns r → ∃ a s, (a, s) ∈ ring fr' ∧ n ≤ s.
Proof.
  intros R Et (E & _) L Hm Hf. destruct (ring_split _ _ _ R _ Et _ _ _ _ E) as (_ & ? & _ & _ & HL & _).
  assert (n ≤ ns).
  { destruct Hm as [(_ & -> & _)|(cs & Ej & ->)]; [done|]. rewrite Ej in HL. cbn in HL. lia. }
  destruct Hf as [[_ ->]|[-> _]]; [exists q, (qs + ns)|exists bp, ns]; split; try lia; apply elem_of_app; right; [left|right; left].
Qed.

Lemma free_ok fr us h bp n :
  ready fr us h → brk (h_k h) ≤ limit → loose fr us (h_mem h) (brk (h_k h)) (bp, n) →
  ∃ fr' h', free (hdr bp 1) h = Ok tt h' ∧ ready fr' us h' ∧ h_k h' = h_k h ∧ untouched us (h_mem h) (h_mem h') ∧
    ∃ a s, (a, s) ∈ ring fr' ∧ n ≤ s.
Proof using Hfuel Hbase BreakOk0.
  intros R Ht L. pose proof (top_small _ Ht). destruct (loose_bounds _ _ _ _ _ _ L) as (? & ? & ? & _). unfold free.
  assert (hdr (hdr bp 1) (-1) = bp) as -> by (rewrite (hdr_small bp 1), hdr_small by lia; lia).
  pose proof (ring_length _ _ _ R _ eq_refl Ht) as Hlen.
  rewrite bind_gets. destruct (find_ok _ _ _ R _ eq_refl _ _ L (freep h) fuel (rd_freep _ _ _ R)) as (q & qs & j1 & j2 & B & Ef); [lia|].
  rewrite (bind_ok _ _ _ _ _ Ef). destruct (upper_ok _ _ _ R _ eq_refl Ht _ _ L _ _ _ _ B) as (ns & r & m1 & Eu & Hm & E1 & E2 & Hx1).
  rewrite (bind_ok _ _ _ _ _ Eu). destruct (lower_ok _ _ _ R _ eq_refl Ht _ _ L _ _ _ _ B _ _ _ Hm E1 E2 Hx1) as (fr' & m2 & El & Hf & Hc & Hx2).
  rewrite (bind_ok _ _ _ _ _ El). exists fr'. eexists. split; [reflexivity|]. cbn [h_mem h_k freep].
  assert (Hu : untouched us (h_mem h) m2).
  { intros a s x Ha Hax. pose proof (rd_used _ _ _ R) as Hus. destruct L as (_ & _ & Hbu). pose proof B as (E & _).
    destruct (header_untouched _ _ bp n _ _ _ _ Hus Ha Hax) as [? ?]; [by right|].
    destruct (header_untouched _ _ q qs _ _ _ _ Hus Ha Hax) as [? ?]; [|by apply Hx2].
    destruct j1 as [|b j1]; [injection E as <- <- _; by left|right]. injection E as _ E.
    assert (Hin : (q, qs) ∈ fr) by (rewrite E; apply elem_of_app; right; left).
    split; [apply (proj1 (Forall_forall _ _) (rd_mixed _ _ _ R) _ Hin)|apply (proj1 (Forall_forall _ _) (rd_real _ _ _ R) _ Hin)]. }
  split_and!; try done; [|by eapply merged_size].
  constructor; cbn [h_mem h_k freep]; [apply (rd_brk _ _ _ R)|by eapply merged_freep|done|..].
  - by eapply (merged_laid fr us h R _ eq_refl Ht bp n L q qs j1 j2 B).
  - eapply (merged_all fr us h R _ eq_refl Ht bp n L q qs j1 j2 B real); [| |apply (rd_real _ _ _ R)|done..].
    + unfold real. cbn. lia.
    + apply L.
  - eapply untouched_used; [done|apply (rd_used _ _ _ R)].
  - eapply (merged_all fr us h R _ eq_refl Ht bp n L q qs j1 j2 B); [| |apply (rd_mixed _ _ _ R)|done..].
    + intros a s t Ha Hb Hs Ht'. apply Forall_forall. intros c Hin. apply apart_join; try done; [by apply (proj1 (Forall_forall _ _) Ha)|by apply (proj1 (Forall_forall _ _) Hb)|].
      apply (proj1 (Forall_forall _ _) (rd_used _ _ _ R) _ Hin).
    + apply L.
  - apply (rd_apart _ _ _ R).
Qed.

(** ** More memory *)

Lemma ready_more fr us h m' k' :
  ready fr us h → brk (h_k h) ≤ brk k' → (∀ x, x < brk (h_k h) → m' x = h_mem h x) → ready fr us (Heap m' (freep h) k').
Proof.
  intros R Hk Hm. constructor; cbn [h_mem h_k freep].
  - pose proof (rd_brk _ _ _ R). lia.
  - apply (rd_freep _ _ _ R).
  - eapply chain_frame; [|apply (rd_chain _ _ _ R)]. intros a s Ha.
    assert (a + 8 ≤ brk (h_k h)).
    { destruct (ring_elem _ _ _ R _ eq_refl _ _ Ha) as (? & ? & ? & _). apply elem_of_cons in Ha as [[= -> ->]|Ha]; [apply (rd_brk _ _ _ R)|].
      destruct (proj1 (Forall_forall _ _) (rd_real _ _ _ R) _ Ha) as [_ ?]. cbn in *. lia. }
    rewrite !Hm by lia. done.
  - eapply laid_weaken; [| |apply (rd_laid _ _ _ R)]; lia.
  - apply (rd_real _ _ _ R).
  - eapply Forall_impl; [apply (rd_used _ _ _ R)|]. intros [a s] ((? & ?) & ? & E). cbn in *. split_and!; try done; cbn; [lia|]. by rewrite Hm by lia.
  - apply (rd_mixed _ _ _ R).
  - apply (rd_apart _ _ _ R).
Qed.

Definition alive (h : heap) : Prop := brk_good (h_k h) ∧ brk (h_k h) ≤ limit.

(** Either the kernel has no more memory and nothing changes, or there is a free block of the size. *)
Lemma morecore_ok fr us h nu :
  ready fr us h → alive h → 0 < nu → nu * 8 < 2 ^ 31 →
  ∃ r h', morecore nu h = Ok r h' ∧ alive h' ∧ untouched us (h_mem h) (h_mem h') ∧
    ((r = 0 ∧ ready fr us h') ∨
     (r ≠ 0 ∧ r = freep h' ∧ ∃ fr', ready fr' us h' ∧ ∃ a s, (a, s) ∈ ring fr' ∧ nu ≤ s)).
Proof using Hfuel Hbase.
  intros R [Hg Ht] Hnu Hbig. pose proof limit_user as Hlim. unfold morecore. set (n := if nu <? 4096 then 4096 else nu).
  assert (Hn : nu ≤ n ∧ 0 < n ∧ n * 8 < 2 ^ 31) by (unfold n; case_b; lia).
  rewrite (u32_small (n * 8)) by lia. unfold sbrk. rewrite (i32_small (n * 8)) by lia.
  pose proof (sbrk_law (h_k h) (n * 8) Hg ltac:(lia)) as Hs. unfold mbind at 1, cm_bind at 1. destruct (k_sbrk (n * 8) (h_k h)) as [p k'].
  destruct Hs as [Hg' [[-> Hk]|(-> & Hk & Hl)]].
  - rewrite Z.eqb_refl. exists 0, (Heap (h_mem h) (freep h) k'). split; [done|]. split; [split; cbn; [done|lia]|]. split; [done|].
    left. split; [done|]. apply ready_more; [done|lia|done].
  - pose proof (rd_brk _ _ _ R). set (b := brk (h_k h)) in *.
    rewrite (proj2 (Z.eqb_neq b (u32 (-1)))) by (unfold u32; change (-1 mod 2 ^ 32) with (2 ^ 32 - 1); lia).
    unfold set_size, put_word. rewrite bind_modify. cbn [h_mem freep h_k]. set (h1 := Heap _ _ _).
    assert (R1 : ready fr us h1) by (apply ready_more; [done|lia|intros x Hx; rewrite upd_ne by lia; done]).
    assert (L : loose fr us (h_mem h1) (brk (h_k h1)) (b, n)).
    { split_and!.
      - split_and!; cbn; [split; cbn; lia|lia|apply upd_eq].
      - apply Forall_forall. intros [a s] Ha. destruct (ring_elem _ _ _ R _ eq_refl a s) as (_ & _ & ? & _); [by right|]. left. cbn. lia.
      - apply Forall_forall. intros [a s] Ha. destruct (proj1 (Forall_forall _ _) (rd_used _ _ _ R) _ Ha) as (_ & ? & _). right. cbn in *. lia. }
    destruct (free_ok _ _ _ _ _ R1 Hl L) as (fr' & h2 & E & R2 & Ek & Hu & a & s & Ha & Hsz).
    rewrite (bind_ok _ _ _ _ _ E). exists (freep h2), h2. split; [done|]. split; [split; rewrite Ek; done|].
    split.
    { intros u t x Hin Hx. rewrite (Hu u t x Hin Hx). destruct (proj1 (Forall_forall _ _) (rd_used _ _ _ R) _ Hin) as (_ & ? & _).
      cbn in *. by rewrite upd_ne by lia. }
    right. split_and!; [|done|].
    + pose proof (rd_freep _ _ _ R2) as Hf. apply list_elem_of_fmap in Hf as ([c t] & -> & Hc). destruct (ring_elem _ _ _ R2 _ eq_refl _ _ Hc). cbn. lia.
    + exists fr'. split; [done|]. exists a, s. split; [done|lia].
Qed.

(** ** Taking a block *)

Section take.
Context (fr us : list block) (h : heap) (R : ready fr us h) (Ht : brk (h_k h) ≤ limit).
Context (k1 k2 : list block) (q qs a s n : Z) (E : ring fr = k1 ++ (q, qs) :: (a, s) :: k2) (Hn : 0 < n ≤ s).

Lemma taken_in : ∀ k, ∃ fr', ring fr' = k1 ++ (q, qs) :: k.
Proof. intros k. destruct k1 as [|b k1']; [injection E as <- <- _|injection E as <- _]; by eexists. Qed.

Lemma taken_from : (a, s) ∈ fr.
Proof. destruct k1 as [|b k1']; [injection E as _ _ E1|injection E as _ E1]; rewrite E1; [left|]. apply elem_of_app. right. right. left. Qed.

Lemma taken_real : base + 8 ≤ a ∧ a + 8 * s ≤ brk (h_k h) ∧ Forall (apart (a, s)) us.
Proof.
  pose proof (proj1 (Forall_forall _ _) (rd_real _ _ _ R) _ taken_from) as [? ?].
  destruct (ring_elem _ _ _ R _ eq_refl a s) as (_ & _ & ? & _); [right; apply taken_from|]. split_and!; try done.
  apply (proj1 (Forall_forall _ _) (rd_mixed _ _ _ R) _ taken_from).
Qed.

(** The blocks that stay free are those there were, but for [a], of which the part [k] is left. *)
Lemma taken_all (P : block → Prop) fr' k :
  ring fr' = k1 ++ (q, qs) :: k ++ k2 → Forall P fr → Forall P k → Forall P fr'.
Proof.
  intros E' Hf Hk. destruct k1 as [|b k1']; [injection E as _ _ E1; injection E' as _ _ E1'|injection E as _ E1; injection E' as _ E1'];
    rewrite E1 in Hf; rewrite E1'; repeat (rewrite Forall_app in * || rewrite Forall_cons in *); tauto.
Qed.

Lemma taken_ready fr' k b m' :
  ring fr' = k1 ++ (q, qs) :: k ++ k2 → laid (q + 8 * qs) (k ++ k2) (brk (h_k h)) → Forall (λ c, real c ∧ a ≤ c.1 ∧ c.1 + 8 * c.2 ≤ b) k →
  a ≤ b → b + 8 * n ≤ a + 8 * s → chain m' (ring fr') base → m' (b + 4) = n → untouched us (h_mem h) m' →
  ready fr' ((b, n) :: us) (Heap m' q (h_k h)).
Proof.
  intros E' HL Hk Hb1 Hb2 Hc Hsz Hu. destruct taken_real as (H1 & H2 & H3). destruct (ring_split _ _ _ R _ eq_refl _ _ _ _ E) as (_ & ? & _ & HL1 & _).
  assert (Hap : Forall (apart (b, n)) us) by (eapply Forall_impl; [exact H3|]; intros c Hc'; by eapply apart_sub).
  constructor; cbn [h_mem h_k freep].
  - apply (rd_brk _ _ _ R).
  - rewrite E', fmap_app. apply elem_of_app. right. left.
  - done.
  - rewrite E'. apply laid_app. done.
  - eapply taken_all; [done|apply (rd_real _ _ _ R)|]. eapply Forall_impl; [exact Hk|]. tauto.
  - constructor; [|eapply untouched_used; [done|apply (rd_used _ _ _ R)]]. split_and!; cbn; [split; cbn; lia|lia|done].
  - assert (HP : Forall (λ c, apart c (b, n)) fr').
    { apply Forall_forall. intros [c t] Hin.
      destruct (ring_split _ _ _ R _ eq_refl (k1 ++ [(q, qs)]) a s k2) as (_ & _ & _ & _ & _ & Hlo & Hhi); [by rewrite <- app_assoc|].
      assert (Hin' : (c, t) ∈ (k1 ++ [(q, qs)]) ++ k ++ k2) by (rewrite <- app_assoc; cbn; rewrite <- E'; by right).
      apply elem_of_app in Hin' as [Hin'|Hin']; [left; cbn; destruct (Hlo _ _ Hin'); lia|].
      apply elem_of_app in Hin' as [Hin'|Hin'].
      - destruct (proj1 (Forall_forall _ _) Hk _ Hin') as (_ & _ & ?). left. done.
      - right. cbn. destruct (Hhi _ _ Hin') as (? & ? & ?). lia. }
    apply Forall_forall. intros c Hin. apply Forall_cons. split; [by apply (proj1 (Forall_forall _ _) HP)|].
    apply (proj1 (Forall_forall (λ c, Forall (apart c) us) fr')); [|done]. eapply taken_all; [done|apply (rd_mixed _ _ _ R)|].
    eapply Forall_impl; [exact Hk|]. intros [c1 c2] (_ & ? & ?). eapply Forall_impl; [exact H3|]. intros d Hd. cbn in *. eapply apart_sub; [done|lia..].
  - cbn. split; [done|apply (rd_apart _ _ _ R)].
Qed.

Lemma malloc_take_ok : ∃ b fr' h',
  malloc_take n q a h = Ok (hdr b 1) h' ∧ ready fr' ((b, n) :: us) h' ∧ h_k h' = h_k h ∧ untouched us (h_mem h) (h_mem h').
Proof.
  destruct taken_real as (H1 & H2 & H3). pose proof (top_small _ Ht).
  assert (E' : ring fr = (k1 ++ [(q, qs)]) ++ (a, s) :: k2) by (by rewrite <- app_assoc).
  destruct (ring_split _ _ _ R _ eq_refl _ _ _ _ E) as (? & ? & _ & _ & HL & Hk1 & Hk2). destruct (ring_next _ _ _ R _ _ _ _ E') as [En Es].
  destruct (ring_split _ _ _ R _ eq_refl _ _ _ _ E') as (_ & _ & _ & _ & _ & _ & Hk2').
  destruct (Hk2 a s) as (? & ? & ?); [left|]. cbn [laid] in HL. destruct HL as (_ & _ & HL).
  pose proof (rd_chain _ _ _ R) as Hc. rewrite E in Hc. apply chain_app in Hc as [Hc1 (Hq1 & Hq2 & _ & _ & Hc2)]. cbn [first] in Hc1, Hq1.
  pose proof (rd_used _ _ _ R) as Hus.
  unfold malloc_take, get_size, get_ptr, set_size, set_ptr, put_word, set_freep. rewrite bind_gets, Es. destruct (Z.eqb_spec s n) as [Hsn|Hsn].
  - rewrite bind_gets, !bind_modify, En. cbn [h_mem h_k freep]. destruct (taken_in k2) as [fr' Ef]. exists a, fr'. eexists. split; [reflexivity|].
    cbn [h_mem h_k]. set (m' := upd (h_mem h) q _).
    assert (Hu : untouched us (h_mem h) m').
    { intros u t x Hin Hx. unfold m'. apply upd_ne. destruct (header_untouched _ _ q qs _ _ _ _ Hus Hin Hx) as [? _]; [|done].
      destruct k1 as [|b0 k1']; [injection E as <- <- _; by left|right]. injection E as _ E1.
      assert (Hi : (q, qs) ∈ fr) by (rewrite E1; apply elem_of_app; right; left).
      split; [apply (proj1 (Forall_forall _ _) (rd_mixed _ _ _ R) _ Hi)|apply (proj1 (Forall_forall _ _) (rd_real _ _ _ R) _ Hi)]. }
    split_and!; [|done|done]. apply (taken_ready fr' []); try done; [eapply laid_weaken; [| |exact HL]; lia|lia| |unfold m'; rewrite upd_ne by lia; congruence].
    rewrite Ef. apply chain_app. split; [|cbn [chain]; split_and!; [apply upd_eq|unfold m'; by rewrite upd_ne by lia|]];
      eapply chain_frame; [|exact Hc1| |exact Hc2]; intros c t Hin.
    + destruct (Hk1 _ _ Hin). unfold m'. by rewrite !upd_ne by lia.
    + destruct (Hk2' _ _ Hin). unfold m'. by rewrite !upd_ne by lia.
  - rewrite bind_modify, bind_gets. cbn [h_mem h_k freep]. rewrite upd_eq, u32_small, (hdr_small a) by lia. rewrite !bind_modify. cbn [h_mem h_k freep].
    set (b := a + 8 * (s - n)). set (m' := upd (upd _ _ _) _ _). destruct (taken_in ((a, s - n) :: k2)) as [fr' Ef].
    exists b, fr'. eexists. split; [reflexivity|]. cbn [h_mem h_k].
    assert (Hm : ∀ x, x ≠ a + 4 → x ≠ b + 4 → m' x = h_mem h x) by (intros x ??; unfold m'; by rewrite !upd_ne by done).
    assert (Hu : untouched us (h_mem h) m').
    { intros u t x Hin Hx. pose proof (proj1 (Forall_forall _ _) H3 _ Hin) as Hap. unfold apart in Hap. cbn in Hap. apply Hm; unfold b; lia. }
    split_and!; [|done|done]. apply (taken_ready fr' [(a, s - n)]); try done; unfold b in *; [cbn; split_and!; [lia|lia|]|apply Forall_singleton; split_and!; cbn; [split; cbn; lia|lia|lia]|lia|lia| |apply upd_eq].
    { eapply laid_weaken; [| |exact HL]; lia. }
    rewrite Ef. apply chain_app. split; [|cbn [chain first]; split_and!].
    + eapply chain_frame; [|exact Hc1]. intros c t Hin. destruct (Hk1 _ _ Hin). by rewrite !Hm by lia.
    + by rewrite Hm by lia.
    + by rewrite Hm by lia.
    + by rewrite Hm by lia.
    + unfold m'. by rewrite upd_ne, upd_eq by lia.
    + eapply chain_frame; [|exact Hc2]. intros c t Hin. destruct (Hk2' _ _ Hin). by rewrite !Hm by lia.
Qed.
End take.

(** ** The walk of [malloc] *)

(** The branch of the loop that asks for more. *)
Definition more (f : nat) (n : Z) : cm heap Z :=
  p' ← morecore n; if p' =? 0 then mret 0 else n' ← get_ptr p'; malloc_loop f n p' n'.

Section walk.
Context (fr us : list block) (h : heap) (R : ready fr us h) (n : Z) (Hn : 0 < n).

Definition takes (r : outcome heap Z) : Prop :=
  ∃ j1 p ps a s j2, ring fr = j1 ++ (p, ps) :: (a, s) :: j2 ∧ n ≤ s ∧ r = malloc_take n p a h.
Definition small (b : block) : Prop := b.2 < n.

(** One block that is too small and not the last of the round. *)
Lemma walk_step f q p ps k1 k2 :
  ring fr = k1 ++ (p, ps) :: k2 → ps < n → p ≠ freep h → malloc_loop (S f) n q p h = malloc_loop f n p (first k2 base) h.
Proof.
  intros E Hs Hp. destruct (ring_next _ _ _ R _ _ _ _ E) as [En Es]. cbn [malloc_loop]. unfold get_size, get_ptr.
  by rewrite bind_gets, Es, (proj2 (Z.leb_gt n ps) Hs), bind_gets, (proj2 (Z.eqb_neq p _) Hp), bind_gets, En.
Qed.

Lemma walk_last f q ps k1 k2 :
  ring fr = k1 ++ (freep h, ps) :: k2 → ps < n → malloc_loop (S f) n q (freep h) h = more f n h.
Proof.
  intros E Hs. destruct (ring_next _ _ _ R _ _ _ _ E) as [_ Es]. cbn [malloc_loop]. unfold get_size.
  by rewrite bind_gets, Es, (proj2 (Z.leb_gt n ps) Hs), bind_gets, Z.eqb_refl.
Qed.

Lemma walk_take f q qs a s k1 k2 : ring fr = k1 ++ (q, qs) :: (a, s) :: k2 → n ≤ s → takes (malloc_loop (S f) n q a h).
Proof.
  intros E Hs. exists k1, q, qs, a, s, k2. split_and!; try done.
  destruct (ring_next _ _ _ R (k1 ++ [(q, qs)]) a s k2) as [_ Es]; [by rewrite <- app_assoc|]. cbn [malloc_loop]. unfold get_size.
  by rewrite bind_gets, Es, (proj2 (Z.leb_le n s) Hs).
Qed.

Lemma walk_over l : ∀ k1 q qs k2 f,
  ring fr = k1 ++ (q, qs) :: l ++ k2 → freep h ∉ l.*1 → (length l ≤ f)%nat →
  takes (malloc_loop f n q (first (l ++ k2) base) h) ∨
  (Forall small l ∧ ∃ j1 q' qs', ring fr = j1 ++ (q', qs') :: k2 ∧
    malloc_loop f n q (first (l ++ k2) base) h = malloc_loop (f - length l) n q' (first k2 base) h).
Proof.
  induction l as [|[a s] l IH]; intros k1 q qs k2 f E Hf Hl.
  { right. split; [done|]. exists k1, q, qs. split; [done|]. cbn. by rewrite Nat.sub_0_r. }
  destruct f as [|f]; [cbn in Hl; lia|]. cbn in Hf. apply not_elem_of_cons in Hf as [Hfa Hf]. cbn [app first].
  destruct (Z.le_gt_cases n s) as [Hs|Hs]; [left; by eapply walk_take|].
  assert (E' : ring fr = (k1 ++ [(q, qs)]) ++ (a, s) :: l ++ k2) by (by rewrite <- app_assoc).
  rewrite (walk_step _ _ _ _ _ _ E' Hs) by congruence. cbn [length Nat.sub].
  destruct (IH _ _ _ _ f E' Hf ltac:(cbn in Hl; lia)) as [HT|(Hsm & Hrest)]; [by left|right]. split; [by constructor|done].
Qed.

(** From [freep] once around: a block is taken, or all are too small and the loop asks for more. *)
Lemma round f next :
  h_mem h (freep h) = next → (length (ring fr) ≤ f)%nat →
  takes (malloc_loop f n (freep h) next h) ∨
  (Forall small (ring fr) ∧ malloc_loop f n (freep h) next h = more (f - length (ring fr)) n h).
Proof.
  intros Hnext Hf. pose proof (rd_freep _ _ _ R) as Hin. apply list_elem_of_fmap in Hin as ([fp fs] & Efp & Hin). cbn [fst] in Efp.
  apply list_elem_of_split in Hin as (f1 & f2 & E). rewrite <- Efp in E. destruct (ring_next _ _ _ R _ _ _ _ E) as [En _].
  destruct (ring_split _ _ _ R _ eq_refl _ _ _ _ E) as (_ & _ & _ & _ & _ & Hlo & Hhi).
  assert (Hlen : length (ring fr) = (length f1 + S (length f2))%nat) by (by rewrite E, length_app).
  rewrite <- Hnext, En. assert (Hn2 : freep h ∉ f2.*1).
  { intros Hi. apply list_elem_of_fmap in Hi as ([c t] & Ec & Hi). cbn in Ec. destruct (Hhi _ _ Hi). lia. }
  destruct (walk_over f2 f1 (freep h) fs [] f) as [HT|(Hs2 & j1 & q' & qs' & _ & EW)];
    rewrite ?app_nil_r in *; [done|done|lia|by left|]. rewrite EW. cbn [first].
  destruct (f - length f2)%nat as [|g] eqn:Eg; [lia|].
  destruct f1 as [|b f1].
  { cbn in E. injection E as Eb _ E2. assert (E3 : ring fr = [] ++ (freep h, 0) :: fr) by (by rewrite <- Eb).
    right. split; [constructor; [done|]; by rewrite E2|]. rewrite Eb, (walk_last _ _ _ _ _ E3) by lia. f_equal. cbn in *. lia. }
  injection E as <- E. assert (Hb : base ≠ freep h) by (destruct (Hlo base 0) as [? _]; [left|lia]).
  assert (E0 : ring fr = [] ++ (base, 0) :: fr) by done. rewrite (walk_step _ _ _ _ _ _ E0) by done.
  assert (E1 : ring fr = [] ++ (base, 0) :: f1 ++ (freep h, fs) :: f2) by (by rewrite E).
  assert (Hn1 : freep h ∉ f1.*1).
  { intros Hi. apply list_elem_of_fmap in Hi as ([c t] & Ec & Hi). cbn in Ec. destruct (Hlo c t) as [? _]; [by right|lia]. }
  assert (first fr base = first (f1 ++ (freep h, fs) :: f2) base) as -> by (by rewrite E).
  destruct (walk_over f1 [] base 0 ((freep h, fs) :: f2) g E1 Hn1) as [HT|(Hs1 & j2 & p & pps & E2 & EW')];
    [cbn in *; lia|by left|]. rewrite EW'. cbn [first].
  destruct (g - length f1)%nat as [|g'] eqn:Eg'; [cbn in *; lia|].
  destruct (Z.le_gt_cases n fs) as [Hs|Hs]; [left; by eapply walk_take|].
  right. split.
  - constructor; [done|]. rewrite E. apply Forall_app. split; [done|]. by constructor.
  - assert (E3 : ring fr = (j2 ++ [(p, pps)]) ++ (freep h, fs) :: f2) by (by rewrite <- app_assoc).
    rewrite (walk_last _ _ _ _ _ E3 Hs). f_equal. rewrite Hlen in *. cbn in *. lia.
Qed.
End walk.

(** ** [malloc] and [free] *)

Definition got (us : list block) (n r : Z) (h' : heap) : Prop :=
  r = 0 ∧ (∃ fr', ready fr' us h') ∨ ∃ b fr', r = b + 8 ∧ ready fr' ((b, n) :: us) h'.

Lemma takes_ok fr us h n r :
  ready fr us h → alive h → 0 < n → takes fr h n r →
  ∃ v h', r = Ok v h' ∧ alive h' ∧ untouched us (h_mem h) (h_mem h') ∧ got us n v h'.
Proof.
  intros R [Hg Ht] Hn (j1 & p & ps & a & s & j2 & E & Hs & ->).
  destruct (malloc_take_ok _ _ _ R Ht _ _ _ _ _ _ n E ltac:(lia)) as (b & fr' & h' & Em & R' & Ek & Hu).
  exists (hdr b 1), h'. split; [done|]. split; [split; by rewrite Ek|]. split; [done|]. right. exists b, fr'. split; [|done].
  pose proof (rd_used _ _ _ R') as Hus. apply Forall_cons in Hus as [((Hb & Hb') & Hb'' & _) _]. cbn in *. rewrite Ek in Hb''. pose proof limit_user. apply hdr_small. lia.
Qed.

Lemma loop_ok fr us h n :
  ready fr us h → alive h → 0 < n → n * 8 < 2 ^ 31 →
  ∃ v h', malloc_loop fuel n (freep h) (h_mem h (freep h)) h = Ok v h' ∧ alive h' ∧ untouched us (h_mem h) (h_mem h') ∧ got us n v h'.
Proof.
  intros R A Hn Hbig. pose proof (ring_length _ _ _ R _ eq_refl (proj2 A)) as Hlen.
  destruct (round _ _ _ R n Hn fuel _ eq_refl) as [HT|[_ ->]]; [lia|by eapply takes_ok|]. unfold more.
  destruct (morecore_ok _ _ _ _ R A Hn Hbig) as (r & h1 & E & A1 & Hu & Hr). rewrite (bind_ok _ _ _ _ _ E).
  destruct Hr as [[-> R1]|(Hr & -> & fr1 & R1 & a & s & Ha & Hs)].
  - exists 0, h1. split; [done|]. split_and!; try done. left. eauto.
  - rewrite (proj2 (Z.eqb_neq _ 0) Hr). unfold get_ptr. rewrite bind_gets. pose proof (ring_length _ _ _ R1 _ eq_refl (proj2 A1)) as Hlen1.
    destruct (round _ _ _ R1 n Hn (fuel - length (ring fr)) _ eq_refl) as [HT|[Hsm _]]; [lia| |].
    + destruct (takes_ok _ _ _ _ _ R1 A1 Hn HT) as (v & h2 & -> & A2 & Hu2 & Hg). exists v, h2. split_and!; try done.
      intros u t x Hin Hx. rewrite (Hu2 u t x), (Hu u t x) by done. done.
    + pose proof (proj1 (Forall_forall _ _) Hsm _ Ha) as Hlt. unfold small in Hlt. cbn in Hlt. lia.
Qed.

(** Before the first call there is no list. *)
Definition holds (us : list block) (h : heap) : Prop :=
  alive h ∧ ((∃ fr, ready fr us h) ∨ us = [] ∧ freep h = 0 ∧ base + 8 ≤ brk (h_k h)).

Lemma units_ok nbytes : 0 ≤ nbytes < 2 ^ 31 - 15 → units nbytes = (nbytes + 7) / 8 + 1 ∧ 0 < units nbytes ∧ units nbytes * 8 < 2 ^ 31 ∧ nbytes ≤ 8 * (units nbytes - 1).
Proof.
  intros Hn. unfold units. rewrite (u32_small (nbytes + 8 - 1)) by lia. replace (nbytes + 8 - 1) with (nbytes + 7) by lia.
  rewrite u32_small by dlia. dlia.
Qed.

Lemma start_ready h : alive h → base + 8 ≤ brk (h_k h) → ready [] [] (Heap (upd (upd (h_mem h) base base) (base + 4) 0) base (h_k h)).
Proof.
  intros [_ Ht] Hb. constructor; cbn; try done.
  - left.
  - split_and!; [by rewrite upd_ne, upd_eq by lia|apply upd_eq|done].
  - lia.
Qed.

Lemma malloc_ok us h nbytes :
  holds us h → 0 ≤ nbytes < 2 ^ 31 - 15 →
  ∃ v h', malloc nbytes h = Ok v h' ∧ untouched us (h_mem h) (h_mem h') ∧
    (v = 0 ∧ holds us h' ∨ ∃ b, v = b + 8 ∧ holds ((b, units nbytes) :: us) h').
Proof.
  intros [A Hh] Hn. destruct (units_ok nbytes Hn) as (_ & Hu1 & Hu2 & _). unfold malloc, get_ptr.
  assert (Hfin : ∀ fr h1, ready fr us h1 → alive h1 → untouched us (h_mem h) (h_mem h1) →
    ∃ v h', malloc_loop fuel (units nbytes) (freep h1) (h_mem h1 (freep h1)) h1 = Ok v h' ∧ untouched us (h_mem h) (h_mem h') ∧
      (v = 0 ∧ holds us h' ∨ ∃ b, v = b + 8 ∧ holds ((b, units nbytes) :: us) h')).
  { intros fr h1 R A1 Hu. destruct (loop_ok _ _ _ _ R A1 Hu1 Hu2) as (v & h' & E & A' & Hu' & Hg). exists v, h'. split; [done|]. split.
    - intros u t x Hin Hx. rewrite (Hu' u t x), (Hu u t x) by done. done.
    - destruct Hg as [[-> HR]|(b & fr' & -> & HR)]; [left|right; exists b]; (split; [done|split; eauto]). }
  rewrite bind_gets. destruct Hh as [[fr R]|(-> & Hf & Hb)].
  - assert (Hne : freep h ≠ 0).
    { pose proof (rd_freep _ _ _ R) as Hf. apply list_elem_of_fmap in Hf as ([c t] & -> & Hc). destruct (ring_elem _ _ _ R _ eq_refl _ _ Hc). cbn. lia. }
    rewrite (proj2 (Z.eqb_neq _ 0) Hne), bind_ret, bind_gets. by eapply Hfin.
  - rewrite Hf. cbn [Z.eqb]. unfold set_freep, set_ptr, set_size, put_word.
    rewrite (bind_ok _ _ h base (Heap (upd (upd (h_mem h) base base) (base + 4) 0) base (h_k h))) by reflexivity. rewrite bind_gets.
    apply (Hfin [] _ (start_ready h A Hb)); [done|]. intros u t x Hin. by apply not_elem_of_nil in Hin.
Qed.

Lemma free_held us1 b n us2 h :
  holds (us1 ++ (b, n) :: us2) h →
  ∃ h', free (b + 8) h = Ok tt h' ∧ untouched (us1 ++ us2) (h_mem h) (h_mem h') ∧ holds (us1 ++ us2) h'.
Proof.
  intros [[Hg Ht] [[fr R]|(E & _)]]; [|by destruct us1].
  pose proof (rd_used _ _ _ R) as Hus. apply Forall_app in Hus as [H1 H2]. apply Forall_cons in H2 as [Hb H2].
  pose proof (rd_apart _ _ _ R) as Hap. apply all_apart_app in Hap as [Hb' Hap].
  assert (Hmix : Forall (λ c, apart c (b, n) ∧ Forall (apart c) (us1 ++ us2)) fr).
  { eapply Forall_impl; [apply (rd_mixed _ _ _ R)|]. intros c Hc. apply Forall_app in Hc as [? Hc]. apply Forall_cons in Hc as [? ?].
    split; [done|by apply Forall_app]. }
  assert (R' : ready fr (us1 ++ us2) h).
  { destruct R as [R1 R2 R3 R4 R5 R6 R7 R8]. constructor; try done; [by apply Forall_app|]. eapply Forall_impl; [exact Hmix|]. by intros c [_ ?]. }
  assert (L : loose fr (us1 ++ us2) (h_mem h) (brk (h_k h)) (b, n)).
  { split_and!; [done| |done]. eapply Forall_impl; [exact Hmix|]. by intros c [? _]. }
  destruct (free_ok _ _ _ _ _ R' Ht L) as (fr' & h' & E & R2 & Ek & Hu & _). exists h'. split; [|split; [done|]].
  - rewrite <- E. f_equal. symmetry. destruct Hb as ((? & ?) & ? & _). cbn in *. pose proof limit_user. apply hdr_small. lia.
  - split; [split; by rewrite Ek|]. left. by exists fr'.
Qed.

(** ** Clients

    A client calls [malloc] and [free] and reads and writes words of its blocks. *)
Inductive uop : Type := Malloc (nbytes : Z) | Free (p : Z) | Load (p : Z) (i : nat) | Store (p : Z) (i : nat) (v : Z).

Definition run_uop (o : uop) : cm heap Z :=
  match o with
  | Malloc nbytes => malloc nbytes
  | Free p => free p ;; mret 0
  | Load p i => gets (λ h, h_mem h (p + 4 * Z.of_nat i))
  | Store p i v => put_word (p + 4 * Z.of_nat i) v ;; mret 0
  end.

(** The abstract allocator: the addresses of the blocks handed out, with the words they hold. *)
Abbreviation blocks := (list (Z * list Z)).

Definition disjoint_from (p : Z) (ws : list Z) (b : Z * list Z) : Prop :=
  p ≠ b.1 ∧ (p + 4 * Z.of_nat (length ws) ≤ b.1 ∨ b.1 + 4 * Z.of_nat (length b.2) ≤ p).

Inductive uspec : blocks → uop → Z → blocks → Prop :=
| spec_null σ nbytes : uspec σ (Malloc nbytes) 0 σ
| spec_malloc σ nbytes p ws :
    p ≠ 0 → nbytes ≤ 4 * Z.of_nat (length ws) → Forall (disjoint_from p ws) σ → uspec σ (Malloc nbytes) p ((p, ws) :: σ)
| spec_free σ1 p ws σ2 : uspec (σ1 ++ (p, ws) :: σ2) (Free p) 0 (σ1 ++ σ2)
| spec_load σ p ws i v : (p, ws) ∈ σ → ws !! i = Some v → uspec σ (Load p i) v σ
| spec_store σ1 p ws σ2 i v :
    (i < length ws)%nat → uspec (σ1 ++ (p, ws) :: σ2) (Store p i v) 0 (σ1 ++ (p, <[i := v]> ws) :: σ2).

(** What C allows a client to do. *)
Definition allowed (σ : blocks) (o : uop) : Prop :=
  match o with
  | Malloc nbytes => 0 ≤ nbytes < 2 ^ 31 - 15
  | Free p => ∃ ws, (p, ws) ∈ σ
  | Load p i | Store p i _ => ∃ ws, (p, ws) ∈ σ ∧ (i < length ws)%nat
  end.

Definition payload (m : Z → Z) (b : block) : Z * list Z :=
  (b.1 + 8, (λ i, m (b.1 + 8 + 4 * Z.of_nat i)) <$> seq 0 (Z.to_nat (2 * (b.2 - 1)))).

Definition offers (σ : blocks) (h : heap) : Prop := ∃ us, holds us h ∧ σ = payload (h_mem h) <$> us.

Lemma payload_untouched m m' us : untouched us m m' → payload m' <$> us = payload m <$> us.
Proof.
  intros Hu. apply list_fmap_ext. intros j [a s] Hj. apply list_elem_of_lookup_2 in Hj. unfold payload. cbn. f_equal.
  apply list_fmap_ext. intros i x Hx. apply lookup_seq in Hx as [-> Hx]. apply (Hu a s); [done|lia].
Qed.

Lemma payload_word m b i : (i < length (payload m b).2)%nat → (payload m b).2 !! i = Some (m (b.1 + 8 + 4 * Z.of_nat i)) ∧ 8 + 4 * Z.of_nat i < 8 * b.2.
Proof.
  unfold payload. cbn. rewrite length_fmap, length_seq. intros Hi. split; [|lia]. by rewrite list_lookup_fmap, lookup_seq_lt.
Qed.

Lemma payload_store m b i v :
  payload (upd m (b.1 + 8 + 4 * Z.of_nat i) v) b = (b.1 + 8, <[i := v]> (payload m b).2).
Proof.
  unfold payload. cbn. f_equal. apply list_eq. intros j. destruct (decide (j < Z.to_nat (2 * (b.2 - 1)))%nat) as [Hj|Hj].
  - rewrite list_lookup_fmap, lookup_seq_lt by done. cbn. destruct (decide (j = i)) as [->|Hne].
    + rewrite list_lookup_insert_eq by (by rewrite length_fmap, length_seq). by rewrite upd_eq.
    + rewrite list_lookup_insert_ne, list_lookup_fmap, lookup_seq_lt by done. cbn. by rewrite upd_ne by lia.
  - rewrite !lookup_ge_None_2; [done|rewrite length_insert|]; rewrite length_fmap, length_seq; lia.
Qed.

(** Writing into a block in use. *)
Lemma store_ok us1 a s us2 h x v :
  holds (us1 ++ (a, s) :: us2) h → a + 8 ≤ x < a + 8 * s →
  holds (us1 ++ (a, s) :: us2) (Heap (upd (h_mem h) x v) (freep h) (h_k h)) ∧ untouched (us1 ++ us2) (h_mem h) (upd (h_mem h) x v).
Proof.
  intros [A [[fr R]|(E & _)]] Hx; [|by destruct us1].
  pose proof (rd_apart _ _ _ R) as Hap. apply all_apart_app in Hap as [Hb _]. pose proof (rd_mixed _ _ _ R) as Hmix.
  assert (Hus : ∀ c t, (c, t) ∈ us1 ++ us2 → x < c ∨ c + 8 * t ≤ x).
  { intros c t Hin. pose proof (proj1 (Forall_forall _ _) Hb _ Hin) as Hc. unfold apart in Hc. cbn in Hc. lia. }
  assert (Hu : untouched (us1 ++ us2) (h_mem h) (upd (h_mem h) x v)).
  { intros c t y Hin Hy. apply upd_ne. destruct (Hus _ _ Hin); lia. }
  split; [|done]. split; [done|]. left. exists fr. destruct R as [R1 R2 R3 R4 R5 R6 R7 R8]. constructor; cbn [h_mem h_k freep]; try done.
  - eapply chain_frame; [|exact R3]. intros c t Hin.
    assert (x ≠ c ∧ x ≠ c + 4).
    { apply (header_untouched s (brk (h_k h)) c t a (us1 ++ (a, s) :: us2) x (h_mem h) R6); [apply elem_of_app; right; left|lia|].
      apply elem_of_cons in Hin as [[= -> ->]|Hin]; [by left|right]. split; [apply (proj1 (Forall_forall _ _) Hmix _ Hin)|apply (proj1 (Forall_forall _ _) R5 _ Hin)]. }
    by rewrite !upd_ne by (intros ?; lia).
  - apply Forall_app in R6 as [U1 U2]. apply Forall_cons in U2 as [((? & ?) & ? & ?) U2].
    assert (U3 : Forall (in_use (upd (h_mem h) x v) (brk (h_k h))) (us1 ++ us2)) by (eapply untouched_used; [done|by apply Forall_app]).
    apply Forall_app in U3 as [? ?]. apply Forall_app. split; [done|]. constructor; [|done]. split_and!; cbn in *; [done|done|]. by rewrite upd_ne by lia.
Qed.

Lemma offers_split σ h us : σ = payload (h_mem h) <$> us → ∀ p ws, (p, ws) ∈ σ →
  ∃ us1 a s us2, us = us1 ++ (a, s) :: us2 ∧ p = a + 8 ∧ (p, ws) = payload (h_mem h) (a, s) ∧
    σ = (payload (h_mem h) <$> us1) ++ (p, ws) :: (payload (h_mem h) <$> us2).
Proof.
  intros -> p ws Hin. apply list_elem_of_fmap in Hin as ([a s] & Ep & Hin). apply list_elem_of_split in Hin as (us1 & us2 & ->).
  exists us1, a, s, us2. split_and!; try done; [by injection Ep as -> _|]. by rewrite fmap_app, fmap_cons, <- Ep.
Qed.

(** A block handed out is apart from those in use. *)
Lemma handed_disjoint m b n us h : holds ((b, n) :: us) h → Forall (disjoint_from (b + 8) (payload m (b, n)).2) (payload m <$> us) ∧ b + 8 ≠ 0.
Proof.
  intros [_ [[fr R]|(E & _)]]; [|done]. pose proof (rd_apart _ _ _ R) as [Hap _].
  pose proof (rd_used _ _ _ R) as Hus. apply Forall_cons in Hus as [((Hb & Hn) & _) Hus]. cbn in Hb, Hn. split; [|lia].
  apply Forall_fmap, Forall_forall. intros [c t] Hc. pose proof (proj1 (Forall_forall _ _) Hap _ Hc) as Hx.
  destruct (proj1 (Forall_forall _ _) Hus _ Hc) as ((_ & Ht) & _). unfold apart in Hx. unfold disjoint_from, payload. cbn in *.
  rewrite !length_fmap, !length_seq. lia.
Qed.

Lemma uop_refines σ h o :
  offers σ h → allowed σ o → ∃ r h' σ', run_uop o h = Ok r h' ∧ uspec σ o r σ' ∧ offers σ' h'.
Proof.
  intros (us & Hh & Eσ) Ha. destruct o as [nbytes|p|p i|p i v]; cbn [allowed run_uop] in *.
  - destruct (malloc_ok _ _ _ Hh Ha) as (r & h' & E & Hu & [[-> Hh']|(b & -> & Hh')]).
    + exists 0, h', σ. split_and!; [done|constructor|]. exists us. split; [done|]. by rewrite (payload_untouched _ _ _ Hu).
    + destruct (handed_disjoint (h_mem h') _ _ _ _ Hh') as [Hd H0]. destruct (units_ok _ Ha) as (_ & ? & _ & Hsz).
      exists (b + 8), h', ((b + 8, (payload (h_mem h') (b, units nbytes)).2) :: σ). split_and!; [done| |].
      * constructor; [done| |by rewrite Eσ, <- (payload_untouched _ _ _ Hu)]. unfold payload. cbn. rewrite length_fmap, length_seq. lia.
      * exists ((b, units nbytes) :: us). split; [done|]. by rewrite fmap_cons, (payload_untouched _ _ _ Hu), Eσ.
  - destruct Ha as [ws Hin]. destruct (offers_split _ _ _ Eσ _ _ Hin) as (us1 & a & s & us2 & -> & -> & _ & E2).
    destruct (free_held _ _ _ _ _ Hh) as (h' & E & Hu & Hh'). rewrite (bind_ok _ _ _ _ _ E). eexists 0, h', _. split_and!; [done|rewrite E2; constructor|].
    exists (us1 ++ us2). split; [done|]. by rewrite (payload_untouched _ _ _ Hu), fmap_app.
  - destruct Ha as (ws & Hin & Hi). destruct (offers_split _ _ _ Eσ _ _ Hin) as (us1 & a & s & us2 & -> & -> & Ep & _).
    injection Ep as Ews. rewrite Ews in Hi. eexists _, h, σ. split_and!; [reflexivity| |by eexists].
    econstructor; [done|]. rewrite Ews. apply (payload_word (h_mem h) (a, s) i Hi).
  - destruct Ha as (ws & Hin & Hi). destruct (offers_split _ _ _ Eσ _ _ Hin) as (us1 & a & s & us2 & -> & -> & Ep & E2).
    pose proof Hi as Hi0. injection Ep as Ews. rewrite Ews in Hi. destruct (payload_word (h_mem h) (a, s) i Hi) as [_ Hb]. cbn in Hb.
    destruct (store_ok us1 a s us2 h (a + 8 + 4 * Z.of_nat i) v Hh ltac:(lia)) as [Hh' Hu].
    unfold put_word. rewrite bind_modify. eexists 0, _, _. split_and!; [reflexivity|rewrite E2; by constructor|].
    exists (us1 ++ (a, s) :: us2). split; [done|]. cbn [h_mem]. rewrite fmap_app, fmap_cons.
    rewrite <- !(payload_untouched _ _ _ (λ c t y H, Hu c t y (proj2 (elem_of_app us1 us2 _) (or_introl H)))).
    rewrite <- !(payload_untouched _ _ _ (λ c t y H, Hu c t y (proj2 (elem_of_app us1 us2 _) (or_intror H)))).
    pose proof (payload_store (h_mem h) (a, s) i v) as E3. cbn [fst] in E3. by rewrite E3, Ews.
Qed.

(** ** Runs

    A client decides what to do next from the results so far. *)
Abbreviation client := (list Z → option uop).

Fixpoint drive (n : nat) (c : client) (rs : list Z) : cm heap (list Z) :=
  match n with
  | O => mret rs
  | S n' => match c rs with None => mret rs | Some o => r ← run_uop o; drive n' c (rs ++ [r]) end
  end.

(** The runs of the client on the abstract allocator. *)
Inductive spec_trace (c : client) : list Z → blocks → Prop :=
| trace_nil : spec_trace c [] []
| trace_step rs σ o r σ' : spec_trace c rs σ → c rs = Some o → uspec σ o r σ' → spec_trace c (rs ++ [r]) σ'.

Definition obedient (c : client) : Prop := ∀ rs σ o, spec_trace c rs σ → c rs = Some o → allowed σ o.

Lemma drive_refines c n : ∀ rs σ h,
  obedient c → spec_trace c rs σ → offers σ h → ∃ rs' h' σ', drive n c rs h = Ok rs' h' ∧ spec_trace c rs' σ' ∧ offers σ' h'.
Proof.
  induction n as [|n IH]; intros rs σ h Hc Ht Ho; cbn [drive]; [by eexists rs, h, σ|].
  destruct (c rs) as [o|] eqn:E; [|by eexists rs, h, σ].
  destruct (uop_refines _ _ _ Ho (Hc _ _ _ Ht E)) as (r & h1 & σ1 & E1 & Hs & Ho1). rewrite (bind_ok _ _ _ _ _ E1).
  apply (IH _ σ1); [done|by econstructor|done].
Qed.
End laws.
End malloc.

(** C9: [malloc] and [free] implement the abstract allocator.  A client that uses the blocks as C allows, whatever the
    abstract allocator answers (it frees each block once, stays inside its blocks, asks for less than two gigabytes), runs on the
    code without running off the list: every call returns, and the results are ones the abstract allocator gives.  So every
    block handed out is large enough and disjoint from those in use, whatever pattern of frees, splits and merges came before,
    and a word of a block keeps its value until it is written. *)
Theorem malloc_refines {K} `{BreakOk K limit} (base : Z) (fuel : nat) (c : list Z → option uop) (n : nat) (m : Z → Z) (k : K) :
  0 < base → limit + 8 ≤ 4 * Z.of_nat fuel → brk_good k → base + 8 ≤ brk k ≤ limit → obedient c →
  ∃ rs h' σ, drive base fuel n c [] (Heap m 0 k) = Ok rs h' ∧ spec_trace c rs σ ∧ offers base limit σ h'.
Proof.
  intros Hb Hf Hg [Hl Ht] Hc. apply (drive_refines base fuel limit Hb Hf c n [] []); [done|constructor|].
  exists []. split; [|done]. split; [done|]. by right.
Qed.

(** ** Requests that are too large

    The rounding wraps: [malloc(0xffffffff)] looks for a single header and returns a block with no room at all. *)
Lemma units_wrap : units 0xffffffff = 1.
Proof. reflexivity. Qed.

(** From two gigabytes on, [sbrk] is asked for a negative amount: the process shrinks, and the block is not there. *)
Lemma sbrk_negative nbytes : 2 ^ 31 ≤ nbytes < 2 ^ 32 - 24 → i32 (u32 (units nbytes * 8)) < 0.
Proof.
  intros H. assert (E : units nbytes = (nbytes + 7) / 8 + 1) by (unfold units; rewrite (u32_small (nbytes + 8 - 1)) by lia;
    replace (nbytes + 8 - 1) with (nbytes + 7) by lia; apply u32_small; dlia).
  rewrite E, (u32_small (_ * 8)) by dlia. unfold i32. dlia.
Qed.

Module MallocExample.
Definition limit : Z := 40000.

(** A process that may grow to [limit]. *)
#[export] Instance kernel_break : Break Z := {
  brk k := k;
  k_sbrk n k := if k + n <=? limit then (k, k + n) else (u32 (-1), k)
}.
#[export] Instance kernel_ok : BreakOk Z limit.
Proof.
  refine (Build_BreakOk _ _ _ (λ _, True) _ _).
  - unfold limit. lia.
  - intros k n _ Hn. cbn. case_b; (split; [done|]); [right; split_and!; [done..|lia]|left; done].
Defined.

(** Two blocks, a word written to the first and read back, the first freed. *)
Definition prog (rs : list Z) : option uop :=
  match rs with
  | [] => Some (Malloc 10)
  | [a] => if a =? 0 then None else Some (Store a 0 7)
  | [a; _] => Some (Malloc 20)
  | [a; _; b] => Some (Load a 0)
  | [a; _; _; _] => Some (Free a)
  | _ => None
  end.

Lemma prog_keeps rs σ : spec_trace prog rs σ →
  match rs with
  | [] => True
  | a :: _ => ((2 ≤ length rs)%nat → a ≠ 0) ∧ (a ≠ 0 → (length rs ≤ 4)%nat → ∃ ws, (a, ws) ∈ σ ∧ (0 < length ws)%nat)
  end.
Proof.
  induction 1 as [|rs σ o r σ' Ht IH Ho Hs]; [done|].
  destruct rs as [|a [|x [|y [|z [|? ?]]]]]; cbn in Ho, IH |- *; simplify_eq.
  - split; [lia|]. intros Hr _. inversion Hs; subst; [done|]. eexists. split; [left|]. lia.
  - destruct (Z.eqb_spec a 0); simplify_eq. split; [done|]. intros Hr _. inversion Hs; subst. exists (<[0%nat := 7]> ws). rewrite length_insert.
    split; [apply elem_of_app; right; left|lia].
  - destruct IH as [Ha IH]. split; [intros _; apply Ha; lia|]. intros _ _. destruct IH as (ws & Hin & Hl); [apply Ha; lia|lia|].
    inversion Hs; subst; [eauto|]. exists ws. split; [by right|done].
  - destruct IH as [Ha IH]. split; [intros _; apply Ha; lia|]. intros _ _. destruct IH as (ws & Hin & Hl); [apply Ha; lia|lia|].
    inversion Hs; subst. eauto.
  - destruct IH as [Ha IH]. split; [intros _; apply Ha; lia|]. lia.
Qed.

Lemma prog_obedient : obedient prog.
Proof.
  intros rs σ o Ht Ho. pose proof (prog_keeps _ _ Ht) as Hk. destruct rs as [|a [|x [|y [|z [|? ?]]]]]; cbn in Ho, Hk; simplify_eq; cbn; try lia.
  - destruct (Z.eqb_spec a 0); simplify_eq. apply Hk; [done|lia].
  - destruct Hk as [Ha Hk]. apply Hk; [apply Ha|]; lia.
  - destruct Hk as [Ha Hk]. destruct Hk as (ws & ? & _); [apply Ha; lia|lia|]. by exists ws.
Qed.

Lemma malloc_refines_witness : ∃ h' σ,
  drive 100 (Z.to_nat 12000) 5 prog [] (Heap (λ _, 0) 0 4096) = Ok [36848; 0; 36816; 7; 0] h' ∧
  spec_trace prog [36848; 0; 36816; 7; 0] σ ∧ offers 100 limit σ h'.
Proof.
  destruct (malloc_refines (limit := limit) 100 (Z.to_nat 12000) prog 5 (λ _, 0) 4096) as (rs & h' & σ & E & Ht & Ho);
    [lia|unfold limit; lia|exact I|unfold limit; cbn; lia|exact prog_obedient|].
  assert (Er : rs = [36848; 0; 36816; 7; 0]).
  { assert (Ec : match drive 100 (Z.to_nat 12000) 5 prog [] (Heap (λ _, 0) 0 4096) with Ok r _ => r | _ => [] end = [36848; 0; 36816; 7; 0]) by (vm_compute; reflexivity).
    rewrite E in Ec. exact Ec. }
  exists h', σ. rewrite <- Er. split; [exact E|]. split; [exact Ht|exact Ho].
Defined.
End MallocExample.
