(* ===== verification/Ring.v ===== *)
(** * Ring buffers indexed by free-running 32-bit counters

    Pipes and the console input keep their bytes in an array of [size] elements
    and index it with [uint] counters that are never reset: element [x] lives in
    slot [x % size].  The window of [n] elements from counter [a] is
    [ring_read l a n].  The lemmas hold for every [size] that divides [2^32], so
    that the counters may wrap around. *)
From S2P Require Import Prelude.

Definition ring_get (size : Z) (l : list Z) (x : Z) : Z :=
  default 0 (l !! Z.to_nat (x mod size)).

Definition ring_read (size : Z) (l : list Z) (a : Z) (n : nat) : list Z :=
  (λ j, ring_get size l (u32 (a + Z.of_nat j))) <$> seq 0 n.

Definition ring_set (size : Z) (l : list Z) (x v : Z) : list Z :=
  <[Z.to_nat (x mod size) := v]> l.

(** A buffer size for which the counters can wrap. *)
Class RingSize (size : Z) : Prop := {
  ring_pos : 0 < size;
  ring_div : (size | 2 ^ 32)
}.

#[export] Instance ring_size_512 : RingSize 512.
Proof. split; [lia|]. by exists (2 ^ 23). Qed.
#[export] Instance ring_size_128 : RingSize 128.
Proof. split; [lia|]. by exists (2 ^ 25). Qed.

(** ** The window *)

Section ring.
Context (size : Z) {Hsize : RingSize size}.

Lemma u32_mod_size x : u32 x mod size = x mod size.
Proof.
  destruct Hsize as [Hp [k Hk]]. unfold u32. rewrite Hk.
  pose proof (Z.div_mod x (k * size)) as H.
  assert (k * size ≠ 0) by (rewrite <- Hk; lia). specialize (H ltac:(done)).
  rewrite H at 2. replace (k * size * (x / (k * size)) + x mod (k * size))
    with (x mod (k * size) + k * (x / (k * size)) * size) by lia.
  by rewrite Z.mod_add by lia.
Qed.

Lemma slot_bound x : 0 ≤ x mod size < size.
Proof. destruct Hsize. apply Z.mod_pos_bound. lia. Qed.

Lemma length_ring_read l a n : length (ring_read size l a n) = n.
Proof. unfold ring_read. by rewrite length_fmap, length_seq. Qed.

Lemma length_ring_set l x v : length (ring_set size l x v) = length l.
Proof. apply length_insert. Qed.

Lemma ring_read_cons l a n :
  ring_read size l a (S n) = ring_get size l a :: ring_read size l (u32 (a + 1)) n.
Proof.
  unfold ring_read. rewrite <- cons_seq, fmap_cons. f_equal.
  - unfold ring_get. do 3 f_equal. rewrite u32_mod_size. f_equal. lia.
  - rewrite <- fmap_S_seq, <- list_fmap_compose. apply list_fmap_ext.
    intros i j _. simpl. f_equal. unfold u32. rewrite Zplus_mod_idemp_l. f_equal. lia.
Qed.

Lemma ring_read_snoc l a n :
  ring_read size l a (S n) = ring_read size l a n ++ [ring_get size l (u32 (a + Z.of_nat n))].
Proof. unfold ring_read. by rewrite seq_S, fmap_app. Qed.

Lemma ring_read_app l a n m :
  ring_read size l a (n + m) = ring_read size l a n ++ ring_read size l (u32 (a + Z.of_nat n)) m.
Proof.
  revert a. induction n as [|n IH]; intros a.
  - unfold ring_read. simpl. apply list_fmap_ext. intros i j _. f_equal.
    unfold u32. rewrite Zplus_mod_idemp_l. f_equal. lia.
  - simpl plus. rewrite !ring_read_cons, IH. simpl. do 3 f_equal.
    unfold u32. rewrite Zplus_mod_idemp_l. f_equal. lia.
Qed.

Lemma ring_get_set l x v :
  Z.of_nat (length l) = size → ring_get size (ring_set size l x v) (u32 x) = v.
Proof.
  intros Hl. unfold ring_get, ring_set. rewrite u32_mod_size.
  pose proof (slot_bound x). by rewrite list_lookup_insert_eq by lia.
Qed.

(** Storing at a counter above the window leaves the window alone. *)
Lemma ring_read_set l a n x v :
  Z.of_nat n ≤ u32 (x - a) < size →
  ring_read size (ring_set size l x v) a n = ring_read size l a n.
Proof.
  intros Hn. apply list_fmap_ext. intros i j Hj. apply lookup_seq in Hj as [-> Hj].
  unfold ring_get, ring_set. f_equal. apply list_lookup_insert_ne.
  rewrite u32_mod_size. pose proof (slot_bound x). pose proof (slot_bound (a + Z.of_nat (0 + i))).
  intros Heq. apply Z2Nat.inj in Heq; [|lia..]. simpl in Heq.
  rewrite <- (u32_mod_size x) in Heq.
  replace (u32 x) with (u32 (a + u32 (x - a))) in Heq
    by (unfold u32; rewrite Zplus_mod_idemp_r; f_equal; lia).
  rewrite u32_mod_size in Heq.
  set (d := u32 (x - a) - Z.of_nat i). set (b := a + Z.of_nat i).
  replace (a + u32 (x - a)) with (b + d) in Heq by lia. fold b in Heq.
  assert (Hz : ((b + d) mod size - b mod size) mod size = d mod size).
  { rewrite <- Zminus_mod. f_equal. lia. }
  rewrite <- Heq, Z.sub_diag, Z.mod_0_l, Z.mod_small in Hz; lia.
Qed.
End ring.

#[export] Hint Rewrite @length_ring_read @length_ring_set : xv6.
