(* ===== verification/Numeral.v ===== *)
(** * Printing numbers

    The loop shared by the kernel's [printint] ([src/console.c]) and the user
    library's ([src/printf.c]), which differ in the case of the digits above
    nine, and the facts both use: the digits read back to the number, and fit the
    buffer of sixteen characters. *)
From S2P Require Import Prelude.

(** The do-while loop: the digits of [x], least significant first.  A 32-bit [x]
    is zero after at most 32 divisions by a base of at least 2. *)
Fixpoint printint_digits (table : list Z) (fuel : nat) (x base : Z) : list Z :=
  match fuel with
  | O => []
  | S fuel' =>
      default 0 (arr_get table (x mod base)) ::
      (if x / base =? 0 then [] else printint_digits table fuel' (x / base) base)
  end.

(** [xx] is an [int]; [-xx] and the assignment to [uint x] wrap. *)
Definition printint_chars (table : list Z) (xx base sign : Z) : list Z :=
  let neg := negb (sign =? 0) && (xx <? 0) in
  let x := if neg then u32 (- xx) else u32 xx in
  rev (printint_digits table 32 x base ++ (if neg then [45] else [])).

(** ** Reading numerals *)

Definition digit_val (c : Z) : Z :=
  if c <? 58 then c - 48 else if c <? 71 then c - 55 else c - 87.

Definition numeral (base : Z) (cs : list Z) : Z :=
  foldl (λ acc c, acc * base + digit_val c) 0 cs.

Definition read_int (base : Z) (cs : list Z) : Z :=
  match cs with
  | c :: cs' => if c =? 45 then - numeral base cs' else numeral base cs
  | [] => 0
  end.

(** A table of digit characters for the numbers below sixteen. *)
Class Digits (table : list Z) : Prop := {
  digits_val d : 0 ≤ d < 16 → digit_val (default 0 (arr_get table d)) = d;
  digits_not_minus d : 0 ≤ d < 16 → default 0 (arr_get table d) ≠ 45
}.

Section printing.
Context (table : list Z) `{Ht : Digits table}.

Lemma printint_digits_value base fuel x :
  2 ≤ base ≤ 16 → 0 ≤ x < base ^ Z.of_nat fuel →
  numeral base (rev (printint_digits table fuel x base)) = x.
Proof.
  intros Hb. revert x. induction fuel as [|fuel IH]; intros x Hx; [simpl in *; unfold numeral; simpl; lia|].
  cbn [printint_digits rev]. unfold numeral in *. rewrite foldl_app. cbn [foldl].
  assert (0 ≤ x mod base < base) by (apply Z.mod_pos_bound; lia).
  rewrite digits_val by lia. pose proof (Z.div_mod x base ltac:(lia)) as Hd.
  destruct (x / base =? 0) eqn:E; zbool; [simpl; lia|].
  rewrite IH; [lia|]. rewrite Nat2Z.inj_succ, Z.pow_succ_r in Hx by lia.
  split; [apply Z.div_pos; lia|]. apply Z.div_lt_upper_bound; lia.
Qed.

Lemma length_printint_digits base k fuel x :
  2 ≤ base → 0 ≤ x < base ^ Z.of_nat (S k) → (length (printint_digits table fuel x base) ≤ S k)%nat.
Proof.
  intros Hb. revert k x. induction fuel as [|fuel IH]; intros k x Hx; cbn [printint_digits]; [simpl; lia|].
  destruct (x / base =? 0) eqn:E; zbool; [simpl; lia|].
  assert (0 < x / base) by (pose proof (Z.div_pos x base); lia).
  destruct k as [|k].
  { rewrite Z.pow_1_r in Hx. rewrite Z.div_small in *; lia. }
  cbn [length]. apply le_n_S, IH.
  rewrite Nat2Z.inj_succ, Z.pow_succ_r in Hx by lia.
  split; [lia|]. apply Z.div_lt_upper_bound; lia.
Qed.

Lemma printint_digits_head base fuel x :
  2 ≤ base ≤ 16 → Forall (λ c, c ≠ 45) (printint_digits table fuel x base).
Proof.
  intros Hb. revert x. induction fuel as [|fuel IH]; intros x; cbn [printint_digits]; [done|].
  constructor.
  - apply digits_not_minus. pose proof (Z.mod_pos_bound x base). lia.
  - case_b; [done|apply IH].
Qed.

(** The characters printed for an [int] read back to it, and to its unsigned
    value where no sign is asked for; with the base ten or above they fit the
    sixteen bytes of [buf]. *)
Lemma printint_chars_value xx base sign :
  2 ≤ base ≤ 16 → - 2 ^ 31 ≤ xx < 2 ^ 31 →
  read_int base (printint_chars table xx base sign) = (if sign =? 0 then u32 xx else xx).
Proof.
  intros Hb Hx. unfold printint_chars. rewrite rev_app_distr.
  set (neg := negb (sign =? 0) && (xx <? 0)).
  assert (Hpow : 2 ^ 32 ≤ base ^ Z.of_nat 32) by (apply Z.pow_le_mono_l; lia).
  assert (Hv : ∀ x, 0 ≤ x < 2 ^ 32 →
    numeral base (rev (printint_digits table 32 x base)) = x)
    by (intros; apply printint_digits_value; lia).
  destruct neg eqn:En; subst neg; cbn [rev app].
  - apply andb_true_iff in En as [Es Ex]. apply negb_true_iff in Es. rewrite Es. zbool.
    unfold read_int. rewrite Z.eqb_refl, Hv; unfold u32; rewrite Z.mod_small; lia.
  - assert (read_int base (rev (printint_digits table 32 (u32 xx) base)) = u32 xx) as ->.
    { rewrite <- (Hv (u32 xx)) at 2 by (unfold u32; dlia). unfold read_int.
      pose proof (printint_digits_head base 32 (u32 xx) Hb) as Hf. apply Forall_rev in Hf.
      destruct Hf as [|c cs Hc _]; [done|]. by rewrite (proj2 (Z.eqb_neq c 45)). }
    destruct (sign =? 0); [done|]. cbn [negb andb] in En. zbool. unfold u32. apply Z.mod_small. lia.
Qed.

Lemma length_printint_chars xx base sign :
  10 ≤ base ≤ 16 → (length (printint_chars table xx base sign) ≤ 16)%nat.
Proof.
  intros Hb. unfold printint_chars. rewrite length_rev, length_app.
  assert (Hl : ∀ x, (length (printint_digits table 32 (u32 x) base) ≤ 10)%nat).
  { intros x. apply length_printint_digits; [lia|].
    assert (10 ^ 10 ≤ base ^ Z.of_nat 10) by (apply Z.pow_le_mono_l; lia). unfold u32. dlia. }
  pose proof (Hl (- xx)). pose proof (Hl xx). repeat case_b; cbn [length]; lia.
Qed.

End printing.
