(* ===== verification/Pipe.v ===== *)
(** * Pipes

    [src/pipe.c]: the ring buffer of [PIPESIZE] bytes shared by the two ends of
    a pipe.  [pipewrite] and [piperead] give up the CPU in [sleep]; a call is
    modelled as the slices it runs between acquiring [p->lock] and releasing it
    (by returning or by sleeping).  A sleeping call restarts at the test of the
    loop it slept in, with the lock held, so every slice of a write starts at
    the same point with the bytes it still has to store.

    [Sys] interleaves slices of any number of readers, writers and closers.
    Theorems: the bytes read are always a prefix of the bytes written, in order,
    with at most [PIPESIZE] in flight, across the wrap-around of the 32-bit
    counters; a process never sleeps on a condition that has become true,
    provided no writer is killed; a killed writer breaks that. *)
From S2P Require Import Prelude Ring.

Definition PIPESIZE : Z := 512.
#[local] Instance pipesize_ring : RingSize PIPESIZE := ring_size_512.

(** The two channels a process can sleep on: [&p->nread] and [&p->nwrite]. *)
Inductive pchan : Type := ChNread | ChNwrite.

Record pipe : Type := Pipe {
  locked : bool;
  data : list Z;
  nread : Z;          (* uint: number of bytes read *)
  nwrite : Z;         (* uint: number of bytes written *)
  readopen : bool;
  writeopen : bool
}.

Definition set_locked (b : bool) (p : pipe) : pipe :=
  Pipe b (data p) (nread p) (nwrite p) (readopen p) (writeopen p).

Definition set_ends (r w : bool) (p : pipe) : pipe :=
  Pipe (locked p) (data p) (nread p) (nwrite p) r w.

(** [p->data[p->nwrite++ % PIPESIZE] = b]. *)
Definition push (b : Z) (p : pipe) : pipe :=
  Pipe (locked p) (ring_set PIPESIZE (data p) (nwrite p) b)
    (nread p) (u32 (nwrite p + 1)) (readopen p) (writeopen p).

(** [p->data[p->nread++ % PIPESIZE]]. *)
Definition top (p : pipe) : Z := ring_get PIPESIZE (data p) (nread p).

Definition pop (p : pipe) : pipe :=
  Pipe (locked p) (data p) (u32 (nread p + 1)) (nwrite p) (readopen p) (writeopen p).

Definition full (p : pipe) : bool := nwrite p =? u32 (nread p + PIPESIZE).
Definition empty (p : pipe) : bool := nread p =? nwrite p.

(** The fields [pipealloc] sets up on the page it allocated; the page's old
    contents [junk] stay in [data]. *)
Definition pipealloc_init (junk : list Z) : pipe :=
  Pipe false junk 0 0 true true.

(** How a slice ends: the call returned [r] with [rest] not stored, or sleeps
    with [rest] still to store. *)
Inductive wslice : Type :=
| WDone (r : Z) (rest : list Z)
| WSleep (rest : list Z).

Inductive rslice : Type :=
| RDone (r : Z) (bytes : list Z)
| RSleep.

(** The loop of [pipewrite], the lock held, [todo] the bytes [addr[i..n)]; the
    channels woken are accumulated in [ws]. *)
Fixpoint pipewrite_loop (killed : bool) (n : Z) (todo : list Z) (ws : list pchan)
    (p : pipe) : wslice * list pchan * pipe :=
  match todo with
  | [] => (WDone n [], ws ++ [ChNread], set_locked false p)
  | b :: rest =>
      if full p then
        if negb (readopen p) || killed then (WDone (-1) todo, ws, set_locked false p)
        else (WSleep todo, ws ++ [ChNread], set_locked false p)
      else pipewrite_loop killed n rest ws (push b p)
  end.

Definition pipewrite (killed : bool) (n : Z) (todo : list Z) (p : pipe)
    : outcome (list pchan * pipe) wslice :=
  if locked p then Panic "acquire" else
  let '(r, ws, p') := pipewrite_loop killed n todo [] (set_locked true p) in
  Ok r (ws, p').

(** [for(i = 0; i < n; i++)] of [piperead]: at most [n] bytes, in order. *)
Fixpoint piperead_copy (n : nat) (p : pipe) : list Z * pipe :=
  match n with
  | O => ([], p)
  | S n' =>
      if empty p then ([], p)
      else let '(bs, p') := piperead_copy n' (pop p) in (top p :: bs, p')
  end.

Definition piperead (killed : bool) (n : Z) (p : pipe)
    : outcome (list pchan * pipe) rslice :=
  if locked p then Panic "acquire" else
  let p := set_locked true p in
  if empty p && writeopen p then
    if killed then Ok (RDone (-1) []) ([], set_locked false p)
    else Ok RSleep ([], set_locked false p)
  else
    let '(bs, p') := piperead_copy (Z.to_nat n) p in
    Ok (RDone (Z.of_nat (length bs)) bs) ([ChNwrite], set_locked false p').

(** [pipeclose]: the result says whether the page is freed. *)
Definition pipeclose (writable : bool) (p : pipe)
    : outcome (list pchan * pipe) bool :=
  if locked p then Panic "acquire" else
  let p := set_locked true p in
  let '(ws, p) :=
    if writable then ([ChNread], set_ends (readopen p) false p)
    else ([ChNwrite], set_ends false (writeopen p) p) in
  if negb (readopen p) && negb (writeopen p)
  then Ok true (ws, set_locked false p)
  else Ok false (ws, set_locked false p).

(** ** The pipe as a queue *)

Definition qlen (p : pipe) : Z := u32 (nwrite p - nread p).

(** The bytes in flight, oldest first. *)
Definition contents (p : pipe) : list Z :=
  ring_read PIPESIZE (data p) (nread p) (Z.to_nat (qlen p)).

Record wf (p : pipe) : Prop := {
  wf_data : length (data p) = 512%nat;
  wf_nread : 0 ≤ nread p < 2 ^ 32;
  wf_nwrite : 0 ≤ nwrite p < 2 ^ 32;
  wf_qlen : qlen p ≤ PIPESIZE
}.

(** ** Interleavings *)

Module Sys.

(** The pipe, whether a reader and a writer sleep on it, and (ghost) all bytes
    ever stored and ever delivered. *)
Record sys : Type := St {
  pp : pipe;
  rsleep : bool;
  wsleep : bool;
  sent : list Z;
  rcvd : list Z
}.

Definition woken (c : pchan) (ws : list pchan) (asleep : bool) : bool :=
  match c with
  | ChNread => asleep && negb (existsb (λ w, match w with ChNread => true | _ => false end) ws)
  | ChNwrite => asleep && negb (existsb (λ w, match w with ChNwrite => true | _ => false end) ws)
  end.

Definition wrest (r : wslice) : list Z :=
  match r with WDone _ rest => rest | WSleep rest => rest end.
Definition is_wsleep (r : wslice) : bool :=
  match r with WSleep _ => true | _ => false end.
Definition is_rsleep (r : rslice) : bool :=
  match r with RSleep => true | _ => false end.
Definition rbytes (r : rslice) : list Z :=
  match r with RDone _ bs => bs | RSleep => [] end.

(** One slice of some process.  A call goes through an open end; an end is not
    closed while a process sleeps in a call on it, since the sleeper's
    descriptor still refers to it.  [ak] admits writers that have been
    killed. *)
Inductive pstep (ak : bool) : sys → sys → Prop :=
| step_write s killed n todo r ws p' :
    (killed = true → ak = true) → writeopen (pp s) = true →
    pipewrite killed n todo (pp s) = Ok r (ws, p') →
    pstep ak s (St p' (woken ChNread ws (rsleep s))
                 (woken ChNwrite ws (wsleep s) || is_wsleep r)
                 (sent s ++ take (length todo - length (wrest r)) todo) (rcvd s))
| step_read s killed n r ws p' :
    readopen (pp s) = true →
    piperead killed n (pp s) = Ok r (ws, p') →
    pstep ak s (St p' (woken ChNread ws (rsleep s) || is_rsleep r)
                 (woken ChNwrite ws (wsleep s))
                 (sent s) (rcvd s ++ rbytes r))
| step_close s (writable : bool) freed ws p' :
    (if writable then wsleep s else rsleep s) = false →
    pipeclose writable (pp s) = Ok freed (ws, p') →
    pstep ak s (St p' (woken ChNread ws (rsleep s)) (woken ChNwrite ws (wsleep s))
                 (sent s) (rcvd s)).

Definition init (junk : list Z) : sys := St (pipealloc_init junk) false false [] [].

End Sys.

(** ** Lemmas: the queue *)

Section queue.
Implicit Types p : pipe.

Lemma full_qlen p : wf p → full p = true ↔ qlen p = PIPESIZE.
Proof.
  intros [_ Hr Hw Hq]. unfold full, qlen, u32, PIPESIZE in *. rewrite Z.eqb_eq.
  dlia.
Qed.

Lemma empty_qlen p : wf p → empty p = true ↔ qlen p = 0.
Proof.
  intros [_ Hr Hw Hq]. unfold empty, qlen, u32 in *. rewrite Z.eqb_eq. dlia.
Qed.

Lemma length_contents p : Z.of_nat (length (contents p)) = qlen p.
Proof. unfold contents. rewrite length_ring_read. unfold qlen, u32. dlia. Qed.

Lemma push_wf b p : wf p → full p = false →
  wf (push b p) ∧ contents (push b p) = contents p ++ [b].
Proof.
  intros Hwf Hf. assert (Hlt : qlen p < PIPESIZE).
  { destruct (decide (qlen p = PIPESIZE)) as [E|E].
    - apply full_qlen in E; [congruence|done].
    - pose proof (wf_qlen p Hwf). lia. }
  destruct Hwf as [Hd Hr Hw Hq].
  assert (Hq' : qlen (push b p) = qlen p + 1).
  { unfold qlen, u32, PIPESIZE in *. simpl. unfold u32. dlia. }
  split; [constructor; simpl; unfold u32; rewrite ?length_ring_set; try dlia; lia|].
  unfold contents. rewrite Hq', Z.add_1_r, Z2Nat.inj_succ by (unfold qlen, u32; dlia).
  rewrite ring_read_snoc. simpl. f_equal.
  - apply (ring_read_set PIPESIZE). change (u32 (nwrite p - nread p)) with (qlen p).
    assert (0 ≤ qlen p) by (unfold qlen, u32; dlia). lia.
  - f_equal. replace (u32 (nread p + Z.of_nat (Z.to_nat (qlen p)))) with (u32 (nwrite p))
      by (unfold qlen, u32, PIPESIZE in *; dlia).
    apply (ring_get_set PIPESIZE). by rewrite Hd.
Qed.

Lemma pop_wf p : wf p → empty p = false →
  wf (pop p) ∧ contents p = top p :: contents (pop p).
Proof.
  intros Hwf He. assert (Hgt : 0 < qlen p).
  { destruct (decide (qlen p = 0)) as [E|E].
    - apply empty_qlen in E; [congruence|done].
    - unfold qlen, u32 in *. dlia. }
  destruct Hwf as [Hd Hr Hw Hq].
  assert (Hq' : qlen (pop p) = qlen p - 1).
  { unfold qlen, u32, PIPESIZE in *. simpl. unfold u32. dlia. }
  split; [constructor; simpl; unfold u32; try dlia; lia|].
  unfold contents. rewrite Hq'.
  replace (Z.to_nat (qlen p)) with (S (Z.to_nat (qlen p - 1))) by lia.
  by rewrite (ring_read_cons PIPESIZE).
Qed.

Lemma piperead_copy_spec n p : wf p →
  let '(bs, p') := piperead_copy n p in
  wf p' ∧ contents p = bs ++ contents p' ∧
  readopen p' = readopen p ∧ writeopen p' = writeopen p.
Proof.
  revert p. induction n as [|n IH]; intros p Hwf; simpl; [done|].
  destruct (empty p) eqn:E; [done|]. destruct (pop_wf p Hwf E) as [Hwf' Hc].
  specialize (IH (pop p) Hwf'). destruct (piperead_copy n (pop p)) as [bs p'].
  destruct IH as (? & Hc' & ? & ?). split_and!; [done| |done..].
  rewrite Hc, Hc'. done.
Qed.
End queue.

(** What a slice of a write leaves behind, by how it ended. *)
Definition write_end (killed : bool) (n : Z) (ws : list pchan) (r : wslice)
    (ws' : list pchan) (p' : pipe) : Prop :=
  match r with
  | WDone v rest =>
      (v = n ∧ rest = [] ∧ ws' = ws ++ [ChNread]) ∨
      (v = -1 ∧ rest ≠ [] ∧ full p' = true ∧ ws' = ws ∧
       (readopen p' = false ∨ killed = true))
  | WSleep rest => rest ≠ [] ∧ full p' = true ∧ readopen p' = true ∧ ws' = ws ++ [ChNread]
  end.

Lemma pipewrite_loop_spec killed n todo ws p r ws' p' :
  wf p → pipewrite_loop killed n todo ws p = (r, ws', p') →
  wf p' ∧ locked p' = false ∧
  readopen p' = readopen p ∧ writeopen p' = writeopen p ∧
  (∃ st, todo = st ++ Sys.wrest r ∧ contents p' = contents p ++ st) ∧
  write_end killed n ws r ws' p'.
Proof.
  revert p. induction todo as [|b todo IH]; intros p Hwf; simpl.
  { intros [= <- <- <-]. split; [by destruct Hwf|]. do 3 (split; [done|]).
    split; [exists []; by rewrite (app_nil_r (contents p))|by left]. }
  destruct (full p) eqn:Hf.
  - assert (wf (set_locked false p)) by by destruct Hwf.
    destruct (negb (readopen p) || killed) eqn:Hk; intros [= <- <- <-];
      (do 4 (split; [done|])); (split; [exists []; by rewrite (app_nil_r (contents p))|]).
    + right. split_and!; try done. simpl. destruct (readopen p), killed; auto; done.
    + simpl. apply orb_false_iff in Hk as [?%negb_false_iff ->]. by split_and!.
  - intros H. destruct (push_wf b p Hwf Hf) as [Hwf' Hc].
    destruct (IH _ Hwf' H) as (? & ? & ? & ? & (st & -> & Hc') & ?).
    split_and!; try done. exists (b :: st). split; [done|].
    by rewrite Hc', Hc, <- app_assoc.
Qed.

Lemma set_locked_wf b p : wf p → wf (set_locked b p).
Proof. intros []; by constructor. Qed.
#[local] Hint Resolve set_locked_wf : xv6.

Lemma pipewrite_spec killed n todo p r ws p' :
  wf p → pipewrite killed n todo p = Ok r (ws, p') →
  wf p' ∧ locked p' = false ∧
  readopen p' = readopen p ∧ writeopen p' = writeopen p ∧
  (∃ st, todo = st ++ Sys.wrest r ∧ contents p' = contents p ++ st) ∧
  write_end killed n [] r ws p'.
Proof.
  unfold pipewrite. destruct (locked p); [done|].
  destruct (pipewrite_loop _ _ _ _ _) as [[r0 ws0] p0] eqn:E. intros Hwf [= <- <- <-].
  apply pipewrite_loop_spec in E; [done|eauto with xv6].
Qed.

Lemma piperead_spec killed n p r ws p' :
  wf p → piperead killed n p = Ok r (ws, p') →
  wf p' ∧ locked p' = false ∧
  readopen p' = readopen p ∧ writeopen p' = writeopen p ∧
  contents p = Sys.rbytes r ++ contents p' ∧
  match r with
  | RSleep => contents p' = [] ∧ writeopen p' = true ∧ ws = []
  | RDone v bs => (ws = [ChNwrite] ∧ v = Z.of_nat (length bs)) ∨ (ws = [] ∧ bs = [] ∧ v = -1)
  end.
Proof.
  unfold piperead. destruct (locked p); [done|]. intros Hwf.
  destruct (empty (set_locked true p) && writeopen (set_locked true p)) eqn:E.
  - apply andb_true_iff in E as [He Hw].
    assert (contents p = []) as Hc.
    { apply length_zero_iff_nil. pose proof (length_contents p).
      assert (qlen p = 0) by by apply empty_qlen. lia. }
    destruct killed; intros [= <- <- <-]; split_and!; try done;
      eauto with xv6.
  - destruct (piperead_copy _ _) as [bs p0] eqn:Ec. intros [= <- <- <-].
    pose proof (piperead_copy_spec (Z.to_nat n) (set_locked true p)) as Hs.
    rewrite Ec in Hs. destruct Hs as (? & ? & ? & ?); [eauto with xv6|].
    split_and!; try done; [eauto with xv6|by left].
Qed.

Lemma pipeclose_spec writable p freed ws p' :
  wf p → pipeclose writable p = Ok freed (ws, p') →
  wf p' ∧ locked p' = false ∧ contents p' = contents p ∧
  readopen p' = (writable && readopen p) ∧
  writeopen p' = (negb writable && writeopen p) ∧
  ws = [if writable then ChNread else ChNwrite] ∧
  freed = negb (readopen p') && negb (writeopen p').
Proof.
  unfold pipeclose. destruct (locked p); [done|]. intros Hwf.
  assert (Hwf' : ∀ l r w, wf (set_locked l (set_ends r w p))) by (destruct Hwf; constructor; done).
  destruct writable; simpl; case_match; intros [= <- <- <-]; split_and!; try done;
    try (by destruct (Hwf' true true true)); by destruct Hwf.
Qed.

(** ** Invariants of the interleavings *)

Definition fifo (s : Sys.sys) : Prop :=
  wf (Sys.pp s) ∧ locked (Sys.pp s) = false ∧
  Sys.sent s = Sys.rcvd s ++ contents (Sys.pp s).

Definition awake (s : Sys.sys) : Prop :=
  (Sys.rsleep s = true →
     contents (Sys.pp s) = [] ∧ readopen (Sys.pp s) = true ∧ writeopen (Sys.pp s) = true) ∧
  (Sys.wsleep s = true →
     full (Sys.pp s) = true ∧ readopen (Sys.pp s) = true ∧ writeopen (Sys.pp s) = true).

Lemma init_fifo junk : length junk = 512%nat → fifo (Sys.init junk).
Proof. intros H. split; [|done]. by constructor. Qed.

Lemma pstep_fifo ak s s' : Sys.pstep ak s s' → fifo s → fifo s'.
Proof.
  destruct 1 as [s killed n todo r ws p' _ _ E|s killed n r ws p' _ E|s w f ws p' _ E];
    intros (Hwf & Hl & Hs); unfold fifo; simpl.
  - apply pipewrite_spec in E as (? & ? & _ & _ & (st & -> & ->) & _); [|done].
    split_and!; [done..|]. rewrite Hs, length_app, <- app_assoc.
    replace (length st + _ - _)%nat with (length st) by lia. by rewrite take_app_length.
  - apply piperead_spec in E as (? & ? & _ & _ & Hc & _); [|done].
    split_and!; [done..|]. by rewrite Hs, Hc, app_assoc.
  - apply pipeclose_spec in E as (? & ? & -> & _); [|done]. by split_and!.
Qed.

Lemma full_nonempty p : wf p → full p = true → contents p ≠ [].
Proof.
  intros Hwf Hf%full_qlen He; [|done]. pose proof (length_contents p) as Hl.
  rewrite He in Hl. simpl in Hl. unfold PIPESIZE in *. lia.
Qed.

Lemma full_app p p' st :
  wf p → wf p' → full p = true → contents p' = contents p ++ st → full p' = true.
Proof.
  intros Hwf Hwf' Hf%full_qlen Hc; [|done]. apply full_qlen; [done|].
  pose proof (length_contents p). pose proof (length_contents p') as Hl.
  rewrite Hc, length_app in Hl. pose proof (wf_qlen p' Hwf'). lia.
Qed.

Lemma pstep_awake s s' :
  Sys.pstep false s s' → fifo s → awake s → awake s'.
Proof.
  destruct 1 as [s killed n todo r ws p' Hk Hw E|s killed n r ws p' Hr E|s w f ws p' Hc E];
    intros (Hwf & _ & _) [Ha Hb]; unfold awake; simpl.
  - apply pipewrite_spec in E as (Hwf' & _ & Er & Ew & (st & _ & Hc) & He); [|done].
    rewrite Er, Ew.
    assert (Hfull : Sys.wsleep s = true → full p' = true ∧ readopen (Sys.pp s) = true).
    { intros (Hf & ? & _)%Hb. split; [by eapply full_app|done]. }
    destruct r as [v rest|rest]; simpl in *.
    + destruct He as [(-> & -> & ->)|(-> & _ & Hf & -> & [He|He])]; simpl.
      * rewrite andb_false_r, andb_true_r, orb_false_r. naive_solver.
      * rewrite Er in He. rewrite !andb_true_r, orb_false_r. naive_solver congruence.
      * by specialize (Hk He).
    + destruct He as (_ & Hf & Hro & ->). simpl. rewrite andb_false_r. naive_solver congruence.
  - apply piperead_spec in E as (Hwf' & _ & Er & Ew & Hc & He); [|done].
    rewrite Er, Ew. destruct r as [v bs|]; simpl in *.
    + destruct He as [[-> _]|(-> & -> & _)]; simpl in *;
        rewrite ?andb_false_r, ?andb_true_r, ?orb_false_r.
      * split; [|done]. intros (Hc0 & ? & ?)%Ha. rewrite Hc0 in Hc.
        symmetry in Hc. apply app_nil in Hc as [_ ->]. done.
      * rewrite Hc in *. split; [done|]. intros (Hf & ? & ?)%Hb. split_and!; try done.
        apply (full_app (Sys.pp s) p' []); [done..|]. by rewrite Hc, app_nil_r.
    + destruct He as (Hc' & ? & ->). simpl. rewrite !andb_true_r. split.
      * intros _. rewrite <- Ew. by split_and!.
      * intros (Hf & _ & _)%Hb. exfalso. eapply full_nonempty; [done..|]. by rewrite Hc.
  - apply pipeclose_spec in E as (? & _ & Hcc & Er & Ew & -> & _); [|done].
    rewrite Er, Ew. destruct w; simpl in *; rewrite ?andb_false_r, ?andb_true_r, Hc; done.
Qed.

Lemma reach_fifo ak junk s :
  length junk = 512%nat → rtc (Sys.pstep ak) (Sys.init junk) s → fifo s.
Proof.
  intros Hj Hr. apply init_fifo in Hj. revert Hj.
  induction Hr as [|x y z Hxy _ IH]; [done|]. intros Hx. eapply IH, pstep_fifo; eauto.
Qed.

Lemma reach_awake junk s :
  length junk = 512%nat → rtc (Sys.pstep false) (Sys.init junk) s → awake s.
Proof.
  intros Hj Hr. apply init_fifo in Hj.
  assert (Ha : awake (Sys.init junk)) by done. revert Hj Ha.
  induction Hr as [|x y z Hxy _ IH]; [done|]. intros Hx Ha.
  apply IH; [by eapply pstep_fifo|by eapply pstep_awake].
Qed.

(** ** Properties *)

(** C24: in every state reachable by any interleaving of reads, writes and closes,
    including calls that sleep and resume and calls of killed processes, the bytes
    delivered so far followed by the at most 512 bytes in the buffer are exactly
    the bytes stored so far, in order; the lock is free between slices.  The
    32-bit counters may wrap around any number of times. *)
Theorem pipe_fifo (ak : bool) (junk : list Z) (s : Sys.sys)
    (Hj : length junk = 512%nat) (Hs : rtc (Sys.pstep ak) (Sys.init junk) s) :
  Sys.sent s = Sys.rcvd s ++ contents (Sys.pp s) ∧
  Z.of_nat (length (contents (Sys.pp s))) ≤ PIPESIZE ∧
  locked (Sys.pp s) = false.
Proof.
  destruct (reach_fifo _ _ _ Hj Hs) as (Hwf & Hl & Hc). split_and!; try done.
  rewrite length_contents. by destruct Hwf.
Qed.

(** One write of three bytes. *)
Lemma pipe_fifo_witness :
  ∃ s, rtc (Sys.pstep false) (Sys.init (replicate 512 0)) s ∧
    contents (Sys.pp s) = [1; 2; 3] ∧
    Sys.sent s = Sys.rcvd s ++ contents (Sys.pp s).
Proof.
  eexists. match goal with |- ?P ∧ _ => assert (Hr : P) end.
  { eapply rtc_l; [|apply rtc_refl].
    eapply (Sys.step_write false _ false 3 [1; 2; 3]); [done|done|vm_compute; reflexivity]. }
  split; [exact Hr|]. split; [vm_compute; reflexivity|].
  refine (proj1 (pipe_fifo false (replicate 512 0) _ _ Hr)). reflexivity.
Defined.

(** C34: no lost wakeups: as long as no writer is killed, a reader is asleep only
    while the pipe is empty with its write end open, and a writer only while the
    pipe is full with its read end open. *)
Theorem pipe_no_lost_wakeup (junk : list Z) (s : Sys.sys)
    (Hj : length junk = 512%nat) (Hs : rtc (Sys.pstep false) (Sys.init junk) s) :
  (Sys.rsleep s = true → contents (Sys.pp s) = [] ∧ writeopen (Sys.pp s) = true) ∧
  (Sys.wsleep s = true →
     Z.of_nat (length (contents (Sys.pp s))) = PIPESIZE ∧ readopen (Sys.pp s) = true).
Proof.
  destruct (reach_awake _ _ Hj Hs) as [Ha Hb].
  destruct (reach_fifo _ _ _ Hj Hs) as (Hwf & _ & _).
  split; [naive_solver|]. intros (Hf & ? & ?)%Hb. split; [|done].
  rewrite length_contents. by apply full_qlen.
Qed.

(** A reader goes to sleep on the new pipe. *)
Lemma pipe_no_lost_wakeup_witness :
  ∃ s, rtc (Sys.pstep false) (Sys.init (replicate 512 0)) s ∧ Sys.rsleep s = true ∧
    contents (Sys.pp s) = [] ∧ writeopen (Sys.pp s) = true.
Proof.
  eexists. match goal with |- ?P ∧ _ => assert (Hr : P) end.
  { eapply rtc_l; [|apply rtc_refl].
    eapply (Sys.step_read false _ false 1); [done|vm_compute; reflexivity]. }
  split; [exact Hr|]. split; [vm_compute; reflexivity|].
  refine (proj1 (pipe_no_lost_wakeup (replicate 512 0) _ _ Hr) _); reflexivity.
Defined.

(** With killed writers the wakeup can be lost: a killed writer that fills the
    pipe returns -1 without waking the readers, so a reader stays asleep beside
    512 unread bytes while the write end is still open. *)
Theorem pipe_killed_writer_loses_wakeup :
  ∃ s, rtc (Sys.pstep true) (Sys.init (replicate 512 0)) s ∧
    Sys.rsleep s = true ∧ writeopen (Sys.pp s) = true ∧
    contents (Sys.pp s) = replicate 512 65.
Proof.
  eexists. split.
  { eapply rtc_l; [eapply (Sys.step_read true _ false 1); [done|vm_compute; reflexivity]|].
    eapply rtc_l; [|apply rtc_refl].
    eapply (Sys.step_write true _ true 513 (replicate 513 65));
      [done|done|vm_compute; reflexivity]. }
  vm_compute. done.
Qed.

(** End of file is reported exactly at the end: a read of [n > 0] bytes by a
    live process returns 0 iff every stored byte has been delivered and the write
    end is closed, and otherwise it sleeps or delivers the oldest bytes. *)
Theorem piperead_eof (n : Z) (p : pipe) (Hn : 0 < n) (Hwf : wf p) (Hl : locked p = false) :
  ∃ r ws p', piperead false n p = Ok r (ws, p') ∧
    (r = RDone 0 [] ↔ contents p = [] ∧ writeopen p = false) ∧
    contents p = Sys.rbytes r ++ contents p'.
Proof.
  destruct (piperead false n p) as [r [ws p']|e|e] eqn:E.
  - exists r, ws, p'. split; [done|].
    pose proof (piperead_spec _ _ _ _ _ _ Hwf E) as (_ & _ & _ & Ew & Hc & He).
    split; [|done]. unfold piperead in E. rewrite Hl in E.
    destruct (empty (set_locked true p) && writeopen (set_locked true p)) eqn:Eb.
    + injection E as <- <- <-. apply andb_true_iff in Eb as [_ Eb].
      change (writeopen p = true) in Eb. rewrite Eb. split; [done|naive_solver].
    + destruct (piperead_copy _ _) as [bs p0] eqn:Ep. injection E as <- <- <-.
      replace (Z.to_nat n) with (S (Z.to_nat (n - 1))) in Ep by lia. simpl in Ep.
      change (empty p && writeopen p = false) in Eb.
      change (empty (set_locked true p)) with (empty p) in Ep.
      destruct (empty p) eqn:Ee.
      * injection Ep as <- <-. simpl in Eb. split; [|done]. intros _. split; [|done].
        apply length_zero_iff_nil. pose proof (length_contents p).
        assert (qlen p = 0) by (by apply empty_qlen). lia.
      * destruct (piperead_copy _ _) as [bs' p1]. injection Ep as <- <-.
        split; [intros [=]|]. intros [Hz _]. exfalso.
        assert (qlen p ≠ 0) by (intros ?%empty_qlen; [congruence|done]).
        pose proof (length_contents p) as Hlc. rewrite Hz in Hlc. simpl in Hlc. lia.
  - unfold piperead in E. rewrite Hl in E. repeat case_match; done.
  - unfold piperead in E. rewrite Hl in E. repeat case_match; done.
Qed.

