(* ===== verification/Console.v ===== *)
(** * The console driver

    [src/console.c]: the CGA text screen and its cursor, the kernel's formatted
    output, the line discipline between keyboard and [read], and the screen
    primitives the editor uses ([scrputc], [setcursor], [savescr], ...), which
    [src/sysproc.c] exports as system calls.

    [crt] is the CGA memory as the driver indexes it, one 16-bit cell per index;
    the driver does not check its indices, so [crt] is a total map and cells
    outside the 25x80 screen stand for the memory around it.  The cursor lives in
    two 8-bit registers of the CRT controller, always selected before they are
    accessed.  [serial] is what [uartputc] was given.  [getc] of [consoleintr]
    is the list of the codes it returns before a negative one.

    Theorems: the terminal output never leaves the 24 text rows and scrolls
    whole rows; the line discipline refines an abstract editor of a line buffer
    with 128 bytes, total over any keyboard input; [consoleread] delivers the
    committed bytes in order; saving and restoring the screen is lossless across
    any editor drawing; [printint] prints numerals that read back to their
    argument; what the unchecked primitives allow. *)
From S2P Require Import Prelude Ring Numeral.

(** ** Constants: [console.h], [color.h], [vim.h] *)

Definition MAX_ROW : Z := 24.
Definition MAX_COL : Z := 80.
Definition MAX_CHAR : Z := MAX_ROW * MAX_COL.
Definition CMD_LINE : Z := MAX_ROW * MAX_COL.
Definition CMD_BUF_SZ : Z := 40.
Definition EMPTY_CHAR : Z := 0.
Definition L_GREY : Z := 0x0700.
Definition WHITE : Z := 0x0f00.
Definition WHITE_ON_GREY : Z := 0x8f00.
Definition BLACK : Z := 0x0000.
Definition BACKSPACE : Z := 0x100.
Definition INPUT_BUF : Z := 128.
#[local] Instance input_buf_ring : RingSize INPUT_BUF := ring_size_128.

Definition KEY_UP : Z := 0xE2.
Definition KEY_DN : Z := 0xE3.
Definition KEY_LF : Z := 0xE4.
Definition KEY_RT : Z := 0xE5.
Definition KEY_ESC : Z := 0x1B.
Definition V_READONLY : Z := 1.
Definition V_INSERT : Z := 2.
Definition V_CMD : Z := 3.

Definition ctrl (x : Z) : Z := x - 64.           (* C(x): x - '@' *)
Definition NL : Z := 10.
Definition CR : Z := 13.
Definition BLANK : Z := 32.
Definition DELETE : Z := 127.

(** ** State *)

Record input_buf : Type := Input {
  buf : list Z;
  r : Z;  (* Read index *)
  w : Z;  (* Write index *)
  e : Z   (* Edit index *)
}.

Record console : Type := Cons {
  crt : Z → Z;
  cur_hi : Z;            (* CRT controller registers 14 and 15 *)
  cur_lo : Z;
  serial : list Z;
  buffering : Z;
  panicked : bool;
  locking : Z;
  locked : bool;         (* cons.lock is held *)
  input : input_buf;
  in_ : Z;
  current_line : Z;
  precrt : Z → Z;
  wakeups : nat;         (* calls of wakeup(&input.r) *)
  dumps : nat            (* calls of procdump() *)
}.

Definition set_crt (f : Z → Z) (s : console) : console :=
  Cons f (cur_hi s) (cur_lo s) (serial s) (buffering s) (panicked s) (locking s) (locked s)
    (input s) (in_ s) (current_line s) (precrt s) (wakeups s) (dumps s).
Definition set_cur (hi lo : Z) (s : console) : console :=
  Cons (crt s) hi lo (serial s) (buffering s) (panicked s) (locking s) (locked s)
    (input s) (in_ s) (current_line s) (precrt s) (wakeups s) (dumps s).
Definition set_serial (l : list Z) (s : console) : console :=
  Cons (crt s) (cur_hi s) (cur_lo s) l (buffering s) (panicked s) (locking s) (locked s)
    (input s) (in_ s) (current_line s) (precrt s) (wakeups s) (dumps s).
Definition set_buffering (b : Z) (s : console) : console :=
  Cons (crt s) (cur_hi s) (cur_lo s) (serial s) b (panicked s) (locking s) (locked s)
    (input s) (in_ s) (current_line s) (precrt s) (wakeups s) (dumps s).
Definition set_locked (b : bool) (s : console) : console :=
  Cons (crt s) (cur_hi s) (cur_lo s) (serial s) (buffering s) (panicked s) (locking s) b
    (input s) (in_ s) (current_line s) (precrt s) (wakeups s) (dumps s).
Definition set_input (i : input_buf) (s : console) : console :=
  Cons (crt s) (cur_hi s) (cur_lo s) (serial s) (buffering s) (panicked s) (locking s) (locked s)
    i (in_ s) (current_line s) (precrt s) (wakeups s) (dumps s).
Definition set_in (c : Z) (s : console) : console :=
  Cons (crt s) (cur_hi s) (cur_lo s) (serial s) (buffering s) (panicked s) (locking s) (locked s)
    (input s) c (current_line s) (precrt s) (wakeups s) (dumps s).
Definition set_line (n : Z) (s : console) : console :=
  Cons (crt s) (cur_hi s) (cur_lo s) (serial s) (buffering s) (panicked s) (locking s) (locked s)
    (input s) (in_ s) n (precrt s) (wakeups s) (dumps s).
Definition set_precrt (f : Z → Z) (s : console) : console :=
  Cons (crt s) (cur_hi s) (cur_lo s) (serial s) (buffering s) (panicked s) (locking s) (locked s)
    (input s) (in_ s) (current_line s) f (wakeups s) (dumps s).
Definition add_wakeup (s : console) : console :=
  Cons (crt s) (cur_hi s) (cur_lo s) (serial s) (buffering s) (panicked s) (locking s) (locked s)
    (input s) (in_ s) (current_line s) (precrt s) (S (wakeups s)) (dumps s).
Definition add_dump (s : console) : console :=
  Cons (crt s) (cur_hi s) (cur_lo s) (serial s) (buffering s) (panicked s) (locking s) (locked s)
    (input s) (in_ s) (current_line s) (precrt s) (wakeups s) (S (dumps s)).

Definition poke (i v : Z) (s : console) : console := set_crt (upd (crt s) i (u16 v)) s.

(** Copy and clear of [n] cells: [memmove] and [memset] of [2 * n] bytes. *)
Definition cells_move (f : Z → Z) (dst src n : Z) : Z → Z :=
  λ x, if (dst <=? x) && (x <? dst + n) then f (src + (x - dst)) else f x.
Definition cells_clear (f : Z → Z) (dst n : Z) : Z → Z :=
  λ x, if (dst <=? x) && (x <? dst + n) then 0 else f x.

(** ** Cursor *)

Definition write_cursor (pos : Z) (s : console) : console :=
  set_cur (u8 (Z.shiftr pos 8)) (u8 pos) s.

Definition getcursor (s : console) : Z :=
  Z.lor (Z.shiftl (cur_hi s) 8) (cur_lo s).

Definition setcursor (pos : Z) (s : console) : console :=
  let s := write_cursor pos s in
  let ch := crt s pos in
  if ch =? EMPTY_CHAR then poke pos (Z.lor ch WHITE) s else poke pos ch s.

Definition getcch (pos : Z) (s : console) : Z := crt s pos.

(** ** Terminal output *)

Definition uartputc (c : Z) (s : console) : console := set_serial (serial s ++ [u8 c]) s.

(** The part of [cgaputc] after the character is stored: bounds, scrolling,
    cursor. *)
Definition cga_place (pos : Z) : cm console unit := λ s,
  if (pos <? 0) || (25 * 80 <? pos) then Panic "pos under/overflow" else
  let '(pos, s) :=
    if 24 <=? Z.quot pos 80 then
      let s := set_crt (cells_move (crt s) 0 80 (23 * 80)) s in
      let pos := pos - 80 in
      (pos, set_crt (cells_clear (crt s) pos (24 * 80 - pos)) s)
    else (pos, s) in
  Ok tt (poke pos (Z.lor BLANK 0x0700) (write_cursor pos s)).

Definition cgaputc (c : Z) : cm console unit := λ s,
  let pos := getcursor s in
  if c =? NL then cga_place (pos + (80 - Z.rem pos 80)) s
  else if c =? BACKSPACE then cga_place (if 0 <? pos then pos - 1 else pos) s
  else cga_place (pos + 1) (poke pos (Z.lor (Z.land c 255) 0x0700) s).

(** A panicked kernel spins here. *)
Definition consputc (c : Z) : cm console unit := λ s,
  if panicked s then Panic "frozen" else
  if c =? BACKSPACE then
    if buffering s =? 0 then cgaputc c s
    else cgaputc c (uartputc 8 (uartputc BLANK (uartputc 8 s)))
  else cgaputc c (uartputc c s).

Fixpoint consputs (cs : list Z) : cm console unit :=
  match cs with
  | [] => mret tt
  | c :: cs' => consputc c ;; consputs cs'
  end.

(** ** [printint] and [cprintf] *)

Definition digits : list Z :=
  [48; 49; 50; 51; 52; 53; 54; 55; 56; 57; 97; 98; 99; 100; 101; 102].

Definition printint (xx base sign : Z) : cm console unit :=
  consputs (printint_chars digits xx base sign).

(** A variadic argument: a word, or a string pointer (null or to a string). *)
Inductive carg : Type :=
| CInt (x : Z)
| CStr (s : option (list Z)).

(** The characters [cprintf] sends for a format string and its arguments; [None]
    when a conversion reads an argument that is missing or of the other kind. *)
Fixpoint cprintf_chars (fmt : list Z) (args : list carg) : option (list Z) :=
  match fmt with
  | [] => Some []
  | c :: fmt =>
      if negb (c =? 37) then (c ::.) <$> cprintf_chars fmt args
      else
        match fmt with
        | [] => Some []
        | c :: fmt =>
            if c =? 100 then
              match args with
              | CInt x :: args => app (printint_chars digits (i32 x) 10 1) <$> cprintf_chars fmt args
              | _ => None
              end
            else if (c =? 120) || (c =? 112) then
              match args with
              | CInt x :: args => app (printint_chars digits (i32 x) 16 0) <$> cprintf_chars fmt args
              | _ => None
              end
            else if c =? 115 then
              match args with
              | CStr (Some s) :: args => app s <$> cprintf_chars fmt args
              | CStr None :: args =>
                  app [40; 110; 117; 108; 108; 41] <$> cprintf_chars fmt args
              | _ => None
              end
            else if c =? 37 then (37 ::.) <$> cprintf_chars fmt args
            else app [37; c] <$> cprintf_chars fmt args
        end
  end.

Definition cprintf (fmt : option (list Z)) (args : list carg) : cm console unit :=
  locking ← gets locking;
  cwhen (negb (locking =? 0)) (acquire locked set_locked) ;;
  (match fmt with
   | None => panic "null fmt"
   | Some fmt =>
       match cprintf_chars fmt args with
       | Some cs => consputs cs
       | None => ub "cprintf: argument"
       end
   end) ;;
  cwhen (negb (locking =? 0)) (release locked set_locked).

(** ** Keyboard input *)

(** The loop of the line-kill keys.  Each turn decrements [e], so [e - w] turns
    are enough. *)
Fixpoint kill_line (n : nat) : cm console unit :=
  match n with
  | O => mret tt
  | S n' => λ s,
      let i := input s in
      if negb (e i =? w i) &&
         negb (ring_get INPUT_BUF (buf i) (u32 (e i - 1)) =? NL)
      then (consputc BACKSPACE ;; kill_line n')
             (set_input (Input (buf i) (r i) (w i) (u32 (e i - 1))) s)
      else Ok tt s
  end.

(** [for(i = pos; i < pos + CMD_BUF_SZ - 1; i++) crt[i] = ...]. *)
Fixpoint cmdline_shift (n : nat) (i : Z) (s : console) : console :=
  match n with
  | O => s
  | S n' => cmdline_shift n' (i + 1) (poke i (Z.lor (Z.land (crt s (i + 1)) 255) WHITE_ON_GREY) s)
  end.

(** Backspace while the editor runs: only the command line reacts. *)
Definition cmdline_backspace (s : console) : console :=
  let pos := getcursor s in
  if CMD_LINE <=? pos then
    if CMD_LINE <? pos then
      setcursor (pos - 1) (cmdline_shift (Z.to_nat (CMD_BUF_SZ - 1)) pos s)
    else setcursor CMD_LINE (poke pos (Z.lor BLANK WHITE_ON_GREY) s)
  else s.

(** The end of the [default] case: hand the line over. *)
Definition consoleintr_commit (c : Z) : cm console unit := λ s,
  let i := input s in
  if (buffering s =? 0) || (c =? NL) || (c =? ctrl 68) || (e i =? u32 (r i + INPUT_BUF))
  then Ok tt (add_wakeup (set_input (Input (buf i) (r i) (e i) (e i)) s))
  else Ok tt s.

Definition consoleintr_key (c : Z) : cm console unit := λ s,
  let i := input s in
  if u32 (e i - r i) <? INPUT_BUF then
    let c := if c =? CR then NL else c in
    let i := Input (ring_set INPUT_BUF (buf i) (e i) (u8 c)) (r i) (w i) (u32 (e i + 1)) in
    (cwhen (negb (buffering s =? 0)) (consputc c ;; modify (set_in c)) ;;
     consoleintr_commit c) (set_input i s)
  else Ok tt s.

(** One turn of the loop of [consoleintr]; the flag is [doprocdump]. *)
Definition consoleintr_char (c : Z) (dump : bool) : cm console bool := λ s,
  if c =? ctrl 80 then Ok true s
  else if (c =? ctrl 85) || (c =? ctrl 67) then
    (cwhen (negb (buffering s =? 0))
       (kill_line (Z.to_nat (u32 (e (input s) - w (input s))))) ;; mret dump) s
  else if (c =? ctrl 72) || (c =? DELETE) then
    if negb (buffering s =? 0) then
      let i := input s in
      if negb (e i =? w i)
      then (consputc BACKSPACE ;; mret dump)
             (set_input (Input (buf i) (r i) (w i) (u32 (e i - 1))) s)
      else Ok dump s
    else Ok dump (cmdline_backspace s)
  else if negb (c =? 0) then (consoleintr_key c ;; mret dump) s
  else Ok dump s.

Fixpoint consoleintr_loop (cs : list Z) (dump : bool) : cm console bool :=
  match cs with
  | [] => mret dump
  | c :: cs' => dump ← consoleintr_char c dump; consoleintr_loop cs' dump
  end.

Definition consoleintr (cs : list Z) : cm console unit :=
  acquire locked set_locked ;;
  dump ← consoleintr_loop cs false;
  release locked set_locked ;;
  buffering ← gets buffering;
  cwhen (negb (buffering =? 0) && dump) (modify add_dump).

(** ** [read] and [write] on the console device *)

(** How a slice of [consoleread] ends: it returned [res] after storing [dst], or
    it sleeps on [&input.r] with [n] bytes to go. *)
Inductive cslice : Type :=
| CDone (res : Z) (dst : list Z)
| CSleep (n : nat) (dst : list Z).

(** The loop, [cons.lock] held, [target - n] bytes already stored in [dst]. *)
Fixpoint consoleread_loop (killed : bool) (target n : nat) (dst : list Z) : cm console cslice := λ s,
  match n with
  | O => Ok (CDone (Z.of_nat target) dst) s
  | S n' =>
      let i := input s in
      if r i =? w i then
        if killed then Ok (CDone (-1) dst) s else Ok (CSleep n dst) s
      else
        let c := ring_get INPUT_BUF (buf i) (r i) in
        let s' := set_input (Input (buf i) (u32 (r i + 1)) (w i) (e i)) s in
        if c =? ctrl 68 then
          if (n <? target)%nat then Ok (CDone (Z.of_nat target - Z.of_nat n) dst) s
          else Ok (CDone (Z.of_nat target - Z.of_nat n) dst) s'
        else if c =? NL then Ok (CDone (Z.of_nat target - Z.of_nat n') (dst ++ [c])) s'
        else consoleread_loop killed target n' (dst ++ [c]) s'
  end.

(** A slice: the start of the call ([n = target], [dst] empty) or the return of
    [sleep], in both cases with [cons.lock] acquired; [iunlock] and [ilock] of
    the device inode are left to the file layer. *)
Definition consoleread (killed : bool) (target n : nat) (dst : list Z) : cm console cslice :=
  acquire locked set_locked ;;
  res ← consoleread_loop killed target n dst;
  release locked set_locked ;;
  mret res.

Definition consolewrite (src : list Z) : cm console Z :=
  acquire locked set_locked ;;
  consputs src ;;
  release locked set_locked ;;
  mret (Z.of_nat (length src)).

(** ** Screen primitives *)

Definition setline (line : Z) (s : console) : console := set_line line s.
Definition getline (s : console) : Z := current_line s.
Definition getinput (s : console) : Z := in_ s.
Definition setconsbuf (isbuf : Z) (s : console) : console := set_buffering isbuf s.

(** [precrt] holds [MAX_ROW * MAX_COL] cells. *)
Definition savescr (s : console) : console :=
  set_precrt (λ x, if (0 <=? x) && (x <? MAX_CHAR) then crt s x else precrt s x) s.

Definition restorescr (s : console) : console :=
  set_crt (λ x, if (0 <=? x) && (x <? MAX_CHAR) then precrt s x else crt s x) s.

(** [for(; i > pos; i--) crt[i] = crt[i - 1]]. *)
Fixpoint pushword_loop (n : nat) (i : Z) (s : console) : console :=
  match n with
  | O => s
  | S n' => pushword_loop n' (i - 1) (poke i (crt s (i - 1)) s)
  end.

Definition pushword (pos line : Z) (s : console) : Z * console :=
  let i := (line + 1) * MAX_COL - 1 in
  let s' := pushword_loop (Z.to_nat (i - pos)) i s in
  (crt s' (if pos <? i then pos else i), s').

Definition putchar (pos c : Z) (s : console) : console :=
  poke pos (Z.lor (Z.land c 255) WHITE) s.

Definition scrputc (pos c : Z) (s : console) : console :=
  let s := setcursor pos s in
  let ch := if CMD_LINE <=? pos then Z.lor (Z.land c 255) WHITE_ON_GREY
            else Z.lor (Z.land c 255) WHITE in
  let '(pos, s) :=
    if c =? NL then (pos + (80 - Z.rem pos 80), s)
    else if c =? BACKSPACE then (if 0 <? pos then pos - 1 else pos, s)
    else (pos + 1, poke pos ch s) in
  let s := write_cursor pos s in
  if CMD_LINE <=? pos then poke pos (Z.lor BLANK WHITE_ON_GREY) s
  else poke pos (Z.lor BLANK L_GREY) s.

(** [for(i = p; i < bound; i++) crt[i] = crt[i + 1]]. *)
Fixpoint deletech_loop (n : nat) (i : Z) (s : console) : console :=
  match n with
  | O => s
  | S n' => deletech_loop n' (i + 1) (poke i (crt s (i + 1)) s)
  end.

Definition deletech (currentline linecount : Z) (s : console) : console :=
  let pos := getcursor s in
  let p := Z.rem pos 80 + (currentline - 1) * MAX_COL in
  setcursor pos
    (deletech_loop (Z.to_nat ((MAX_COL - p) + MAX_COL * linecount - 1 - p)) p s).

Definition cell_empty (i : Z) (s : console) : bool :=
  Z.land (crt s i) 255 =? EMPTY_CHAR.

(** The argument of [setcursor] in the [KEY_UP] case is the conjunction
    [pos - MAX_COL && ...], so it is 0 or 1. *)
Definition curmove (move mode : Z) (s : console) : console :=
  let pos := getcursor s in
  if move =? KEY_LF then
    if mode =? V_CMD then (if CMD_LINE <? pos then setcursor (pos - 1) s else s)
    else (if 0 <? pos then setcursor (pos - 1) s else s)
  else if move =? KEY_RT then
    if mode =? V_CMD then
      (if (pos <? MAX_CHAR + CMD_BUF_SZ) && negb (cell_empty (pos + 1) s)
       then setcursor (pos + 1) s else s)
    else
      (if (pos <? MAX_CHAR) && negb (cell_empty (pos + 1) s && cell_empty pos s)
       then setcursor (pos + 1) s else s)
  else if move =? KEY_DN then
    if negb (mode =? V_CMD) then
      (if (Z.quot pos 80 <? MAX_ROW) && negb (cell_empty (pos + MAX_COL) s)
       then setcursor (pos + MAX_COL) s else s)
    else s
  else if move =? KEY_UP then
    if negb (mode =? V_CMD) then
      (if 0 <? Z.quot pos 80
       then setcursor (if negb (pos - MAX_COL =? 0) && negb (cell_empty (pos - MAX_COL) s)
                       then 1 else 0) s
       else s)
    else s
  else s.

Definition clrscr (s : console) : console :=
  let s := set_crt (λ x,
    if (0 <=? x) && (x <? MAX_CHAR) then Z.lor (Z.land EMPTY_CHAR 255) L_GREY
    else if (MAX_CHAR <=? x) && (x <? MAX_CHAR + 80)
         then Z.lor (Z.land EMPTY_CHAR 255) WHITE_ON_GREY
         else crt s x) s in
  let s := write_cursor 0 s in
  poke 0 (Z.lor (crt s 0) WHITE) s.

(** The state after boot, with an input buffer and a screen left as found.
    [consoleinit] registers the device functions and turns locking on. *)
Definition consoleinit (s : console) : console :=
  Cons (crt s) (cur_hi s) (cur_lo s) (serial s) (buffering s) (panicked s) 1 false
    (input s) (in_ s) (current_line s) (precrt s) (wakeups s) (dumps s).

(** ** Specifications *)

(** The line discipline as an editor: bytes handed to readers, and the line being
    typed.  Applies while the console buffers lines. *)
Record ldisc : Type := Ldisc { committed : list Z; editing : list Z }.

Definition ldisc_char (c : Z) (l : ldisc) : ldisc :=
  if c =? ctrl 80 then l
  else if (c =? ctrl 85) || (c =? ctrl 67) then Ldisc (committed l) []
  else if (c =? ctrl 72) || (c =? DELETE) then
    Ldisc (committed l) (take (length (editing l) - 1) (editing l))
  else if (c =? 0) || (128 <=? Z.of_nat (length (committed l ++ editing l))) then l
  else
    let b := u8 (if c =? CR then NL else c) in
    let line := editing l ++ [b] in
    if (c =? CR) || (c =? NL) || (c =? ctrl 68) || (Z.of_nat (length (committed l ++ line)) =? 128)
    then Ldisc (committed l ++ line) []
    else Ldisc (committed l) line.

(** A read of at most [n] bytes: up to and including the first newline, up to a
    ^D, which is consumed only when it comes first. *)
Fixpoint ldisc_take (first : bool) (n : nat) (q : list Z) : option (list Z * list Z) :=
  match n with
  | O => Some ([], q)
  | S n' =>
      match q with
      | [] => None
      | c :: q' =>
          if c =? ctrl 68 then Some ([], if first then q' else q)
          else if c =? NL then Some ([c], q')
          else match ldisc_take false n' q' with
               | Some (bs, q'') => Some (c :: bs, q'')
               | None => None
               end
      end
  end.

Definition abs (i : input_buf) : ldisc :=
  Ldisc (ring_read INPUT_BUF (buf i) (r i) (Z.to_nat (u32 (w i - r i))))
        (ring_read INPUT_BUF (buf i) (w i) (Z.to_nat (u32 (e i - w i)))).

(** The terminal as a roll of paper 80 columns wide, written at position [at_],
    of which the screen shows the 24 rows from row [top].  The printer marks the
    position it stands on, and never goes back above the screen. *)
Record paper : Type := Paper { ink : Z → Z; at_ : Z; top : Z }.

Definition paper_move (c : Z) (p : paper) : paper :=
  if c =? NL then Paper (ink p) (at_ p + (80 - at_ p mod 80)) (top p)
  else if c =? BACKSPACE then
    Paper (ink p) (if 80 * top p <? at_ p then at_ p - 1 else at_ p) (top p)
  else Paper (upd (ink p) (at_ p) (Z.lor (Z.land c 255) L_GREY)) (at_ p + 1) (top p).

Definition paper_putc (p : paper) (c : Z) : paper :=
  let q := paper_move c p in
  Paper (upd (ink q) (at_ q) (Z.lor BLANK L_GREY)) (at_ q)
    (if 80 * (top q + 24) <=? at_ q then top q + 1 else top q).

Definition shows (p : paper) (s : console) : Prop :=
  getcursor s = at_ p - 80 * top p ∧
  (∀ x, 0 ≤ x < MAX_CHAR → crt s x = ink p (80 * top p + x)) ∧
  (∀ x, 80 * (top p + 24) ≤ x → ink p x = 0).

(** The indices are ordered within one lap. *)
Record input_wf (i : input_buf) : Prop := {
  iw_buf : length (buf i) = 128%nat;
  iw_r : 0 ≤ r i < 2 ^ 32;
  iw_w : 0 ≤ w i < 2 ^ 32;
  iw_e : 0 ≤ e i < 2 ^ 32;
  iw_len : u32 (w i - r i) + u32 (e i - w i) ≤ INPUT_BUF
}.

(** The cursor registers hold bytes and point into the text rows. *)
Definition term_ok (s : console) : Prop :=
  0 ≤ cur_hi s < 256 ∧ 0 ≤ cur_lo s < 256 ∧ getcursor s < MAX_CHAR ∧ panicked s = false.

(** Terminal output touches the screen, the cursor and the serial line only. *)
Definition same_rest (s s' : console) : Prop :=
  buffering s' = buffering s ∧ panicked s' = panicked s ∧ locking s' = locking s ∧
  locked s' = locked s ∧ input s' = input s ∧ in_ s' = in_ s ∧
  current_line s' = current_line s ∧ precrt s' = precrt s ∧
  wakeups s' = wakeups s ∧ dumps s' = dumps s.

(** ** Lemmas: the terminal *)

Lemma getcursor_write pos s : getcursor (write_cursor pos s) = u16 pos.
Proof.
  unfold getcursor, write_cursor. simpl. rewrite Z.shiftl_mul_pow2, lor_shiftl_add by (try lia; unfold u8; dlia).
  rewrite Z.shiftr_div_pow2 by lia. unfold u8, u16. dlia.
Qed.

Lemma getcursor_range s :
  0 ≤ cur_hi s < 256 → 0 ≤ cur_lo s < 256 → 0 ≤ getcursor s < 65536.
Proof.
  intros. unfold getcursor. rewrite Z.shiftl_mul_pow2, lor_shiftl_add by lia. lia.
Qed.

Lemma same_rest_refl s : same_rest s s.
Proof. by repeat split. Qed.

Lemma same_rest_trans s1 s2 s3 : same_rest s1 s2 → same_rest s2 s3 → same_rest s1 s3.
Proof. unfold same_rest. intuition congruence. Qed.

(** A terminal step: output only, cursor kept in the text rows, no cell outside
    them written. *)
Definition term_step (s s' : console) : Prop :=
  same_rest s s' ∧ term_ok s' ∧ ∀ x, ¬ (0 ≤ x < MAX_CHAR) → crt s' x = crt s x.

Lemma term_step_refl s : term_ok s → term_step s s.
Proof. intros. split_and!; auto using same_rest_refl. Qed.

Lemma term_step_trans s1 s2 s3 : term_step s1 s2 → term_step s2 s3 → term_step s1 s3.
Proof.
  intros (? & ? & H1) (? & ? & H2). split_and!; eauto using same_rest_trans.
  intros x Hx. by rewrite H2, H1.
Qed.

Lemma write_cursor_ok pos s :
  0 ≤ pos < MAX_CHAR → panicked s = false → term_ok (write_cursor pos s).
Proof.
  intros H Hp. unfold term_ok. rewrite getcursor_write.
  unfold MAX_CHAR, MAX_ROW, MAX_COL, u16 in *. simpl. unfold u8.
  repeat split; try dlia; done.
Qed.

Lemma cga_place_ok pos s :
  0 ≤ pos ≤ MAX_CHAR → panicked s = false →
  returns (cga_place pos s) (λ _ s', term_step s s').
Proof.
  intros Hpos Hp. unfold cga_place, MAX_CHAR, MAX_ROW, MAX_COL in *.
  rewrite (proj2 (Z.ltb_ge pos 0)), (proj2 (Z.ltb_ge (25 * 80) pos)) by lia. simpl orb.
  rewrite Z.quot_div_nonneg by lia.
  destruct (24 <=? pos / 80) eqn:E; zbool; simpl;
    (split_and!; [by repeat split|apply write_cursor_ok; [unfold MAX_CHAR, MAX_ROW, MAX_COL; dlia|done]|]);
    intros x Hx; simpl; unfold upd, cells_clear, cells_move, MAX_CHAR, MAX_ROW, MAX_COL in *;
    repeat case_b; try done; exfalso; dlia.
Qed.

Lemma cgaputc_ok c s : term_ok s → returns (cgaputc c s) (λ _ s', term_step s s').
Proof.
  intros (Hh & Hl & Hc & Hp). pose proof (getcursor_range s Hh Hl).
  unfold cgaputc, MAX_CHAR, MAX_ROW, MAX_COL in *. rewrite Z.rem_mod_nonneg by lia.
  repeat case_b; try (apply cga_place_ok; unfold MAX_CHAR, MAX_ROW, MAX_COL; [dlia|done]).
  eapply returns_mono.
  - apply cga_place_ok; unfold MAX_CHAR, MAX_ROW, MAX_COL; [lia|done].
  - intros [] s' (Hs & Ht & Hx). split_and!; [done|done|]. intros x Hnx. rewrite Hx by done.
    simpl. apply upd_ne. unfold MAX_CHAR, MAX_ROW, MAX_COL in Hnx. lia.
Qed.

Lemma uartputc_step c s s' : term_step s s' → term_step s (uartputc c s').
Proof. intros (Hs & Ht & Hx). split; [exact Hs|]. split; [exact Ht|exact Hx]. Qed.

#[local] Hint Resolve term_step_refl uartputc_step : xv6.

Lemma consputc_ok c s : term_ok s → returns (consputc c s) (λ _ s', term_step s s').
Proof.
  intros H. unfold consputc. rewrite (proj2 (proj2 (proj2 H))).
  assert (Hu : ∀ s', term_step s s' → returns (cgaputc c s') (λ _ s'', term_step s s'')).
  { intros s' Hs. eapply returns_mono; [apply cgaputc_ok, Hs|]. intros [] s''.
    by apply term_step_trans. }
  repeat case_b; apply Hu; eauto with xv6.
Qed.

Lemma consputs_ok cs s : term_ok s → returns (consputs cs s) (λ _ s', term_step s s').
Proof.
  revert s. induction cs as [|c cs IH]; intros s H; simpl; [by apply term_step_refl|].
  apply returns_bind. eapply returns_mono; [by apply consputc_ok|]. intros [] s' Hs.
  eapply returns_mono; [apply IH, Hs|]. intros [] s''. by apply term_step_trans.
Qed.

Lemma consolewrite_ok src s :
  term_ok s → locked s = false →
  returns (consolewrite src s) (λ n s', n = Z.of_nat (length src) ∧ term_step s s').
Proof.
  intros Ht Hl. unfold consolewrite. apply returns_bind. unfold acquire. rewrite Hl.
  simpl returns. apply returns_bind.
  eapply returns_mono; [by apply (consputs_ok src (set_locked true s))|].
  intros [] s' Hs. pose proof Hs as ((? & ? & ? & Hl' & ?) & Ht' & Hx).
  apply returns_bind. unfold release. rewrite Hl'. simpl. by split_and!.
Qed.

(** *** The screen is a window on the paper *)

Lemma lor_attr_u16 b : u16 (Z.lor (Z.land b 255) 0x0700) = Z.lor (Z.land b 255) 0x0700.
Proof.
  unfold u16. apply Z.mod_small. split.
  - apply Z.lor_nonneg. split; [apply Z.land_nonneg; right; lia|lia].
  - apply Z.log2_lt_cancel. rewrite Z.log2_lor by (try lia; apply Z.land_nonneg; right; lia).
    assert (Z.log2 (Z.land b 255) ≤ Z.log2 255); [|simpl in *; lia].
    apply Z.log2_le_mono. change (Z.land b 255) with (Z.land b (Z.ones 8)).
    rewrite Z.land_ones by lia. dlia.
Qed.

Lemma getcursor_poke i v s : getcursor (poke i v s) = getcursor s.
Proof. done. Qed.

Lemma cga_place_shows pos p s :
  0 ≤ pos ≤ MAX_CHAR → pos = at_ p - 80 * top p →
  (∀ x, 0 ≤ x < MAX_CHAR → crt s x = ink p (80 * top p + x)) →
  (∀ x, 80 * (top p + 24) ≤ x → ink p x = 0) →
  returns (cga_place pos s) (λ _ s', shows
    (Paper (upd (ink p) (at_ p) (Z.lor BLANK L_GREY)) (at_ p)
       (if 80 * (top p + 24) <=? at_ p then top p + 1 else top p)) s').
Proof.
  intros Hpos E Hin Hout. unfold cga_place, MAX_CHAR, MAX_ROW, MAX_COL in *.
  rewrite (proj2 (Z.ltb_ge pos 0)), (proj2 (Z.ltb_ge (25 * 80) pos)) by lia. simpl orb.
  rewrite Z.quot_div_nonneg by lia.
  assert (Hs : (24 <=? pos / 80) = (80 * (top p + 24) <=? at_ p)).
  { apply Bool.eq_iff_eq_true. rewrite !Z.leb_le. split; intros; dlia. }
  rewrite Hs. destruct (80 * (top p + 24) <=? at_ p) eqn:Es; zbool; cbn [returns]; unfold shows; cbn [ink at_ top];
    (split_and!; [rewrite getcursor_poke, getcursor_write; unfold u16; dlia| |]); simpl;
    unfold upd, cells_clear, cells_move, MAX_CHAR, MAX_ROW, MAX_COL in *.
  all: intros x Hx; repeat case_b; try lia; try done.
  all: rewrite ?Hin by lia; try (apply Hout; lia); try (symmetry; apply Hout; lia);
    try (f_equal; lia).
Qed.

Lemma cgaputc_shows c p s :
  term_ok s → shows p s → returns (cgaputc c s) (λ _ s', shows (paper_putc p c) s').
Proof.
  intros (Hh & Hl & Hc & _) (Ec & Hin & Hout). pose proof (getcursor_range s Hh Hl).
  unfold cgaputc, paper_putc, paper_move. unfold MAX_CHAR, MAX_ROW, MAX_COL in Hc.
  rewrite Z.rem_mod_nonneg by lia.
  destruct (c =? NL) eqn:E1; [|destruct (c =? BACKSPACE) eqn:E2]; cbn [ink at_ top].
  - apply (cga_place_shows _ (Paper (ink p) (at_ p + (80 - at_ p mod 80)) (top p)));
      cbn [ink at_ top]; try done; unfold MAX_CHAR, MAX_ROW, MAX_COL; dlia.
  - apply (cga_place_shows _ (Paper (ink p) (if 80 * top p <? at_ p then at_ p - 1 else at_ p)
      (top p))); cbn [ink at_ top]; try done;
      unfold MAX_CHAR, MAX_ROW, MAX_COL; repeat case_b; lia.
  - apply (cga_place_shows _ (Paper (upd (ink p) (at_ p) (Z.lor (Z.land c 255) L_GREY))
      (at_ p + 1) (top p))); cbn [ink at_ top];
      unfold MAX_CHAR, MAX_ROW, MAX_COL; try lia; unfold poke, upd; cbn [crt set_crt];
      intros x Hx; repeat case_b; try lia; rewrite ?lor_attr_u16; auto.
Qed.

Lemma consputs_shows cs p s :
  term_ok s → shows p s →
  returns (consputs cs s) (λ _ s', term_step s s' ∧ shows (foldl paper_putc p cs) s').
Proof.
  revert p s. induction cs as [|c cs IH]; intros p s H Hp; simpl; [auto using term_step_refl|].
  apply returns_bind. eapply returns_mono.
  { apply returns_and; [by apply consputc_ok|].
    unfold consputc. rewrite (proj2 (proj2 (proj2 H))).
    instantiate (1 := λ _ s', shows (paper_putc p c) s').
    repeat case_b; by apply cgaputc_shows. }
  intros [] s' [Hs Hp']. eapply returns_mono; [apply (IH _ _ (proj1 (proj2 Hs)) Hp')|].
  intros [] s'' [? ?]. eauto using term_step_trans.
Qed.

(** ** Lemmas: the line discipline *)

Section line_discipline.
Implicit Types i : input_buf.

Lemma length_committed i : Z.of_nat (length (committed (abs i))) = u32 (w i - r i).
Proof. simpl. rewrite length_ring_read. unfold u32. dlia. Qed.

Lemma length_editing i : Z.of_nat (length (editing (abs i))) = u32 (e i - w i).
Proof. simpl. rewrite length_ring_read. unfold u32. dlia. Qed.

Lemma used_sum i : input_wf i → u32 (e i - r i) = u32 (w i - r i) + u32 (e i - w i).
Proof. intros []. unfold u32, INPUT_BUF in *. dlia. Qed.

Lemma length_used i :
  input_wf i → Z.of_nat (length (committed (abs i) ++ editing (abs i))) = u32 (e i - r i).
Proof.
  intros. rewrite length_app, Nat2Z.inj_add, length_committed, length_editing.
  symmetry. by apply used_sum.
Qed.

(** Erasing the last typed byte. *)
Lemma erase_ok i :
  input_wf i → e i ≠ w i →
  let i' := Input (buf i) (r i) (w i) (u32 (e i - 1)) in
  input_wf i' ∧ committed (abs i') = committed (abs i) ∧
  editing (abs i) = editing (abs i') ++ [ring_get INPUT_BUF (buf i) (u32 (e i - 1))] ∧
  u32 (e i' - w i') = u32 (e i - w i) - 1.
Proof.
  intros [Hb Hr Hw He Hl] Hne. simpl. unfold INPUT_BUF in *.
  assert (Hd : u32 (u32 (e i - 1) - w i) = u32 (e i - w i) - 1) by (unfold u32 in *; dlia).
  assert (Hp : 0 < u32 (e i - w i)) by (unfold u32; dlia).
  split; [constructor; simpl; unfold INPUT_BUF; rewrite ?Hd; try lia; unfold u32; dlia|].
  split_and!; [done| |done]. rewrite Hd.
  replace (Z.to_nat (u32 (e i - w i))) with (S (Z.to_nat (u32 (e i - w i) - 1))) by lia.
  rewrite ring_read_snoc. do 3 f_equal. unfold u32 in *. dlia.
Qed.

(** Typing a byte. *)
Lemma type_ok i b :
  input_wf i → u32 (e i - r i) < INPUT_BUF →
  let i' := Input (ring_set INPUT_BUF (buf i) (e i) b) (r i) (w i) (u32 (e i + 1)) in
  input_wf i' ∧ abs i' = Ldisc (committed (abs i)) (editing (abs i) ++ [b]).
Proof.
  intros Hwf Hlt. pose proof (used_sum i Hwf) as Hs. destruct Hwf as [Hb Hr Hw He Hl]. simpl.
  assert (Hd : u32 (u32 (e i + 1) - w i) = u32 (e i - w i) + 1)
    by (unfold u32, INPUT_BUF in *; dlia).
  assert (0 ≤ u32 (e i - w i)) by (unfold u32; dlia).
  assert (0 ≤ u32 (w i - r i)) by (unfold u32; dlia).
  split; [constructor; simpl; rewrite ?length_ring_set, ?Hd; try lia; unfold u32; dlia|].
  unfold abs. simpl. f_equal.
  - apply (ring_read_set INPUT_BUF). lia.
  - rewrite Hd, Z.add_1_r, Z2Nat.inj_succ by done. rewrite ring_read_snoc. f_equal.
    + apply (ring_read_set INPUT_BUF). lia.
    + f_equal. replace (u32 (w i + Z.of_nat (Z.to_nat (u32 (e i - w i))))) with (u32 (e i))
        by (unfold u32; dlia).
      apply (ring_get_set INPUT_BUF). by rewrite Hb.
Qed.

(** Handing the line over. *)
Lemma commit_ok i :
  input_wf i →
  let i' := Input (buf i) (r i) (e i) (e i) in
  input_wf i' ∧ abs i' = Ldisc (committed (abs i) ++ editing (abs i)) [].
Proof.
  intros Hwf. pose proof (used_sum i Hwf) as Hs. destruct Hwf as [Hb Hr Hw He Hl]. simpl.
  assert (Hz : u32 (e i - e i) = 0) by (unfold u32; dlia).
  split; [constructor; simpl; rewrite ?Hz; try done; lia|].
  unfold abs. simpl. rewrite Hz. f_equal. rewrite Hs.
  assert (0 ≤ u32 (e i - w i)) by (unfold u32; dlia).
  assert (0 ≤ u32 (w i - r i)) by (unfold u32; dlia).
  rewrite Z2Nat.inj_add, (ring_read_app INPUT_BUF) by done. do 2 f_equal. unfold u32; dlia.
Qed.

(** Taking the first committed byte. *)
Lemma take_ok i :
  input_wf i → r i ≠ w i →
  let i' := Input (buf i) (u32 (r i + 1)) (w i) (e i) in
  input_wf i' ∧ editing (abs i') = editing (abs i) ∧
  committed (abs i) = ring_get INPUT_BUF (buf i) (r i) :: committed (abs i').
Proof.
  intros [Hb Hr Hw He Hl] Hne. simpl. unfold INPUT_BUF in *.
  assert (Hd : u32 (w i - u32 (r i + 1)) = u32 (w i - r i) - 1) by (unfold u32 in *; dlia).
  assert (Hp : 0 < u32 (w i - r i)) by (unfold u32; dlia).
  split; [constructor; simpl; unfold INPUT_BUF; rewrite ?Hd; try lia; unfold u32; dlia|].
  split; [done|]. rewrite Hd.
  replace (Z.to_nat (u32 (w i - r i))) with (S (Z.to_nat (u32 (w i - r i) - 1))) by lia.
  by rewrite (ring_read_cons 128).
Qed.

Lemma nothing_committed i : input_wf i → r i = w i → committed (abs i) = [].
Proof.
  intros _ E. simpl. rewrite E. unfold u32. by rewrite Z.sub_diag.
Qed.

(** What a slice of [consoleread] with [n] of [target] bytes to go does. *)
Definition read_slice (killed : bool) (target n : nat) (dst : list Z) (s : console)
    (res : cslice) (s' : console) : Prop :=
  s' = set_input (input s') s ∧ input_wf (input s') ∧
  editing (abs (input s')) = editing (abs (input s)) ∧
  let q := committed (abs (input s)) in
  match ldisc_take (n =? target)%nat n q with
  | Some (bs, q') =>
      res = CDone (Z.of_nat target - Z.of_nat n + Z.of_nat (length bs)) (dst ++ bs) ∧
      committed (abs (input s')) = q'
  | None =>
      committed (abs (input s')) = [] ∧
      res = if killed then CDone (-1) (dst ++ q) else CSleep (n - length q) (dst ++ q)
  end.

Lemma consoleread_loop_ok killed target n dst s :
  input_wf (input s) → (n ≤ target)%nat →
  returns (consoleread_loop killed target n dst s) (read_slice killed target n dst s).
Proof.
  revert dst s. induction n as [|n IH]; intros dst s Hi Hn.
  { split_and!; try done; simpl; [by destruct s|]. rewrite app_nil_r. split; [f_equal; lia|done]. }
  cbn [consoleread_loop]. destruct (r (input s) =? w (input s)) eqn:E; zbool.
  { pose proof (nothing_committed _ Hi E) as Hq. unfold read_slice. rewrite Hq, (app_nil_r dst).
    destruct killed; split_and!; try done; by destruct s. }
  destruct (take_ok _ Hi E) as (Hi' & He & Hq). set (i' := Input _ _ _ _) in *.
  set (b := ring_get _ _ _) in *.
  destruct (b =? ctrl 68) eqn:Ed; [|destruct (b =? NL) eqn:En].
  - unfold read_slice. rewrite Hq. cbn [ldisc_take]. rewrite Ed.
    destruct (S n <? target)%nat eqn:Et.
    + apply Nat.ltb_lt in Et. rewrite (proj2 (Nat.eqb_neq _ _)) by lia.
      split_and!; try done; [by destruct s|]. rewrite app_nil_r. simpl. f_equal. lia.
    + apply Nat.ltb_ge in Et. rewrite (proj2 (Nat.eqb_eq _ _)) by lia.
      split_and!; try done. rewrite app_nil_r. simpl. f_equal. lia.
  - unfold read_slice. rewrite Hq. cbn [ldisc_take]. rewrite Ed, En.
    split_and!; try done. simpl. f_equal. lia.
  - eapply returns_mono; [apply (IH _ (set_input i' s)); [exact Hi'|lia]|].
    intros res s' (Hs & Hw & He' & Hr). unfold read_slice.
    change (input (set_input i' s)) with i' in *. rewrite Hq. cbn [ldisc_take]. rewrite Ed, En.
    rewrite (proj2 (Nat.eqb_neq n target)) in Hr by lia.
    split_and!; [done|done|congruence|].
    cbv zeta in Hr; destruct (ldisc_take false n (committed (abs i'))) as [[bs q']|]; destruct Hr as [Hr1 Hr2].
    + rewrite <- app_assoc in Hr1. split; [|done]. rewrite Hr1. simpl. f_equal. lia.
    + split; [done|]. rewrite <- app_assoc in Hr2. done.
Qed.

End line_discipline.

(** The keyboard side between two interrupts, lines being buffered. *)
Definition kbd_inv (s : console) : Prop :=
  term_ok s ∧ input_wf (input s) ∧ (NL ∉ editing (abs (input s))) ∧ buffering s ≠ 0.

Definition kbd_step (s : console) (l : ldisc) (s' : console) : Prop :=
  kbd_inv s' ∧ abs (input s') = l ∧ locked s' = locked s.

(** After output, the keyboard state is what it was. *)
Lemma kbd_inv_term s s' : kbd_inv s → term_step s s' → kbd_step s (abs (input s)) s'.
Proof.
  intros (_ & Hi & Hn & Hb) (Hs & Ht & _).
  destruct Hs as (Eb & _ & _ & El & Ei & _). unfold kbd_step, kbd_inv.
  rewrite Ei, Eb, El. done.
Qed.

Lemma kbd_step_trans s l s' l' s'' : kbd_step s l s' → kbd_step s' l' s'' → kbd_step s l' s''.
Proof. unfold kbd_step. intuition congruence. Qed.

Lemma erase_inv s :
  kbd_inv s → e (input s) ≠ w (input s) →
  let i := input s in
  let s' := set_input (Input (buf i) (r i) (w i) (u32 (e i - 1))) s in
  kbd_inv s' ∧
  editing (abs i) = editing (abs (input s')) ++ [ring_get INPUT_BUF (buf i) (u32 (e i - 1))].
Proof.
  intros (Ht & Hi & Hn & Hb) Hne. destruct (erase_ok _ Hi Hne) as (Hi' & _ & He & _).
  split; [|exact He]. split_and!; try done. rewrite He in Hn. set_solver.
Qed.

Lemma kill_line_ok n s :
  kbd_inv s → n = Z.to_nat (u32 (e (input s) - w (input s))) →
  returns (kill_line n s) (λ _ s', kbd_step s (Ldisc (committed (abs (input s))) []) s').
Proof.
  revert s. induction n as [|n IH]; intros s H Hn; simpl.
  { split_and!; try done. unfold abs. by rewrite <- Hn. }
  pose proof H as (Ht & Hi & Hnl & Hb).
  assert (Hne : e (input s) ≠ w (input s)).
  { intros Heq. rewrite Heq in Hn. unfold u32 in Hn. revert Hn. rewrite Z.sub_diag. done. }
  destruct (erase_ok _ Hi Hne) as (_ & Ec & Ee & Ed). destruct (erase_inv s H Hne) as [H' _].
  rewrite (proj2 (Z.eqb_neq _ _) Hne). rewrite (proj2 (Z.eqb_neq _ NL)); simpl.
  2: { intros Heq. apply Hnl. rewrite Ee, Heq. set_solver. }
  apply returns_bind. eapply returns_mono; [apply consputc_ok, H'|]. intros [] s' Hs.
  pose proof (kbd_inv_term _ _ H' Hs) as Hk. eapply returns_mono.
  - apply IH; [apply Hk|]. destruct Hs as [(_ & _ & _ & _ & -> & _) _]. simpl in *.
    rewrite Ed. lia.
  - intros [] s''. destruct Hk as (_ & -> & El). simpl in El.
    intros (? & ? & ?). split_and!; try done. congruence.
Qed.

Lemma kbd_commit_ok s c :
  term_ok s → input_wf (input s) → buffering s ≠ 0 →
  (NL ∈ editing (abs (input s)) → c = NL) →
  returns (consoleintr_commit c s) (λ _ s', kbd_step s
    (if (c =? NL) || (c =? ctrl 68) ||
        (Z.of_nat (length (committed (abs (input s)) ++ editing (abs (input s)))) =? 128)
     then Ldisc (committed (abs (input s)) ++ editing (abs (input s))) []
     else abs (input s)) s').
Proof.
  intros Ht Hi Hb Hnl. unfold consoleintr_commit. rewrite (proj2 (Z.eqb_neq _ 0) Hb).
  rewrite length_used by done. simpl orb.
  replace (e (input s) =? u32 (r (input s) + INPUT_BUF)) with (u32 (e (input s) - r (input s)) =? 128).
  2: { pose proof (used_sum _ Hi). destruct Hi. unfold u32, INPUT_BUF in *.
       apply Bool.eq_iff_eq_true. rewrite !Z.eqb_eq. dlia. }
  destruct (commit_ok _ Hi) as [Hi' Ha].
  case_b; simpl; unfold kbd_step, kbd_inv; simpl.
  - split_and!; try done. all: unfold abs in *; simpl in *; injection Ha as Hc He;
      rewrite ?He, ?Hc; try done; apply not_elem_of_nil.
  - split_and!; try done. intros Hin. specialize (Hnl Hin). zbool. congruence.
Qed.

Lemma consoleintr_key_ok c s :
  kbd_inv s → 0 < c < 256 →
  c ≠ ctrl 80 → c ≠ ctrl 85 → c ≠ ctrl 67 → c ≠ ctrl 72 → c ≠ DELETE →
  returns (consoleintr_key c s) (λ _ s', kbd_step s (ldisc_char c (abs (input s))) s').
Proof.
  intros (Ht & Hi & Hnl & Hb) Hc H1 H2 H3 H4 H5.
  unfold consoleintr_key, ldisc_char.
  rewrite (proj2 (Z.eqb_neq c _) H1), (proj2 (Z.eqb_neq c _) H2), (proj2 (Z.eqb_neq c _) H3),
    (proj2 (Z.eqb_neq c _) H4), (proj2 (Z.eqb_neq c _) H5), (proj2 (Z.eqb_neq c 0)) by lia.
  cbn [orb].
  rewrite length_used by done.
  destruct (u32 (e (input s) - r (input s)) <? INPUT_BUF) eqn:E; zbool.
  2: { rewrite (proj2 (Z.leb_le 128 _)) by exact E. by split_and!. }
  rewrite (proj2 (Z.leb_gt 128 _)) by exact E.
  destruct (type_ok _ (u8 (if c =? CR then NL else c)) Hi E) as [Hi' Ha].
  set (c' := if c =? CR then NL else c) in *. set (i' := Input _ _ _ _) in *.
  rewrite (proj2 (Z.eqb_neq (buffering s) 0) Hb). simpl negb.
  apply returns_bind. unfold cwhen.
  assert (Hc' : c' = NL ↔ c = CR ∨ c = NL) by (unfold c'; case_b; naive_solver).
  assert (Hu : u8 c' = c') by (unfold u8; rewrite Z.mod_small; [done|]; unfold c'; case_b; unfold NL; lia).
  apply returns_bind. eapply returns_mono; [apply (consputc_ok c' (set_input i' s)), Ht|].
  intros [] s1 (Hs & Ht1 & _). simpl.
  destruct Hs as (Eb & _ & _ & El & Ei & _). simpl in *.
  eapply returns_mono.
  - apply (kbd_commit_ok (set_in c' s1)); [exact Ht1|simpl; by rewrite Ei|simpl; by rewrite Eb|].
    change (input (set_in c' s1)) with (input s1). rewrite Ei, Ha. simpl. rewrite Hu.
    intros [?|?%list_elem_of_singleton]%elem_of_app; [done|congruence].
  - intros [] s2 Hk. revert Hk.
    change (input (set_in c' s1)) with (input s1). rewrite Ei, Ha, Hu.
    cbn [committed editing].
    replace ((c =? CR) || (c =? NL) || (c =? ctrl 68)) with ((c' =? NL) || (c' =? ctrl 68)).
    2: { unfold c'. destruct (c =? CR) eqn:Ec; [done|]. done. }
    intros (Hk & Hl & Hlk). split_and!; try done. simpl in Hlk. congruence.
Qed.

Lemma consoleintr_char_ok c dump s :
  kbd_inv s → 0 ≤ c < 256 →
  returns (consoleintr_char c dump s) (λ _ s', kbd_step s (ldisc_char c (abs (input s))) s').
Proof.
  intros H Hc. pose proof H as (Ht & Hi & Hnl & Hb). unfold consoleintr_char.
  rewrite (proj2 (Z.eqb_neq (buffering s) 0) Hb). simpl negb. unfold cwhen.
  destruct (c =? ctrl 80) eqn:E1; [unfold ldisc_char; rewrite E1; by split_and!|].
  destruct ((c =? ctrl 85) || (c =? ctrl 67)) eqn:E2.
  { unfold ldisc_char. rewrite E1, E2. apply returns_bind.
    eapply returns_mono; [by apply kill_line_ok|]. by intros [] s'. }
  destruct ((c =? ctrl 72) || (c =? DELETE)) eqn:E3.
  { unfold ldisc_char. rewrite E1, E2, E3.
    destruct (e (input s) =? w (input s)) eqn:Ee; simpl negb; cbv iota; zbool.
    - split_and!; try done. destruct (abs (input s)) as [cm ed] eqn:Ea. simpl.
      pose proof (length_editing (input s)) as Hl. rewrite Ea in Hl. simpl in Hl.
      rewrite Ee in Hl. unfold u32 in Hl. rewrite Z.sub_diag in Hl.
      destruct ed; [done|simpl in Hl; dlia].
    - destruct (erase_inv s H Ee) as [H' He]. destruct (erase_ok _ Hi Ee) as (_ & Ec & _).
      apply returns_bind. eapply returns_mono; [apply consputc_ok, H'|]. intros [] s' Hs.
      destruct (kbd_inv_term _ _ H' Hs) as (? & Ha & ?). split_and!; try done.
      by rewrite Ha, He, <- Ec, take_but_last. }
  destruct (c =? 0) eqn:E4; simpl negb; cbv iota.
  { unfold ldisc_char. rewrite E1, E2, E3, E4. by split_and!. }
  zbool. apply returns_bind. eapply returns_mono; [apply consoleintr_key_ok; try done; lia|].
  by intros [] s'.
Qed.

Lemma consoleintr_loop_ok cs dump s :
  kbd_inv s → Forall (λ c, 0 ≤ c < 256) cs →
  returns (consoleintr_loop cs dump s)
    (λ _ s', kbd_step s (foldl (λ l c, ldisc_char c l) (abs (input s)) cs) s').
Proof.
  intros H Hc. revert dump s H. induction Hc as [|c cs Hc _ IH]; intros dump s H; simpl.
  { by split_and!. }
  apply returns_bind. eapply returns_mono; [by apply consoleintr_char_ok|].
  intros d s' Hk. eapply returns_mono; [apply IH, Hk|]. intros d' s'' Hk'.
  pose proof Hk as (_ & Ea & _). rewrite Ea in Hk'. eapply kbd_step_trans; [exact Hk|exact Hk'].
Qed.

Lemma consoleintr_ok cs s :
  kbd_inv s → locked s = false → Forall (λ c, 0 ≤ c < 256) cs →
  returns (consoleintr cs s) (λ _ s',
    kbd_inv s' ∧ locked s' = false ∧
    abs (input s') = foldl (λ l c, ldisc_char c l) (abs (input s)) cs).
Proof.
  intros H Hl Hcs. unfold consoleintr. apply returns_bind. unfold acquire. rewrite Hl.
  simpl returns. apply returns_bind.
  eapply returns_mono; [apply (consoleintr_loop_ok cs false (set_locked true s)); [exact H|done]|].
  intros dump s' (H' & Ha & Hl'). apply returns_bind. unfold release. rewrite Hl'. simpl returns.
  apply returns_bind. simpl returns. unfold cwhen. by case_match; split_and!.
Qed.

(** ** Lemmas: the screen primitives *)

Lemma u8_u16 v : u8 (u16 v) = u8 v.
Proof. unfold u8, u16. dlia. Qed.

(** An attribute byte does not touch the character. *)
Lemma u8_attr c attr : u8 attr = 0 → u8 (Z.lor (Z.land c 255) attr) = u8 c.
Proof.
  intros Ha. unfold u8 in *. change 256 with (2 ^ 8) in *.
  rewrite <- !Z.land_ones in * by lia. rewrite Z.land_lor_distr_l, Ha, Z.lor_0_r.
  rewrite <- Z.land_assoc. done.
Qed.


(** The drawing operations of the editor. *)
Inductive draw : Type :=
| DScrputc (pos c : Z)
| DPutchar (pos c : Z)
| DSetcursor (pos : Z)
| DCurmove (move mode : Z)
| DDeletech (currentline linecount : Z)
| DPushword (pos line : Z)
| DClrscr.

Definition do_draw (s : console) (d : draw) : console :=
  match d with
  | DScrputc pos c => scrputc pos c s
  | DPutchar pos c => putchar pos c s
  | DSetcursor pos => setcursor pos s
  | DCurmove move mode => curmove move mode s
  | DDeletech currentline linecount => deletech currentline linecount s
  | DPushword pos line => (pushword pos line s).2
  | DClrscr => clrscr s
  end.

Lemma precrt_setcursor pos s : precrt (setcursor pos s) = precrt s.
Proof. unfold setcursor. by case_match. Qed.

Lemma precrt_pushword_loop n i s : precrt (pushword_loop n i s) = precrt s.
Proof. revert i s. induction n as [|n IH]; intros i s; [done|]. simpl. by rewrite IH. Qed.

Lemma precrt_deletech_loop n i s : precrt (deletech_loop n i s) = precrt s.
Proof. revert i s. induction n as [|n IH]; intros i s; [done|]. simpl. by rewrite IH. Qed.

Lemma precrt_curmove move mode s : precrt (curmove move mode s) = precrt s.
Proof. unfold curmove. repeat case_match; auto using precrt_setcursor. Qed.

Lemma precrt_do_draw s d : precrt (do_draw s d) = precrt s.
Proof.
  destruct d; simpl; auto using precrt_setcursor, precrt_curmove, precrt_pushword_loop.
  - unfold scrputc. repeat case_match; simplify_eq; simpl; apply precrt_setcursor.
  - unfold deletech. by rewrite precrt_setcursor, precrt_deletech_loop.
Qed.

Lemma precrt_draws ds s : precrt (foldl do_draw s ds) = precrt s.
Proof.
  revert s. induction ds as [|d ds IH]; intros s; [done|]. simpl. by rewrite IH, precrt_do_draw.
Qed.

(** Printing leaves the saved screen alone, whatever the cursor. *)
Lemma precrt_cgaputc c s s' u : cgaputc c s = Ok u s' → precrt s' = precrt s.
Proof.
  unfold cgaputc, cga_place. repeat case_match; intros ?; simplify_eq; done.
Qed.

Lemma precrt_consputs cs s s' u : consputs cs s = Ok u s' → precrt s' = precrt s.
Proof.
  revert s. induction cs as [|c cs IH]; intros s; [by intros [= _ ->]|].
  cbn [consputs]. unfold mbind, cm_bind. destruct (consputc c s) as [[] s1| |] eqn:E1; try done. intros E2.
  rewrite (IH _ E2). unfold consputc in E1. repeat case_match; try done;
    by apply precrt_cgaputc in E1.
Qed.

Lemma precrt_consolewrite src s s' n : consolewrite src s = Ok n s' → precrt s' = precrt s.
Proof.
  unfold consolewrite, acquire, release, mbind, cm_bind. destruct (locked s); [done|].
  destruct (consputs src (set_locked true s)) as [[] s1| |] eqn:E1; try done.
  apply precrt_consputs in E1. destruct (locked s1); [|done]. by intros [= _ <-].
Qed.

Lemma consputs_no_ub cs s w : consputs cs s ≠ Ub w.
Proof.
  revert s. induction cs as [|c cs IH]; intros s; [done|]. cbn [consputs]. unfold mbind, cm_bind.
  destruct (consputc c s) as [[] s1| |] eqn:E1; [apply IH|done|].
  unfold consputc, cgaputc, cga_place in E1. repeat case_match; simplify_eq.
Qed.

Lemma consolewrite_no_ub src s w : consolewrite src s ≠ Ub w.
Proof.
  unfold consolewrite, acquire, release, mbind, cm_bind. destruct (locked s); [done|].
  destruct (consputs src (set_locked true s)) as [u s1| |] eqn:E1; [by destruct (locked s1)|done|].
  by apply consputs_no_ub in E1.
Qed.

Lemma precrt_cmdline_shift n i s : precrt (cmdline_shift n i s) = precrt s.
Proof. revert i s. induction n as [|n IH]; intros i s; [done|]. simpl. by rewrite IH. Qed.

Lemma precrt_cmdline_backspace s : precrt (cmdline_backspace s) = precrt s.
Proof.
  unfold cmdline_backspace. repeat case_match; rewrite ?precrt_setcursor, ?precrt_cmdline_shift; done.
Qed.

#[export] Instance digits_kernel : Digits digits.
Proof.
  split; intros d Hd;
    (assert (Hin : d ∈ seqZ 0 16) by (apply elem_of_seqZ; lia); revert Hin; clear Hd; revert d;
     apply Forall_forall; vm_compute; repeat constructor; done).
Qed.

(** ** Properties *)

(** C28: While the console buffers lines and its cursor is in the text rows
    ([kbd_inv]), then whatever the keyboard sends, [consoleintr] returns with the lock free and
    the input buffer well formed, and the committed bytes and the line being edited
    are those of the abstract editor fed with the same keys: ^H and DEL erase the
    last byte of the line, ^U and ^C the whole line, newline, return, ^D or a full
    buffer of 128 bytes hand the line to the readers, a key that does not fit is
    dropped. *)
Theorem consoleintr_line_discipline cs s :
  kbd_inv s → locked s = false → Forall (λ c, 0 ≤ c < 256) cs →
  returns (consoleintr cs s) (λ _ s',
    kbd_inv s' ∧ locked s' = false ∧
    abs (input s') = foldl (λ l c, ldisc_char c l) (abs (input s)) cs).
Proof. apply consoleintr_ok. Qed.

(** A console after boot: an empty screen and no input. *)
Definition boot : console :=
  Cons (λ _, 0) 0 0 [] 1 false 1 false (Input (replicate 128 0) 0 0 0) 0 0 (λ _, 0) 0 0.

Lemma boot_kbd_inv : kbd_inv boot.
Proof.
  split_and!; [by vm_compute..| |apply not_elem_of_nil|done]. by split; vm_compute.
Qed.

(** Typing "a", "b", backspace, "c", return hands over "ac\n". *)
Lemma consoleintr_line_discipline_witness :
  returns (consoleintr [97; 98; 8; 99; 13] boot) (λ _ s',
    kbd_inv s' ∧ locked s' = false ∧ abs (input s') = Ldisc [97; 99; 10] []).
Proof.
  apply (consoleintr_line_discipline [97; 98; 8; 99; 13] boot boot_kbd_inv eq_refl).
  repeat constructor; lia.
Defined.

(** [consoleread] for [n] bytes delivers the committed input up to and including
    the first newline, stops at a ^D, which it consumes only when nothing was read
    before it, and leaves the rest committed; when the input runs out first it
    sleeps, or returns -1 for a killed process, with the lock free in each case, and
    the line being edited is not disturbed. *)
Theorem consoleread_takes killed n s :
  input_wf (input s) → locked s = false →
  returns (consoleread killed n n [] s) (λ res s',
    locked s' = false ∧ input_wf (input s') ∧
    editing (abs (input s')) = editing (abs (input s)) ∧
    match ldisc_take true n (committed (abs (input s))) with
    | Some (bs, q) => res = CDone (Z.of_nat (length bs)) bs ∧ committed (abs (input s')) = q
    | None =>
        let q := committed (abs (input s)) in
        committed (abs (input s')) = [] ∧
        res = if killed then CDone (-1) q else CSleep (n - length q) q
    end).
Proof.
  intros Hi Hl. unfold consoleread. apply returns_bind. unfold acquire. rewrite Hl.
  simpl returns. apply returns_bind.
  eapply returns_mono; [by apply (consoleread_loop_ok killed n n [] (set_locked true s))|].
  intros res s' (Hs & Hw & He & Hr). apply returns_bind. unfold release. rewrite Hs. simpl.
  split_and!; [done|done|exact He|]. rewrite Nat.eqb_refl in Hr.
  cbv zeta in Hr. change (input (set_locked true s)) with (input s) in Hr.
  destruct (ldisc_take true n _) as [[bs q]|]; [|exact Hr].
  destruct Hr as [-> Hq]. split; [|done]. f_equal. lia.
Qed.

Definition typed : console :=
  set_input (Input ([97; 10; 98; 10] ++ replicate 124 0) 0 4 4) boot.

(** C39: With the cursor in the text rows ([term_ok]), [consolewrite] returns the
    number of bytes it was given, never panics, and
    leaves the screen showing the last 24 rows of a roll of paper on which the bytes
    were printed in 80 columns: lines wrap at the right edge and the screen scrolls
    by whole rows.  No cell outside the text rows, and nothing of the rest of the
    driver's state, changes. *)
Theorem consolewrite_prints_on_paper src p s :
  term_ok s → locked s = false → shows p s →
  returns (consolewrite src s) (λ n s',
    n = Z.of_nat (length src) ∧ term_step s s' ∧ shows (foldl paper_putc p src) s').
Proof.
  intros Ht Hl Hp. unfold consolewrite. apply returns_bind. unfold acquire. rewrite Hl.
  simpl returns. apply returns_bind.
  eapply returns_mono; [by apply (consputs_shows src p (set_locked true s))|].
  intros [] s' [Hs Hp']. pose proof Hs as ((? & ? & ? & Hl' & ?) & Ht' & Hx).
  apply returns_bind. unfold release. rewrite Hl'. simpl. by split_and!.
Qed.

(** A blank screen shows blank paper; "hi\n" then leaves the cursor at row 1. *)
Lemma consolewrite_prints_on_paper_witness :
  returns (consolewrite [104; 105; 10] boot) (λ n s',
    n = 3 ∧ term_step boot s' ∧
    shows (foldl paper_putc (Paper (λ _, 0) 0 0) [104; 105; 10]) s') ∧
  at_ (foldl paper_putc (Paper (λ _, 0) 0 0) [104; 105; 10]) = 80.
Proof.
  split; [|done]. apply (consolewrite_prints_on_paper [104; 105; 10] (Paper (λ _, 0) 0 0) boot);
    [by split_and!|done|by split_and!].
Defined.

(** The screen saved by [savescr] comes back with [restorescr] after any
    sequence of the editor's drawing operations, cell by cell in the 24 text rows;
    outside them [restorescr] leaves what was drawn. *)
Theorem screen_restored ds s :
  let drawn := foldl do_draw (savescr s) ds in
  ∀ x, crt (restorescr drawn) x =
       if (0 <=? x) && (x <? MAX_CHAR) then crt s x else crt drawn x.
Proof.
  intros drawn x. unfold restorescr. simpl. unfold drawn. rewrite precrt_draws. simpl.
  by case_match.
Qed.

(** The digits [printint] sends to the console read back to the [int] printed,
    the least negative one included, and to its unsigned value when no sign is asked
    for; in the bases the kernel uses they fit the 16 bytes of [buf]. *)
Theorem printint_reads_back xx base sign :
  10 ≤ base ≤ 16 → - 2 ^ 31 ≤ xx < 2 ^ 31 →
  read_int base (printint_chars digits xx base sign) = (if sign =? 0 then u32 xx else xx) ∧
  (length (printint_chars digits xx base sign) ≤ 16)%nat ∧
  ∀ s, printint xx base sign s = consputs (printint_chars digits xx base sign) s.
Proof.
  intros Hb Hx. split_and!; [|by apply length_printint_chars|done].
  apply (printint_chars_value digits); [lia|done].
Qed.

Lemma printint_reads_back_witness :
  read_int 10 (printint_chars digits (- 2 ^ 31) 10 1) = - 2 ^ 31 ∧
  (length (printint_chars digits (- 2 ^ 31) 10 1) ≤ 16)%nat ∧
  ∀ s, printint (- 2 ^ 31) 10 1 s = consputs (printint_chars digits (- 2 ^ 31) 10 1) s.
Proof. apply (printint_reads_back (- 2 ^ 31) 10 1); lia. Defined.

(** In the text modes [curmove] with the up key does not move the cursor one row
    up: from any row but the first it lands on cell 0 or 1, the value of the
    conjunction passed to [setcursor]. *)
Theorem curmove_up_jumps_home mode s :
  80 ≤ getcursor s → mode ≠ V_CMD →
  getcursor (curmove KEY_UP mode s) ∈ [0; 1].
Proof.
  intros Hc Hm. unfold curmove. simpl (KEY_UP =? _). cbv iota.
  rewrite (proj2 (Z.eqb_neq _ _) Hm), (proj2 (Z.ltb_lt 0 _)) by dlia. simpl negb. cbv iota.
  assert (Hs : ∀ p t, getcursor (setcursor p t) = u16 p).
  { intros p t. unfold setcursor. case_match; apply getcursor_write. }
  rewrite Hs. case_match; [right; left|left].
Qed.

(** [setcursor] accepts any position, and a position beyond cell 2000 makes the
    next character the kernel prints panic. *)
Theorem setcursor_arms_panic pos c s :
  25 * 80 < pos < 65536 → panicked s = false → c ≠ BACKSPACE →
  consputc c (setcursor pos s) = Panic "pos under/overflow".
Proof.
  intros Hpos Hp Hc. unfold consputc.
  assert (Hps : panicked (setcursor pos s) = false) by (unfold setcursor; by case_match).
  assert (Hcur : getcursor (setcursor pos s) = pos).
  { unfold setcursor. case_match; rewrite getcursor_poke, getcursor_write; apply Z.mod_small; lia. }
  rewrite Hps, (proj2 (Z.eqb_neq _ _) Hc). unfold cgaputc.
  change (getcursor (uartputc c (setcursor pos s))) with (getcursor (setcursor pos s)).
  rewrite Hcur, (proj2 (Z.eqb_neq _ _) Hc), Z.rem_mod_nonneg by lia.
  unfold cga_place.
  case_match; (rewrite (proj2 (Z.ltb_lt (25 * 80) _)) by dlia); by rewrite orb_true_r.
Qed.

Lemma setcursor_arms_panic_witness :
  consputc 65 (setcursor 2001 boot) = Panic "pos under/overflow".
Proof. by apply (setcursor_arms_panic 2001 65 boot). Defined.
