(* ===== verification/Kbd.v ===== *)
(** * The keyboard driver

    [src/kbd.c] with the tables of [src/kbd.h].  [port] is the bytes the controller has ready; [kbdgetc] reads one, or answers
    [-1] when there is none.  Bytes typed while the driver runs are part of [port], so an interrupt drains what it finds, and
    further bytes come with the next interrupt.

    Theorems: every table access is in bounds; a line typed on the keyboard reaches the readers of the console, however its
    scan codes are divided among the interrupts. *)
From S2P Require Import Prelude Ring Console.

Definition SHIFT : Z := Z.shiftl 1 0.
Definition CTL : Z := Z.shiftl 1 1.
Definition ALT : Z := Z.shiftl 1 2.
Definition CAPSLOCK : Z := Z.shiftl 1 3.
Definition NUMLOCK : Z := Z.shiftl 1 4.
Definition SCROLLLOCK : Z := Z.shiftl 1 5.
Definition E0ESC : Z := Z.shiftl 1 6.

Definition KEY_HOME : Z := 0xE0.
Definition KEY_END : Z := 0xE1.
Definition KEY_PGUP : Z := 0xE6.
Definition KEY_PGDN : Z := 0xE7.
Definition KEY_INS : Z := 0xE8.
Definition KEY_DEL : Z := 0xE9.
Definition NO : Z := 0.

(** A [uchar] table of 256 entries: the first ones in order, then those given by index. *)
Definition table (l : list Z) (at_index : list (nat * Z)) : list Z :=
  foldl (λ t '(i, v), <[i := u8 v]> t) (u8 <$> l ++ replicate (256 - length l) 0) at_index.

Definition shiftcode : list Z :=
  table [] [(0x1D, CTL); (0x2A, SHIFT); (0x36, SHIFT); (0x38, ALT); (0x9D, CTL); (0xB8, ALT)]%nat.

Definition togglecode : list Z := table [] [(0x3A, CAPSLOCK); (0x45, NUMLOCK); (0x46, SCROLLLOCK)]%nat.

(** The keys of the extended block, the same in all three maps. *)
Definition extended : list (nat * Z) :=
  [(0xC8, KEY_UP); (0xD0, KEY_DN); (0xC9, KEY_PGUP); (0xD1, KEY_PGDN); (0xCB, KEY_LF); (0xCD, KEY_RT);
   (0x97, KEY_HOME); (0xCF, KEY_END); (0xD2, KEY_INS); (0xD3, KEY_DEL)]%nat.

Definition normalmap : list Z := table
  [NO;  0x1B; 49;  50;  51;  52;  53;  54;
   55;  56;  57;  48;  45;  61;  8;   9;
   113; 119; 101; 114; 116; 121; 117; 105;
   111; 112; 91;  93;  10;  NO;  97;  115;
   100; 102; 103; 104; 106; 107; 108; 59;
   39;  96;  NO;  92;  122; 120; 99;  118;
   98;  110; 109; 44;  46;  47;  NO;  42;
   NO;  32;  NO;  NO;  NO;  NO;  NO;  NO;
   NO;  NO;  NO;  NO;  NO;  NO;  NO;  55;
   56;  57;  45;  52;  53;  54;  43;  49;
   50;  51;  48;  46;  NO;  NO;  NO;  NO]
  ((0x9C%nat, 10) :: (0xB5%nat, 47) :: extended).

Definition shiftmap : list Z := table
  [NO;  0x1B; 33;  64;  35;  36;  37;  94;
   38;  42;  40;  41;  95;  43;  8;   9;
   81;  87;  69;  82;  84;  89;  85;  73;
   79;  80;  123; 125; 10;  NO;  65;  83;
   68;  70;  71;  72;  74;  75;  76;  58;
   34;  126; NO;  124; 90;  88;  67;  86;
   66;  78;  77;  60;  62;  63;  NO;  42;
   NO;  32;  NO;  NO;  NO;  NO;  NO;  NO;
   NO;  NO;  NO;  NO;  NO;  NO;  NO;  55;
   56;  57;  45;  52;  53;  54;  43;  49;
   50;  51;  48;  46;  NO;  NO;  NO;  NO]
  ((0x9C%nat, 10) :: (0xB5%nat, 47) :: extended).

Definition ctlmap : list Z := table
  [NO;      NO;      NO;      NO;      NO;      NO;      NO;      NO;
   NO;      NO;      NO;      NO;      NO;      NO;      NO;      NO;
   ctrl 81; ctrl 87; ctrl 69; ctrl 82; ctrl 84; ctrl 89; ctrl 85; ctrl 73;
   ctrl 79; ctrl 80; NO;      NO;      13;      NO;      ctrl 65; ctrl 83;
   ctrl 68; ctrl 70; ctrl 71; ctrl 72; ctrl 74; ctrl 75; ctrl 76; NO;
   NO;      NO;      NO;      ctrl 92; ctrl 90; ctrl 88; ctrl 67; ctrl 86;
   ctrl 66; ctrl 78; ctrl 77; NO;      NO;      ctrl 47; NO;      NO]
  ((0x9C%nat, 13) :: (0xB5%nat, ctrl 47) :: extended).

Definition charcode : list (list Z) := [normalmap; shiftmap; ctlmap; ctlmap].

(** The static [shift], and the controller. *)
Record kbd : Type := Kbd { shift : Z; port : list Z }.

Definition set_shift (v : Z) : cm kbd unit := modify (λ k, Kbd v (port k)).

(** [a[i]]. *)
Definition at_ (a : list Z) (i : Z) : cm kbd Z := λ k,
  match arr_get a i with Some v => Ok v k | None => Ub "table" end.

(** The end of [kbdgetc]: the character of the key [data]. *)
Definition kbd_char (data : Z) : cm kbd Z :=
  sc ← at_ shiftcode data;
  sh ← gets shift;
  set_shift (Z.lor sh sc) ;;
  tc ← at_ togglecode data;
  sh ← gets shift;
  set_shift (Z.lxor sh tc) ;;
  sh ← gets shift;
  match charcode !! Z.to_nat (Z.land sh (Z.lor CTL SHIFT)) with
  | None => ub "charcode"
  | Some m =>
      c ← at_ m data;
      mret (if negb (Z.land sh CAPSLOCK =? 0) then
              if (97 <=? c) && (c <=? 122) then u32 (c + (65 - 97))
              else if (65 <=? c) && (c <=? 90) then u32 (c + (97 - 65)) else c
            else c)
  end.

Definition kbdgetc : cm kbd Z := λ k,
  match port k with
  | [] => Ok (-1) k
  | data :: rest =>
      (sh ← gets shift;
       if data =? 0xE0 then set_shift (Z.lor sh E0ESC) ;; mret 0
       else if negb (Z.land data 0x80 =? 0) then
         let data := if negb (Z.land sh E0ESC =? 0) then data else Z.land data 0x7F in
         sc ← at_ shiftcode data;
         set_shift (Z.land sh (u32 (Z.lnot (Z.lor sc E0ESC)))) ;;
         mret 0
       else if negb (Z.land sh E0ESC =? 0) then
         set_shift (Z.land sh (u32 (Z.lnot E0ESC))) ;; kbd_char (Z.lor data 0x80)
       else kbd_char data) (Kbd (shift k) rest)
  end.

(** What [consoleintr] gets from [kbdgetc] until it answers a negative number; [n] bounds the bytes. *)
Fixpoint kbd_drain (n : nat) : cm kbd (list Z) :=
  c ← kbdgetc;
  if c <? 0 then mret [] else
  match n with O => ub "loop" | S n' => cs ← kbd_drain n'; mret (c :: cs) end.

(** An interrupt that finds the bytes [bs]. *)
Definition kbdintr (bs : list Z) : cm (kbd * console) unit := λ '(k, s),
  match kbd_drain (length (port k ++ bs)) (Kbd (shift k) (port k ++ bs)) with
  | Ok cs k' => match consoleintr cs s with Ok _ s' => Ok tt (k', s') | Panic e => Panic e | Ub e => Ub e end
  | Panic e => Panic e
  | Ub e => Ub e
  end.

(** ** One byte

    What a byte does to [shift], and the code it gives. *)
Definition kstep (sh data : Z) : option (Z * Z) :=
  match kbdgetc (Kbd sh [data]) with Ok c k => Some (shift k, c) | _ => None end.

Lemma kbd_char_port data sh rest rest' :
  match kbd_char data (Kbd sh rest), kbd_char data (Kbd sh rest') with
  | Ok x k, Ok x' k' => x = x' ∧ shift k = shift k' ∧ port k = rest ∧ port k' = rest'
  | Ub e, Ub e' => e = e' | _, _ => False end.
Proof.
  unfold kbd_char, at_, set_shift, mbind, cm_bind, gets, modify, mret, cm_ret, ub.
  destruct (arr_get shiftcode data); [|done]. destruct (arr_get togglecode data); [|done]. cbn [shift port].
  destruct (charcode !! _) as [m|]; [|done]. by destruct (arr_get m data).
Qed.

Lemma kbdgetc_step sh data rest sh' c :
  kstep sh data = Some (sh', c) → kbdgetc (Kbd sh (data :: rest)) = Ok c (Kbd sh' rest).
Proof.
  unfold kstep, kbdgetc. cbn [port shift]. rewrite !bind_gets. cbn [shift].
  destruct (data =? 0xE0); [intros [= <- <-]; reflexivity|].
  destruct (negb (Z.land data 0x80 =? 0)).
  { unfold at_, mbind, cm_bind. destruct (arr_get shiftcode _); [|done]. intros [= <- <-]. reflexivity. }
  destruct (negb (Z.land sh E0ESC =? 0)).
  - unfold set_shift. rewrite !bind_modify. cbn [port shift]. set (sh1 := Z.land sh _). pose proof (kbd_char_port (Z.lor data 128) sh1 [] rest) as HP.
    destruct (kbd_char _ (Kbd sh1 [])) as [x k| |], (kbd_char _ (Kbd sh1 rest)) as [x' k'| |]; try done.
    destruct HP as (-> & E & _ & Ep). intros [= <- <-]. rewrite E. destruct k'. cbn in *. by subst.
  - pose proof (kbd_char_port data sh [] rest) as HP.
    destruct (kbd_char _ (Kbd sh [])) as [x k| |], (kbd_char _ (Kbd sh rest)) as [x' k'| |]; try done.
    destruct HP as (-> & E & _ & Ep). intros [= <- <-]. rewrite E. destruct k'. cbn in *. by subst.
Qed.

(** Every byte, in every state: the tables are read within bounds and the code is a byte. *)
Lemma kstep_total sh data :
  0 ≤ sh < 128 → 0 ≤ data < 256 → ∃ sh' c, kstep sh data = Some (sh', c) ∧ 0 ≤ sh' < 128 ∧ 0 ≤ c < 256.
Proof.
  intros Hsh Hd.
  assert (E : forallb (λ sh, forallb (λ d, match kstep sh d with
      | Some (sh', c) => (0 <=? sh') && (sh' <? 128) && (0 <=? c) && (c <? 256) | None => false end) (seqZ 0 256)) (seqZ 0 128) = true)
    by (vm_compute; reflexivity).
  pose proof (range_forall _ _ (range_forall _ _ E sh Hsh) data Hd) as H. cbn beta in H.
  destruct (kstep sh data) as [[sh' c]|]; [|done]. zbool. exists sh', c. split; [done|]. lia.
Qed.

Fixpoint kcodes (sh : Z) (bs : list Z) : Z * list Z :=
  match bs with
  | [] => (sh, [])
  | d :: bs' =>
      match kstep sh d with
      | None => (sh, [])
      | Some (sh', c) => let r := kcodes sh' bs' in (r.1, c :: r.2)
      end
  end.

Lemma kcodes_ok bs : ∀ sh, 0 ≤ sh < 128 → Forall (λ d, 0 ≤ d < 256) bs →
  kbd_drain (length bs) (Kbd sh bs) = Ok (kcodes sh bs).2 (Kbd (kcodes sh bs).1 []) ∧
  0 ≤ (kcodes sh bs).1 < 128 ∧ Forall (λ c, 0 ≤ c < 256) (kcodes sh bs).2.
Proof.
  induction bs as [|d bs IH]; intros sh Hsh Hb; [split; [reflexivity|]; split; [exact Hsh|constructor]|].
  apply Forall_cons in Hb as [Hd Hb]. destruct (kstep_total sh d Hsh Hd) as (sh' & c & E & Hsh' & Hc).
  destruct (IH sh' Hsh' Hb) as (E' & Hr & Hcs). cbn [kcodes kbd_drain length]. rewrite E. cbn [fst snd].
  rewrite (bind_ok _ _ _ _ _ (kbdgetc_step _ _ _ _ _ E)), (proj2 (Z.ltb_ge c 0)) by lia.
  rewrite (bind_ok _ _ _ _ _ E'). split_and!; [done|lia..|]. by constructor.
Qed.

Lemma kcodes_app sh bs bs' : 0 ≤ sh < 128 → Forall (λ d, 0 ≤ d < 256) bs →
  kcodes sh (bs ++ bs') = ((kcodes (kcodes sh bs).1 bs').1, (kcodes sh bs).2 ++ (kcodes (kcodes sh bs).1 bs').2).
Proof.
  revert sh. induction bs as [|d bs IH]; intros sh Hsh Hb; cbn [kcodes app fst snd]; [by destruct (kcodes sh bs')|].
  apply Forall_cons in Hb as [Hd Hb]. destruct (kstep_total sh d Hsh Hd) as (sh' & c & E & Hsh' & Hc). rewrite E, (IH sh' Hsh' Hb). done.
Qed.

(** ** Typing *)

(** The key of a character in a map: its scan code. *)
Definition key_in (m : list Z) (c : Z) : option Z :=
  match list_find (λ x, x = c) (take 88 m) with Some (i, _) => Some (Z.of_nat i) | None => None end.

(** The scan codes a typist causes: the key pressed and released, between a press and a release of the left shift key when
    it needs one. *)
Definition strokes (c : Z) : list Z :=
  match key_in normalmap c with
  | Some k => [k; k + 0x80]
  | None => match key_in shiftmap c with Some k => [0x2A; k; k + 0x80; 0xAA] | None => [] end
  end.

Definition typable (c : Z) : bool := (c =? 10) || (32 <=? c) && (c <=? 126).

(** No modifier is pressed, caps lock is off. *)
Definition idle (sh : Z) : bool := Z.land sh (Z.lor (Z.lor SHIFT CTL) (Z.lor CAPSLOCK E0ESC)) =? 0.

Lemma strokes_type sh c : 0 ≤ sh < 128 → idle sh = true → typable c = true →
  (kcodes sh (strokes c)).1 = sh ∧ filter (λ x, x ≠ 0) (kcodes sh (strokes c)).2 = [c] ∧ Forall (λ d, 0 ≤ d < 256) (strokes c).
Proof.
  intros Hsh Hi Hc.
  assert (E : forallb (λ sh, forallb (λ c, implb (idle sh && typable c)
      (((kcodes sh (strokes c)).1 =? sh) && bool_decide (filter (λ x, x ≠ 0) (kcodes sh (strokes c)).2 = [c]) &&
       forallb (λ d, (0 <=? d) && (d <? 256)) (strokes c))) (seqZ 0 127)) (seqZ 0 128) = true) by (vm_compute; reflexivity).
  assert (Hr : 0 ≤ c < 127) by (unfold typable in Hc; lia).
  pose proof (range_forall _ _ (range_forall _ _ E sh Hsh) c Hr) as H. cbn beta in H. rewrite Hi, Hc in H. cbn [andb implb] in H.
  apply andb_true_iff in H as [H H3]. apply andb_true_iff in H as [H1 H2]. split; [lia|]. split; [by apply bool_decide_eq_true in H2|].
  apply Forall_forall. intros d Hd. rewrite forallb_forall in H3. specialize (H3 d (proj1 (list_elem_of_In _ _) Hd)). lia.
Qed.

Definition typed (text : list Z) : list Z := mjoin (strokes <$> text).

Lemma typed_codes text sh : 0 ≤ sh < 128 → idle sh = true → Forall (λ c, typable c = true) text →
  (kcodes sh (typed text)).1 = sh ∧ filter (λ x, x ≠ 0) (kcodes sh (typed text)).2 = text ∧ Forall (λ d, 0 ≤ d < 256) (typed text).
Proof.
  intros Hsh Hi. induction 1 as [|c text Hc Ht IH]; [by split_and!|]. change (typed (c :: text)) with (strokes c ++ typed text).
  destruct (strokes_type sh c Hsh Hi Hc) as (E1 & E2 & Hb). destruct IH as (F1 & F2 & Hb').
  rewrite kcodes_app, E1 by done. cbn [fst snd]. rewrite F1, filter_app, E2, F2. split_and!; [done|done|]. by apply Forall_app.
Qed.

(** ** Lines *)

(** The interrupts, one after the other. *)
Fixpoint kbd_interrupts (batches : list (list Z)) : cm (kbd * console) unit :=
  match batches with
  | [] => mret tt
  | bs :: batches' => kbdintr bs ;; kbd_interrupts batches'
  end.

Definition edits (l : ldisc) (cs : list Z) : ldisc := foldl (λ l c, ldisc_char c l) l cs.

Lemma kbdintr_ok bs sh s :
  0 ≤ sh < 128 → Forall (λ d, 0 ≤ d < 256) bs → kbd_inv s → locked s = false →
  returns (kbdintr bs (Kbd sh [], s)) (λ _ '(k', s'),
    k' = Kbd (kcodes sh bs).1 [] ∧ kbd_inv s' ∧ locked s' = false ∧ abs (input s') = edits (abs (input s)) (kcodes sh bs).2).
Proof.
  intros Hsh Hb Hk Hl. unfold kbdintr. cbn [port shift app]. destruct (kcodes_ok bs sh Hsh Hb) as (-> & _ & Hc).
  pose proof (consoleintr_ok _ s Hk Hl Hc) as HR. destruct (consoleintr _ s) as [u s'| |]; [|done..]. by destruct HR as (? & ? & ?).
Qed.

Lemma interrupts_ok batches : ∀ sh s,
  0 ≤ sh < 128 → Forall (λ d, 0 ≤ d < 256) (mjoin batches) → kbd_inv s → locked s = false →
  returns (kbd_interrupts batches (Kbd sh [], s)) (λ _ '(k', s'),
    k' = Kbd (kcodes sh (mjoin batches)).1 [] ∧ kbd_inv s' ∧ locked s' = false ∧
    abs (input s') = edits (abs (input s)) (kcodes sh (mjoin batches)).2).
Proof.
  induction batches as [|bs batches IH]; intros sh s Hsh Hb Hk Hl; [by cbn|]. cbn [mjoin list_join kbd_interrupts] in *.
  apply Forall_app in Hb as [Hb Hb']. rewrite kcodes_app by done. cbn [fst snd]. unfold edits. rewrite foldl_app. apply returns_bind.
  eapply returns_mono; [by apply kbdintr_ok|]. intros _ [k1 s1] (-> & Hk1 & Hl1 & E1). destruct (kcodes_ok bs sh Hsh Hb) as (_ & Hsh1 & _).
  eapply returns_mono; [by apply IH|]. intros _ [k2 s2] (-> & Hk2 & Hl2 & E2). rewrite E1 in E2. by split_and!.
Qed.

(** Code 0 is no key. *)
Lemma edits_zero cs : ∀ l, edits l cs = edits l (filter (λ x, x ≠ 0) cs).
Proof.
  induction cs as [|c cs IH]; intros l; [done|]. rewrite filter_cons. cbn [edits foldl]. case_decide as Hc; cbn [edits foldl]; [apply IH|].
  assert (c = 0) as -> by lia. apply IH.
Qed.

Lemma edits_text text : ∀ q line,
  Forall (λ c, 32 ≤ c ≤ 126) text → Z.of_nat (length q + length line + length text) < 127 →
  edits (Ldisc q line) text = Ldisc q (line ++ text).
Proof.
  induction text as [|c text IH]; intros q line Hc Hl; [by rewrite app_nil_r|]. apply Forall_cons in Hc as [Hc Ht].
  cbn [edits foldl length] in *. assert (ldisc_char c (Ldisc q line) = Ldisc q (line ++ [c])) as ->.
  { unfold ldisc_char, ctrl, DELETE, CR, NL. cbn [committed editing].
    rewrite !(proj2 (Z.eqb_neq c _)) by lia. cbn [orb]. rewrite !length_app in *. cbn [length].
    rewrite (proj2 (Z.leb_gt 128 _)), (proj2 (Z.eqb_neq _ 128)) by lia. unfold u8. by rewrite Z.mod_small by lia. }
  change (foldl _ ?l text) with (edits l text). rewrite IH; [by rewrite <- app_assoc|done|rewrite length_app; cbn; lia].
Qed.

(** C26: a line typed on the keyboard is read from the console.  While the console buffers lines and its cursor is in the text
    rows ([kbd_inv]), with no modifier pressed and caps lock off, the scan codes of
    a printable line and the return key (each key pressed and released, with shift around the characters that need it) hand exactly that
    line to the readers of the console, appended to what they have not read yet, in whatever way the scan codes are divided among
    keyboard interrupts.  No table is read out of bounds, nothing panics, and the modifiers end as they were. *)
Theorem keyboard_line k s batches text q :
  kbd_inv s → locked s = false → abs (input s) = Ldisc q [] →
  port k = [] → 0 ≤ shift k < 128 → idle (shift k) = true →
  Forall (λ c, 32 ≤ c ≤ 126) text → Z.of_nat (length q + length text) < 127 → mjoin batches = typed (text ++ [10]) →
  returns (kbd_interrupts batches (k, s)) (λ _ '(k', s'),
    k' = k ∧ kbd_inv s' ∧ locked s' = false ∧ abs (input s') = Ldisc (q ++ text ++ [10]) []).
Proof.
  intros Hk Hl Ha Hp Hsh Hi Ht Hlen Hb. destruct k as [sh p]. cbn in Hp, Hsh, Hi. subst p.
  assert (Htyp : Forall (λ c, typable c = true) (text ++ [10])).
  { apply Forall_app. split; [eapply Forall_impl; [exact Ht|]; intros c Hc; cbn in Hc; unfold typable; lia|by apply Forall_singleton]. }
  destruct (typed_codes _ _ Hsh Hi Htyp) as (E1 & E2 & Hbytes). rewrite <- Hb in *.
  eapply returns_mono; [by apply interrupts_ok|]. intros _ [k' s'] (-> & Hk' & Hl' & E). split_and!; try done; [by rewrite E1|].
  rewrite E, edits_zero, E2, Ha. unfold edits. rewrite foldl_app. change (foldl _ ?l text) with (edits l text).
  rewrite edits_text by (done || cbn; lia). cbn [foldl app]. unfold ldisc_char. cbn -[app]. rewrite length_app, (proj2 (Z.leb_gt 128 _)) by lia. done.
Qed.

Module KbdExample.
(** "Hi!" and return, in three interrupts. *)
Definition batches : list (list Z) := [[0x2A; 0x23]; [0xA3; 0xAA; 0x17; 0x97; 0x2A; 0x02]; [0x82; 0xAA; 0x1C; 0x9C]].

Lemma keyboard_line_witness :
  mjoin batches = typed ([72; 105; 33] ++ [10]) ∧
  returns (kbd_interrupts batches (Kbd NUMLOCK [], boot)) (λ _ '(k', s'),
    k' = Kbd NUMLOCK [] ∧ kbd_inv s' ∧ locked s' = false ∧ abs (input s') = Ldisc [72; 105; 33; 10] []).
Proof.
  assert (E : mjoin batches = typed ([72; 105; 33] ++ [10])) by (vm_compute; reflexivity). split; [exact E|].
  apply (keyboard_line (Kbd NUMLOCK []) boot batches [72; 105; 33] [] boot_kbd_inv); [reflexivity|reflexivity|reflexivity|vm_compute; split; congruence|reflexivity| |cbn; lia|exact E].
  repeat (apply Forall_cons; split); [lia..|apply Forall_nil_2].
Defined.
End KbdExample.

(** The Home key sends [0xE0 0x47], entry [0xC7] of the maps; the entry for it is [0x97] instead, so the key gives nothing. *)
Lemma home_key_lost : kcodes 0 [0xE0; 0x47] = (0, [0; 0]) ∧ kcodes 0 [0xE0; 0x4F] = (0, [0; KEY_END]).
Proof. vm_compute. done. Qed.
