(* ===== verification/Vim.v ===== *)
(** * The editor

    [src/vim.c] with the types of [src/vim.h].  The document is the list of the
    nodes reached from [ctx->start]; the screen is the console of [Console], which
    the editor drives with system calls; the files are any implementation of the
    interface [Files].

    A [line] is the C structure: reads through [c] that run past its 80 bytes see
    the bytes of [len] behind it, writes past them are undefined.  The heap is
    fresh, so [initctx] finds zeroes; [avail] counts the nodes it can still supply,
    and a null node is dereferenced at once.  [cmdmem] is the storage of the string
    literal [readcmd] writes its result to.  What the keyboard delivers is a list:
    a byte for [read], or an erase key, which the kernel's [consoleintr] handles
    on the command line by itself while the editor waits; when the list ends
    [read] does not return 1.

    Theorems: opening a file and saving it writes back its bytes; what saving does
    to the file in general; text typed in insert mode ends up in the file; leaving
    the editor restores the screen; which keys change the mode; and the flaws. *)
From S2P Require Import Prelude Numeral Console Printf.

Definition MAX_FILE_SIZE : Z := 200000.
Definition ENTER_VIM : Z := 0.
Definition EXIT_VIM : Z := 1.
Definition O_RDONLY : Z := 0x000.
Definition O_WRONLY : Z := 0x001.
Definition O_CREATE : Z := 0x200.
Definition T_FILE : Z := 2.

(** ** Data *)

Record line : Type := Line {
  c : list Z;      (* char c[80] *)
  len : Z;
  lineno : Z;
  para : Z
}.

Definition with_c (cs : list Z) (l : line) : line := Line cs (len l) (lineno l) (para l).
Definition with_len (n : Z) (l : line) : line := Line (c l) n (lineno l) (para l).
Definition with_lineno (n : Z) (l : line) : line := Line (c l) (len l) n (para l).

Inductive key : Type :=
| KByte (b : Z)
| KErase.

(** What the editor needs of the file system calls. *)
Class Files (F : Type) : Type := {
  fopen : list Z → Z → F → Z * F;               (* path, flags: descriptor or -1 *)
  ffstat : Z → F → option (Z * Z);              (* type and size; None: an error *)
  fread : Z → Z → F → list Z * F;               (* the bytes stored *)
  fwrite : Z → list Z → F → Z * F;
  fclose : Z → F → F
}.

(** The contract: on a regular file the calls read and write its bytes in place,
    as long as it stays below [cap] bytes. *)
Class FilesOk (F : Type) `{Files F} : Type := {
  holds : F → list Z → list Z → Prop;           (* path, contents *)
  opened : F → Z → list Z → bool → nat → list Z → Prop;
                                     (* descriptor, path, for writing, offset, contents *)
  cap : nat;
  fopen_ok f path flags bs :
    holds f path bs →
    0 ≤ (fopen path flags f).1 ∧
    opened (fopen path flags f).2 (fopen path flags f).1 path (Z.testbit flags 0) 0 bs;
  ffstat_ok f fd path wr off bs :
    opened f fd path wr off bs → ffstat fd f = Some (T_FILE, Z.of_nat (length bs));
  fread_ok f fd path off bs n :
    opened f fd path false off bs → 0 ≤ n →
    (fread fd n f).1 = take (Z.to_nat n) (drop off bs) ∧
    opened (fread fd n f).2 fd path false (off + length (fread fd n f).1) bs;
  fwrite_ok f fd path off bs d :
    opened f fd path true off bs → (off ≤ length bs)%nat → (off + length d ≤ cap)%nat →
    (fwrite fd d f).1 = Z.of_nat (length d) ∧
    opened (fwrite fd d f).2 fd path true (off + length d)
      (take off bs ++ d ++ drop (off + length d) bs);
  fclose_ok f fd path wr off bs :
    opened f fd path wr off bs → holds (fclose fd f) path bs
}.

Record vim (F : Type) : Type := Vim {
  con : console;
  files : F;
  start : list line;
  lines : Z;
  vimline : Z;
  mode : Z;
  keys : list key;
  cmdmem : list Z;
  avail : nat
}.
Arguments Vim {F}.
Arguments con {F}. Arguments files {F}. Arguments start {F}. Arguments lines {F}.
Arguments vimline {F}. Arguments mode {F}. Arguments keys {F}. Arguments cmdmem {F}.
Arguments avail {F}.

(** ** Nodes *)

Definition le32 (z : Z) : list Z :=
  [u8 z; u8 (Z.shiftr z 8); u8 (Z.shiftr z 16); u8 (Z.shiftr z 24)].

(** The structure from [c] on, as byte reads see it. *)
Definition line_bytes (l : line) : list Z := c l ++ le32 (len l).

Definition line_strlen (l : line) : option Z := cstrlen (line_bytes l).

Definition blank : list Z := replicate 80 EMPTY_CHAR.

(** [while (p->next && p->lineno < t) p = p->next], as an index. *)
Fixpoint seek (t : Z) (l : list line) : nat :=
  match l with
  | [] => 0
  | p :: rest =>
      match rest with
      | [] => 0
      | _ => if lineno p <? t then S (seek t rest) else 0
      end
  end.

(** ** Screen output that touches the console only *)

(** [scrputc(i, 0 | BLACK)] for [n] cells from [i]. *)
Fixpoint scr_blank (n : nat) (i : Z) (s : console) : console :=
  match n with
  | O => s
  | S n' => scr_blank n' (i + 1) (scrputc i (Z.lor (Z.land EMPTY_CHAR 255) BLACK) s)
  end.

Definition clearcli (s : console) : console := scr_blank 80 (MAX_COL * MAX_ROW) s.

Fixpoint scr_string (p : Z) (cs : list Z) (s : console) : console :=
  match cs with
  | [] => s
  | ch :: cs' => scr_string (p + 1) cs' (scrputc p (Z.lor (Z.land ch 255) WHITE) s)
  end.

Definition showline (vimline : Z) (s : console) : console :=
  let precur := getcursor s in
  let s := scr_blank 60 (MAX_COL * MAX_ROW) s in
  let p := MAX_COL * MAX_ROW + 60 in
  let d1 := if 10 <=? vimline then Z.quot vimline 10 else 0 in
  let d2 := if 10 <=? vimline then Z.rem vimline 10 else vimline in
  let s := scr_string p [108; 105; 110; 101; 58; d1 + 48; d2 + 48] s in
  let s := scr_blank 13 (p + 7) s in
  setcursor precur s.

(** One character of [printtext], at [pos]. *)
Definition printtext_char (ps : Z * console) (ch : Z) : Z * console :=
  let '(pos, s) := ps in
  let '(pos, s) :=
    if ch =? NL then
      let pos := pos + 80 - Z.rem (pos + 1) 80 in
      (pos, scrputc pos NL s)
    else (pos, s) in
  (pos + 1, scrputc pos ch s).

Definition cmdfilter (c : Z) : bool :=
  ((97 <=? c) && (c <=? 122)) || ((65 <=? c) && (c <=? 90)) || ((48 <=? c) && (c <=? 57)) ||
  bool_decide (c ∈ [35; 46; 47; 92; 43; 45; 42; 95; 33; 64; 36; 37; 94; 38; 58; 32]).

Definition inputfilter (c : Z) : bool :=
  ((97 <=? c) && (c <=? 122)) || ((65 <=? c) && (c <=? 90)) || ((48 <=? c) && (c <=? 57)) ||
  bool_decide (c ∈ [35; 46; 47; 92; 43; 45; 42; 95; 33; 64; 37; 94; 38; 58; 10; 32; 36]).

(** ** The editor *)

Section editor.
Context {F : Type} `{Files F}.
Implicit Types s : vim F.

Definition set_con (x : console) s : vim F :=
  Vim x (files s) (start s) (lines s) (vimline s) (mode s) (keys s) (cmdmem s) (avail s).
Definition set_files (x : F) s : vim F :=
  Vim (con s) x (start s) (lines s) (vimline s) (mode s) (keys s) (cmdmem s) (avail s).
Definition set_start (x : list line) s : vim F :=
  Vim (con s) (files s) x (lines s) (vimline s) (mode s) (keys s) (cmdmem s) (avail s).
Definition set_lines (x : Z) s : vim F :=
  Vim (con s) (files s) (start s) x (vimline s) (mode s) (keys s) (cmdmem s) (avail s).
Definition setvimline (x : Z) s : vim F :=
  Vim (con s) (files s) (start s) (lines s) x (mode s) (keys s) (cmdmem s) (avail s).
Definition set_mode (x : Z) s : vim F :=
  Vim (con s) (files s) (start s) (lines s) (vimline s) x (keys s) (cmdmem s) (avail s).
Definition set_keys (x : list key) s : vim F :=
  Vim (con s) (files s) (start s) (lines s) (vimline s) (mode s) x (cmdmem s) (avail s).
Definition set_cmdmem (x : list Z) s : vim F :=
  Vim (con s) (files s) (start s) (lines s) (vimline s) (mode s) (keys s) x (avail s).
Definition set_avail (x : nat) s : vim F :=
  Vim (con s) (files s) (start s) (lines s) (vimline s) (mode s) (keys s) (cmdmem s) x.

Definition upvimline s : vim F := setvimline (vimline s + 1) s.
Definition downvimline s : vim F := setvimline (vimline s - 1) s.
Definition draw_on (f : console → console) s : vim F := set_con (f (con s)) s.

(** A console call that can panic. *)
Definition on_con {A} (m : cm console A) : cm (vim F) A := λ s,
  match m (con s) with
  | Ok a x => Ok a (set_con x s)
  | Panic msg => Panic msg
  | Ub what => Ub what
  end.

(** Descriptors 1 and 2 are the console: [printf] writes byte by byte. *)
Fixpoint put_chars (cs : list Z) : cm (vim F) unit :=
  match cs with
  | [] => mret tt
  | ch :: cs' => on_con (consolewrite [ch]) ;; put_chars cs'
  end.

Definition print (fmt : list Z) (args : list carg) : cm (vim F) unit :=
  match printf fmt args with
  | Some cs => put_chars cs
  | None => ub "printf: argument"
  end.

(** [malloc(sizeof(struct line))]; the caller writes through the result at once. *)
Definition malloc_line : cm (vim F) unit := λ s,
  match avail s with
  | O => Ub "null line"
  | S n => Ok tt (set_avail n s)
  end.

Definition strlen_of (l : line) : cm (vim F) Z :=
  match line_strlen l with
  | Some n => mret n
  | None => ub "strlen past the node"
  end.

(** [l->c[i] = b]. *)
Definition store_c (i b : Z) (l : line) : cm (vim F) line :=
  match arr_set (c l) i (u8 b) with
  | Some cs => mret (with_c cs l)
  | None => ub "write past c[80]"
  end.

(** [read(0, &c, 1) == 1]: the byte read, if any. *)
Fixpoint next_key (ks : list key) (s : console) : option Z * list key * console :=
  match ks with
  | [] => (None, [], s)
  | KByte b :: ks' => (Some b, ks', s)
  | KErase :: ks' => next_key ks' (cmdline_backspace s)
  end.

Definition read_key : cm (vim F) (option Z) := λ s,
  let '(b, ks, x) := next_key (keys s) (con s) in Ok b (set_keys ks (set_con x s)).

Definition initctx s : vim F := set_lines 0 (set_start [] s).

(** *** Opening a file *)

Definition fresh_line : line := Line blank 0 1 1.

(** The loop over the bytes: [prev] are the nodes before [p], [rest] those
    behind it, which a new node cuts off. *)
Fixpoint readfile_loop (buf : list Z) (i : Z) (prev : list line) (p : line) (rest : list line)
    : cm (vim F) unit :=
  match buf with
  | [] => modify (set_start (prev ++ p :: rest))
  | b :: buf' =>
      if b =? NL then
        n ← strlen_of p;
        malloc_line ;;
        (let p' := with_lineno (Z.quot i 80 + 1) (with_len n p) in
         nl ← store_c 0 NL (Line blank 0 (lineno p' + 1) (para p + 1));
         modify (λ s, set_lines (lines s + 1) s) ;;
         readfile_loop buf' (i + 1) (prev ++ [p']) (with_len 1 nl) [])
      else
        p' ← store_c (len p) b p;
        n ← strlen_of (with_len (len p + 1) p');
        readfile_loop buf' (i + 1) prev (with_len n p') rest
  end.

(** [ctx->start], with a fresh node when there is none. *)
Definition ensure_start : cm (vim F) unit := λ s,
  match start s with
  | [] => (malloc_line ;; modify (λ s, set_lines 1 (set_start [fresh_line] s))) s
  | _ => Ok tt s
  end.

Definition readfile_text (buf : list Z) : cm (vim F) unit :=
  ensure_start ;;
  l ← gets start;
  match l with
  | p :: rest => readfile_loop buf 0 [] p rest
  | [] => ub "null start"
  end.

Definition s_cannot_open : list Z :=        (* "Can not open %s\n" *)
  [67; 97; 110; 32; 110; 111; 116; 32; 111; 112; 101; 110; 32; 37; 115; 10].
Definition s_not_stat : list Z :=           (* "Can not get file stat %s\n" *)
  [67; 97; 110; 32; 110; 111; 116; 32; 103; 101; 116; 32; 102; 105; 108; 101; 32; 115; 116; 97;
   116; 32; 37; 115; 10].
Definition s_not_file : list Z :=           (* "What you open is not a FILE!" *)
  [87; 104; 97; 116; 32; 121; 111; 117; 32; 111; 112; 101; 110; 32; 105; 115; 32; 110; 111; 116;
   32; 97; 32; 70; 73; 76; 69; 33].
Definition s_too_big : list Z :=            (* "File too big, over %d" *)
  [70; 105; 108; 101; 32; 116; 111; 111; 32; 98; 105; 103; 44; 32; 111; 118; 101; 114; 32; 37; 100].
Definition s_cannot_write : list Z :=       (* "Can not write\n" *)
  [67; 97; 110; 32; 110; 111; 116; 32; 119; 114; 105; 116; 101; 10].
Definition s_not_stat_w : list Z :=         (* "Can not get file stat \n" *)
  [67; 97; 110; 32; 110; 111; 116; 32; 103; 101; 116; 32; 102; 105; 108; 101; 32; 115; 116; 97;
   116; 32; 10].

Definition s_ctx_null : list Z :=           (* "ctx is null" *)
  [99; 116; 120; 32; 105; 115; 32; 110; 117; 108; 108].

(** [stack_room]: how much of the user stack [char buf[f_size]] can take. *)
Definition readfile (stack_room : Z) (path : option (list Z)) : cm (vim F) Z :=
  match path with
  | None => print s_cannot_open [CStr None] ;; mret (-1)
  | Some name => λ s,
      let '(fd, f) := fopen name (Z.lor O_RDONLY O_CREATE) (files s) in
      let s := set_files f s in
      let close := modify (λ s, set_files (fclose fd (files s)) s) in
      if fd <? 0 then (print s_cannot_open [CStr path] ;; mret (-1)) s else
      match ffstat fd f with
      | None => (print s_not_stat [CStr path] ;; close ;; mret (-1)) s
      | Some (ty, size) =>
          if negb (ty =? T_FILE) then (print s_not_file [] ;; close ;; mret (-1)) s else
          let f_size := i32 size in
          if MAX_FILE_SIZE <? f_size then
            (print s_too_big [CInt MAX_FILE_SIZE] ;; close ;; mret (-1)) s
          else
            ((if 0 <? f_size then
                if stack_room <? f_size then ub "stack overflow" else
                (λ s,
                   let '(buf, f) := fread fd f_size (files s) in
                   let s := set_files f s in
                   if Z.of_nat (length buf) =? f_size then readfile_text buf s
                   else Ub "buf not filled")
              else ensure_start) ;;
             print [37; 100; 10] [CInt f_size] ;;
             close ;;
             mret 0) s
      end
  end.

(** *** Saving *)

Fixpoint writefile_loop (fd : Z) (l : list line) : cm (vim F) unit :=
  match l with
  | [] => mret tt
  | p :: l' =>
      n ← strlen_of p;
      modify (λ s, set_files (fwrite fd (take (Z.to_nat n) (line_bytes p)) (files s)).2 s) ;;
      writefile_loop fd l'
  end.

Definition writefile (path : option (list Z)) : cm (vim F) Z :=
  match path with
  | None => print s_cannot_write [] ;; mret (-1)
  | Some name => λ s,
      let '(fd, f) := fopen name (Z.lor O_WRONLY O_CREATE) (files s) in
      let s := set_files f s in
      let close := modify (λ s, set_files (fclose fd (files s)) s) in
      if fd <? 0 then (print s_cannot_write [] ;; mret (-1)) s else
      match ffstat fd f with
      | None => (print s_not_stat_w [] ;; close ;; mret (-1)) s
      | Some (ty, _) =>
          if negb (ty =? T_FILE) then (print s_not_file [] ;; close ;; mret (-1)) s
          else (writefile_loop fd (start s) ;; close ;; mret 0) s
      end
  end.

(** *** Moving about *)

(** The node [seek] selects; [p->next] of a null [ctx->start] is undefined. *)
Definition selected (t : Z) : cm (vim F) (nat * line) := λ s,
  let i := seek t (start s) in
  match start s !! i with
  | Some p => Ok (i, p) s
  | None => Ub "null start"
  end.

Definition update (i : nat) (p : line) : cm (vim F) unit :=
  modify (λ s, set_start (<[i := p]> (start s)) s).

Definition getchar (pos : Z) : cm (vim F) Z :=
  t ← gets vimline;
  '(_, p) ← selected t;
  match arr_get (c p) (Z.rem pos 80) with
  | Some b => mret b
  | None => ub "read before c"
  end.

Definition move_to (pos : Z) : cm (vim F) unit := modify (draw_on (setcursor pos)).

Definition cursormove (move : Z) : cm (vim F) unit :=
  pos ← gets (λ s, getcursor (con s));
  md ← gets mode;
  if move =? KEY_LF then
    if md =? V_CMD then cwhen (CMD_LINE <? pos) (move_to (pos - 1))
    else
      if 0 <? pos then
        ch ← getchar (pos - 1);
        cwhen (negb (ch =? EMPTY_CHAR)) (move_to (pos - 1))
      else mret tt
  else if move =? KEY_RT then
    if md =? V_CMD then
      cell ← gets (λ s, getcch (pos + 1) (con s));
      cwhen ((pos <? MAX_CHAR + CMD_BUF_SZ) && negb (cell =? EMPTY_CHAR)) (move_to (pos + 1))
    else
      if pos <? MAX_CHAR then
        ch ← getchar (pos + 1);
        cwhen (negb (ch =? EMPTY_CHAR)) (move_to (pos + 1))
      else mret tt
  else if move =? KEY_DN then
    if negb (md =? V_CMD) then
      n ← gets lines;
      let crow := Z.quot pos 80 + 1 in
      if (crow <=? MAX_ROW) && (crow <? n) then
        ch ← getchar (pos + MAX_COL);
        cwhen (negb (ch =? EMPTY_CHAR))
          (move_to (if MAX_CHAR <=? pos + MAX_COL then MAX_CHAR - 1 else pos + MAX_COL) ;;
           modify upvimline)
      else mret tt
    else mret tt
  else if move =? KEY_UP then
    if negb (md =? V_CMD) then
      let crow := Z.quot pos 80 + 1 in
      if 0 <? crow then
        ch ← getchar (pos - MAX_COL);
        cwhen (negb (ch =? EMPTY_CHAR))
          (move_to (if pos - MAX_COL <? 0 then 0 else pos - MAX_COL) ;; modify downvimline)
      else mret tt
    else mret tt
  else mret tt.

(** The characters [printtext] prints of a list of nodes. *)
Fixpoint printed (l : list line) : cm (vim F) (list Z) :=
  match l with
  | [] => mret []
  | p :: l' =>
      n ← strlen_of p;
      cs ← printed l';
      mret (take (Z.to_nat n) (line_bytes p) ++ cs)
  end.

Definition printtext (t : Z) : cm (vim F) unit :=
  '(i, _) ← selected t;
  l ← gets start;
  cs ← printed (drop i l);
  modify (draw_on (λ x, setcursor 0 (foldl printtext_char (0, x) cs).2)).

(** The user library's [memmove] of [80 - col] bytes from [c + col + 1], which is
    one byte more than [c] has. *)
Definition rmch : cm (vim F) unit :=
  pos ← gets (λ s, getcursor (con s));
  t ← gets vimline;
  '(i, p) ← selected t;
  n ← strlen_of p;
  let col := Z.to_nat (Z.rem pos MAX_COL) in
  cwhen (n <? MAX_COL)
    (update i (with_c (take col (c p) ++ take (80 - col) (drop (S col) (line_bytes p))) p)) ;;
  printtext 1 ;;
  move_to pos.

(** *** The command line *)

(** Result: the length of the command, or that [readcmd] returned null.  [len] is
    [None] until it is first assigned. *)
Inductive cmdline : Type :=
| CmdLen (n : Z)
| CmdNull.

Fixpoint readcmd_loop (fuel : nat) (precur : Z) (len : option Z) : cm (vim F) cmdline :=
  match fuel with
  | O => ub "fuel"
  | S fuel' =>
      b ← read_key;
      match b with
      | None => match len with Some n => mret (CmdLen n) | None => ub "len not initialised" end
      | Some b =>
          if b =? NL then
            match len with Some n => mret (CmdLen n) | None => ub "len not initialised" end
          else
            pos ← gets (λ s, getcursor (con s));
            let n := Z.rem (pos - MAX_CHAR) MAX_COL in
            if CMD_BUF_SZ <? n then
              print [108; 101; 110; 61; 37; 100] [CInt n] ;; mret CmdNull
            else if cmdfilter b then
              modify (draw_on (scrputc pos b)) ;; readcmd_loop fuel' precur (Some n)
            else
              cwhen ((b =? KEY_LF) || (b =? KEY_RT)) (cursormove b) ;;
              if b =? KEY_ESC then
                modify (set_mode V_READONLY) ;;
                modify (draw_on (λ x, setcursor precur (clearcli x))) ;;
                mret CmdNull
              else readcmd_loop fuel' precur (Some n)
      end
  end.

(** [cmd[i] = getcch(MAX_CHAR + i + 1)] for [i < len]; the result points to the
    bytes of the literal. *)
Definition cmd_bytes (n : Z) (x : console) : list Z :=
  (λ i, u8 (getcch (MAX_CHAR + Z.of_nat i + 1) x)) <$> seq 0 (Z.to_nat n).

Definition readcmd : cm (vim F) (option (list Z)) :=
  precur ← gets (λ s, getcursor (con s));
  modify (draw_on (λ x, scrputc CMD_LINE 58 (clearcli x))) ;;
  ks ← gets keys;
  r ← readcmd_loop (S (length ks)) precur None;
  match r with
  | CmdNull => mret None
  | CmdLen n =>
      modify (λ s, set_cmdmem (cmd_bytes n (con s) ++ drop (Z.to_nat n) (cmdmem s)) s) ;;
      m ← gets cmdmem;
      mret (Some m)
  end.

(** *** Typing *)

Definition last_line : cm (vim F) (nat * line) := λ s,
  match last (start s) with
  | Some p => Ok ((length (start s) - 1)%nat, p) s
  | None => Ub "null start"
  end.

Definition append (l : line) : cm (vim F) unit :=
  modify (λ s, set_lines (lines s + 1) (set_start (start s ++ [l]) s)).

Definition set_console_line : cm (vim F) unit :=
  modify (λ s, draw_on (setline (vimline s)) s).

Definition newline_key : cm (vim F) unit :=
  modify upvimline ;;
  set_console_line ;;
  malloc_line ;;
  '(i, p) ← last_line;
  (if len p <? 80 then
     n ← strlen_of p;
     p' ← store_c n NL p;
     update i p'
   else mret tt) ;;
  append (Line blank 0 (lineno p + 1) (para p + 1)) ;;
  modify (draw_on (λ x, scrputc (getcursor x) NL x)).

Definition insert_key (ch : Z) : cm (vim F) unit :=
  md ← gets mode;
  if md =? V_INSERT then
    if negb (inputfilter ch) then mret tt else
    cp ← gets (λ s, getcursor (con s));
    modify (draw_on (λ x, scrputc cp ch (setcursor cp x))) ;;
    l ← gets start;
    match l with
    | [] => ensure_start
    | _ =>
        t ← gets vimline;
        '(i, p) ← selected t;
        let col := Z.rem cp 80 in
        if (col =? 0) && negb (cp =? 0) && (len p =? 80) then
          modify upvimline ;;
          set_console_line ;;
          malloc_line ;;
          '(_, np) ← last_line;
          nl ← store_c col ch (Line blank 0 (lineno np + 1) (para np));
          n ← strlen_of nl;
          append (with_len n nl)
        else
          p' ← store_c col ch p;
          n ← strlen_of p';
          update i (with_len n p')
    end
  else mret tt.

(** *** The main loop *)

Inductive leave : Type := Quit | SaveAndExit.

Definition colon_key (ch : Z) : cm (vim F) (option leave) :=
  md ← gets mode;
  if md =? V_READONLY then
    modify (set_mode V_CMD) ;;
    cmd ← readcmd;
    match cmd with
    | None => mret None
    | Some cmd =>
        let b i := default 0 (cmd !! i) in
        if b 0%nat =? 113 then mret (Some Quit)
        else if (b 0%nat =? 119) && (b 1%nat =? 113) then mret (Some SaveAndExit)
        else move_to CMD_LINE ;; mret None
    end
  else
    cwhen (md =? V_INSERT) (insert_key ch) ;; mret None.

(** A key of the switch that acts in [V_READONLY] and is typed otherwise. *)
Definition key_or_default (want : Z) (m : cm (vim F) unit) (ch : Z) : cm (vim F) unit :=
  md ← gets mode;
  if md =? want then m else insert_key ch.

Definition other_key (ch : Z) : cm (vim F) unit :=
  if (ch =? KEY_UP) || (ch =? KEY_DN) || (ch =? KEY_LF) || (ch =? KEY_RT) then cursormove ch
  else if ch =? 107 then key_or_default V_INSERT (cursormove KEY_UP) ch       (* 'k' *)
  else if ch =? 106 then key_or_default V_READONLY (cursormove KEY_DN) ch     (* 'j' *)
  else if ch =? 104 then key_or_default V_READONLY (cursormove KEY_LF) ch     (* 'h' *)
  else if ch =? 108 then key_or_default V_READONLY (cursormove KEY_RT) ch     (* 'l' *)
  else if ch =? 71 then                                                       (* 'G' *)
    md ← gets mode;
    n ← gets lines;
    cwhen (md =? V_READONLY) (move_to (n * MAX_COL))
  else if ch =? 103 then                                                      (* 'g' *)
    md ← gets mode;
    cwhen (md =? V_READONLY) (move_to 0)
  else if ch =? KEY_ESC then
    md ← gets mode;
    if md =? V_INSERT then modify (set_mode V_READONLY) ;; cursormove KEY_LF
    else cwhen (md =? V_CMD) (modify (set_mode V_READONLY))
  else if ch =? 105 then                                                      (* 'i' *)
    md ← gets mode;
    if md =? V_READONLY then modify (set_mode V_INSERT)
    else cwhen (md =? V_INSERT) (insert_key ch)
  else if ch =? 120 then                                                      (* 'x' *)
    md ← gets mode;
    if md =? V_READONLY then rmch
    else cwhen (md =? V_INSERT) (insert_key ch)
  else if ch =? NL then newline_key
  else insert_key ch.

Definition handle (ch : Z) : cm (vim F) (option leave) :=
  if ch =? 58 then colon_key ch else other_key ch ;; mret None.

(** [read] stores one byte into the [int c]: its other bytes keep [hi]. *)
Fixpoint main_loop (fuel : nat) (hi : Z) : cm (vim F) leave :=
  match fuel with
  | O => ub "fuel"
  | S fuel' =>
      b ← read_key;
      match b with
      | None => mret SaveAndExit
      | Some b =>
          t ← gets vimline;
          modify (draw_on (showline t)) ;;
          r ← handle (hi + b);
          match r with
          | Some l => mret l
          | None => main_loop fuel' hi
          end
      end
  end.

Definition editor_exit (precursor : Z) (x : console) : console :=
  setcursor precursor (restorescr (clearcli (setconsbuf EXIT_VIM x))).

(** [main] from the saving of the screen on. *)
Definition edit (hi : Z) (filename : option (list Z)) : cm (vim F) unit :=
  modify (draw_on savescr) ;;
  precursor ← gets (λ s, getcursor (con s));
  modify (draw_on (λ x, setline 1 (setcursor 0 (clrscr x)))) ;;
  printtext 1 ;;
  modify (draw_on (setconsbuf ENTER_VIM)) ;;
  ks ← gets keys;
  how ← main_loop (S (length ks)) hi;
  match how with
  | SaveAndExit => writefile filename ;; modify (draw_on (editor_exit precursor))
  | Quit => modify (draw_on (editor_exit precursor))
  end.

(** [main] after the usage test, with [argv[1]]. *)
Definition main (stack_room hi : Z) (filename : option (list Z)) : cm (vim F) unit :=
  modify initctx ;;
  r ← readfile stack_room filename;
  if negb (r =? 0) then mret tt else
  l ← gets start;
  match l with
  | [] => print s_ctx_null []
  | _ => edit hi filename
  end.

End editor.

(** ** Lemmas: nodes *)

(** The string a node holds. *)
Definition str (p : line) : list Z := cstr (line_bytes p).
Definition text (l : list line) : list Z := concat (str <$> l).

Definition plain (b : Z) : Prop := 0 < b < 256.

Definition pad (s : list Z) : list Z := s ++ replicate (80 - length s) 0.

Lemma length_pad s : (length s ≤ 80)%nat → length (pad s) = 80%nat.
Proof. intros. unfold pad. rewrite length_app, length_replicate. lia. Qed.

Lemma pad_nil : pad [] = blank.
Proof. done. Qed.

Lemma pad_short s : (length s < 80)%nat → pad s = s ++ 0 :: replicate (79 - length s) 0.
Proof.
  intros. unfold pad. by replace (80 - length s)%nat with (S (79 - length s)) by lia.
Qed.

Lemma plain_nonzero s : Forall plain s → Forall (λ b, b ≠ 0) s.
Proof. intros Hs. eapply Forall_impl; [exact Hs|]. unfold plain. simpl. lia. Qed.

Lemma strlen_pad s n no pa :
  (length s < 80)%nat → Forall plain s → line_strlen (Line (pad s) n no pa) = Some (Z.of_nat (length s)).
Proof.
  intros Hl Hs. unfold line_strlen, line_bytes. cbn [c]. rewrite pad_short, <- app_assoc by done.
  by apply cstrlen_app, plain_nonzero.
Qed.

Lemma str_pad s n no pa :
  (length s < 80)%nat → Forall plain s → str (Line (pad s) n no pa) = s.
Proof.
  intros Hl Hs. unfold str, line_bytes. cbn [c]. rewrite pad_short, <- app_assoc by done.
  by apply cstr_app, plain_nonzero.
Qed.

Lemma take_strlen l n : cstrlen l = Some n → take (Z.to_nat n) l = cstr l.
Proof.
  revert n. induction l as [|b l IH]; intros n; simpl; [done|].
  case_b; [by intros [= <-]|]. destruct (cstrlen l) as [m|] eqn:Em; [|done]. intros [= <-].
  apply cstrlen_bound in Em as Hm. rewrite Z2Nat.inj_succ by lia. simpl. by rewrite (IH m).
Qed.

Lemma store_pad s b :
  (length s < 80)%nat → 0 ≤ b < 256 → arr_set (pad s) (Z.of_nat (length s)) (u8 b) = Some (pad (s ++ [b])).
Proof.
  intros Hl Hb. assert (u8 b = b) as -> by (unfold u8; apply Z.mod_small; lia).
  unfold arr_set. rewrite length_pad by lia. case_b; [|zbool; lia..].
  rewrite Nat2Z.id. f_equal. rewrite pad_short by done. rewrite insert_app_r_alt by lia.
  rewrite Nat.sub_diag. simpl. unfold pad. rewrite length_app. simpl.
  replace (80 - (length s + 1))%nat with (79 - length s)%nat by lia.
  by rewrite <- app_assoc.
Qed.

(** ** Lemmas: opening a file *)

(** Each line of the file leaves room for a NUL in its node, the later ones also for
    the newline the node starts with.  [k] bytes of the first node are taken. *)
Fixpoint fits (k : nat) (bs : list Z) : bool :=
  match bs with
  | [] => true
  | b :: bs' =>
      if b =? NL then fits 1 bs'
      else (k <? 79)%nat && (0 <? b) && (b <? 256) && fits (S k) bs'
  end.

Fixpoint newlines (bs : list Z) : nat :=
  match bs with
  | [] => 0
  | b :: bs' => if b =? NL then S (newlines bs') else newlines bs'
  end.

(** A node whose string ends inside [c]. *)
Definition node_ok (p : line) : Prop :=
  length (c p) = 80%nat ∧ is_Some (cstrlen (c p)).

Lemma node_ok_pad s n no pa :
  (length s < 80)%nat → Forall plain s → node_ok (Line (pad s) n no pa).
Proof.
  intros Hl Hs. split; [apply length_pad; lia|]. cbn [c]. rewrite pad_short by done.
  rewrite cstrlen_app by (by apply plain_nonzero). done.
Qed.

Lemma seek_lookup t l : l ≠ [] → is_Some (l !! seek t l).
Proof.
  induction l as [|p l IH]; intros Hl; [done|]. destruct l as [|q l]; [by eexists|].
  cbn [seek]. case_b; [apply IH; done|by eexists].
Qed.

Lemma node_ok_str p : node_ok p → (length (str p) < 80)%nat.
Proof.
  intros [Hl [n Hn]]. unfold str, line_bytes.
  pose proof (cstrlen_prefix _ (le32 (len p)) _ Hn) as E. apply cstrlen_cstr in E.
  apply cstrlen_bound in Hn. lia.
Qed.

Lemma text_cons p l : text (p :: l) = str p ++ text l.
Proof. done. Qed.

Section loading.
Context {F : Type} `{Files F}.
Implicit Types s : vim F.

Definition loaded (l : list line) (k : nat) s : vim F :=
  set_start l (set_lines (lines s + Z.of_nat k) (set_avail (avail s - k) s)).

Lemma readfile_loop_ok bs i prev w no pa s :
  (length w < 80)%nat → Forall plain w → fits (length w) bs = true → (newlines bs ≤ avail s)%nat →
  returns (readfile_loop bs i prev (Line (pad w) (Z.of_nat (length w)) no pa) [] s) (λ _ s',
    ∃ l, s' = loaded (prev ++ l) (newlines bs) s ∧ text l = w ++ bs ∧ Forall node_ok l ∧
         l ≠ []).
Proof.
  revert i prev w no pa s. induction bs as [|b bs IH]; intros i prev w no pa s Hl Hw Hf Ha.
  { simpl. eexists [_]. split_and!; [|by rewrite text_cons, str_pad|
      constructor; [by apply node_ok_pad|done]|done].
    unfold loaded. rewrite Z.add_0_r, Nat.sub_0_r. by destruct s. }
  cbn [readfile_loop fits newlines] in *. case_b.
  - unfold strlen_of. rewrite strlen_pad by done. simpl.
    destruct s as [co fi st li vl mo ke cm av]. simpl in Ha. destruct av as [|av]; [lia|].
    cbn -[readfile_loop]. set (no' := Z.quot i 80 + 1).
    eapply returns_mono; [apply (IH (i + 1) (prev ++ [Line (pad w) (Z.of_nat (length w)) no' pa])
      [NL] (no' + 1) (pa + 1) (Vim co fi st (li + 1) vl mo ke cm av)); simpl;
      [lia|by repeat constructor|done|lia]|].
    intros [] s' (l & -> & Ht & Hok & _).
    exists (Line (pad w) (Z.of_nat (length w)) no' pa :: l). split_and!; [| | |done].
    + unfold loaded. simpl. rewrite <- app_assoc. unfold set_start, set_lines, set_avail. simpl.
      f_equal. lia.
    + rewrite text_cons, str_pad, Ht by done. zbool. by subst b.
    + constructor; [by apply node_ok_pad|done].
  - match goal with Hk : (_ <? 79)%nat = true |- _ => apply Nat.ltb_lt in Hk end.
    unfold store_c. cbn [c len]. rewrite store_pad by lia.
    apply returns_bind. cbn [returns mret cm_ret]. unfold strlen_of.
    assert (Hlen : length (w ++ [b]) = S (length w)) by (rewrite length_app; simpl; lia).
    assert (Hwb : Forall plain (w ++ [b])) by (apply Forall_app; split; [done|repeat constructor; lia]).
    unfold with_c, with_len. cbn [c len lineno para].
    rewrite strlen_pad by (rewrite ?Hlen; lia || done).
    apply returns_bind. cbn [returns mret cm_ret].
    eapply returns_mono; [apply (IH (i + 1) prev (w ++ [b]) no pa s);
      [lia|done|by rewrite Hlen|done]|].
    intros [] s' (l & -> & Ht & Hok & Hne). exists l. split_and!; try done.
    by rewrite Ht, <- app_assoc.
Qed.

Lemma on_con_ok {A} (m : cm console A) s (Q : A → vim F → Prop) :
  returns (m (con s)) (λ a x, Q a (set_con x s)) → returns (on_con m s) Q.
Proof. unfold on_con. by destruct (m (con s)). Qed.

Lemma put_chars_ok cs s :
  term_ok (con s) → locked (con s) = false →
  returns (put_chars cs s) (λ _ s', ∃ x, s' = set_con x s ∧ term_step (con s) x).
Proof.
  revert s. induction cs as [|ch cs IH]; intros s Ht Hl; simpl.
  { exists (con s). split; [by destruct s|by apply term_step_refl]. }
  apply returns_bind, on_con_ok. eapply returns_mono; [by apply consolewrite_ok|].
  intros n x [_ Hx]. eapply returns_mono; [apply IH; [apply Hx|]|].
  { destruct Hx as ((_ & _ & _ & Hl' & _) & _). simpl. congruence. }
  intros [] s' (y & -> & Hy). exists y. split; [done|]. by eapply term_step_trans.
Qed.

Lemma print_ok fmt args cs s :
  printf fmt args = Some cs → term_ok (con s) → locked (con s) = false →
  returns (print fmt args s) (λ _ s', ∃ x, s' = set_con x s ∧ term_step (con s) x).
Proof. intros E. unfold print. rewrite E. apply put_chars_ok. Qed.

Context `{!FilesOk F}.

(** What opening a file with contents [bs] leaves. *)
Definition opened_doc (bs : list Z) s s' : Prop :=
  text (start s') = bs ∧ Forall node_ok (start s') ∧ start s' ≠ [] ∧
  lines s' = 1 + Z.of_nat (newlines bs) ∧
  vimline s' = vimline s ∧ mode s' = mode s ∧ keys s' = keys s ∧
  (bs = [] → start s' = [fresh_line]).

Lemma readfile_text_ok bs s :
  bs ≠ [] → start s = [] → fits 0 bs = true → (newlines bs < avail s)%nat →
  returns (readfile_text bs s) (λ _ s', opened_doc bs s s' ∧ con s' = con s ∧ files s' = files s).
Proof.
  intros Hbs E Hf Ha. unfold readfile_text, ensure_start. apply returns_bind. rewrite E.
  destruct s as [co fi st li vl mo ke cm av]. simpl in E, Ha. destruct av as [|av]; [lia|].
  subst st. unfold mbind, cm_bind, malloc_line, modify, gets. cbn [avail start set_start set_lines returns].
  eapply returns_mono; [apply (readfile_loop_ok bs 0 [] [] 1 1); simpl; try done; lia|].
  intros [] s' (l & -> & Ht & Hok & Hne). split; [|done]. by split_and!.
Qed.

Lemma readfile_ok room name bs s :
  holds (files s) name bs → start s = [] → fits 0 bs = true → (newlines bs < avail s)%nat →
  Z.of_nat (length bs) ≤ MAX_FILE_SIZE → Z.of_nat (length bs) ≤ room →
  term_ok (con s) → locked (con s) = false →
  returns (readfile room (Some name) s) (λ r s',
    r = 0 ∧ opened_doc bs s s' ∧ holds (files s') name bs ∧ term_step (con s) (con s')).
Proof.
  intros Hh E Hf Ha Hm Hr Ht Hl. unfold readfile.
  destruct (fopen_ok _ _ (Z.lor O_RDONLY O_CREATE) _ Hh) as [Hfd Ho].
  destruct (fopen name _ (files s)) as [fd f]. simpl in Hfd, Ho.
  rewrite (proj2 (Z.ltb_ge fd 0)) by lia. rewrite (ffstat_ok _ _ _ _ _ _ Ho). simpl negb. cbv iota.
  assert (Hi : i32 (Z.of_nat (length bs)) = Z.of_nat (length bs)).
  { unfold MAX_FILE_SIZE in Hm. unfold i32. dlia. }
  rewrite Hi, (proj2 (Z.ltb_ge MAX_FILE_SIZE _)) by lia.
  set (s1 := set_files f s).
  set (load := if 0 <? _ then _ else _).
  assert (Hload : returns (load s1) (λ _ s', opened_doc bs s s' ∧ con s' = con s ∧
    ∃ off, opened (files s') fd name false off bs)).
  { unfold load. destruct (0 <? _) eqn:En; zbool.
    - rewrite (proj2 (Z.ltb_ge room _)) by lia.
      destruct (fread_ok _ _ _ _ _ (Z.of_nat (length bs)) Ho) as [Hb Ho']; [lia|].
      simpl. destruct (fread fd _ f) as [buf f']. simpl in Hb, Ho'.
      rewrite Nat2Z.id, drop_0, take_ge in Hb by lia. subst buf. rewrite Z.eqb_refl.
      eapply returns_mono; [apply readfile_text_ok; try done; by intros ->|]. intros [] s' (Hd & Hc & Hfi).
      split_and!; [done|done|]. rewrite Hfi. by eexists.
    - assert (bs = []) as -> by (destruct bs; [done|simpl in En; lia]).
      unfold ensure_start, s1. simpl. rewrite E. destruct s as [co fi st li vl mo ke cm av].
      simpl in Ha. destruct av as [|av]; [lia|]. simpl. split_and!; try done; [|by eexists].
      split_and!; try done. repeat constructor. by eexists. }
  apply returns_bind. eapply returns_mono; [exact Hload|]. intros [] s2 (Hd & Hc & off & Ho2).
  apply returns_bind. eapply returns_mono; [eapply print_ok; [done|by rewrite Hc|by rewrite Hc]|].
  intros [] s3 (x & -> & Hx). simpl. split_and!; [done|done| |by rewrite <- Hc].
  by eapply fclose_ok.
Qed.

(** *** Saving *)

(** What overwriting the start of a file leaves. *)
Definition overwrite (new old : list Z) : list Z := new ++ drop (length new) old.

Lemma node_ok_strlen p : node_ok p → line_strlen p = Some (Z.of_nat (length (str p))).
Proof.
  intros [_ [n Hn]]. unfold line_strlen, str, line_bytes.
  assert (E : cstrlen (c p ++ le32 (len p)) = Some n) by (by apply cstrlen_prefix).
  rewrite E. f_equal. by apply cstrlen_cstr.
Qed.

Lemma writefile_loop_ok l fd name s done_ bs :
  Forall node_ok l →
  opened (files s) fd name true (length done_) (overwrite done_ bs) →
  (length done_ + length (text l) ≤ cap)%nat →
  returns (writefile_loop fd l s) (λ _ s', ∃ f, s' = set_files f s ∧
    opened f fd name true (length (done_ ++ text l)) (overwrite (done_ ++ text l) bs)).
Proof.
  intros Hok. revert s done_. induction Hok as [|p l Hp _ IH]; intros s dn Ho Hc; simpl.
  { exists (files s). rewrite app_nil_r. split; [by destruct s|done]. }
  rewrite text_cons, length_app in Hc.
  apply returns_bind. unfold strlen_of. rewrite node_ok_strlen by done. simpl.
  rewrite Nat2Z.id. unfold line_bytes in *.
  assert (Et : take (length (str p)) (c p ++ le32 (len p)) = str p).
  { rewrite <- (Nat2Z.id (length (str p))). apply take_strlen. by apply node_ok_strlen. }
  rewrite Et.
  destruct (fwrite_ok _ _ _ _ _ (str p) Ho) as [_ Ho'];
    [unfold overwrite; rewrite length_app; lia|lia|].
  eapply returns_mono; [apply (IH _ (dn ++ str p))|].
  - simpl. rewrite length_app. unfold overwrite in *.
    rewrite take_app_length, drop_app_ge, drop_drop in Ho' by lia.
    replace (length dn + (length dn + length (str p) - length dn))%nat
      with (length dn + length (str p))%nat in Ho' by lia.
    by rewrite length_app, <- app_assoc.
  - rewrite length_app. lia.
  - intros [] s' (f & -> & Hf). exists f. split; [done|]. by rewrite text_cons, app_assoc.
Qed.

Lemma writefile_ok name bs s :
  holds (files s) name bs → Forall node_ok (start s) → (length (text (start s)) ≤ cap)%nat →
  returns (writefile (Some name) s) (λ r s',
    r = 0 ∧ ∃ f, s' = set_files f s ∧ holds f name (overwrite (text (start s)) bs)).
Proof.
  intros Hh Hok Hc. unfold writefile.
  destruct (fopen_ok _ _ (Z.lor O_WRONLY O_CREATE) _ Hh) as [Hfd Ho].
  destruct (fopen name _ (files s)) as [fd f]. simpl in Hfd, Ho.
  rewrite (proj2 (Z.ltb_ge fd 0)) by lia. rewrite (ffstat_ok _ _ _ _ _ _ Ho). simpl negb. cbv iota.
  apply returns_bind.
  eapply returns_mono; [by apply (writefile_loop_ok _ fd name (set_files f s) [] bs)|].
  intros [] s' (f' & -> & Ho'). simpl. split; [done|]. eexists. split; [done|].
  by eapply fclose_ok.
Qed.

End loading.

(** ** Lemmas: what the editor never touches *)

Section taming.
Context {F : Type} `{Files F}.
Implicit Types s : vim F.

(** A run keeps [R] and does not end for want of fuel. *)
Definition tame (R : relation (vim F)) {A} (m : cm (vim F) A) : Prop := ∀ s,
  match m s with
  | Ok _ s' => R s s'
  | Panic _ => True
  | Ub what => what ≠ "fuel"%string
  end.

(** The saved screen and the buffering flag stay, keys are only consumed. *)
Definition calm s s' : Prop :=
  precrt (con s') = precrt (con s) ∧ (length (keys s') ≤ length (keys s))%nat.

(** The mode stays, too. *)
Definition quiet s s' : Prop := calm s s' ∧ mode s' = mode s.

#[local] Instance calm_preorder : PreOrder calm.
Proof.
  split; [intros s; split; [done|lia]|].
  intros s1 s2 s3 [? ?] [? ?]. split; [congruence|lia].
Qed.

#[local] Instance quiet_preorder : PreOrder quiet.
Proof.
  split; [intros s; by split|].
  intros s1 s2 s3 [? ?] [? ?]. split; [by etrans|congruence].
Qed.

Lemma quiet_calm s s' : quiet s s' → calm s s'.
Proof. by intros [? ?]. Qed.

Section generic.
Context (R : relation (vim F)) `{!PreOrder R}.

Lemma tame_ret {A} (a : A) : tame R (mret a).
Proof. intros s. simpl. reflexivity. Qed.

Lemma tame_gets {A} (f : vim F → A) : tame R (gets f).
Proof. intros s. simpl. reflexivity. Qed.

Lemma tame_ub {A} w : w ≠ "fuel"%string → tame R (ub w : cm (vim F) A).
Proof. by intros Hw s. Qed.

Lemma tame_modify f : (∀ s, R s (f s)) → tame R (modify f).
Proof. intros Hf s. apply Hf. Qed.

Lemma tame_bind {A B} (m : cm (vim F) A) (k : A → cm (vim F) B) :
  tame R m → (∀ a, tame R (k a)) → tame R (m ≫= k).
Proof.
  intros Hm Hk s. unfold mbind, cm_bind. specialize (Hm s).
  destruct (m s) as [a s1| |]; try done. specialize (Hk a s1).
  destruct (k a s1); try done. by etrans.
Qed.

Lemma tame_when b m : tame R m → tame R (cwhen b m).
Proof. destruct b; [done|]. intros _. apply tame_ret. Qed.

End generic.

Lemma tame_calm {A} (m : cm (vim F) A) : tame quiet m → tame calm m.
Proof. intros Hm s. specialize (Hm s). destruct (m s); try done. by apply quiet_calm. Qed.

Lemma quiet_draw f s : (∀ x, precrt (f x) = precrt x) → quiet s (draw_on f s).
Proof. intros Hf. split; [split; [apply Hf|done]|done]. Qed.

Lemma precrt_scrputc pos ch x : precrt (scrputc pos ch x) = precrt x.
Proof. unfold scrputc. repeat case_match; simplify_eq; simpl; apply precrt_setcursor. Qed.

Lemma precrt_scr_blank n i x : precrt (scr_blank n i x) = precrt x.
Proof.
  revert i x. induction n as [|n IH]; intros i x; [done|]. cbn [scr_blank]. by rewrite IH, precrt_scrputc.
Qed.

Lemma precrt_clearcli x : precrt (clearcli x) = precrt x.
Proof. apply precrt_scr_blank. Qed.

Lemma buffering_scrputc pos ch x : buffering (scrputc pos ch x) = buffering x.
Proof. unfold scrputc, setcursor. repeat case_match; by simplify_eq. Qed.

Lemma buffering_clearcli x : buffering (clearcli x) = buffering x.
Proof.
  unfold clearcli. generalize (MAX_COL * MAX_ROW). generalize 80%nat. intros n. revert x.
  induction n as [|n IH]; intros x i; [done|]. cbn [scr_blank]. by rewrite IH, buffering_scrputc.
Qed.

Lemma precrt_scr_string p cs x : precrt (scr_string p cs x) = precrt x.
Proof.
  revert p x. induction cs as [|ch cs IH]; intros p x; [done|]. cbn [scr_string]. by rewrite IH, precrt_scrputc.
Qed.

Lemma precrt_showline n x : precrt (showline n x) = precrt x.
Proof.
  unfold showline. by rewrite precrt_setcursor, precrt_scr_blank, precrt_scr_string, precrt_scr_blank.
Qed.

Lemma precrt_printtext cs ps : precrt (foldl printtext_char ps cs).2 = precrt ps.2.
Proof.
  revert ps. induction cs as [|ch cs IH]; intros ps; [done|]. cbn [foldl]. rewrite IH.
  unfold printtext_char. repeat case_match; simplify_eq; cbn [snd]; by rewrite ?precrt_scrputc.
Qed.

#[local] Hint Resolve precrt_setcursor precrt_scrputc precrt_scr_blank precrt_showline : xv6.
#[local] Hint Resolve calm_preorder quiet_preorder tame_ret tame_gets tame_when tame_bind : xv6.
#[local] Hint Extern 1 (tame _ (ub _)) => (by apply tame_ub) : xv6.
#[local] Hint Extern 1 (tame _ (modify (draw_on _))) =>
  (apply tame_modify; intros ?; apply quiet_draw; intros ?) : xv6.
#[local] Hint Extern 2 (tame _ (modify _)) =>
  (apply tame_modify; intros ?; split; [split; [done|simpl; lia]|done]) : xv6.

Lemma quiet_move_to pos : tame quiet (move_to pos).
Proof. unfold move_to. eauto with xv6. Qed.

Lemma quiet_strlen_of p : tame quiet (strlen_of p).
Proof. unfold strlen_of. case_match; eauto with xv6. Qed.

Lemma quiet_store_c i b p : tame quiet (store_c i b p).
Proof. unfold store_c. case_match; eauto with xv6. Qed.

Lemma quiet_malloc : tame quiet malloc_line.
Proof. intros s. unfold malloc_line. destruct (avail s); [done|]. split; [split; [done|simpl; lia]|done]. Qed.

Lemma quiet_selected t : tame quiet (selected t).
Proof. intros s. unfold selected. destruct (start s !! _); [reflexivity|done]. Qed.

Lemma quiet_last_line : tame quiet last_line.
Proof. intros s. unfold last_line. destruct (last (start s)); [reflexivity|done]. Qed.

Lemma quiet_ensure_start : tame quiet ensure_start.
Proof.
  intros s. unfold ensure_start. destruct (start s); [|reflexivity].
  revert s. apply (tame_bind quiet); [apply quiet_malloc|]. eauto with xv6.
Qed.

Lemma quiet_put_chars cs : tame quiet (put_chars cs).
Proof.
  induction cs as [|ch cs IH]; [apply tame_ret, _|]. apply tame_bind; [apply _| |done].
  intros s. unfold on_con. destruct (consolewrite [ch] (con s)) as [n x| |w] eqn:E; [|done|].
  - split; [split; [|done]|done]. by apply precrt_consolewrite in E.
  - by apply consolewrite_no_ub in E.
Qed.

Lemma quiet_print fmt args : tame quiet (print fmt args).
Proof. unfold print. case_match; eauto using quiet_put_chars with xv6. Qed.

#[local] Hint Resolve quiet_move_to quiet_strlen_of quiet_store_c quiet_malloc quiet_selected
  quiet_last_line quiet_ensure_start quiet_print : xv6.

(** Follows the structure of a computation down to the operations above. *)
Ltac tame_steps :=
  repeat first
    [ solve [eauto with xv6]
    | apply tame_bind; [apply _| |intros ?]
    | apply tame_when; [apply _|]
    | case_match ].

Lemma quiet_getchar pos : tame quiet (getchar pos).
Proof. unfold getchar. tame_steps. Qed.

Lemma quiet_update i p : tame quiet (update i p).
Proof. unfold update. tame_steps. Qed.

Lemma quiet_append p : tame quiet (append p).
Proof. unfold append. tame_steps. Qed.

#[local] Hint Resolve quiet_getchar quiet_update quiet_append : xv6.

Lemma quiet_cursormove move : tame quiet (cursormove move).
Proof. unfold cursormove. cbv zeta. tame_steps. Qed.

Lemma quiet_printed l : tame quiet (printed l).
Proof. induction l as [|p l IH]; simpl; tame_steps. Qed.

Lemma quiet_printtext t : tame quiet (printtext t).
Proof.
  unfold printtext. apply tame_bind; [apply _|eauto with xv6|]. intros [i p].
  apply tame_bind; [apply _|eauto with xv6|]. intros l.
  apply tame_bind; [apply _|apply quiet_printed|]. intros cs.
  apply tame_modify. intros s. apply quiet_draw. intros x.
  by rewrite precrt_setcursor, precrt_printtext.
Qed.

#[local] Hint Resolve quiet_cursormove quiet_printtext : xv6.

Lemma quiet_rmch : tame quiet rmch.
Proof. unfold rmch. tame_steps. Qed.

Lemma quiet_set_console_line : tame quiet set_console_line.
Proof. unfold set_console_line. tame_steps. Qed.

#[local] Hint Resolve quiet_rmch quiet_set_console_line : xv6.

Lemma quiet_newline_key : tame quiet newline_key.
Proof. unfold newline_key. tame_steps. Qed.

Lemma quiet_insert_key ch : tame quiet (insert_key ch).
Proof.
  unfold insert_key. tame_steps. apply tame_modify. intros s. apply quiet_draw. intros x.
  by rewrite precrt_scrputc, precrt_setcursor.
Qed.

#[local] Hint Resolve quiet_newline_key quiet_insert_key : xv6.

(** *** Keys and modes *)

(** The mode a key outside the command line leads to. *)
Definition mode_after (ch md : Z) : Z :=
  if ch =? KEY_ESC then (if (md =? V_INSERT) || (md =? V_CMD) then V_READONLY else md)
  else if ch =? 105 then (if md =? V_READONLY then V_INSERT else md)
  else md.

(** What a run of the handler of [ch] may do. *)
Definition keyed (ch : Z) {A} (r : outcome (vim F) A) (s : vim F) : Prop :=
  match r with
  | Ok _ s' => calm s s' ∧ mode s' = mode_after ch (mode s)
  | Panic _ => True
  | Ub what => what ≠ "fuel"%string
  end.

Lemma keyed_quiet ch {A} (m : cm (vim F) A) s :
  (ch =? KEY_ESC) = false → (ch =? 105) = false → tame quiet m → keyed ch (m s) s.
Proof.
  intros E1 E2 Hm. specialize (Hm s). unfold keyed, mode_after. rewrite E1, E2.
  by destruct (m s).
Qed.

Lemma keyed_esc s :
  keyed KEY_ESC ((md ← gets mode;
    if md =? V_INSERT then modify (set_mode V_READONLY) ;; cursormove KEY_LF
    else cwhen (md =? V_CMD) (modify (set_mode V_READONLY))) s) s.
Proof.
  unfold mbind at 1, cm_bind at 1. cbn [gets]. unfold keyed, mode_after. simpl (KEY_ESC =? _).
  destruct (mode s =? V_INSERT) eqn:E1.
  - unfold mbind, cm_bind. cbn [modify]. pose proof (quiet_cursormove KEY_LF (set_mode V_READONLY s)) as Hq.
    by destruct (cursormove KEY_LF (set_mode V_READONLY s)).
  - cbn [orb]. destruct (mode s =? V_CMD); simpl; by split_and!.
Qed.

Lemma other_key_keyed ch s : keyed ch (other_key ch s) s.
Proof.
  unfold other_key.
  destruct (_ || _) eqn:E0.
  { apply keyed_quiet; [| |eauto with xv6];
      zbool; unfold KEY_UP, KEY_DN, KEY_LF, KEY_RT, KEY_ESC in *; lia. }
  repeat (match goal with |- context [if ch =? ?k then _ else _] =>
    let E := fresh "E" in destruct (ch =? k) eqn:E;
      [apply Z.eqb_eq in E; subst ch; first
        [ apply keyed_esc
        | apply keyed_quiet; [done|done|unfold key_or_default; tame_steps]
        | idtac ]|] end).
  - unfold mbind, cm_bind. cbn [gets]. unfold keyed, mode_after. simpl (105 =? _).
    destruct (mode s =? V_READONLY); [by split_and!|].
    pose proof (quiet_insert_key 105 s) as Hq. unfold cwhen.
    destruct (mode s =? V_INSERT); [|by split_and!].
    by destruct (insert_key 105 s).
  - apply keyed_quiet; [done|done|eauto with xv6].
Qed.

(** *** The loops *)

Lemma next_key_spec ks x b ks' x' :
  next_key ks x = (b, ks', x') →
  precrt x' = precrt x ∧ (length ks' ≤ length ks)%nat ∧
  (is_Some b → (length ks' < length ks)%nat).
Proof.
  revert x. induction ks as [|[d|] ks IH]; intros x; simpl; intros E; simplify_eq.
  - split_and!; [done|done|by intros []].
  - split_and!; [done|lia|lia].
  - destruct (IH _ E) as (-> & ? & Hs). rewrite precrt_cmdline_backspace.
    split_and!; [done|lia|]. intros ?%Hs. lia.
Qed.

Lemma read_key_spec s :
  ∃ b s', read_key s = Ok b s' ∧ quiet s s' ∧
    (is_Some b → (length (keys s') < length (keys s))%nat).
Proof.
  unfold read_key. destruct (next_key _ _) as [[b ks] x] eqn:E.
  apply next_key_spec in E as (? & ? & ?). eexists _, _. split; [done|].
  split; [split; [split|]|]; done.
Qed.

(** A run that ends no later than the fuel suffices for. *)
Definition tame_at (R : relation (vim F)) {A} (r : outcome (vim F) A) s : Prop :=
  match r with
  | Ok _ s' => R s s'
  | Panic _ => True
  | Ub what => what ≠ "fuel"%string
  end.

Lemma tame_at_bind R `{!PreOrder R} {A B} (m : cm (vim F) A) (k : A → cm (vim F) B) s :
  tame_at R (m s) s → (∀ a s', m s = Ok a s' → tame_at R (k a s') s') → tame_at R ((m ≫= k) s) s.
Proof.
  intros Hm Hk. unfold mbind, cm_bind. destruct (m s) as [a s1| |] eqn:E; try done.
  specialize (Hk a s1 eq_refl). simpl in Hm. destruct (k a s1); try done. simpl in *. by etrans.
Qed.

(** The command line leaves the mode or goes back to [V_READONLY]. *)
Definition commanding s s' : Prop :=
  calm s s' ∧ (mode s' = mode s ∨ mode s' = V_READONLY).

#[local] Instance commanding_preorder : PreOrder commanding.
Proof.
  split; [intros s; split; [reflexivity|by left]|].
  intros s1 s2 s3 [? H1] [? H2]. split; [by etrans|].
  destruct H2 as [-> | ->]; [done|by right].
Qed.

Lemma quiet_commanding s s' : quiet s s' → commanding s s'.
Proof. intros [? ?]. split; [done|by left]. Qed.

Lemma tame_commanding {A} (m : cm (vim F) A) s : tame quiet m → tame_at commanding (m s) s.
Proof.
  intros Hm. specialize (Hm s). unfold tame_at. destruct (m s); try done. by apply quiet_commanding.
Qed.

Lemma readcmd_loop_tame fuel precur len s :
  (length (keys s) < fuel)%nat → tame_at commanding (readcmd_loop fuel precur len s) s.
Proof.
  revert len s. induction fuel as [|fuel IH]; intros len s Hf; [lia|]. cbn [readcmd_loop].
  destruct (read_key_spec s) as (b & s1 & E & Hq & Hlt).
  apply tame_at_bind; [apply _|rewrite E; by apply quiet_commanding|].
  intros b' s1' E'. rewrite E in E'. simplify_eq.
  destruct b' as [b|]; [|destruct len; [simpl; reflexivity|done]].
  specialize (Hlt ltac:(done)).
  destruct (b =? NL); [destruct len; [simpl; reflexivity|done]|].
  apply tame_at_bind; [apply _|apply tame_commanding; eauto with xv6|].
  intros pos s2 [= <- <-]. destruct (CMD_BUF_SZ <? _).
  { apply tame_commanding. tame_steps. }
  assert (Hrec : ∀ (m : cm (vim F) unit) n, tame quiet m →
    tame_at commanding ((m ;; readcmd_loop fuel precur n) s1') s1').
  { intros m n Hm. apply tame_at_bind; [apply _|by apply tame_commanding|]. intros [] s3 E3.
    apply IH. specialize (Hm s1'). rewrite E3 in Hm. destruct Hm as [[_ ?] _]. lia. }
  destruct (cmdfilter b); [apply Hrec; tame_steps|].
  destruct (b =? KEY_ESC); [|apply Hrec; tame_steps].
  apply tame_at_bind; [apply _|apply tame_commanding; tame_steps|]. intros [] s3 E3.
  split; [split; [|reflexivity]|by right].
  change (precrt (setcursor precur (clearcli (con s3))) = precrt (con s3)).
  by rewrite precrt_setcursor, precrt_clearcli.
Qed.

Lemma readcmd_tame s : tame_at commanding (readcmd s) s.
Proof.
  unfold readcmd. apply tame_at_bind; [apply _|simpl; reflexivity|]. intros pos s1 [= <- <-].
  apply tame_at_bind; [apply _| |].
  { split; [split; [|reflexivity]|by left].
    change (precrt (scrputc CMD_LINE 58 (clearcli (con s))) = precrt (con s)).
    by rewrite precrt_scrputc, precrt_clearcli. }
  intros [] s2 [= <-]. apply tame_at_bind; [apply _|simpl; reflexivity|]. intros ks s3 [= <- <-].
  apply tame_at_bind; [apply _|apply readcmd_loop_tame; simpl; lia|].
  intros r s4 _. apply (tame_commanding (match r with CmdNull => _ | CmdLen _ => _ end)). tame_steps.
Qed.

Lemma colon_key_tame s :
  tame_at (λ s s', calm s s' ∧ (mode s' = V_CMD ∨ mode s' = V_READONLY) ∨ quiet s s')
    (colon_key 58 s) s.
Proof.
  unfold colon_key. unfold mbind at 1, cm_bind at 1. cbn [gets].
  destruct (mode s =? V_READONLY) eqn:Em.
  - assert (Ht : tame_at commanding
      ((cmd ← readcmd; match cmd with
        | None => mret None
        | Some cmd =>
            let b i := default 0 (cmd !! i) in
            if b 0%nat =? 113 then mret (Some Quit)
            else if (b 0%nat =? 119) && (b 1%nat =? 113) then mret (Some SaveAndExit)
            else move_to CMD_LINE ;; mret None
        end) (set_mode V_CMD s)) (set_mode V_CMD s)).
    { apply tame_at_bind; [apply _|apply readcmd_tame|]. intros cmd s1 _.
      apply (tame_commanding (match cmd with None => _ | Some _ => _ end)). tame_steps. }
    match type of Ht with tame_at _ ?o _ => change (match o with
      | Ok _ s' => (calm s s' ∧ (mode s' = V_CMD ∨ mode s' = V_READONLY)) ∨ quiet s s'
      | Panic _ => True
      | Ub what => what ≠ "fuel"%string
      end); destruct o end; try done. left. exact Ht.
  - assert (Hq : tame quiet (cwhen (mode s =? V_INSERT) (insert_key 58) ;; mret (@None leave)))
      by tame_steps.
    specialize (Hq s). unfold tame_at.
    destruct ((cwhen _ _ ;; _) s); try done. by right.
Qed.

Lemma handle_tame ch s : tame_at calm (handle ch s) s.
Proof.
  unfold handle. destruct (ch =? 58) eqn:Ec.
  - zbool. subst ch. pose proof (colon_key_tame s) as Ht. destruct (colon_key 58 s); try done.
    destruct Ht as [[? _]|[? _]]; done.
  - apply tame_at_bind; [apply _| |intros [] s' _; simpl; reflexivity].
    pose proof (other_key_keyed ch s) as Hk. destruct (other_key ch s); try done. by destruct Hk.
Qed.

Lemma main_loop_tame fuel hi s :
  (length (keys s) < fuel)%nat → tame_at calm (main_loop fuel hi s) s.
Proof.
  revert s. induction fuel as [|fuel IH]; intros s Hf; [lia|]. cbn [main_loop].
  destruct (read_key_spec s) as (b & s1 & E & [Hq _] & Hlt).
  apply tame_at_bind; [apply _|by rewrite E|].
  intros b' s1' E'. rewrite E in E'. simplify_eq. destruct b' as [b|]; [|simpl; reflexivity].
  specialize (Hlt ltac:(done)).
  apply tame_at_bind; [apply _|simpl; reflexivity|]. intros t s2 [= <- <-].
  apply tame_at_bind; [apply _|split; [apply precrt_showline|simpl; lia]|]. intros [] s2 [= <-].
  apply tame_at_bind; [apply _|apply handle_tame|]. intros [l|] s3 E3; [simpl; reflexivity|].
  apply IH. pose proof (handle_tame (hi + b) (draw_on (showline (vimline s1')) s1')) as Ht.
  rewrite E3 in Ht. destruct Ht as [_ Hk]. simpl in Hk. lia.
Qed.

Lemma quiet_writefile_loop fd l : tame quiet (writefile_loop fd l).
Proof. induction l as [|p l IH]; simpl; tame_steps. Qed.

#[local] Hint Resolve quiet_writefile_loop : xv6.

Lemma quiet_writefile path : tame quiet (writefile path).
Proof.
  unfold writefile. destruct path as [name|]; [|tame_steps]. intros s.
  destruct (fopen name _ (files s)) as [fd f].
  assert (Hs : quiet s (set_files f s)) by by split.
  assert (Hgo : ∀ m : cm (vim F) Z, tame quiet m →
    match m (set_files f s) with
    | Ok _ s' => quiet s s' | Panic _ => True | Ub what => what ≠ "fuel"%string end).
  { intros m Hm. specialize (Hm (set_files f s)). destruct (m (set_files f s)); try done. }
  destruct (fd <? 0); [apply Hgo; tame_steps|].
  destruct (ffstat fd f) as [[ty sz]|]; [|apply Hgo; tame_steps].
  destruct (negb _); apply (Hgo (_ ;; _ ;; _)); tame_steps.
Qed.

(** *** Leaving *)

Lemma restorescr_fields z :
  (∀ i, 0 ≤ i < MAX_CHAR → crt (restorescr z) i = precrt z i) ∧
  buffering (restorescr z) = buffering z.
Proof.
  split; [|done]. intros i Hi. unfold restorescr. cbn [crt set_crt].
  by rewrite (proj2 (Z.leb_le 0 i)), (proj2 (Z.ltb_lt i MAX_CHAR)) by lia.
Qed.

Lemma editor_exit_screen precursor x :
  0 ≤ precursor < 65536 →
  let x' := editor_exit precursor x in
  buffering x' = EXIT_VIM ∧ getcursor x' = precursor ∧
  ∀ i, 0 ≤ i < MAX_CHAR →
    (i ≠ precursor → crt x' i = precrt x i) ∧ u8 (crt x' i) = u8 (precrt x i).
Proof.
  intros Hp. unfold editor_exit.
  pose proof (precrt_clearcli (setconsbuf EXIT_VIM x)) as Hpre.
  pose proof (buffering_clearcli (setconsbuf EXIT_VIM x)) as Hbuf.
  revert Hpre Hbuf. generalize (clearcli (setconsbuf EXIT_VIM x)). intros z Hpre Hbuf.
  destruct (restorescr_fields z) as [Hy Hb]. rewrite Hpre in Hy. rewrite Hbuf in Hb.
  generalize dependent (restorescr z). intros y Hy Hb.
  unfold setcursor. split_and!; [by case_match|case_match; rewrite getcursor_poke, getcursor_write;
    apply Z.mod_small; lia|].
  intros i Hi. specialize (Hy i Hi).
  change (precrt (setconsbuf EXIT_VIM x) i) with (precrt x i) in Hy. rewrite <- Hy. unfold write_cursor. cbn [crt set_cur poke set_crt].
  destruct (crt y precursor =? EMPTY_CHAR) eqn:E; zbool; unfold poke; cbn [crt set_crt set_cur];
    (split; [intros; by apply upd_ne|]);
    (destruct (decide (i = precursor)) as [->|]; [rewrite upd_eq|by rewrite upd_ne]).
  - by rewrite E.
  - unfold u8, u16. dlia.
Qed.

End taming.

(** ** Lemmas: typing *)

Section typing.
Context {F : Type} `{Files F}.
Implicit Types s : vim F.

Lemma scrputc_cursor pos ch x :
  0 ≤ pos < 65535 → ch ≠ NL → ch ≠ BACKSPACE → getcursor (scrputc pos ch x) = pos + 1.
Proof.
  intros Hp H1 H2. unfold scrputc.
  rewrite (proj2 (Z.eqb_neq _ _) H1), (proj2 (Z.eqb_neq _ _) H2).
  case_match; rewrite getcursor_poke, getcursor_write; apply Z.mod_small; lia.
Qed.

(** The character lands in its cell, and only that cell and the next change. *)
Lemma scrputc_cell pos ch x :
  ch ≠ NL → ch ≠ BACKSPACE → u8 (crt (scrputc pos ch x) pos) = u8 ch.
Proof.
  intros H1 H2. unfold scrputc. rewrite (proj2 (Z.eqb_neq _ _) H1), (proj2 (Z.eqb_neq _ _) H2).
  destruct (CMD_LINE <=? pos + 1); unfold poke; cbn [crt set_crt];
    rewrite upd_ne by lia; cbn [crt write_cursor set_cur set_crt]; rewrite upd_eq;
    destruct (CMD_LINE <=? pos); rewrite u8_u16; apply u8_attr; done.
Qed.

Lemma scrputc_other pos ch x i :
  ch ≠ NL → ch ≠ BACKSPACE → i ≠ pos → i ≠ pos + 1 → crt (scrputc pos ch x) i = crt x i.
Proof.
  intros H1 H2 Hi Hi1. unfold scrputc, setcursor.
  rewrite (proj2 (Z.eqb_neq _ _) H1), (proj2 (Z.eqb_neq _ _) H2).
  destruct (CMD_LINE <=? pos + 1); unfold poke; cbn [crt set_crt write_cursor set_cur];
    repeat rewrite upd_ne by lia; case_match; cbn [crt set_crt write_cursor set_cur];
    by rewrite upd_ne by lia.
Qed.

Lemma setcursor_cursor pos x : 0 ≤ pos < 65536 → getcursor (setcursor pos x) = pos.
Proof.
  intros. unfold setcursor. case_match; rewrite getcursor_poke, getcursor_write; apply Z.mod_small; lia.
Qed.

Lemma showline_cursor n x : 0 ≤ getcursor x < 65536 → getcursor (showline n x) = getcursor x.
Proof. intros. unfold showline. by apply setcursor_cursor. Qed.

(** One turn of the main loop. *)
Lemma main_loop_key fuel hi s b ks :
  keys s = KByte b :: ks →
  main_loop (S fuel) hi s =
    match handle (hi + b) (draw_on (showline (vimline s)) (set_keys ks s)) with
    | Ok None s2 => main_loop fuel hi s2
    | Ok (Some l) s2 => Ok l s2
    | Panic e => Panic e
    | Ub e => Ub e
    end.
Proof.
  intros E. cbn [main_loop]. unfold mbind, cm_bind, read_key at 1. rewrite E. cbn [next_key gets modify].
  destruct s as [co fi st li vl mo ke cm av]. cbn [con keys vimline set_con set_keys].
  destruct (handle _ _) as [[l|] s2| |]; done.
Qed.

(** A byte that insert mode stores. *)
Definition typeable (b : Z) : bool :=
  inputfilter b && negb ((b =? 107) || (b =? 103) || (b =? 71) || (b =? NL)).

(** The document holds the single line [w] and the cursor is behind it. *)
Definition typed_line (w : list Z) s : Prop :=
  start s = [Line (pad w) (Z.of_nat (length w)) 1 1] ∧ vimline s = 1 ∧
  getcursor (con s) = Z.of_nat (length w).

Lemma inputfilter_range b : inputfilter b = true → 0 < b < 123.
Proof.
  unfold inputfilter. intros Hb. repeat (apply orb_true_iff in Hb as [Hb|Hb]); zbool; try lia.
  apply bool_decide_eq_true in Hb. repeat (apply elem_of_cons in Hb as [->|Hb]; [lia|]).
  by apply not_elem_of_nil in Hb.
Qed.

Lemma insert_key_store cs n cs' n' b s :
  start s = [Line cs n 1 1] → vimline s = 1 → mode s = V_INSERT →
  0 ≤ getcursor (con s) < 65535 → inputfilter b = true → b ≠ NL →
  (getcursor (con s) = 0 ∨ Z.rem (getcursor (con s)) 80 ≠ 0 ∨ n ≠ 80) →
  arr_set cs (Z.rem (getcursor (con s)) 80) (u8 b) = Some cs' →
  line_strlen (Line cs' n 1 1) = Some n' →
  ∃ x, insert_key b s = Ok tt (set_start [Line cs' n' 1 1] (set_con x s)) ∧
    getcursor x = getcursor (con s) + 1.
Proof.
  intros Es Ev Em Hcp Hb Hn Hnew Hset Hlen. pose proof (inputfilter_range b Hb).
  destruct s as [co fi st li vl mo ke cm av]. cbn [start vimline con mode] in *. subst st vl mo.
  set (cp := getcursor co) in *. exists (scrputc cp b (setcursor cp co)).
  unfold insert_key, mbind, cm_bind, gets, modify, draw_on, selected. cbn [mode con].
  rewrite Z.eqb_refl, Hb. cbn [negb start vimline set_con seek lookup list_lookup con]. fold cp.
  assert (Hc : (Z.rem cp 80 =? 0) && negb (cp =? 0) && (n =? 80) = false).
  { destruct (Z.rem cp 80 =? 0) eqn:E1; [|done]. destruct (cp =? 0) eqn:E2; [done|].
    destruct (n =? 80) eqn:E3; [|done]. zbool. lia. }
  cbn [len]. rewrite Hc. unfold store_c. cbn [c]. rewrite Hset. cbn [mret cm_ret].
  unfold strlen_of, with_c. cbn [len lineno para]. rewrite Hlen.
  cbn [mret cm_ret update modify]. unfold with_len. cbn [c lineno para].
  split; [done|]. apply scrputc_cursor; [lia|done|unfold BACKSPACE; lia].
Qed.

Lemma insert_key_ok w b s :
  typed_line w s → mode s = V_INSERT → (length w < 79)%nat → Forall plain w →
  inputfilter b = true → b ≠ NL →
  ∃ x, insert_key b s =
    Ok tt (set_start [Line (pad (w ++ [b])) (Z.of_nat (length (w ++ [b]))) 1 1] (set_con x s)) ∧
    getcursor x = Z.of_nat (length (w ++ [b])).
Proof.
  intros (Es & Ev & Ec) Em Hw Hp Hb Hn. pose proof (inputfilter_range b Hb).
  assert (Hl : length (w ++ [b]) = S (length w)) by (rewrite length_app; simpl; lia).
  assert (Hwb : Forall plain (w ++ [b])) by (apply Forall_app; split; [done|by repeat constructor; lia]).
  assert (Hr : Z.rem (Z.of_nat (length w)) 80 = Z.of_nat (length w))
    by (rewrite Z.rem_mod_nonneg, Z.mod_small; lia).
  destruct (insert_key_store _ _ (pad (w ++ [b])) (Z.of_nat (length (w ++ [b]))) b s Es Ev Em)
    as (x & Hx & Hcx); try done.
  - rewrite Ec. lia.
  - rewrite Ec, Hr. lia.
  - rewrite Ec, Hr. apply store_pad; lia.
  - apply strlen_pad; [lia|done].
  - exists x. split; [done|]. rewrite Hcx, Ec. lia.
Qed.

Lemma handle_typeable b s :
  mode s = V_INSERT → typeable b = true → handle b s = (insert_key b ;; mret None) s.
Proof.
  intros Em Hb. apply andb_true_iff in Hb as [Hb Hn]. zbool.
  pose proof (inputfilter_range b Hb).
  assert (Hesc : b ≠ KEY_ESC) by (intros ->; by vm_compute in Hb).
  destruct s as [co fi st li vl mo ke cm av]. cbn [mode] in Em. subst mo.
  unfold handle. destruct (b =? 58); [done|].
  unfold other_key, key_or_default, mbind, cm_bind, gets, KEY_UP, KEY_DN, KEY_LF, KEY_RT in *.
  repeat (rewrite (proj2 (Z.eqb_neq b _)) by lia). cbn [orb].
  rewrite (proj2 (Z.eqb_neq b _) Hesc).
  repeat match goal with |- context [b =? ?k] =>
    let E := fresh in destruct (b =? k) eqn:E; [first [zbool; exfalso; lia|done]|] end.
  done.
Qed.

Lemma type_key fuel w b ks s :
  typed_line w s → mode s = V_INSERT → (length w < 79)%nat → Forall plain w → typeable b = true →
  keys s = KByte b :: ks →
  ∃ x, main_loop (S fuel) 0 s = main_loop fuel 0
    (set_start [Line (pad (w ++ [b])) (Z.of_nat (length (w ++ [b]))) 1 1] (set_con x (set_keys ks s))) ∧
    getcursor x = Z.of_nat (length (w ++ [b])).
Proof.
  intros (Es & Ev & Ec) Em Hw Hp Ht Ek. pose proof Ht as [Hb Hn]%andb_true_iff. zbool.
  rewrite (main_loop_key _ _ _ _ _ Ek). set (s1 := draw_on _ _).
  destruct (insert_key_ok w b s1) as (x & Ei & Ex); try done.
  { split_and!; [done|done|]. unfold s1. cbn [con draw_on set_con set_keys].
    rewrite showline_cursor; [done|]. rewrite Ec. lia. }
  exists x. split; [|done].
  rewrite Z.add_0_l, handle_typeable by done. unfold mbind, cm_bind. rewrite Ei. done.
Qed.

Lemma type_keys u fuel w ks s :
  typed_line w s → mode s = V_INSERT → (length w + length u ≤ 79)%nat → Forall plain w →
  Forall (λ b, typeable b = true) u → keys s = (KByte <$> u) ++ ks →
  ∃ x, main_loop (length u + fuel) 0 s = main_loop fuel 0
    (set_start [Line (pad (w ++ u)) (Z.of_nat (length (w ++ u))) 1 1] (set_con x (set_keys ks s))) ∧
    getcursor x = Z.of_nat (length (w ++ u)).
Proof.
  intros Ht Em Hw Hp Hu. revert w s Ht Em Hw Hp. induction Hu as [|b u Hb _ IH]; intros w s Ht Em Hw Hp Ek.
  { exists (con s). pose proof Ht as (Es & Ev & Ec). rewrite app_nil_r. split; [|done].
    f_equal. destruct s. simpl in *. by subst. }
  simpl in Hw, Ek. cbn [length Nat.add].
  destruct (type_key (length u + fuel) w b _ s Ht Em ltac:(lia) Hp Hb Ek) as (x & -> & Hx).
  set (s1 := set_start _ _).
  assert (Hl : length (w ++ [b]) = S (length w)) by (rewrite length_app; simpl; lia).
  destruct (IH (w ++ [b]) s1) as (y & -> & Hy); try done.
  - pose proof Ht as (_ & Ev & _). by split_and!.
  - lia.
  - apply Forall_app. split; [done|]. apply andb_true_iff in Hb as [Hb%inputfilter_range _].
    repeat constructor; lia.
  - exists y. rewrite <- app_assoc in *. done.
Qed.

(** *** Leaving with ":wq" *)

Lemma esc_key s p :
  start s = [p] → length (c p) = 80%nat → mode s = V_INSERT → 0 ≤ getcursor (con s) →
  ∃ x, handle KEY_ESC s = Ok None (set_mode V_READONLY (set_con x s)).
Proof.
  intros Es Hl Em Hc. destruct s as [co fi st li vl mo ke cm av].
  cbn [start mode con] in *. subst st mo.
  set (s1 := Vim co fi [p] li vl V_READONLY ke cm av).
  change (∃ x, (cursormove KEY_LF ;; mret (@None leave)) s1 = Ok None (set_con x s1)).
  unfold mbind at 1, cm_bind at 1.
  assert (Hm : cursormove KEY_LF s1 =
    (if 0 <? getcursor co then
       ch ← getchar (getcursor co - 1);
       cwhen (negb (ch =? EMPTY_CHAR)) (move_to (getcursor co - 1))
     else mret tt) s1) by done.
  rewrite Hm. destruct (0 <? getcursor co) eqn:E; zbool; [|by exists co].
  destruct (arr_get_in (c p) (Z.rem (getcursor co - 1) 80)) as [b Eb].
  { rewrite Hl, Z.rem_mod_nonneg by lia. dlia. }
  assert (Hg : getchar (getcursor co - 1) s1 = Ok b s1).
  { unfold getchar, mbind, cm_bind, gets, selected, s1. cbn [start vimline seek lookup list_lookup].
    by rewrite Eb. }
  unfold mbind, cm_bind. rewrite Hg. unfold cwhen, move_to, modify, draw_on.
  destruct (negb _); [by eexists|by exists co].
Qed.

Definition wq_keys : list key := KByte <$> [119; 113; NL].

Lemma readcmd_loop_char fuel precur n s b ks :
  keys s = KByte b :: ks → b ≠ NL → cmdfilter b = true →
  let pos := getcursor (con s) in
  Z.rem (pos - MAX_CHAR) MAX_COL ≤ CMD_BUF_SZ →
  readcmd_loop (S fuel) precur n s =
    readcmd_loop fuel precur (Some (Z.rem (pos - MAX_CHAR) MAX_COL))
      (set_con (scrputc pos b (con s)) (set_keys ks s)).
Proof.
  intros Ek Hn Hb pos Hp. destruct s as [co fi st li vl mo ke cm av]. cbn [keys con] in *. subst ke pos.
  cbn [readcmd_loop]. unfold mbind, cm_bind, read_key. cbn [keys con next_key gets].
  rewrite (proj2 (Z.eqb_neq _ _) Hn). unfold gets, modify, draw_on. cbn [con set_keys set_con].
  rewrite (proj2 (Z.ltb_ge _ _) Hp), Hb. done.
Qed.

Lemma readcmd_loop_nl fuel precur n s ks :
  keys s = KByte NL :: ks → readcmd_loop (S fuel) precur (Some n) s = Ok (CmdLen n) (set_keys ks s).
Proof.
  intros Ek. destruct s as [co fi st li vl mo ke cm av]. cbn [keys] in Ek. by subst ke.
Qed.

Lemma readcmd_wq s :
  keys s = wq_keys →
  ∃ x, readcmd s = Ok (Some ([119; 113] ++ drop 2 (cmdmem s)))
    (set_cmdmem ([119; 113] ++ drop 2 (cmdmem s)) (set_keys [] (set_con x s))).
Proof.
  intros Ek. destruct s as [co fi st li vl mo ke cm av]. cbn [keys] in Ek. subst ke.
  unfold readcmd, mbind, cm_bind, gets, modify, draw_on. cbn [con set_con keys].
  generalize (clearcli co). intros x0.
  pose proof (scrputc_cursor CMD_LINE 58 x0 ltac:(unfold CMD_LINE, MAX_ROW, MAX_COL; lia)
    ltac:(done) ltac:(done)) as H1. set (x1 := scrputc CMD_LINE 58 x0) in *. clearbody x1.
  pose proof (scrputc_cursor 1921 119 x1 ltac:(lia) ltac:(done) ltac:(done)) as H2.
  pose proof (scrputc_cell 1921 119 x1 ltac:(done) ltac:(done)) as C2.
  set (x2 := scrputc 1921 119 x1) in *. 
  pose proof (scrputc_cell 1922 113 x2 ltac:(done) ltac:(done)) as C3.
  pose proof (scrputc_other 1922 113 x2 1921 ltac:(done) ltac:(done) ltac:(lia) ltac:(lia)) as C4.
  set (x3 := scrputc 1922 113 x2) in *.
  exists x3. change (S (length wq_keys)) with 4%nat.
  rewrite (readcmd_loop_char 3 _ _ _ 119 (KByte <$> [113; NL])) by (try done; cbn [con set_con set_keys]; rewrite H1; done).
  cbn [con set_con set_keys]. rewrite H1. change (CMD_LINE + 1) with 1921. fold x2.
  rewrite (readcmd_loop_char 2 _ _ _ 113 (KByte <$> [NL])) by (try done; cbn [con set_con set_keys]; rewrite H2; done).
  cbn [con set_con set_keys]. rewrite H2. change (1921 + 1) with 1922. fold x3.
  rewrite (readcmd_loop_nl _ _ _ _ []) by done.
  change (Z.rem (1922 - MAX_CHAR) MAX_COL) with 2. cbn [con set_keys set_con cmdmem].
  assert (Hc : cmd_bytes 2 x3 = [119; 113]).
  { change (cmd_bytes 2 x3) with [u8 (crt x3 1921); u8 (crt x3 1922)]. by rewrite C3, C4, C2. }
  by rewrite Hc.
Qed.

Lemma colon_wq fuel s p :
  start s = [p] → mode s = V_READONLY → keys s = KByte 58 :: wq_keys →
  ∃ s', main_loop (S fuel) 0 s = Ok SaveAndExit s' ∧ start s' = [p] ∧ files s' = files s.
Proof.
  intros Es Em Ek. rewrite (main_loop_key _ _ _ _ _ Ek). set (s1 := draw_on _ _).
  change (0 + 58) with 58. unfold handle. change (58 =? 58) with true. cbv iota.
  unfold colon_key, mbind, cm_bind, gets, modify. change (mode s1) with (mode s). rewrite Em.
  change (V_READONLY =? V_READONLY) with true. cbv iota.
  destruct (readcmd_wq (set_mode V_CMD s1)) as [x ->]; [done|].
  eexists. split; [done|]. done.
Qed.

Lemma finish_typing fuel w s :
  typed_line w s → mode s = V_INSERT → (length w ≤ 79)%nat →
  keys s = KByte KEY_ESC :: KByte 58 :: wq_keys →
  ∃ s', main_loop (S (S fuel)) 0 s = Ok SaveAndExit s' ∧ files s' = files s ∧
    start s' = [Line (pad w) (Z.of_nat (length w)) 1 1].
Proof.
  intros (Es & Ev & Ec) Em Hw Ek. rewrite (main_loop_key _ _ _ _ _ Ek). set (s1 := draw_on _ _).
  destruct (esc_key s1 (Line (pad w) (Z.of_nat (length w)) 1 1)) as [x Hx]; try done.
  { apply length_pad. lia. }
  { unfold s1. cbn [con draw_on set_con set_keys]. rewrite showline_cursor; rewrite Ec; lia. }
  change (0 + KEY_ESC) with KEY_ESC. rewrite Hx.
  destruct (colon_wq fuel (set_mode V_READONLY (set_con x s1))
    (Line (pad w) (Z.of_nat (length w)) 1 1)) as (s' & -> & Hs & Hf); try done.
  by exists s'.
Qed.

(** The keys of a session that types [w]: i, the text, escape, :wq. *)
Definition session (w : list Z) : list key :=
  KByte 105 :: (KByte <$> w) ++ KByte KEY_ESC :: KByte 58 :: wq_keys.

Lemma session_loop w s :
  typed_line [] s → mode s = V_READONLY → (length w ≤ 79)%nat →
  Forall (λ b, typeable b = true) w → keys s = session w →
  ∃ s', main_loop (S (length (keys s))) 0 s = Ok SaveAndExit s' ∧ files s' = files s ∧
    start s' = [Line (pad w) (Z.of_nat (length w)) 1 1].
Proof.
  intros (Es & Ev & Ec) Em Hw Hu Ek. rewrite (main_loop_key _ _ _ _ _ Ek). set (s1 := draw_on _ _).
  assert (Hh : handle (0 + 105) s1 = Ok None (set_mode V_INSERT s1)).
  { unfold s1. destruct s as [co fi st li vl mo ke cm av]. cbn [mode] in Em. by subst mo. }
  rewrite Hh. set (s2 := set_mode V_INSERT s1).
  replace (length (keys s)) with (length w + (S (S 4)))%nat
    by (rewrite Ek; unfold session; simpl; rewrite length_app, length_fmap; simpl; lia).
  assert (H2 : typed_line [] s2).
  { split_and!; [done|done|]. unfold s2, s1. cbn [con set_mode draw_on set_con set_keys].
    rewrite showline_cursor; rewrite Ec; simpl; lia. }
  destruct (type_keys w (S (S 4)) [] (KByte KEY_ESC :: KByte 58 :: wq_keys) s2) as (x & -> & Hx);
    try done.
  set (s3 := set_start _ _).
  destruct (finish_typing 4 w s3) as (s4 & -> & Hf & Hs); try done.
  by exists s4.
Qed.

Lemma printed_state l s cs s' : printed l s = Ok cs s' → s' = s.
Proof.
  revert cs s'. induction l as [|p l IH]; intros cs s' E; [by injection E as _ <-|].
  cbn [printed] in E. unfold mbind, cm_bind, strlen_of in E.
  destruct (line_strlen p); [|done]. cbn [mret cm_ret] in E.
  destruct (printed l s) as [cs1 s1| |] eqn:E1; try done. injection E as _ <-. by eapply IH.
Qed.

Lemma printtext_start t s u s' : printtext t s = Ok u s' → start s' = start s.
Proof.
  unfold printtext, mbind, cm_bind, selected, gets.
  destruct (start s !! _); [|done]. destruct (printed _ s) as [cs s1| |] eqn:E; try done.
  apply printed_state in E as ->. by intros [= _ <-].
Qed.

Lemma printtext_fresh s : start s = [fresh_line] → printtext 1 s = Ok tt (draw_on (setcursor 0) s).
Proof. intros Es. destruct s as [co fi st li vl mo ke cm av]. cbn [start] in Es. by subst st. Qed.

Lemma edit_session w name s :
  start s = [fresh_line] → mode s = V_READONLY → vimline s = 1 → (length w ≤ 79)%nat →
  Forall (λ b, typeable b = true) w → keys s = session w →
  ∃ s' cur, edit 0 name s = (writefile name ;; modify (draw_on (editor_exit cur))) s' ∧
    files s' = files s ∧ start s' = [Line (pad w) (Z.of_nat (length w)) 1 1].
Proof.
  intros Es Em Ev Hw Hu Ek. unfold edit, mbind, cm_bind. cbn [modify gets].
  set (s1 := draw_on _ (draw_on savescr s)). rewrite printtext_fresh by done.
  set (s2 := draw_on (setconsbuf ENTER_VIM) _).
  destruct (session_loop w s2) as (s3 & -> & Hf & Hs); try done.
  by eexists s3, _.
Qed.

End typing.

(** ** Properties *)

Section properties.
Context {F : Type} `{FilesOk F}.
Implicit Types s : vim F.

(** C22: Opening a file and saving it without editing writes back its bytes: the text
    of the document is the contents of the file, each line of which has to leave
    room in the 80 bytes of a node, and both calls return 0. *)
Theorem vim_open_save room name bs s :
  holds (files s) name bs → start s = [] → fits 0 bs = true → (newlines bs < avail s)%nat →
  Z.of_nat (length bs) ≤ MAX_FILE_SIZE → Z.of_nat (length bs) ≤ room → (length bs ≤ cap)%nat →
  term_ok (con s) → locked (con s) = false →
  returns ((r1 ← readfile room (Some name); r2 ← writefile (Some name); mret (r1, r2)) s)
    (λ r s', r = (0, 0) ∧ text (start s') = bs ∧ holds (files s') name bs).
Proof.
  intros Hh E Hf Ha Hm Hr Hc Ht Hl. apply returns_bind.
  eapply returns_mono; [by apply readfile_ok|]. intros r1 s1 (-> & (Htx & Hok & _) & Hh1 & _).
  apply returns_bind. eapply returns_mono; [apply writefile_ok; try done; by rewrite Htx|].
  intros r2 s2 (-> & f & -> & Hh2). simpl. split_and!; [done|done|].
  rewrite Htx in Hh2. unfold overwrite in Hh2. by rewrite drop_all, app_nil_r in Hh2.
Qed.

(** Saving a document writes its text over the start of the file, and leaves what
    the file had behind it: the file is not cut to the length of the text. *)
Theorem vim_save_overwrites name old s :
  holds (files s) name old → Forall node_ok (start s) → (length (text (start s)) ≤ cap)%nat →
  returns (writefile (Some name) s) (λ r s',
    r = 0 ∧ holds (files s') name (text (start s) ++ drop (length (text (start s))) old) ∧
    start s' = start s ∧ con s' = con s).
Proof.
  intros Hh Hok Hc. eapply returns_mono; [by apply writefile_ok|].
  by intros r s' (-> & f & -> & Hf).
Qed.

(** C40: Whenever the editor exits, normally or after a failed save, line buffering is
    back on, the cursor is where it was before the editor drew, and the screen shows
    the characters it showed then; only the attribute of the cell under the cursor
    may differ.  The main loop ends with the keyboard input. *)
Theorem vim_exit_restores_screen room hi name s s1 :
  readfile room name (initctx s) = Ok 0 s1 → start s1 ≠ [] →
  0 ≤ getcursor (con s1) < 65536 →
  match main room hi name s with
  | Ok _ s' =>
      buffering (con s') = EXIT_VIM ∧ getcursor (con s') = getcursor (con s1) ∧
      ∀ i, 0 ≤ i < MAX_CHAR →
        (i ≠ getcursor (con s1) → crt (con s') i = crt (con s1) i) ∧
        u8 (crt (con s') i) = u8 (crt (con s1) i)
  | Panic _ => True
  | Ub what => what ≠ "fuel"%string
  end.
Proof.
  intros E Hs Hcur.
  assert (Hend : ∀ x, precrt x = precrt (savescr (con s1)) →
    let x' := editor_exit (getcursor (con s1)) x in
    buffering x' = EXIT_VIM ∧ getcursor x' = getcursor (con s1) ∧
    ∀ i, 0 ≤ i < MAX_CHAR →
      (i ≠ getcursor (con s1) → crt x' i = crt (con s1) i) ∧ u8 (crt x' i) = u8 (crt (con s1) i)).
  { intros x Hx x'. destruct (editor_exit_screen (getcursor (con s1)) x Hcur) as (? & ? & Hi).
    split_and!; [done|done|]. intros i Hr. destruct (Hi i Hr) as [Hi1 Hi2]. rewrite Hx in Hi1, Hi2.
    unfold savescr in Hi1, Hi2. cbn [precrt set_precrt] in Hi1, Hi2.
    rewrite (proj2 (Z.leb_le 0 i)), (proj2 (Z.ltb_lt i MAX_CHAR)) in Hi1, Hi2 by lia. done. }
  unfold main, edit, mbind, cm_bind. cbn [modify gets]. rewrite E. cbn [negb Z.eqb].
  destruct (start s1) as [|p l]; [done|]. set (s2 := draw_on _ (draw_on savescr s1)).
  pose proof (quiet_printtext 1 s2) as Hp. destruct (printtext 1 s2) as [[] s3| |]; try done.
  destruct Hp as [[Hp _] _]. set (s4 := draw_on (setconsbuf ENTER_VIM) s3).
  pose proof (main_loop_tame (S (length (keys s4))) hi s4 ltac:(lia)) as Hm.
  destruct (main_loop _ hi s4) as [how s5| |]; try done. destruct Hm as [Hm _].
  assert (Hpre : precrt (con s5) = precrt (savescr (con s1))).
  { rewrite Hm. unfold s4. cbn [con draw_on set_con setconsbuf set_buffering precrt]. rewrite Hp.
    unfold s2. cbn [con draw_on set_con setline set_line precrt].
    by rewrite precrt_setcursor. }
  destruct how; [by apply Hend|].
  pose proof (quiet_writefile name s5) as Hw. destruct (writefile name s5) as [r s6| |]; try done.
  destruct Hw as [[Hw _] _]. apply Hend. by rewrite Hw.
Qed.

(** C38: Text typed into an empty file is saved: with the keys i, at most 79 bytes [w]
    that insert mode accepts, escape and :wq, the editor exits and the file holds
    exactly [w]. *)
Theorem vim_types_into_file room name w s :
  holds (files s) name [] → (length w ≤ 79)%nat → (length w ≤ cap)%nat →
  Forall (λ b, typeable b = true) w → 0 ≤ room → (0 < avail s)%nat →
  term_ok (con s) → locked (con s) = false →
  mode s = V_READONLY → vimline s = 1 → keys s = session w →
  returns (main room 0 (Some name) s) (λ _ s', holds (files s') name w).
Proof.
  intros Hh Hw Hc Hu Hr Ha Ht Hl Em Ev Ek. unfold main. apply returns_bind. cbn [modify returns].
  apply returns_bind. eapply returns_mono; [by apply (readfile_ok room name [] (initctx s))|].
  intros r s1 (-> & (_ & _ & _ & _ & Ev1 & Em1 & Ek1 & Es1) & Hh1 & _).
  specialize (Es1 eq_refl). destruct s1 as [co fi st li vl mo ke cm av].
  cbn [start vimline mode keys files initctx set_lines set_start] in *.
  rewrite Em in Em1. rewrite Ev in Ev1. rewrite Ek in Ek1. subst st mo vl ke.
  set (s1 := Vim co fi [fresh_line] li 1 V_READONLY (session w) cm av) in *.
  apply returns_bind. change (returns (edit 0 (Some name) s1) (λ _ s', holds (files s') name w)).
  destruct (edit_session w (Some name) s1) as (s2 & cur & -> & Hf & Hs); try done.
  assert (Hp : Forall plain w).
  { eapply Forall_impl; [exact Hu|]. intros b [Hb%inputfilter_range _]%andb_true_iff. unfold plain. lia. }
  assert (Htx : text (start s2) = w) by (rewrite Hs, text_cons, str_pad; [apply app_nil_r|lia|done]).
  apply returns_bind. eapply returns_mono; [apply (writefile_ok name [])|].
  - by rewrite Hf.
  - rewrite Hs. repeat constructor; [apply length_pad; lia|]. cbn [c]. rewrite pad_short by lia.
    rewrite cstrlen_app by (by apply plain_nonzero). done.
  - by rewrite Htx.
  - intros r s3 (_ & f & -> & Hh3). simpl. rewrite Htx in Hh3. unfold overwrite in Hh3.
    by rewrite drop_nil, app_nil_r in Hh3.
Qed.

(** Which keys change the mode.  Outside the command line, escape leads from
    [V_INSERT] and [V_CMD] back to [V_READONLY], i from [V_READONLY] to [V_INSERT],
    and no other key changes it; a colon typed in [V_READONLY] ends in [V_CMD] or,
    after escape, in [V_READONLY]. *)
Theorem vim_modes ch s r s' :
  handle ch s = Ok r s' →
  if (ch =? 58) && (mode s =? V_READONLY)
  then mode s' = V_CMD ∨ mode s' = V_READONLY
  else mode s' = mode_after ch (mode s).
Proof.
  intros E. unfold handle in E. destruct (ch =? 58) eqn:Ec; cbn [andb].
  2: { pose proof (other_key_keyed ch s) as Hk. unfold mbind, cm_bind in E.
       destruct (other_key ch s) as [[] s1| |]; try done. injection E as _ <-. apply Hk. }
  apply Z.eqb_eq in Ec. subst ch. destruct (mode s =? V_READONLY) eqn:Em.
  - pose proof (colon_key_tame s) as Ht. rewrite E in Ht. destruct Ht as [[_ ?]|[_ Hq]]; [done|].
    right. rewrite Hq. by apply Z.eqb_eq.
  - unfold colon_key, mbind, cm_bind, gets in E. rewrite Em in E.
    unfold mode_after. simpl (58 =? _). cbv iota. unfold cwhen in E.
    destruct (mode s =? V_INSERT); [|by injection E as _ <-].
    pose proof (quiet_insert_key 58 s) as Hq.
    destruct (insert_key 58 s) as [[] s1| |]; try done. injection E as _ <-. apply Hq.
Qed.

(** A line of the screen does not continue in a new node: the character typed
    behind the 80th of a line replaces the first one.  The test for a full line
    compares [len] with 80, and [strlen] runs over the full [c] into [len]. *)
Theorem vim_wraps_onto_itself w b1 b2 s :
  typed_line w s → mode s = V_INSERT → length w = 79%nat → Forall plain w →
  inputfilter b1 = true → b1 ≠ NL → inputfilter b2 = true → b2 ≠ NL →
  returns ((insert_key b1 ;; insert_key b2) s) (λ _ s',
    start s' = [Line (b2 :: drop 1 w ++ [b1]) 81 1 1]).
Proof.
  intros Ht Em Hl Hp H1 Hn1 H2 Hn2.
  pose proof (inputfilter_range _ H1). pose proof (inputfilter_range _ H2).
  assert (Hfull : ∀ cs n, length cs = 80%nat → Forall plain cs → 0 < n < 256 →
    line_strlen (Line cs n 1 1) = Some 81).
  { intros cs n Hc Hcs Hn. unfold line_strlen, line_bytes, le32. cbn [c len].
    assert (En : u8 n = n) by (unfold u8; apply Z.mod_small; lia).
    assert (E0 : u8 (Z.shiftr n 8) = 0) by (rewrite Z.shiftr_div_pow2 by lia; unfold u8; dlia).
    rewrite En, E0, (cons_middle n), app_assoc.
    rewrite cstrlen_app; [rewrite length_app, Hc; done|].
    apply Forall_app. split; [by apply plain_nonzero|]. constructor; [lia|done]. }
  assert (Hw1 : Forall plain (w ++ [b1])) by (apply Forall_app; split; [done|by repeat constructor; lia]).
  pose proof Ht as (Es & Ev & Ec). rewrite Hl in Ec.
  assert (Hstore : arr_set (pad w) (Z.rem 79 80) (u8 b1) = Some (w ++ [b1])).
  { pose proof (store_pad w b1 ltac:(lia) ltac:(lia)) as Hs. rewrite Hl in Hs.
    unfold pad in Hs at 2. by rewrite length_app, Hl, app_nil_r in Hs. }
  destruct (insert_key_store _ _ (w ++ [b1]) 81 b1 s Es Ev Em) as (x & Hx & Hcx); rewrite ?Ec; try done.
  { rewrite Hl. by right; left. }
  { rewrite Hl. apply Hfull; [rewrite length_app; simpl; lia|done|lia]. }
  unfold mbind, cm_bind. rewrite Hx. set (s1 := set_start _ _).
  destruct w as [|b0 w]; [done|]. injection Hl as Hl.
  destruct (insert_key_store _ _ (b2 :: w ++ [b1]) 81 b2 s1 eq_refl Ev Em) as (y & Hy & Hcy);
    try done; cbn [con s1 set_start set_con]; rewrite ?Hcx, ?Ec; try done.
  { by right; right. }
  { change (Z.rem (Z.of_nat 79 + 1) 80) with 0.
    assert (u8 b2 = b2) as -> by (unfold u8; apply Z.mod_small; lia).
    unfold arr_set. by rewrite (proj2 (Z.ltb_lt 0 _)) by (simpl; lia). }
  { apply Hfull; [simpl; rewrite length_app; simpl; lia|constructor; [unfold plain; lia|]|lia].
    by inversion_clear Hw1. }
  by rewrite Hy.
Qed.

(** *** Flaws *)

(** In insert mode the letters g and G are swallowed. *)
Lemma insert_mode_swallows_g ch s :
  ch ∈ [71; 103] → mode s = V_INSERT → handle ch s = Ok None s.
Proof.
  intros Hc Em. destruct s as [co fi st li vl mo ke cm av]. cbn [mode] in Em. subst mo.
  repeat (apply elem_of_cons in Hc as [->|Hc]; [done|]). by apply not_elem_of_nil in Hc.
Qed.

(** Moving up from the first row reads [c] at a negative index. *)
Lemma up_on_first_row_reads_before_c s :
  start s ≠ [] → mode s ≠ V_CMD → 0 < getcursor (con s) < 80 →
  cursormove KEY_UP s = Ub "read before c".
Proof.
  intros Hs Hm Hc. unfold cursormove, mbind, cm_bind, gets.
  rewrite (proj2 (Z.eqb_neq _ _) Hm). simpl (KEY_UP =? _). cbv iota. simpl negb. cbv iota.
  rewrite (proj2 (Z.ltb_lt 0 _)) by (rewrite Z.quot_div_nonneg by lia; dlia).
  unfold getchar, mbind, cm_bind, gets, selected. cbn [negb].
  destruct (seek_lookup (vimline s) (start s) Hs) as [p ->].
  unfold arr_get. rewrite (proj2 (Z.leb_gt 0 _)); [done|].
  unfold MAX_COL. replace (getcursor (con s) - 80) with (- (80 - getcursor (con s))) by lia.
  rewrite Z.rem_opp_l, Z.rem_small by lia. lia.
Qed.

(** The key x moves one byte too many: the last byte of the line becomes the low
    byte of [len], so that the padding of the line fills up from its end. *)
Lemma rmch_leaks_len s s1 p :
  start s = [p] → node_ok p → 0 ≤ getcursor (con s) → rmch s = Ok tt s1 →
  ∃ p', start s1 = [p'] ∧ c p' !! 79%nat = Some (u8 (len p)).
Proof.
  intros Es Hp Hc E. unfold rmch, mbind, cm_bind, gets, selected in E.
  rewrite Es in E. cbn [seek lookup list_lookup] in E. unfold strlen_of in E.
  pose proof Hp as [Hl Hn]. rewrite node_ok_strlen in E by done. cbn [mret cm_ret] in E.
  assert (Hlt : (length (str p) < 80)%nat) by (by apply node_ok_str).
  rewrite (proj2 (Z.ltb_lt _ MAX_COL)) in E by (unfold MAX_COL; lia). cbn [cwhen update modify] in E.
  set (col := Z.to_nat (Z.rem (getcursor (con s)) MAX_COL)) in *.
  assert (Hcol : (col < 80)%nat) by (unfold col, MAX_COL; rewrite Z.rem_mod_nonneg by lia; dlia).
  set (p' := with_c _ p) in *. set (s2 := set_start _ s) in *.
  destruct (printtext 1 s2) as [[] s3| |] eqn:Ep; try done. injection E as <-.
  exists p'. split.
  - change (start s3 = [p']). rewrite (printtext_start _ _ _ _ Ep). unfold s2. cbn [start set_start].
    by rewrite Es.
  - unfold p'. cbn [c with_c]. rewrite lookup_app_r by (rewrite length_take; lia).
    rewrite length_take, Hl, lookup_take_lt by lia.
    rewrite lookup_drop, Nat.min_l by lia. replace (S col + (79 - col))%nat with 80%nat by lia.
    unfold line_bytes. by rewrite lookup_app_r, Hl by lia.
Qed.

End properties.

(** ** A file system of one file *)

Record one_file : Type := OneFile {
  of_path : list Z;
  of_data : list Z;
  of_open : option (bool * nat)        (* writable, offset *)
}.

#[export] Instance one_file_ops : Files one_file := {
  fopen path flags f :=
    if decide (path = of_path f)
    then (3, OneFile (of_path f) (of_data f) (Some (Z.testbit flags 0, 0%nat)))
    else (-1, f);
  ffstat fd f :=
    match of_open f with
    | Some _ => Some (T_FILE, Z.of_nat (length (of_data f)))
    | None => None
    end;
  fread fd n f :=
    match of_open f with
    | Some (false, off) =>
        let bs := take (Z.to_nat n) (drop off (of_data f)) in
        (bs, OneFile (of_path f) (of_data f) (Some (false, (off + length bs)%nat)))
    | _ => ([], f)
    end;
  fwrite fd d f :=
    match of_open f with
    | Some (true, off) =>
        (Z.of_nat (length d),
         OneFile (of_path f) (take off (of_data f) ++ d ++ drop (off + length d) (of_data f))
           (Some (true, (off + length d)%nat)))
    | _ => (-1, f)
    end;
  fclose fd f := OneFile (of_path f) (of_data f) None
}.

Definition of_holds (f : one_file) (path bs : list Z) : Prop :=
  of_path f = path ∧ of_data f = bs.
Definition of_opened (f : one_file) (fd : Z) (path : list Z) (wr : bool) (off : nat) (bs : list Z) : Prop :=
  of_path f = path ∧ of_data f = bs ∧ of_open f = Some (wr, off).

#[export] Instance one_file_ok : FilesOk one_file.
Proof.
  refine (Build_FilesOk one_file _ of_holds of_opened 4096 _ _ _ _ _).
  - intros f path flags bs [<- <-]. simpl. rewrite decide_True by done. by split_and!.
  - intros f fd path wr off bs (_ & <- & E). simpl. by rewrite E.
  - intros f fd path off bs n (<- & <- & E) Hn. simpl. rewrite E. by split_and!.
  - intros f fd path off bs d (<- & <- & E) Ho Hc. simpl. rewrite E. by split_and!.
  - intros f fd path wr off bs (<- & <- & _). by split.
Defined.

Definition name1 : list Z := [102].

(** The editor started on a file with the given contents and keyboard input. *)
Definition started (bs : list Z) (ks : list key) : vim one_file :=
  Vim boot (OneFile name1 bs None) [] 0 1 V_READONLY ks [0] 100.

(** ** Witnesses *)

Lemma boot_term_ok : term_ok boot.
Proof. by split_and!. Qed.

Lemma vim_open_save_witness :
  returns ((r1 ← readfile 4000 (Some name1); r2 ← writefile (Some name1); mret (r1, r2))
      (started [104; 105; 10; 10; 120] []))
    (λ r s', r = (0, 0) ∧ text (start s') = [104; 105; 10; 10; 120] ∧
             holds (files s') name1 [104; 105; 10; 10; 120]).
Proof.
  apply (vim_open_save 4000 name1 [104; 105; 10; 10; 120] (started [104; 105; 10; 10; 120] []));
    solve [done | simpl; lia | vm_compute; lia | apply boot_term_ok].
Defined.

(** Typing "xyz" and quitting without saving. *)
Definition quitting : vim one_file :=
  started [] (KByte <$> [105; 120; 121; 122; 27; 58; 113; 10]).

Definition quitting_open : vim one_file :=
  match readfile 4000 (Some name1) (initctx quitting) with Ok _ s => s | _ => quitting end.

Lemma quitting_opens : readfile 4000 (Some name1) (initctx quitting) = Ok 0 quitting_open.
Proof. vm_compute. reflexivity. Qed.

Lemma vim_exit_restores_screen_witness :
  match main 4000 0 (Some name1) quitting with
  | Ok _ s' =>
      buffering (con s') = EXIT_VIM ∧ getcursor (con s') = getcursor (con quitting_open) ∧
      ∀ i, 0 ≤ i < MAX_CHAR →
        (i ≠ getcursor (con quitting_open) → crt (con s') i = crt (con quitting_open) i) ∧
        u8 (crt (con s') i) = u8 (crt (con quitting_open) i)
  | Panic _ => True
  | Ub what => what ≠ "fuel"%string
  end.
Proof.
  apply (vim_exit_restores_screen 4000 0 (Some name1) quitting _ quitting_opens);
    vm_compute; [|split]; congruence.
Defined.

Lemma vim_types_into_file_witness :
  returns (main 4000 0 (Some name1) (started [] (session [104; 101; 108; 108; 111])))
    (λ _ s', holds (files s') name1 [104; 101; 108; 108; 111]).
Proof.
  apply (vim_types_into_file 4000 name1 [104; 101; 108; 108; 111]
    (started [] (session [104; 101; 108; 108; 111])));
    solve [done | simpl; lia | vm_compute; lia | apply boot_term_ok | by repeat constructor].
Defined.

Definition full_line : vim one_file :=
  set_mode V_INSERT (set_start [Line (pad (replicate 79 97)) 79 1 1]
    (set_con (write_cursor 79 boot) (started [] []))).

