(* ===== verification/Bytes.v ===== *)
(** * Little-endian words in byte arrays

    The kernel reads and writes structures in disk blocks through pointers into
    the 512 bytes of a buffer.  [load k data off] is the [k]-byte unsigned integer at
    byte [off], [store k data off v] the array with it replaced. *)
From S2P Require Import Prelude.

Fixpoint le_bytes (k : nat) (v : Z) : list Z :=
  match k with
  | O => []
  | S k' => v mod 256 :: le_bytes k' (v / 256)
  end.

Fixpoint le_val (l : list Z) : Z :=
  match l with
  | [] => 0
  | b :: l' => b + 256 * le_val l'
  end.

Definition load (k : nat) (data : list Z) (off : nat) : Z := le_val (take k (drop off data)).

Definition store (k : nat) (data : list Z) (off : nat) (v : Z) : list Z :=
  take off data ++ le_bytes k v ++ drop (off + k) data.

(** An array of 4-byte words at byte [off]. *)
Definition load_words (data : list Z) (off n : nat) : list Z :=
  (λ j, load 4 data (off + 4 * j)) <$> seq 0 n.

Fixpoint store_words (data : list Z) (off : nat) (ws : list Z) : list Z :=
  match ws with
  | [] => data
  | w :: ws' => store_words (store 4 data off w) (off + 4) ws'
  end.

Lemma length_le_bytes k v : length (le_bytes k v) = k.
Proof. revert v. induction k as [|k IH]; intros v; simpl; [done|]. by rewrite IH. Qed.

Lemma le_val_bytes k v : 0 ≤ v < 256 ^ Z.of_nat k → le_val (le_bytes k v) = v.
Proof.
  revert v. induction k as [|k IH]; intros v Hv; [simpl in *; lia|]. cbn [le_bytes le_val].
  rewrite Nat2Z.inj_succ, Z.pow_succ_r in Hv by lia.
  rewrite IH; [dlia|]. split; [dlia|]. apply Z.div_lt_upper_bound; lia.
Qed.

Lemma le_val_range l : Forall (λ b, 0 ≤ b < 256) l → 0 ≤ le_val l < 256 ^ Z.of_nat (length l).
Proof.
  induction 1 as [|b l Hb _ IH]; [done|]. cbn [le_val length].
  rewrite Nat2Z.inj_succ, Z.pow_succ_r by lia. lia.
Qed.

Lemma length_store k data off v : (off + k ≤ length data)%nat → length (store k data off v) = length data.
Proof.
  intros. unfold store. rewrite !length_app, length_take, length_drop, length_le_bytes. lia.
Qed.

Lemma load_store_eq k data off v :
  (off + k ≤ length data)%nat → 0 ≤ v < 256 ^ Z.of_nat k → load k (store k data off v) off = v.
Proof.
  intros Hl Hv. unfold load, store. rewrite drop_app_ge by (rewrite length_take; lia).
  rewrite length_take, Nat.min_l, Nat.sub_diag, drop_0 by lia.
  rewrite take_app_le by (rewrite length_le_bytes; lia).
  rewrite take_ge by (rewrite length_le_bytes; lia). by apply le_val_bytes.
Qed.

Lemma load_store_ne k j data off off' v :
  (off + k ≤ length data)%nat → (off' + j ≤ off ∨ off + k ≤ off')%nat →
  load j (store k data off v) off' = load j data off'.
Proof.
  intros Hl Hd. unfold load, store. f_equal. apply list_eq. intros i.
  destruct (decide (i < j)%nat) as [Hi|Hi]; [|rewrite !lookup_take_ge by lia; done].
  rewrite !lookup_take_lt, !lookup_drop by lia.
  destruct Hd as [Hd|Hd].
  - rewrite lookup_app_l by (rewrite length_take; lia). by rewrite lookup_take_lt by lia.
  - rewrite lookup_app_r by (rewrite length_take; lia).
    rewrite length_take, Nat.min_l by lia.
    rewrite lookup_app_r by (rewrite length_le_bytes; lia).
    rewrite length_le_bytes, lookup_drop. f_equal. lia.
Qed.

Lemma length_store_words data off ws :
  (off + 4 * length ws ≤ length data)%nat → length (store_words data off ws) = length data.
Proof.
  revert data off. induction ws as [|w ws IH]; intros data off Hl; [done|]. cbn [store_words length] in *.
  rewrite IH; rewrite length_store; lia.
Qed.

Lemma load_store_words_ne j data off off' ws :
  (off + 4 * length ws ≤ length data)%nat → (off' + j ≤ off ∨ off + 4 * length ws ≤ off')%nat →
  load j (store_words data off ws) off' = load j data off'.
Proof.
  revert data off. induction ws as [|w ws IH]; intros data off Hl Hd; [done|]. cbn [store_words length] in *.
  rewrite IH by (rewrite ?length_store; lia). apply load_store_ne; lia.
Qed.

Lemma load_words_store_words data off ws :
  (off + 4 * length ws ≤ length data)%nat → Forall (λ w, 0 ≤ w < 2 ^ 32) ws →
  load_words (store_words data off ws) off (length ws) = ws.
Proof.
  revert data off. induction ws as [|w ws IH]; intros data off Hl Hw; [done|].
  apply Forall_cons in Hw as [Hw Hws]. cbn [store_words length] in *. unfold load_words.
  cbn [seq fmap list_fmap]. f_equal.
  - rewrite Nat.mul_0_r, Nat.add_0_r, load_store_words_ne by (rewrite ?length_store; lia).
    apply load_store_eq; [lia|done].
  - rewrite <- (IH (store 4 data off w) (off + 4)%nat) at 2; [|rewrite length_store; lia|done].
    unfold load_words. rewrite <- fmap_S_seq, <- list_fmap_compose. apply list_fmap_ext.
    intros i j _. unfold compose. f_equal. lia.
Qed.

Lemma le_bytes_bytes k v : Forall (λ b, 0 ≤ b < 256) (le_bytes k v).
Proof. revert v. induction k as [|k IH]; intros v; constructor; [dlia|apply IH]. Qed.

Lemma store_bytes k data off v :
  Forall (λ b, 0 ≤ b < 256) data → Forall (λ b, 0 ≤ b < 256) (store k data off v).
Proof.
  intros Hd. unfold store. rewrite !Forall_app. split_and!;
    [by apply Forall_take|apply le_bytes_bytes|by apply Forall_drop].
Qed.

Lemma store_words_bytes data off ws :
  Forall (λ b, 0 ≤ b < 256) data → Forall (λ b, 0 ≤ b < 256) (store_words data off ws).
Proof.
  revert data off. induction ws as [|w ws IH]; intros data off Hd; [done|]. by apply IH, store_bytes.
Qed.

Lemma load_range k data off :
  (off + k ≤ length data)%nat → Forall (λ b, 0 ≤ b < 256) data → 0 ≤ load k data off < 256 ^ Z.of_nat k.
Proof.
  intros Hl Hd. unfold load. pose proof (le_val_range (take k (drop off data))) as Hr.
  rewrite length_take, length_drop, Nat.min_l in Hr by lia. by apply Hr, Forall_take, Forall_drop.
Qed.

#[export] Hint Rewrite length_store using lia : xv6.

(** ** Fields of structures in memory *)

(** The [k]-byte integer at address [a]. *)
Definition field (k : nat) (m : Z → Z) (a : Z) : Z := le_val ((λ j, m (a + Z.of_nat j)) <$> seq 0 k).

Lemma field_range k f a : (∀ i, 0 ≤ f i < 256) → 0 ≤ field k f a < 256 ^ Z.of_nat k.
Proof.
  intros H. unfold field. pose proof (le_val_range ((λ j, f (a + Z.of_nat j)) <$> seq 0 k)) as R.
  rewrite length_fmap, length_seq in R. apply R. apply Forall_fmap, Forall_true. intros j. apply H.
Qed.
