(* ===== verification/Ata.v ===== *)
(** * The disk controller, as its drivers see it

    The instructions [inb], [outb], [insl] and [outsl] of [src/x86.h] on a machine, as the class [Ports], and what the boot loader
    ([src/bootmain.c]) and the driver ([src/ide.c]) rely on of an ATA controller behind them, as the class [AtaOk]: single-sector
    transfers by programmed input and output, on a controller that reports no errors and takes the data of a write as soon
    as the command is given.  (An ATA controller may make the host wait until it asks for the data; [ide.c] does
    not.)  A machine that fulfils the laws, with a controller that is busy
    for a while after each command, is [AtaExample]. *)
From S2P Require Import Prelude Bytes.

Class Ports (C : Type) : Type := {
  inb : Z → C → Z * C;
  outb : Z → Z → C → C;
  insl : Z → Z → C → list Z * C;
  outsl : Z → list Z → C → C
}.

Section ports.
Context {C : Type} {ports : Ports C}.
Definition in8 (p : Z) : cm C Z := λ c, let r := inb p c in Ok r.1 r.2.
Definition out8 (p v : Z) : cm C unit := modify (outb p v).
Definition in_words (p n : Z) : cm C (list Z) := λ c, let r := insl p n c in Ok r.1 r.2.
Definition out_words (p : Z) (d : list Z) : cm C unit := modify (outsl p d).
End ports.

(** ** The state behind the ports

    Ports 0x1f2 to 0x1f6 are registers: the number of sectors, the number of the sector in three bytes and four bits, and in bit 4 of
    the last one the drive.  A command on port 0x1f7 starts a transfer. *)
Inductive transfer : Type := Idle | Sends (drive sector : Z).

Record ata : Type := Ata {
  a_has : Z → bool;          (* the drives attached *)
  a_disk : Z → Z → list Z;   (* drive, sector *)
  a_reg : Z → Z;
  a_op : transfer
}.

Definition set_reg (p v : Z) (a : ata) : ata := Ata (a_has a) (a_disk a) (upd (a_reg a) p v) (a_op a).
Definition set_op (o : transfer) (a : ata) : ata := Ata (a_has a) (a_disk a) (a_reg a) o.
Definition drive (a : ata) : Z := Z.land (Z.shiftr (a_reg a 0x1f6) 4) 1.
Definition sector (a : ata) : Z :=
  a_reg a 0x1f3 + 2 ^ 8 * a_reg a 0x1f4 + 2 ^ 16 * a_reg a 0x1f5 + 2 ^ 24 * Z.land (a_reg a 0x1f6) 0x0f.
Definition store_sector (d : list Z) (a : ata) : ata :=
  Ata (a_has a) (λ dr, if dr =? drive a then upd (a_disk a dr) (sector a) d else a_disk a dr) (a_reg a) Idle.

(** Registers that take effect when written. *)
Definition is_reg (p : Z) : bool := ((0x1f2 <=? p) && (p <=? 0x1f6)) || (p =? 0x3f6).

(** The status says that the drive is neither busy nor absent. *)
Definition ready_status (r : Z) : bool := Z.land r 0xC0 =? 0x40.

Section polled.
Context {C : Type} {ports : Ports C}.

(** The status is read [n] times in vain and then says ready. *)
Inductive polled : nat → C → Z → C → Prop :=
| polled_now c : ready_status (inb 0x1f7 c).1 = true → polled 0 c (inb 0x1f7 c).1 (inb 0x1f7 c).2
| polled_later n c r c' : ready_status (inb 0x1f7 c).1 = false → polled n (inb 0x1f7 c).2 r c' → polled (S n) c r c'.
End polled.

(** [at_work a c]: the controller may be busy; [at_rest a c]: its status was ready since the last command.  After at most [polls] reads
    of the status a busy drive is ready, without an error.  The data of a write is taken as soon as the command is given: [idestart]
    does not wait for the controller to ask for it. *)
Class AtaOk (C : Type) `{Ports C} (polls : nat) : Type := {
  at_work : ata → C → Prop;
  at_rest : ata → C → Prop;
  ata_work a c : at_rest a c → at_work a c;
  ata_poll a c : at_work a c → a_has a (drive a) = true →
    ∃ n r c', (n < polls)%nat ∧ polled n c r c' ∧ Z.land r 0x21 = 0 ∧ at_rest a c';
  ata_ready a c : at_rest a c → a_has a (drive a) = true → ready_status (inb 0x1f7 c).1 = true ∧ at_rest a (inb 0x1f7 c).2;
  ata_absent a c : at_rest a c → a_has a (drive a) = false → (inb 0x1f7 c).1 = 0 ∧ at_rest a (inb 0x1f7 c).2;
  ata_reg a c p v : at_rest a c → is_reg p = true → 0 ≤ v < 256 → at_rest (set_reg p v a) (outb p v c);
  ata_read a c : at_rest a c → a_op a = Idle → a_has a (drive a) = true → a_reg a 0x1f2 = 1 →
    at_work (set_op (Sends (drive a) (sector a)) a) (outb 0x1f7 0x20 c);
  ata_write a c d : at_rest a c → a_op a = Idle → a_has a (drive a) = true → a_reg a 0x1f2 = 1 → length d = 512%nat →
    at_work (store_sector d a) (outsl 0x1f0 d (outb 0x1f7 0x30 c));
  ata_data a c dr se : at_rest a c → a_op a = Sends dr se →
    (insl 0x1f0 128 c).1 = a_disk a dr se ∧ at_rest (set_op Idle a) (insl 0x1f0 128 c).2
}.

(** ** A controller

    Three reads of the status after a command say busy. *)
Module AtaExample.

Record chip : Type := Chip { chip_ata : ata; chip_busy : nat; chip_taking : bool }.

Definition chip_in (p : Z) (c : chip) : Z * chip :=
  if negb (p =? 0x1f7) then (0, c) else
  if negb (a_has (chip_ata c) (drive (chip_ata c))) then (0, c) else
  match chip_busy c with
  | O => (0x50, c)
  | S n => (0x80, Chip (chip_ata c) n (chip_taking c))
  end.

Definition chip_out (p v : Z) (c : chip) : chip :=
  if is_reg p then Chip (set_reg p v (chip_ata c)) (chip_busy c) (chip_taking c)
  else if negb (p =? 0x1f7) then c
  else if v =? 0x20 then Chip (set_op (Sends (drive (chip_ata c)) (sector (chip_ata c))) (chip_ata c)) 3 false
  else if v =? 0x30 then Chip (chip_ata c) 3 true
  else c.

Definition chip_insl (p n : Z) (c : chip) : list Z * chip :=
  match a_op (chip_ata c) with
  | Idle => (replicate 512 0, c)
  | Sends dr se => (a_disk (chip_ata c) dr se, Chip (set_op Idle (chip_ata c)) (chip_busy c) (chip_taking c))
  end.

Definition chip_outsl (p : Z) (d : list Z) (c : chip) : chip :=
  if chip_taking c then Chip (store_sector d (chip_ata c)) (chip_busy c) false else c.

#[export] Instance chip_ports : Ports chip := {| inb := chip_in; outb := chip_out; insl := chip_insl; outsl := chip_outsl |}.

Definition works (a : ata) (c : chip) : Prop := chip_ata c = a ∧ (chip_busy c ≤ 3)%nat ∧ chip_taking c = false.
Definition rests (a : ata) (c : chip) : Prop := chip_ata c = a ∧ chip_busy c = 0%nat ∧ chip_taking c = false.

Lemma chip_poll a c : works a c → a_has a (drive a) = true →
  ∃ n r c', (n < 4)%nat ∧ polled n c r c' ∧ Z.land r 0x21 = 0 ∧ rests a c'.
Proof.
  destruct c as [a' n t]. intros (E & Hn & Ht) Hd. cbn in *. subst a' t. exists n, 0x50, (Chip a 0 false).
  split; [lia|]. split; [|by split]. clear Hn. induction n as [|n IH].
  - assert (E : inb 0x1f7 (Chip a 0 false) = (0x50, Chip a 0 false)) by (cbn; unfold chip_in; cbn; by rewrite Hd).
    pose proof (polled_now (Chip a 0 false)) as P. rewrite E in P. by apply P.
  - assert (E : inb 0x1f7 (Chip a (S n) false) = (0x80, Chip a n false)) by (cbn; unfold chip_in; cbn; by rewrite Hd).
    apply polled_later; rewrite E; [done|exact IH].
Qed.

#[export] Instance chip_ok : AtaOk chip 4.
Proof.
  refine {| at_work := works; at_rest := rests |}.
  - intros a c (? & E & ?). split_and!; [done|lia|done].
  - exact chip_poll.
  - intros a c (<- & E & Ht) Ha. cbn. unfold chip_in. cbn. rewrite Ha, E. done.
  - intros a c (<- & E & Ht) Ha. cbn. unfold chip_in. cbn. by rewrite Ha.
  - intros a c p v (<- & E & Ht) Hp _. cbn. unfold chip_out. by rewrite Hp.
  - intros a c (<- & E & Ht) _ _ _. cbn. by split_and!.
  - intros a c d (<- & E & Ht) _ _ _ _. cbn. by split_and!.
  - intros a c dr se (<- & E & Ht) Ho. cbn. unfold chip_insl. rewrite Ho. by split_and!.
Defined.
End AtaExample.
