(* ===== verification/Irq.v ===== *)
(** * Interrupt controllers and the clock

    [src/ioapic.c], [src/lapic.c] and [src/picirq.c] over a machine with ports ([Ports]) and device registers in memory ([Mmio]).
    The I/O APIC has a register that selects and one that holds the value of the register selected ([IoapicOk]); the real-time clock
    answers for the register selected through port 0x70 ([ClockOk]).

    Lemmas: the I/O APIC starts with every line masked, and [ioapicenable] opens exactly one line, for one CPU;
    [lapicinit] sets the timer and the spurious vector; the date [cmostime] reads is one that the clock showed. *)
From S2P Require Import Prelude Bytes Ata.

Definition T_IRQ0 : Z := 32.
Definition IRQ_TIMER : Z := 0.
Definition IRQ_KBD : Z := 1.
Definition IRQ_COM1 : Z := 4.
Definition IRQ_IDE : Z := 14.
Definition IRQ_ERROR : Z := 19.
Definition IRQ_SPURIOUS : Z := 31.

(** Registers at addresses. *)
Class Mmio (C : Type) : Type := {
  mmio_read : Z → C → Z * C;
  mmio_write : Z → Z → C → C;
  mmio_write16 : Z → Z → C → C
}.

(** ** The I/O APIC *)

Definition IOAPIC : Z := 0xFEC00000.
Definition REG_ID : Z := 0x00.
Definition REG_VER : Z := 0x01.
Definition REG_TABLE : Z := 0x10.
Definition INT_DISABLED : Z := 0x10000.

Section devices.
Context {C : Type} {ports : Ports C} {mmio : Mmio C}.

Definition load32 (a : Z) : cm C Z := λ c, let r := mmio_read a c in Ok r.1 r.2.
Definition store32 (a v : Z) : cm C unit := modify (mmio_write a v).
Definition store16 (a v : Z) : cm C unit := modify (mmio_write16 a v).

(** [ioapic->reg] is at offset 0, [ioapic->data] at 16. *)
Definition ioapicread (reg : Z) : cm C Z := store32 IOAPIC reg ;; load32 (IOAPIC + 16).
Definition ioapicwrite (reg data : Z) : cm C unit := store32 IOAPIC reg ;; store32 (IOAPIC + 16) data.

Fixpoint ioapic_mask (n : nat) (i : Z) : cm C unit :=
  match n with
  | O => mret tt
  | S n' =>
      ioapicwrite (REG_TABLE + 2 * i) (Z.lor INT_DISABLED (T_IRQ0 + i)) ;;
      ioapicwrite (REG_TABLE + 2 * i + 1) 0 ;;
      ioapic_mask n' (i + 1)
  end.

(** Whether it prints that the identifier is not the one of the configuration table. *)
Definition ioapicinit (ioapicid : Z) : cm C bool :=
  v ← ioapicread REG_VER;
  let maxintr := Z.land (Z.shiftr v 16) 0xFF in
  w ← ioapicread REG_ID;
  let id := Z.shiftr w 24 in
  ioapic_mask (Z.to_nat (maxintr + 1)) 0 ;;
  mret (negb (id =? ioapicid)).

Definition ioapicenable (irq cpunum : Z) : cm C unit :=
  ioapicwrite (REG_TABLE + 2 * irq) (T_IRQ0 + irq) ;;
  ioapicwrite (REG_TABLE + 2 * irq + 1) (u32 (Z.shiftl cpunum 24)).

(** ** The interrupt controllers that are not used *)

Definition IO_PIC1 : Z := 0x20.
Definition IO_PIC2 : Z := 0xA0.

Definition picinit : cm C unit := out8 (IO_PIC1 + 1) 0xFF ;; out8 (IO_PIC2 + 1) 0xFF.

(** ** The local APIC

    [lapic] is the address of its registers, or 0. *)
Definition LAPIC_ID : Z := 0x0020 / 4.
Definition VER : Z := 0x0030 / 4.
Definition TPR : Z := 0x0080 / 4.
Definition EOI : Z := 0x00B0 / 4.
Definition SVR : Z := 0x00F0 / 4.
Definition ENABLE : Z := 0x100.
Definition ESR : Z := 0x0280 / 4.
Definition ICRLO : Z := 0x0300 / 4.
Definition INIT : Z := 0x500.
Definition STARTUP : Z := 0x600.
Definition DELIVS : Z := 0x1000.
Definition ASSERT : Z := 0x4000.
Definition LEVEL : Z := 0x8000.
Definition BCAST : Z := 0x80000.
Definition ICRHI : Z := 0x0310 / 4.
Definition TIMER : Z := 0x0320 / 4.
Definition X1 : Z := 0xB.
Definition PERIODIC : Z := 0x20000.
Definition PCINT : Z := 0x0340 / 4.
Definition LINT0 : Z := 0x0350 / 4.
Definition LINT1 : Z := 0x0360 / 4.
Definition ERROR : Z := 0x0370 / 4.
Definition MASKED : Z := 0x10000.
Definition TICR : Z := 0x0380 / 4.
Definition TDCR : Z := 0x03E0 / 4.

Definition lapicr (lapic index : Z) : cm C Z := load32 (lapic + 4 * index).
Definition lapicw (lapic index value : Z) : cm C unit :=
  store32 (lapic + 4 * index) value ;; lapicr lapic LAPIC_ID ;; mret tt.

(** [while(lapic[ICRLO] & DELIVS)]: how long is up to the APIC. *)
Fixpoint wait_delivered (fuel : nat) (lapic : Z) : cm C unit :=
  match fuel with
  | O => ub "loop"
  | S f => v ← lapicr lapic ICRLO; if negb (Z.land v DELIVS =? 0) then wait_delivered f lapic else mret tt
  end.

Definition lapicinit (fuel : nat) (lapic : Z) : cm C unit :=
  if lapic =? 0 then mret tt else
  lapicw lapic SVR (Z.lor ENABLE (T_IRQ0 + IRQ_SPURIOUS)) ;;
  lapicw lapic TDCR X1 ;;
  lapicw lapic TIMER (Z.lor PERIODIC (T_IRQ0 + IRQ_TIMER)) ;;
  lapicw lapic TICR 10000000 ;;
  lapicw lapic LINT0 MASKED ;;
  lapicw lapic LINT1 MASKED ;;
  v ← lapicr lapic VER;
  cwhen (4 <=? Z.land (Z.shiftr v 16) 0xFF) (lapicw lapic PCINT MASKED) ;;
  lapicw lapic ERROR (T_IRQ0 + IRQ_ERROR) ;;
  lapicw lapic ESR 0 ;;
  lapicw lapic ESR 0 ;;
  lapicw lapic EOI 0 ;;
  lapicw lapic ICRHI 0 ;;
  lapicw lapic ICRLO (Z.lor (Z.lor BCAST INIT) LEVEL) ;;
  wait_delivered fuel lapic ;;
  lapicw lapic TPR 0.

Definition lapicid (lapic : Z) : cm C Z :=
  if lapic =? 0 then mret 0 else v ← lapicr lapic LAPIC_ID; mret (Z.shiftr v 24).

Definition lapiceoi (lapic : Z) : cm C unit := cwhen (negb (lapic =? 0)) (lapicw lapic EOI 0).

(** The warm reset vector, in low memory. *)
Definition wrv : Z := 0x80000000 + Z.lor (Z.shiftl 0x40 4) 0x67.

Fixpoint startup_ipis (n : nat) (lapic apicid addr : Z) : cm C unit :=
  match n with
  | O => mret tt
  | S n' =>
      lapicw lapic ICRHI (i32 (Z.shiftl apicid 24)) ;;
      lapicw lapic ICRLO (Z.lor STARTUP (Z.shiftr addr 12)) ;;
      startup_ipis n' lapic apicid addr
  end.

Definition lapicstartap (lapic apicid addr : Z) : cm C unit :=
  out8 0x70 0xF ;;
  out8 0x71 0x0A ;;
  store16 wrv 0 ;;
  store16 (wrv + 2) (u16 (Z.shiftr addr 4)) ;;
  lapicw lapic ICRHI (i32 (Z.shiftl apicid 24)) ;;
  lapicw lapic ICRLO (Z.lor (Z.lor INIT LEVEL) ASSERT) ;;
  lapicw lapic ICRLO (Z.lor INIT LEVEL) ;;
  startup_ipis 2 lapic apicid addr.

(** ** The clock *)

Definition CMOS_PORT : Z := 0x70.
Definition CMOS_RETURN : Z := 0x71.
Definition CMOS_STATA : Z := 0x0a.
Definition CMOS_STATB : Z := 0x0b.
Definition CMOS_UIP : Z := Z.shiftl 1 7.
Definition SECS : Z := 0x00.
Definition MINS : Z := 0x02.
Definition HOURS : Z := 0x04.
Definition DAY : Z := 0x07.
Definition MONTH : Z := 0x08.
Definition YEAR : Z := 0x09.

Record rtcdate : Type := Date { second : Z; minute : Z; hour : Z; day : Z; month : Z; year : Z }.

Global Instance rtcdate_eq_dec : EqDecision rtcdate.
Proof. solve_decision. Defined.

Definition cmos_read (reg : Z) : cm C Z := out8 CMOS_PORT reg ;; in8 CMOS_RETURN.

Definition fill_rtcdate : cm C rtcdate :=
  s ← cmos_read SECS;
  m ← cmos_read MINS;
  h ← cmos_read HOURS;
  d ← cmos_read DAY;
  mo ← cmos_read MONTH;
  y ← cmos_read YEAR;
  mret (Date s m h d mo y).

Fixpoint read_date (fuel : nat) : cm C rtcdate :=
  match fuel with
  | O => ub "loop"
  | S f =>
      t1 ← fill_rtcdate;
      a ← cmos_read CMOS_STATA;
      if negb (Z.land a CMOS_UIP =? 0) then read_date f else
      t2 ← fill_rtcdate;
      if bool_decide (t1 = t2) then mret t1 else read_date f
  end.

Definition CONV (x : Z) : Z := u32 (Z.shiftr x 4 * 10 + Z.land x 0xf).

Definition cmostime (fuel : nat) : cm C rtcdate :=
  sb ← cmos_read CMOS_STATB;
  let bcd := Z.land sb (Z.shiftl 1 2) =? 0 in
  t ← read_date fuel;
  let t := if bcd then Date (CONV (second t)) (CONV (minute t)) (CONV (hour t)) (CONV (day t)) (CONV (month t)) (CONV (year t))
           else t in
  mret (Date (second t) (minute t) (hour t) (day t) (month t) (u32 (year t + 2000))).
End devices.

(** ** What the devices do

    The I/O APIC: [sel] is the register selected. *)
Class IoapicOk (C : Type) `{Mmio C} : Type := {
  io_at : Z → (Z → Z) → C → Prop;
  io_select sel regs c v : io_at sel regs c → io_at v regs (mmio_write IOAPIC v c);
  io_get sel regs c : io_at sel regs c → (mmio_read (IOAPIC + 16) c).1 = regs sel ∧ io_at sel regs (mmio_read (IOAPIC + 16) c).2;
  io_put sel regs c v : io_at sel regs c → io_at sel (upd regs sel v) (mmio_write (IOAPIC + 16) v c)
}.

Section ioapic.
Context {C : Type} {mmio : Mmio C} {laws : IoapicOk C}.

Lemma ioapicread_ok sel regs c reg : io_at sel regs c → ∃ c', ioapicread reg c = Ok (regs reg) c' ∧ io_at reg regs c'.
Proof.
  intros H%(io_select _ _ _ reg). destruct (io_get _ _ _ H) as [E H']. eexists. split; [|exact H'].
  unfold ioapicread, store32. rewrite bind_modify. unfold load32. by rewrite E.
Qed.

Lemma ioapicwrite_ok sel regs c reg v :
  io_at sel regs c → ∃ c', ioapicwrite reg v c = Ok tt c' ∧ io_at reg (upd regs reg v) c'.
Proof.
  intros H%(io_select _ _ _ reg)%(io_put _ _ _ v). eexists. split; [|exact H]. unfold ioapicwrite, store32. by rewrite bind_modify.
Qed.

(** The pair of registers of line [i]. *)
Definition line (regs : Z → Z) (i : Z) : Z * Z := (regs (REG_TABLE + 2 * i), regs (REG_TABLE + 2 * i + 1)).

Lemma line_upd regs i v w j :
  line (upd (upd regs (REG_TABLE + 2 * i) v) (REG_TABLE + 2 * i + 1) w) j = if j =? i then (v, w) else line regs j.
Proof.
  unfold line. destruct (Z.eqb_spec j i) as [->|Hj].
  - by rewrite (upd_ne _ (_ + 1) w (REG_TABLE + 2 * i)), !upd_eq by lia.
  - by rewrite !upd_ne by lia.
Qed.

Lemma ioapic_mask_ok n : ∀ i sel regs c, io_at sel regs c →
  ∃ sel' regs' c', ioapic_mask n i c = Ok tt c' ∧ io_at sel' regs' c' ∧
    ∀ j, line regs' j = if (i <=? j) && (j <? i + Z.of_nat n) then (Z.lor INT_DISABLED (T_IRQ0 + j), 0) else line regs j.
Proof.
  induction n as [|n IH]; intros i sel regs c H.
  - exists sel, regs, c. split_and!; [done|done|]. intros j. destruct (Z.leb_spec i j), (Z.ltb_spec j (i + Z.of_nat 0)); done || lia.
  - cbn [ioapic_mask]. destruct (ioapicwrite_ok _ _ _ (REG_TABLE + 2 * i) (Z.lor INT_DISABLED (T_IRQ0 + i)) H) as (c1 & E1 & H1).
    destruct (ioapicwrite_ok _ _ _ (REG_TABLE + 2 * i + 1) 0 H1) as (c2 & E2 & H2).
    destruct (IH (i + 1) _ _ _ H2) as (sel' & regs' & c' & E & H' & L).
    exists sel', regs', c'. rewrite (bind_ok _ _ _ _ _ E1), (bind_ok _ _ _ _ _ E2). split_and!; [done|done|].
    intros j. rewrite L, line_upd. destruct (Z.eqb_spec j i) as [->|Hj].
    + by rewrite (proj2 (Z.leb_gt (i + 1) i)), (proj2 (Z.leb_le i i)), (proj2 (Z.ltb_lt i (i + Z.of_nat (S n)))) by lia.
    + replace ((i + 1 <=? j) && (j <? i + 1 + Z.of_nat n)) with ((i <=? j) && (j <? i + Z.of_nat (S n))); [done|].
      destruct (Z.leb_spec i j), (Z.leb_spec (i + 1) j), (Z.ltb_spec j (i + Z.of_nat (S n))), (Z.ltb_spec j (i + 1 + Z.of_nat n)); done || lia.
Qed.

(** [ioapicinit] masks every line the controller has. *)
Lemma ioapicinit_masks sel regs c id :
  io_at sel regs c →
  ∃ b sel' regs' c', ioapicinit id c = Ok b c' ∧ io_at sel' regs' c' ∧
    ∀ j, line regs' j = if (0 <=? j) && (j <? Z.land (Z.shiftr (regs REG_VER) 16) 0xFF + 1)
                        then (Z.lor INT_DISABLED (T_IRQ0 + j), 0) else line regs j.
Proof.
  intros H. unfold ioapicinit. destruct (ioapicread_ok _ _ _ REG_VER H) as (c1 & E1 & H1). rewrite (bind_ok _ _ _ _ _ E1).
  destruct (ioapicread_ok _ _ _ REG_ID H1) as (c2 & E2 & H2). rewrite (bind_ok _ _ _ _ _ E2).
  set (m := Z.land _ 255). destruct (ioapic_mask_ok (Z.to_nat (m + 1)) 0 _ _ _ H2) as (sel' & regs' & c' & E & H' & L).
  eexists _, sel', regs', c'. rewrite (bind_ok _ _ _ _ _ E). split_and!; [done|done|]. intros j. rewrite L.
  assert (0 ≤ m) by (unfold m; apply Z.land_nonneg; right; lia). by rewrite Z2Nat.id by lia.
Qed.

(** [ioapicenable] opens one line, for one CPU, and leaves the others as they are. *)
Lemma ioapicenable_opens sel regs c irq cpu :
  io_at sel regs c →
  ∃ sel' regs' c', ioapicenable irq cpu c = Ok tt c' ∧ io_at sel' regs' c' ∧
    ∀ j, line regs' j = if j =? irq then (T_IRQ0 + irq, u32 (Z.shiftl cpu 24)) else line regs j.
Proof.
  intros H. unfold ioapicenable. destruct (ioapicwrite_ok _ _ _ (REG_TABLE + 2 * irq) (T_IRQ0 + irq) H) as (c1 & E1 & H1).
  destruct (ioapicwrite_ok _ _ _ (REG_TABLE + 2 * irq + 1) (u32 (Z.shiftl cpu 24)) H1) as (c2 & E2 & H2).
  eexists _, _, c2. rewrite (bind_ok _ _ _ _ _ E1). split_and!; [done|done|]. intros j. apply line_upd.
Qed.
End ioapic.

(** The local APIC at [lapic]: registers, of which [ICRLO] says for at most [pend] reads after a write that the
    interrupt is not delivered yet; [n] of them are left. *)
Class LapicOk (C : Type) `{Mmio C} (lapic : Z) (pend : nat) : Type := {
  la_at : (Z → Z) → nat → C → Prop;
  la_put regs n c i v : la_at regs n c → 0 ≤ i < 1024 → ∃ n', (n' ≤ pend)%nat ∧ la_at (upd regs i v) n' (mmio_write (lapic + 4 * i) v c);
  la_get regs n c i : la_at regs n c → 0 ≤ i < 1024 → i ≠ ICRLO →
    (mmio_read (lapic + 4 * i) c).1 = regs i ∧ la_at regs n (mmio_read (lapic + 4 * i) c).2;
  la_icr regs n c : la_at regs n c →
    la_at regs (pred n) (mmio_read (lapic + 4 * ICRLO) c).2 ∧
    (Z.land (mmio_read (lapic + 4 * ICRLO) c).1 DELIVS = 0 ↔ n = 0%nat)
}.

Section lapic.
Context {C : Type} {mmio : Mmio C} (lapic : Z) (pend : nat) {laws : LapicOk C lapic pend}.

(** The registers stand for [regs], whatever is pending. *)
Definition lapic_at (regs : Z → Z) (c : C) : Prop := ∃ n, (n ≤ pend)%nat ∧ la_at regs n c.

Lemma lapicw_ok regs c i v : lapic_at regs c → 0 ≤ i < 1024 → ∃ c', lapicw lapic i v c = Ok tt c' ∧ lapic_at (upd regs i v) c'.
Proof.
  intros (n & Hn & H) Hi. destruct (la_put _ _ _ i v H Hi) as (n' & Hn' & H').
  destruct (la_get _ _ _ LAPIC_ID H' ltac:(done) ltac:(done)) as [_ H2]. eexists. split; [|exists n'; split; [done|exact H2]].
  unfold lapicw, store32. by rewrite bind_modify.
Qed.

Lemma wait_delivered_ok n : ∀ regs c fuel, la_at regs n c → (n < fuel)%nat →
  ∃ c', wait_delivered fuel lapic c = Ok tt c' ∧ la_at regs 0 c'.
Proof.
  induction n as [|n IH]; intros regs c [|fuel] H Hf; try lia; destruct (la_icr _ _ _ H) as [H' Hd]; cbn [wait_delivered];
    unfold lapicr, load32, mbind, cm_bind.
  - rewrite (proj2 Hd eq_refl). cbn [Z.eqb negb]. by eexists.
  - assert (Hz : Z.land (mmio_read (lapic + 4 * ICRLO) c).1 DELIVS ≠ 0) by (intros Hz; by apply Hd in Hz).
    rewrite (proj2 (Z.eqb_neq _ 0) Hz). cbn [negb]. apply IH; [exact H'|lia].
Qed.

(** The next write to a register. *)
Ltac lapic_step H c H' :=
  match type of H with lapic_at ?regs ?c0 =>
    let E := fresh "E" in
    match goal with |- context [(lapicw lapic ?i ?v ≫= _) c0] =>
      destruct (lapicw_ok regs c0 i v H ltac:(done)) as (c & E & H'); rewrite (bind_ok _ _ _ _ _ E); clear E H
    end
  end.

(** [lapicinit] enables the APIC, with the timer at vector 32, the local lines masked and all priorities accepted. *)
Lemma lapicinit_sets regs c fuel :
  lapic ≠ 0 → lapic_at regs c → (pend < fuel)%nat →
  ∃ regs' c', lapicinit fuel lapic c = Ok tt c' ∧ lapic_at regs' c' ∧
    regs' SVR = Z.lor ENABLE 63 ∧ regs' TIMER = Z.lor PERIODIC 32 ∧ regs' TICR = 10000000 ∧ regs' TDCR = X1 ∧
    regs' LINT0 = MASKED ∧ regs' LINT1 = MASKED ∧ regs' ERROR = 51 ∧ regs' TPR = 0 ∧
    (4 ≤ Z.land (Z.shiftr (regs VER) 16) 0xFF → regs' PCINT = MASKED) ∧ (∀ i, i ∉ [SVR; TDCR; TIMER; TICR; LINT0; LINT1; PCINT; ERROR; ESR; EOI; ICRHI; ICRLO; TPR] → regs' i = regs i).
Proof.
  intros Hl H Hf. unfold lapicinit. rewrite (proj2 (Z.eqb_neq _ 0) Hl).
  lapic_step H c1 H1. lapic_step H1 c2 H2. lapic_step H2 c3 H3. lapic_step H3 c4 H4. lapic_step H4 c5 H5. lapic_step H5 c6 H6.
  destruct H6 as (n & Hn & H6). destruct (la_get _ _ _ VER H6 ltac:(done) ltac:(done)) as [Ev H7].
  assert (Er : lapicr lapic VER c6 = Ok (regs VER) (mmio_read (lapic + 4 * VER) c6).2).
  { unfold lapicr, load32. rewrite Ev. done. }
  rewrite (bind_ok _ _ _ _ _ Er). clear Er Ev H6. set (c7 := (mmio_read _ c6).2) in *.
  set (r6 := upd _ LINT1 _) in *. assert (H7' : lapic_at r6 c7) by (by exists n). clear H7 Hn n.
  set (k := 4 <=? _).
  assert (∃ c8 r8, cwhen k (lapicw lapic PCINT MASKED) c7 = Ok tt c8 ∧ lapic_at r8 c8 ∧ r8 = if k then upd r6 PCINT MASKED else r6) as (c8 & r8 & E8 & H8 & Er8).
  { unfold cwhen. destruct k; [|by eexists c7, r6]. destruct (lapicw_ok r6 c7 PCINT MASKED H7' ltac:(done)) as (c8 & E & H8). by exists c8, (upd r6 PCINT MASKED). }
  rewrite (bind_ok _ _ _ _ _ E8). clear E8 H7'.
  lapic_step H8 c9 H9. lapic_step H9 c10 H10. lapic_step H10 c11 H11. lapic_step H11 c12 H12. lapic_step H12 c13 H13. lapic_step H13 c14 H14.
  destruct H14 as (n & Hn & H14). destruct (wait_delivered_ok n _ _ fuel H14 ltac:(lia)) as (c15 & E15 & H15). rewrite (bind_ok _ _ _ _ _ E15).
  destruct (lapicw_ok _ c15 TPR 0 (ex_intro _ 0%nat (conj (Nat.le_0_l _) H15)) ltac:(done)) as (c16 & E16 & H16).
  eexists _, c16. rewrite E16. split; [done|]. split; [exact H16|].
  assert (Hk : ∀ i, i ≠ PCINT → r8 i = r6 i) by (intros i Hi; rewrite Er8; destruct k; [by apply upd_ne|done]).
  split_and!; try (repeat (rewrite upd_eq || rewrite upd_ne by done)); try (rewrite Hk by done; unfold r6; repeat (rewrite upd_eq || rewrite upd_ne by done); reflexivity); try reflexivity.
  - intros Hv. subst k. rewrite Er8, (proj2 (Z.leb_le 4 _) Hv). by rewrite upd_eq.
  - intros i Hi. rewrite !not_elem_of_cons in Hi. destruct Hi as (?&?&?&?&?&?&?&?&?&?&?&?&?&_).
    rewrite !upd_ne by congruence. rewrite Hk by done. unfold r6. by rewrite !upd_ne by congruence.
Qed.
End lapic.

(** The clock shows the date [d], in binary-coded decimal if [bcd]; [k] more times it may advance while it is read, and [u] more
    times it may say that an update is in progress. *)
Definition shown (bcd : bool) (x : Z) : Z := if bcd then x / 10 * 16 + x mod 10 else x.

Definition show_date (bcd : bool) (d : rtcdate) : rtcdate :=
  Date (shown bcd (second d)) (shown bcd (minute d)) (shown bcd (hour d)) (shown bcd (day d)) (shown bcd (month d)) (shown bcd (year d - 2000)).

Definition date_ok (d : rtcdate) : Prop :=
  0 ≤ second d < 60 ∧ 0 ≤ minute d < 60 ∧ 0 ≤ hour d < 24 ∧ 1 ≤ day d ≤ 31 ∧ 1 ≤ month d ≤ 12 ∧ 2000 ≤ year d < 2100.

(** The register of each field of the date. *)
Definition date_reg (r : Z) (d : rtcdate) : option Z :=
  if r =? SECS then Some (second d) else if r =? MINS then Some (minute d) else if r =? HOURS then Some (hour d)
  else if r =? DAY then Some (day d) else if r =? MONTH then Some (month d) else if r =? YEAR then Some (year d) else None.

Class ClockOk (C : Type) `{Ports C} (bcd : bool) : Type := {
  clk_at : Z → rtcdate → nat → nat → C → Prop;
  clk_select r d k u c v : clk_at r d k u c → clk_at v d k u (outb CMOS_PORT v c);
  clk_field r d k u c x : clk_at r d k u c → date_reg r (show_date bcd d) = Some x →
    (inb CMOS_RETURN c).1 = x ∧
    (clk_at r d k u (inb CMOS_RETURN c).2 ∨ ∃ d' k', k = S k' ∧ date_ok d' ∧ clk_at r d' k' u (inb CMOS_RETURN c).2);
  clk_statb d k u c : clk_at CMOS_STATB d k u c →
    (Z.land (inb CMOS_RETURN c).1 (Z.shiftl 1 2) = 0 ↔ bcd = true) ∧ clk_at CMOS_STATB d k u (inb CMOS_RETURN c).2;
  clk_stata d k u c : clk_at CMOS_STATA d k u c →
    (Z.land (inb CMOS_RETURN c).1 CMOS_UIP = 0 ∧ clk_at CMOS_STATA d k u (inb CMOS_RETURN c).2) ∨
    (Z.land (inb CMOS_RETURN c).1 CMOS_UIP ≠ 0 ∧ ∃ u', u = S u' ∧ clk_at CMOS_STATA d k u' (inb CMOS_RETURN c).2)
}.

Lemma CONV_shown x : 0 ≤ x < 100 → CONV (shown true x) = x.
Proof.
  intros H. unfold CONV, shown. rewrite Z.shiftr_div_pow2 by lia. change 0xf with (Z.ones 4). rewrite Z.land_ones by lia.
  rewrite u32_small by (change (2 ^ 4) with 16; dlia). change (2 ^ 4) with 16. dlia.
Qed.

Section clock.
Context {C : Type} {ports : Ports C} (bcd : bool) {laws : ClockOk C bcd}.

Definition showing (d : rtcdate) (k u : nat) (c : C) : Prop := ∃ r, clk_at r d k u c.

Lemma cmos_field r x d k u c :
  showing d k u c → date_reg r (show_date bcd d) = Some x →
  ∃ c', cmos_read r c = Ok x c' ∧ (showing d k u c' ∨ ∃ d' k', k = S k' ∧ date_ok d' ∧ showing d' k' u c').
Proof.
  intros (r0 & H%(clk_select _ _ _ _ _ r)) Hx. destruct (clk_field _ _ _ _ _ _ H Hx) as [E Hn]. eexists. split.
  - unfold cmos_read, out8. rewrite bind_modify. unfold in8. by rewrite E.
  - destruct Hn as [Hn|(d' & k' & -> & ? & Hn)]; [left; by eexists|right]. eexists d', k'. split_and!; [done|done|by eexists].
Qed.

(** When the clock does not advance, a reading is its date. *)
Lemma fill_still d u c : showing d 0 u c → ∃ c', fill_rtcdate c = Ok (show_date bcd d) c' ∧ showing d 0 u c'.
Proof.
  assert (R : ∀ r x c, showing d 0 u c → date_reg r (show_date bcd d) = Some x → ∃ c', cmos_read r c = Ok x c' ∧ showing d 0 u c').
  { intros r x c0 H Hx. destruct (cmos_field r x d 0 u c0 H Hx) as (c' & E & [?|(? & ? & ? & _)]); [by eexists|done]. }
  intros H. unfold fill_rtcdate.
  destruct (R SECS _ c H eq_refl) as (c1 & E1 & H1). rewrite (bind_ok _ _ _ _ _ E1).
  destruct (R MINS _ c1 H1 eq_refl) as (c2 & E2 & H2). rewrite (bind_ok _ _ _ _ _ E2).
  destruct (R HOURS _ c2 H2 eq_refl) as (c3 & E3 & H3). rewrite (bind_ok _ _ _ _ _ E3).
  destruct (R DAY _ c3 H3 eq_refl) as (c4 & E4 & H4). rewrite (bind_ok _ _ _ _ _ E4).
  destruct (R MONTH _ c4 H4 eq_refl) as (c5 & E5 & H5). rewrite (bind_ok _ _ _ _ _ E5).
  destruct (R YEAR _ c5 H5 eq_refl) as (c6 & E6 & H6). rewrite (bind_ok _ _ _ _ _ E6). by eexists.
Qed.

(** A field read, of a clock that may advance once. *)
Lemma cmos_once r d k u c :
  showing d k u c → (k ≤ 1)%nat → is_Some (date_reg r (show_date bcd d)) →
  ∃ x d' k' c', cmos_read r c = Ok x c' ∧ showing d' k' u c' ∧ (k' ≤ k)%nat ∧ (k' = k → d' = d ∧ date_reg r (show_date bcd d) = Some x) ∧
    (d' = d ∨ date_ok d').
Proof.
  intros H Hk [x Hx]. destruct (cmos_field r x d k u c H Hx) as (c' & E & [H'|(d' & k' & -> & Hd & H')]).
  - eexists x, d, k, c'. split_and!; [done|done|lia|done|by left].
  - eexists x, d', k', c'. split_and!; [done|done|lia|lia|by right].
Qed.

Lemma fill_once d k u c :
  showing d k u c → (k ≤ 1)%nat →
  ∃ t d' k' c', fill_rtcdate c = Ok t c' ∧ showing d' k' u c' ∧ (k' ≤ k)%nat ∧ (k' = k → d' = d ∧ t = show_date bcd d) ∧ (d' = d ∨ date_ok d').
Proof.
  assert (S : ∀ d r, r ∈ [SECS; MINS; HOURS; DAY; MONTH; YEAR] → is_Some (date_reg r (show_date bcd d))).
  { intros d0 r Hr. rewrite !elem_of_cons in Hr. destruct Hr as [->|[->|[->|[->|[->|[->|Hr]]]]]]; try (by eexists). by apply not_elem_of_nil in Hr. }
  intros H Hk. unfold fill_rtcdate.
  destruct (cmos_once SECS d k u c H Hk ltac:(apply S; set_solver)) as (x1 & d1 & k1 & c1 & E1 & H1 & K1 & L1 & D1). rewrite (bind_ok _ _ _ _ _ E1).
  destruct (cmos_once MINS d1 k1 u c1 H1 ltac:(lia) ltac:(apply S; set_solver)) as (x2 & d2 & k2 & c2 & E2 & H2 & K2 & L2 & D2). rewrite (bind_ok _ _ _ _ _ E2).
  destruct (cmos_once HOURS d2 k2 u c2 H2 ltac:(lia) ltac:(apply S; set_solver)) as (x3 & d3 & k3 & c3 & E3 & H3 & K3 & L3 & D3). rewrite (bind_ok _ _ _ _ _ E3).
  destruct (cmos_once DAY d3 k3 u c3 H3 ltac:(lia) ltac:(apply S; set_solver)) as (x4 & d4 & k4 & c4 & E4 & H4 & K4 & L4 & D4). rewrite (bind_ok _ _ _ _ _ E4).
  destruct (cmos_once MONTH d4 k4 u c4 H4 ltac:(lia) ltac:(apply S; set_solver)) as (x5 & d5 & k5 & c5 & E5 & H5 & K5 & L5 & D5). rewrite (bind_ok _ _ _ _ _ E5).
  destruct (cmos_once YEAR d5 k5 u c5 H5 ltac:(lia) ltac:(apply S; set_solver)) as (x6 & d6 & k6 & c6 & E6 & H6 & K6 & L6 & D6). rewrite (bind_ok _ _ _ _ _ E6).
  eexists _, d6, k6, c6. split_and!; [done|done|lia| |].
  - intros ->. assert (k1 = k ∧ k2 = k1 ∧ k3 = k2 ∧ k4 = k3 ∧ k5 = k4 ∧ k = k5) as (?&?&?&?&?&?) by lia.
    destruct (L1 ltac:(done)) as [-> ?], (L2 ltac:(done)) as [-> ?], (L3 ltac:(done)) as [-> ?], (L4 ltac:(done)) as [-> ?], (L5 ltac:(done)) as [-> ?], (L6 ltac:(lia)) as [-> ?].
    split; [done|]. unfold show_date in *. cbn in *. by simplify_eq.
  - repeat match goal with H : _ = _ ∨ _ |- _ => destruct H as [->|H] end; eauto.
Qed.

Lemma stata_ok d k u c : showing d k u c → ∃ a u' c', cmos_read CMOS_STATA c = Ok a c' ∧ showing d k u' c' ∧
  (if Z.land a CMOS_UIP =? 0 then u' = u else S u' = u).
Proof.
  intros (r0 & H%(clk_select _ _ _ _ _ CMOS_STATA)).
  assert (E : cmos_read CMOS_STATA c = Ok (inb CMOS_RETURN (outb CMOS_PORT CMOS_STATA c)).1 (inb CMOS_RETURN (outb CMOS_PORT CMOS_STATA c)).2) by done.
  destruct (clk_stata _ _ _ _ H) as [[Ha H']|(Ha & u' & -> & H')].
  - eexists _, u, _. split; [exact E|]. split; [by eexists|]. by rewrite (proj2 (Z.eqb_eq _ 0) Ha).
  - eexists _, u', _. split; [exact E|]. split; [by eexists|]. by rewrite (proj2 (Z.eqb_neq _ 0) Ha).
Qed.

(** The loop ends with a date that the clock showed. *)
Lemma read_date_ok fuel : ∀ d k u c, showing d k u c → date_ok d → (k ≤ 1)%nat → (k + u < fuel)%nat →
  ∃ d' c', read_date fuel c = Ok (show_date bcd d') c' ∧ date_ok d' ∧ (k = 0%nat → d' = d).
Proof.
  induction fuel as [|fuel IH]; intros d k u c H Hd Hk Hf; [lia|]. cbn [read_date].
  destruct (fill_once d k u c H Hk) as (t1 & d1 & k1 & c1 & E1 & H1 & K1 & L1 & D1). rewrite (bind_ok _ _ _ _ _ E1).
  assert (Hd1 : date_ok d1) by (by destruct D1 as [->|?]).
  destruct (stata_ok d1 k1 u c1 H1) as (a & u' & c2 & E2 & H2 & Ha). rewrite (bind_ok _ _ _ _ _ E2).
  destruct (Z.land a CMOS_UIP =? 0); cbn [negb].
  - subst u'. destruct (fill_once d1 k1 u c2 H2 ltac:(lia)) as (t2 & d2 & k2 & c3 & E3 & H3 & K2 & L2 & D2). rewrite (bind_ok _ _ _ _ _ E3).
    assert (Hd2 : date_ok d2) by (by destruct D2 as [->|?]).
    destruct (decide (k2 = k1)) as [->|Hne].
    + destruct (L2 eq_refl) as [-> ->]. destruct (bool_decide_reflect (t1 = show_date bcd d1)) as [->|Hne].
      * exists d1, c3. split_and!; [done|done|]. intros ->. destruct (L1 ltac:(lia)) as [-> _]. done.
      * destruct (decide (k1 = k)) as [->|]; [by destruct (L1 eq_refl) as [-> ->]|].
        destruct (IH d1 k1 u c3 H3 Hd1 ltac:(lia) ltac:(lia)) as (d' & c' & E & ? & _). exists d', c'. split_and!; [done|done|lia].
    + assert (k1 = k) as -> by lia. destruct (L1 eq_refl) as [-> ->]. case_bool_decide.
      * exists d, c3. by split_and!.
      * destruct (IH d2 k2 u c3 H3 Hd2 ltac:(lia) ltac:(lia)) as (d' & c' & E & ? & _). exists d', c'. split_and!; [done|done|lia].
  - destruct (IH d1 k1 u' c2 H2 Hd1 ltac:(lia) ltac:(lia)) as (d' & c' & E & ? & Hz). exists d', c'. split_and!; [done|done|].
    intros ->. destruct (L1 ltac:(lia)) as [-> _]. apply Hz. lia.
Qed.

(** [cmostime] returns a date that the clock showed during the call, if the clock advances at most once meanwhile; the loop
    runs at most twice more than it finds an update in progress. *)
Lemma cmostime_reads fuel d k u c :
  showing d k u c → date_ok d → (k ≤ 1)%nat → (k + u < fuel)%nat →
  ∃ d' c', cmostime fuel c = Ok d' c' ∧ date_ok d' ∧ (k = 0%nat → d' = d).
Proof.
  intros (r0 & H%(clk_select _ _ _ _ _ CMOS_STATB)) Hd Hk Hf. destruct (clk_statb _ _ _ _ H) as [Hb H1]. unfold cmostime.
  set (c1 := outb CMOS_PORT CMOS_STATB c) in *.
  assert (E1 : cmos_read CMOS_STATB c = Ok (inb CMOS_RETURN c1).1 (inb CMOS_RETURN c1).2) by done. rewrite (bind_ok _ _ _ _ _ E1).
  destruct (read_date_ok fuel d k u _ (ex_intro (λ r, clk_at r d k u _) _ H1) Hd Hk Hf) as (d' & c' & E & Hd' & Hz). rewrite (bind_ok _ _ _ _ _ E).
  exists d', c'. split_and!; [|done|done]. unfold mret, cm_ret. f_equal. destruct Hd' as (?&?&?&?&?&?).
  destruct bcd eqn:Eb.
  - rewrite (proj2 (Z.eqb_eq _ 0) (proj2 Hb eq_refl)). cbn [second minute hour day month year show_date].
    rewrite !CONV_shown by lia. rewrite u32_small by lia. destruct d'. cbn. f_equal. lia.
  - assert (Hz' : Z.land (inb CMOS_RETURN c1).1 (Z.shiftl 1 2) ≠ 0) by (intros ?%Hb; done).
    rewrite (proj2 (Z.eqb_neq _ 0) Hz'). cbn. rewrite u32_small by lia. destruct d'. cbn. f_equal. lia.
Qed.
End clock.
