(* ===== verification/Uart.v ===== *)
(** * The serial port

    [src/uart.c] over the ports of the machine, the I/O APIC of [Irq] and the console.  [UartOk] is what the 8250 does: a status with a
    bit for a byte that has come and one for a transmitter that is free.

    Lemmas: a byte that is sent arrives on the line once, which is what [serial] of [Console] records; the bytes that have come
    are handed to the console in order. *)
From S2P Require Import Prelude Ring Numeral Bytes Console Ata Irq.

Definition COM1 : Z := 0x3f8.

Section uart.
Context {C : Type} {ports : Ports C} {mmio : Mmio C}.

(** [uart]: is there a uart? *)
Record serial_port : Type := Serial { uart : Z; sp_ctl : C }.

Definition on_port {A} (m : cm C A) : cm serial_port A := λ s,
  match m (sp_ctl s) with Ok a c => Ok a (Serial (uart s) c) | Panic e => Panic e | Ub e => Ub e end.

(** The wait for the transmitter, at most 128 times. *)
Fixpoint uart_wait (n : nat) : cm C unit :=
  match n with
  | O => mret tt
  | S n' => r ← in8 (COM1 + 5); if negb (Z.land r 0x20 =? 0) then mret tt else uart_wait n'
  end.

Definition uartputc (c : Z) : cm serial_port unit :=
  u ← gets uart;
  if u =? 0 then mret tt else
  on_port (uart_wait 128) ;;
  on_port (out8 (COM1 + 0) (u8 c)).

Fixpoint uart_puts (s : list Z) : cm serial_port unit :=
  match s with
  | [] => mret tt
  | c :: s' => uartputc c ;; uart_puts s'
  end.

Definition uartinit : cm serial_port unit :=
  on_port (out8 (COM1 + 2) 0) ;;
  on_port (out8 (COM1 + 3) 0x80) ;;
  on_port (out8 (COM1 + 0) (115200 / 9600)) ;;
  on_port (out8 (COM1 + 1) 0) ;;
  on_port (out8 (COM1 + 3) 0x03) ;;
  on_port (out8 (COM1 + 4) 0) ;;
  on_port (out8 (COM1 + 1) 0x01) ;;
  r ← on_port (in8 (COM1 + 5));
  if r =? 0xFF then mret tt else
  modify (λ s, Serial 1 (sp_ctl s)) ;;
  on_port (in8 (COM1 + 2)) ;;
  on_port (in8 (COM1 + 0)) ;;
  on_port (ioapicenable IRQ_COM1 0) ;;
  uart_puts [120; 118; 54; 46; 46; 46; 10].

Definition uartgetc : cm serial_port Z :=
  u ← gets uart;
  if u =? 0 then mret (-1) else
  r ← on_port (in8 (COM1 + 5));
  if Z.land r 0x01 =? 0 then mret (-1) else
  on_port (in8 (COM1 + 0)).

(** What [consoleintr] gets from [uartgetc] until it answers a negative number. *)
Fixpoint uart_drain (fuel : nat) : cm serial_port (list Z) :=
  c ← uartgetc;
  if c <? 0 then mret [] else
  match fuel with O => ub "loop" | S f => cs ← uart_drain f; mret (c :: cs) end.

Definition uartintr (fuel : nat) : cm (serial_port * console) unit := λ '(p, s),
  match uart_drain fuel p with
  | Ok cs p' => match consoleintr cs s with Ok _ s' => Ok tt (p', s') | Panic e => Panic e | Ub e => Ub e end
  | Panic e => Panic e
  | Ub e => Ub e
  end.
End uart.

(** The 8250: [rx] are the bytes that have come and were not read, [tx] the bytes sent; the transmitter is free after at most 127
    reads of the status, [n] of which are left. *)
Class UartOk (C : Type) `{Ports C} : Type := {
  ua_at : list Z → list Z → nat → C → Prop;
  ua_status rx tx n c : ua_at rx tx n c → (n < 128)%nat ∧ ua_at rx tx (pred n) (inb (COM1 + 5) c).2 ∧
    (Z.land (inb (COM1 + 5) c).1 0x01 = 0 ↔ rx = []) ∧ (Z.land (inb (COM1 + 5) c).1 0x20 ≠ 0 ↔ n = 0%nat);
  ua_recv b rx tx n c : ua_at (b :: rx) tx n c → (inb (COM1 + 0) c).1 = b ∧ ua_at rx tx n (inb (COM1 + 0) c).2;
  ua_send rx tx c b : ua_at rx tx 0 c → ∃ n, ua_at rx (tx ++ [b]) n (outb (COM1 + 0) b c)
}.

Section laws.
Context {C : Type} {ports : Ports C} {mmio : Mmio C} {laws : UartOk C}.

Lemma uart_wait_ok n : ∀ k rx tx (c : C), ua_at rx tx n c → (n < k)%nat → ∃ c', uart_wait k c = Ok tt c' ∧ ua_at rx tx 0 c'.
Proof.
  induction n as [|n IH]; intros [|k] rx tx c H Hk; try lia; destruct (ua_status _ _ _ _ H) as (_ & H' & _ & Ht); cbn [uart_wait]; unfold in8, mbind, cm_bind.
  - rewrite (proj2 (Z.eqb_neq _ 0) (proj2 Ht eq_refl)). cbn [negb]. by eexists.
  - destruct (Z.eqb_spec (Z.land (inb (COM1 + 5) c).1 0x20) 0) as [Hz|Hz]; [|apply Ht in Hz; done]. cbn [negb]. apply IH; [exact H'|lia].
Qed.

(** [uartputc] sends one byte. *)
Lemma uartputc_sends b u rx tx n (c : C) :
  u ≠ 0 → ua_at rx tx n c → ∃ c' n', uartputc b (Serial u c) = Ok tt (Serial u c') ∧ ua_at rx (tx ++ [u8 b]) n' c'.
Proof.
  intros Hu H. destruct (ua_status _ _ _ _ H) as (Hn & _). destruct (uart_wait_ok n 128 rx tx c H Hn) as (c1 & E1 & H1).
  destruct (ua_send _ _ _ (u8 b) H1) as (n' & H2). eexists _, n'. split; [|exact H2]. unfold uartputc. rewrite bind_gets. cbn [uart].
  rewrite (proj2 (Z.eqb_neq _ 0) Hu).
  assert (E2 : on_port (uart_wait 128) (Serial u c) = Ok tt (Serial u c1)) by (unfold on_port; cbn [sp_ctl uart]; by rewrite E1).
  rewrite (bind_ok _ _ _ _ _ E2). done.
Qed.

Lemma uartgetc_ok u (c : C) :
  u ≠ 0 → uartgetc (Serial u c) =
    if Z.land (inb (COM1 + 5) c).1 0x01 =? 0 then Ok (-1) (Serial u (inb (COM1 + 5) c).2)
    else let r := inb (COM1 + 0) (inb (COM1 + 5) c).2 in Ok r.1 (Serial u r.2).
Proof.
  intros Hu. unfold uartgetc. rewrite bind_gets. cbn [uart]. rewrite (proj2 (Z.eqb_neq _ 0) Hu). unfold mbind, cm_bind. cbn.
  by destruct (Z.land _ 1 =? 0).
Qed.

Lemma uart_drain_ok rx : ∀ fuel tx n u (c : C),
  u ≠ 0 → ua_at rx tx n c → Forall (λ b, 0 ≤ b < 256) rx → (length rx ≤ fuel)%nat →
  ∃ n' c', uart_drain fuel (Serial u c) = Ok rx (Serial u c') ∧ ua_at [] tx n' c'.
Proof.
  induction rx as [|b rx IH]; intros fuel tx n u c Hu H Hb Hf; pose proof (uartgetc_ok u c Hu) as Eg;
    destruct (ua_status _ _ _ _ H) as (_ & H' & Hr & _).
  - rewrite (proj2 (Z.eqb_eq _ 0) (proj2 Hr eq_refl)) in Eg. eexists _, _. split; [|exact H'].
    destruct fuel; cbn [uart_drain]; by rewrite (bind_ok _ _ _ _ _ Eg).
  - apply Forall_cons in Hb as [Hb Hbs]. destruct fuel as [|fuel]; [cbn in Hf; lia|]. destruct (ua_recv _ _ _ _ _ H') as [Er H2].
    rewrite (proj2 (Z.eqb_neq (Z.land (inb (COM1 + 5) c).1 1) 0)) in Eg by (intros Hz; by apply Hr in Hz). cbv zeta in Eg. rewrite Er in Eg.
    destruct (IH fuel tx _ u _ Hu H2 Hbs ltac:(cbn in Hf; lia)) as (n' & c' & E & H3). exists n', c'. split; [|exact H3].
    cbn [uart_drain]. rewrite (bind_ok _ _ _ _ _ Eg), (proj2 (Z.ltb_ge b 0)) by lia. by rewrite (bind_ok _ _ _ _ _ E).
Qed.

(** An interrupt hands the bytes that have come to the line discipline, in order. *)
Lemma uartintr_types rx fuel tx n u (c : C) s :
  u ≠ 0 → ua_at rx tx n c → Forall (λ b, 0 ≤ b < 256) rx → (length rx ≤ fuel)%nat → kbd_inv s → locked s = false →
  returns (uartintr fuel (Serial u c, s)) (λ _ '(p', s'),
    (∃ n', ua_at [] tx n' (sp_ctl p')) ∧ kbd_inv s' ∧ locked s' = false ∧ abs (input s') = foldl (λ l c, ldisc_char c l) (abs (input s)) rx).
Proof.
  intros Hu H Hb Hf Hk Hl. destruct (uart_drain_ok rx fuel tx n u c Hu H Hb Hf) as (n' & c' & E & H').
  pose proof (consoleintr_ok rx s Hk Hl Hb) as HC. unfold uartintr. rewrite E. destruct (consoleintr rx s) as [x s'| |]; [|done|done].
  cbn in *. split; [by eexists|exact HC].
Qed.
End laws.
