(* ===== verification/Boot.v ===== *)
(** * The boot loader

    [src/bootmain.c], with paging off: addresses are physical, a pointer is a 32-bit number.  The disk is behind the controller of
    [Ata].

    Theorem: the loader puts every segment of the kernel where its header says, with zeroes behind the bytes of the file, and jumps to
    the entry point; without the mark of an ELF file it returns. *)
From S2P Require Import Prelude CString Bytes Ata.

Definition ELF_MAGIC : Z := 0x464C457F.
Definition SECTSIZE : Z := 512.
(** [(struct elfhdr* )0x10000]. *)
Definition scratch : Z := 0x10000.

Section boot.
Context {C : Type} {ports : Ports C} (polls : nat).

Record boot : Type := Boot { bt_mem : memory; bt_ctl : C }.

Definition on_dev {A} (m : cm C A) : cm boot A := λ s,
  match m (bt_ctl s) with Ok a c => Ok a (Boot (bt_mem s) c) | Panic e => Panic e | Ub e => Ub e end.

(** The bytes [l] stored from [a] on. *)
Definition put_bytes (m : memory) (a : Z) (l : list Z) : memory :=
  λ x, if (a <=? x) && (x <? a + Z.of_nat (length l)) then default 0 (l !! Z.to_nat (x - a)) else m x.

Fixpoint waitdisk_loop (fuel : nat) : cm C unit :=
  match fuel with
  | O => ub "loop"
  | S f => r ← in8 0x1F7; if negb (Z.land r 0xC0 =? 0x40) then waitdisk_loop f else mret tt
  end.
Definition waitdisk : cm C unit := waitdisk_loop polls.

Definition readsect (dst offset : Z) : cm boot unit :=
  on_dev (
    waitdisk ;;
    out8 0x1F2 1 ;;
    out8 0x1F3 (u8 offset) ;;
    out8 0x1F4 (u8 (Z.shiftr offset 8)) ;;
    out8 0x1F5 (u8 (Z.shiftr offset 16)) ;;
    out8 0x1F6 (u8 (Z.lor (Z.shiftr offset 24) 0xE0)) ;;
    out8 0x1F7 0x20 ;;
    waitdisk) ;;
  d ← on_dev (in_words 0x1F0 (SECTSIZE / 4));
  modify (λ s, Boot (put_bytes (bt_mem s) dst d) (bt_ctl s)).

Fixpoint readseg_loop (fuel : nat) (pa epa offset : Z) : cm boot unit :=
  if pa <? epa then
    match fuel with
    | O => ub "loop"
    | S f => readsect pa offset ;; readseg_loop f (u32 (pa + SECTSIZE)) epa (u32 (offset + 1))
    end
  else mret tt.

Definition readseg (pa count offset : Z) : cm boot unit :=
  let epa := u32 (pa + count) in
  let pa := u32 (pa - offset mod SECTSIZE) in
  let offset := u32 (offset / SECTSIZE + 1) in
  readseg_loop (Z.to_nat ((epa - pa) / SECTSIZE + 1)) pa epa offset.

(** The loop over the program headers. *)
Fixpoint boot_segments (fuel : nat) (ph eph : Z) : cm boot unit :=
  if ph <? eph then
    match fuel with
    | O => ub "loop"
    | S f =>
        m ← gets bt_mem;
        let pa := field 4 m (ph + 12) in
        readseg pa (field 4 m (ph + 16)) (field 4 m (ph + 4)) ;;
        m ← gets bt_mem;
        let filesz := field 4 m (ph + 16) in
        let memsz := field 4 m (ph + 20) in
        cwhen (filesz <? memsz) (modify (λ s, Boot (stosb (bt_mem s) (u32 (pa + filesz)) 0 (Z.to_nat (memsz - filesz))) (bt_ctl s))) ;;
        boot_segments f (u32 (ph + 32)) eph
    end
  else mret tt.

(** The address [bootmain] jumps to, or nothing if it returns. *)
Definition bootmain : cm boot (option Z) :=
  readseg scratch 4096 0 ;;
  m ← gets bt_mem;
  if negb (field 4 m scratch =? ELF_MAGIC) then mret None else
  let ph := u32 (scratch + field 4 m (scratch + 28)) in
  let phnum := field 2 m (scratch + 44) in
  boot_segments (Z.to_nat phnum) ph (u32 (ph + 32 * phnum)) ;;
  m ← gets bt_mem;
  mret (Some (field 4 m (scratch + 24))).
End boot.

(** ** What the loader reads *)

Section reads.
Context {C : Type} {ports : Ports C} (polls : nat) {laws : AtaOk C polls} (disk : Z → list Z).
Hypothesis (Hsect : ∀ s, length (disk s) = 512%nat).
Abbreviation boot := (@boot C).

(** Byte [i] of the kernel file, which starts at sector 1. *)
Definition kbyte (i : Z) : Z := default 0 (disk (1 + i / 512) !! Z.to_nat (i mod 512)).

(** The controller waits for a command, with the disk as its first drive. *)
Definition disk_idle (c : C) : Prop :=
  ∃ a, at_work a c ∧ a_has a 0 = true ∧ a_has a (drive a) = true ∧ a_op a = Idle ∧ ∀ s, a_disk a 0 s = disk s.

Lemma waitdisk_ok a c : at_work a c → a_has a (drive a) = true → ∃ c', waitdisk polls c = Ok tt c' ∧ at_rest a c'.
Proof.
  intros H Hd. destruct (ata_poll a c H Hd) as (n & r & c' & Hn & P & _ & H'). exists c'. split; [|done]. unfold waitdisk.
  clear H Hd H'. revert Hn. generalize polls as fuel. induction P as [c E|n c r c' E P IH]; intros [|fuel] Hf; try lia; cbn [waitdisk_loop];
    unfold in8, mbind, cm_bind; unfold ready_status in E; rewrite E; cbn [negb]; [done|]. apply IH. lia.
Qed.

Lemma out_reg_ok a c p v : at_rest a c → is_reg p = true → 0 ≤ v < 256 → ∃ c', out8 p v c = Ok tt c' ∧ at_rest (set_reg p v a) c'.
Proof. intros H Hp Hv. eexists. split; [reflexivity|]. by apply ata_reg. Qed.

(** The registers for sector [o] of the first drive. *)
Definition asked (a : ata) (o : Z) : ata :=
  set_reg 0x1f6 (Z.lor (o / 2 ^ 24) 0xE0) (set_reg 0x1f5 ((o / 2 ^ 16) mod 256) (set_reg 0x1f4 ((o / 2 ^ 8) mod 256) (set_reg 0x1f3 (o mod 256) (set_reg 0x1f2 1 a)))).

Lemma head_bits x : 0 ≤ x < 16 → 0 ≤ Z.lor x 0xE0 < 256 ∧ Z.land (Z.shiftr (Z.lor x 0xE0) 4) 1 = 0 ∧ Z.land (Z.lor x 0xE0) 0x0f = x.
Proof.
  intros Hx. pose proof (range_forall (λ x, (0 <=? Z.lor x 0xE0) && (Z.lor x 0xE0 <? 256) && (Z.land (Z.shiftr (Z.lor x 0xE0) 4) 1 =? 0) &&
    (Z.land (Z.lor x 0xE0) 0x0f =? x)) 16 eq_refl x Hx) as H. cbn beta in H. zbool. lia.
Qed.

Lemma asked_names a o : 0 ≤ o < 2 ^ 28 → drive (asked a o) = 0 ∧ sector (asked a o) = o ∧ a_reg (asked a o) 0x1f2 = 1.
Proof.
  intros Ho. destruct (head_bits (o / 2 ^ 24)) as (_ & Hd & Hs); [change (2 ^ 24) with 16777216 in *; change (2 ^ 28) with 268435456 in *; dlia|].
  assert (E : ∀ p, a_reg (asked a o) p = upd (upd (upd (upd (upd (a_reg a) 0x1f2 1) 0x1f3 (o mod 256)) 0x1f4 ((o / 2 ^ 8) mod 256)) 0x1f5 ((o / 2 ^ 16) mod 256)) 0x1f6 (Z.lor (o / 2 ^ 24) 0xE0) p) by done.
  unfold drive, sector. rewrite !E. repeat (rewrite upd_eq || rewrite upd_ne by done). rewrite Hs. split_and!; [done| |done].
  clear. change (2 ^ 8) with 256. change (2 ^ 16) with (256 * 256). change (2 ^ 24) with (256 * 256 * 256).
  rewrite <- !Z.div_div by lia. pose proof (Z.div_mod o 256). pose proof (Z.div_mod (o / 256) 256). pose proof (Z.div_mod (o / 256 / 256) 256). lia.
Qed.

Lemma readsect_ok dst o m c :
  0 ≤ o < 2 ^ 28 → disk_idle c → ∃ c', readsect polls dst o (Boot m c) = Ok tt (Boot (put_bytes m dst (disk o)) c') ∧ disk_idle c'.
Proof.
  intros Ho (a & Hw & H0 & Hd & Hop & Hk). unfold readsect.
  assert (E4 : u8 (Z.shiftr o 8) = (o / 2 ^ 8) mod 256) by (unfold u8; by rewrite Z.shiftr_div_pow2 by lia).
  assert (E5 : u8 (Z.shiftr o 16) = (o / 2 ^ 16) mod 256) by (unfold u8; by rewrite Z.shiftr_div_pow2 by lia).
  assert (H24 : 0 ≤ o / 2 ^ 24 < 16) by (change (2 ^ 24) with 16777216; change (2 ^ 28) with 268435456 in *; dlia).
  destruct (head_bits _ H24) as (Hr & _ & _).
  assert (E6 : u8 (Z.lor (Z.shiftr o 24) 0xE0) = Z.lor (o / 2 ^ 24) 0xE0) by (unfold u8; rewrite Z.shiftr_div_pow2 by lia; apply Z.mod_small; lia).
  rewrite E4, E5, E6. change (u8 o) with (o mod 256).
  assert (∃ c', (waitdisk polls ;; out8 0x1F2 1 ;; out8 0x1F3 (o mod 256) ;; out8 0x1F4 ((o / 2 ^ 8) mod 256) ;; out8 0x1F5 ((o / 2 ^ 16) mod 256) ;;
    out8 0x1F6 (Z.lor (o / 2 ^ 24) 0xE0) ;; out8 0x1F7 0x20 ;; waitdisk polls) c = Ok tt c' ∧ at_rest (set_op (Sends 0 o) (asked a o)) c') as (c' & E & H).
  { destruct (waitdisk_ok a c Hw Hd) as (c0 & W0 & H0'). rewrite (bind_ok _ _ _ _ _ W0).
    destruct (out_reg_ok _ _ 0x1f2 1 H0' eq_refl ltac:(lia)) as (c1 & O1 & H1). rewrite (bind_ok _ _ _ _ _ O1).
    destruct (out_reg_ok _ _ 0x1f3 (o mod 256) H1 eq_refl ltac:(dlia)) as (c2 & O2 & H2). rewrite (bind_ok _ _ _ _ _ O2).
    destruct (out_reg_ok _ _ 0x1f4 ((o / 2 ^ 8) mod 256) H2 eq_refl ltac:(apply Z.mod_pos_bound; lia)) as (c3 & O3 & H3). rewrite (bind_ok _ _ _ _ _ O3).
    destruct (out_reg_ok _ _ 0x1f5 ((o / 2 ^ 16) mod 256) H3 eq_refl ltac:(apply Z.mod_pos_bound; lia)) as (c4 & O4 & H4). rewrite (bind_ok _ _ _ _ _ O4).
    destruct (out_reg_ok _ _ 0x1f6 _ H4 eq_refl Hr) as (c5 & O5 & H5). rewrite (bind_ok _ _ _ _ _ O5). fold (asked a o) in H5.
    destruct (asked_names a o Ho) as (Ed & Es & Ec). unfold out8 at 1. rewrite bind_modify.
    pose proof (ata_read (asked a o) c5 H5 Hop ltac:(by rewrite Ed) Ec) as H6. rewrite Ed, Es in H6.
    apply waitdisk_ok; [exact H6|]. change (drive (set_op _ (asked a o))) with (drive (asked a o)). by rewrite Ed. }
  assert (En : on_dev (waitdisk polls ;; out8 0x1F2 1 ;; out8 0x1F3 (o mod 256) ;; out8 0x1F4 ((o / 2 ^ 8) mod 256) ;; out8 0x1F5 ((o / 2 ^ 16) mod 256) ;;
    out8 0x1F6 (Z.lor (o / 2 ^ 24) 0xE0) ;; out8 0x1F7 0x20 ;; waitdisk polls) (Boot m c) = Ok tt (Boot m c')) by (unfold on_dev; cbn [bt_ctl bt_mem]; by rewrite E).
  rewrite (bind_ok _ _ _ _ _ En). change (SECTSIZE / 4) with 128. destruct (ata_data _ c' 0 o H eq_refl) as [Ei H'].
  exists (insl 0x1f0 128 c').2. split.
  - unfold on_dev, in_words, mbind, cm_bind. cbn [bt_ctl bt_mem]. rewrite Ei. cbn. by rewrite Hk.
  - eexists. split; [apply ata_work; exact H'|]. split_and!; try done. change (drive (set_op Idle _)) with (drive (asked a o)). by rewrite (proj1 (asked_names a o Ho)).
Qed.

(** [k] sectors from [o] on, at [p]. *)
Definition sectors (m : memory) (p o : Z) (k : nat) : memory := λ x,
  if (p <=? x) && (x <? p + 512 * Z.of_nat k) then default 0 (disk (o + (x - p) / 512) !! Z.to_nat ((x - p) mod 512)) else m x.

Lemma sectors_S m p o k x : sectors (put_bytes m p (disk o)) (p + 512) (o + 1) k x = sectors m p o (S k) x.
Proof.
  unfold sectors, put_bytes. rewrite Hsect. destruct (Z.leb_spec (p + 512) x), (Z.ltb_spec x (p + 512 + 512 * Z.of_nat k)); cbn [andb].
  - rewrite (proj2 (Z.leb_le p x)), (proj2 (Z.ltb_lt x (p + 512 * Z.of_nat (S k)))) by lia. cbn [andb].
    replace (x - p) with (x - (p + 512) + 1 * 512) by lia. rewrite Z.div_add, Z.mod_add by lia. do 3 f_equal. lia.
  - rewrite (proj2 (Z.ltb_ge x (p + 512 * Z.of_nat (S k)))), (proj2 (Z.ltb_ge x (p + Z.of_nat 512))) by lia. by rewrite !andb_false_r.
  - destruct (Z.leb_spec p x); cbn [andb]; [|done]. rewrite (proj2 (Z.ltb_lt x (p + Z.of_nat 512))), (proj2 (Z.ltb_lt x (p + 512 * Z.of_nat (S k)))) by lia.
    rewrite Z.div_small, Z.mod_small by lia. by rewrite Z.add_0_r.
  - lia.
Qed.

Lemma readseg_loop_ok k : ∀ fuel p epa o m c,
  (k ≤ fuel)%nat → 0 ≤ p → p + 512 * Z.of_nat k < 2 ^ 32 → 0 ≤ o → o + Z.of_nat k < 2 ^ 28 → epa ≤ p + 512 * Z.of_nat k →
  (k ≠ 0%nat → p + 512 * Z.of_nat k - 512 < epa) → disk_idle c →
  ∃ m' c', readseg_loop polls fuel p epa o (Boot m c) = Ok tt (Boot m' c') ∧ disk_idle c' ∧ ∀ x, m' x = sectors m p o k x.
Proof.
  induction k as [|k IH]; intros fuel p epa o m c Hf Hp Hp2 Ho Ho2 He Hk Hd.
  - exists m, c. split_and!; [|done|].
    + destruct fuel; cbn [readseg_loop]; rewrite (proj2 (Z.ltb_ge p epa)) by lia; done.
    + intros x. unfold sectors. destruct (Z.leb_spec p x), (Z.ltb_spec x (p + 512 * Z.of_nat 0)); done || lia.
  - destruct fuel as [|fuel]; [lia|]. cbn [readseg_loop]. rewrite (proj2 (Z.ltb_lt p epa)) by lia.
    destruct (readsect_ok p o m c ltac:(lia) Hd) as (c1 & E1 & H1). rewrite (bind_ok _ _ _ _ _ E1). change SECTSIZE with 512.
    rewrite !u32_small by lia. destruct (IH fuel (p + 512) epa (o + 1) (put_bytes m p (disk o)) c1) as (m' & c' & E & H' & Hm); try done; try lia.
    exists m', c'. split_and!; [done|done|]. intros x. rewrite Hm. apply sectors_S.
Qed.

(** How far [readseg] writes: whole sectors, from the byte of the first one on. *)
Definition seg_lo (pa off : Z) : Z := pa - off mod 512.
Definition seg_hi (pa count off : Z) : Z := seg_lo pa off + 512 * ((count + off mod 512 + 511) / 512).

Lemma readseg_ok pa count off m c :
  0 ≤ seg_lo pa off → 0 ≤ count < 2 ^ 32 → 0 ≤ off < 2 ^ 32 → seg_hi pa count off < 2 ^ 32 → disk_idle c →
  ∃ m' c', readseg polls pa count off (Boot m c) = Ok tt (Boot m' c') ∧ disk_idle c' ∧
    ∀ x, m' x = if (seg_lo pa off <=? x) && (x <? seg_hi pa count off) then kbyte (x - pa + off) else m x.
Proof.
  intros Hlo Hc Ho Hhi Hd. unfold readseg. change SECTSIZE with 512. unfold seg_hi in *. set (r := (count + off mod 512 + 511) / 512) in *.
  pose proof (Z.mod_pos_bound off 512 ltac:(lia)) as Hm. unfold seg_lo in *.
  assert (Hr : 0 ≤ r ∧ 512 * r - 512 < count + off mod 512 ≤ 512 * r) by (unfold r; dlia).
  rewrite (u32_small (pa - off mod 512)), (u32_small (pa + count)), (u32_small (off / 512 + 1)) by dlia.
  replace (pa + count - (pa - off mod 512)) with (count + off mod 512) by lia.
  destruct (readseg_loop_ok (Z.to_nat r) (Z.to_nat ((count + off mod 512) / 512 + 1)) (pa - off mod 512) (pa + count) (off / 512 + 1) m c)
    as (m' & c' & E & H' & Hx); rewrite ?Z2Nat.id by lia; try done; try lia.
  - apply Z2Nat.inj_le; [lia|dlia|]. unfold r. dlia.
  - dlia.
  - change (2 ^ 28) with 268435456. change (2 ^ 32) with 4294967296 in *. unfold r. dlia.
  - exists m', c'. split_and!; [done|done|]. intros x. rewrite Hx. unfold sectors. rewrite Z2Nat.id by lia.
    destruct ((pa - off mod 512 <=? x) && (x <? pa - off mod 512 + 512 * r)); [|done]. unfold kbyte.
    replace (x - pa + off) with (x - (pa - off mod 512) + off / 512 * 512) by (pose proof (Z.div_mod off 512); lia).
    rewrite Z.div_add, Z.mod_add by lia. do 3 f_equal. lia.
Qed.

(** ** The kernel file *)

Hypothesis (Hbyte : ∀ s, Forall (λ b, 0 ≤ b < 256) (disk s)).

Lemma kbyte_range i : 0 ≤ kbyte i < 256.
Proof.
  unfold kbyte. destruct (disk _ !! _) as [b|] eqn:E; cbn; [|lia]. exact (proj1 (Forall_lookup _ _) (Hbyte _) _ _ E).
Qed.

(** A field of the headers in the file, and a program header. *)
Definition kfield (k : nat) (i : Z) : Z := field k kbyte i.
Definition phdr (j : Z) : Z := kfield 4 28 + 32 * j.
Definition phnum : Z := kfield 2 44.
Definition off (j : Z) : Z := kfield 4 (phdr j + 4).
Definition paddr (j : Z) : Z := kfield 4 (phdr j + 12).
Definition filesz (j : Z) : Z := kfield 4 (phdr j + 16).
Definition memsz (j : Z) : Z := kfield 4 (phdr j + 20).
Definition lo (j : Z) : Z := seg_lo (paddr j) (off j).
Definition hi (j : Z) : Z := Z.max (seg_hi (paddr j) (filesz j) (off j)) (paddr j + memsz j).

(** The headers are in the first page, and no segment is written over another one or over the headers. *)
Record loadable : Prop := {
  ld_headers : kfield 4 28 + 32 * phnum ≤ 4096;
  ld_range j : 0 ≤ j < phnum → 0 ≤ lo j ∧ hi j < 2 ^ 32;
  ld_scratch j : 0 ≤ j < phnum → hi j ≤ scratch ∨ scratch + 4096 ≤ lo j;
  ld_apart i j : 0 ≤ i < j → j < phnum → hi j ≤ paddr i ∨ paddr i + memsz i ≤ lo j
}.

Definition loaded (m : memory) (j : Z) : Prop :=
  ∀ x, 0 ≤ x < memsz j → m (paddr j + x) = if x <? filesz j then kbyte (off j + x) else 0.

Definition headers (m : memory) : Prop := ∀ i, 0 ≤ i < 4096 → m (scratch + i) = kbyte i.

Lemma kfield_range i : 0 ≤ kfield 4 i < 2 ^ 32.
Proof. apply (field_range 4 kbyte i), kbyte_range. Qed.

Lemma field_headers k m i : headers m → 0 ≤ i → i + Z.of_nat k ≤ 4096 → field k m (scratch + i) = kfield k i.
Proof.
  intros H Hi Hk. unfold kfield, field. f_equal. apply list_fmap_ext. intros n j Hj. apply lookup_seq in Hj as [-> Hj].
  rewrite <- Z.add_assoc. apply H. lia.
Qed.

(** Segment [j] is read, and the rest of it cleared. *)
Lemma segment_ok j m c :
  loadable → 0 ≤ j < phnum → headers m → (∀ i, 0 ≤ i < j → loaded m i) → disk_idle c →
  ∃ m' c', (readseg polls (paddr j) (filesz j) (off j) ;;
            m ← gets bt_mem;
            let filesz := field 4 m (scratch + phdr j + 16) in
            let memsz := field 4 m (scratch + phdr j + 20) in
            cwhen (filesz <? memsz) (modify (λ s, Boot (stosb (bt_mem s) (u32 (paddr j + filesz)) 0 (Z.to_nat (memsz - filesz))) (bt_ctl s)))) (Boot m c)
    = Ok tt (Boot m' c') ∧ disk_idle c' ∧ headers m' ∧ ∀ i, 0 ≤ i < j + 1 → loaded m' i.
Proof.
  intros L Hj Hh Hl Hd. destruct (ld_range L j Hj) as [Hlo Hhi]. pose proof (kfield_range (phdr j + 4)) as R1. pose proof (kfield_range (phdr j + 16)) as R2.
  pose proof (kfield_range (phdr j + 20)) as R3. pose proof (kfield_range (phdr j + 12)) as R4. fold (off j) in R1. fold (filesz j) in R2. fold (memsz j) in R3. fold (paddr j) in R4.
  pose proof (kfield_range 28) as R5.
  assert (Hin : phdr j + 32 ≤ 4096 ∧ 0 ≤ phdr j) by (pose proof (ld_headers L); unfold phdr; lia). unfold hi in Hhi.
  destruct (readseg_ok (paddr j) (filesz j) (off j) m c Hlo R2 R1 ltac:(lia) Hd) as (m1 & c1 & E1 & H1 & M1). rewrite (bind_ok _ _ _ _ _ E1), bind_gets. cbn [bt_mem].
  assert (Hs : seg_lo (paddr j) (off j) ≤ paddr j ∧ paddr j + filesz j ≤ seg_hi (paddr j) (filesz j) (off j)).
  { unfold seg_hi, seg_lo. pose proof (Z.mod_pos_bound (off j) 512). dlia. }
  assert (Hh1 : headers m1).
  { intros i Hi. rewrite M1. destruct (ld_scratch L j Hj) as [Hs1|Hs1]; unfold lo, hi in Hs1.
    - rewrite (proj2 (Z.ltb_ge (scratch + i) _)) by lia. rewrite andb_false_r. by apply Hh.
    - rewrite (proj2 (Z.leb_gt _ (scratch + i))) by lia. by apply Hh. }
  rewrite <- !(Z.add_assoc scratch), !(field_headers 4) by (done || lia). fold (filesz j) (memsz j). cbv zeta.
  set (m2 := if filesz j <? memsz j then stosb m1 (paddr j + filesz j) 0 (Z.to_nat (memsz j - filesz j)) else m1).
  exists m2, c1. split.
  { unfold cwhen, m2. destruct (Z.ltb_spec (filesz j) (memsz j)); [|done]. rewrite u32_small by lia. done. }
  assert (M2 : ∀ x, m2 x = if (paddr j + filesz j <=? x) && (x <? paddr j + memsz j) then 0 else m1 x).
  { intros x. unfold m2. destruct (Z.ltb_spec (filesz j) (memsz j)).
    - rewrite stosb_spec. rewrite Z2Nat.id by lia. replace (paddr j + filesz j + (memsz j - filesz j)) with (paddr j + memsz j) by lia. done.
    - destruct (Z.leb_spec (paddr j + filesz j) x), (Z.ltb_spec x (paddr j + memsz j)); done || lia. }
  assert (Hout : ∀ x, hi j ≤ x ∨ x < lo j → m2 x = m x).
  { intros x Hx. unfold lo, hi in Hx. rewrite M2, M1. destruct Hx.
    - rewrite (proj2 (Z.ltb_ge x _)), (proj2 (Z.ltb_ge x _)) by lia. by rewrite !andb_false_r.
    - rewrite (proj2 (Z.leb_gt _ x)), (proj2 (Z.leb_gt _ x)) by lia. done. }
  split_and!; [done| |].
  - intros i Hi. rewrite Hout; [by apply Hh|]. destruct (ld_scratch L j Hj); [left|right]; lia.
  - intros i Hi. destruct (decide (i = j)) as [->|Hne].
    + intros x Hx. rewrite M2, M1. destruct (Z.ltb_spec x (filesz j)).
      * rewrite (proj2 (Z.leb_gt _ (paddr j + x))) by lia. cbn [andb]. rewrite (proj2 (Z.leb_le _ (paddr j + x))), (proj2 (Z.ltb_lt (paddr j + x) _)) by lia.
        cbn [andb]. f_equal. lia.
      * by rewrite (proj2 (Z.leb_le _ (paddr j + x))), (proj2 (Z.ltb_lt (paddr j + x) _)) by lia.
    + intros x Hx. rewrite Hout; [by apply Hl; lia|]. destruct (ld_apart L i j ltac:(lia) ltac:(lia)); [left|right]; lia.
Qed.

Lemma segments_ok n : ∀ fuel j m c,
  loadable → 0 ≤ j → j + Z.of_nat n = phnum → (n ≤ fuel)%nat → headers m → (∀ i, 0 ≤ i < j → loaded m i) → disk_idle c →
  ∃ m' c', boot_segments polls fuel (scratch + phdr j) (scratch + phdr phnum) (Boot m c) = Ok tt (Boot m' c') ∧ disk_idle c' ∧ headers m' ∧
    ∀ i, 0 ≤ i < phnum → loaded m' i.
Proof.
  induction n as [|n IH]; intros fuel j m c L Hj0 Hj Hf Hh Hl Hd.
  - assert (j = phnum) as -> by lia. exists m, c. split_and!; try done. destruct fuel; cbn [boot_segments]; by rewrite Z.ltb_irrefl.
  - destruct fuel as [|fuel]; [lia|]. cbn [boot_segments]. pose proof (kfield_range 28) as R5. pose proof (ld_headers L) as Hin.
    rewrite (proj2 (Z.ltb_lt _ _)) by (unfold phdr; lia). rewrite bind_gets. cbn [bt_mem].
    rewrite <- !(Z.add_assoc scratch), !(field_headers 4) by (done || unfold phdr; lia). fold (paddr j) (filesz j) (off j).
    destruct (segment_ok j m c L ltac:(lia) Hh Hl Hd) as (m1 & c1 & E1 & H1 & Hh1 & Hl1).
    destruct (IH fuel (j + 1) m1 c1 L ltac:(lia) ltac:(lia) ltac:(lia) Hh1 Hl1 H1) as (m' & c' & E & H' & Hh' & Hl').
    exists m', c'. split; [|done]. etransitivity; [|exact E].
    assert (Enext : u32 (scratch + (phdr j + 32)) = scratch + phdr (j + 1)) by (rewrite u32_small; unfold phdr, scratch; lia).
    rewrite Enext. revert E1. unfold mbind, cm_bind, gets. destruct (readseg _ _ _ _ _) as [u s1| |]; [|done|done].
    rewrite <- !(Z.add_assoc scratch). destruct (cwhen _ _ _) as [u' s2| |]; [|done|done]. by intros [= -> ->].
Qed.

(** [bootmain] on a kernel file that can be loaded, and on a disk without one. *)
Lemma bootmain_ok m c :
  disk_idle c →
  (kfield 4 0 = ELF_MAGIC → loadable →
   ∃ m' c', bootmain polls (Boot m c) = Ok (Some (kfield 4 24)) (Boot m' c') ∧ ∀ j, 0 ≤ j < phnum → loaded m' j) ∧
  (kfield 4 0 ≠ ELF_MAGIC → ∃ m' c', bootmain polls (Boot m c) = Ok None (Boot m' c') ∧ ∀ x, x < scratch ∨ scratch + 4096 ≤ x → m' x = m x).
Proof.
  intros Hd. unfold bootmain. change scratch with 65536 in *.
  destruct (readseg_ok 65536 4096 0 m c) as (m1 & c1 & E1 & H1 & M1); [by vm_compute|lia|lia|by vm_compute|done|].
  change (seg_lo 65536 0) with 65536 in M1. change (seg_hi 65536 4096 0) with (65536 + 4096) in M1. change 65536 with scratch in *.
  rewrite (bind_ok _ _ _ _ _ E1), bind_gets. cbn [bt_mem].
  assert (Hh : headers m1).
  { intros i Hi. rewrite M1, (proj2 (Z.leb_le _ (scratch + i))), (proj2 (Z.ltb_lt (scratch + i) _)) by lia. cbn [andb]. f_equal. lia. }
  assert (E0 : field 4 m1 scratch = kfield 4 0) by (rewrite <- (Z.add_0_r scratch); by apply field_headers).
  rewrite E0. split; intros Hmag.
  - intros L. rewrite (proj2 (Z.eqb_eq _ _) Hmag). cbn [negb]. rewrite (field_headers 4 m1 28), (field_headers 2 m1 44) by (done || lia).
    fold phnum. pose proof (kfield_range 28) as R. pose proof (ld_headers L) as Hin.
    assert (Hn : 0 ≤ phnum) by (apply (field_range 2 kbyte 44), kbyte_range).
    rewrite (u32_small (scratch + kfield 4 28)) by (unfold scratch; lia). rewrite u32_small by (unfold scratch; lia).
    destruct (segments_ok (Z.to_nat phnum) (Z.to_nat phnum) 0 m1 c1 L ltac:(lia) ltac:(lia) ltac:(lia) Hh ltac:(lia) H1) as (m' & c' & E & H' & Hh' & Hl').
    unfold phdr in E. rewrite Z.mul_0_r, Z.add_0_r, Z.add_assoc in E. rewrite (bind_ok _ _ _ _ _ E), bind_gets. cbn [bt_mem].
    exists m', c'. rewrite (field_headers 4 m' 24) by (done || lia). done.
  - rewrite (proj2 (Z.eqb_neq _ _) Hmag). cbn [negb]. exists m1, c1. split; [done|]. intros x Hx. rewrite M1.
    destruct (Z.leb_spec scratch x), (Z.ltb_spec x (scratch + 4096)); done || lia.
Qed.
End reads.

(** C32: the boot loader loads the kernel.  If the disk has an ELF file from sector 1 on, whose headers are in its first page and whose
    segments, rounded to sectors as they are read, neither overlap each other nor the headers, [bootmain] jumps to the entry point, with every segment
    at its physical address: the bytes of the file, and zeroes up to its size in memory.  If there is no ELF file on the disk, it returns, and
    only the page for the headers has changed. *)
Theorem bootmain_loads {C} `{AtaOk C polls} disk m c :
  (∀ s, length (disk s) = 512%nat) → (∀ s, Forall (λ b, 0 ≤ b < 256) (disk s)) → disk_idle polls disk c →
  (kfield disk 4 0 = ELF_MAGIC → loadable disk →
   ∃ m' c', bootmain polls (Boot m c) = Ok (Some (kfield disk 4 24)) (Boot m' c') ∧ ∀ j, 0 ≤ j < phnum disk → loaded disk m' j) ∧
  (kfield disk 4 0 ≠ ELF_MAGIC → ∃ m' c', bootmain polls (Boot m c) = Ok None (Boot m' c') ∧ ∀ x, x < scratch ∨ scratch + 4096 ≤ x → m' x = m x).
Proof. intros Hs Hb Hd. exact (bootmain_ok polls disk Hs Hb m c Hd). Qed.

(** ** A kernel of four bytes

    One segment of four bytes and four zeroes at one megabyte. *)
Module BootExample.
Import AtaExample.

Definition pad (l : list Z) : list Z := l ++ replicate (512 - length l) 0.
Definition header : list Z :=
  [127; 69; 76; 70] ++ replicate 20 0 ++ [0; 0; 16; 0] ++ [52; 0; 0; 0] ++ replicate 12 0 ++ [1; 0] ++ replicate 6 0 ++
  [1; 0; 0; 0] ++ [0; 2; 0; 0] ++ [0; 0; 16; 128] ++ [0; 0; 16; 0] ++ [4; 0; 0; 0] ++ [8; 0; 0; 0].
Definition drive0 (s : Z) : list Z := if s =? 1 then pad header else if s =? 2 then pad [250; 235; 254; 1] else pad [].

Lemma drive0_ok s : length (drive0 s) = 512%nat ∧ Forall (λ b, 0 ≤ b < 256) (drive0 s).
Proof.
  unfold drive0. destruct (s =? 1); [|destruct (s =? 2)]; (split; [reflexivity|]);
    repeat (apply Forall_cons; split; [lia|]); apply Forall_nil_2.
Qed.

Lemma drive0_loadable : loadable drive0.
Proof.
  assert (E : phnum drive0 = 1) by reflexivity. constructor; rewrite ?E.
  - by vm_compute.
  - intros j Hj. assert (j = 0) as -> by lia. split; by vm_compute.
  - intros j Hj. assert (j = 0) as -> by lia. right. by vm_compute.
  - lia.
Qed.

Lemma bootmain_loads_witness : ∃ m' c',
  bootmain 4 (Boot (λ _, 7) (Chip (Ata (λ dr, dr =? 0) (λ _, drive0) (λ _, 0) Idle) 0 false)) = Ok (Some 0x100000) (Boot m' c') ∧
  m' 0x100000 = 250 ∧ m' 0x100003 = 1 ∧ m' 0x100007 = 0.
Proof.
  destruct (bootmain_loads drive0 (λ _, 7) (Chip (Ata (λ dr, dr =? 0) (λ _, drive0) (λ _, 0) Idle) 0 false)) as [HL _];
    [apply drive0_ok|apply drive0_ok| |].
  { exists (Ata (λ dr, dr =? 0) (λ _, drive0) (λ _, 0) Idle). split; [cbn; split_and!; [reflexivity|cbn; lia|reflexivity]|by split_and!]. }
  assert (Hm : kfield drive0 4 0 = ELF_MAGIC) by (vm_compute; reflexivity). assert (He : kfield drive0 4 24 = 0x100000) by (vm_compute; reflexivity).
  assert (Hn : 0 ≤ 0 < phnum drive0) by (by vm_compute). assert (Hz : memsz drive0 0 = 8) by (vm_compute; reflexivity).
  assert (Hb : ∀ x, x ∈ [0; 3; 7] → (if x <? filesz drive0 0 then kbyte drive0 (off drive0 0 + x) else 0) = default 0 ([250; 235; 254; 1] !! Z.to_nat x)).
  { intros x Hx. rewrite !elem_of_cons in Hx. destruct Hx as [->|[->|[->|Hx]]]; [vm_compute; reflexivity..|by apply not_elem_of_nil in Hx]. }
  destruct (HL Hm drive0_loadable) as (m' & c' & E & Hl). rewrite He in E. exists m', c'. split; [exact E|].
  pose proof (Hl 0 Hn) as H0. unfold loaded in H0. assert (Hp : paddr drive0 0 = 0x100000) by (vm_compute; reflexivity). rewrite Hp, Hz in H0. clear HL Hl E.
  split_and!; [rewrite <- (Z.add_0_r 0x100000), (H0 0), Hb by (lia || set_solver)
              |change 0x100003 with (0x100000 + 3); rewrite (H0 3), Hb by (lia || set_solver)
              |change 0x100007 with (0x100000 + 7); rewrite (H0 7), Hb by (lia || set_solver)]; reflexivity.
Defined.
End BootExample.
