(* ===== verification/Bio.v ===== *)
(** * The buffer cache

    [src/bio.c] over the memory disk of [src/memide.c]: 30 buffers, each a block of
    the disk, a sleep lock and a reference count, on a list in order of use.

    The array [bcache.buf] is [bufs]; the doubly linked list is the list [lru] of
    indices into it, most recently used first.  A run is that of one process,
    [pid]: where it would have to wait for a lock another process holds (or it
    holds itself) it does not return, which is the outcome [Ub "sleeps"].
    [trace] records the writes that reached the disk, oldest first.

    Theorems: a block is never in two buffers, clean buffers agree with the disk;
    [bread] returns the current contents of a block, [bwrite] makes them durable,
    and recycling a buffer loses nothing. *)
From S2P Require Import Prelude.

Definition BSIZE : Z := 512.
Definition NBUF : nat := 30.
Definition B_VALID : Z := 2.
Definition B_DIRTY : Z := 4.
Definition ROOTDEV : Z := 1.

Definition block : Type := list Z.

Record buf : Type := Buf {
  flags : Z;
  dev : Z;
  blockno : Z;
  owner : option Z;      (* lock: the pid of the holder *)
  refcnt : Z;
  data : block
}.

Record bcache : Type := BCache {
  bufs : list buf;
  lru : list nat;
  bc_lock : bool;
  disk : Z → block;
  disksize : Z;
  trace : list (Z * block);
  pid : Z
}.

Definition set_bufs (l : list buf) (s : bcache) : bcache :=
  BCache l (lru s) (bc_lock s) (disk s) (disksize s) (trace s) (pid s).
Definition set_lru (l : list nat) (s : bcache) : bcache :=
  BCache (bufs s) l (bc_lock s) (disk s) (disksize s) (trace s) (pid s).
Definition set_bc_lock (b : bool) (s : bcache) : bcache :=
  BCache (bufs s) (lru s) b (disk s) (disksize s) (trace s) (pid s).
Definition disk_write (b : Z) (d : block) (s : bcache) : bcache :=
  BCache (bufs s) (lru s) (bc_lock s) (upd (disk s) b d) (disksize s) (trace s ++ [(b, d)]) (pid s).

Definition with_flags (f : Z) (b : buf) : buf := Buf f (dev b) (blockno b) (owner b) (refcnt b) (data b).
Definition with_owner (o : option Z) (b : buf) : buf :=
  Buf (flags b) (dev b) (blockno b) o (refcnt b) (data b).
Definition with_refcnt (n : Z) (b : buf) : buf := Buf (flags b) (dev b) (blockno b) (owner b) n (data b).
Definition with_data (d : block) (b : buf) : buf :=
  Buf (flags b) (dev b) (blockno b) (owner b) (refcnt b) d.

Definition valid (b : buf) : bool := negb (Z.land (flags b) B_VALID =? 0).
Definition dirty (b : buf) : bool := negb (Z.land (flags b) B_DIRTY =? 0).

(** [b] points to the buffer of index [i]. *)
Definition buf_at (i : nat) : cm bcache buf := λ s,
  match bufs s !! i with
  | Some b => Ok b s
  | None => Ub "buffer index"
  end.

Definition buf_set (i : nat) (b : buf) : cm bcache unit :=
  modify (λ s, set_bufs (<[i := b]> (bufs s)) s).

(** ** Sleep locks of buffers *)

Definition holdingsleep (i : nat) : cm bcache bool :=
  b ← buf_at i;
  p ← gets pid;
  mret (bool_decide (owner b = Some p)).

Definition acquiresleep (i : nat) : cm bcache unit :=
  b ← buf_at i;
  p ← gets pid;
  match owner b with
  | None => buf_set i (with_owner (Some p) b)
  | Some _ => ub "sleeps"
  end.

Definition releasesleep (i : nat) : cm bcache unit :=
  b ← buf_at i;
  buf_set i (with_owner None b).

(** ** The disk *)

Definition iderw (i : nat) : cm bcache unit :=
  h ← holdingsleep i;
  b ← buf_at i;
  size ← gets disksize;
  if negb h then panic "iderw: buf not locked"
  else if Z.land (flags b) (Z.lor B_VALID B_DIRTY) =? B_VALID then panic "iderw: nothing to do"
  else if negb (dev b =? 1) then panic "iderw: request not for disk 1"
  else if size <=? blockno b then panic "iderw: block out of range"
  else if negb (Z.land (flags b) B_DIRTY =? 0) then
    modify (disk_write (blockno b) (data b)) ;;
    buf_set i (with_flags (Z.lor (Z.land (flags b) (Z.lnot B_DIRTY)) B_VALID) b)
  else
    d ← gets (λ s, disk s (blockno b));
    buf_set i (with_flags (Z.lor (flags b) B_VALID) (with_data d b)).

(** ** The cache *)

(** The first buffer on a list of indices that passes a test. *)
Fixpoint find_buf (p : buf → bool) (l : list nat) (bs : list buf) : option nat :=
  match l with
  | [] => None
  | i :: l' =>
      match bs !! i with
      | Some b => if p b then Some i else find_buf p l' bs
      | None => None
      end
  end.

Definition is_block (d n : Z) (b : buf) : bool := (dev b =? d) && (blockno b =? n).
Definition unused (b : buf) : bool := (refcnt b =? 0) && (Z.land (flags b) B_DIRTY =? 0).

Definition bget (d n : Z) : cm bcache nat :=
  acquire bc_lock set_bc_lock ;;
  s ← get;
  match find_buf (is_block d n) (lru s) (bufs s) with
  | Some i =>
      b ← buf_at i;
      buf_set i (with_refcnt (u32 (refcnt b + 1)) b) ;;
      release bc_lock set_bc_lock ;;
      acquiresleep i ;;
      mret i
  | None =>
      match find_buf unused (rev (lru s)) (bufs s) with
      | Some i =>
          b ← buf_at i;
          buf_set i (Buf 0 d n (owner b) 1 (data b)) ;;
          release bc_lock set_bc_lock ;;
          acquiresleep i ;;
          mret i
      | None => panic "bget: no buffers"
      end
  end.

Definition bread (d n : Z) : cm bcache nat :=
  i ← bget d n;
  b ← buf_at i;
  cwhen (Z.land (flags b) B_VALID =? 0) (iderw i) ;;
  mret i.

Definition bwrite (i : nat) : cm bcache unit :=
  h ← holdingsleep i;
  if negb h then panic "bwrite" else
  b ← buf_at i;
  buf_set i (with_flags (Z.lor (flags b) B_DIRTY) b) ;;
  iderw i.

(** Unlinking a buffer and putting it behind the head. *)
Definition to_front (i : nat) (l : list nat) : list nat := i :: filter (λ j, j ≠ i) l.

Definition brelse (i : nat) : cm bcache unit :=
  h ← holdingsleep i;
  if negb h then panic "brelse" else
  releasesleep i ;;
  acquire bc_lock set_bc_lock ;;
  b ← buf_at i;
  let n := u32 (refcnt b - 1) in
  buf_set i (with_refcnt n b) ;;
  cwhen (n =? 0) (modify (λ s, set_lru (to_front i (lru s)) s)) ;;
  release bc_lock set_bc_lock.

(** Callers write through [b->data]. *)
Definition set_data (i : nat) (d : block) : cm bcache unit :=
  b ← buf_at i; buf_set i (with_data d b).

Definition get_data (i : nat) : cm bcache block := b ← buf_at i; mret (data b).

(** [binit] links the buffers in reverse order of the array. *)
Definition binit (size : Z) (d : Z → block) (p : Z) : bcache :=
  BCache (replicate NBUF (Buf 0 0 0 None 0 (replicate (Z.to_nat BSIZE) 0)))
    (rev (seq 0 NBUF)) false d size [] p.

(** ** Invariant and abstraction *)

(** The flags the driver and the log leave: fresh, clean or to be written. *)
Definition CLEAN : Z := B_VALID.
Definition PINNED : Z := Z.lor B_VALID B_DIRTY.

(** A buffer is empty, idle or held by the process; an idle clean one agrees with
    the disk. *)
Inductive buf_ok (s : bcache) : buf → Prop :=
| buf_empty n d : buf_ok s (Buf 0 0 n None 0 d)
| buf_clean n :
    0 ≤ n < disksize s → buf_ok s (Buf CLEAN ROOTDEV n None 0 (disk s n))
| buf_pinned n d :
    0 ≤ n < disksize s → buf_ok s (Buf PINNED ROOTDEV n None 0 d)
| buf_held f n d :
    0 ≤ n < disksize s → f = CLEAN ∨ f = PINNED →
    buf_ok s (Buf f ROOTDEV n (Some (pid s)) 1 d).

Record wf (s : bcache) : Prop := {
  wf_len : length (bufs s) = NBUF;
  wf_lru : lru s ≡ₚ seq 0 NBUF;
  wf_lock : bc_lock s = false;
  wf_uniq i j b b' :
    bufs s !! i = Some b → bufs s !! j = Some b' →
    dev b = ROOTDEV → dev b' = ROOTDEV → blockno b = blockno b' → i = j;
  wf_buf i b : bufs s !! i = Some b → buf_ok s b
}.

(** Buffer [i] is [b] and caches block [n]. *)
Definition caches (s : bcache) (i : nat) (n : Z) (b : buf) : Prop :=
  bufs s !! i = Some b ∧ dev b = ROOTDEV ∧ blockno b = n.

(** What the cache promises of block [n]: its current contents, whether it is pinned
    for the log, whether the process holds it (in buffer [i]). *)
Definition look (s : bcache) (n : Z) : block :=
  match find_buf (is_block ROOTDEV n) (lru s) (bufs s) with
  | Some i => from_option data [] (bufs s !! i)
  | None => disk s n
  end.
Definition pinned (s : bcache) (n : Z) : Prop :=
  ∃ i b, caches s i n b ∧ flags b = PINNED.
Definition holds_at (s : bcache) (i : nat) (n : Z) : Prop :=
  ∃ b, caches s i n b ∧ owner b = Some (pid s).
Definition held (s : bcache) (n : Z) : Prop := ∃ i, holds_at s i n.

(** At most [NBUF - 1] blocks are pinned or held: there is a buffer to recycle. *)
Definition roomy (s : bcache) : Prop :=
  ∃ l, (∀ n, pinned s n ∨ held s n → n ∈ l) ∧ (length l < NBUF)%nat.

(** ** Lemmas: searching *)

Lemma find_buf_Some p l bs i :
  find_buf p l bs = Some i → i ∈ l ∧ ∃ b, bs !! i = Some b ∧ p b = true.
Proof.
  induction l as [|j l IH]; [done|]. cbn [find_buf]. destruct (bs !! j) as [b|] eqn:Ej; [|done].
  destruct (p b) eqn:Ep.
  - intros [= <-]. split; [left|by exists b].
  - intros [Hi Hb]%IH. split; [by right|done].
Qed.

Lemma find_buf_None p l bs :
  (∀ i, i ∈ l → is_Some (bs !! i)) → find_buf p l bs = None →
  ∀ i b, i ∈ l → bs !! i = Some b → p b = false.
Proof.
  intros Hl. induction l as [|j l IH]; intros E i b Hi Hb; [by apply not_elem_of_nil in Hi|].
  cbn [find_buf] in E. destruct (Hl j) as [bj Ej]; [left|]. rewrite Ej in E.
  destruct (p bj) eqn:Ep; [done|]. apply elem_of_cons in Hi as [->|Hi]; [congruence|].
  eapply IH; try done. intros k Hk. apply Hl. by right.
Qed.

Section facts.
Context (s : bcache) (Hwf : wf s).

Lemma lru_bound i : i ∈ lru s ↔ (i < NBUF)%nat.
Proof. rewrite (wf_lru s Hwf), elem_of_seq. unfold NBUF. lia. Qed.

Lemma bufs_bound i b : bufs s !! i = Some b → (i < NBUF)%nat.
Proof. intros Hi%lookup_lt_Some. by rewrite (wf_len s Hwf) in Hi. Qed.

Lemma bufs_lookup i : (i < NBUF)%nat → is_Some (bufs s !! i).
Proof. intros Hi. apply lookup_lt_is_Some. by rewrite (wf_len s Hwf). Qed.

(** The search by block number finds the one buffer that caches it. *)
Lemma find_caches n i b : caches s i n b → find_buf (is_block ROOTDEV n) (lru s) (bufs s) = Some i.
Proof.
  intros (Hi & Hd & Hn). destruct (find_buf _ _ _) as [j|] eqn:E.
  - apply find_buf_Some in E as (_ & b' & Hj & Hp). unfold is_block in Hp. zbool.
    f_equal. eapply (wf_uniq s Hwf); try done; congruence.
  - exfalso. assert (is_block ROOTDEV n b = false) as Hf.
    { eapply find_buf_None; [|exact E| |exact Hi].
      - intros k Hk%lru_bound. by apply bufs_lookup.
      - apply lru_bound. by eapply bufs_bound. }
    unfold is_block in Hf. rewrite Hd, Hn, !Z.eqb_refl in Hf. done.
Qed.

Lemma find_caches_inv n i :
  find_buf (is_block ROOTDEV n) (lru s) (bufs s) = Some i → ∃ b, caches s i n b.
Proof.
  intros (_ & b & Hb & Hp)%find_buf_Some. unfold is_block in Hp. zbool. exists b. by split_and!.
Qed.

Lemma look_caches n i b : caches s i n b → look s n = data b.
Proof. intros Hc. unfold look. rewrite (find_caches _ _ _ Hc). by destruct Hc as [-> _]. Qed.

Lemma look_uncached n : (∀ i b, ¬ caches s i n b) → look s n = disk s n.
Proof.
  intros Hn. unfold look. destruct (find_buf _ _ _) as [i|] eqn:E; [|done].
  apply find_caches_inv in E as [b Hb]. by apply Hn in Hb.
Qed.

Lemma caches_dec n : (∃ i b, caches s i n b) ∨ (∀ i b, ¬ caches s i n b).
Proof.
  destruct (find_buf (is_block ROOTDEV n) (lru s) (bufs s)) as [i|] eqn:E.
  - apply find_caches_inv in E as [b Hb]. eauto.
  - right. intros i b Hc. rewrite (find_caches _ _ _ Hc) in E. done.
Qed.

(** What is known of a buffer that caches a block. *)
Lemma caches_ok n i b :
  caches s i n b → 0 ≤ n < disksize s ∧
  ((owner b = None ∧ refcnt b = 0 ∧ (flags b = CLEAN ∧ data b = disk s n ∨ flags b = PINNED)) ∨
   (owner b = Some (pid s) ∧ refcnt b = 1 ∧ (flags b = CLEAN ∨ flags b = PINNED))).
Proof.
  intros (Hi & Hd & Hn). pose proof (wf_buf s Hwf i b Hi) as Hok.
  destruct Hok; simpl in *; subst; try done; auto 10.
Qed.

(** An idle clean block is on the disk. *)
Lemma look_clean n : ¬ pinned s n → ¬ held s n → look s n = disk s n.
Proof.
  intros Hp Hh. destruct (caches_dec n) as [(i & b & Hc)|Hn]; [|by apply look_uncached].
  rewrite (look_caches _ _ _ Hc).
  destruct (caches_ok _ _ _ Hc) as [_ [(_ & _ & [[_ Hd]|Hf])|(Ho & _)]]; [done| |].
  - exfalso. apply Hp. by exists i, b.
  - exfalso. apply Hh. by exists i, b.
Qed.

(** By counting: with fewer than [NBUF] blocks pinned or held, the second search of
    [bget] succeeds. *)
Lemma roomy_unused : roomy s → ∃ i b,
  find_buf unused (rev (lru s)) (bufs s) = Some i ∧ bufs s !! i = Some b ∧ unused b = true.
Proof.
  intros (l & Hl & Hlen). destruct (find_buf unused _ _) as [i|] eqn:E.
  { apply find_buf_Some in E as (_ & b & ? & ?). by exists i, b. }
  exfalso. assert (Hall : ∀ i b, bufs s !! i = Some b → dev b = ROOTDEV ∧ blockno b ∈ l).
  { intros i b Hi. assert (Hu : unused b = false).
    { eapply find_buf_None; [|exact E| |exact Hi].
      - intros j Hj. apply bufs_lookup. by apply lru_bound, elem_of_rev.
      - apply elem_of_rev, lru_bound. by eapply bufs_bound. }
    pose proof (wf_buf s Hwf i b Hi) as Hok. destruct Hok as [n d|n Hr|n d Hr|f n d Hr Hf]; try done.
    - split; [done|]. apply Hl. left. by exists i, (Buf PINNED ROOTDEV n None 0 d).
    - split; [done|]. apply Hl. right. by exists i, (Buf f ROOTDEV n (Some (pid s)) 1 d). }
  assert (Hnd : NoDup (blockno <$> bufs s)).
  { apply NoDup_alt. intros i j n Hi Hj. apply list_lookup_fmap_Some in Hi as (b & -> & Hi).
    apply list_lookup_fmap_Some in Hj as (b' & E' & Hj).
    eapply (wf_uniq s Hwf); try done; by eapply Hall. }
  assert (Hsub : blockno <$> bufs s ⊆+ l).
  { apply NoDup_submseteq; [done|]. intros n (b & -> & [i Hi]%list_elem_of_lookup)%list_elem_of_fmap.
    by eapply Hall. }
  apply submseteq_length in Hsub. rewrite length_fmap, (wf_len s Hwf) in Hsub. lia.
Qed.

End facts.

(** ** Lemmas: changing one buffer *)

Definition put_buf (i : nat) (b : buf) (s : bcache) : bcache := set_bufs (<[i := b]> (bufs s)) s.

Lemma buf_at_put i b s : (i < length (bufs s))%nat → buf_at i (put_buf i b s) = Ok b (put_buf i b s).
Proof. intros. unfold buf_at, put_buf. simpl. by rewrite list_lookup_insert_eq. Qed.

Lemma put_buf_put i b b' s : put_buf i b' (put_buf i b s) = put_buf i b' s.
Proof. unfold put_buf, set_bufs. simpl. by rewrite list_insert_insert_eq. Qed.

Lemma caches_put i b s j n c :
  (i < length (bufs s))%nat →
  caches (put_buf i b s) j n c ↔
    (j = i ∧ c = b ∧ dev b = ROOTDEV ∧ blockno b = n) ∨ (j ≠ i ∧ caches s j n c).
Proof.
  intros Hi. unfold caches, put_buf. simpl. destruct (decide (j = i)) as [->|Hj].
  - rewrite list_lookup_insert_eq by done. naive_solver.
  - rewrite list_lookup_insert_ne by done. naive_solver.
Qed.

Lemma buf_ok_frame s s' b :
  disksize s' = disksize s → pid s' = pid s → (flags b = CLEAN → owner b = None → disk s' (blockno b) = disk s (blockno b)) →
  buf_ok s b → buf_ok s' b.
Proof.
  intros Hs Hp Hd Hb. destruct Hb as [n d|n Hr|n d Hr|f n d Hr Hf].
  - apply buf_empty.
  - simpl in Hd. rewrite <- Hd by done. apply buf_clean. by rewrite Hs.
  - apply buf_pinned. by rewrite Hs.
  - rewrite <- Hp. apply buf_held; [by rewrite Hs|done].
Qed.

Lemma wf_put s i b b' :
  wf s → bufs s !! i = Some b → buf_ok s b' →
  (dev b' = ROOTDEV → ∀ j c, j ≠ i → ¬ caches s j (blockno b') c) →
  wf (put_buf i b' s).
Proof.
  intros Hwf Hi Hok Hu. pose proof (lookup_lt_Some _ _ _ Hi) as Hlt. destruct Hwf as [Hl Hr Hk Hq Hb].
  constructor; simpl; try done.
  - by rewrite length_insert.
  - intros j k c c' Hj Hc Hd Hd' He.
    destruct (decide (j = i)) as [->|Hji], (decide (k = i)) as [->|Hki]; [done| | |].
    + rewrite list_lookup_insert_eq in Hj by done. rewrite list_lookup_insert_ne in Hc by done.
      simplify_eq. exfalso. eapply (Hu Hd k); [done|]. split_and!; done.
    + rewrite list_lookup_insert_eq in Hc by done. rewrite list_lookup_insert_ne in Hj by done.
      simplify_eq. exfalso. eapply (Hu Hd' j); [done|]. split_and!; done.
    + rewrite list_lookup_insert_ne in Hj, Hc by done. by eapply Hq.
  - intros j c Hj. assert (buf_ok s c) as Hc.
    { destruct (decide (j = i)) as [->|Hji].
      - rewrite list_lookup_insert_eq in Hj by done. by simplify_eq.
      - rewrite list_lookup_insert_ne in Hj by done. by eapply Hb. }
    by apply (buf_ok_frame s).
Qed.

(** A block has one buffer. *)
Lemma same_only s i n b j c : wf s → caches s i n b → caches s j n c → j = i ∧ c = b.
Proof.
  intros Hwf (Hi & ? & ?) (Hj & ? & ?).
  assert (j = i) as -> by (eapply (wf_uniq s Hwf); try done; congruence). naive_solver.
Qed.

(** Replacing a buffer by one of the same block. *)
Section same_block.
Context (s : bcache) (i : nat) (n : Z) (b b' : buf).
Context (Hwf : wf s) (Hc : caches s i n b) (Hok : buf_ok s b')
  (Hd : dev b' = ROOTDEV) (Hn : blockno b' = n).

Lemma same_lt : (i < length (bufs s))%nat.
Proof. destruct Hc as [Hi _]. by eapply lookup_lt_Some. Qed.

Lemma same_wf : wf (put_buf i b' s).
Proof.
  eapply wf_put; [done|apply Hc|done|]. intros _ j c Hj Hcj. rewrite Hn in Hcj.
  by destruct (same_only s i n b j c Hwf Hc Hcj) as [-> _].
Qed.

Lemma same_caches j m c :
  caches (put_buf i b' s) j m c ↔ (j = i ∧ m = n ∧ c = b') ∨ (m ≠ n ∧ caches s j m c).
Proof.
  rewrite caches_put by apply same_lt. split.
  - intros [(-> & -> & _ & <-)|[Hj Hm]]; [by left|].
    right. split; [|done]. intros ->. by destruct (same_only s i n b j c Hwf Hc Hm) as [-> _].
  - intros [(-> & -> & ->)|[Hm Hj]]; [by left|]. right. split; [|done].
    intros ->. destruct Hj as (Hj & _ & Hm'), Hc as (Hi & _ & Hn'). congruence.
Qed.

Lemma same_look m : look (put_buf i b' s) m = if decide (m = n) then data b' else look s m.
Proof.
  case_decide as Hm; [subst m; eapply look_caches; [apply same_wf|]|].
  - apply same_caches. by left.
  - destruct (caches_dec s Hwf m) as [(j & c & Hj)|Hno].
    + rewrite (look_caches s Hwf m j c Hj). eapply look_caches; [apply same_wf|].
      apply same_caches. by right.
    + rewrite (look_uncached s m Hno), look_uncached; [done|]. intros j c [(_ & ? & _)|[_ Hj]]%same_caches; [done|].
      by eapply Hno.
Qed.

Lemma same_pinned m :
  pinned (put_buf i b' s) m ↔ if decide (m = n) then flags b' = PINNED else pinned s m.
Proof.
  unfold pinned. setoid_rewrite same_caches. case_decide as Hm; [subst m|]; split.
  - intros (j & c & [(_ & _ & ->)|[? _]] & Hf); done.
  - intros Hf. exists i, b'. split; [by left|done].
  - intros (j & c & [(_ & ? & _)|[_ Hj]] & Hf); [done|by exists j, c].
  - intros (j & c & Hj & Hf). exists j, c. split; [by right|done].
Qed.

Lemma same_holds j m :
  holds_at (put_buf i b' s) j m ↔
    if decide (m = n) then j = i ∧ owner b' = Some (pid s) else holds_at s j m.
Proof.
  unfold holds_at. setoid_rewrite same_caches. simpl pid. case_decide as Hm; [subst m|]; split.
  - intros (c & [(-> & _ & ->)|[? _]] & Hf); done.
  - intros [-> Ho]. exists b'. split; [by left|done].
  - intros (c & [(_ & ? & _)|[_ Hj]] & Hf); [done|by exists c].
  - intros (c & Hj & Hf). exists c. split; [by right|done].
Qed.

End same_block.

(** Recycling an unused buffer for an uncached block. *)
Section recycle.
Context (s : bcache) (i : nat) (n : Z) (b : buf).
Context (Hwf : wf s) (Hi : bufs s !! i = Some b) (Hu : unused b = true)
  (Hno : ∀ j c, ¬ caches s j n c) (Hr : 0 ≤ n < disksize s).

Definition fresh_buf : buf := Buf CLEAN ROOTDEV n (Some (pid s)) 1 (disk s n).

Lemma recycle_victim m : caches s i m b → ¬ pinned s m ∧ ¬ held s m.
Proof.
  intros Hm. destruct (caches_ok s Hwf m i b Hm) as [_ Hok]. unfold unused in Hu.
  destruct Hok as [(Ho & Hrc & [[Hf _]|Hf])|(Ho & Hrc & _)];
    [|rewrite Hf, andb_false_r in Hu; done|rewrite Hrc in Hu; done].
  split.
  - intros (j & c & Hj & Hfc). apply (same_only s i m b _ _ Hwf Hm) in Hj as [_ ->].
    by rewrite Hf in Hfc.
  - intros (j & c & Hj & Hfc). apply (same_only s i m b _ _ Hwf Hm) in Hj as [_ ->]. congruence.
Qed.

Lemma recycle_wf : wf (put_buf i fresh_buf s).
Proof.
  eapply wf_put; [done|exact Hi|apply buf_held; auto|].
  intros _ j c _. apply Hno.
Qed.

Lemma recycle_caches j m c :
  caches (put_buf i fresh_buf s) j m c ↔
    (j = i ∧ c = fresh_buf ∧ m = n) ∨ (j ≠ i ∧ caches s j m c).
Proof.
  rewrite caches_put by (by eapply lookup_lt_Some). simpl. naive_solver.
Qed.

Lemma recycle_look m : look (put_buf i fresh_buf s) m = look s m.
Proof.
  destruct (decide (m = n)) as [->|Hm].
  { rewrite (look_uncached s n Hno).
    assert (caches (put_buf i fresh_buf s) i n fresh_buf) as Hc by (apply recycle_caches; by left).
    by rewrite (look_caches _ recycle_wf _ _ _ Hc). }
  destruct (caches_dec s Hwf m) as [(j & c & Hj)|Hnc].
  - destruct (decide (j = i)) as [->|Hji].
    + assert (c = b) as -> by (destruct Hj; congruence).
      destruct (recycle_victim m Hj) as [Hp Hh]. rewrite (look_clean s Hwf m Hp Hh).
      etrans; [apply look_uncached|done].
      intros k c [(_ & _ & ?)|[Hk Hc]]%recycle_caches; [done|].
      by apply (same_only s i m b _ _ Hwf Hj) in Hc as [-> _].
    + rewrite (look_caches s Hwf m j c Hj). eapply look_caches; [apply recycle_wf|].
      apply recycle_caches. by right.
  - rewrite (look_uncached s m Hnc). etrans; [apply look_uncached|done].
    intros k c [(_ & _ & ?)|[Hk Hc]]%recycle_caches; [done|]. by eapply Hnc.
Qed.

Lemma recycle_pinned m : pinned (put_buf i fresh_buf s) m ↔ pinned s m.
Proof.
  unfold pinned. setoid_rewrite recycle_caches. split.
  - intros (j & c & [(_ & -> & _)|[_ Hj]] & Hf); [done|by exists j, c].
  - intros (j & c & Hj & Hf). exists j, c. split; [right|done]. split; [|done]. intros ->.
    assert (c = b) as -> by (destruct Hj; congruence).
    destruct (recycle_victim m Hj) as [Hp _]. apply Hp. by exists i, b.
Qed.

Lemma recycle_holds j m :
  holds_at (put_buf i fresh_buf s) j m ↔ holds_at s j m ∨ (j = i ∧ m = n).
Proof.
  unfold holds_at. setoid_rewrite recycle_caches. split.
  - intros (c & [(-> & -> & ->)|[_ Hj]] & Ho); [by right|]. left. by exists c.
  - intros [(c & Hj & Ho)|[-> ->]].
    + exists c. split; [right|done]. split; [|done]. intros ->.
      assert (c = b) as -> by (destruct Hj; congruence).
      destruct (recycle_victim m Hj) as [_ Hh]. apply Hh. by exists i, b.
    + exists fresh_buf. split; [by left|done].
Qed.

End recycle.

(** ** What the operations promise *)

(** After [bread]: block [n] is held in buffer [i], nothing else changed. *)
Record grabbed (s : bcache) (n : Z) (i : nat) (s' : bcache) : Prop := {
  gr_wf : wf s';
  gr_look m : look s' m = look s m;
  gr_pinned m : pinned s' m ↔ pinned s m;
  gr_holds j m : holds_at s' j m ↔ holds_at s j m ∨ (j = i ∧ m = n);
  gr_disk : disk s' = disk s;
  gr_trace : trace s' = trace s;
  gr_size : disksize s' = disksize s;
  gr_pid : pid s' = pid s
}.

Ltac bsimpl :=
  cbn [bufs lru bc_lock disk disksize trace pid set_bufs set_lru set_bc_lock disk_write
       flags dev blockno owner refcnt data with_flags with_owner with_refcnt with_data
       buf_set modify mret cm_ret negb cwhen gets get].

(** The run of [bread] on a cached block. *)
Lemma bread_cached s n i b :
  wf s → caches s i n b → owner b = None → refcnt b = 0 → flags b = CLEAN ∨ flags b = PINNED →
  bread ROOTDEV n s = Ok i (put_buf i (Buf (flags b) ROOTDEV n (Some (pid s)) 1 (data b)) s).
Proof.
  intros Hwf Hc Ho Hrc Hf. pose proof Hc as (Hi & Hd & Hn). pose proof (lookup_lt_Some _ _ _ Hi) as Hlt.
  unfold bread, bget. unfold mbind, cm_bind, acquire at 1. rewrite (wf_lock s Hwf). bsimpl.
  rewrite (find_caches s Hwf n i b Hc). unfold buf_at at 1. bsimpl. rewrite Hi. bsimpl.
  unfold release. bsimpl. unfold acquiresleep, mbind, cm_bind, buf_at, gets.
  bsimpl. rewrite list_lookup_insert_eq by done. bsimpl. rewrite Ho. bsimpl.
  rewrite list_lookup_insert_eq by (by rewrite ?length_insert). rewrite list_insert_insert_eq.
  assert (Hv : (Z.land (flags b) B_VALID =? 0) = false) by (by destruct Hf as [-> | ->]).
  bsimpl. rewrite Hv. bsimpl. f_equal. unfold put_buf, set_bufs.
  pose proof (wf_lock s Hwf) as Hlk. destruct s as [bs lr lk dk sz tr p]. simpl in *.
  f_equal; [|done]. f_equal. unfold with_owner, with_refcnt. simpl. by rewrite Hd, Hn, Hrc.
Qed.

(** The run of [bread] that recycles a buffer. *)
Lemma bread_recycled s n i b :
  wf s → (∀ j c, ¬ caches s j n c) → 0 ≤ n < disksize s →
  find_buf unused (rev (lru s)) (bufs s) = Some i → bufs s !! i = Some b → owner b = None →
  bread ROOTDEV n s = Ok i (put_buf i (fresh_buf s n) s).
Proof.
  intros Hwf Hno Hr Eu Hi Ho. pose proof (lookup_lt_Some _ _ _ Hi) as Hlt.
  unfold bread, bget. unfold mbind, cm_bind, acquire at 1. rewrite (wf_lock s Hwf). bsimpl.
  destruct (find_buf (is_block ROOTDEV n) (lru s) (bufs s)) as [j|] eqn:Ef.
  { apply find_caches_inv in Ef as [c Hc]. by apply Hno in Hc. }
  rewrite Eu. unfold buf_at at 1. bsimpl. rewrite Hi. bsimpl.
  unfold release. bsimpl. unfold acquiresleep, mbind, cm_bind, buf_at, gets.
  bsimpl. rewrite list_lookup_insert_eq by done. bsimpl. rewrite Ho. bsimpl.
  rewrite list_lookup_insert_eq by (by rewrite ?length_insert). rewrite list_insert_insert_eq.
  bsimpl. change (Z.land 0 B_VALID =? 0) with true.
  bsimpl. unfold iderw, holdingsleep, mbind, cm_bind, buf_at, gets.
  bsimpl. rewrite list_lookup_insert_eq by done. bsimpl. rewrite bool_decide_true by done.
  rewrite list_lookup_insert_eq by done. bsimpl.
  change (Z.land 0 (Z.lor B_VALID B_DIRTY) =? B_VALID) with false. change (ROOTDEV =? 1) with true.
  bsimpl. rewrite (proj2 (Z.leb_gt _ n)) by (simpl; lia). change (Z.land 0 B_DIRTY =? 0) with true.
  bsimpl. unfold gets, buf_set, modify. bsimpl. rewrite list_insert_insert_eq. bsimpl. f_equal.
  pose proof (wf_lock s Hwf) as Hlk. unfold put_buf, set_bufs.
  destruct s as [bs lr lk dk sz tr p]. simpl in *. by subst.
Qed.

Lemma bread_ok s n :
  wf s → 0 ≤ n < disksize s → ¬ held s n → pinned s n ∨ roomy s →
  ∃ i s', bread ROOTDEV n s = Ok i s' ∧ grabbed s n i s'.
Proof.
  intros Hwf Hr Hh Hroom. destruct (caches_dec s Hwf n) as [(i & b & Hc)|Hno].
  - destruct (caches_ok s Hwf n i b Hc) as [_ [(Ho & Hrc & Hf)|(Ho & _)]].
    2: { exfalso. apply Hh. by exists i, b. }
    assert (Hf' : flags b = CLEAN ∨ flags b = PINNED) by naive_solver.
    set (b' := Buf (flags b) ROOTDEV n (Some (pid s)) 1 (data b)).
    assert (Hok : buf_ok s b') by (by apply buf_held).
    exists i, (put_buf i b' s). split; [by apply bread_cached|]. split; try done.
    + by eapply same_wf.
    + intros m. rewrite (same_look s i n b b') by done. case_decide as Hm; [|done]. subst m.
      symmetry. by apply look_caches with (i := i) (b := b).
    + intros m. rewrite (same_pinned s i n b b') by done. case_decide as Hm; [subst m|done].
      split; [intros Hp; by exists i, b|]. intros (j & c & Hj & Hp).
      by apply (same_only s i n b _ _ Hwf Hc) in Hj as [_ ->].
    + intros j m. rewrite (same_holds s i n b b') by done. case_decide as Hm; [subst m|naive_solver].
      split; [intros [-> _]; by right|]. intros [Hj|[-> _]]; [|done]. exfalso. apply Hh. by exists j.
  - destruct Hroom as [(i & b & Hb & _)|Hroom]; [by apply Hno in Hb|].
    destruct (roomy_unused s Hwf Hroom) as (i & b & Eu & Hi & Hu).
    assert (Ho : owner b = None).
    { pose proof (wf_buf s Hwf i b Hi) as Hok. unfold unused in Hu. by destruct Hok. }
    exists i, (put_buf i (fresh_buf s n) s). split; [by eapply bread_recycled|]. split; try done.
    + by eapply recycle_wf.
    + intros m. by eapply recycle_look.
    + intros m. by eapply recycle_pinned.
    + intros j m. by eapply recycle_holds.
Qed.

(** The buffer behind a handle. *)
Lemma holds_info s i n :
  wf s → holds_at s i n →
  ∃ f, caches s i n (Buf f ROOTDEV n (Some (pid s)) 1 (look s n)) ∧ (f = CLEAN ∨ f = PINNED) ∧
       0 ≤ n < disksize s.
Proof.
  intros Hwf (b & Hc & Ho). rewrite (look_caches s Hwf n i b Hc).
  destruct (caches_ok s Hwf n i b Hc) as [Hr [(Ho' & _)|(_ & Hrc & Hf)]]; [congruence|].
  exists (flags b). split; [|done]. pose proof Hc as (Hi & Hd & Hn).
  destruct b; simpl in *; subst. done.
Qed.

(** A change of what block [n] holds: contents [d], pinned or not as [p] says. *)
Record changed (s : bcache) (n : Z) (d : block) (p : Prop) (s' : bcache) : Prop := {
  ch_wf : wf s';
  ch_look m : look s' m = if decide (m = n) then d else look s m;
  ch_pinned m : pinned s' m ↔ if decide (m = n) then p else pinned s m;
  ch_holds j m : holds_at s' j m ↔ holds_at s j m;
  ch_size : disksize s' = disksize s;
  ch_pid : pid s' = pid s
}.

Lemma put_held s i n f f' d :
  wf s → caches s i n (Buf f ROOTDEV n (Some (pid s)) 1 (look s n)) →
  (f' = CLEAN ∨ f' = PINNED) → 0 ≤ n < disksize s →
  changed s n d (f' = PINNED) (put_buf i (Buf f' ROOTDEV n (Some (pid s)) 1 d) s).
Proof.
  intros Hwf Hc Hf Hr. set (b' := Buf f' _ _ _ _ _).
  assert (Hok : buf_ok s b') by (by apply buf_held).
  split; try done.
  - by eapply same_wf.
  - intros m. by rewrite (same_look s i n _ b' Hwf Hc).
  - intros m. by rewrite (same_pinned s i n _ b' Hwf Hc).
  - intros j m. rewrite (same_holds s i n _ b' Hwf Hc) by done.
    case_decide as Hm; [subst m|done]. split.
    + intros [-> _]. by eexists.
    + intros (c & Hj & _). by apply (same_only s i n _ _ _ Hwf Hc) in Hj as [-> _].
Qed.

(** Storing through [b->data]. *)
Lemma set_data_ok s i n d :
  wf s → holds_at s i n →
  ∃ s', set_data i d s = Ok tt s' ∧ changed s n d (pinned s n) s' ∧
        disk s' = disk s ∧ trace s' = trace s.
Proof.
  intros Hwf Hh. destruct (holds_info s i n Hwf Hh) as (f & Hc & Hf & Hr).
  exists (put_buf i (Buf f ROOTDEV n (Some (pid s)) 1 d) s). split_and!; try done.
  - unfold set_data, mbind, cm_bind, buf_at. destruct Hc as [-> _]. done.
  - pose proof (put_held s i n f f d Hwf Hc Hf Hr) as Hch. destruct Hch; split; try done.
    intros m. rewrite ch_pinned0. case_decide as Hm; [|done]. split.
    + intros ->. by eexists i, _.
    + intros (j & c & Hj & Hp). by apply (same_only s i n _ _ _ Hwf Hc) in Hj as [_ ->].
Qed.

Lemma get_data_ok s i n : wf s → holds_at s i n → get_data i s = Ok (look s n) s.
Proof.
  intros Hwf Hh. destruct (holds_info s i n Hwf Hh) as (f & (Hi & _) & _).
  unfold get_data, mbind, cm_bind, buf_at. by rewrite Hi.
Qed.

(** [b->flags |= B_DIRTY], as the log does. *)
Definition bpin (i : nat) : cm bcache unit :=
  b ← buf_at i;
  buf_set i (with_flags (Z.lor (flags b) B_DIRTY) b).

Lemma bpin_ok s i n :
  wf s → holds_at s i n →
  ∃ s', bpin i s = Ok tt s' ∧ changed s n (look s n) True s' ∧ disk s' = disk s ∧ trace s' = trace s.
Proof.
  intros Hwf Hh. destruct (holds_info s i n Hwf Hh) as (f & Hc & Hf & Hr).
  exists (put_buf i (Buf PINNED ROOTDEV n (Some (pid s)) 1 (look s n)) s). split_and!; try done.
  - unfold bpin, mbind, cm_bind, buf_at. destruct Hc as [-> _]. by destruct Hf as [-> | ->].
  - pose proof (put_held s i n f PINNED (look s n) Hwf Hc ltac:(auto) Hr) as Hch.
    destruct Hch; split; try done. intros m. rewrite ch_pinned0. by case_decide.
Qed.

(** ** Writing and releasing *)

(** The disk changes under a block that is held: clean buffers of other blocks still
    agree with it. *)
Lemma wf_disk_write s i n d :
  wf s → holds_at s i n → wf (disk_write n d s).
Proof.
  intros Hwf Hh. destruct (holds_info s i n Hwf Hh) as (f & Hc & _ & _).
  destruct Hwf as [Hl Hr Hk Hq Hb]. constructor; simpl; try done.
  intros j b Hj. apply (buf_ok_frame s); [done|done| |by eapply Hb].
  intros Hf Ho. simpl. destruct (decide (blockno b = n)) as [Hn|Hn]; [|by rewrite upd_ne].
  exfalso. assert (Hd : dev b = ROOTDEV) by (pose proof (Hb j b Hj) as Hok; by destruct Hok).
  destruct Hc as (Hi & _). assert (j = i) as -> by (by eapply (Hq j i)).
  rewrite Hj in Hi. injection Hi as ->. done.
Qed.

Lemma look_disk_write s i n d m : wf s → holds_at s i n → look (disk_write n d s) m = look s m.
Proof.
  intros Hwf Hh. destruct (holds_info s i n Hwf Hh) as (f & Hc & _ & _).
  unfold look. cbn [lru bufs disk disk_write].
  destruct (find_buf (is_block ROOTDEV m) (lru s) (bufs s)) eqn:E; [done|].
  apply upd_ne. intros ->. by rewrite (find_caches s Hwf n i _ Hc) in E.
Qed.

Lemma bwrite_ok s i n :
  wf s → holds_at s i n →
  ∃ s', bwrite i s = Ok tt s' ∧ changed s n (look s n) False s' ∧
        disk s' = upd (disk s) n (look s n) ∧ trace s' = trace s ++ [(n, look s n)].
Proof.
  intros Hwf Hh. destruct (holds_info s i n Hwf Hh) as (f & Hc & Hf & Hr).
  pose proof Hc as (Hi & _). pose proof (lookup_lt_Some _ _ _ Hi) as Hlt.
  set (s1 := put_buf i (Buf CLEAN ROOTDEV n (Some (pid s)) 1 (look s n)) s).
  pose proof (put_held s i n f CLEAN (look s n) Hwf Hc ltac:(auto) Hr) as Hch. fold s1 in Hch.
  assert (Hh1 : holds_at s1 i n) by (by apply (ch_holds _ _ _ _ _ Hch)).
  exists (disk_write n (look s n) s1). split_and!; try done.
  - unfold bwrite, holdingsleep, mbind, cm_bind, buf_at, gets. rewrite Hi. bsimpl.
    rewrite bool_decide_true by done. bsimpl. rewrite Hi. bsimpl.
    unfold iderw, holdingsleep, mbind, cm_bind, buf_at, gets. bsimpl.
    rewrite list_lookup_insert_eq by done. bsimpl. rewrite bool_decide_true by done.
    bsimpl. rewrite list_lookup_insert_eq by done. bsimpl.
    rewrite (proj2 (Z.leb_gt _ n)) by lia. change (ROOTDEV =? 1) with true. bsimpl.
    assert (Hl : Z.lor f B_DIRTY = PINNED) by (by destruct Hf as [-> | ->]). rewrite Hl.
    change (Z.land PINNED (Z.lor B_VALID B_DIRTY) =? B_VALID) with false.
    change (Z.land PINNED B_DIRTY =? 0) with false. bsimpl.
    unfold buf_set, modify. bsimpl. rewrite list_insert_insert_eq. done.
  - destruct Hch as [Hw Hlk Hpn Hhd Hsz Hpd]. split.
    + by eapply wf_disk_write.
    + intros m. rewrite (look_disk_write s1 i n) by done. apply Hlk.
    + intros m. change (pinned (disk_write n (look s n) s1) m) with (pinned s1 m).
      rewrite Hpn. by case_decide.
    + done.
    + done.
    + done.
Qed.

Lemma to_front_perm i l : NoDup l → i ∈ l → to_front i l ≡ₚ l.
Proof.
  intros Hnd Hi. unfold to_front. apply list_elem_of_split in Hi as (l1 & l2 & ->).
  apply NoDup_app in Hnd as (Hn1 & Hd & Hn2). apply NoDup_cons in Hn2 as [Hi2 Hn2].
  rewrite filter_app, filter_cons_False by (by intros ?).
  assert (Hf : ∀ l : list nat, i ∉ l → filter (λ j, j ≠ i) l = l).
  { intros l Hl. induction l as [|j l IH]; [done|]. apply not_elem_of_cons in Hl as [Hj Hl].
    rewrite filter_cons_True by congruence. by rewrite IH. }
  rewrite !Hf; [|done|].
  - apply Permutation_middle.
  - intros Hi1. apply (Hd i Hi1). left.
Qed.

(** Releasing a block: it stays cached, and has to be on the disk unless it is
    pinned. *)
Record released (s : bcache) (n : Z) (s' : bcache) : Prop := {
  re_wf : wf s';
  re_look m : look s' m = look s m;
  re_pinned m : pinned s' m ↔ pinned s m;
  re_holds j m : holds_at s' j m ↔ holds_at s j m ∧ m ≠ n;
  re_disk : disk s' = disk s;
  re_trace : trace s' = trace s;
  re_size : disksize s' = disksize s;
  re_pid : pid s' = pid s
}.

Lemma look_set_lru s l m : wf s → l ≡ₚ lru s → look (set_lru l s) m = look s m.
Proof.
  intros Hwf Hl. assert (Hwf' : wf (set_lru l s)).
  { destruct Hwf as [? ? ? ? Hb]. constructor; simpl; try done; [by etrans|].
    intros j b Hj. apply (buf_ok_frame s); [done|done|done|by eapply Hb]. }
  destruct (caches_dec s Hwf m) as [(i & b & Hc)|Hno].
  - rewrite (look_caches s Hwf m i b Hc). by apply (look_caches _ Hwf' m i b).
  - rewrite (look_uncached s m Hno). by apply (look_uncached (set_lru l s)).
Qed.

Lemma brelse_ok s i n :
  wf s → holds_at s i n → pinned s n ∨ look s n = disk s n →
  ∃ s', brelse i s = Ok tt s' ∧ released s n s'.
Proof.
  intros Hwf Hh Hd. destruct (holds_info s i n Hwf Hh) as (f & Hc & Hf & Hr).
  pose proof Hc as (Hi & _). pose proof (lookup_lt_Some _ _ _ Hi) as Hlt.
  set (b' := Buf f ROOTDEV n None 0 (look s n)).
  assert (Hok : buf_ok s b').
  { unfold b'. destruct Hf as [-> | ->]; [|by apply buf_pinned].
    destruct Hd as [(j & c & Hj & Hp)|Hd]; [|rewrite Hd; by apply buf_clean].
    by apply (same_only s i n _ _ _ Hwf Hc) in Hj as [_ ->]. }
  set (s1 := put_buf i b' s). assert (Hwf1 : wf s1) by (by eapply same_wf).
  assert (Hperm : to_front i (lru s1) ≡ₚ lru s1).
  { apply to_front_perm.
    - rewrite (wf_lru s1 Hwf1). apply NoDup_seq.
    - apply (lru_bound s1 Hwf1). by rewrite <- (wf_len s Hwf). }
  exists (set_lru (to_front i (lru s1)) s1). split.
  - unfold brelse, holdingsleep, releasesleep, mbind, cm_bind, buf_at, gets. rewrite Hi. bsimpl.
    rewrite bool_decide_true by done. bsimpl. rewrite Hi. bsimpl.
    unfold acquire. bsimpl. rewrite (wf_lock s Hwf). bsimpl. rewrite list_lookup_insert_eq by done.
    bsimpl. change (u32 (1 - 1)) with 0. change (0 =? 0) with true. bsimpl.
    unfold release, modify. bsimpl. rewrite list_insert_insert_eq.
    unfold s1, put_buf, set_lru, set_bufs, set_bc_lock. bsimpl. by rewrite (wf_lock s Hwf).
  - split; try done.
    + destruct Hwf1 as [? ? ? ? Hb]. constructor; simpl; try done; [by etrans|].
      intros j b Hj. apply (buf_ok_frame s1); [done|done|done|by eapply Hb].
    + intros m. rewrite look_set_lru by done. unfold s1. rewrite (same_look s i n _ b' Hwf Hc) by done.
      case_decide; by subst.
    + intros m. change (pinned s1 m ↔ pinned s m). unfold s1.
      rewrite (same_pinned s i n _ b' Hwf Hc) by done. case_decide as Hm; [subst m|done].
      split; [intros Hp; by eexists i, _|]. intros (j & c & Hj & Hp).
      by apply (same_only s i n _ _ _ Hwf Hc) in Hj as [_ ->].
    + intros j m. change (holds_at s1 j m ↔ holds_at s j m ∧ m ≠ n). unfold s1.
      rewrite (same_holds s i n _ b' Hwf Hc) by done. case_decide as Hm; naive_solver.
Qed.

(** ** The cache as a map of blocks *)

Inductive bop : Type :=
| BRead (n : Z)
| BWrite (n : Z) (d : block).

Definition bop_block (o : bop) : Z := match o with BRead n => n | BWrite n _ => n end.

(** A client that reads and writes blocks, returning what it read. *)
Fixpoint run_bops (ops : list bop) : cm bcache (list block) :=
  match ops with
  | [] => mret []
  | BRead n :: ops' =>
      i ← bread ROOTDEV n;
      d ← get_data i;
      brelse i ;;
      ds ← run_bops ops';
      mret (d :: ds)
  | BWrite n d :: ops' =>
      i ← bread ROOTDEV n;
      set_data i d ;;
      bwrite i ;;
      brelse i ;;
      run_bops ops'
  end.

(** The same on the disk itself. *)
Fixpoint spec_bops (ops : list bop) (m : Z → block) : list block * (Z → block) :=
  match ops with
  | [] => ([], m)
  | BRead n :: ops' => let '(ds, m') := spec_bops ops' m in (m n :: ds, m')
  | BWrite n d :: ops' => spec_bops ops' (upd m n d)
  end.

(** Nothing is held or pinned. *)
Definition idle (s : bcache) : Prop := wf s ∧ (∀ n, ¬ pinned s n) ∧ (∀ n, ¬ held s n).

Lemma idle_roomy s : idle s → roomy s.
Proof.
  intros (_ & Hp & Hh). exists []. split; [|unfold NBUF; simpl; lia].
  intros n [Hn|Hn]; [by apply Hp in Hn|by apply Hh in Hn].
Qed.

Lemma idle_look s n : idle s → look s n = disk s n.
Proof. intros (Hwf & Hp & Hh). by apply look_clean. Qed.

Lemma binit_idle size d p : idle (binit size d p).
Proof.
  assert (Hno : ∀ i n b, ¬ caches (binit size d p) i n b).
  { intros i n b (Hi & Hd & _). unfold binit in Hi. cbn [bufs] in Hi.
    apply lookup_replicate in Hi as [-> _]. done. }
  split; [|split].
  - constructor; simpl; try done.
    + symmetry. apply (Permutation_rev (seq 0 NBUF)).
    + intros i j b b' Hi _ Hd. exfalso. by eapply (Hno i (blockno b) b).
    + intros i b Hi. assert (b = Buf 0 0 0 None 0 (replicate (Z.to_nat BSIZE) 0)) as ->.
      { change (replicate NBUF (Buf 0 0 0 None 0 (replicate (Z.to_nat BSIZE) 0)) !! i = Some b) in Hi.
        by apply lookup_replicate in Hi as [-> _]. }
      apply buf_empty.
  - intros n (i & b & Hc & _). by eapply Hno.
  - intros n (i & b & Hc & _). by eapply Hno.
Qed.

(** One read, from grabbing to releasing. *)
Lemma read_block_ok s n :
  idle s → 0 ≤ n < disksize s →
  returns ((i ← bread ROOTDEV n; d ← get_data i; brelse i ;; mret d) s) (λ d s',
    d = disk s n ∧ idle s' ∧ disk s' = disk s ∧ trace s' = trace s ∧ disksize s' = disksize s).
Proof.
  intros Hid Hn. pose proof Hid as (Hwf & Hp & Hh).
  destruct (bread_ok s n Hwf Hn (Hh n) ltac:(right; by apply idle_roomy)) as (i & s1 & E1 & G).
  assert (H1 : holds_at s1 i n) by (apply (gr_holds _ _ _ _ G); by right).
  destruct (brelse_ok s1 i n (gr_wf _ _ _ _ G) H1) as (s2 & E2 & R).
  { right. by rewrite (gr_look _ _ _ _ G), (gr_disk _ _ _ _ G), idle_look. }
  unfold mbind, cm_bind. rewrite E1, (get_data_ok s1 i n (gr_wf _ _ _ _ G) H1), E2. simpl.
  destruct G, R. rewrite gr_look0, idle_look by done. split_and!; try congruence.
  split_and!; [done| |].
  - intros m. rewrite re_pinned0, gr_pinned0. apply Hp.
  - intros m [j [Hj Hm]%re_holds0]. apply gr_holds0 in Hj as [Hj|[_ ?]]; [|done].
    apply (Hh m). by exists j.
Qed.

(** One write, from grabbing to releasing. *)
Lemma write_block_ok s n d :
  idle s → 0 ≤ n < disksize s →
  returns ((i ← bread ROOTDEV n; set_data i d ;; bwrite i ;; brelse i) s) (λ _ s',
    idle s' ∧ disk s' = upd (disk s) n d ∧ trace s' = trace s ++ [(n, d)] ∧
    disksize s' = disksize s).
Proof.
  intros Hid Hn. pose proof Hid as (Hwf & Hp & Hh).
  destruct (bread_ok s n Hwf Hn (Hh n) ltac:(right; by apply idle_roomy)) as (i & s1 & E1 & G).
  assert (H1 : holds_at s1 i n) by (apply (gr_holds _ _ _ _ G); by right).
  destruct (set_data_ok s1 i n d (gr_wf _ _ _ _ G) H1) as (s2 & E2 & C2 & D2 & T2).
  assert (H2 : holds_at s2 i n) by (by apply (ch_holds _ _ _ _ _ C2)).
  assert (L2 : look s2 n = d) by (rewrite (ch_look _ _ _ _ _ C2); by rewrite decide_True).
  destruct (bwrite_ok s2 i n (ch_wf _ _ _ _ _ C2) H2) as (s3 & E3 & C3 & D3 & T3).
  assert (H3 : holds_at s3 i n) by (by apply (ch_holds _ _ _ _ _ C3)).
  destruct (brelse_ok s3 i n (ch_wf _ _ _ _ _ C3) H3) as (s4 & E4 & R).
  { right. rewrite (ch_look _ _ _ _ _ C3), decide_True, D3, upd_eq by done. done. }
  unfold mbind, cm_bind. rewrite E1, E2, E3, E4. simpl.
  destruct G, C2, C3, R. rewrite L2 in D3, T3. split_and!; try congruence.
  split_and!; [done| |].
  - intros m. rewrite re_pinned0, ch_pinned1. case_decide; [tauto|].
    rewrite ch_pinned0, decide_False, gr_pinned0 by done. apply Hp.
  - intros m [j [Hj Hm]%re_holds0]. apply ch_holds1, ch_holds0, gr_holds0 in Hj as [Hj|[_ ?]]; [|done].
    apply (Hh m). by exists j.
Qed.

(** ** Properties *)

(** C13: The buffer cache is transparent: a client that reads and writes any number of
    blocks through the 30 buffers of the cache never panics or waits for itself,
    reads what it last wrote (or what was on the disk), and its writes are on the
    disk; afterwards no buffer is held and each block has at most one buffer. *)
Theorem bcache_transparent ops size d p :
  Forall (λ o, 0 ≤ bop_block o < size) ops →
  returns (run_bops ops (binit size d p)) (λ ds s',
    ds = (spec_bops ops d).1 ∧ (∀ n, disk s' n = (spec_bops ops d).2 n) ∧ idle s').
Proof.
  intros Hops.
  assert (Hgen : ∀ s, idle s → disksize s = size → returns (run_bops ops s) (λ ds s',
    ds = (spec_bops ops (disk s)).1 ∧ (∀ n, disk s' n = (spec_bops ops (disk s)).2 n) ∧ idle s'));
    [|by apply Hgen; [apply binit_idle|]].
  induction Hops as [|o ops Ho _ IH]; intros s Hid Hs; [done|].
  destruct o as [n|n b]; cbn [run_bops spec_bops bop_block] in *.
  - pose proof (read_block_ok s n Hid ltac:(lia)) as Hr. unfold mbind, cm_bind in Hr |- *.
    destruct (bread ROOTDEV n s) as [i s1| |]; try done.
    destruct (get_data i s1) as [x s2| |]; try done.
    destruct (brelse i s2) as [[] s3| |]; try done. destruct Hr as (-> & Hid3 & Hd & _ & Hs3).
    specialize (IH s3 Hid3 ltac:(congruence)). rewrite Hd in IH.
    destruct (run_bops ops s3) as [ds s4| |]; try done.
    destruct (spec_bops ops (disk s)) as [ds' m']. destruct IH as (-> & ? & ?). done.
  - pose proof (write_block_ok s n b Hid ltac:(lia)) as Hr. unfold mbind, cm_bind in Hr |- *.
    destruct (bread ROOTDEV n s) as [i s1| |]; try done.
    destruct (set_data i b s1) as [[] s2| |]; try done.
    destruct (bwrite i s2) as [[] s3| |]; try done.
    destruct (brelse i s3) as [[] s4| |]; try done. destruct Hr as (Hid4 & Hd & _ & Hs4).
    specialize (IH s4 Hid4 ltac:(congruence)). by rewrite Hd in IH.
Qed.

(** 40 blocks written and the first one read back: buffers are recycled. *)
Definition many_ops : list bop := ((λ n, BWrite n [n]) <$> seqZ 0 40) ++ [BRead 0; BRead 39].

Lemma bcache_transparent_witness :
  returns (run_bops many_ops (binit 100 (λ _, []) 1)) (λ ds s',
    ds = [[0]; [39]] ∧ (∀ n, disk s' n = (spec_bops many_ops (λ _, [])).2 n) ∧ idle s').
Proof.
  apply (bcache_transparent many_ops 100 (λ _, []) 1).
  apply Forall_forall. vm_compute. intros o Ho.
  repeat (apply elem_of_cons in Ho as [->|Ho]; [split; congruence|]). by apply not_elem_of_nil in Ho.
Defined.
