(* ===== verification/Log.v ===== *)
(** * The log

    [src/log.c] over the buffer cache of [Bio]: a redo log that makes the blocks
    written by a group of file system calls reach the disk together or not at all.

    [block] keeps the words of [lh.block] unsigned, the way [bread] takes them.
    A call that sleeps ends its slice: [begin_op] returns [false] and is run again
    when it is woken.  [readsb] is the function of [src/fs.c] that [initlog] calls.

    A crash keeps the disk and forgets the rest, so the disk after a crash is the
    disk before plus a prefix of [trace].  [replay d] is the contents the blocks of
    disk [d] have once recovery ran.

    Theorems: at every crash point of [commit] recovery finds all of the
    transaction or nothing of it; recovery installs [replay] of the disk it finds,
    and may itself crash anywhere; the space a call reserves with [begin_op]
    suffices in the log, which takes one block more than the disk has room for. *)
From S2P Require Import Prelude Bytes Bio.

Definition MAXOPBLOCKS : Z := 10.
Definition LOGSIZE : Z := MAXOPBLOCKS * 3.

Record superblock : Type := Superblock {
  sb_size : Z;
  sb_nblocks : Z;
  sb_ninodes : Z;
  sb_nlog : Z;
  sb_logstart : Z;
  sb_inodestart : Z;
  sb_bmapstart : Z
}.

Record log : Type := Log {
  cache : bcache;
  log_lock : bool;
  start : Z;
  size : Z;
  outstanding : Z;
  committing : Z;
  ldev : Z;
  lh_n : Z;
  lh_block : list Z;       (* LOGSIZE words *)
  wakeups : nat            (* calls of wakeup(&log) *)
}.

Definition set_cache (c : bcache) (s : log) : log :=
  Log c (log_lock s) (start s) (size s) (outstanding s) (committing s) (ldev s) (lh_n s) (lh_block s)
    (wakeups s).
Definition set_log_lock (b : bool) (s : log) : log :=
  Log (cache s) b (start s) (size s) (outstanding s) (committing s) (ldev s) (lh_n s) (lh_block s)
    (wakeups s).
Definition set_geometry (dev st sz : Z) (s : log) : log :=
  Log (cache s) (log_lock s) st sz (outstanding s) (committing s) dev (lh_n s) (lh_block s) (wakeups s).
Definition set_outstanding (n : Z) (s : log) : log :=
  Log (cache s) (log_lock s) (start s) (size s) n (committing s) (ldev s) (lh_n s) (lh_block s)
    (wakeups s).
Definition set_committing (n : Z) (s : log) : log :=
  Log (cache s) (log_lock s) (start s) (size s) (outstanding s) n (ldev s) (lh_n s) (lh_block s)
    (wakeups s).
Definition set_lh (n : Z) (bl : list Z) (s : log) : log :=
  Log (cache s) (log_lock s) (start s) (size s) (outstanding s) (committing s) (ldev s) n bl (wakeups s).
Definition wakeup_log (s : log) : log :=
  Log (cache s) (log_lock s) (start s) (size s) (outstanding s) (committing s) (ldev s) (lh_n s)
    (lh_block s) (S (wakeups s)).

Definition on_cache {A} (m : cm bcache A) : cm log A := λ s,
  match m (cache s) with
  | Ok a c => Ok a (set_cache c s)
  | Panic msg => Panic msg
  | Ub what => Ub what
  end.

(** [block[i]] of the header in memory. *)
Definition lh_get (i : Z) : cm log Z := λ s,
  match arr_get (lh_block s) i with
  | Some b => Ok b s
  | None => Ub "lh.block index"
  end.
Definition lh_set (i b : Z) : cm log unit := λ s,
  match arr_set (lh_block s) i b with
  | Some bl => Ok tt (set_lh (lh_n s) bl s)
  | None => Ub "lh.block index"
  end.

Definition parse_sb (d : block) : superblock :=
  Superblock (load 4 d 0) (load 4 d 4) (load 4 d 8) (load 4 d 12) (load 4 d 16) (load 4 d 20)
    (load 4 d 24).

Definition readsb (dev : Z) : cm bcache superblock :=
  i ← bread dev 1;
  d ← get_data i;
  brelse i ;;
  mret (parse_sb d).

(** ** Copying between the log and the home locations *)

(** The body of the loop of [install_trans]. *)
Definition install_block (dev l h : Z) : cm bcache unit :=
  lbuf ← bread dev l;
  dbuf ← bread dev h;
  d ← get_data lbuf;
  set_data dbuf d ;;
  bwrite dbuf ;;
  brelse lbuf ;;
  brelse dbuf.

(** The body of the loop of [write_log]. *)
Definition log_block (dev l h : Z) : cm bcache unit :=
  to ← bread dev l;
  from ← bread dev h;
  d ← get_data from;
  set_data to d ;;
  bwrite to ;;
  brelse from ;;
  brelse to.

(** [for (tail = 0; tail < lh.n; tail++)], [n] turns from [tail] on. *)
Fixpoint for_log (body : Z → Z → Z → cm bcache unit) (n : nat) (tail : Z) : cm log unit :=
  match n with
  | O => mret tt
  | S n' =>
      dev ← gets ldev;
      st ← gets start;
      h ← lh_get tail;
      on_cache (body dev (st + tail + 1) h) ;;
      for_log body n' (tail + 1)
  end.

Definition install_trans : cm log unit :=
  n ← gets lh_n; for_log install_block (Z.to_nat n) 0.

Definition write_log : cm log unit :=
  n ← gets lh_n; for_log log_block (Z.to_nat n) 0.

(** ** The header block *)

(** Byte offset of [block[i]] in the header. *)
Definition hdr_off (i : nat) : nat := 4 + 4 * i.

Fixpoint read_head_loop (d : block) (n i : nat) : cm log unit :=
  match n with
  | O => mret tt
  | S n' => lh_set (Z.of_nat i) (load 4 d (hdr_off i)) ;; read_head_loop d n' (S i)
  end.

Definition read_head : cm log unit :=
  dev ← gets ldev;
  st ← gets start;
  b ← on_cache (bread dev st);
  d ← on_cache (get_data b);
  let n := i32 (load 4 d 0) in
  modify (λ s, set_lh n (lh_block s) s) ;;
  read_head_loop d (Z.to_nat n) 0 ;;
  on_cache (brelse b).

(** The header as bytes: [n] words of [bl] from [block[i]] on. *)
Fixpoint put_blocks (d : block) (i : nat) (bl : list Z) : block :=
  match bl with
  | [] => d
  | b :: bl' => put_blocks (store 4 d (hdr_off i) b) (S i) bl'
  end.

Definition write_head : cm log unit :=
  dev ← gets ldev;
  st ← gets start;
  b ← on_cache (bread dev st);
  d ← on_cache (get_data b);
  n ← gets lh_n;
  bl ← gets lh_block;
  (if Z.of_nat (length bl) <? n then ub "lh.block index" else mret tt) ;;
  on_cache (set_data b (put_blocks (store 4 d 0 (u32 n)) 0 (take (Z.to_nat n) bl))) ;;
  on_cache (bwrite b) ;;
  on_cache (brelse b).

Definition recover_from_log : cm log unit :=
  read_head ;;
  install_trans ;;
  modify (λ s, set_lh 0 (lh_block s) s) ;;
  write_head.

(** [sizeof(struct logheader)] is [4 + 4 * LOGSIZE], below [BSIZE]. *)
Definition initlog (dev : Z) : cm log unit :=
  if BSIZE <=? 4 + 4 * LOGSIZE then panic "initlog: too big logheader" else
  sb ← on_cache (readsb dev);
  modify (set_geometry dev (sb_logstart sb) (sb_nlog sb)) ;;
  recover_from_log.

(** ** Operations *)

(** A slice: [true] when the call returns, [false] when it sleeps on the log. *)
Definition begin_op : cm log bool :=
  acquire log_lock set_log_lock ;;
  s ← get;
  if negb (committing s =? 0) then
    release log_lock set_log_lock ;; mret false
  else if LOGSIZE <? lh_n s + (outstanding s + 1) * MAXOPBLOCKS then
    release log_lock set_log_lock ;; mret false
  else
    modify (set_outstanding (outstanding s + 1)) ;;
    release log_lock set_log_lock ;;
    mret true.

Definition commit : cm log unit :=
  n ← gets lh_n;
  if 0 <? n then
    write_log ;;
    write_head ;;
    install_trans ;;
    modify (λ s, set_lh 0 (lh_block s) s) ;;
    write_head
  else mret tt.

Definition end_op : cm log unit :=
  acquire log_lock set_log_lock ;;
  modify (λ s, set_outstanding (outstanding s - 1) s) ;;
  s ← get;
  if negb (committing s =? 0) then panic "log.committing" else
  let do_commit := outstanding s =? 0 in
  (if do_commit then modify (set_committing 1) else modify wakeup_log) ;;
  release log_lock set_log_lock ;;
  cwhen do_commit
    (commit ;;
     acquire log_lock set_log_lock ;;
     modify (λ s, wakeup_log (set_committing 0 s)) ;;
     release log_lock set_log_lock).

(** The first index below [n] that holds [b], or [n]. *)
Fixpoint absorb (b : Z) (bl : list Z) (n i : nat) : nat :=
  match n with
  | O => i
  | S n' =>
      match bl with
      | x :: bl' => if x =? b then i else absorb b bl' n' (S i)
      | [] => i
      end
  end.

(** [b] is the buffer of index [i]. *)
Definition log_write (i : nat) : cm log unit :=
  s ← get;
  if (LOGSIZE <=? lh_n s) || (size s - 1 <=? lh_n s) then panic "too big a transaction"
  else if outstanding s <? 1 then panic "log_write outside of trans" else
  acquire log_lock set_log_lock ;;
  b ← on_cache (buf_at i);
  let k := absorb (blockno b) (lh_block s) (Z.to_nat (lh_n s)) 0 in
  lh_set (Z.of_nat k) (blockno b) ;;
  modify (λ s, set_lh (if Z.of_nat k =? lh_n s then lh_n s + 1 else lh_n s) (lh_block s) s) ;;
  on_cache (bpin i) ;;
  release log_lock set_log_lock.

(** ** Lemmas: copying blocks *)

(** No block is held, and the pinned ones are those of [P]. *)
Record settled (c : bcache) (P : list Z) : Prop := {
  se_wf : wf c;
  se_held m : ¬ held c m;
  se_pinned m : pinned c m ↔ m ∈ P
}.

Lemma settled_roomy c P : settled c P → (length P < NBUF)%nat → roomy c.
Proof.
  intros [_ Hh Hp] Hl. exists P. split; [|done].
  intros m [Hm|Hm]; [by apply Hp|by apply Hh in Hm].
Qed.

Lemma settled_look c P m : settled c P → m ∉ P → look c m = disk c m.
Proof.
  intros [Hw Hh Hp] Hm. apply look_clean; [done| |done]. by rewrite Hp.
Qed.

(** Grabbing two different blocks. *)
Lemma grab_two c P l h :
  settled c P → l ≠ h → 0 ≤ l < disksize c → 0 ≤ h < disksize c →
  (length P < NBUF)%nat → h ∈ P ∨ (S (length P) < NBUF)%nat →
  ∃ i j c1 c2, bread ROOTDEV l c = Ok i c1 ∧ bread ROOTDEV h c1 = Ok j c2 ∧
    wf c2 ∧ (∀ m, look c2 m = look c m) ∧ (∀ m, pinned c2 m ↔ m ∈ P) ∧
    (∀ k m, holds_at c2 k m ↔ (k = i ∧ m = l) ∨ (k = j ∧ m = h)) ∧
    disk c2 = disk c ∧ trace c2 = trace c ∧ disksize c2 = disksize c.
Proof.
  intros HQ Hlh Hl Hh HP Hr. pose proof HQ as [Hw Hnh Hpin].
  destruct (bread_ok c l Hw Hl (Hnh l)) as (i & c1 & E1 & G1).
  { right. by eapply settled_roomy. }
  assert (Hholds1 : ∀ k m, holds_at c1 k m ↔ k = i ∧ m = l).
  { intros k m. rewrite (gr_holds _ _ _ _ G1). split; [|by right].
    intros [Hk|?]; [|done]. exfalso. apply (Hnh m). by exists k. }
  destruct (bread_ok c1 h (gr_wf _ _ _ _ G1)) as (j & c2 & E2 & G2).
  { by rewrite (gr_size _ _ _ _ G1). }
  { intros [k [_ ->]%Hholds1]. done. }
  { destruct Hr as [Hr|Hr]; [left; by apply (gr_pinned _ _ _ _ G1), Hpin|right].
    exists (l :: P). split; [|simpl; lia]. intros m [Hm|[k [_ ->]%Hholds1]]; [|left].
    right. by apply Hpin, (gr_pinned _ _ _ _ G1). }
  exists i, j, c1, c2. destruct G1 as [_ l1 p1 _ d1 t1 s1 _], G2 as [w2 l2 p2 h2 d2 t2 s2 _].
  split_and!; try done.
  - intros m. by rewrite l2, l1.
  - intros m. by rewrite p2, p1, Hpin.
  - intros k m. by rewrite h2, Hholds1.
  - by rewrite d2.
  - by rewrite t2.
  - by rewrite s2.
Qed.

(** Overwriting the held block [dst] with the contents of the held block [src],
    and releasing both. *)
Lemma copy_release c P i j src dst d0 :
  wf c → src ≠ dst → (∀ m, pinned c m ↔ m ∈ P) →
  (∀ k m, holds_at c k m ↔ (k = i ∧ m = src) ∨ (k = j ∧ m = dst)) →
  src ∈ P ∨ look c src = disk c src → look c src = d0 →
  ∃ c3 c4 c5 c6,
    set_data j d0 c = Ok tt c3 ∧ bwrite j c3 = Ok tt c4 ∧
    brelse i c4 = Ok tt c5 ∧ brelse j c5 = Ok tt c6 ∧
    settled c6 (filter (λ m, m ≠ dst) P) ∧ (∀ m, look c6 m = if decide (m = dst) then d0 else look c m) ∧
    disk c6 = upd (disk c) dst d0 ∧ trace c6 = trace c ++ [(dst, d0)] ∧ disksize c6 = disksize c.
Proof.
  intros Hw Hne Hpin Hhold Hsrc Hd0.
  destruct (set_data_ok c j dst d0 Hw) as (c3 & E3 & C3 & D3 & T3); [apply Hhold; by right|].
  destruct (bwrite_ok c3 j dst (ch_wf _ _ _ _ _ C3)) as (c4 & E4 & C4 & D4 & T4).
  { apply (ch_holds _ _ _ _ _ C3), Hhold. by right. }
  assert (L3 : look c3 dst = d0) by (by rewrite (ch_look _ _ _ _ _ C3), decide_True).
  rewrite L3 in *.
  assert (L4 : ∀ m, look c4 m = if decide (m = dst) then d0 else look c m).
  { intros m. rewrite (ch_look _ _ _ _ _ C4). case_decide; [done|].
    by rewrite (ch_look _ _ _ _ _ C3), decide_False. }
  assert (P4 : ∀ m, pinned c4 m ↔ m ∈ P ∧ m ≠ dst).
  { intros m. rewrite (ch_pinned _ _ _ _ _ C4). case_decide as Hm; [naive_solver|].
    rewrite (ch_pinned _ _ _ _ _ C3), decide_False, Hpin by done. naive_solver. }
  assert (H4 : ∀ k m, holds_at c4 k m ↔ (k = i ∧ m = src) ∨ (k = j ∧ m = dst)).
  { intros k m. by rewrite (ch_holds _ _ _ _ _ C4), (ch_holds _ _ _ _ _ C3). }
  destruct (brelse_ok c4 i src (ch_wf _ _ _ _ _ C4)) as (c5 & E5 & R5).
  { apply H4. by left. }
  { destruct Hsrc as [Hs|Hs]; [left; by apply P4|right].
    rewrite L4, decide_False, D4, upd_ne, D3 by done. done. }
  destruct (brelse_ok c5 j dst (re_wf _ _ _ R5)) as (c6 & E6 & R6).
  { apply (re_holds _ _ _ R5). split; [apply H4; by right|done]. }
  { right. rewrite (re_look _ _ _ R5), L4, decide_True, (re_disk _ _ _ R5), D4, upd_eq by done. done. }
  exists c3, c4, c5, c6. destruct R5 as [_ l5 p5 h5 d5 t5 s5 _], R6 as [w6 l6 p6 h6 d6 t6 s6 _].
  split_and!; try done.
  - split; [done| |].
    + intros m [k [[Hk Hm]%h5 Hm']%h6]. apply H4 in Hk. naive_solver.
    + intros m. rewrite p6, p5, P4, list_elem_of_filter. naive_solver.
  - intros m. by rewrite l6, l5, L4.
  - by rewrite d6, d5, D4, D3.
  - by rewrite t6, t5, T4, T3.
  - rewrite s6, s5, (ch_size _ _ _ _ _ C4). apply (ch_size _ _ _ _ _ C3).
Qed.

(** Sequences of disk writes. *)
Definition apply_writes (w : list (Z * block)) (d : Z → block) : Z → block :=
  foldl (λ d '(n, x), upd d n x) d w.

Lemma apply_writes_ext w d d' n :
  (∀ k, d k = d' k) → apply_writes w d n = apply_writes w d' n.
Proof.
  revert d d'. induction w as [|[b x] w IH]; intros d d' Hd; [apply Hd|].
  apply (IH (upd d b x) (upd d' b x)). intros k. unfold upd. by case_match.
Qed.

Lemma apply_writes_app w w' d : apply_writes (w ++ w') d = apply_writes w' (apply_writes w d).
Proof. apply foldl_app. Qed.

Lemma apply_writes_other w d n : n ∉ w.*1 → apply_writes w d n = d n.
Proof.
  revert d. induction w as [|[b x] w IH]; intros d Hn; [done|]. cbn [fmap list_fmap] in Hn.
  apply not_elem_of_cons in Hn as [Hb Hn]. cbn [apply_writes foldl].
  change (apply_writes w (upd d b x) n = d n). rewrite IH by done. by apply upd_ne.
Qed.

(** [n] log blocks from block [a] on. *)
Fixpoint slots (a : Z) (n : nat) : list Z :=
  match n with
  | O => []
  | S n' => a :: slots (a + 1) n'
  end.

Lemma elem_of_slots a n x : x ∈ slots a n ↔ a ≤ x < a + Z.of_nat n.
Proof.
  revert a. induction n as [|n IH]; intros a; cbn [slots].
  - rewrite elem_of_nil. lia.
  - rewrite elem_of_cons, IH. lia.
Qed.

Lemma length_slots a n : length (slots a n) = n.
Proof. revert a. induction n as [|n IH]; intros a; simpl; [done|]. by rewrite IH. Qed.

Section bodies.
Context (c : bcache) (P : list Z) (l h : Z).
Context (HQ : settled c P) (Hlh : l ≠ h) (HlP : l ∉ P)
  (Hl : 0 ≤ l < disksize c) (Hh : 0 ≤ h < disksize c) (HP : (length P < NBUF)%nat)
  (Hroom : h ∈ P ∨ (S (length P) < NBUF)%nat).

Lemma install_block_ok :
  ∃ c', install_block ROOTDEV l h c = Ok tt c' ∧ settled c' (filter (λ m, m ≠ h) P) ∧
    (∀ m, look c' m = if decide (m = h) then look c l else look c m) ∧
    disk c' = upd (disk c) h (look c l) ∧ trace c' = trace c ++ [(h, look c l)] ∧
    disksize c' = disksize c.
Proof.
  destruct (grab_two c P l h HQ Hlh Hl Hh HP Hroom)
    as (i & j & c1 & c2 & E1 & E2 & W2 & L2 & P2 & H2 & D2 & T2 & S2).
  destruct (copy_release c2 P i j l h (look c l) W2 Hlh P2 H2)
    as (c3 & c4 & c5 & c6 & E3 & E4 & E5 & E6 & Q & Lk & Dk & Tr & Sz).
  { right. rewrite L2, D2. by apply (settled_look c P). }
  { apply L2. }
  exists c6. split_and!; try done; [|by intros m; rewrite Lk, L2|congruence|congruence|congruence].
  unfold install_block, mbind, cm_bind. rewrite E1, E2.
  rewrite (get_data_ok c2 i l W2) by (apply H2; by left). by rewrite L2, E3, E4, E5.
Qed.

Lemma log_block_ok :
  h ∈ P →
  ∃ c', log_block ROOTDEV l h c = Ok tt c' ∧ settled c' P ∧
    (∀ m, look c' m = if decide (m = l) then look c h else look c m) ∧
    disk c' = upd (disk c) l (look c h) ∧ trace c' = trace c ++ [(l, look c h)] ∧
    disksize c' = disksize c.
Proof.
  intros HhP. destruct (grab_two c P l h HQ Hlh Hl Hh HP Hroom)
    as (i & j & c1 & c2 & E1 & E2 & W2 & L2 & P2 & H2 & D2 & T2 & S2).
  destruct (copy_release c2 P j i h l (look c h) W2)
    as (c3 & c4 & c5 & c6 & E3 & E4 & E5 & E6 & Q & Lk & Dk & Tr & Sz); try done.
  { intros k m. rewrite H2. tauto. }
  { by left. }
  exists c6. split_and!; try done; [| |by intros m; rewrite Lk, L2|congruence|congruence|congruence].
  - unfold log_block, mbind, cm_bind. rewrite E1, E2.
    rewrite (get_data_ok c2 j h W2) by (apply H2; by right). by rewrite L2, E3, E4, E5.
  - destruct Q as [Qw Qh Qp]. split; [done|done|]. intros m.
    rewrite Qp, list_elem_of_filter. naive_solver.
Qed.

End bodies.

Lemma on_cache_ok {A} (m : cm bcache A) s a c' :
  m (cache s) = Ok a c' → on_cache m s = Ok a (set_cache c' s).
Proof. intros E. unfold on_cache. by rewrite E. Qed.

(** The entries of the header from [tail] on are those of [bl]. *)
Definition entries (s : log) (tail : Z) (bl : list Z) : Prop :=
  ∀ i b, bl !! i = Some b → lh_block s !! (Z.to_nat tail + i)%nat = Some b.

Lemma entries_cons s tail b bl :
  0 ≤ tail → entries s tail (b :: bl) → lh_get tail s = Ok b s ∧ entries s (tail + 1) bl.
Proof.
  intros Ht He. split.
  - unfold lh_get, arr_get. rewrite (proj2 (Z.leb_le 0 tail)) by lia.
    specialize (He 0%nat b eq_refl). rewrite Nat.add_0_r in He. by rewrite He.
  - intros i x Hx. specialize (He (S i) x Hx). rewrite <- He. f_equal. lia.
Qed.

(** Home blocks: on the disk, and not in the log. *)
Definition home (s : log) (b : Z) : Prop :=
  0 ≤ b < disksize (cache s) ∧ ¬ (start s ≤ b < start s + size s).

(** Copying the log to the home locations. *)
Lemma for_install_ok bl : ∀ tail P s,
  ldev s = ROOTDEV → 0 ≤ tail → entries s tail bl → settled (cache s) P →
  0 ≤ start s → start s + size s ≤ disksize (cache s) →
  tail + 1 + Z.of_nat (length bl) ≤ size s →
  Forall (home s) bl → Forall (home s) P →
  ((length P < NBUF)%nat ∧ NoDup bl ∧ bl ⊆ P) ∨ (S (length P) < NBUF)%nat →
  let w := zip bl (look (cache s) <$> slots (start s + tail + 1) (length bl)) in
  ∃ c', for_log install_block (length bl) tail s = Ok tt (set_cache c' s) ∧
    settled c' (filter (λ m, m ∉ bl) P) ∧
    (∀ m, look c' m = apply_writes w (look (cache s)) m) ∧
    disk c' = apply_writes w (disk (cache s)) ∧ trace c' = trace (cache s) ++ w ∧
    disksize c' = disksize (cache s).
Proof.
  induction bl as [|b bl IH]; intros tail P s Hd Ht He HQ Hs1 Hs2 Hsz Hb HP Hroom w.
  { exists (cache s). simpl. rewrite app_nil_r. split_and!; try done.
    - by destruct s.
    - destruct HQ as [? ? Hp]. split; [done|done|]. intros m. rewrite Hp, list_elem_of_filter.
      set_solver. }
  destruct (entries_cons s tail b bl Ht He) as [Eg He']. cbn [length] in *.
  apply Forall_cons in Hb as [Hhb Hb]. set (l := start s + tail + 1) in *.
  assert (Hl : 0 ≤ l < disksize (cache s)) by lia.
  assert (HlP : l ∉ P).
  { intros Hin. rewrite Forall_forall in HP. apply HP in Hin. unfold home in Hin. lia. }
  destruct (install_block_ok (cache s) P l b HQ) as (c1 & E1 & Q1 & L1 & D1 & T1 & S1); try done.
  { unfold home in Hhb. lia. }
  { apply Hhb. }
  { lia. }
  { destruct Hroom as [(_ & _ & Hsub)|?]; [left; apply Hsub; left|by right]. }
  set (s1 := set_cache c1 s).
  destruct (IH (tail + 1) (filter (λ m, m ≠ b) P) s1) as (c2 & E2 & Q2 & L2 & D2 & T2 & S2); try done.
  - lia.
  - simpl. by rewrite S1.
  - simpl. lia.
  - unfold home, s1. simpl. by rewrite S1.
  - apply Forall_forall. intros m [_ Hm]%list_elem_of_filter. unfold home, s1. simpl. rewrite S1.
    rewrite Forall_forall in HP. by apply HP.
  - pose proof (length_filter (λ m, m ≠ b) P).
    destruct Hroom as [(Hl1 & Hnd & Hsub)|?]; [left|right; lia].
    apply NoDup_cons in Hnd as [Hnb Hnd]. split_and!; [lia|done|].
    intros m Hm. apply list_elem_of_filter. split; [|apply Hsub; by right]. by intros ->.
  - exists c2. simpl in E2, L2, D2, T2, S2.
    assert (Hsl : look c1 <$> slots (start s + (tail + 1) + 1) (length bl) =
                  look (cache s) <$> slots (start s + (tail + 1) + 1) (length bl)).
    { apply list_fmap_ext. intros k m Hm%list_elem_of_lookup_2. apply elem_of_slots in Hm.
      rewrite L1, decide_False; [done|]. unfold home in Hhb. lia. }
    rewrite Hsl in L2, D2, T2.
    replace (start s + (tail + 1) + 1) with (l + 1) in L2, D2, T2 by lia.
    split_and!.
    + cbn [for_log]. unfold mbind, cm_bind, gets. rewrite Eg, Hd. fold l.
      rewrite (on_cache_ok _ s tt c1 E1). exact E2.
    + destruct Q2 as [? ? Hp]. split; [done|done|]. intros m.
      rewrite Hp, !list_elem_of_filter. set_solver.
    + intros m. rewrite L2. unfold w. cbn [slots fmap list_fmap zip zip_with apply_writes foldl].
      apply apply_writes_ext. intros k. rewrite L1. unfold upd. case_decide; case_match; zbool; done.
    + rewrite D2, D1. done.
    + rewrite T2, T1, <- app_assoc. done.
    + by rewrite S2.
Qed.

(** Copying the pinned blocks to the log. *)
Lemma for_write_ok bl : ∀ tail P s,
  ldev s = ROOTDEV → 0 ≤ tail → entries s tail bl → settled (cache s) P →
  0 ≤ start s → start s + size s ≤ disksize (cache s) →
  tail + 1 + Z.of_nat (length bl) ≤ size s →
  bl ⊆ P → Forall (home s) P → (length P < NBUF)%nat →
  let w := zip (slots (start s + tail + 1) (length bl)) (look (cache s) <$> bl) in
  ∃ c', for_log log_block (length bl) tail s = Ok tt (set_cache c' s) ∧
    settled c' P ∧
    (∀ m, look c' m = apply_writes w (look (cache s)) m) ∧
    disk c' = apply_writes w (disk (cache s)) ∧ trace c' = trace (cache s) ++ w ∧
    disksize c' = disksize (cache s).
Proof.
  induction bl as [|b bl IH]; intros tail P s Hd Ht He HQ Hs1 Hs2 Hsz Hb HP Hroom w.
  { exists (cache s). simpl. rewrite app_nil_r. split_and!; try done. by destruct s. }
  destruct (entries_cons s tail b bl Ht He) as [Eg He']. cbn [length] in *.
  assert (HbP : b ∈ P) by (apply Hb; left).
  assert (Hhome : ∀ m, m ∈ P → home s m) by (by apply Forall_forall).
  pose proof (Hhome b HbP) as Hhb. set (l := start s + tail + 1) in *.
  assert (HlP : l ∉ P) by (intros Hin%Hhome; unfold home in Hin; lia).
  destruct (log_block_ok (cache s) P l b HQ) as (c1 & E1 & Q1 & L1 & D1 & T1 & S1); try done.
  { unfold home in Hhb. lia. }
  { lia. }
  { apply Hhb. }
  { by left. }
  set (s1 := set_cache c1 s).
  destruct (IH (tail + 1) P s1) as (c2 & E2 & Q2 & L2 & D2 & T2 & S2); try done.
  - lia.
  - simpl. by rewrite S1.
  - simpl. lia.
  - intros m Hm. apply Hb. by right.
  - unfold home, s1. simpl. by rewrite S1.
  - exists c2. simpl in E2, L2, D2, T2, S2.
    assert (Hsl : look c1 <$> bl = look (cache s) <$> bl).
    { apply list_fmap_ext. intros k m Hm%list_elem_of_lookup_2.
      rewrite L1, decide_False; [done|]. intros ->. apply HlP, Hb. by right. }
    rewrite Hsl in L2, D2, T2.
    replace (start s + (tail + 1) + 1) with (l + 1) in L2, D2, T2 by lia.
    split_and!; [|done| | | |by rewrite S2].
    + cbn [for_log]. unfold mbind, cm_bind, gets. rewrite Eg, Hd. fold l.
      rewrite (on_cache_ok _ s tt c1 E1). exact E2.
    + intros m. rewrite L2. unfold w. cbn [slots fmap list_fmap zip zip_with apply_writes foldl].
      apply apply_writes_ext. intros k. rewrite L1. unfold upd. case_decide; case_match; zbool; done.
    + rewrite D2, D1. done.
    + rewrite T2, T1, <- app_assoc. done.
Qed.

(** ** Lemmas: the header *)

Definition hdr_n (d : block) : Z := i32 (load 4 d 0).
Definition hdr_blocks (d : block) : list Z :=
  (λ i, load 4 d (hdr_off i)) <$> seq 0 (Z.to_nat (hdr_n d)).

Lemma length_put_blocks d i bl :
  length d = 512%nat → (i + length bl ≤ 127)%nat → length (put_blocks d i bl) = 512%nat.
Proof.
  revert d i. induction bl as [|b bl IH]; intros d i Hd Hi; [done|]. cbn [put_blocks length] in *.
  apply IH; [|lia]. rewrite length_store; [done|]. unfold hdr_off. lia.
Qed.

Lemma load_put_blocks_below d i bl off k :
  length d = 512%nat → (i + length bl ≤ 127)%nat → (off + k ≤ hdr_off i)%nat →
  load k (put_blocks d i bl) off = load k d off.
Proof.
  revert d i. induction bl as [|b bl IH]; intros d i Hd Hi Ho; [done|]. cbn [put_blocks length] in *.
  unfold hdr_off in *. rewrite IH; [| |lia|lia].
  - apply load_store_ne; [unfold hdr_off; lia|unfold hdr_off; lia].
  - rewrite length_store; [done|]. unfold hdr_off. lia.
Qed.

Lemma load_put_blocks d i bl j b :
  length d = 512%nat → (i + length bl ≤ 127)%nat → Forall (λ b, 0 ≤ b < 2 ^ 32) bl →
  bl !! j = Some b → load 4 (put_blocks d i bl) (hdr_off (i + j)) = b.
Proof.
  intros Hd Hi Hb. revert d i j Hd Hi. induction Hb as [|x bl Hx _ IH]; intros d i j Hd Hi Hj; [done|].
  cbn [put_blocks length] in *.
  assert (Hs : length (store 4 d (hdr_off i) x) = 512%nat)
    by (rewrite length_store; [done|]; unfold hdr_off; lia).
  destruct j as [|j].
  - injection Hj as ->. rewrite Nat.add_0_r.
    rewrite load_put_blocks_below by (try done; unfold hdr_off; lia).
    apply load_store_eq; [unfold hdr_off; lia|done].
  - replace (i + S j)%nat with (S i + j)%nat by lia. apply IH; [done|lia|done].
Qed.

(** Writing a header and reading it back. *)
Definition hdr (d : block) (n : Z) (bl : list Z) : block := put_blocks (store 4 d 0 (u32 n)) 0 bl.

Lemma length_hdr d n bl : length d = 512%nat → (length bl ≤ 30)%nat → length (hdr d n bl) = 512%nat.
Proof.
  intros Hd Hb. apply length_put_blocks; [|lia]. rewrite length_store; lia.
Qed.

Lemma hdr_n_hdr d n bl :
  length d = 512%nat → (length bl ≤ 30)%nat → 0 ≤ n < 2 ^ 31 → hdr_n (hdr d n bl) = n.
Proof.
  intros Hd Hb Hn. unfold hdr_n, hdr.
  rewrite load_put_blocks_below by (try (rewrite length_store; lia); unfold hdr_off; lia).
  rewrite load_store_eq; [|lia|unfold u32; dlia]. unfold i32, u32. dlia.
Qed.

Lemma hdr_blocks_hdr d bl :
  length d = 512%nat → (length bl ≤ 30)%nat → Forall (λ b, 0 ≤ b < 2 ^ 32) bl →
  hdr_blocks (hdr d (Z.of_nat (length bl)) bl) = bl.
Proof.
  intros Hd Hl Hb. unfold hdr_blocks. rewrite hdr_n_hdr by (try done; lia). rewrite Nat2Z.id.
  apply list_eq. intros i. rewrite list_lookup_fmap.
  destruct (bl !! i) as [b|] eqn:Ei.
  - pose proof (lookup_lt_Some _ _ _ Ei). rewrite lookup_seq_lt by done. simpl. f_equal.
    apply (load_put_blocks _ 0); try done; [|lia]. rewrite length_store; lia.
  - apply lookup_ge_None in Ei. by rewrite lookup_seq_ge by lia.
Qed.

Lemma write_head_ok P s bl :
  ldev s = ROOTDEV → settled (cache s) P → start s ∉ P → (length P < NBUF)%nat →
  0 ≤ start s < disksize (cache s) →
  lh_n s = Z.of_nat (length bl) → take (length bl) (lh_block s) = bl →
  let h := hdr (disk (cache s) (start s)) (lh_n s) bl in
  ∃ c', write_head s = Ok tt (set_cache c' s) ∧ settled c' P ∧
    (∀ m, look c' m = upd (look (cache s)) (start s) h m) ∧
    disk c' = upd (disk (cache s)) (start s) h ∧
    trace c' = trace (cache s) ++ [(start s, h)] ∧ disksize c' = disksize (cache s).
Proof.
  intros Hd HQ HsP HP Hst Hn Hbl h. pose proof HQ as [Hw Hnh Hp].
  destruct (bread_ok (cache s) (start s) Hw Hst (Hnh _)) as (i & c1 & E1 & G).
  { right. by eapply settled_roomy. }
  assert (H1 : holds_at c1 i (start s)) by (apply (gr_holds _ _ _ _ G); by right).
  assert (L0 : look c1 (start s) = disk (cache s) (start s))
    by (rewrite (gr_look _ _ _ _ G); by eapply settled_look).
  destruct (set_data_ok c1 i (start s) h (gr_wf _ _ _ _ G) H1) as (c2 & E2 & C2 & D2 & T2).
  assert (H2 : holds_at c2 i (start s)) by (by apply (ch_holds _ _ _ _ _ C2)).
  assert (L2 : look c2 (start s) = h) by (rewrite (ch_look _ _ _ _ _ C2); by rewrite decide_True).
  destruct (bwrite_ok c2 i (start s) (ch_wf _ _ _ _ _ C2) H2) as (c3 & E3 & C3 & D3 & T3).
  assert (H3 : holds_at c3 i (start s)) by (by apply (ch_holds _ _ _ _ _ C3)).
  rewrite L2 in *.
  destruct (brelse_ok c3 i (start s) (ch_wf _ _ _ _ _ C3) H3) as (c4 & E4 & R).
  { right. rewrite (ch_look _ _ _ _ _ C3), decide_True, D3, upd_eq by done. done. }
  exists c4. split.
  - unfold write_head, mbind, cm_bind, gets. rewrite Hd, (on_cache_ok _ s i c1 E1).
    rewrite (on_cache_ok _ (set_cache c1 s) _ c1 (get_data_ok c1 i _ (gr_wf _ _ _ _ G) H1)).
    cbn [lh_n lh_block set_cache]. rewrite Hn, Nat2Z.id, Hbl.
    assert (length bl ≤ length (lh_block s))%nat by (rewrite <- Hbl at 1; rewrite length_take; lia).
    rewrite (proj2 (Z.ltb_ge _ _)) by lia. cbn [mret cm_ret]. rewrite L0.
    change (put_blocks _ 0 bl) with (hdr (disk (cache s) (start s)) (Z.of_nat (length bl)) bl).
    rewrite <- Hn. fold h. rewrite (on_cache_ok _ (set_cache c1 (set_cache c1 s)) tt c2 E2).
    rewrite (on_cache_ok _ (set_cache c2 _) tt c3 E3). by rewrite (on_cache_ok _ (set_cache c3 _) tt c4 E4).
  - destruct G as [_ l1 p1 h1 d1 t1 s1 _], C2 as [_ l2 p2 h2 s2 _], C3 as [_ l3 p3 h3 s3 _],
      R as [w4 l4 p4 h4 d4 t4 s4 _]. split_and!; try congruence.
    + split; [done| |].
      * intros m [j [Hj Hm]%h4]. apply h3, h2, h1 in Hj as [Hj|[_ ?]]; [|done].
        apply (Hnh m). by exists j.
      * intros m. rewrite p4, p3. case_decide as Hm; [subst; naive_solver|].
        rewrite p2, decide_False, p1 by done. apply Hp.
    + intros m. unfold upd. rewrite l4, l3. case_decide as Hm; [subst; by rewrite Z.eqb_refl|].
      rewrite (proj2 (Z.eqb_neq _ _) Hm), l2, decide_False, l1 by done. done.
Qed.

Lemma read_head_loop_ok d n i s :
  (i + n ≤ length (lh_block s))%nat →
  ∃ bl, read_head_loop d n i s = Ok tt (set_lh (lh_n s) bl s) ∧ length bl = length (lh_block s) ∧
    take (i + n) bl = take i (lh_block s) ++ ((λ k, load 4 d (hdr_off k)) <$> seq i n).
Proof.
  revert i s. induction n as [|n IH]; intros i s Hi; cbn [read_head_loop].
  { exists (lh_block s). rewrite Nat.add_0_r, app_nil_r. split_and!; try done. by destruct s. }
  unfold mbind, cm_bind, lh_set, arr_set. rewrite (proj2 (Z.leb_le 0 _)), (proj2 (Z.ltb_lt _ _)) by lia.
  cbn [andb]. rewrite Nat2Z.id. set (v := load 4 d (hdr_off i)).
  destruct (IH (S i) (set_lh (lh_n s) (<[i:=v]> (lh_block s)) s)) as (bl & E & Hl & Ht).
  { simpl. rewrite length_insert. lia. }
  exists bl. rewrite E. split; [done|]. simpl in Hl, Ht. rewrite length_insert in Hl. split; [done|].
  replace (i + S n)%nat with (S i + n)%nat by lia. simpl. rewrite Ht.
  rewrite (take_S_r _ i v) by (apply list_lookup_insert_eq; lia).
  rewrite take_insert_ge by lia. by rewrite <- app_assoc.
Qed.

Lemma read_head_ok s :
  let d := disk (cache s) (start s) in
  ldev s = ROOTDEV → settled (cache s) [] → 0 ≤ start s < disksize (cache s) →
  (length (hdr_blocks d) ≤ length (lh_block s))%nat →
  ∃ c' bl, read_head s = Ok tt (set_cache c' (set_lh (hdr_n d) bl s)) ∧
    length bl = length (lh_block s) ∧ take (length (hdr_blocks d)) bl = hdr_blocks d ∧ settled c' [] ∧
    (∀ m, look c' m = look (cache s) m) ∧ disk c' = disk (cache s) ∧
    trace c' = trace (cache s) ∧ disksize c' = disksize (cache s).
Proof.
  intros d Hd HQ Hst Hlen. pose proof HQ as [Hw Hnh Hp].
  destruct (bread_ok (cache s) (start s) Hw Hst (Hnh _)) as (i & c1 & E1 & G).
  { right. eapply settled_roomy; [done|]. unfold NBUF. simpl. lia. }
  assert (H1 : holds_at c1 i (start s)) by (apply (gr_holds _ _ _ _ G); by right).
  assert (L0 : look c1 (start s) = d)
    by (rewrite (gr_look _ _ _ _ G); by apply (settled_look _ []), not_elem_of_nil).
  destruct (brelse_ok c1 i (start s) (gr_wf _ _ _ _ G) H1) as (c2 & E2 & R).
  { right. by rewrite L0, (gr_disk _ _ _ _ G). }
  unfold hdr_blocks in Hlen. rewrite length_fmap, length_seq in Hlen.
  destruct (read_head_loop_ok d (Z.to_nat (hdr_n d)) 0 (set_lh (hdr_n d) (lh_block s) (set_cache c1 s)))
    as (bl & El & Hl & Ht); [done|].
  exists c2, bl. split_and!.
  - unfold read_head, mbind, cm_bind, gets. rewrite Hd, (on_cache_ok _ s i c1 E1).
    rewrite (on_cache_ok _ (set_cache c1 s) _ c1 (get_data_ok c1 i _ (gr_wf _ _ _ _ G) H1)).
    rewrite L0. cbn [modify]. fold (hdr_n d).
    change (set_cache c1 (set_cache c1 s)) with (set_cache c1 s). unfold modify.
    cbn [lh_block set_cache] in El |- *. rewrite El.
    etrans; [apply on_cache_ok; exact E2|done].
  - done.
  - unfold hdr_blocks. rewrite length_fmap, length_seq. by simpl in Ht.
  - destruct G as [_ l1 p1 h1 d1 t1 s1 _], R as [w4 l4 p4 h4 d4 t4 s4 _]. split; [done| |].
    + intros m [j [Hj Hm]%h4]. apply h1 in Hj as [Hj|[_ ?]]; [|done]. apply (Hnh m). by exists j.
    + intros m. by rewrite p4, p1.
  - intros m. by rewrite (re_look _ _ _ R), (gr_look _ _ _ _ G).
  - by rewrite (re_disk _ _ _ R), (gr_disk _ _ _ _ G).
  - by rewrite (re_trace _ _ _ R), (gr_trace _ _ _ _ G).
  - by rewrite (re_size _ _ _ R), (gr_size _ _ _ _ G).
Qed.

(** ** Crashes and recovery *)

(** The contents the blocks of disk [d] have after recovery. *)
Definition replay (st : Z) (d : Z → block) : Z → block :=
  let bl := hdr_blocks (d st) in
  apply_writes (zip bl (d <$> slots (st + 1) (length bl))) d.

(** A disk that recovery can start from: the header lists home blocks, as many as
    the log has room for. *)
Record log_disk (s : log) (d : Z → block) : Prop := {
  ld_hdr : length (d (start s)) = 512%nat;
  ld_home : Forall (home s) (hdr_blocks (d (start s)));
  ld_room : 1 + Z.of_nat (length (hdr_blocks (d (start s)))) ≤ size s;
  ld_max : (length (hdr_blocks (d (start s))) ≤ Z.to_nat LOGSIZE)%nat
}.

(** The geometry of a disk with a log. *)
Record geometry (s : log) : Prop := {
  ge_dev : ldev s = ROOTDEV;
  ge_start : 0 ≤ start s;
  ge_end : start s + size s ≤ disksize (cache s);
  ge_size : 0 < size s;
  ge_words : disksize (cache s) ≤ 2 ^ 32;
  ge_lh : length (lh_block s) = Z.to_nat LOGSIZE
}.

(** A transaction that wrote the blocks [bl], ready to commit. *)
Record tx (s : log) (bl : list Z) : Prop := {
  tx_geo : geometry s;
  tx_n : lh_n s = Z.of_nat (length bl);
  tx_bl : take (length bl) (lh_block s) = bl;
  tx_nodup : NoDup bl;
  tx_home : Forall (home s) bl;
  tx_room : 1 + Z.of_nat (length bl) ≤ size s;
  tx_buf : (length bl < NBUF)%nat;
  tx_settled : settled (cache s) bl;
  tx_hdr : length (disk (cache s) (start s)) = 512%nat;
  tx_clear : hdr_n (disk (cache s) (start s)) = 0
}.

Lemma hdr_blocks_empty d : hdr_n d = 0 → hdr_blocks d = [].
Proof. intros E. unfold hdr_blocks. by rewrite E. Qed.

Lemma replay_empty st d x : hdr_n (d st) = 0 → replay st d x = d x.
Proof. intros E. unfold replay. by rewrite hdr_blocks_empty. Qed.

Lemma apply_writes_in w d d' x : x ∈ w.*1 → apply_writes w d x = apply_writes w d' x.
Proof.
  revert d d'. induction w as [|[b v] w IH]; intros d d' Hx; [by apply not_elem_of_nil in Hx|].
  destruct (decide (x ∈ w.*1)) as [Hin|Hout]; [by apply (IH (upd d b v) (upd d' b v))|].
  apply elem_of_cons in Hx as [->|Hx]; [|done].
  change (apply_writes w (upd d b v) b = apply_writes w (upd d' b v) b).
  by rewrite !apply_writes_other, !upd_eq by done.
Qed.

(** Writes that are done again change nothing more. *)
Lemma apply_writes_absorb w w' d x :
  w'.*1 ⊆ w.*1 → apply_writes w (apply_writes w' d) x = apply_writes w d x.
Proof.
  intros Hs. destruct (decide (x ∈ w.*1)) as [Hin|Hout]; [by apply apply_writes_in|].
  assert (x ∉ w'.*1) by (intros Hx; by apply Hout, Hs). by rewrite !apply_writes_other.
Qed.

Lemma apply_writes_map bl (f : Z → block) d x :
  apply_writes (zip bl (f <$> bl)) d x = if decide (x ∈ bl) then f x else d x.
Proof.
  revert d. induction bl as [|b bl IH]; intros d; [done|].
  change (apply_writes (zip bl (f <$> bl)) (upd d b (f b)) x = if decide (x ∈ b :: bl) then f x else d x).
  rewrite IH. destruct (decide (x ∈ bl)) as [Hx|Hx], (decide (x ∈ b :: bl)) as [Hx'|Hx']; [done| | |].
  - set_solver.
  - apply elem_of_cons in Hx' as [->|?]; [|done]. apply upd_eq.
  - apply upd_ne. set_solver.
Qed.

Lemma zip_slots_fst (bl : list Z) (vs : list block) : length vs = length bl → (zip bl vs).*1 = bl.
Proof. intros. apply fst_zip. lia. Qed.

(** A prefix of the writes of a commit. *)
Lemma prefix_cases {A} (a c : list A) (b e : A) k :
  (∃ j, take k (a ++ b :: c ++ [e]) = take j a) ∨
  (∃ j, take k (a ++ b :: c ++ [e]) = a ++ b :: take j c) ∨
  take k (a ++ b :: c ++ [e]) = a ++ b :: c ++ [e].
Proof.
  destruct (decide (k ≤ length a)%nat) as [Hk|Hk].
  { left. exists k. by rewrite take_app_le. }
  right. rewrite take_app_ge by lia.
  destruct (k - length a)%nat as [|j] eqn:Ej; [lia|]. cbn [take].
  destruct (decide (j ≤ length c)%nat) as [Hj|Hj].
  - left. exists j. by rewrite take_app_le.
  - right. rewrite (take_ge (c ++ [e])); [done|]. rewrite length_app. simpl. lia.
Qed.

Section crash.
Context (s : log).

(** The header stays as it is under writes elsewhere. *)
Lemma log_disk_other w d :
  log_disk s d → start s ∉ w.*1 → log_disk s (apply_writes w d).
Proof. intros [? ? ? ?] Hw. split; rewrite apply_writes_other; done. Qed.

(** Writing home locations what the log holds for them does not change what recovery
    finds. *)
Lemma replay_install d w :
  log_disk s d →
  let bl := hdr_blocks (d (start s)) in
  w `prefix_of` zip bl (d <$> slots (start s + 1) (length bl)) →
  ∀ x, replay (start s) (apply_writes w d) x = replay (start s) d x.
Proof.
  intros [_ Hhome Hroom _] bl [w' Hw] x.
  assert (Hfst : w.*1 ++ w'.*1 = bl).
  { rewrite <- fmap_app, <- Hw. apply zip_slots_fst. by rewrite length_fmap, length_slots. }
  assert (Hin : ∀ m, m ∈ w.*1 → home s m).
  { intros m Hm. rewrite Forall_forall in Hhome. apply Hhome. fold bl. rewrite <- Hfst. set_solver. }
  assert (Hout : ∀ m, start s ≤ m < start s + size s → apply_writes w d m = d m).
  { intros m Hm. apply apply_writes_other. intros [_ Hh]%Hin. done. }
  unfold replay. rewrite (Hout (start s)) by lia. fold bl.
  assert (Hsl : apply_writes w d <$> slots (start s + 1) (length bl) =
                d <$> slots (start s + 1) (length bl)).
  { apply list_fmap_ext. intros k m Hm%list_elem_of_lookup_2. apply elem_of_slots in Hm.
    apply Hout. fold bl in Hroom. lia. }
  rewrite Hsl. apply apply_writes_absorb. rewrite Hw, fmap_app. set_solver.
Qed.

End crash.

(** ** Lemmas: commit *)

Section commit.
Context (s : log) (bl : list Z) (Htx : tx s bl).

Let st := start s.
Let n := length bl.
Let d0 := disk (cache s).
Let new := look (cache s).

(** The writes of a commit: the blocks to the log, the header, the blocks home, the
    cleared header. *)
Definition w_log : list (Z * block) := zip (slots (st + 1) n) (new <$> bl).
Definition w_home : list (Z * block) := zip bl (new <$> bl).
Definition h_full : block := hdr (d0 st) (Z.of_nat n) bl.
Definition h_clear : block := hdr h_full 0 [].
Definition w_commit : list (Z * block) := w_log ++ (st, h_full) :: w_home ++ [(st, h_clear)].

Lemma w_log_fst : w_log.*1 = slots (st + 1) n.
Proof. apply fst_zip. by rewrite length_slots, length_fmap. Qed.

Lemma w_home_fst : w_home.*1 = bl.
Proof. apply fst_zip. by rewrite length_fmap. Qed.

Lemma home_not_start m : home s m → m ≠ st.
Proof. intros [_ Hm] ->. destruct Htx as [[]]. lia. Qed.

Lemma home_not_slot m : home s m → m ∉ slots (st + 1) n.
Proof.
  intros [_ Hm] Hs%elem_of_slots. pose proof (tx_room s bl Htx). unfold n, st in *. lia.
Qed.

Lemma bl_words : Forall (λ b, 0 ≤ b < 2 ^ 32) bl.
Proof.
  pose proof (ge_words s (tx_geo s bl Htx)). eapply Forall_impl; [apply (tx_home s bl Htx)|].
  intros b [Hb _]. lia.
Qed.

Lemma bl_max : (n ≤ 30)%nat.
Proof. pose proof (tx_buf s bl Htx). unfold NBUF, n in *. lia. Qed.

Lemma h_full_length : length h_full = 512%nat.
Proof. apply length_hdr; [apply (tx_hdr s bl Htx)|apply bl_max]. Qed.

Lemma h_full_blocks : hdr_blocks h_full = bl.
Proof. apply hdr_blocks_hdr; [apply (tx_hdr s bl Htx)|apply bl_max|apply bl_words]. Qed.

Lemma h_clear_length : length h_clear = 512%nat.
Proof. apply length_hdr; [apply h_full_length|simpl; lia]. Qed.

Lemma h_clear_n : hdr_n h_clear = 0.
Proof. apply hdr_n_hdr; [apply h_full_length|simpl; lia|lia]. Qed.

(** The contents of the log blocks once written. *)
Lemma w_log_slots d : apply_writes w_log d <$> slots (st + 1) n = new <$> bl.
Proof.
  unfold w_log, n. generalize (st + 1). clear Htx. intros a. revert a d.
  induction bl as [|b l IH]; intros a d; [done|]. cbn [length slots fmap list_fmap zip zip_with].
  f_equal.
  - change (apply_writes (zip (slots (a + 1) (length l)) (new <$> l)) (upd d a (new b)) a = new b).
    rewrite apply_writes_other; [apply upd_eq|].
    rewrite fst_zip by (by rewrite length_slots, length_fmap). rewrite elem_of_slots. lia.
  - apply (IH (a + 1) (upd d a (new b))).
Qed.

Lemma commit_run : bl ≠ [] →
  ∃ s', commit s = Ok tt s' ∧ tx s' [] ∧ start s' = st ∧ size s' = size s ∧
    disksize (cache s') = disksize (cache s) ∧
    disk (cache s') = apply_writes w_commit d0 ∧
    trace (cache s') = trace (cache s) ++ w_commit.
Proof.
  intros Hne. destruct Htx as [G En Ebl Hnd Hhome Hroom Hbuf HQ Hh Hcl].
  pose proof G as [Gd Gs Ge Gz Gw Gl]. fold n in En, Ebl, Hroom, Hbuf. fold st in Gs, Ge, Hh, Hcl.
  assert (Hst : st ∉ bl).
  { intros Hin. rewrite Forall_forall in Hhome. by apply Hhome, home_not_start in Hin. }
  assert (Hpos : n ≠ 0%nat) by (intros E; by apply Hne, nil_length_inv).
  (* write_log *)
  destruct (for_write_ok bl 0 bl s Gd) as (c1 & E1 & Q1 & L1 & D1 & T1 & S1); try done; try lia.
  { intros i b Hi. rewrite <- Hi. simpl. pose proof (lookup_lt_Some _ _ _ Hi).
    rewrite <- (lookup_take_lt _ n) by done. by rewrite Ebl. }
  change (start s + 0 + 1) with (st + 0 + 1) in *. rewrite Z.add_0_r in *.
  fold n new d0 in E1, L1, D1, T1. fold w_log in L1, D1, T1.
  set (s1 := set_cache c1 s).
  assert (Hlog : ∀ m, ¬ (st + 1 ≤ m < st + 1 + Z.of_nat n) → ∀ d, apply_writes w_log d m = d m).
  { intros m Hm d. apply apply_writes_other. by rewrite w_log_fst, elem_of_slots. }
  (* write_head *)
  destruct (write_head_ok bl s1 bl) as (c2 & E2 & Q2 & L2 & D2 & T2 & S2); try done.
  { simpl. rewrite S1. fold st. lia. }
  simpl in E2, L2, D2, T2, S2. fold st in L2, D2, T2. rewrite D1, Hlog, En in L2, D2, T2 by lia.
  fold h_full in L2, D2, T2. set (s2 := set_cache c2 s).
  (* install_trans *)
  destruct (for_install_ok bl 0 bl s2) as (c3 & E3 & Q3 & L3 & D3 & T3 & S3); try done; try lia.
  { intros i b Hi. rewrite <- Hi. simpl. pose proof (lookup_lt_Some _ _ _ Hi).
    rewrite <- (lookup_take_lt _ n) by done. by rewrite Ebl. }
  { simpl. rewrite S2, S1. fold st. lia. }
  { unfold home. simpl. rewrite S2, S1. done. }
  { unfold home. simpl. rewrite S2, S1. done. }
  { left. by split_and!. }
  simpl in E3, L3, D3, T3, S3. fold st in E3, L3, D3, T3. rewrite Z.add_0_r in L3, D3, T3.
  assert (Hw2 : look c2 <$> slots (st + 1) n = new <$> bl).
  { rewrite <- (w_log_slots new). apply list_fmap_ext. intros k m Hm%list_elem_of_lookup_2.
    apply elem_of_slots in Hm. rewrite L2, upd_ne, L1 by lia. done. }
  fold n in L3, D3, T3. rewrite Hw2 in L3, D3, T3. fold w_home in L3, D3, T3.
  set (s3 := set_lh 0 (lh_block s) (set_cache c3 s)).
  assert (Q3' : settled c3 []).
  { destruct Q3 as [? ? Hp]. split; [done|done|]. intros m. rewrite Hp, list_elem_of_filter.
    set_solver. }
  (* the cleared header *)
  destruct (write_head_ok [] s3 []) as (c4 & E4 & Q4 & L4 & D4 & T4 & S4); try done.
  { apply not_elem_of_nil. }
  { unfold NBUF. simpl. lia. }
  { simpl. rewrite S3, S2, S1. fold st. lia. }
  simpl in E4, L4, D4, T4, S4. fold st in L4, D4, T4.
  assert (Hst3 : disk c3 st = h_full).
  { rewrite D3, apply_writes_other by (by rewrite w_home_fst). rewrite D2. apply upd_eq. }
  rewrite Hst3 in L4, D4, T4. fold h_clear in L4, D4, T4.
  assert (Hd4 : disk c4 = apply_writes w_commit d0).
  { rewrite D4, D3, D2. unfold w_commit. rewrite apply_writes_app.
    change (upd (apply_writes w_home (upd (apply_writes w_log d0) st h_full)) st h_clear =
      apply_writes (w_home ++ [(st, h_clear)]) (upd (apply_writes w_log d0) st h_full)).
    by rewrite apply_writes_app. }
  exists (set_cache c4 s3). split_and!; try done.
  - unfold commit, write_log, install_trans, mbind, cm_bind, gets.
    rewrite En, (proj2 (Z.ltb_lt 0 _)) by lia.
    rewrite En, Nat2Z.id, E1. fold s1. rewrite E2.
    change (set_cache c2 s1) with s2. change (lh_n s2) with (lh_n s). rewrite En, Nat2Z.id; fold n in E3; rewrite E3.
    unfold modify. change (set_lh 0 (lh_block (set_cache c3 s2)) (set_cache c3 s2)) with s3. exact E4.
  - split; simpl; try done; try lia.
    + split; simpl; rewrite ?S4, ?S3, ?S2, ?S1; done.
    + apply NoDup_nil_2.
    + rewrite D4. fold st. rewrite upd_eq. apply h_clear_length.
    + rewrite D4. fold st. rewrite upd_eq. apply h_clear_n.
  - simpl. by rewrite S4, S3, S2, S1.
  - simpl. rewrite T4, T3, T2, T1. unfold w_commit. by rewrite <- !app_assoc.
Qed.

(** *** The disk at each crash point *)

(** Before the header is written: the old contents. *)
Lemma crash_early j x :
  home s x → replay st (apply_writes (take j w_log) d0) x = d0 x.
Proof.
  intros Hx. assert (Hsub : ∀ m, m ∈ (take j w_log).*1 → m ∈ slots (st + 1) n).
  { intros m Hm. rewrite <- w_log_fst. rewrite fmap_take in Hm. by eapply elem_of_take_in. }
  assert (Hst : st ∉ (take j w_log).*1) by (intros Hm%Hsub%elem_of_slots; lia).
  rewrite replay_empty; [|rewrite apply_writes_other by done; apply (tx_clear s bl Htx)].
  apply apply_writes_other. intros Hm%Hsub. by eapply home_not_slot.
Qed.

(** From then on: the new ones. *)
Lemma crash_late j x :
  home s x →
  replay st (apply_writes (take j w_home) (upd (apply_writes w_log d0) st h_full)) x = new x.
Proof.
  intros Hx. set (d1 := upd (apply_writes w_log d0) st h_full).
  assert (Ed1 : d1 st = h_full) by apply upd_eq.
  assert (Hsl : d1 <$> slots (st + 1) n = new <$> bl).
  { rewrite <- (w_log_slots d0). apply list_fmap_ext. intros k m Hm%list_elem_of_lookup_2.
    apply elem_of_slots in Hm. apply upd_ne. lia. }
  assert (Hld : log_disk s d1).
  { split; fold st; rewrite Ed1, ?h_full_blocks.
    - apply h_full_length.
    - apply (tx_home s bl Htx).
    - apply (tx_room s bl Htx).
    - apply bl_max. }
  assert (Hr : ∀ m, replay st (apply_writes (take j w_home) d1) m = replay st d1 m).
  { apply (replay_install s); [done|]. fold st. rewrite Ed1, h_full_blocks. fold n.
    rewrite Hsl. exists (drop j w_home). symmetry. apply take_drop. }
  rewrite Hr. unfold replay. rewrite Ed1, h_full_blocks. fold n. rewrite Hsl, apply_writes_map.
  case_decide as Hin; [done|]. unfold d1. rewrite upd_ne by (by apply home_not_start).
  rewrite apply_writes_other by (rewrite w_log_fst; by apply home_not_slot).
  symmetry. by apply (settled_look _ bl x (tx_settled s bl Htx)).
Qed.

Lemma commit_end x : home s x → apply_writes w_commit d0 x = new x.
Proof.
  intros Hx. unfold w_commit. rewrite apply_writes_app.
  change (apply_writes (w_home ++ [(st, h_clear)]) (upd (apply_writes w_log d0) st h_full) x = new x).
  rewrite apply_writes_app. cbn [apply_writes foldl]. rewrite upd_ne by (by apply home_not_start).
  change (apply_writes w_home (upd (apply_writes w_log d0) st h_full) x = new x).
  unfold w_home. rewrite apply_writes_map. case_decide as Hin; [done|].
  rewrite upd_ne by (by apply home_not_start).
  rewrite apply_writes_other by (rewrite w_log_fst; by apply home_not_slot).
  symmetry. by apply (settled_look _ bl x (tx_settled s bl Htx)).
Qed.

Lemma crash_end x : home s x → replay st (apply_writes w_commit d0) x = new x.
Proof.
  intros Hx. rewrite replay_empty; [by apply commit_end|]. unfold w_commit.
  rewrite apply_writes_app, app_comm_cons, apply_writes_app. cbn [apply_writes foldl].
  rewrite upd_eq. apply h_clear_n.
Qed.

Lemma commit_crash k :
  let d := apply_writes (take k w_commit) d0 in
  (∀ x, home s x → replay st d x = d0 x) ∨ (∀ x, home s x → replay st d x = new x).
Proof.
  cbv zeta. unfold w_commit.
  destruct (prefix_cases w_log w_home (st, h_full) (st, h_clear) k) as [[j ->]|[[j ->]| ->]].
  - left. intros x. apply crash_early.
  - right. intros x Hx. rewrite apply_writes_app. by apply crash_late.
  - right. intros x. apply crash_end.
Qed.

(** Recovery can start from each of these disks. *)
Lemma commit_recoverable k : log_disk s (apply_writes (take k w_commit) d0).
Proof.
  assert (Hclear : ∀ d, length (d st) = 512%nat → hdr_n (d st) = 0 → log_disk s d).
  { intros d Hl Hn. split; fold st; rewrite ?(hdr_blocks_empty _ Hn); [done|done| |simpl; lia].
    pose proof (ge_size s (tx_geo s bl Htx)). simpl. lia. }
  assert (Hfull : ∀ d, d st = h_full → log_disk s d).
  { intros d E. split; fold st; rewrite E, ?h_full_blocks.
    - apply h_full_length.
    - apply (tx_home s bl Htx).
    - apply (tx_room s bl Htx).
    - apply bl_max. }
  assert (Hst : st ∉ bl).
  { intros Hin. pose proof (tx_home s bl Htx) as Hh. rewrite Forall_forall in Hh.
    by apply Hh, home_not_start in Hin. }
  unfold w_commit.
  destruct (prefix_cases w_log w_home (st, h_full) (st, h_clear) k) as [[j ->]|[[j ->]| ->]].
  - assert (E : apply_writes (take j w_log) d0 st = d0 st).
    { apply apply_writes_other. rewrite fmap_take, w_log_fst. intros Hm%elem_of_take_in%elem_of_slots. lia. }
    apply Hclear; rewrite E; [apply (tx_hdr s bl Htx)|apply (tx_clear s bl Htx)].
  - apply Hfull. rewrite apply_writes_app.
    change (apply_writes (take j w_home) (upd (apply_writes w_log d0) st h_full) st = h_full).
    rewrite apply_writes_other; [apply upd_eq|]. rewrite fmap_take, w_home_fst.
    by intros Hm%elem_of_take_in.
  - assert (E : apply_writes (w_log ++ (st, h_full) :: w_home ++ [(st, h_clear)]) d0 st = h_clear).
    { rewrite apply_writes_app, app_comm_cons, apply_writes_app. apply upd_eq. }
    apply Hclear; rewrite E; [apply h_clear_length|apply h_clear_n].
Qed.

End commit.

(** ** Lemmas: recovery *)

Section recovery.
Context (s : log) (Hgeo : geometry s) (HQ : settled (cache s) [])
  (Hld : log_disk s (disk (cache s))).

Let st := start s.
Let d0 := disk (cache s).
Let bl := hdr_blocks (d0 st).

Definition w_install : list (Z * block) := zip bl (d0 <$> slots (st + 1) (length bl)).
Definition h_done : block := hdr (d0 st) 0 [].
Definition w_recover : list (Z * block) := w_install ++ [(st, h_done)].

Lemma w_install_fst : w_install.*1 = bl.
Proof. apply fst_zip. by rewrite length_fmap, length_slots. Qed.

Lemma start_not_home : st ∉ bl.
Proof.
  intros Hin. destruct Hld as [_ Hh _ _]. rewrite Forall_forall in Hh. apply Hh in Hin as [_ Hm].
  destruct Hgeo. fold st in Hm. lia.
Qed.

Lemma h_done_ok : length h_done = 512%nat ∧ hdr_n h_done = 0.
Proof.
  pose proof (ld_hdr _ _ Hld). split; [apply length_hdr; [done|simpl; lia]|].
  apply hdr_n_hdr; [done|simpl; lia|lia].
Qed.

Lemma recover_run :
  ∃ s', recover_from_log s = Ok tt s' ∧ tx s' [] ∧ start s' = st ∧ size s' = size s ∧
    disksize (cache s') = disksize (cache s) ∧
    disk (cache s') = apply_writes w_recover d0 ∧ trace (cache s') = trace (cache s) ++ w_recover.
Proof.
  pose proof Hgeo as [Gd Gs Ge Gz Gw Gl]. pose proof Hld as [Hl Hh Hr Hm]. fold st d0 in Hl, Hh, Hr, Hm.
  fold bl in Hh, Hr, Hm. fold st in Gs, Ge.
  destruct (read_head_ok s Gd HQ) as (c1 & bl1 & E1 & Hl1 & Ht & Q1 & L1 & D1 & T1 & S1).
  { fold st. lia. }
  { rewrite Gl. exact Hm. }
  fold st d0 in E1, Ht. fold bl in Ht. set (s1 := set_cache c1 (set_lh (hdr_n (d0 st)) bl1 s)).
  assert (Hn : Z.to_nat (hdr_n (d0 st)) = length bl)
    by (unfold bl, hdr_blocks; by rewrite length_fmap, length_seq).
  assert (Hhome : ∀ l, Forall (home s) l → Forall (home s1) l).
  { intros l. unfold home, s1. simpl. by rewrite S1. }
  destruct (for_install_ok bl 0 [] s1) as (c2 & E2 & Q2 & L2 & D2 & T2 & S2); try done.
  { intros i b Hi. rewrite <- Hi. simpl. pose proof (lookup_lt_Some _ _ _ Hi).
    rewrite <- (lookup_take_lt _ (length bl)) by done. by rewrite Ht. }
  { simpl. by rewrite S1. }
  { by apply Hhome. }
  { right. unfold NBUF. simpl. lia. }
  simpl in E2, L2, D2, T2, S2. fold st in L2, D2, T2. rewrite Z.add_0_r in L2, D2, T2.
  assert (Hsl : look c1 <$> slots (st + 1) (length bl) = d0 <$> slots (st + 1) (length bl)).
  { apply list_fmap_ext. intros k m _. rewrite L1. apply (settled_look _ [] m HQ), not_elem_of_nil. }
  rewrite Hsl in L2, D2, T2. fold w_install in L2, D2, T2.
  set (s2 := set_lh 0 bl1 (set_cache c2 s1)).
  destruct (write_head_ok [] s2 []) as (c3 & E3 & Q3 & L3 & D3 & T3 & S3); try done.
  { apply not_elem_of_nil. }
  { unfold NBUF. simpl. lia. }
  { simpl. rewrite S2, S1. fold st. lia. }
  simpl in E3, L3, D3, T3, S3. fold st in L3, D3, T3.
  assert (Hst2 : disk c2 st = d0 st).
  { rewrite D2, D1, apply_writes_other; [done|]. rewrite w_install_fst. apply start_not_home. }
  rewrite Hst2 in L3, D3, T3. fold h_done in L3, D3, T3. destruct h_done_ok as [Hdl Hdn].
  exists (set_cache c3 s2). split_and!; try done.
  - unfold recover_from_log, install_trans, mbind, cm_bind, gets, modify. rewrite E1. fold s1.
    change (lh_n s1) with (hdr_n (d0 st)). rewrite Hn, E2. exact E3.
  - split; simpl; try done; try lia.
    + split; simpl; rewrite ?S3, ?S2, ?S1, ?Hl1; done.
    + apply NoDup_nil_2.
    + unfold NBUF. lia.
    + rewrite D3. fold st. by rewrite upd_eq.
    + rewrite D3. fold st. by rewrite upd_eq.
  - simpl. by rewrite S3, S2, S1.
  - simpl. unfold w_recover. rewrite D3, D2, D1, apply_writes_app. done.
  - simpl. rewrite T3, T2, T1. unfold w_recover. by rewrite <- !app_assoc.
Qed.

(** Whatever prefix of the writes reached the disk, recovery finds the same. *)
Lemma recover_crash k x :
  home s x → replay st (apply_writes (take k w_recover) d0) x = replay st d0 x.
Proof.
  intros Hx. unfold w_recover.
  assert (Hfull : ∀ m, home s m → apply_writes (w_install ++ [(st, h_done)]) d0 m = replay st d0 m).
  { intros m [_ Hm]. rewrite apply_writes_app. cbn [apply_writes foldl]. rewrite upd_ne; [done|].
    intros ->. destruct Hgeo. fold st in Hm. lia. }
  destruct (decide (k ≤ length w_install)%nat) as [Hk|Hk].
  - rewrite take_app_le by done. apply (replay_install s); [done|]. fold st d0. fold bl.
    exists (drop k w_install). symmetry. apply take_drop.
  - rewrite take_ge by (rewrite length_app; simpl; lia).
    rewrite replay_empty; [by apply Hfull|]. rewrite apply_writes_app. cbn [apply_writes foldl].
    rewrite upd_eq. apply h_done_ok.
Qed.

Lemma recover_end x : home s x → apply_writes w_recover d0 x = replay st d0 x.
Proof.
  intros [_ Hm]. unfold w_recover. rewrite apply_writes_app. cbn [apply_writes foldl].
  rewrite upd_ne; [done|]. intros ->. destruct Hgeo. fold st in Hm. lia.
Qed.

Lemma recover_recoverable k : log_disk s (apply_writes (take k w_recover) d0).
Proof.
  unfold w_recover. destruct (decide (k ≤ length w_install)%nat) as [Hk|Hk].
  - rewrite take_app_le by done. apply log_disk_other; [done|]. fold st.
    rewrite fmap_take, w_install_fst. intros Hm%elem_of_take_in. by apply start_not_home.
  - rewrite take_ge by (rewrite length_app; simpl; lia).
    assert (E : apply_writes (w_install ++ [(st, h_done)]) d0 st = h_done)
      by (rewrite apply_writes_app; apply upd_eq).
    destruct h_done_ok as [Hl Hn]. split; fold st; rewrite E, ?(hdr_blocks_empty _ Hn); try done.
    + destruct Hgeo. simpl. lia.
    + simpl. lia.
Qed.

End recovery.

(** ** Lemmas: reservations *)

(** The rest of the state while the cache is used. *)
Lemma on_cache_frame {A} (m : cm bcache A) s a s' :
  on_cache m s = Ok a s' → ∃ c, s' = set_cache c s.
Proof. unfold on_cache. destruct (m (cache s)); try done. intros [= _ <-]. by eexists. Qed.

Lemma for_log_frame body n tail s u s' : for_log body n tail s = Ok u s' → ∃ c, s' = set_cache c s.
Proof.
  revert tail s. induction n as [|n IH]; intros tail s; cbn [for_log].
  { intros [= _ <-]. exists (cache s). by destruct s. }
  unfold mbind, cm_bind, gets, lh_get. destruct (arr_get _ _) as [h|]; [|done].
  destruct (on_cache _ s) as [[] s1| |] eqn:E1; try done. apply on_cache_frame in E1 as [c ->].
  intros [c' ->]%IH. by exists c'.
Qed.

Lemma write_head_frame s u s' : write_head s = Ok u s' → ∃ c, s' = set_cache c s.
Proof.
  unfold write_head, mbind, cm_bind, gets.
  destruct (on_cache _ s) as [b s1| |] eqn:E1; try done. apply on_cache_frame in E1 as [c1 ->].
  destruct (on_cache (get_data b) _) as [d s2| |] eqn:E2; try done. apply on_cache_frame in E2 as [c2 ->].
  destruct (_ <? _); [done|]. cbn [mret cm_ret].
  destruct (on_cache (set_data b _) _) as [u3 s3| |] eqn:E3; try done. apply on_cache_frame in E3 as [c3 ->].
  destruct (on_cache (bwrite b) _) as [u4 s4| |] eqn:E4; try done. apply on_cache_frame in E4 as [c4 ->].
  intros [c5 ->]%on_cache_frame. by exists c5.
Qed.

(** [commit] empties the header. *)
Lemma commit_frame s u s' :
  0 ≤ lh_n s → commit s = Ok u s' → ∃ c bl, s' = set_lh 0 bl (set_cache c s).
Proof.
  intros Hn. unfold commit, write_log, install_trans, mbind, cm_bind, gets.
  destruct (0 <? lh_n s) eqn:E; zbool.
  2: { intros [= _ <-]. exists (cache s), (lh_block s). destruct s; simpl in *. unfold set_lh; simpl. f_equal. lia. }
  destruct (for_log log_block _ _ s) as [u1 s1| |] eqn:E1; try done. apply for_log_frame in E1 as [c1 ->].
  destruct (write_head _) as [u2 s2| |] eqn:E2; try done. apply write_head_frame in E2 as [c2 ->].
  destruct (for_log install_block _ _ _) as [u3 s3| |] eqn:E3; try done. apply for_log_frame in E3 as [c3 ->].
  unfold modify. intros [c4 ->]%write_head_frame. by eexists c4, _.
Qed.

(** *** The calls in progress *)

(** A log and, for each call between [begin_op] and [end_op], how many blocks it may
    still write.  Other code uses the cache freely. *)
Inductive lstep : log * list nat → log * list nat → Prop :=
| step_begin s s' ops :
    begin_op s = Ok true s' → lstep (s, ops) (s', ops ++ [Z.to_nat MAXOPBLOCKS])
| step_wait s s' ops :
    begin_op s = Ok false s' → lstep (s, ops) (s', ops)
| step_cache s c ops :
    lstep (s, ops) (set_cache c s, ops)
| step_write s s' ops i k b :
    ops !! i = Some (S k) → log_write b s = Ok tt s' → lstep (s, ops) (s', <[i := k]> ops)
| step_end s s' ops1 k ops2 :
    end_op s = Ok tt s' → lstep (s, ops1 ++ k :: ops2) (s', ops1 ++ ops2).

Definition reserved (x : log * list nat) : Prop :=
  let '(s, ops) := x in
  log_lock s = false ∧ committing s = 0 ∧ outstanding s = Z.of_nat (length ops) ∧
  0 ≤ lh_n s ∧ lh_n s + Z.of_nat (sum_list ops) ≤ LOGSIZE ∧
  Forall (λ k, (k ≤ 10)%nat) ops.

Lemma sum_list_app ops ops' : sum_list (ops ++ ops') = (sum_list ops + sum_list ops')%nat.
Proof. induction ops as [|k ops IH]; [done|]. simpl. rewrite IH. lia. Qed.

Lemma sum_list_bound ops : Forall (λ k, (k ≤ 10)%nat) ops → (sum_list ops ≤ 10 * length ops)%nat.
Proof. induction 1; simpl; lia. Qed.

Lemma sum_list_insert ops i k : ops !! i = Some (S k) → S (sum_list (<[i:=k]> ops)) = sum_list ops.
Proof.
  revert i. induction ops as [|x ops IH]; intros [|i] Hi; try done.
  - by injection Hi as ->.
  - simpl. rewrite <- (IH i Hi). lia.
Qed.

(** The parts of [log_write] that matter for the space. *)
Lemma log_write_frame b s s' :
  log_write b s = Ok tt s' →
  log_lock s = false ∧ log_lock s' = false ∧ committing s' = committing s ∧
  outstanding s' = outstanding s ∧ size s' = size s ∧
  (lh_n s' = lh_n s ∨ lh_n s' = lh_n s + 1).
Proof.
  unfold log_write, mbind, cm_bind, get. destruct (_ || _); [done|]. destruct (_ <? 1); [done|].
  unfold acquire. destruct (log_lock s) eqn:El; [done|].
  destruct (on_cache (buf_at b) _) as [x s1| |] eqn:E1; try done. apply on_cache_frame in E1 as [c1 ->].
  unfold lh_set. destruct (arr_set _ _ _) as [bl|]; [|done]. unfold modify.
  destruct (on_cache (bpin b) _) as [u s2| |] eqn:E2; try done. apply on_cache_frame in E2 as [c2 ->].
  unfold release. simpl. intros [= <-]. simpl. split_and!; try done. case_match; auto.
Qed.

Lemma begin_op_frame s r s' :
  begin_op s = Ok r s' →
  log_lock s = false ∧ log_lock s' = false ∧ committing s' = committing s ∧ size s' = size s ∧
  lh_n s' = lh_n s ∧
  (r = true → committing s = 0 ∧ outstanding s' = outstanding s + 1 ∧
              lh_n s + (outstanding s + 1) * MAXOPBLOCKS ≤ LOGSIZE) ∧
  (r = false → outstanding s' = outstanding s).
Proof.
  unfold begin_op, mbind, cm_bind, acquire, release, get, modify. destruct (log_lock s); [done|]. simpl.
  destruct (committing s =? 0) eqn:Ec; simpl.
  - destruct (LOGSIZE <? _) eqn:El; simpl; intros [= <- <-]; simpl; split_and!; try done.
    zbool. done.
  - intros [= <- <-]. by split_and!.
Qed.

Lemma end_op_frame s s' :
  0 ≤ lh_n s → end_op s = Ok tt s' →
  log_lock s = false ∧ log_lock s' = false ∧ committing s = 0 ∧ committing s' = 0 ∧
  outstanding s' = outstanding s - 1 ∧ size s' = size s ∧
  lh_n s' = (if outstanding s =? 1 then 0 else lh_n s).
Proof.
  intros Hn. unfold end_op, mbind, cm_bind, acquire, release, get, modify.
  destruct (log_lock s); [done|]. simpl. destruct (committing s =? 0) eqn:Ec; [|done]. zbool. simpl.
  replace (outstanding s =? 1) with (outstanding s - 1 =? 0)
    by (apply Bool.eq_iff_eq_true; rewrite !Z.eqb_eq; lia).
  destruct (outstanding s - 1 =? 0) eqn:Eo; simpl; [|intros [= <-]; by split_and!].
  destruct (commit _) as [u s1| |] eqn:E1; try done.
  apply commit_frame in E1 as (c & bl & ->); [|done]. simpl. intros [= <-]. by split_and!.
Qed.

Lemma reserved_step x y : reserved x → lstep x y → reserved y.
Proof.
  intros Hx Hs. destruct Hs as [s s' ops E|s s' ops E|s c ops|s s' ops i k b Hi E|s s' ops1 k ops2 E];
    destruct Hx as (H1 & H2 & H3 & H4 & H5 & H6).
  - apply begin_op_frame in E as (_ & ? & ? & _ & En & Ht & _). destruct (Ht eq_refl) as (_ & Eo & Hl).
    pose proof (sum_list_bound ops H6). unfold LOGSIZE, MAXOPBLOCKS in *.
    split_and!; [done|lia| |lia| |].
    + rewrite length_app, Eo. simpl. lia.
    + rewrite sum_list_app. simpl. unfold LOGSIZE, MAXOPBLOCKS. lia.
    + apply Forall_app. split; [done|]. repeat constructor; simpl; lia.
  - apply begin_op_frame in E as (_ & ? & ? & _ & En & _ & Hf). unfold reserved. rewrite (Hf eq_refl), En.
    split_and!; try done; lia.
  - done.
  - apply log_write_frame in E as (_ & ? & ? & ? & _ & Hn). pose proof (sum_list_insert ops i k Hi).
    split_and!; [done|lia|rewrite length_insert; lia|lia|lia|].
    apply Forall_insert; [done|]. rewrite Forall_lookup in H6. specialize (H6 i _ Hi). simpl in H6. lia.
  - apply end_op_frame in E as (_ & ? & _ & ? & ? & _ & Hn); [|done].
    rewrite length_app in H3. simpl in H3. rewrite sum_list_app in H5. simpl in H5.
    apply Forall_app in H6 as [H6 [_ H6']%Forall_cons].
    assert (0 ≤ lh_n s' ≤ lh_n s) by (rewrite Hn; case_match; lia).
    split_and!; [done|done|rewrite length_app; lia|lia|rewrite sum_list_app; lia|by apply Forall_app].
Qed.

Lemma lstep_size x y : reserved x → lstep x y → size y.1 = size x.1.
Proof.
  intros Hx Hs. destruct Hs as [s s' ops E|s s' ops E|s c ops|s s' ops i k b Hi E|s s' ops1 k ops2 E];
    destruct Hx as (H1 & H2 & H3 & H4 & H5 & H6); simpl.
  - by apply begin_op_frame in E as (_ & _ & _ & ? & _).
  - by apply begin_op_frame in E as (_ & _ & _ & ? & _).
  - done.
  - by apply log_write_frame in E as (_ & _ & _ & _ & ? & _).
  - by apply end_op_frame in E as (_ & _ & _ & _ & _ & ? & _).
Qed.

(** ** Lemmas: recording a block *)

(** The use of the log that its comment prescribes. *)
Definition update_block (dev b : Z) (d : block) : cm log unit :=
  i ← on_cache (bread dev b);
  on_cache (set_data i d) ;;
  log_write i ;;
  on_cache (brelse i).

(** The blocks of a transaction after one more write. *)
Definition record_block (b : Z) (bl : list Z) : list Z := if decide (b ∈ bl) then bl else bl ++ [b].

Lemma absorb_spec b l n i :
  (n ≤ length l)%nat →
  ∃ k, absorb b l n i = (i + k)%nat ∧ (k ≤ n)%nat ∧
    (k = n → b ∉ take n l) ∧ ((k < n)%nat → l !! k = Some b).
Proof.
  revert n i. induction l as [|x l IH]; intros n i Hn.
  { assert (n = 0%nat) as -> by (simpl in Hn; lia). exists 0%nat. split_and!; [simpl; lia|done| |lia].
    intros _. apply not_elem_of_nil. }
  destruct n as [|n].
  { exists 0%nat. split_and!; [simpl; lia|done| |lia]. intros _. apply not_elem_of_nil. }
  cbn [absorb take]. destruct (x =? b) eqn:Ex; zbool.
  - exists 0%nat. split_and!; [lia|lia|lia|]. intros _. by subst.
  - destruct (IH n (S i)) as (k & E & Hk & Hno & Hyes); [simpl in Hn; lia|].
    exists (S k). split_and!; [lia|lia| |].
    + intros [= Ek]. apply not_elem_of_cons. split; [congruence|by apply Hno].
    + intros Hlt. apply Hyes. lia.
Qed.

Lemma log_write_run s bl i b c' :
  length (lh_block s) = Z.to_nat LOGSIZE → lh_n s = Z.of_nat (length bl) →
  take (length bl) (lh_block s) = bl → log_lock s = false → 1 ≤ outstanding s →
  2 + Z.of_nat (length bl) ≤ size s → (length bl < 30)%nat → holds_at (cache s) i b → wf (cache s) → bpin i (cache s) = Ok tt c' →
  ∃ lh, log_write i s =
    Ok tt (set_cache c' (set_lh (Z.of_nat (length (record_block b bl))) lh s)) ∧
    take (length (record_block b bl)) lh = record_block b bl ∧ length lh = length (lh_block s).
Proof.
  intros Gl En Ebl Hlk Ho Hsz Hl Hh Hw Hpin. unfold LOGSIZE, MAXOPBLOCKS in Gl. simpl in Gl.
  destruct (holds_info (cache s) i b Hw Hh) as (f & (Hi & _) & _).
  assert (Hn : Z.to_nat (lh_n s) = length bl) by lia.
  destruct (absorb_spec b (lh_block s) (length bl) 0) as (k & Ek & Hk & Hno & Hyes); [lia|].
  exists (<[k := b]> (lh_block s)). unfold log_write, mbind, cm_bind, get.
  rewrite (proj2 (Z.leb_gt LOGSIZE _)), (proj2 (Z.leb_gt (size s - 1) _)), (proj2 (Z.ltb_ge _ 1))
    by (unfold LOGSIZE, MAXOPBLOCKS; lia).
  cbn [orb]. unfold acquire. rewrite Hlk. unfold on_cache, buf_at. cbn [cache set_log_lock].
  rewrite Hi. cbn [blockno]. rewrite Hn, Ek. cbn [Nat.add].
  unfold lh_set, arr_set. cbn [lh_block set_log_lock set_cache lh_n].
  rewrite (proj2 (Z.leb_le 0 _)), (proj2 (Z.ltb_lt _ _)) by lia. cbn [andb]. rewrite Nat2Z.id.
  unfold modify. cbn [cache set_lh set_log_lock set_cache lh_n lh_block]. rewrite Hpin.
  unfold release. cbn [log_lock set_cache set_lh set_log_lock].
  rewrite length_insert. unfold record_block.
  destruct (decide (k = length bl)) as [->|Hkn].
  - rewrite Ebl in Hno. rewrite decide_False by (by apply Hno).
    rewrite En, Z.eqb_refl, length_app, Nat.add_comm. simpl length. split_and!; [|  |done].
    + f_equal. unfold set_lh, set_log_lock, set_cache. cbn. rewrite Hlk. f_equal. lia.
    + cbn [Nat.add]. rewrite (take_S_r _ _ b) by (apply list_lookup_insert_eq; lia).
      by rewrite take_insert_ge, Ebl by lia.
  - specialize (Hyes ltac:(lia)). rewrite (proj2 (Z.eqb_neq _ _)) by lia.
    assert (Hin : b ∈ bl).
    { rewrite <- Ebl. apply list_elem_of_lookup. exists k. rewrite lookup_take_lt by lia. done. }
    rewrite decide_True, list_insert_id by done. split_and!; [|done|done].
    f_equal. unfold set_lh, set_log_lock, set_cache. cbn. rewrite Hlk, En. done.
Qed.

Lemma record_block_in b bl m : m ∈ record_block b bl ↔ m ∈ bl ∨ m = b.
Proof. unfold record_block. case_decide; [naive_solver|]. rewrite elem_of_app, list_elem_of_singleton. done. Qed.

Lemma length_record_block b bl : (length (record_block b bl) ≤ S (length bl))%nat.
Proof. unfold record_block. case_decide; [lia|]. rewrite length_app. simpl. lia. Qed.

Lemma tx_record s bl b c' lh :
  tx s bl → home s b → 2 + Z.of_nat (length bl) ≤ size s → (S (length bl) < NBUF)%nat →
  disk c' = disk (cache s) → disksize c' = disksize (cache s) →
  take (length (record_block b bl)) lh = record_block b bl → length lh = length (lh_block s) →
  settled c' (record_block b bl) →
  tx (set_cache c' (set_lh (Z.of_nat (length (record_block b bl))) lh s)) (record_block b bl).
Proof.
  intros [[? ? ? ? ? ?] En Ebl Hnd Hhome Hroom _ HQ Hh Hcl] Hb Hsz Hbuf Hd Hs Ht Hl HQ'.
  pose proof (length_record_block b bl).
  split; simpl; rewrite ?Hd; try done; try lia.
  - split; simpl; rewrite ?Hs, ?Hl; done.
  - unfold record_block. case_decide; [done|]. apply NoDup_app. split_and!; [done| |apply NoDup_singleton].
    intros x Hx ->%list_elem_of_singleton. done.
  - apply Forall_forall. intros m Hm%record_block_in. unfold home. simpl. rewrite Hs.
    rewrite Forall_forall in Hhome. destruct Hm as [Hm| ->]; [by apply Hhome|done].
Qed.

Lemma update_block_ok s bl b d :
  tx s bl → log_lock s = false → 1 ≤ outstanding s → home s b →
  2 + Z.of_nat (length bl) ≤ size s → (S (length bl) < NBUF)%nat →
  ∃ c' lh, update_block ROOTDEV b d s =
      Ok tt (set_cache c' (set_lh (Z.of_nat (length (record_block b bl))) lh s)) ∧
    tx (set_cache c' (set_lh (Z.of_nat (length (record_block b bl))) lh s)) (record_block b bl) ∧
    (∀ x, look c' x = upd (look (cache s)) b d x) ∧
    disk c' = disk (cache s) ∧ trace c' = trace (cache s).
Proof.
  intros Htx Hlk Ho Hb Hsz Hbuf. pose proof Htx as [G En Ebl Hnd Hhome Hroom _ HQ Hh Hcl].
  pose proof HQ as [Hw Hnh Hp]. unfold NBUF in Hbuf.
  destruct (bread_ok (cache s) b Hw (proj1 Hb) (Hnh b)) as (i & c1 & E1 & G1).
  { right. eapply settled_roomy; [done|]. unfold NBUF. lia. }
  assert (H1 : holds_at c1 i b) by (apply (gr_holds _ _ _ _ G1); by right).
  destruct (set_data_ok c1 i b d (gr_wf _ _ _ _ G1) H1) as (c2 & E2 & C2 & D2 & T2).
  assert (H2 : holds_at c2 i b) by (by apply (ch_holds _ _ _ _ _ C2)).
  destruct (bpin_ok c2 i b (ch_wf _ _ _ _ _ C2) H2) as (c3 & E3 & C3 & D3 & T3).
  assert (H3 : holds_at c3 i b) by (by apply (ch_holds _ _ _ _ _ C3)).
  destruct (brelse_ok c3 i b (ch_wf _ _ _ _ _ C3) H3) as (c4 & E4 & R).
  { left. apply (ch_pinned _ _ _ _ _ C3). by rewrite decide_True. }
  assert (Hdisk : disk c4 = disk (cache s))
    by (by rewrite (re_disk _ _ _ R), D3, D2, (gr_disk _ _ _ _ G1)).
  assert (Hsize : disksize c4 = disksize (cache s))
    by (by rewrite (re_size _ _ _ R), (ch_size _ _ _ _ _ C3), (ch_size _ _ _ _ _ C2), (gr_size _ _ _ _ G1)).
  destruct (log_write_run (set_cache c2 s) bl i b c3) as (lh & E & Ht & Hlen); try done.
  { apply G. }
  { lia. }
  { apply C2. }
  exists c4, lh. split_and!.
  - unfold update_block, mbind, cm_bind. rewrite (on_cache_ok _ s i c1 E1).
    rewrite (on_cache_ok _ (set_cache c1 s) tt c2 E2). change (set_cache c2 (set_cache c1 s)) with (set_cache c2 s).
    rewrite E. etrans; [apply on_cache_ok; exact E4|done].
  - apply (tx_record s bl b c4 lh Htx Hb); try done.
    destruct G1 as [_ _ p1 h1 _ _ _ _], C2 as [_ _ p2 h2 _ _], C3 as [_ _ p3 h3 _ _],
      R as [w4 _ p4 h4 _ _ _ _].
    split; [done| |].
    + intros m [j [Hj Hm]%h4]. apply h3, h2, h1 in Hj as [Hj|[_ ?]]; [|done]. apply (Hnh m). by exists j.
    + intros m. rewrite p4, p3, record_block_in. case_decide as Hm; [naive_solver|].
      rewrite p2, decide_False, p1, Hp by done. naive_solver.
  - intros x. unfold upd. rewrite (re_look _ _ _ R), (ch_look _ _ _ _ _ C3).
    case_decide as Hx.
    + subst x. by rewrite Z.eqb_refl, (ch_look _ _ _ _ _ C2), decide_True.
    + by rewrite (proj2 (Z.eqb_neq _ _) Hx), (ch_look _ _ _ _ _ C2), decide_False, (gr_look _ _ _ _ G1).
  - done.
  - by rewrite (re_trace _ _ _ R), T3, T2, (gr_trace _ _ _ _ G1).
Qed.

(** ** Properties *)

(** The disk writes of [commit], and what recovery makes of a prefix of them. *)
Lemma commit_all s bl :
  tx s bl →
  ∃ s' w, commit s = Ok tt s' ∧ tx s' [] ∧
    trace (cache s') = trace (cache s) ++ w ∧
    (∀ x, home s x → disk (cache s') x = look (cache s) x) ∧
    ∀ k, let d := apply_writes (take k w) (disk (cache s)) in
      log_disk s d ∧
      ((∀ x, home s x → replay (start s) d x = disk (cache s) x) ∨
       (∀ x, home s x → replay (start s) d x = look (cache s) x)).
Proof.
  intros Htx. destruct (decide (bl = [])) as [->|Hne].
  - exists s, []. assert (Hl : ∀ x, look (cache s) x = disk (cache s) x).
    { intros x. apply (settled_look _ [] x (tx_settled s [] Htx)), not_elem_of_nil. }
    split_and!; [|done|by rewrite app_nil_r|by intros; rewrite Hl|].
    + unfold commit, mbind, cm_bind, gets. by rewrite (tx_n s [] Htx).
    + intros k. rewrite take_nil. split; [apply (commit_recoverable s [] Htx 0)|]. left.
      intros x _. apply replay_empty, (tx_clear s [] Htx).
  - destruct (commit_run s bl Htx Hne) as (s' & E & Ht & _ & _ & _ & Hd & Htr).
    exists s', (w_commit s bl). split_and!; [done|done|done| |].
    + intros x Hx. rewrite Hd. by apply commit_end.
    + intros k. split; [by apply commit_recoverable|by apply commit_crash].
Qed.

(** The machine started again with disk [d], when [initlog] has read the superblock. *)
Definition reboot (s : log) (d : Z → block) : log :=
  Log (binit (disksize (cache s)) d (pid (cache s))) false (start s) (size s) 0 0 ROOTDEV 0
    (replicate (Z.to_nat LOGSIZE) 0) 0.

Lemma binit_settled size d p : settled (binit size d p) [].
Proof.
  destruct (binit_idle size d p) as (Hw & Hp & Hh). split; [done|done|]. intros m. split.
  - intros Hm. by apply Hp in Hm.
  - intros Hm. by apply not_elem_of_nil in Hm.
Qed.

Lemma reboot_recovers s d :
  geometry s → log_disk s d →
  ∃ s', recover_from_log (reboot s d) = Ok tt s' ∧ tx s' [] ∧
    ∀ x, home s x → disk (cache s') x = replay (start s) d x.
Proof.
  intros [Gd Gs Ge Gz Gw Gl] Hld.
  assert (Hld' : log_disk (reboot s d) (disk (cache (reboot s d)))) by (destruct Hld; by split).
  assert (Hg : geometry (reboot s d)) by (by split).
  destruct (recover_run (reboot s d) Hg (binit_settled _ _ _) Hld') as (s' & E & Ht & _ & _ & _ & Hd & _).
  exists s'. split_and!; [done|done|]. intros x Hx. rewrite Hd. by apply (recover_end (reboot s d) Hg).
Qed.

(** C1: [commit] is atomic.  From a transaction that wrote the blocks [bl] it returns
    with all of them on the disk and the log empty; and whatever prefix of its disk
    writes a crash lets through, recovery from the disk that is left returns, with
    either all the old contents of the home blocks or all the new ones. *)
Theorem commit_atomic s bl :
  tx s bl →
  ∃ s' w, commit s = Ok tt s' ∧ tx s' [] ∧
    trace (cache s') = trace (cache s) ++ w ∧
    (∀ x, home s x → disk (cache s') x = look (cache s) x) ∧
    ∀ k, ∃ s2,
      recover_from_log (reboot s (apply_writes (take k w) (disk (cache s)))) = Ok tt s2 ∧ tx s2 [] ∧
      ((∀ x, home s x → disk (cache s2) x = disk (cache s) x) ∨
       (∀ x, home s x → disk (cache s2) x = look (cache s) x)).
Proof.
  intros Htx. destruct (commit_all s bl Htx) as (s' & w & E & Ht & Hw & Hd & Hk).
  exists s', w. split_and!; try done. intros k. destruct (Hk k) as [Hld Hc].
  destruct (reboot_recovers s _ (tx_geo s bl Htx) Hld) as (s2 & E2 & Ht2 & Hr).
  exists s2. split_and!; [done|done|]. destruct Hc as [Hc|Hc]; [left|right]; intros x Hx; by rewrite Hr, Hc.
Qed.

(** C5: Recovery installs what the log holds.  From any disk whose header lists home
    blocks, [recover_from_log] returns with the log empty and every home block at
    its replayed contents; and after a crash at any point of it recovery can start
    again and finds the same contents. *)
Theorem recovery_installs s :
  geometry s → settled (cache s) [] → log_disk s (disk (cache s)) →
  ∃ s' w, recover_from_log s = Ok tt s' ∧ tx s' [] ∧
    trace (cache s') = trace (cache s) ++ w ∧
    (∀ x, home s x → disk (cache s') x = replay (start s) (disk (cache s)) x) ∧
    ∀ k, let d := apply_writes (take k w) (disk (cache s)) in
      log_disk s d ∧
      ∀ x, home s x → replay (start s) d x = replay (start s) (disk (cache s)) x.
Proof.
  intros Hg HQ Hld. destruct (recover_run s Hg HQ Hld) as (s' & E & Ht & _ & _ & _ & Hd & Htr).
  exists s', (w_recover s). split_and!; [done|done|done| |].
  - intros x Hx. rewrite Hd. by apply recover_end.
  - intros k. split; [by apply recover_recoverable|]. intros x. by apply recover_crash.
Qed.

(** C33: The reservation of [begin_op] suffices for the header in memory: in every
    interleaving of calls that each write at most [MAXOPBLOCKS] blocks, a call that
    has blocks left never makes [log_write] panic, provided the log on disk has more
    than [LOGSIZE] blocks.  ([mkfs] makes one of exactly [LOGSIZE] blocks, for which this
    does not hold.) *)
Theorem log_reservation s0 s ops i k b :
  log_lock s0 = false → committing s0 = 0 → outstanding s0 = 0 → lh_n s0 = 0 →
  LOGSIZE < size s0 → rtc lstep (s0, []) (s, ops) → ops !! i = Some (S k) →
  ∀ msg, log_write b s ≠ Panic msg.
Proof.
  intros H1 H2 H3 H4 Hsz Hr Hi msg.
  assert (Hinv : reserved (s, ops) ∧ size s = size s0).
  { assert (Hgen : ∀ x y, rtc lstep x y → reserved x → reserved y ∧ size y.1 = size x.1).
    { induction 1 as [x|x y z Hxy _ IH]; intros Hx; [done|].
      destruct (IH (reserved_step x y Hx Hxy)) as [Hz Es]. split; [done|]. rewrite Es.
      by apply lstep_size. }
    apply (Hgen _ _ Hr). repeat split; try done; simpl; try lia. unfold LOGSIZE, MAXOPBLOCKS. lia. }
  destruct Hinv as [(Hlk & Hc & Ho & Hn & Hsum & Hle) Es].
  pose proof (sum_list_insert ops i k Hi). pose proof (lookup_lt_Some _ _ _ Hi).
  unfold log_write, mbind, cm_bind, get.
  rewrite (proj2 (Z.leb_gt LOGSIZE _)), (proj2 (Z.leb_gt (size s - 1) _)), (proj2 (Z.ltb_ge _ 1)) by lia.
  cbn [orb]. unfold acquire. rewrite Hlk. unfold on_cache, buf_at. cbn [cache set_log_lock].
  destruct (bufs (cache s) !! b) as [x|]; [|done]. unfold lh_set.
  destruct (arr_set _ _ _); [|done]. unfold modify. cbn [cache set_lh set_cache set_log_lock].
  unfold bpin, mbind, cm_bind, buf_at. destruct (bufs (cache s) !! b); [|done]. done.
Qed.

(** Within a transaction, changing a block through the cache and [log_write] records
    it once, however often it is written, and pins it: readers see the new contents,
    nothing reaches the disk, and the transaction stays ready to commit. *)
Theorem log_write_records s bl b d :
  tx s bl → log_lock s = false → 1 ≤ outstanding s → home s b →
  2 + Z.of_nat (length bl) ≤ size s → (S (length bl) < NBUF)%nat →
  returns (update_block ROOTDEV b d s) (λ _ s',
    tx s' (if decide (b ∈ bl) then bl else bl ++ [b]) ∧
    (∀ x, look (cache s') x = if x =? b then d else look (cache s) x) ∧
    disk (cache s') = disk (cache s) ∧ trace (cache s') = trace (cache s) ∧
    outstanding s' = outstanding s).
Proof.
  intros Htx Hlk Ho Hb Hsz Hbuf.
  destruct (update_block_ok s bl b d Htx Hlk Ho Hb Hsz Hbuf) as (c' & lh & -> & Ht & Hl & Hd & Htr).
  simpl. by split_and!.
Qed.

(** *** The log is one block short *)

(** The log of a disk made by [mkfs], which sets [nlog] to [LOGSIZE], at rest. *)
Definition made_log : log :=
  Log (binit 1000 (λ _, replicate 512 0) 1) false 2 LOGSIZE 0 0 ROOTDEV 0
    (replicate (Z.to_nat LOGSIZE) 0) 0.

(** Three calls begin, and write distinct blocks in turn. *)
Definition three_calls : log := set_outstanding 3 made_log.

Definition with_block (n : Z) (s : log) : log :=
  set_cache (BCache [Buf CLEAN ROOTDEV n None 0 []] [0%nat] false (λ _, []) 1000 [] 1) s.

Definition write_next (s : log) : log :=
  match log_write 0 (with_block (100 + lh_n s) s) with Ok _ s' => s' | _ => s end.

Definition after (n : nat) : log := Nat.iter n write_next three_calls.
Definition budgets (n : nat) : list nat := [10 - n; min 10 (20 - n); min 10 (30 - n)]%nat.

Definition write_ok (n : nat) : bool :=
  match log_write 0 (with_block (100 + lh_n (after n)) (after n)) with Ok _ _ => true | _ => false end.
Definition budget_ok (n : nat) : bool :=
  match budgets n !! (n / 10)%nat with
  | Some (S k) => bool_decide (budgets (S n) = <[(n / 10)%nat := k]> (budgets n))
  | _ => false
  end.

Lemma writes_step n : (n < 29)%nat →
  log_write 0 (with_block (100 + lh_n (after n)) (after n)) = Ok tt (after (S n)) ∧
  ∃ k, budgets n !! (n / 10)%nat = Some (S k) ∧ budgets (S n) = <[(n / 10)%nat := k]> (budgets n).
Proof.
  intros Hn. assert (Hin : n ∈ seq 0 29) by (apply elem_of_seq; lia). clear Hn.
  apply list_elem_of_In in Hin. split.
  - assert (Hok : forallb write_ok (seq 0 29) = true) by (by vm_compute).
    rewrite forallb_forall in Hok. specialize (Hok n Hin). unfold write_ok in Hok.
    change (after (S n)) with (write_next (after n)). unfold write_next.
    by destruct (log_write 0 _) as [[] s'| |].
  - assert (Hok : forallb budget_ok (seq 0 29) = true) by (by vm_compute).
    rewrite forallb_forall in Hok. specialize (Hok n Hin). unfold budget_ok in Hok.
    destruct (budgets n !! (n / 10)%nat) as [[|k]|]; try done. exists k. split; [done|].
    by apply bool_decide_eq_true in Hok.
Qed.

Lemma writes_path n : (n ≤ 29)%nat → rtc lstep (three_calls, budgets 0) (after n, budgets n).
Proof.
  induction n as [|n IH]; intros Hn; [done|]. destruct (writes_step n) as (E & k & Hk & Hb); [lia|].
  etrans; [apply IH; lia|]. eapply rtc_l; [apply (step_cache (after n))|].
  eapply rtc_l; [by eapply step_write|]. by rewrite <- Hb.
Qed.

(** The log is one block short of what calls may reserve: three calls of ten
    blocks each are admitted, but the 30th distinct block makes [log_write] panic,
    since [mkfs] makes the log [LOGSIZE] blocks long with its header. *)
Theorem log_one_block_short :
  ∃ s ops i k b,
    rtc lstep (made_log, []) (s, ops) ∧ ops !! i = Some (S k) ∧
    log_write b s = Panic "too big a transaction".
Proof.
  exists (after 29), (budgets 29), 2%nat, 0%nat, 0%nat. split_and!; [|done|by vm_compute].
  etrans; [|by apply writes_path].
  eapply rtc_l; [by apply step_begin|]. eapply rtc_l; [by apply step_begin|].
  eapply rtc_l; [by apply step_begin|]. done.
Qed.

(** ** Witnesses *)

Definition open_log (d : Z → block) : log :=
  Log (binit 1000 d 1) false 2 30 1 0 ROOTDEV 0 (replicate 30 0) 0.

Lemma open_geometry d : geometry (open_log d).
Proof. by split. Qed.

Definition zeros : Z → block := λ _, replicate 512 0.

Lemma open_tx : tx (open_log zeros) [].
Proof.
  split; try done; first [apply open_geometry|apply NoDup_nil_2|apply binit_settled|by vm_compute|idtac].
  unfold NBUF. simpl. lia.
Qed.

Lemma home_60 d : home (open_log d) 60.
Proof. unfold home. simpl. lia. Qed.

(** A transaction of one block. *)
Lemma commit_atomic_witness :
  ∃ s, tx s [60] ∧ look (cache s) 60 = replicate 512 7 ∧
  ∃ s' w, commit s = Ok tt s' ∧ tx s' [] ∧
    trace (cache s') = trace (cache s) ++ w ∧
    (∀ x, home s x → disk (cache s') x = look (cache s) x) ∧
    ∀ k, ∃ s2,
      recover_from_log (reboot s (apply_writes (take k w) (disk (cache s)))) = Ok tt s2 ∧ tx s2 [] ∧
      ((∀ x, home s x → disk (cache s2) x = disk (cache s) x) ∨
       (∀ x, home s x → disk (cache s2) x = look (cache s) x)).
Proof.
  destruct (update_block_ok (open_log zeros) [] 60 (replicate 512 7) open_tx eq_refl ltac:(done)
    (home_60 zeros) ltac:(done) ltac:(unfold NBUF; simpl; lia)) as (c' & lh & _ & Ht & Hl & _).
  eexists. split; [exact Ht|]. split; [apply (Hl 60)|]. apply (commit_atomic _ [60] Ht).
Defined.

(** A disk whose log holds block 60. *)
Definition logged_disk : Z → block :=
  upd (upd zeros 2 (hdr (replicate 512 0) 1 [60])) 3 (replicate 512 7).

Lemma recovery_installs_witness :
  ∃ s' w, recover_from_log (open_log logged_disk) = Ok tt s' ∧ tx s' [] ∧
    trace (cache s') = [] ++ w ∧
    (∀ x, home (open_log logged_disk) x → disk (cache s') x = replay 2 logged_disk x) ∧
    ∀ k, let d := apply_writes (take k w) logged_disk in
      log_disk (open_log logged_disk) d ∧
      ∀ x, home (open_log logged_disk) x → replay 2 d x = replay 2 logged_disk x.
Proof.
  apply (recovery_installs (open_log logged_disk)); [apply open_geometry|apply binit_settled|].
  split; [by vm_compute| | |].
  - replace (hdr_blocks _) with [60] by (by vm_compute). by apply Forall_singleton, home_60.
  - replace (hdr_blocks _) with [60] by (by vm_compute). simpl. lia.
  - replace (hdr_blocks _) with [60] by (by vm_compute). vm_compute. lia.
Defined.

Lemma log_reservation_witness :
  let s0 := set_geometry ROOTDEV 2 31 made_log in
  ∃ s, rtc lstep (s0, []) (s, [10%nat]) ∧ ∀ msg, log_write 0 s ≠ Panic msg.
Proof.
  set (s0 := set_geometry ROOTDEV 2 31 made_log). exists (set_outstanding 1 s0).
  assert (Hr : rtc lstep (s0, []) (set_outstanding 1 s0, [10%nat])).
  { eapply rtc_l; [by apply (step_begin s0)|]. done. }
  split; [exact Hr|]. by apply (log_reservation s0 (set_outstanding 1 s0) [10%nat] 0 9 0).
Defined.
