(* ===== verification/Disk.v ===== *)
(** * The disk as the file system sees it

    [src/fs.c] uses the buffer cache and the log in one pattern: [bread] a block,
    look at or change [bp->data], [log_write] the buffer if it changed, [brelse] it.
    [Disk] names these operations and [DiskOk] states what they promise inside a
    transaction: [repr d V H L] says that the blocks have the contents [V], that the
    process holds the buffers [H] (buffer index and block number), and that the
    blocks [L] are recorded in the log.

    The log of [Log] over the cache of [Bio] keeps the promise ([log_repr]): until the
    commit the disk itself does not change, so that [commit_atomic] applies to
    all that a file system call did. *)
From S2P Require Import Prelude Bytes Bio Log.

(** A buffer's [data]: 512 bytes. *)
Definition is_byte (x : Z) : Prop := 0 ≤ x < 256.
Definition whole (v : block) : Prop := length v = 512%nat ∧ Forall is_byte v.

(** How many blocks. *)
Definition card (L : gset Z) : nat := base.size L.

Class Disk (D : Type) : Type := {
  d_bread : Z → Z → cm D nat;
  d_get : nat → cm D block;              (* read bp->data *)
  d_set : nat → block → cm D unit;       (* write bp->data *)
  d_log_write : nat → cm D unit;
  d_brelse : nat → cm D unit
}.

(** At most two buffers are held at a time. *)
Class DiskOk (D : Type) `{Disk D} : Type := {
  repr : D → (Z → block) → list (nat * Z) → gset Z → Prop;
  usable : Z → Prop;
  log_cap : nat;
  repr_whole d V H L n : repr d V H L → whole (V n);
  repr_cap d V H L : repr d V H L → (card L ≤ log_cap)%nat;
  bread_law d V H L n :
    repr d V H L → usable n → n ∉ H.*2 → (length H < 2)%nat →
    ∃ i d', d_bread ROOTDEV n d = Ok i d' ∧ repr d' V ((i, n) :: H) L;
  get_law d V H L i n : repr d V H L → (i, n) ∈ H → d_get i d = Ok (V n) d;
  put_law d V H L i n v :
    repr d V H L → (i, n) ∈ H → whole v → (card L < log_cap)%nat →
    ∃ d1 d2, d_set i v d = Ok tt d1 ∧ d_log_write i d1 = Ok tt d2 ∧
      repr d2 (upd V n v) H ({[n]} ∪ L);
  brelse_law d V H H' L i n :
    repr d V H L → H ≡ₚ (i, n) :: H' → ∃ d', d_brelse i d = Ok tt d' ∧ repr d' V H' L
}.

(** ** The log keeps the promise *)

#[export] Instance log_disk_ops : Disk log := {|
  d_bread dev n := on_cache (bread dev n);
  d_get i := on_cache (get_data i);
  d_set i v := on_cache (set_data i v);
  d_log_write := log_write;
  d_brelse i := on_cache (brelse i)
|}.

Section implementation.
(** The geometry of the log, the calls in progress, and the disk as it was when the transaction began. *)
Context (st sz dsize out comm : Z) (d0 : Z → block) (tr0 : list (Z * block)).

Definition cap : nat := Z.to_nat (Z.min 28 (sz - 2)).

Record log_repr (s : log) (V : Z → block) (H : list (nat * Z)) (L : gset Z) : Prop := {
  lr_geo : geometry s;
  lr_start : start s = st;
  lr_size : size s = sz;
  lr_dsize : disksize (cache s) = dsize;
  lr_wf : wf (cache s);
  lr_disk : disk (cache s) = d0;
  lr_trace : trace (cache s) = tr0;
  lr_look m : look (cache s) m = V m;
  lr_whole m : whole (V m);
  lr_bl : ∃ bl, list_to_set bl = L ∧ NoDup bl ∧ lh_n s = Z.of_nat (length bl) ∧
    take (length bl) (lh_block s) = bl ∧ Forall (home s) bl ∧ (∀ m, pinned (cache s) m ↔ m ∈ bl);
  lr_same m : m ∉ L → V m = d0 m;
  lr_holds k m : holds_at (cache s) k m ↔ (k, m) ∈ H;
  lr_nodup : NoDup H.*2;
  lr_home : Forall (home s) H.*2;
  lr_lock : log_lock s = false;
  lr_out : 1 ≤ outstanding s;
  lr_ops : outstanding s = out;
  lr_comm : committing s = comm;
  lr_hdr : length (d0 st) = 512%nat;
  lr_clear : hdr_n (d0 st) = 0;
  lr_cap : (card L ≤ cap)%nat
}.

(** With no buffer held, the transaction is one that [commit] makes atomic. *)
Lemma log_repr_tx s V L : log_repr s V [] L → ∃ bl, list_to_set bl = L ∧ tx s bl.
Proof.
  intros R. destruct (lr_bl _ _ _ _ R) as (bl & HL & Hnd & Hn & Ht & Hh & Hp).
  pose proof (lr_cap _ _ _ _ R) as Hc. unfold card in Hc. rewrite <- HL, size_list_to_set in Hc by done.
  unfold cap in Hc. pose proof (ge_size _ (lr_geo _ _ _ _ R)). pose proof (lr_size _ _ _ _ R).
  exists bl. split; [done|]. destruct R. split; try done; try (unfold NBUF; lia).
  - split; [done| |done]. intros m [k Hk%lr_holds0]. by apply not_elem_of_nil in Hk.
  - by rewrite lr_disk0, lr_start0.
  - by rewrite lr_disk0, lr_start0.
Qed.

Section laws.
Context (s : log) (V : Z → block) (H : list (nat * Z)) (L : gset Z) (R : log_repr s V H L).

Lemma log_bread n :
  home s n → n ∉ H.*2 → (length H < 2)%nat →
  ∃ i s', d_bread ROOTDEV n s = Ok i s' ∧ log_repr s' V ((i, n) :: H) L.
Proof.
  intros Hn Hno HH. destruct (lr_bl _ _ _ _ R) as (bl & HL & Hnd & Hln & Ht & Hh & Hp).
  pose proof (lr_cap _ _ _ _ R) as Hc. unfold card in Hc. rewrite <- HL, size_list_to_set in Hc by done.
  unfold cap in Hc. destruct R. destruct Hn as [Hr Hr'].
  destruct (bread_ok (cache s) n lr_wf0 Hr) as (i & c & E & G).
  { intros [k Hk%lr_holds0]. apply Hno. by apply (list_elem_of_fmap_2 snd _ (k, n)). }
  { right. exists (bl ++ H.*2). split.
    - intros m [Hm|[k Hk%lr_holds0]]; apply elem_of_app; [left; by apply Hp|right].
      by apply (list_elem_of_fmap_2 snd _ (k, m)).
    - rewrite length_app, length_fmap. unfold NBUF. lia. }
  exists i, (set_cache c s). split; [by apply on_cache_ok|]. destruct G as [gr_wf gr_look gr_pinned gr_holds gr_disk gr_trace gr_size gr_pid].
  split; simpl; rewrite ?gr_disk, ?gr_trace, ?gr_size; try done.
  - destruct lr_geo0. split; simpl; rewrite ?gr_size; done.
  - intros m. by rewrite gr_look.
  - exists bl. split_and!; try done.
    + eapply Forall_impl; [exact Hh|]. intros m. unfold home. simpl. by rewrite gr_size.
    + intros m. by rewrite gr_pinned.
  - intros k m. rewrite gr_holds, lr_holds0, elem_of_cons. naive_solver.
  - by apply NoDup_cons.
  - apply Forall_cons. unfold home. simpl. rewrite gr_size. split; [done|].
    eapply Forall_impl; [exact lr_home0|]. done.
Qed.

Lemma log_get i n : (i, n) ∈ H → d_get i s = Ok (V n) s.
Proof.
  intros Hi%(lr_holds _ _ _ _ R). destruct R.
  etrans; [apply on_cache_ok, (get_data_ok (cache s) i n); done|].
  rewrite lr_look0. by destruct s.
Qed.

Lemma log_put i n v :
  (i, n) ∈ H → whole v → (card L < cap)%nat →
  ∃ s1 s2, d_set i v s = Ok tt s1 ∧ d_log_write i s1 = Ok tt s2 ∧ log_repr s2 (upd V n v) H ({[n]} ∪ L).
Proof.
  intros Hi Hv Hcap. destruct (lr_bl _ _ _ _ R) as (bl & HL & Hnd & Hln & Ht & Hh & Hp).
  unfold card in Hcap. rewrite <- HL, size_list_to_set in Hcap by done.
  assert (Hlen : 2 + Z.of_nat (length bl) ≤ sz ∧ (length bl < 28)%nat) by (unfold cap in Hcap; lia).
  assert (Hhome : home s n).
  { eapply (proj1 (Forall_forall _ _) (lr_home _ _ _ _ R)), (list_elem_of_fmap_2 snd _ (i, n)), Hi. }
  destruct R. apply lr_holds0 in Hi as Hi'.
  destruct (set_data_ok (cache s) i n v lr_wf0 Hi') as (c1 & E1 & [w1 l1 p1 h1 z1 _] & D1 & T1).
  destruct (bpin_ok c1 i n w1) as (c2 & E2 & [w2 l2 p2 h2 z2 _] & D2 & T2); [by apply h1|].
  destruct (log_write_run (set_cache c1 s) bl i n c2) as (lh & E & Hlh & Hll); try done;
    [apply lr_geo0|simpl; lia|lia|by apply h1|].
  exists (set_cache c1 s). eexists. split; [by apply on_cache_ok|]. split; [exact E|].
  assert (HL' : list_to_set (record_block n bl) = {[n]} ∪ L).
  { apply set_eq. intros m. rewrite elem_of_list_to_set, record_block_in. set_solver. }
  assert (Hnd' : NoDup (record_block n bl)).
  { unfold record_block. case_decide; [done|]. apply NoDup_app. split_and!; [done| |apply NoDup_singleton].
    intros x Hx ->%list_elem_of_singleton. done. }
  simpl in *. split; simpl; rewrite ?D2, ?D1, ?T2, ?T1, ?z2, ?z1; try done.
  - destruct lr_geo0. split; simpl; rewrite ?z2, ?z1, ?Hll; done.
  - intros m. unfold upd. rewrite l2. case_decide as Hm.
    + subst m. by rewrite Z.eqb_refl, l1, decide_True.
    + by rewrite (proj2 (Z.eqb_neq _ _) Hm), l1, decide_False, lr_look0.
  - intros m. unfold upd. by case_b.
  - exists (record_block n bl). split_and!; try done.
    + apply Forall_forall. intros m Hm%record_block_in. unfold home. simpl. rewrite z2, z1.
      destruct Hm as [Hm| ->]; [by apply (proj1 (Forall_forall _ _) Hh)|done].
    + intros m. rewrite p2, record_block_in. case_decide as Hm; [naive_solver|].
      rewrite p1, decide_False, Hp by done. naive_solver.
  - intros m Hm. apply not_elem_of_union in Hm as [Hm%not_elem_of_singleton Hm'].
    rewrite upd_ne by done. by apply lr_same0.
  - intros k m. by rewrite h2, h1.
  - eapply Forall_impl; [exact lr_home0|]. intros m. unfold home. simpl. by rewrite z2, z1.
  - unfold card. rewrite <- HL', size_list_to_set by done. pose proof (length_record_block n bl). lia.
Qed.

Lemma log_brelse i n H' :
  H ≡ₚ (i, n) :: H' → ∃ s', d_brelse i s = Ok tt s' ∧ log_repr s' V H' L.
Proof.
  intros HH. destruct (lr_bl _ _ _ _ R) as (bl & HL & Hnd & Hln & Ht & Hh & Hp). destruct R.
  assert (Hi : (i, n) ∈ H) by (rewrite HH; apply elem_of_cons; by left).
  assert (Hnd' : NoDup (n :: H'.*2)) by (by rewrite HH in lr_nodup0).
  apply NoDup_cons in Hnd' as [Hn Hnd'].
  destruct (brelse_ok (cache s) i n lr_wf0) as (c & E & [w l p h d t z _]); [by apply lr_holds0| |].
  { destruct (decide (n ∈ L)) as [HnL|HnL]; [left|right; by rewrite lr_look0, lr_disk0, lr_same0].
    apply Hp. subst L. by apply elem_of_list_to_set in HnL. }
  exists (set_cache c s). split; [by apply on_cache_ok|].
  split; simpl; rewrite ?d, ?t, ?z; try done.
  - destruct lr_geo0. split; simpl; rewrite ?z; done.
  - intros m. by rewrite l.
  - exists bl. split_and!; try done.
    + eapply Forall_impl; [exact Hh|]. intros m. unfold home. simpl. by rewrite z.
    + intros m. by rewrite p.
  - intros k m. rewrite h, lr_holds0, HH, elem_of_cons. split; [naive_solver|].
    intros Hm. split; [by right|]. intros ->. apply Hn. by apply (list_elem_of_fmap_2 snd _ (k, n)).
  - rewrite HH in lr_home0. apply Forall_cons in lr_home0 as [_ Hf].
    eapply Forall_impl; [exact Hf|]. intros m. unfold home. simpl. by rewrite z.
Qed.
End laws.

(** The blocks outside the log. *)
Definition log_usable (n : Z) : Prop := 0 ≤ n < dsize ∧ ¬ (st ≤ n < st + sz).

Lemma log_usable_home s V H L n : log_repr s V H L → log_usable n → home s n.
Proof. intros [] Hn. unfold home. by rewrite lr_dsize0, lr_start0, lr_size0. Qed.

Program Definition log_disk_ok : DiskOk log := {|
  repr := log_repr;
  usable := log_usable;
  log_cap := cap
|}.
Next Obligation. intros d V H L n R. apply R. Qed.
Next Obligation. intros d V H L R. apply R. Qed.
Next Obligation. intros d V H L n R Hu. eapply log_bread; [done|]. by eapply log_usable_home. Qed.
Next Obligation. intros. by eapply log_get. Qed.
Next Obligation. intros. by apply (log_put _ _ _ _ ltac:(done)). Qed.
Next Obligation. intros. by eapply log_brelse. Qed.
End implementation.
