(* ===== verification/Fs.v ===== *)
(** * The file system: operations

    [src/fs.c]: the block allocator, the inodes and their cache, the contents of
    files, directories and path names, over the disk interface of [Disk] and the
    device switch [devsw], which the file system only calls.

    A [struct inode*] is the index of the entry in the inode cache.  A routine that
    fills a buffer of its caller ([readi], [skipelem]) returns the bytes.  A call that
    would wait for an inode locked by another process does not return here
    ([Ub "sleeps"]).  The loops carry fuel, one unit per turn; the theorems of the
    files that follow show that it suffices. *)
From S2P Require Import Prelude CString Bytes Bio Log Disk.

Definition NINODE : nat := 50.
Definition NDEV : Z := 10.
Definition ROOTINO : Z := 1.
Definition NDIRECT : Z := 12.
Definition NINDIRECT : Z := BSIZE / 4.
Definition MAXFILE : Z := NDIRECT + NINDIRECT.
Definition IPB : Z := BSIZE / 64.
Definition BPB : Z := BSIZE * 8.
Definition DIRSIZ : nat := 14.
Definition T_DIR : Z := 1.
Definition T_FILE : Z := 2.
Definition T_DEV : Z := 3.

(** [struct dinode], also the copy of it in [struct inode]. *)
Record dinode : Type := Dinode {
  di_type : Z;
  di_major : Z;
  di_minor : Z;
  di_nlink : Z;
  di_size : Z;
  di_addrs : list Z        (* NDIRECT + 1 words *)
}.

Record inode : Type := Inode {
  i_dev : Z;
  i_inum : Z;
  i_ref : Z;
  i_owner : option Z;      (* the sleep lock: the process that holds it *)
  i_valid : bool;
  i_copy : dinode
}.

Definition with_type (t : Z) (d : dinode) : dinode :=
  Dinode t (di_major d) (di_minor d) (di_nlink d) (di_size d) (di_addrs d).
Definition with_nlink (n : Z) (d : dinode) : dinode :=
  Dinode (di_type d) (di_major d) (di_minor d) n (di_size d) (di_addrs d).
Definition with_size (n : Z) (d : dinode) : dinode :=
  Dinode (di_type d) (di_major d) (di_minor d) (di_nlink d) n (di_addrs d).
Definition with_addrs (l : list Z) (d : dinode) : dinode :=
  Dinode (di_type d) (di_major d) (di_minor d) (di_nlink d) (di_size d) l.

Definition with_ref (n : Z) (ip : inode) : inode :=
  Inode (i_dev ip) (i_inum ip) n (i_owner ip) (i_valid ip) (i_copy ip).
Definition with_iowner (o : option Z) (ip : inode) : inode :=
  Inode (i_dev ip) (i_inum ip) (i_ref ip) o (i_valid ip) (i_copy ip).
Definition with_valid (b : bool) (ip : inode) : inode :=
  Inode (i_dev ip) (i_inum ip) (i_ref ip) (i_owner ip) b (i_copy ip).
Definition with_copy (d : dinode) (ip : inode) : inode :=
  Inode (i_dev ip) (i_inum ip) (i_ref ip) (i_owner ip) (i_valid ip) d.

(** ** Layout of the disk *)

Definition IBLOCK (i : Z) (sb : superblock) : Z := i / IPB + sb_inodestart sb.
Definition BBLOCK (b : Z) (sb : superblock) : Z := b / BPB + sb_bmapstart sb.

(** The [k]-th dinode of a block: its 64 bytes. *)
Definition load_dinode (v : block) (k : nat) : dinode :=
  let o := (64 * k)%nat in
  Dinode (i16 (load 2 v o)) (i16 (load 2 v (o + 2))) (i16 (load 2 v (o + 4))) (i16 (load 2 v (o + 6)))
    (load 4 v (o + 8)) (load_words v (o + 12) 13).

Definition store_dinode (v : block) (k : nat) (d : dinode) : block :=
  let o := (64 * k)%nat in
  let v := store 2 v o (u16 (di_type d)) in
  let v := store 2 v (o + 2) (u16 (di_major d)) in
  let v := store 2 v (o + 4) (u16 (di_minor d)) in
  let v := store 2 v (o + 6) (u16 (di_nlink d)) in
  let v := store 4 v (o + 8) (di_size d) in
  store_words v (o + 12) (di_addrs d).

Definition zero_dinode : dinode := Dinode 0 0 0 0 0 (replicate 13 0).

(** Byte [bi/8] of a bitmap block, and the block with another byte there. *)
Definition bm_byte (v : list Z) (bi : Z) : Z := nth (Z.to_nat (bi / 8)) v 0.
Definition bm_put (v : list Z) (bi x : Z) : list Z := <[Z.to_nat (bi / 8) := x]> v.

(** The device switch: the read and write functions of a major number, if any.
    They run on the state of the devices. *)
Class Devices (X : Type) : Type := {
  dev_read : Z → option (Z → cm X (Z * list Z));
  dev_write : Z → option (list Z → cm X Z)
}.

Section fs.
Context {D X : Type} {ops : Disk D} {swtch : Devices X}.

Record fs : Type := Fs {
  dsk : D;
  fsb : superblock;
  inodes : list inode;     (* icache.inode *)
  ic_lock : bool;          (* icache.lock *)
  fpid : Z;                (* myproc()->pid *)
  devs : X
}.

Definition set_dsk (d : D) (s : fs) : fs := Fs d (fsb s) (inodes s) (ic_lock s) (fpid s) (devs s).
Definition set_fsb (b : superblock) (s : fs) : fs :=
  Fs (dsk s) b (inodes s) (ic_lock s) (fpid s) (devs s).
Definition set_inodes (l : list inode) (s : fs) : fs :=
  Fs (dsk s) (fsb s) l (ic_lock s) (fpid s) (devs s).
Definition set_ic_lock (b : bool) (s : fs) : fs :=
  Fs (dsk s) (fsb s) (inodes s) b (fpid s) (devs s).
Definition set_devs (x : X) (s : fs) : fs :=
  Fs (dsk s) (fsb s) (inodes s) (ic_lock s) (fpid s) x.

Definition on_disk {A} (m : cm D A) : cm fs A := λ s,
  match m (dsk s) with
  | Ok a d => Ok a (set_dsk d s)
  | Panic msg => Panic msg
  | Ub what => Ub what
  end.

Definition on_devs {A} (m : cm X A) : cm fs A := λ s,
  match m (devs s) with
  | Ok a x => Ok a (set_devs x s)
  | Panic msg => Panic msg
  | Ub what => Ub what
  end.

Definition inode_at (i : nat) : cm fs inode := λ s,
  match inodes s !! i with Some ip => Ok ip s | None => Ub "inode pointer" end.
Definition inode_set (i : nat) (ip : inode) : cm fs unit :=
  modify (λ s, set_inodes (<[i := ip]> (inodes s)) s).
Definition inode_upd (i : nat) (f : inode → inode) : cm fs unit :=
  ip ← inode_at i; inode_set i (f ip).
Definition copy_upd (i : nat) (f : dinode → dinode) : cm fs unit :=
  inode_upd i (λ ip, with_copy (f (i_copy ip)) ip).

(** [ip->addrs[k]]. *)
Definition addr_get (i : nat) (k : Z) : cm fs Z :=
  ip ← inode_at i;
  match arr_get (di_addrs (i_copy ip)) k with Some a => mret a | None => ub "addrs index" end.
Definition addr_set (i : nat) (k a : Z) : cm fs unit :=
  ip ← inode_at i;
  match arr_set (di_addrs (i_copy ip)) k a with
  | Some l => copy_upd i (with_addrs l)
  | None => ub "addrs index"
  end.

(** ** Blocks *)

Definition bzero (dev bno : Z) : cm fs unit :=
  bp ← on_disk (d_bread dev bno);
  on_disk (d_set bp (replicate 512 0)) ;;
  on_disk (d_log_write bp) ;;
  on_disk (d_brelse bp).

(** The inner loop of [balloc]: the first clear bit [bi] of the bitmap block [v] with
    [b + bi] below [size]. *)
Fixpoint find_clear (n : nat) (v : block) (b bi size : Z) : option Z :=
  match n with
  | O => None
  | S n' =>
      if (bi <? BPB) && (b + bi <? size) then
        let m := Z.shiftl 1 (bi mod 8) in
        if Z.land (bm_byte v bi) m =? 0 then Some bi else find_clear n' v b (bi + 1) size
      else None
  end.

Fixpoint balloc_loop (n : nat) (dev b : Z) : cm fs Z :=
  sb ← gets fsb;
  if b <? sb_size sb then
    match n with
    | O => ub "loop"
    | S n' =>
        bp ← on_disk (d_bread dev (BBLOCK b sb));
        v ← on_disk (d_get bp);
        match find_clear (Z.to_nat BPB) v b 0 (sb_size sb) with
        | Some bi =>
            let m := Z.shiftl 1 (bi mod 8) in
            on_disk (d_set bp (bm_put v bi (Z.lor (bm_byte v bi) m))) ;;
            on_disk (d_log_write bp) ;;
            on_disk (d_brelse bp) ;;
            bzero dev (b + bi) ;;
            mret (b + bi)
        | None =>
            on_disk (d_brelse bp) ;;
            balloc_loop n' dev (b + BPB)
        end
    end
  else panic "balloc: out of blocks".

Definition balloc (dev : Z) : cm fs Z :=
  sb ← gets fsb;
  balloc_loop (Z.to_nat (sb_size sb / BPB + 1)) dev 0.

Definition bfree (dev b : Z) : cm fs unit :=
  sb ← gets fsb;
  bp ← on_disk (d_bread dev (BBLOCK b sb));
  let bi := b mod BPB in
  let m := Z.shiftl 1 (bi mod 8) in
  v ← on_disk (d_get bp);
  if Z.land (bm_byte v bi) m =? 0 then panic "freeing free block" else
  on_disk (d_set bp (bm_put v bi (u8 (Z.land (bm_byte v bi) (Z.lnot m))))) ;;
  on_disk (d_log_write bp) ;;
  on_disk (d_brelse bp).

(** ** Inodes *)

(** The loop of [iget] from entry [i] on: the entry that caches the inode, or the
    first one that is free. *)
Fixpoint iget_scan (dev inum : Z) (l : list inode) (i : nat) (empty : option nat) : nat + option nat :=
  match l with
  | [] => inr empty
  | ip :: l' =>
      if (0 <? i_ref ip) && (i_dev ip =? dev) && (i_inum ip =? inum) then inl i else
      let empty' :=
        match empty with
        | None => if i_ref ip =? 0 then Some i else None
        | Some _ => empty
        end in
      iget_scan dev inum l' (S i) empty'
  end.

Definition iget (dev inum : Z) : cm fs nat :=
  acquire ic_lock set_ic_lock ;;
  l ← gets inodes;
  match iget_scan dev inum l 0 None with
  | inl i =>
      inode_upd i (λ ip, with_ref (i_ref ip + 1) ip) ;;
      release ic_lock set_ic_lock ;;
      mret i
  | inr None => panic "iget: no inodes"
  | inr (Some i) =>
      inode_upd i (λ ip, Inode dev inum 1 (i_owner ip) false (i_copy ip)) ;;
      release ic_lock set_ic_lock ;;
      mret i
  end.

Fixpoint ialloc_loop (n : nat) (dev type inum : Z) : cm fs nat :=
  sb ← gets fsb;
  if inum <? sb_ninodes sb then
    match n with
    | O => ub "loop"
    | S n' =>
        bp ← on_disk (d_bread dev (IBLOCK inum sb));
        v ← on_disk (d_get bp);
        let k := Z.to_nat (inum mod IPB) in
        if di_type (load_dinode v k) =? 0 then
          on_disk (d_set bp (store_dinode v k (with_type type zero_dinode))) ;;
          on_disk (d_log_write bp) ;;
          on_disk (d_brelse bp) ;;
          iget dev inum
        else
          on_disk (d_brelse bp) ;;
          ialloc_loop n' dev type (inum + 1)
    end
  else panic "ialloc: no inodes".

Definition ialloc (dev type : Z) : cm fs nat :=
  sb ← gets fsb;
  ialloc_loop (Z.to_nat (sb_ninodes sb)) dev type 1.

Definition iupdate (i : nat) : cm fs unit :=
  ip ← inode_at i;
  sb ← gets fsb;
  bp ← on_disk (d_bread (i_dev ip) (IBLOCK (i_inum ip) sb));
  v ← on_disk (d_get bp);
  on_disk (d_set bp (store_dinode v (Z.to_nat (i_inum ip mod IPB)) (i_copy ip))) ;;
  on_disk (d_log_write bp) ;;
  on_disk (d_brelse bp).

Definition idup (i : nat) : cm fs nat :=
  acquire ic_lock set_ic_lock ;;
  inode_upd i (λ ip, with_ref (i_ref ip + 1) ip) ;;
  release ic_lock set_ic_lock ;;
  mret i.

(** [acquiresleep(&ip->lock)] and [releasesleep(&ip->lock)]. *)
Definition iacquire (i : nat) : cm fs unit :=
  ip ← inode_at i;
  p ← gets fpid;
  match i_owner ip with
  | None => inode_set i (with_iowner (Some p) ip)
  | Some _ => ub "sleeps"
  end.
Definition irelease (i : nat) : cm fs unit := inode_upd i (with_iowner None).
Definition iholding (i : nat) : cm fs bool :=
  ip ← inode_at i;
  p ← gets fpid;
  mret (match i_owner ip with Some q => q =? p | None => false end).

Definition ilock (p : option nat) : cm fs unit :=
  match p with
  | None => panic "ilock"
  | Some i =>
      ip ← inode_at i;
      if i_ref ip <? 1 then panic "ilock" else
      iacquire i ;;
      if i_valid ip then mret tt else
      sb ← gets fsb;
      bp ← on_disk (d_bread (i_dev ip) (IBLOCK (i_inum ip) sb));
      v ← on_disk (d_get bp);
      copy_upd i (λ _, load_dinode v (Z.to_nat (i_inum ip mod IPB))) ;;
      on_disk (d_brelse bp) ;;
      inode_upd i (with_valid true) ;;
      ip ← inode_at i;
      if di_type (i_copy ip) =? 0 then panic "ilock: no type" else mret tt
  end.

Definition iunlock (p : option nat) : cm fs unit :=
  match p with
  | None => panic "iunlock"
  | Some i =>
      h ← iholding i;
      ip ← inode_at i;
      if negb h || (i_ref ip <? 1) then panic "iunlock" else irelease i
  end.

(** ** Contents of inodes *)

Definition bmap (i : nat) (bn : Z) : cm fs Z :=
  ip ← inode_at i;
  if bn <? NDIRECT then
    addr ← addr_get i bn;
    if addr =? 0 then a ← balloc (i_dev ip); addr_set i bn a ;; mret a else mret addr
  else
  let bn := bn - NDIRECT in
  if bn <? NINDIRECT then
    addr ← addr_get i NDIRECT;
    addr ← (if addr =? 0 then a ← balloc (i_dev ip); addr_set i NDIRECT a ;; mret a else mret addr);
    bp ← on_disk (d_bread (i_dev ip) addr);
    v ← on_disk (d_get bp);
    let k := Z.to_nat (4 * bn) in
    let addr := load 4 v k in
    addr ← (if addr =? 0 then
              a ← balloc (i_dev ip);
              v ← on_disk (d_get bp);
              on_disk (d_set bp (store 4 v k a)) ;;
              on_disk (d_log_write bp) ;;
              mret a
            else mret addr);
    on_disk (d_brelse bp) ;;
    mret addr
  else panic "bmap: out of range".

(** The first loop of [itrunc], from [k] on. *)
Fixpoint itrunc_direct (n : nat) (i : nat) (k : Z) : cm fs unit :=
  match n with
  | O => mret tt
  | S n' =>
      ip ← inode_at i;
      a ← addr_get i k;
      (if a =? 0 then mret tt else bfree (i_dev ip) a ;; addr_set i k 0) ;;
      itrunc_direct n' i (k + 1)
  end.

(** The second: [a[j]] of the indirect block, buffer [bp]. *)
Fixpoint itrunc_indirect (n : nat) (dev : Z) (bp : nat) (j : nat) : cm fs unit :=
  match n with
  | O => mret tt
  | S n' =>
      v ← on_disk (d_get bp);
      let a := load 4 v (4 * j) in
      (if a =? 0 then mret tt else bfree dev a) ;;
      itrunc_indirect n' dev bp (S j)
  end.

Definition itrunc (i : nat) : cm fs unit :=
  itrunc_direct (Z.to_nat NDIRECT) i 0 ;;
  ip ← inode_at i;
  a ← addr_get i NDIRECT;
  (if a =? 0 then mret tt else
     bp ← on_disk (d_bread (i_dev ip) a);
     itrunc_indirect (Z.to_nat NINDIRECT) (i_dev ip) bp 0 ;;
     on_disk (d_brelse bp) ;;
     bfree (i_dev ip) a ;;
     addr_set i NDIRECT 0) ;;
  copy_upd i (with_size 0) ;;
  iupdate i.

Definition iput (i : nat) : cm fs unit :=
  iacquire i ;;
  ip ← inode_at i;
  (if i_valid ip && (di_nlink (i_copy ip) =? 0) then
     acquire ic_lock set_ic_lock ;;
     ip ← inode_at i;
     let r := i_ref ip in
     release ic_lock set_ic_lock ;;
     if r =? 1 then
       itrunc i ;;
       copy_upd i (with_type 0) ;;
       iupdate i ;;
       inode_upd i (with_valid false)
     else mret tt
   else mret tt) ;;
  irelease i ;;
  acquire ic_lock set_ic_lock ;;
  inode_upd i (λ ip, with_ref (i_ref ip - 1) ip) ;;
  release ic_lock set_ic_lock.

Definition iunlockput (i : nat) : cm fs unit :=
  iunlock (Some i) ;;
  iput i.

Record stat : Type := Stat {
  st_type : Z;
  st_dev : Z;
  st_ino : Z;
  st_nlink : Z;
  st_size : Z
}.

Definition stati (i : nat) : cm fs stat :=
  ip ← inode_at i;
  let d := i_copy ip in
  mret (Stat (di_type d) (i32 (i_dev ip)) (i_inum ip) (di_nlink d) (di_size d)).

(** [m] bytes of a block from [o] on, and the block with [l] copied there. *)
Definition slice (v : block) (o m : Z) : list Z := take (Z.to_nat m) (drop (Z.to_nat o) v).
Definition splice (v : block) (o : Z) (l : list Z) : block :=
  take (Z.to_nat o) v ++ l ++ drop (Z.to_nat o + length l) v.

(** The loop of [readi]: the bytes it appends to those before. *)
Fixpoint readi_loop (fuel : nat) (i : nat) (off tot n : Z) : cm fs (list Z) :=
  if tot <? n then
    match fuel with
    | O => ub "loop"
    | S fuel' =>
        ip ← inode_at i;
        a ← bmap i (off / BSIZE);
        bp ← on_disk (d_bread (i_dev ip) a);
        let m := Z.min (n - tot) (BSIZE - off mod BSIZE) in
        v ← on_disk (d_get bp);
        on_disk (d_brelse bp) ;;
        l ← readi_loop fuel' i (off + m) (tot + m) n;
        mret (slice v (off mod BSIZE) m ++ l)
    end
  else mret [].

(** The return value and the bytes stored at [dst]. *)
Definition readi (i : nat) (off n : Z) : cm fs (Z * list Z) :=
  ip ← inode_at i;
  let d := i_copy ip in
  if di_type d =? T_DEV then
    if (di_major d <? 0) || (NDEV <=? di_major d) then mret (-1, []) else
    match dev_read (di_major d) with
    | None => mret (-1, [])
    | Some f => on_devs (f (i32 n))
    end
  else if (di_size d <? off) || (u32 (off + n) <? off) then mret (-1, []) else
  let n := if di_size d <? u32 (off + n) then di_size d - off else n in
  l ← readi_loop (Z.to_nat n) i off 0 n;
  mret (i32 n, l).

(** The loop of [writei]; it returns the last [off]. *)
Fixpoint writei_loop (fuel : nat) (i : nat) (src : list Z) (off : Z) : cm fs Z :=
  if 0 <? Z.of_nat (length src) then
    match fuel with
    | O => ub "loop"
    | S fuel' =>
        ip ← inode_at i;
        a ← bmap i (off / BSIZE);
        bp ← on_disk (d_bread (i_dev ip) a);
        let m := Z.min (Z.of_nat (length src)) (BSIZE - off mod BSIZE) in
        v ← on_disk (d_get bp);
        on_disk (d_set bp (splice v (off mod BSIZE) (take (Z.to_nat m) src))) ;;
        on_disk (d_log_write bp) ;;
        on_disk (d_brelse bp) ;;
        writei_loop fuel' i (drop (Z.to_nat m) src) (off + m)
    end
  else mret off.

(** [src] is the list of the [n] bytes to write. *)
Definition writei (i : nat) (src : list Z) (off : Z) : cm fs Z :=
  let n := Z.of_nat (length src) in
  ip ← inode_at i;
  let d := i_copy ip in
  if di_type d =? T_DEV then
    if (di_major d <? 0) || (NDEV <=? di_major d) then mret (-1) else
    match dev_write (di_major d) with
    | None => mret (-1)
    | Some f => on_devs (f src)
    end
  else if (di_size d <? off) || (u32 (off + n) <? off) then mret (-1)
  else if MAXFILE * BSIZE <? u32 (off + n) then mret (-1) else
  off ← writei_loop (length src) i src off;
  ip ← inode_at i;
  (if (0 <? n) && (di_size (i_copy ip) <? off)
   then copy_upd i (with_size off) ;; iupdate i
   else mret tt) ;;
  mret (i32 n).

(** ** Directories *)

Definition namecmp (s t : list Z) : option Z := strncmp s t DIRSIZ.

(** [struct dirent]: 2 bytes of inode number and the name. *)
Definition DIRENT : Z := 16.
Definition de_inum (de : list Z) : Z := load 2 de 0.
Definition de_name (de : list Z) : list Z := drop 2 de.
Definition dirent (inum : Z) (name : list Z) : list Z := le_bytes 2 (u16 inum) ++ name.

(** The entry found and its offset, stored at [*poff]. *)
Fixpoint dirlookup_loop (n : nat) (i : nat) (name : list Z) (off : Z) : cm fs (option (nat * Z)) :=
  dp ← inode_at i;
  if off <? di_size (i_copy dp) then
    match n with
    | O => ub "loop"
    | S n' =>
        r ← readi i off DIRENT;
        let '(k, de) := r in
        if negb (k =? DIRENT) then panic "dirlookup read" else
        if de_inum de =? 0 then dirlookup_loop n' i name (off + DIRENT) else
        match namecmp name (de_name de) with
        | None => ub "name"
        | Some c =>
            if c =? 0 then j ← iget (i_dev dp) (de_inum de); mret (Some (j, off))
            else dirlookup_loop n' i name (off + DIRENT)
        end
    end
  else mret None.

Definition dirlookup (i : nat) (name : list Z) : cm fs (option (nat * Z)) :=
  dp ← inode_at i;
  if negb (di_type (i_copy dp) =? T_DIR) then panic "dirlookup not DIR" else
  dirlookup_loop (Z.to_nat (di_size (i_copy dp))) i name 0.

(** The loop of [dirlink]: the offset of the first empty entry, or the size. *)
Fixpoint dirlink_loop (n : nat) (i : nat) (off : Z) : cm fs Z :=
  dp ← inode_at i;
  if off <? di_size (i_copy dp) then
    match n with
    | O => ub "loop"
    | S n' =>
        r ← readi i off DIRENT;
        let '(k, de) := r in
        if negb (k =? DIRENT) then panic "dirlink read" else
        if de_inum de =? 0 then mret off else dirlink_loop n' i (off + DIRENT)
    end
  else mret off.

Definition dirlink (i : nat) (name : list Z) (inum : Z) : cm fs Z :=
  r ← dirlookup i name;
  match r with
  | Some (j, _) => iput j ;; mret (-1)
  | None =>
      dp ← inode_at i;
      off ← dirlink_loop (Z.to_nat (di_size (i_copy dp))) i 0;
      match strncpy (replicate DIRSIZ 0) name DIRSIZ with
      | None => ub "name"
      | Some nm =>
          k ← writei i (dirent inum nm) off;
          if negb (k =? DIRENT) then panic "dirlink" else mret 0
      end
  end.

(** ** Paths

    A path is the bytes from the pointer on; [peek] is [*path]. *)

Definition SLASH : Z := 47.
Definition peek (p : list Z) : Z := hd 0 p.

Fixpoint skip_slashes (p : list Z) : list Z :=
  match p with
  | c :: p' => if c =? SLASH then skip_slashes p' else p
  | [] => []
  end.

(** The element at the front and the rest. *)
Fixpoint split_elem (p : list Z) : list Z * list Z :=
  match p with
  | c :: p' =>
      if negb (c =? SLASH) && negb (c =? 0)
      then let '(e, r) := split_elem p' in (c :: e, r)
      else ([], p)
  | [] => ([], [])
  end.

(** The rest of the path and the new contents of [name], [DIRSIZ] bytes. *)
Definition skipelem (path name : list Z) : option (list Z * list Z) :=
  let path := skip_slashes path in
  if peek path =? 0 then None else
  let '(s, path) := split_elem path in
  let name :=
    if (DIRSIZ <=? length s)%nat then take DIRSIZ s
    else s ++ 0 :: drop (S (length s)) name in
  Some (skip_slashes path, name).

Fixpoint namex_loop (fuel : nat) (i : nat) (path : list Z) (parent : bool) (name : list Z) :
    cm fs (option nat * list Z) :=
  match skipelem path name with
  | Some (path, name) =>
      match fuel with
      | O => ub "loop"
      | S fuel' =>
          ilock (Some i) ;;
          ip ← inode_at i;
          if negb (di_type (i_copy ip) =? T_DIR) then iunlockput i ;; mret (None, name)
          else if parent && (peek path =? 0) then iunlock (Some i) ;; mret (Some i, name)
          else
            next ← dirlookup i name;
            match next with
            | None => iunlockput i ;; mret (None, name)
            | Some (j, _) => iunlockput i ;; namex_loop fuel' j path parent name
            end
      end
  | None => if parent then iput i ;; mret (None, name) else mret (Some i, name)
  end.

(** [cwd] is [myproc()->cwd]; [name] the caller's buffer. *)
Definition namex (cwd : nat) (path : list Z) (parent : bool) (name : list Z) : cm fs (option nat * list Z) :=
  i ← (if peek path =? SLASH then iget ROOTDEV ROOTINO else idup cwd);
  namex_loop (length path) i path parent name.

Definition namei (cwd : nat) (path name : list Z) : cm fs (option nat) :=
  r ← namex cwd path false name; mret r.1.

Definition nameiparent (cwd : nat) (path name : list Z) : cm fs (option nat * list Z) :=
  namex cwd path true name.

(** ** Start *)

(** [readsb] through the interface; the message that [iinit] prints is left out. *)
Definition iinit (dev : Z) : cm fs unit :=
  modify (set_ic_lock false) ;;
  modify (λ s, set_inodes (with_iowner None <$> inodes s) s) ;;
  bp ← on_disk (d_bread dev 1);
  v ← on_disk (d_get bp);
  on_disk (d_brelse bp) ;;
  modify (set_fsb (parse_sb v)).
End fs.
Arguments fs D X : clear implicits.
