(* ===== verification/FsAlloc.v ===== *)
(** * The block allocator

    The free bitmap of [src/fs.c]: [used sb V b] is the bit of block [b] on a disk with
    contents [V].  [balloc] marks the first free block and zeroes it, [bfree] unmarks
    one; both change nothing else. *)
From S2P Require Import Prelude Bytes Bio Log Disk Fs.

(** The constants of the layout, as numbers. *)
Ltac sizes :=
  change BPB with 4096 in *; change IPB with 8 in *; change BSIZE with 512 in *;
  change NDIRECT with 12 in *; change NINDIRECT with 128 in *; change MAXFILE with 140 in *.

(** ** Bits of a bitmap block *)

Definition bit (v : block) (bi : Z) : bool := Z.testbit (bm_byte v bi) (bi mod 8).
Definition set_bit (v : block) (bi : Z) : block :=
  bm_put v bi (Z.lor (bm_byte v bi) (Z.shiftl 1 (bi mod 8))).
Definition clear_bit (v : block) (bi : Z) : block :=
  bm_put v bi (u8 (Z.land (bm_byte v bi) (Z.lnot (Z.shiftl 1 (bi mod 8))))).

Lemma testbit_one k j : 0 ≤ k → 0 ≤ j → Z.testbit (Z.shiftl 1 k) j = (j =? k).
Proof.
  intros Hk Hj. rewrite Z.shiftl_spec by done. destruct (j =? k) eqn:E; zbool.
  - subst. by rewrite Z.sub_diag.
  - destruct (decide (j < k)); [by rewrite Z.testbit_neg_r by lia|].
    apply Z.bits_above_log2; simpl; lia.
Qed.

Lemma bit_test v bi : (Z.land (bm_byte v bi) (Z.shiftl 1 (bi mod 8)) =? 0) = negb (bit v bi).
Proof.
  unfold bit. set (x := bm_byte v bi). assert (Hk : 0 ≤ bi mod 8) by dlia. set (k := bi mod 8) in *.
  destruct (Z.testbit x k) eqn:Ex; simpl.
  - apply Z.eqb_neq. intros E. assert (Hb : Z.testbit (Z.land x (Z.shiftl 1 k)) k = true).
    { by rewrite Z.land_spec, testbit_one, Ex, Z.eqb_refl. }
    by rewrite E, Z.bits_0 in Hb.
  - apply Z.eqb_eq, Z.bits_inj'. intros j Hj. rewrite Z.land_spec, testbit_one, Z.bits_0 by done.
    destruct (j =? k) eqn:E; zbool; [|apply andb_false_r]. by rewrite E, Ex.
Qed.

Lemma bm_byte_range v bi : Forall is_byte v → is_byte (bm_byte v bi).
Proof.
  intros Hv. unfold bm_byte. rewrite nth_lookup. destruct (v !! Z.to_nat (bi / 8)) as [x|] eqn:E; simpl.
  - by eapply Forall_lookup_1.
  - unfold is_byte. lia.
Qed.

Lemma byte_of_bits x : 0 ≤ x → (∀ j, 8 ≤ j → Z.testbit x j = false) → is_byte x.
Proof.
  intros Hx Hj. split; [done|]. replace x with (x mod 2 ^ 8); [dlia|].
  apply Z.bits_inj'. intros j Hj0. destruct (decide (j < 8)).
  - by rewrite Z.mod_pow2_bits_low by lia.
  - rewrite Z.mod_pow2_bits_high by lia. symmetry. apply Hj. lia.
Qed.

Section bitmap.
Context (v : block) (bi : Z) (Hv : whole v) (Hbi : 0 ≤ bi < BPB).

Lemma bm_byte_put x bj :
  0 ≤ bj → bm_byte (bm_put v bi x) bj = if bj / 8 =? bi / 8 then x else bm_byte v bj.
Proof.
  intros Hbj. unfold bm_byte, bm_put, block. rewrite !nth_lookup. destruct Hv as [Hl _].
  unfold BPB, BSIZE in Hbi. destruct (bj / 8 =? bi / 8) eqn:E; zbool.
  - rewrite E, list_lookup_insert_eq by (rewrite Hl; dlia). done.
  - rewrite list_lookup_insert_ne by dlia. done.
Qed.

Lemma bit_put x bj :
  0 ≤ bj → bit (bm_put v bi x) bj = if bj / 8 =? bi / 8 then Z.testbit x (bj mod 8) else bit v bj.
Proof. intros Hbj. unfold bit. rewrite bm_byte_put by done. by case_b. Qed.

Lemma set_bit_whole : whole (set_bit v bi).
Proof.
  destruct Hv as [Hl Hb]. pose proof (bm_byte_range v bi Hb) as Hx. split; [by unfold set_bit, bm_put; rewrite length_insert|].
  apply Forall_insert; [done|]. apply byte_of_bits.
  - apply Z.lor_nonneg. rewrite Z.shiftl_1_l. unfold is_byte in Hx. lia.
  - intros j Hj. rewrite Z.lor_spec, testbit_one by dlia.
    rewrite (testbit_high _ 8 j), (proj2 (Z.eqb_neq _ _)) by (first [done|dlia]). done.
Qed.

Lemma clear_bit_whole : whole (clear_bit v bi).
Proof.
  destruct Hv as [Hl Hb]. split; [by unfold clear_bit, bm_put; rewrite length_insert|].
  apply Forall_insert; [done|]. unfold is_byte, u8. dlia.
Qed.

Lemma bit_set bj : 0 ≤ bj → bit (set_bit v bi) bj = (bj =? bi) || bit v bj.
Proof.
  intros Hbj. unfold set_bit. rewrite bit_put by done. destruct (bj / 8 =? bi / 8) eqn:E; zbool.
  - rewrite Z.lor_spec, testbit_one, orb_comm by dlia. f_equal.
    + apply eq_true_iff_eq. rewrite !Z.eqb_eq. dlia.
    + unfold bit, bm_byte. by rewrite E.
  - by rewrite (proj2 (Z.eqb_neq bj bi)) by congruence.
Qed.

Lemma bit_clear bj : 0 ≤ bj → bit (clear_bit v bi) bj = negb (bj =? bi) && bit v bj.
Proof.
  intros Hbj. unfold clear_bit. rewrite bit_put by done. destruct (bj / 8 =? bi / 8) eqn:E; zbool.
  - unfold u8. rewrite Z.mod_pow2_bits_low, Z.land_spec, Z.lnot_spec, testbit_one, andb_comm by dlia.
    f_equal.
    + f_equal. apply eq_true_iff_eq. rewrite !Z.eqb_eq. dlia.
    + unfold bit, bm_byte. by rewrite E.
  - by rewrite (proj2 (Z.eqb_neq bj bi)) by congruence.
Qed.
End bitmap.

(** ** The bitmap of a disk *)

Definition used (sb : superblock) (V : Z → block) (b : Z) : bool := bit (V (BBLOCK b sb)) (b mod BPB).

Definition mark (sb : superblock) (V : Z → block) (b : Z) : Z → block :=
  upd V (BBLOCK b sb) (set_bit (V (BBLOCK b sb)) (b mod BPB)).
Definition unmark (sb : superblock) (V : Z → block) (b : Z) : Z → block :=
  upd V (BBLOCK b sb) (clear_bit (V (BBLOCK b sb)) (b mod BPB)).

(** The first data block; mkfs counts the blocks after the bitmap in [nblocks]. *)
Definition dstart (sb : superblock) : Z := sb_size sb - sb_nblocks sb.

Definition bmaps (sb : superblock) : gset Z :=
  list_to_set (seqZ (sb_bmapstart sb) ((sb_size sb - 1) / BPB + 1)).

(** The layout mkfs makes: inode blocks, bitmap, data. *)
Record fs_geo (U : Z → Prop) (sb : superblock) : Prop := {
  fg_size : 0 < sb_size sb < 2 ^ 31;
  fg_inodes : 0 ≤ sb_inodestart sb;
  fg_ninodes : 0 ≤ sb_ninodes sb < 2 ^ 16;
  fg_bmap : sb_ninodes sb / IPB + sb_inodestart sb < sb_bmapstart sb;
  fg_dstart : sb_bmapstart sb + (sb_size sb - 1) / BPB < dstart sb;
  fg_data : dstart sb ≤ sb_size sb;
  fg_usable n : sb_inodestart sb ≤ n < sb_size sb → U n
}.

Lemma div_BPB b : 0 ≤ b → 0 ≤ b / BPB ∧ 0 ≤ b mod BPB < BPB ∧ b = BPB * (b / BPB) + b mod BPB.
Proof. sizes. intros. dlia. Qed.

Section geo.
Context (U : Z → Prop) (sb : superblock) (Hgeo : fs_geo U sb).

Lemma bblock_range b : 0 ≤ b < sb_size sb → sb_bmapstart sb ≤ BBLOCK b sb < dstart sb ∧ BBLOCK b sb ∈ bmaps sb.
Proof.
  intros Hb. destruct Hgeo. unfold BBLOCK, bmaps in *. rewrite elem_of_list_to_set, elem_of_seqZ.
  sizes. dlia.
Qed.

Lemma inode_block_range i : 0 ≤ i < sb_ninodes sb → sb_inodestart sb ≤ IBLOCK i sb < sb_bmapstart sb.
Proof.
  intros Hi. destruct Hgeo. unfold IBLOCK in *. sizes. dlia.
Qed.

Lemma geo_order : 0 ≤ sb_inodestart sb < sb_bmapstart sb ∧ sb_bmapstart sb < dstart sb.
Proof.
  destruct Hgeo. sizes.
  assert (0 ≤ sb_ninodes sb / 8) by dlia. assert (0 ≤ (sb_size sb - 1) / 4096) by dlia. lia.
Qed.

Lemma used_mark V b c : (∀ n, whole (V n)) → 0 ≤ b → 0 ≤ c → used sb (mark sb V b) c = (c =? b) || used sb V c.
Proof.
  intros HV Hb Hc. unfold used, mark, upd, BBLOCK.
  pose proof (div_BPB b Hb) as (Hb1 & Hb2 & Hb3). pose proof (div_BPB c Hc) as (Hc1 & Hc2 & Hc3).
  destruct (c / BPB + sb_bmapstart sb =? b / BPB + sb_bmapstart sb) eqn:E; zbool.
  - rewrite bit_set by (first [apply HV|lia]). replace (c / BPB) with (b / BPB) in * by lia.
    f_equal. apply eq_true_iff_eq. rewrite !Z.eqb_eq. lia.
  - by rewrite (proj2 (Z.eqb_neq c b)) by congruence.
Qed.

Lemma used_unmark V b c :
  (∀ n, whole (V n)) → 0 ≤ b → 0 ≤ c → used sb (unmark sb V b) c = negb (c =? b) && used sb V c.
Proof.
  intros HV Hb Hc. unfold used, unmark, upd, BBLOCK.
  pose proof (div_BPB b Hb) as (Hb1 & Hb2 & Hb3). pose proof (div_BPB c Hc) as (Hc1 & Hc2 & Hc3).
  destruct (c / BPB + sb_bmapstart sb =? b / BPB + sb_bmapstart sb) eqn:E; zbool.
  - rewrite bit_clear by (first [apply HV|lia]). replace (c / BPB) with (b / BPB) in * by lia.
    do 2 f_equal. apply eq_true_iff_eq. rewrite !Z.eqb_eq. lia.
  - by rewrite (proj2 (Z.eqb_neq c b)) by congruence.
Qed.

(** Writing outside the bitmap. *)
Lemma used_upd V n v b :
  0 ≤ b < sb_size sb → ¬ (sb_bmapstart sb ≤ n < dstart sb) → used sb (upd V n v) b = used sb V b.
Proof.
  intros Hb Hn. unfold used. rewrite upd_ne; [done|]. intros <-. apply Hn, bblock_range, Hb.
Qed.
End geo.

(** ** [find_clear] *)

Lemma find_clear_Some n v b bi size k :
  find_clear n v b bi size = Some k → bi ≤ k < BPB ∧ b + k < size ∧ bit v k = false.
Proof.
  revert bi. induction n as [|n IH]; intros bi; cbn [find_clear]; [done|].
  case_b; [|done]. rewrite bit_test. case_b.
  - intros [= <-]. split_and!; [lia|lia|lia|]. done.
  - intros Hk%IH. lia.
Qed.

Lemma find_clear_None n v b bi size :
  find_clear n v b bi size = None → BPB ≤ bi + Z.of_nat n →
  ∀ k, bi ≤ k < BPB → b + k < size → bit v k = true.
Proof.
  revert bi. induction n as [|n IH]; intros bi; cbn [find_clear]; intros Hf Hn k Hk Hs; [lia|].
  rewrite (proj2 (Z.ltb_lt bi BPB)), (proj2 (Z.ltb_lt (b + bi) size)), bit_test in Hf by lia. simpl in Hf.
  destruct (bit v bi) eqn:E; [|done]. simpl in Hf.
  destruct (decide (k = bi)) as [->|]; [done|]. apply (IH (bi + 1)); [done|lia|lia|done].
Qed.

(** ** Steps of the file system over the disk *)

Section steps.
Context {D X : Type} {ops : Disk D} {laws : DiskOk D} {swtch : Devices X}.
Context (sb : superblock) (p : Z) (x : X).

(** The file system with disk [d] and inode cache [l]; no spinlock is held. *)
Definition st (d : D) (l : list inode) : fs D X := Fs d sb l false p x.

Lemma st_bread d l V H L n :
  repr d V H L → usable n → n ∉ H.*2 → (length H < 2)%nat →
  ∃ i d', on_disk (d_bread ROOTDEV n) (st d l) = Ok i (st d' l) ∧ repr d' V ((i, n) :: H) L.
Proof.
  intros R Hu Hn Hl. destruct (bread_law d V H L n R Hu Hn Hl) as (i & d' & E & R').
  exists i, d'. unfold on_disk. simpl. by rewrite E.
Qed.

Lemma st_get d l V H L i n : repr d V H L → (i, n) ∈ H → on_disk (d_get i) (st d l) = Ok (V n) (st d l).
Proof. intros R Hi. unfold on_disk. simpl. by rewrite (get_law d V H L i n R Hi). Qed.

Lemma st_put d l V H L i n v :
  repr d V H L → (i, n) ∈ H → whole v → (card L < log_cap)%nat →
  ∃ d1 d2, on_disk (d_set i v) (st d l) = Ok tt (st d1 l) ∧
    on_disk (d_log_write i) (st d1 l) = Ok tt (st d2 l) ∧ repr d2 (upd V n v) H ({[n]} ∪ L).
Proof.
  intros R Hi Hv Hc. destruct (put_law d V H L i n v R Hi Hv Hc) as (d1 & d2 & E1 & E2 & R').
  exists d1, d2. unfold on_disk. simpl. by rewrite E1, E2.
Qed.

Lemma st_brelse d l V H L i n :
  repr d V ((i, n) :: H) L → ∃ d', on_disk (d_brelse i) (st d l) = Ok tt (st d' l) ∧ repr d' V H L.
Proof.
  intros R. destruct (brelse_law d V ((i, n) :: H) H L i n R) as (d' & E & R'); [done|].
  exists d'. unfold on_disk. simpl. by rewrite E.
Qed.

(** Reading a block. *)
Lemma st_read {B} d l V H L n (k : block → cm (fs D X) B) :
  repr d V H L → usable n → n ∉ H.*2 → (length H < 2)%nat →
  ∃ d', repr d' V H L ∧
    (bp ← on_disk (d_bread ROOTDEV n); v ← on_disk (d_get bp); on_disk (d_brelse bp) ;; k v) (st d l) =
    k (V n) (st d' l).
Proof.
  intros R Hu Hn Hl. destruct (st_bread d l V H L n R Hu Hn Hl) as (i & d1 & E1 & R1).
  destruct (st_brelse d1 l V H L i n R1) as (d2 & E2 & R2).
  exists d2. split; [done|]. rewrite (bind_ok _ _ _ _ _ E1).
  rewrite (bind_ok _ _ _ _ _ (st_get d1 l V ((i, n) :: H) L i n R1 ltac:(left))).
  by rewrite (bind_ok _ _ _ _ _ E2).
Qed.

(** Changing a block: what [bzero], [iupdate] and the rest do. *)
Lemma st_write d l V H L n (f : block → block) :
  repr d V H L → usable n → n ∉ H.*2 → (length H < 2)%nat → whole (f (V n)) → (card L < log_cap)%nat →
  ∃ d', repr d' (upd V n (f (V n))) H ({[n]} ∪ L) ∧
    (bp ← on_disk (d_bread ROOTDEV n); v ← on_disk (d_get bp); on_disk (d_set bp (f v)) ;;
     on_disk (d_log_write bp) ;; on_disk (d_brelse bp)) (st d l) = Ok tt (st d' l).
Proof.
  intros R Hu Hn Hl Hw Hc. destruct (st_bread d l V H L n R Hu Hn Hl) as (i & d1 & E1 & R1).
  destruct (st_put d1 l V ((i, n) :: H) L i n (f (V n)) R1 ltac:(left) Hw Hc) as (d2 & d3 & E2 & E3 & R3).
  destruct (st_brelse d3 l _ H _ i n R3) as (d4 & E4 & R4).
  exists d4. split; [done|]. rewrite (bind_ok _ _ _ _ _ E1).
  rewrite (bind_ok _ _ _ _ _ (st_get d1 l V ((i, n) :: H) L i n R1 ltac:(left))).
  by rewrite (bind_ok _ _ _ _ _ E2), (bind_ok _ _ _ _ _ E3).
Qed.

Lemma whole_zero : whole (replicate 512 0).
Proof. split; [by rewrite length_replicate|]. apply Forall_replicate. unfold is_byte. lia. Qed.

Lemma bzero_ok d l V H L n :
  repr d V H L → usable n → n ∉ H.*2 → (length H < 2)%nat → (card L < log_cap)%nat →
  ∃ d', repr d' (upd V n (replicate 512 0)) H ({[n]} ∪ L) ∧ bzero ROOTDEV n (st d l) = Ok tt (st d' l).
Proof.
  intros R Hu Hn Hl Hc. destruct (st_bread d l V H L n R Hu Hn Hl) as (i & d1 & E1 & R1).
  destruct (st_put d1 l V ((i, n) :: H) L i n _ R1 ltac:(left) whole_zero Hc) as (d2 & d3 & E2 & E3 & R3).
  destruct (st_brelse d3 l _ H _ i n R3) as (d4 & E4 & R4).
  exists d4. split; [done|]. unfold bzero.
  by rewrite (bind_ok _ _ _ _ _ E1), (bind_ok _ _ _ _ _ E2), (bind_ok _ _ _ _ _ E3).
Qed.

(** The blocks below the data are in use. *)
Definition meta_used (V : Z → block) : Prop := ∀ b, 0 ≤ b < dstart sb → used sb V b = true.

(** The buffers held are of data blocks in use. *)
Definition holds_data (V : Z → block) (H : list (nat * Z)) : Prop :=
  ∀ n, n ∈ H.*2 → dstart sb ≤ n ∧ used sb V n = true.

(** The contents after [balloc] returned [b]. *)
Definition alloc (V : Z → block) (b : Z) : Z → block := upd (mark sb V b) b (replicate 512 0).

Section allocator.
Context (Hgeo : fs_geo usable sb).

Lemma aligned_bit b bi : 0 ≤ b → b mod BPB = 0 → 0 ≤ bi < BPB →
  BBLOCK (b + bi) sb = BBLOCK b sb ∧ (b + bi) mod BPB = bi.
Proof. unfold BBLOCK. sizes. intros. dlia. Qed.

Lemma balloc_take d l V H L b bi :
  repr d V H L → (length H < 2)%nat → meta_used V → holds_data V H → (card (bmaps sb ∪ L) < log_cap)%nat →
  0 ≤ b → b mod BPB = 0 → 0 ≤ bi < BPB → b + bi < sb_size sb → used sb V (b + bi) = false →
  ∃ d' d'', (∃ i d1 d2 d3 v, on_disk (d_bread ROOTDEV (BBLOCK b sb)) (st d l) = Ok i (st d1 l) ∧
      on_disk (d_get i) (st d1 l) = Ok (V (BBLOCK b sb)) (st d1 l) ∧
      v = set_bit (V (BBLOCK b sb)) bi ∧
      on_disk (d_set i v) (st d1 l) = Ok tt (st d2 l) ∧
      on_disk (d_log_write i) (st d2 l) = Ok tt (st d3 l) ∧ on_disk (d_brelse i) (st d3 l) = Ok tt (st d' l)) ∧
    bzero ROOTDEV (b + bi) (st d' l) = Ok tt (st d'' l) ∧ dstart sb ≤ b + bi ∧
    repr d'' (alloc V (b + bi)) H ({[b + bi]} ∪ ({[BBLOCK b sb]} ∪ L)).
Proof.
  intros R Hl Hm Hh Hc Hb Ha Hbi Hs Hu. pose proof (aligned_bit b bi Hb Ha Hbi) as [Eb Em].
  destruct (bblock_range _ _ Hgeo (b + bi)) as [Hr Hin]; [lia|]. rewrite Eb in Hr, Hin.
  pose proof (geo_order _ _ Hgeo) as Ho. pose proof (fg_data _ _ Hgeo) as Hd.
  assert (Hds : dstart sb ≤ b + bi).
  { destruct (decide (b + bi < dstart sb)); [|lia]. rewrite Hm in Hu by lia. done. }
  assert (HbL : ∀ n, n ∈ H.*2 → n ≠ BBLOCK b sb ∧ n ≠ b + bi).
  { intros n [Hn Hn']%Hh. split; [lia|]. intros ->. congruence. }
  destruct (st_bread d l V H L (BBLOCK b sb) R) as (i & d1 & E1 & R1);
    [apply (fg_usable _ _ Hgeo); lia|intros [? _]%HbL; done|done|].
  assert (Hsub : L ⊆ bmaps sb ∪ L ∧ {[BBLOCK b sb]} ∪ L ⊆ bmaps sb ∪ L) by set_solver.
  pose proof (subseteq_size _ _ (proj1 Hsub)) as Hc1. pose proof (subseteq_size _ _ (proj2 Hsub)) as Hc2.
  unfold card in *.
  destruct (st_put d1 l V _ L i (BBLOCK b sb) (set_bit (V (BBLOCK b sb)) bi) R1 ltac:(left))
    as (d2 & d3 & E2 & E3 & R3); [apply set_bit_whole; [by eapply repr_whole|done]|unfold card; lia|].
  destruct (st_brelse d3 l _ H _ i _ R3) as (d4 & E4 & R4).
  destruct (bzero_ok d4 l _ H _ (b + bi) R4) as (d5 & R5 & E5);
    [apply (fg_usable _ _ Hgeo); lia|intros [_ ?]%HbL; done|done|unfold card; lia|].
  exists d4, d5. split_and!; [|done|done|].
  - exists i, d1, d2, d3, (set_bit (V (BBLOCK b sb)) bi). split_and!; try done.
    by apply (st_get d1 l V ((i, BBLOCK b sb) :: H) L i _ R1); left.
  - unfold alloc, mark. by rewrite Eb, Em.
Qed.

Lemma balloc_loop_ok n : ∀ b d l V H L,
  repr d V H L → (length H < 2)%nat → meta_used V → holds_data V H → (card (bmaps sb ∪ L) < log_cap)%nat →
  0 ≤ b → b mod BPB = 0 → (∃ c, b ≤ c < sb_size sb ∧ used sb V c = false) →
  sb_size sb ≤ b + BPB * Z.of_nat n →
  ∃ c d', balloc_loop n ROOTDEV b (st d l) = Ok c (st d' l) ∧
    dstart sb ≤ c < sb_size sb ∧ used sb V c = false ∧
    repr d' (alloc V c) H ({[c]} ∪ ({[BBLOCK c sb]} ∪ L)).
Proof.
  induction n as [|n IH]; intros b d l V H L R Hl Hm Hh Hc Hb Ha (c & Hcr & Hcu) Hn; [lia|].
  cbn [balloc_loop]. rewrite (bind_ok (gets fsb) _ _ sb (st d l)) by done.
  rewrite (proj2 (Z.ltb_lt b _)) by lia.
  destruct (find_clear (Z.to_nat BPB) (V (BBLOCK b sb)) b 0 (sb_size sb)) as [bi|] eqn:Ef.
  - apply find_clear_Some in Ef as Ef'. destruct Ef' as (Hbi & Hs & Hbit).
    pose proof (aligned_bit b bi Hb Ha Hbi) as [Eb Em].
    assert (Hu : used sb V (b + bi) = false) by (unfold used; by rewrite Eb, Em).
    destruct (balloc_take d l V H L b bi R Hl Hm Hh Hc Hb Ha Hbi Hs Hu)
      as (d4 & d5 & (i & d1 & d2 & d3 & v & E1 & E1' & Ev & E2 & E3 & E4) & E5 & Hds & R5).
    exists (b + bi), d5. rewrite Eb. split_and!; [|lia|lia|done|done].
    rewrite (bind_ok _ _ _ _ _ E1), (bind_ok _ _ _ _ _ E1'), Ef.
    change (bm_put _ bi _) with (set_bit (V (BBLOCK b sb)) bi). rewrite <- Ev.
    rewrite (bind_ok _ _ _ _ _ E2), (bind_ok _ _ _ _ _ E3), (bind_ok _ _ _ _ _ E4).
    by rewrite (bind_ok _ _ _ _ _ E5).
  - pose proof (find_clear_None _ _ _ _ _ Ef ltac:(sizes; lia)) as Hfull.
    destruct (bblock_range _ _ Hgeo b ltac:(lia)) as [Hr _].
    pose proof (geo_order _ _ Hgeo) as Ho. pose proof (fg_data _ _ Hgeo) as Hd.
    destruct (st_bread d l V H L (BBLOCK b sb) R) as (i & d1 & E1 & R1);
      [apply (fg_usable _ _ Hgeo); lia|intros [Hx _]%Hh; lia|done|].
    destruct (st_brelse d1 l V H L i _ R1) as (d2 & E2 & R2).
    destruct (IH (b + BPB) d2 l V H L R2 Hl Hm Hh Hc) as (c' & d' & E & Hres);
      [sizes; lia|sizes; dlia| |sizes; lia|].
    { exists c. split; [|done]. destruct (decide (b + BPB ≤ c)); [lia|]. exfalso.
      pose proof (aligned_bit b (c - b) Hb Ha ltac:(lia)) as [Eb Em].
      replace (b + (c - b)) with c in Eb, Em by lia.
      unfold used in Hcu. rewrite Eb, Em in Hcu. rewrite Hfull in Hcu by lia. done. }
    exists c', d'. split; [|done]. rewrite (bind_ok _ _ _ _ _ E1).
    rewrite (bind_ok _ _ _ _ _ (st_get d1 l V ((i, BBLOCK b sb) :: H) L i _ R1 ltac:(left))), Ef.
    by rewrite (bind_ok _ _ _ _ _ E2).
Qed.

Lemma balloc_ok d l V H L :
  repr d V H L → (length H < 2)%nat → meta_used V → holds_data V H → (card (bmaps sb ∪ L) < log_cap)%nat →
  (∃ c, 0 ≤ c < sb_size sb ∧ used sb V c = false) →
  ∃ b d', balloc ROOTDEV (st d l) = Ok b (st d' l) ∧
    dstart sb ≤ b < sb_size sb ∧ used sb V b = false ∧
    repr d' (alloc V b) H ({[b]} ∪ ({[BBLOCK b sb]} ∪ L)).
Proof.
  intros R Hl Hm Hh Hc Hfree. unfold balloc.
  rewrite (bind_ok (gets fsb) _ _ sb (st d l)) by done.
  pose proof (fg_size _ _ Hgeo). apply balloc_loop_ok; try done. sizes. dlia.
Qed.

Lemma bfree_ok d l V H L b :
  repr d V H L → (length H < 2)%nat → holds_data V H → (card L < log_cap)%nat →
  0 ≤ b < sb_size sb → used sb V b = true →
  ∃ d', bfree ROOTDEV b (st d l) = Ok tt (st d' l) ∧ repr d' (unmark sb V b) H ({[BBLOCK b sb]} ∪ L).
Proof.
  intros R Hl Hh Hc Hb Hu. destruct (bblock_range _ _ Hgeo b Hb) as [Hr _].
  pose proof (geo_order _ _ Hgeo) as Ho. pose proof (fg_data _ _ Hgeo) as Hd.
  destruct (st_bread d l V H L (BBLOCK b sb) R) as (i & d1 & E1 & R1);
    [apply (fg_usable _ _ Hgeo); lia|intros [Hx _]%Hh; lia|done|].
  destruct (st_put d1 l V _ L i (BBLOCK b sb) (clear_bit (V (BBLOCK b sb)) (b mod BPB)) R1 ltac:(left))
    as (d2 & d3 & E2 & E3 & R3);
    [apply clear_bit_whole; [by eapply repr_whole|sizes; dlia]|done|].
  destruct (st_brelse d3 l _ H _ i _ R3) as (d4 & E4 & R4).
  exists d4. split; [|done]. unfold bfree. rewrite (bind_ok (gets fsb) _ _ sb (st d l)) by done.
  rewrite (bind_ok _ _ _ _ _ E1).
  rewrite (bind_ok _ _ _ _ _ (st_get d1 l V ((i, BBLOCK b sb) :: H) L i _ R1 ltac:(left))).
  rewrite bit_test. unfold used in Hu. rewrite Hu. cbn [negb].
  by rewrite (bind_ok _ _ _ _ _ E2), (bind_ok _ _ _ _ _ E3).
Qed.
End allocator.
End steps.
