(* ===== verification/FsModel.v ===== *)
(** * Files on a disk

    What the blocks of a disk mean: [nth_addr] is the block of a file that holds its
    [bn]-th 512 bytes, [fbyte] a byte of a file (a hole reads as zero), and [fs_ok] the
    consistency of a whole file system, inode table and bitmap together: every
    address of a live inode is a data block, no block has two uses, and the bitmap
    marks the blocks in use and no other.

    The lemmas state what the changes [src/fs.c] makes to a disk do to this meaning:
    adding a block to a file, writing a block of a file, dropping the blocks of a
    file, writing an inode. *)
From S2P Require Import Prelude Bytes Bio Log Disk Fs FsAlloc.

(** The inode as [iupdate] writes it is read back. *)
Record dinode_fits (d : dinode) : Prop := {
  df_type : - 2 ^ 15 ≤ di_type d < 2 ^ 15;
  df_major : - 2 ^ 15 ≤ di_major d < 2 ^ 15;
  df_minor : - 2 ^ 15 ≤ di_minor d < 2 ^ 15;
  df_nlink : - 2 ^ 15 ≤ di_nlink d < 2 ^ 15;
  df_size : 0 ≤ di_size d < 2 ^ 32;
  df_len : length (di_addrs d) = 13%nat;
  df_addrs : Forall (λ a, 0 ≤ a < 2 ^ 32) (di_addrs d)
}.

Lemma i16_u16 t : - 2 ^ 15 ≤ t < 2 ^ 15 → i16 (u16 t) = t.
Proof. unfold i16, u16. intros. dlia. Qed.

Lemma u16_range t : 0 ≤ u16 t < 256 ^ Z.of_nat 2.
Proof. unfold u16. change (256 ^ Z.of_nat 2) with 65536. dlia. Qed.

Section dinode.
Context (v : block) (k : nat) (d : dinode).
Context (Hv : length v = 512%nat) (Hk : (k < 8)%nat) (Hd : dinode_fits d).

(** The blocks between the stores of [store_dinode]. *)
Let o : nat := (64 * k)%nat.
Let v1 := store 2 v o (u16 (di_type d)).
Let v2 := store 2 v1 (o + 2) (u16 (di_major d)).
Let v3 := store 2 v2 (o + 4) (u16 (di_minor d)).
Let v4 := store 2 v3 (o + 6) (u16 (di_nlink d)).
Let v5 := store 4 v4 (o + 8) (di_size d).

Lemma dinode_lengths :
  length v1 = 512%nat ∧ length v2 = 512%nat ∧ length v3 = 512%nat ∧ length v4 = 512%nat ∧ length v5 = 512%nat.
Proof.
  assert (H1 : length v1 = 512%nat) by (unfold v1; rewrite length_store; lia).
  assert (H2 : length v2 = 512%nat) by (unfold v2; rewrite length_store; lia).
  assert (H3 : length v3 = 512%nat) by (unfold v3; rewrite length_store; lia).
  assert (H4 : length v4 = 512%nat) by (unfold v4; rewrite length_store; lia).
  split_and!; try done. unfold v5. rewrite length_store; lia.
Qed.

Lemma store_dinode_length : length (store_dinode v k d) = 512%nat.
Proof.
  destruct dinode_lengths as (_ & _ & _ & _ & H5). unfold store_dinode. fold o v1 v2 v3 v4 v5.
  rewrite length_store_words; rewrite ?(df_len d Hd); lia.
Qed.

(** A load outside the bytes of the inode. *)
Lemma load_store_dinode_out j off :
  (off + j ≤ o ∨ o + 64 ≤ off)%nat → load j (store_dinode v k d) off = load j v off.
Proof.
  intros Hoff. destruct dinode_lengths as (H1 & H2 & H3 & H4 & H5).
  unfold store_dinode. fold o v1 v2 v3 v4 v5.
  rewrite load_store_words_ne by (rewrite ?(df_len d Hd); lia).
  unfold v5. rewrite load_store_ne by lia. unfold v4. rewrite load_store_ne by lia.
  unfold v3. rewrite load_store_ne by lia. unfold v2. rewrite load_store_ne by lia.
  unfold v1. apply load_store_ne; lia.
Qed.

Lemma load_store_dinode : load_dinode (store_dinode v k d) k = d.
Proof.
  destruct dinode_lengths as (H1 & H2 & H3 & H4 & H5). pose proof (df_len d Hd) as Hl.
  destruct Hd. unfold load_dinode, store_dinode. fold o v1 v2 v3 v4 v5.
  rewrite !load_store_words_ne by (rewrite ?Hl; lia).
  replace (load_words _ _ _) with (di_addrs d)
    by (rewrite <- Hl; symmetry; apply load_words_store_words; [lia|done]).
  unfold v5. rewrite (load_store_eq 4) by (first [lia|done]). rewrite !(load_store_ne 4) by lia.
  unfold v4. rewrite (load_store_eq 2) by (first [lia|apply u16_range]). rewrite !(load_store_ne 2) by lia.
  unfold v3. rewrite (load_store_eq 2) by (first [lia|apply u16_range]). rewrite !(load_store_ne 2) by lia.
  unfold v2. rewrite (load_store_eq 2) by (first [lia|apply u16_range]). rewrite !(load_store_ne 2) by lia.
  unfold v1. rewrite (load_store_eq 2) by (first [lia|apply u16_range]).
  rewrite !i16_u16 by done. by destruct d.
Qed.

Lemma load_store_dinode_ne j : j ≠ k → load_dinode (store_dinode v k d) j = load_dinode v j.
Proof.
  intros Hj. unfold load_dinode.
  assert (Hout : ∀ n q, (q + n ≤ 64)%nat →
    load n (store_dinode v k d) (64 * j + q) = load n v (64 * j + q)).
  { intros n q Hq. apply load_store_dinode_out. unfold o. lia. }
  pose proof (Hout 2%nat 0%nat) as H0. rewrite Nat.add_0_r in H0.
  rewrite H0, !Hout by lia. f_equal. unfold load_words. apply list_fmap_ext. intros i a Ha%lookup_seq. rewrite <- !Nat.add_assoc. apply Hout. lia.
Qed.

Lemma store_dinode_whole : Forall is_byte v → whole (store_dinode v k d).
Proof.
  intros Hb. split; [apply store_dinode_length|].
  unfold store_dinode. apply store_words_bytes. do 5 apply store_bytes. done.
Qed.
End dinode.

(** ** Meaning *)

Definition ind (d : dinode) : Z := nth 12 (di_addrs d) 0.

Definition nth_addr (V : Z → block) (d : dinode) (bn : Z) : Z :=
  if bn <? NDIRECT then nth (Z.to_nat bn) (di_addrs d) 0
  else if ind d =? 0 then 0 else load 4 (V (ind d)) (Z.to_nat (4 * (bn - NDIRECT))).

Definition fbyte (V : Z → block) (d : dinode) (k : Z) : Z :=
  let a := nth_addr V d (k / BSIZE) in
  if a =? 0 then 0 else nth (Z.to_nat (k mod BSIZE)) (V a) 0.

Definition fbytes (V : Z → block) (d : dinode) (off n : Z) : list Z := fbyte V d <$> seqZ off n.
Definition contents (V : Z → block) (d : dinode) : list Z := fbytes V d 0 (di_size d).

Definition owns (V : Z → block) (d : dinode) (b : Z) : Prop :=
  b ≠ 0 ∧ (b = ind d ∨ ∃ bn, 0 ≤ bn < MAXFILE ∧ nth_addr V d bn = b).

Definition dinode_at (sb : superblock) (V : Z → block) (i : Z) : dinode :=
  load_dinode (V (IBLOCK i sb)) (Z.to_nat (i mod IPB)).

Record file_ok (sb : superblock) (V : Z → block) (d : dinode) : Prop := {
  fo_fits : dinode_fits d;
  fo_data b : owns V d b → dstart sb ≤ b < sb_size sb;
  fo_inj bn bn' : 0 ≤ bn < MAXFILE → 0 ≤ bn' < MAXFILE →
    nth_addr V d bn ≠ 0 → nth_addr V d bn = nth_addr V d bn' → bn = bn';
  fo_ind bn : 0 ≤ bn < MAXFILE → ind d ≠ 0 → nth_addr V d bn ≠ ind d;
  fo_size : di_size d ≤ MAXFILE * BSIZE;
  fo_alloc bn : 0 ≤ bn → bn * BSIZE < di_size d → nth_addr V d bn ≠ 0
}.

(** [A] is the inode table: the inodes on disk, or newer ones in memory. *)
Definition live (sb : superblock) (A : Z → dinode) (i : Z) : Prop :=
  0 ≤ i < sb_ninodes sb ∧ di_type (A i) ≠ 0.

Record fs_ok (sb : superblock) (V : Z → block) (A : Z → dinode) : Prop := {
  ok_file i : live sb A i → file_ok sb V (A i);
  ok_disj i j b : live sb A i → live sb A j → owns V (A i) b → owns V (A j) b → i = j;
  ok_used b : 0 ≤ b < sb_size sb →
    used sb V b = true ↔ b < dstart sb ∨ ∃ i, live sb A i ∧ owns V (A i) b
}.

(** ** Changes of the disk that a file does not see *)

Lemma nth_addr_ext V V' d bn : (ind d ≠ 0 → V' (ind d) = V (ind d)) → nth_addr V' d bn = nth_addr V d bn.
Proof. intros He. unfold nth_addr. repeat case_b; try done. by rewrite He. Qed.

Lemma owns_ind V d : ind d ≠ 0 → owns V d (ind d).
Proof. by split; [|left]. Qed.

Lemma owns_nth V d bn : 0 ≤ bn < MAXFILE → nth_addr V d bn ≠ 0 → owns V d (nth_addr V d bn).
Proof. split; [done|right; eauto]. Qed.

Section unseen.
Context (V V' : Z → block) (d : dinode) (He : ind d ≠ 0 → V' (ind d) = V (ind d)).

Lemma nth_addr_same bn : nth_addr V' d bn = nth_addr V d bn.
Proof. by apply nth_addr_ext. Qed.

Lemma owns_same b : owns V' d b ↔ owns V d b.
Proof. unfold owns. by setoid_rewrite nth_addr_same. Qed.

Lemma file_ok_same sb : file_ok sb V d → file_ok sb V' d.
Proof.
  intros [? Hd Hj Hi ? Ha]. split; try done.
  - intros b Hb%owns_same. by apply Hd.
  - intros bn bn'. rewrite !nth_addr_same. apply Hj.
  - intros bn. rewrite nth_addr_same. apply Hi.
  - intros bn. rewrite nth_addr_same. apply Ha.
Qed.

Lemma fbyte_same k :
  (∀ b, owns V d b → V' b = V b) → 0 ≤ k < MAXFILE * BSIZE → fbyte V' d k = fbyte V d k.
Proof.
  intros Hb Hk. unfold fbyte. rewrite nth_addr_same. case_b; [done|]. rewrite Hb; [done|].
  apply owns_nth; [sizes; dlia|done].
Qed.
End unseen.

Section table.
Context (sb : superblock) (V : Z → block) (A : Z → dinode) (Hok : fs_ok sb V A).

Lemma owned_used i b : live sb A i → owns V (A i) b → dstart sb ≤ b < sb_size sb ∧ (0 ≤ b → used sb V b = true).
Proof.
  intros Hi Hb. pose proof (fo_data _ _ _ (ok_file _ _ _ Hok i Hi) b Hb) as Hr. split; [done|].
  intros H0. apply (ok_used _ _ _ Hok); [lia|]. eauto.
Qed.

Lemma live_upd i d j :
  live sb A i → di_type d = di_type (A i) → live sb (upd A i d) j ↔ live sb A j.
Proof. intros Hi Ht. unfold live, upd. case_b; [|done]. subst. by rewrite Ht. Qed.

Lemma fs_ok_ext A' : (∀ j, A' j = A j) → fs_ok sb V A'.
Proof.
  intros HA. assert (Hl : ∀ j, live sb A' j ↔ live sb A j) by (intros j; unfold live; by rewrite HA).
  split.
  - intros j Hj%Hl. rewrite HA. by apply (ok_file _ _ _ Hok).
  - intros j j' b Hj%Hl Hj'%Hl. rewrite !HA. by apply (ok_disj _ _ _ Hok).
  - intros b Hb. rewrite (ok_used _ _ _ Hok b Hb). setoid_rewrite Hl. by setoid_rewrite HA.
Qed.

(** A change of one live inode, seen from the others. *)
Lemma fs_ok_change V' i d :
  live sb A i → di_type d = di_type (A i) →
  (∀ j b, live sb A j → j ≠ i → owns V (A j) b → V' b = V b) →
  file_ok sb V' d →
  (∀ j b, live sb A j → j ≠ i → owns V (A j) b → ¬ owns V' d b) →
  (∀ b, 0 ≤ b < sb_size sb → used sb V' b = true ↔
     b < dstart sb ∨ owns V' d b ∨ ∃ j, j ≠ i ∧ live sb A j ∧ owns V (A j) b) →
  fs_ok sb V' (upd A i d).
Proof.
  intros Hi Ht Hsame Hf Hdisj Hu.
  assert (Hown : ∀ j b, live sb A j → j ≠ i → owns V' (A j) b ↔ owns V (A j) b).
  { intros j b Hj Hji. apply owns_same. intros Hn. by apply (Hsame j), owns_ind. }
  split.
  - intros j Hj%(live_upd i d j Hi Ht). unfold upd. case_b; [done|].
    eapply file_ok_same; [|by apply (ok_file _ _ _ Hok)]. intros Hn. by apply (Hsame j), owns_ind.
  - intros j j' b Hj%(live_upd i d j Hi Ht) Hj'%(live_upd i d j' Hi Ht). unfold upd.
    repeat case_b; subst; try done; rewrite ?Hown by done.
    + intros Hd Hb. by eapply Hdisj in Hb.
    + intros Hb Hd. by eapply Hdisj in Hb.
    + by apply (ok_disj _ _ _ Hok).
  - intros b Hb. rewrite Hu by done. split; (intros [Hd|Hr]; [by left|right]).
    + destruct Hr as [Hr|(j & Hji & Hj & Ho)].
      * exists i. rewrite live_upd, upd_eq by done. done.
      * exists j. rewrite live_upd, upd_ne, Hown by done. done.
    + destruct Hr as (j & Hj & Ho). rewrite live_upd in Hj by done. destruct (decide (j = i)) as [->|Hji].
      * rewrite upd_eq in Ho. by left.
      * rewrite upd_ne, Hown in Ho by done. right. eauto.
Qed.
End table.

Lemma nth_zeros n m : nth n (replicate m 0) 0 = 0.
Proof.
  rewrite nth_lookup. destruct (replicate m 0 !! n) eqn:E; [|done]. by apply lookup_replicate in E as [-> _].
Qed.

(** ** Adding a block to a file *)

Section grow.
Context (U : Z → Prop) (sb : superblock) (V V' : Z → block) (A : Z → dinode) (i b : Z) (d : dinode).
Context (Hgeo : fs_geo U sb) (Hok : fs_ok sb V A) (Hi : live sb A i).
Context (Hb : dstart sb ≤ b < sb_size sb) (Hfree : used sb V b = false).
Context (Hfits : dinode_fits d) (Ht : di_type d = di_type (A i)) (Hsz : di_size d = di_size (A i)).
Context (Hused : ∀ c, 0 ≤ c < sb_size sb → used sb V' c = (c =? b) || used sb V c).
Context (Hsame : ∀ c, dstart sb ≤ c < sb_size sb → used sb V c = true → c ≠ ind (A i) → V' c = V c).

Lemma data_pos c : dstart sb ≤ c → 0 < c.
Proof. pose proof (geo_order _ _ Hgeo). lia. Qed.

Lemma not_owned j : live sb A j → ¬ owns V (A j) b.
Proof.
  intros Hj Ho. pose proof (data_pos b ltac:(lia)).
  pose proof (proj2 (owned_used _ _ _ Hok j b Hj Ho) ltac:(lia)). congruence.
Qed.

Lemma grow_others j c : live sb A j → j ≠ i → owns V (A j) c → V' c = V c.
Proof.
  intros Hj Hji Ho. destruct (owned_used _ _ _ Hok j c Hj Ho) as [Hr Hu]. pose proof (data_pos c ltac:(lia)).
  apply Hsame; [done|apply Hu; lia|]. intros ->. apply Hji.
  apply (ok_disj _ _ _ Hok j i (ind (A i))); try done. apply owns_ind. lia.
Qed.

Lemma grow_ok : file_ok sb V' d → (∀ c, owns V' d c ↔ owns V (A i) c ∨ c = b) → fs_ok sb V' (upd A i d).
Proof.
  intros Hf Hown. apply (fs_ok_change sb V A Hok); try done.
  - intros j c. apply grow_others.
  - intros j c Hj Hji Ho [Ho'|Ho']%Hown.
    + apply Hji. by apply (ok_disj _ _ _ Hok j i c).
    + subst c. by apply (not_owned j).
  - intros c Hc. rewrite Hused, orb_true_iff, Z.eqb_eq, (ok_used _ _ _ Hok c Hc), Hown by done.
    split; [|naive_solver]. intros [->|[?|(j & Hj & Ho)]]; [naive_solver|naive_solver|].
    destruct (decide (j = i)) as [->|]; naive_solver.
Qed.

(** The block becomes the [bn0]-th of the file. *)
Section data.
Context (bn0 : Z) (Hbn0 : 0 ≤ bn0 < MAXFILE) (Hhole : nth_addr V (A i) bn0 = 0) (Hind : ind d = ind (A i)).
Context (Hnth : ∀ bn, 0 ≤ bn < MAXFILE → nth_addr V' d bn = if bn =? bn0 then b else nth_addr V (A i) bn).

Lemma grow_data_owns c : owns V' d c ↔ owns V (A i) c ∨ c = b.
Proof.
  pose proof (data_pos b ltac:(lia)). unfold owns. rewrite Hind. split.
  - intros [Hc [?|(bn & Hbn & E)]]; [naive_solver|]. rewrite Hnth in E by done.
    destruct (bn =? bn0); [by right|]. left. split; [done|]. right. eauto.
  - intros [[Hc [?|(bn & Hbn & E)]]| ->]; [naive_solver| |].
    + split; [done|]. right. exists bn. rewrite Hnth by done. split; [done|]. case_b; [congruence|done].
    + split; [lia|]. right. exists bn0. rewrite Hnth, Z.eqb_refl by done. done.
Qed.

Lemma grow_data_file : file_ok sb V' d.
Proof.
  pose proof (ok_file _ _ _ Hok i Hi) as [_ Hd Hj Hd' Hs Ha]. pose proof (not_owned i Hi) as Hno.
  pose proof (data_pos b ltac:(lia)).
  assert (Hne : ∀ bn, 0 ≤ bn < MAXFILE → nth_addr V (A i) bn ≠ b).
  { intros bn Hbn E. apply Hno. rewrite <- E. apply owns_nth; [done|lia]. }
  split; rewrite ?Hsz; try done.
  - intros c [Hc| ->]%grow_data_owns; [by apply Hd|done].
  - intros bn bn' Hbn Hbn'. rewrite !Hnth by done. repeat case_b; intros Hnz E'; try congruence.
    + by destruct (Hne bn' Hbn').
    + by destruct (Hne bn Hbn).
    + by apply Hj.
  - intros bn Hbn. rewrite Hnth, Hind by done. case_b; [|by apply Hd'].
    intros Hi0 E'. apply Hno. rewrite E'. by apply owns_ind.
  - intros bn Hbn Hlt. rewrite Hnth by (sizes; lia). case_b; [lia|by apply Ha].
Qed.

Lemma grow_data_ok : fs_ok sb V' (upd A i d).
Proof. apply grow_ok; [apply grow_data_file|apply grow_data_owns]. Qed.

Lemma grow_data_bytes j k :
  V' b = replicate 512 0 → live sb A j → 0 ≤ k < MAXFILE * BSIZE →
  fbyte V' (upd A i d j) k = fbyte V (A j) k.
Proof.
  intros Hz Hj Hk. pose proof (data_pos b ltac:(lia)). unfold upd. case_b.
  - subst j. unfold fbyte. assert (Hbn : 0 ≤ k / BSIZE < MAXFILE) by (sizes; dlia).
    cbv zeta. rewrite Hnth by done. destruct (k / BSIZE =? bn0) eqn:E; zbool.
    + rewrite E, Hhole, (proj2 (Z.eqb_neq b 0)), Hz by lia. apply nth_zeros.
    + case_b; [done|]. f_equal. pose proof (owns_nth V (A i) _ Hbn E0) as Ho.
      destruct (owned_used _ _ _ Hok i _ Hi Ho) as [Hr Hu]. apply Hsame; [done|apply Hu|].
      { pose proof (data_pos _ (proj1 Hr)). lia. }
      intros Ei. eapply (fo_ind _ _ _ (ok_file _ _ _ Hok i Hi)); [exact Hbn| |done].
      rewrite <- Ei. done.
  - apply fbyte_same; [intros Hn; by apply (grow_others j), owns_ind| |done]. intros c. by apply grow_others.
Qed.
End data.

(** The block becomes the indirect block of the file. *)
Section indirect.
Context (Hno : ind (A i) = 0) (Hind : ind d = b).
Context (Hnth : ∀ bn, 0 ≤ bn < MAXFILE → nth_addr V' d bn = nth_addr V (A i) bn).

Lemma grow_ind_owns c : owns V' d c ↔ owns V (A i) c ∨ c = b.
Proof.
  pose proof (data_pos b ltac:(lia)). unfold owns. rewrite Hind, Hno. split.
  - intros [Hc [?|(bn & Hbn & E)]]; [by right|]. rewrite Hnth in E by done. left. split; [done|eauto].
  - intros [[Hc [?|(bn & Hbn & E)]]| ->]; [done| |split; [lia|by left]].
    split; [done|]. right. exists bn. by rewrite Hnth.
Qed.

Lemma grow_ind_ok : fs_ok sb V' (upd A i d).
Proof.
  apply grow_ok; [|apply grow_ind_owns].
  pose proof (ok_file _ _ _ Hok i Hi) as [_ Hd Hj Hd' Hs Ha]. pose proof (not_owned i Hi) as Hn.
  split; rewrite ?Hsz; try done.
  - intros c [Hc| ->]%grow_ind_owns; [by apply Hd|done].
  - intros bn bn' Hbn Hbn'. rewrite !Hnth by done. by apply Hj.
  - intros bn Hbn. rewrite Hnth, Hind by done. intros Hb0 E. apply Hn. rewrite <- E. apply owns_nth; [done|lia].
  - intros bn Hbn Hlt. rewrite Hnth by (sizes; lia). by apply Ha.
Qed.

Lemma grow_ind_bytes j k :
  live sb A j → 0 ≤ k < MAXFILE * BSIZE → fbyte V' (upd A i d j) k = fbyte V (A j) k.
Proof.
  intros Hj Hk. unfold upd. case_b.
  - subst j. unfold fbyte. assert (Hbn : 0 ≤ k / BSIZE < MAXFILE) by (sizes; dlia).
    cbv zeta. rewrite Hnth by done. case_b; [done|]. f_equal. pose proof (owns_nth V (A i) _ Hbn E) as Ho.
    destruct (owned_used _ _ _ Hok i _ Hi Ho) as [Hr Hu]. pose proof (data_pos _ (proj1 Hr)).
    apply Hsame; [done|apply Hu; lia|lia].
  - apply fbyte_same; [intros Hn; by apply (grow_others j), owns_ind| |done]. intros c. by apply grow_others.
Qed.
End indirect.
End grow.

(** ** Writing a block of a file *)

Section write.
Context (U : Z → Prop) (sb : superblock) (V : Z → block) (A : Z → dinode) (i bn : Z) (v : block).
Context (Hgeo : fs_geo U sb) (Hok : fs_ok sb V A) (Hi : live sb A i).
Context (Hbn : 0 ≤ bn < MAXFILE) (Hnz : nth_addr V (A i) bn ≠ 0).
Let a : Z := nth_addr V (A i) bn.

Lemma write_data : dstart sb ≤ a < sb_size sb.
Proof. by apply (fo_data _ _ _ (ok_file _ _ _ Hok i Hi)), owns_nth. Qed.

Lemma write_not_ind j : live sb A j → ind (A j) ≠ 0 → ind (A j) ≠ a.
Proof.
  intros Hj Hn E. assert (j = i) as ->.
  { apply (ok_disj _ _ _ Hok j i a); try done; [rewrite <- E; by apply owns_ind|by apply owns_nth]. }
  by eapply (fo_ind _ _ _ (ok_file _ _ _ Hok i Hi) bn).
Qed.

Lemma write_nth j n : live sb A j → nth_addr (upd V a v) (A j) n = nth_addr V (A j) n.
Proof. intros Hj. apply nth_addr_ext. intros Hn. apply upd_ne. by apply write_not_ind. Qed.

Lemma write_owns j b : live sb A j → owns (upd V a v) (A j) b ↔ owns V (A j) b.
Proof. intros Hj. apply owns_same. intros Hn. apply upd_ne. by apply write_not_ind. Qed.

Lemma write_ok : fs_ok sb (upd V a v) A.
Proof.
  pose proof (geo_order _ _ Hgeo). pose proof write_data. split.
  - intros j Hj. eapply file_ok_same; [|by apply (ok_file _ _ _ Hok)].
    intros Hn. apply upd_ne. by apply write_not_ind.
  - intros j j' b Hj Hj' Ho Ho'. apply write_owns in Ho, Ho'; try done. by apply (ok_disj _ _ _ Hok j j' b).
  - intros b Hb. rewrite (used_upd _ _ Hgeo) by lia. rewrite (ok_used _ _ _ Hok) by done.
    split; (intros [?|(j & Hj & Ho)]; [by left|right; exists j; split; [done|]]); by apply write_owns.
Qed.

Lemma write_bytes j k :
  live sb A j → 0 ≤ k < MAXFILE * BSIZE →
  fbyte (upd V a v) (A j) k =
    if (j =? i) && (k / BSIZE =? bn) then nth (Z.to_nat (k mod BSIZE)) v 0 else fbyte V (A j) k.
Proof.
  intros Hj Hk. assert (Hkn : 0 ≤ k / BSIZE < MAXFILE) by (sizes; dlia).
  unfold fbyte. cbv zeta. rewrite write_nth by done. destruct ((j =? i) && (k / BSIZE =? bn)) eqn:E.
  - zbool. subst j. rewrite H0. fold a. by rewrite (proj2 (Z.eqb_neq a 0) Hnz), upd_eq.
  - case_b; [done|]. rewrite upd_ne; [done|]. intros Ea.
    assert (j = i) as ->.
    { apply (ok_disj _ _ _ Hok j i a); try done; [rewrite <- Ea; by apply owns_nth|by apply owns_nth]. }
    rewrite Z.eqb_refl in E. simpl in E. zbool. apply E.
    by apply (fo_inj _ _ _ (ok_file _ _ _ Hok i Hi)).
Qed.
End write.

(** ** Writing an inode *)

Section update.
Context (U : Z → Prop) (sb : superblock) (V : Z → block) (i : Z) (d : dinode).
Context (Hgeo : fs_geo U sb) (HV : ∀ n, whole (V n)) (Hi : 0 ≤ i < sb_ninodes sb) (Hd : dinode_fits d).

Definition put_inode : Z → block :=
  upd V (IBLOCK i sb) (store_dinode (V (IBLOCK i sb)) (Z.to_nat (i mod IPB)) d).

Lemma dinode_at_put j : 0 ≤ j → dinode_at sb put_inode j = if j =? i then d else dinode_at sb V j.
Proof.
  intros Hj. unfold dinode_at, put_inode, upd. destruct (HV (IBLOCK i sb)) as [Hl _].
  destruct (j =? i) eqn:E; zbool.
  - subst j. rewrite Z.eqb_refl. apply load_store_dinode; [done|sizes; dlia|done].
  - case_b; [|done]. rewrite load_store_dinode_ne; [by rewrite E0|done|sizes; dlia|done|].
    unfold IBLOCK in E0. sizes. intros E1. apply E. dlia.
Qed.

Lemma put_inode_data b : dstart sb ≤ b → put_inode b = V b.
Proof.
  intros Hb. apply upd_ne. pose proof (inode_block_range _ _ Hgeo i Hi). pose proof (geo_order _ _ Hgeo). lia.
Qed.

Lemma put_inode_ok A : fs_ok sb V A → fs_ok sb put_inode A.
Proof.
  intros Hok. pose proof (inode_block_range _ _ Hgeo i Hi) as Hr. pose proof (geo_order _ _ Hgeo).
  assert (Hs : ∀ j, live sb A j → ind (A j) ≠ 0 → put_inode (ind (A j)) = V (ind (A j))).
  { intros j Hj Hn. apply put_inode_data. by apply (owned_used _ _ _ Hok j _ Hj), owns_ind. }
  assert (Hown : ∀ j b, live sb A j → owns put_inode (A j) b ↔ owns V (A j) b).
  { intros j b Hj. by apply owns_same, Hs. }
  split.
  - intros j Hj. eapply file_ok_same; [by apply Hs|]. by apply (ok_file _ _ _ Hok).
  - intros j j' b Hj Hj' Ho%Hown Ho'%Hown; try done. by apply (ok_disj _ _ _ Hok j j' b).
  - intros b Hb. unfold put_inode. rewrite (used_upd _ _ Hgeo) by lia. rewrite (ok_used _ _ _ Hok) by done.
    fold put_inode.
    split; (intros [?|(j & Hj & Ho)]; [by left|right; exists j; split; [done|]]); by apply Hown.
Qed.

Lemma put_inode_bytes A j k :
  fs_ok sb V A → live sb A j → 0 ≤ k < MAXFILE * BSIZE → fbyte put_inode (A j) k = fbyte V (A j) k.
Proof.
  intros Hok Hj Hk. apply fbyte_same; [| |done].
  - intros Hn. apply put_inode_data. by apply (owned_used _ _ _ Hok j _ Hj), owns_ind.
  - intros b Hb. apply put_inode_data. by apply (owned_used _ _ _ Hok j _ Hj).
Qed.
End update.

(** The inode blocks are not data or bitmap blocks. *)
Lemma dinode_at_upd U sb V n v j :
  fs_geo U sb → 0 ≤ j < sb_ninodes sb → sb_bmapstart sb ≤ n → dinode_at sb (upd V n v) j = dinode_at sb V j.
Proof.
  intros Hgeo Hj Hn. unfold dinode_at. rewrite upd_ne; [done|].
  pose proof (inode_block_range _ _ Hgeo j Hj). lia.
Qed.

(** A new size, with the blocks below it there. *)
Lemma resize_ok sb V A i n :
  fs_ok sb V A → live sb A i → 0 ≤ n ≤ MAXFILE * BSIZE →
  (∀ bn, 0 ≤ bn → bn * BSIZE < n → nth_addr V (A i) bn ≠ 0) →
  fs_ok sb V (upd A i (with_size n (A i))).
Proof.
  intros Hok Hi Hn Ha. pose proof (ok_file _ _ _ Hok i Hi) as [Hf Hd Hj Hd' _ _].
  apply (fs_ok_change sb V A Hok); try done.
  - split; cbn [di_size with_size]; try done; [|lia]. destruct Hf. split; try done. sizes. simpl. lia.
  - intros j b Hj' Hji Ho Ho'. apply Hji. by apply (ok_disj _ _ _ Hok j i b).
  - intros b Hb. rewrite (ok_used _ _ _ Hok b Hb). split.
    + intros [?|(j & Hj' & Ho)]; [by left|right]. destruct (decide (j = i)) as [->|]; [by left|right; eauto].
    + intros [?|[Ho|(j & _ & ? & ?)]]; [by left|right; by exists i|right; eauto].
Qed.

(** The inode table in memory is the one on disk. *)
Definition synced (sb : superblock) (V : Z → block) (A : Z → dinode) : Prop :=
  ∀ j, 0 ≤ j < sb_ninodes sb → dinode_at sb V j = A j.

Lemma fbytes_lookup V d off n j :
  0 ≤ j < n → fbytes V d off n !! Z.to_nat j = Some (fbyte V d (off + j)).
Proof.
  intros Hj. unfold fbytes. rewrite list_lookup_fmap, lookup_seqZ_lt by lia.
  simpl. do 2 f_equal. lia.
Qed.

Lemma length_fbytes V d off n : length (fbytes V d off n) = Z.to_nat n.
Proof. unfold fbytes. by rewrite length_fmap, length_seqZ. Qed.

(** ** Disks that agree from the inode blocks on *)

Section agree.
Context (U : Z → Prop) (sb : superblock) (V V' : Z → block) (A : Z → dinode).
Context (Hgeo : fs_geo U sb) (Hag : ∀ n, sb_inodestart sb ≤ n < sb_size sb → V' n = V n).

Lemma agree_used b : 0 ≤ b < sb_size sb → used sb V' b = used sb V b.
Proof.
  intros Hb. unfold used. rewrite Hag; [done|]. pose proof (geo_order _ _ Hgeo).
  destruct (bblock_range _ _ Hgeo b Hb). pose proof (fg_data _ _ Hgeo). lia.
Qed.

Lemma agree_owned (Hok : fs_ok sb V A) j b : live sb A j → owns V (A j) b → V' b = V b.
Proof.
  intros Hj Ho. apply Hag. pose proof (geo_order _ _ Hgeo).
  pose proof (proj1 (owned_used _ _ _ Hok j b Hj Ho)). lia.
Qed.

Lemma agree_ok : fs_ok sb V A → fs_ok sb V' A.
Proof.
  intros Hok.
  assert (Hi : ∀ j, live sb A j → ind (A j) ≠ 0 → V' (ind (A j)) = V (ind (A j))).
  { intros j Hj Hn. by apply (agree_owned Hok j), owns_ind. }
  assert (Ho : ∀ j b, live sb A j → owns V' (A j) b ↔ owns V (A j) b).
  { intros j b Hj. by apply owns_same, Hi. }
  split.
  - intros j Hj. eapply file_ok_same; [by apply Hi|]. by apply (ok_file _ _ _ Hok).
  - intros j j' b Hj Hj' H1%Ho H2%Ho; try done. by apply (ok_disj _ _ _ Hok j j' b).
  - intros b Hb. rewrite agree_used, (ok_used _ _ _ Hok b Hb) by done.
    split; (intros [?|(j & Hj & Hb')]; [by left|right; exists j; split; [done|]]); by apply Ho.
Qed.

Lemma agree_synced : synced sb V A → synced sb V' A.
Proof.
  intros Hs j Hj. rewrite <- (Hs j Hj). unfold dinode_at. f_equal. apply Hag.
  pose proof (inode_block_range _ _ Hgeo j Hj). pose proof (geo_order _ _ Hgeo). pose proof (fg_data _ _ Hgeo). lia.
Qed.

Lemma agree_contents j : fs_ok sb V A → live sb A j → contents V' (A j) = contents V (A j).
Proof.
  intros Hok Hj. unfold contents, fbytes. apply list_fmap_ext. intros q k Hk. apply lookup_seqZ in Hk.
  pose proof (ok_file _ _ _ Hok j Hj) as [_ _ _ _ Hs _].
  apply fbyte_same; [intros Hn; by apply (agree_owned Hok j), owns_ind|by intros b; apply (agree_owned Hok j)|lia].
Qed.
End agree.
