(* ===== verification/FsFile.v ===== *)
(** * Files: [bmap], [readi], [writei]

    The routines of [src/fs.c] that reach the contents of a file, over a consistent
    file system ([fs_ok]).  [readi] returns the bytes of the file and changes nothing;
    [writei] replaces the bytes it is given, extends the file, and leaves every other
    file as it was and the file system consistent.

    The log space of a call is counted by [spend]: the blocks of the log, the bitmap,
    the inode block and the indirect block of the file; each block of the file that
    is written adds at most one. *)
From S2P Require Import Prelude Bytes Bio Log Disk Fs FsAlloc FsModel.

(** ** Counting free blocks *)

Lemma filter_agree {A} (P P' : A → Prop) `{∀ x, Decision (P x), ∀ x, Decision (P' x)} (l : list A) :
  (∀ x, x ∈ l → P x ↔ P' x) → filter P l = filter P' l.
Proof.
  induction l as [|z l IH]; intros Hl; [done|]. rewrite !filter_cons.
  rewrite IH by (intros w Hw; apply Hl; by right). pose proof (Hl z ltac:(left)).
  destruct (decide (P z)), (decide (P' z)); naive_solver.
Qed.

Lemma filter_remove {A} (P P' : A → Prop) `{∀ x, Decision (P x), ∀ x, Decision (P' x)} (l : list A) b :
  NoDup l → b ∈ l → P b → (∀ x, x ∈ l → P' x ↔ P x ∧ x ≠ b) →
  length (filter P l) = S (length (filter P' l)).
Proof.
  induction l as [|y l IH]; intros Hnd Hb HP HP'; [by apply not_elem_of_nil in Hb|].
  apply NoDup_cons in Hnd as [Hy Hnd]. rewrite !filter_cons.
  pose proof (HP' y ltac:(left)) as Hy'. apply elem_of_cons in Hb as [<-|Hb].
  - rewrite decide_True, decide_False by naive_solver. simpl. do 2 f_equal. apply filter_agree.
    intros z Hz. rewrite HP' by (by right). split; [|tauto]. intros ?. split; [done|]. by intros ->.
  - assert (y ≠ b) by congruence.
    assert (IH' : length (filter P l) = S (length (filter P' l))).
    { apply IH; try done. intros w Hw. apply HP'. by right. }
    destruct (decide (P y)), (decide (P' y)); simpl; naive_solver lia.
Qed.

Definition nfree (sb : superblock) (V : Z → block) : nat :=
  length (filter (λ b, used sb V b = false) (seqZ 0 (sb_size sb))).

Lemma nfree_pos sb V : (0 < nfree sb V)%nat → ∃ c, 0 ≤ c < sb_size sb ∧ used sb V c = false.
Proof.
  unfold nfree. destruct (filter _ _) as [|c f] eqn:E; simpl; [lia|]. intros _. exists c.
  assert (Hc : c ∈ filter (λ b, used sb V b = false) (seqZ 0 (sb_size sb))) by (rewrite E; left).
  apply list_elem_of_filter in Hc as [Hc Hr]. apply elem_of_seqZ in Hr. split; [lia|done].
Qed.

Lemma nfree_take sb V V' b :
  0 ≤ b < sb_size sb → used sb V b = false →
  (∀ c, 0 ≤ c < sb_size sb → used sb V' c = (c =? b) || used sb V c) → nfree sb V = S (nfree sb V').
Proof.
  intros Hb Hf Hu. apply (filter_remove _ _ _ b); [apply NoDup_seqZ|apply elem_of_seqZ; lia|done|].
  intros c Hc%elem_of_seqZ. rewrite Hu, orb_false_iff, Z.eqb_neq by lia. tauto.
Qed.

Lemma nfree_same sb V V' :
  (∀ c, 0 ≤ c < sb_size sb → used sb V' c = used sb V c) → nfree sb V' = nfree sb V.
Proof.
  intros Hu. unfold nfree. f_equal. apply filter_agree. intros c Hc%elem_of_seqZ. by rewrite Hu by lia.
Qed.

(** ** Growing a file *)

Lemma nth_insert (l : list Z) (n m : nat) (a : Z) :
  (m < length l)%nat → nth n (<[m := a]> l) 0 = if decide (n = m) then a else nth n l 0.
Proof.
  intros Hm. rewrite !nth_lookup. case_decide as E; [subst; by rewrite list_lookup_insert_eq|].
  by rewrite list_lookup_insert_ne by congruence.
Qed.

Lemma load_zeros k m off : load k (replicate m 0) off = 0.
Proof.
  unfold load. rewrite drop_replicate, take_replicate. generalize (k `min` (m - off))%nat as n.
  induction n as [|n IH]; [done|]. simpl. by rewrite IH.
Qed.

Section file.
Context {D X : Type} {ops : Disk D} {laws : DiskOk D} {swtch : Devices X}.
Context (sb : superblock) (p : Z) (x : X) (Hgeo : fs_geo usable sb).

Section alloc.
Context (V : Z → block) (b : Z) (HV : ∀ n, whole (V n)) (Hb : dstart sb ≤ b < sb_size sb).

Lemma alloc_used c : 0 ≤ c < sb_size sb → used sb (alloc sb V b) c = (c =? b) || used sb V c.
Proof.
  intros Hc. pose proof (geo_order _ _ Hgeo). unfold alloc. rewrite (used_upd _ _ Hgeo) by lia.
  apply used_mark; [done|lia|lia].
Qed.

Lemma alloc_other c : dstart sb ≤ c → c ≠ b → alloc sb V b c = V c.
Proof.
  intros Hc Hne. pose proof (geo_order _ _ Hgeo).
  unfold alloc, mark. rewrite upd_ne, upd_ne; [done| |done].
  pose proof (bblock_range _ _ Hgeo b ltac:(lia)). lia.
Qed.

Lemma alloc_new : alloc sb V b b = replicate 512 0.
Proof. apply upd_eq. Qed.

Lemma alloc_table j : 0 ≤ j < sb_ninodes sb → dinode_at sb (alloc sb V b) j = dinode_at sb V j.
Proof.
  intros Hj. pose proof (geo_order _ _ Hgeo). pose proof (bblock_range _ _ Hgeo b ltac:(lia)).
  unfold alloc, mark. rewrite !(dinode_at_upd usable) by (first [done|lia]). done.
Qed.
End alloc.

(** What calls of [balloc] for inode [i] leave as it was. *)
Record grown (i : Z) (V : Z → block) (A : Z → dinode) (V' : Z → block) (A' : Z → dinode) : Prop := {
  gn_ok : fs_ok sb V' A';
  gn_others j : j ≠ i → A' j = A j;
  gn_meta : A' i = with_addrs (di_addrs (A' i)) (A i);
  gn_bytes j k : live sb A j → 0 ≤ k < MAXFILE * BSIZE → fbyte V' (A' j) k = fbyte V (A j) k;
  gn_table j : 0 ≤ j < sb_ninodes sb → dinode_at sb V' j = dinode_at sb V j
}.

Lemma grown_refl i V A : fs_ok sb V A → grown i V A V A.
Proof. intros Hok. split; try done. by destruct (A i). Qed.

Lemma grown_live i V A V' A' j : grown i V A V' A' → live sb A' j ↔ live sb A j.
Proof.
  intros G. unfold live. destruct (decide (j = i)) as [->|Hj].
  - by rewrite (gn_meta _ _ _ _ _ G).
  - by rewrite (gn_others _ _ _ _ _ G).
Qed.

Lemma grown_trans i V A V1 A1 V2 A2 : grown i V A V1 A1 → grown i V1 A1 V2 A2 → grown i V A V2 A2.
Proof.
  intros G1 G2. pose proof G1 as [? Ho1 Hm1 Hb1 Ht1]. pose proof G2 as [? Ho2 Hm2 Hb2 Ht2]. split; try done.
  - intros j Hj. by rewrite Ho2, Ho1.
  - rewrite Hm2, Hm1. by destruct (A i).
  - intros j k Hj Hk. rewrite Hb2, Hb1; try done. by apply (grown_live _ _ _ _ _ _ G1).
  - intros j Hj. by rewrite Ht2, Ht1.
Qed.

(** Blocks still to be allocated for the indirect block. *)
Definition demand (d : dinode) : nat := if ind d =? 0 then 1 else 0.

(** The log space a call needs for inode [i] with the blocks [L] in the log. *)
Definition fixed (i : Z) (d : dinode) : gset Z :=
  bmaps sb ∪ {[IBLOCK i sb]} ∪ (if ind d =? 0 then ∅ else {[ind d]}).
Definition spend (L : gset Z) (i : Z) (d : dinode) : nat := card (L ∪ fixed i d) + demand d.

Lemma card_mono (L L' : gset Z) : L ⊆ L' → (card L ≤ card L')%nat.
Proof. apply subseteq_size. Qed.

Lemma card_add (L : gset Z) b : (card ({[b]} ∪ L) ≤ S (card L))%nat.
Proof.
  unfold card. destruct (decide (b ∈ L)).
  - replace ({[b]} ∪ L) with L by set_solver. lia.
  - rewrite size_union, size_singleton by set_solver. lia.
Qed.

Lemma spend_card L i d : (card (bmaps sb ∪ L) ≤ spend L i d)%nat ∧ (card L ≤ spend L i d)%nat.
Proof.
  unfold spend, fixed. split; (etrans; [|apply Nat.le_add_r]); apply card_mono; set_solver.
Qed.

(** The new block of inode [i], with the addresses changed to hold it. *)
Section grow_inode.
Context (V : Z → block) (A : Z → dinode) (i b : Z).
Context (HV : ∀ n, whole (V n)) (Hok : fs_ok sb V A) (Hi : live sb A i).
Context (Hb : dstart sb ≤ b < sb_size sb) (Hfree : used sb V b = false).

Lemma b_word : 0 < b < 2 ^ 32.
Proof. pose proof (geo_order _ _ Hgeo). pose proof (fg_size _ _ Hgeo). lia. Qed.

Lemma ind_not_b : ind (A i) ≠ b.
Proof.
  intros E. pose proof b_word. apply (not_owned usable sb V A b Hgeo Hok Hb Hfree i Hi).
  rewrite <- E. apply owns_ind. lia.
Qed.

Lemma alloc_ind : ind (A i) ≠ 0 → alloc sb V b (ind (A i)) = V (ind (A i)).
Proof.
  intros Hn. apply alloc_other; [done| |apply ind_not_b].
  by apply (owned_used _ _ _ Hok i _ Hi), owns_ind.
Qed.

Lemma fits_insert (n : nat) : dinode_fits (with_addrs (<[n := b]> (di_addrs (A i))) (A i)).
Proof.
  pose proof b_word. destruct (fo_fits _ _ _ (ok_file _ _ _ Hok i Hi)).
  split; simpl; rewrite ?length_insert; try done. apply Forall_insert; [done|lia].
Qed.

Lemma grown_direct bn :
  0 ≤ bn < NDIRECT → nth_addr V (A i) bn = 0 →
  let d := with_addrs (<[Z.to_nat bn := b]> (di_addrs (A i))) (A i) in
  grown i V A (alloc sb V b) (upd A i d) ∧ nth_addr (alloc sb V b) d bn = b ∧ ind d = ind (A i) ∧
  ∀ n, 0 ≤ n < MAXFILE → n ≠ bn → nth_addr (alloc sb V b) d n = nth_addr V (A i) n.
Proof.
  intros Hbn Hhole d. pose proof (df_len _ (fo_fits _ _ _ (ok_file _ _ _ Hok i Hi))) as Hl. sizes.
  assert (Hind : ind d = ind (A i)).
  { unfold ind, d. simpl. rewrite nth_insert, decide_False by lia. done. }
  assert (Hnth : ∀ n, 0 ≤ n < MAXFILE →
    nth_addr (alloc sb V b) d n = if n =? bn then b else nth_addr V (A i) n).
  { intros n Hn. unfold nth_addr at 1. rewrite Hind. sizes. unfold d. cbn [di_addrs with_addrs].
    rewrite nth_insert by lia. unfold nth_addr. sizes. destruct (n <? 12) eqn:E; zbool.
    - destruct (n =? bn) eqn:E'; zbool; [by rewrite decide_True by lia|by rewrite decide_False by lia].
    - rewrite (proj2 (Z.eqb_neq n bn)) by lia. case_b; [done|]. by rewrite alloc_ind. }
  split_and!; [|rewrite Hnth, Z.eqb_refl by (sizes; lia); done|done|].
  - split.
    + apply (grow_data_ok usable sb V (alloc sb V b) A i b d Hgeo Hok Hi Hb Hfree (fits_insert _) eq_refl eq_refl)
        with (bn0 := bn); try (sizes; done || lia).
      * intros c. by apply alloc_used.
      * intros c Hc Hu _. apply alloc_other; [done|lia|congruence].
    + intros j Hj. by apply upd_ne.
    + by rewrite upd_eq.
    + intros j k Hj Hk.
      apply (grow_data_bytes usable sb V (alloc sb V b) A i b d Hgeo Hok Hi Hb Hfree) with (bn0 := bn);
        try (sizes; done || lia); [|apply alloc_new].
      intros c Hc Hu _. apply alloc_other; [done|lia|congruence].
    + intros j. by apply alloc_table.
  - intros n Hn Hne. rewrite Hnth, (proj2 (Z.eqb_neq n bn)) by done. done.
Qed.

Lemma grown_indirect :
  ind (A i) = 0 →
  let d := with_addrs (<[12%nat := b]> (di_addrs (A i))) (A i) in
  grown i V A (alloc sb V b) (upd A i d) ∧ ind d = b ∧
  ∀ n, 0 ≤ n < MAXFILE → nth_addr (alloc sb V b) d n = nth_addr V (A i) n.
Proof.
  intros Hno d. pose proof (df_len _ (fo_fits _ _ _ (ok_file _ _ _ Hok i Hi))) as Hl.
  pose proof b_word.
  assert (Hind : ind d = b).
  { unfold ind, d. cbn [di_addrs with_addrs]. rewrite nth_insert, decide_True by lia. done. }
  assert (Hnth : ∀ n, 0 ≤ n < MAXFILE → nth_addr (alloc sb V b) d n = nth_addr V (A i) n).
  { intros n Hn. unfold nth_addr. rewrite Hind, Hno. sizes. unfold d. cbn [di_addrs with_addrs].
    rewrite nth_insert by lia. destruct (n <? 12) eqn:E; zbool; [by rewrite decide_False by lia|].
    rewrite (proj2 (Z.eqb_neq b 0)), alloc_new by lia. apply load_zeros. }
  split_and!; [|done|done]. split.
  - apply (grow_ind_ok usable sb V (alloc sb V b) A i b d Hgeo Hok Hi Hb Hfree (fits_insert _) eq_refl eq_refl);
      try done.
    + intros c. by apply alloc_used.
    + intros c Hc Hu _. apply alloc_other; [done|lia|congruence].
  - intros j Hj. by apply upd_ne.
  - by rewrite upd_eq.
  - intros j k Hj Hk.
    apply (grow_ind_bytes usable sb V (alloc sb V b) A i b d Hgeo Hok Hi); try done.
    intros c Hc Hu _. apply alloc_other; [done|lia|congruence].
  - intros j. by apply alloc_table.
Qed.

(** The indirect block with entry [bn] set. *)
Definition put_entry (bn : Z) : Z → block :=
  let V1 := alloc sb V b in
  upd V1 (ind (A i)) (store 4 (V (ind (A i))) (Z.to_nat (4 * (bn - NDIRECT))) b).

Lemma put_entry_used bn c :
  ind (A i) ≠ 0 → 0 ≤ c < sb_size sb → used sb (put_entry bn) c = (c =? b) || used sb V c.
Proof.
  intros Hn Hc. unfold put_entry. rewrite (used_upd _ _ Hgeo) by
    (first [done|pose proof (proj1 (owned_used _ _ _ Hok i _ Hi (owns_ind V _ Hn))); lia]).
  by apply alloc_used.
Qed.

Lemma grown_entry bn :
  NDIRECT ≤ bn < MAXFILE → ind (A i) ≠ 0 → nth_addr V (A i) bn = 0 →
  grown i V A (put_entry bn) A ∧ nth_addr (put_entry bn) (A i) bn = b ∧
  ∀ n, 0 ≤ n < MAXFILE → n ≠ bn → nth_addr (put_entry bn) (A i) n = nth_addr V (A i) n.
Proof.
  intros Hbn Hn Hhole. pose proof b_word. destruct (HV (ind (A i))) as [Hl _].
  pose proof (owned_used _ _ _ Hok i _ Hi (owns_ind V _ Hn)) as [Hr _].
  assert (Hnth : ∀ n, 0 ≤ n < MAXFILE →
    nth_addr (put_entry bn) (A i) n = if n =? bn then b else nth_addr V (A i) n).
  { intros n Hn'. unfold nth_addr. sizes. rewrite (proj2 (Z.eqb_neq _ _) Hn).
    destruct (n <? 12) eqn:E; zbool; [by rewrite (proj2 (Z.eqb_neq n bn)) by lia|].
    unfold put_entry. rewrite upd_eq. sizes. destruct (n =? bn) eqn:E'; zbool.
    - subst n. apply load_store_eq; [lia|]. change (256 ^ Z.of_nat 4) with (2 ^ 32). lia.
    - apply load_store_ne; lia. }
  assert (Hsame : ∀ c, dstart sb ≤ c < sb_size sb → used sb V c = true → c ≠ ind (A i) → put_entry bn c = V c).
  { intros c Hc Hu Hne. unfold put_entry. rewrite upd_ne by done. apply alloc_other; [done|lia|congruence]. }
  pose proof (fo_fits _ _ _ (ok_file _ _ _ Hok i Hi)) as Hfits.
  assert (Heq : ∀ j, A j = upd A i (A i) j) by (intros j; unfold upd; by case_b; subst).
  assert (Hnew : put_entry bn b = replicate 512 0).
  { unfold put_entry. rewrite upd_ne; [apply alloc_new|]. by apply not_eq_sym, ind_not_b. }
  split_and!; [|rewrite Hnth, Z.eqb_refl by (sizes; lia); done|].
  - split.
    + eapply fs_ok_ext; [|exact Heq].
      apply (grow_data_ok usable sb V (put_entry bn) A i b (A i) Hgeo Hok Hi Hb Hfree Hfits eq_refl eq_refl)
        with (bn0 := bn); try (sizes; done || lia).
      intros c. by apply put_entry_used.
    + done.
    + by destruct (A i).
    + intros j k Hj Hk. rewrite (Heq j) at 1.
      apply (grow_data_bytes usable sb V (put_entry bn) A i b (A i) Hgeo Hok Hi Hb Hfree) with (bn0 := bn);
        try (sizes; done || lia).
    + intros j Hj. unfold put_entry. pose proof (geo_order _ _ Hgeo).
      rewrite (dinode_at_upd usable) by (first [done|lia]). by apply alloc_table.
  - intros n Hn' Hne. rewrite Hnth, (proj2 (Z.eqb_neq n bn)) by done. done.
Qed.
End grow_inode.

(** ** The inode in the cache *)

Local Abbreviation state := (st (D := D) sb p x).

Lemma inode_at_ok d l k ip : l !! k = Some ip → inode_at k (state d l) = Ok ip (state d l).
Proof. intros E. unfold inode_at. simpl. by rewrite E. Qed.

Lemma addr_get_ok d l k ip n :
  l !! k = Some ip → length (di_addrs (i_copy ip)) = 13%nat → 0 ≤ n < 13 →
  addr_get k n (state d l) = Ok (nth (Z.to_nat n) (di_addrs (i_copy ip)) 0) (state d l).
Proof.
  intros E Hl Hn. unfold addr_get. rewrite (bind_ok _ _ _ _ _ (inode_at_ok d l k ip E)).
  unfold arr_get. rewrite (proj2 (Z.leb_le 0 n)), nth_lookup by lia.
  destruct (lookup_lt_is_Some_2 (di_addrs (i_copy ip)) (Z.to_nat n)) as [a ->]; [lia|]. done.
Qed.

Lemma copy_upd_ok d l k ip f :
  l !! k = Some ip → copy_upd k f (state d l) = Ok tt (state d (<[k := with_copy (f (i_copy ip)) ip]> l)).
Proof. intros E. unfold copy_upd, inode_upd. by rewrite (bind_ok _ _ _ _ _ (inode_at_ok d l k ip E)). Qed.

Lemma addr_set_ok d l k ip n a :
  l !! k = Some ip → length (di_addrs (i_copy ip)) = 13%nat → 0 ≤ n < 13 →
  addr_set k n a (state d l) =
  Ok tt (state d (<[k := with_copy (with_addrs (<[Z.to_nat n := a]> (di_addrs (i_copy ip))) (i_copy ip)) ip]> l)).
Proof.
  intros E Hl Hn. unfold addr_set. rewrite (bind_ok _ _ _ _ _ (inode_at_ok d l k ip E)).
  rewrite arr_set_in by lia. by apply copy_upd_ok.
Qed.

(** Entry [k] of the inode cache is [ip], a live inode of the table [A]; no buffer is
    held. *)
Record opened (d : D) (V : Z → block) (L : gset Z) (A : Z → dinode) (l : list inode) (k : nat) (ip : inode)
    : Prop := {
  op_repr : repr d V [] L;
  op_ok : fs_ok sb V A;
  op_at : l !! k = Some ip;
  op_dev : i_dev ip = ROOTDEV;
  op_copy : i_copy ip = A (i_inum ip);
  op_live : live sb A (i_inum ip)
}.

Section opened.
Context (d : D) (V : Z → block) (L : gset Z) (A : Z → dinode) (l : list inode) (k : nat) (ip : inode).
Context (O : opened d V L A l k ip).
Let i : Z := i_inum ip.

Lemma op_whole n : whole (V n).
Proof. eapply repr_whole, (op_repr _ _ _ _ _ _ _ O). Qed.

Lemma op_len : length (di_addrs (i_copy ip)) = 13%nat.
Proof. destruct O as [_ Hok _ _ -> Hl]. apply (fo_fits _ _ _ (ok_file _ _ _ Hok _ Hl)). Qed.

Lemma op_meta : meta_used sb V.
Proof.
  intros b Hb. destruct O as [_ Hok _ _ _ _]. pose proof (fg_data _ _ Hgeo).
  apply (ok_used _ _ _ Hok); [lia|]. left. lia.
Qed.

(** The inode with new addresses. *)
Lemma opened_grown d' V' L' A' :
  grown i V A V' A' → repr d' V' [] L' →
  opened d' V' L' A' (<[k := with_copy (A' i) ip]> l) k (with_copy (A' i) ip).
Proof.
  intros G R. destruct O as [_ Hok Hk Hdev Hc Hl]. split; try done; simpl.
  - apply G.
  - apply list_lookup_insert_eq. by eapply lookup_lt_Some.
  - by apply (grown_live _ _ _ _ _ _ G).
Qed.

Lemma op_slot : <[k := with_copy (A i) ip]> l = l.
Proof.
  destruct O as [_ _ Hk _ Hc _]. apply list_insert_id. rewrite Hk. f_equal.
  unfold i. rewrite <- Hc. by destruct ip.
Qed.

Lemma op_data a : owns V (A i) a → usable a ∧ 0 < a.
Proof.
  intros Ho. destruct O as [_ Hok _ _ _ Hl]. pose proof (geo_order _ _ Hgeo).
  destruct (owned_used _ _ _ Hok i a Hl Ho) as [Hr _]. split; [|lia]. apply (fg_usable _ _ Hgeo). lia.
Qed.

(** A block that is there: nothing changes. *)
Lemma bmap_mapped bn :
  0 ≤ bn < MAXFILE → nth_addr V (A i) bn ≠ 0 →
  ∃ d', bmap k bn (state d l) = Ok (nth_addr V (A i) bn) (state d' l) ∧ opened d' V L A l k ip.
Proof.
  intros Hbn Hnz. pose proof op_len as Hlen. pose proof O as [R Hok Hk Hdev Hc Hl].
  unfold bmap. rewrite (bind_ok _ _ _ _ _ (inode_at_ok d l k ip Hk)).
  unfold nth_addr in *. sizes. destruct (bn <? 12) eqn:E; zbool.
  - exists d. split; [|done]. rewrite (bind_ok _ _ _ _ _ (addr_get_ok d l k ip bn Hk Hlen ltac:(lia))).
    rewrite Hc. fold i. by rewrite (proj2 (Z.eqb_neq _ _) Hnz).
  - rewrite (proj2 (Z.ltb_lt (bn - 12) 128)) by lia.
    rewrite (bind_ok _ _ _ _ _ (addr_get_ok d l k ip 12 Hk Hlen ltac:(lia))). rewrite Hc. fold i.
    change (nth (Z.to_nat 12) (di_addrs (A i)) 0) with (ind (A i)).
    destruct (ind (A i) =? 0) eqn:E'; [done|]. rewrite (bind_ok (mret _) _ _ (ind (A i)) (state d l)) by done.
    rewrite Hdev. zbool. destruct (op_data _ (owns_ind V _ E')) as [Hu _].
    destruct (st_bread sb p x d l V [] L (ind (A i)) R Hu) as (q & d1 & E1 & R1);
      [apply not_elem_of_nil|simpl; lia|].
    destruct (st_brelse sb p x d1 l V [] L q _ R1) as (d2 & E2 & R2).
    exists d2. split; [|done]. rewrite (bind_ok _ _ _ _ _ E1).
    rewrite (bind_ok _ _ _ _ _ (st_get sb p x d1 l V [(q, ind (A i))] L q _ R1 ltac:(left))).
    rewrite (proj2 (Z.eqb_neq _ _) Hnz). rewrite (bind_ok (mret _) _ _ _ (state d1 l) eq_refl).
    by rewrite (bind_ok _ _ _ _ _ E2).
Qed.

Lemma spend_alloc b d' :
  dstart sb ≤ b < sb_size sb → ind d' = ind (A i) →
  (spend ({[b]} ∪ ({[b]} ∪ ({[BBLOCK b sb]} ∪ L))) i d' ≤ spend L i (A i) + 1)%nat.
Proof.
  intros Hb Hd. pose proof (geo_order _ _ Hgeo).
  destruct (bblock_range _ _ Hgeo b ltac:(lia)) as [_ Hin]. unfold spend, fixed, demand. rewrite Hd.
  rewrite <- Nat.add_assoc, (Nat.add_comm _ 1), Nat.add_assoc. apply Nat.add_le_mono_r.
  rewrite Nat.add_comm. etrans; [|apply (card_add _ b)]. apply card_mono. set_solver.
Qed.

(** The hole is one of the direct blocks. *)
Lemma bmap_direct bn :
  0 ≤ bn < NDIRECT → nth_addr V (A i) bn = 0 → (0 < nfree sb V)%nat → (spend L i (A i) < log_cap)%nat →
  ∃ a d' A' L', bmap k bn (state d l) = Ok a (state d' (<[k := with_copy (A' i) ip]> l)) ∧
    repr d' (alloc sb V a) [] L' ∧ grown i V A (alloc sb V a) A' ∧ nth_addr (alloc sb V a) (A' i) bn = a ∧
    dstart sb ≤ a < sb_size sb ∧ used sb V a = false ∧
    (∀ n, 0 ≤ n < MAXFILE → n ≠ bn → nth_addr (alloc sb V a) (A' i) n = nth_addr V (A i) n) ∧
    (spend ({[a]} ∪ L') i (A' i) ≤ spend L i (A i) + 1)%nat ∧ demand (A' i) = demand (A i).
Proof.
  intros Hbn Hhole Hfree Hcap. pose proof op_len as Hlen. pose proof O as [R Hok Hk Hdev Hc Hl].
  destruct (balloc_ok sb p x Hgeo d l V [] L R) as (a & d' & E & Ha & Hu & R');
    [simpl; lia|apply op_meta|by intros ? ?%not_elem_of_nil| |by apply nfree_pos|].
  { destruct (spend_card L i (A i)). lia. }
  destruct (grown_direct V A i a op_whole Hok Hl Ha Hu bn Hbn Hhole) as (G & Hn & Hi & Hoth).
  exists a, d', (upd A i (with_addrs (<[Z.to_nat bn:=a]> (di_addrs (A i))) (A i))). rewrite upd_eq.
  eexists. split_and!; try (done || lia).
  - unfold bmap. rewrite (bind_ok _ _ _ _ _ (inode_at_ok d l k ip Hk)). sizes.
    rewrite (proj2 (Z.ltb_lt bn 12)) by lia.
    rewrite (bind_ok _ _ _ _ _ (addr_get_ok d l k ip bn Hk Hlen ltac:(lia))).
    assert (Hz : nth (Z.to_nat bn) (di_addrs (i_copy ip)) 0 = 0).
    { rewrite Hc. unfold nth_addr in Hhole. sizes. by rewrite (proj2 (Z.ltb_lt bn 12)) in Hhole by lia. }
    rewrite Hz, Hdev, Z.eqb_refl, (bind_ok _ _ _ _ _ E).
    rewrite (bind_ok _ _ _ _ _ (addr_set_ok d' l k ip bn a Hk Hlen ltac:(lia))). by rewrite Hc.
  - by apply spend_alloc.
  - unfold demand. by rewrite Hi.
Qed.

(** The first half of the indirect case: the indirect block. *)
Definition get_indirect : cm (fs D X) Z :=
  addr ← addr_get k NDIRECT;
  if addr =? 0 then a ← balloc ROOTDEV; addr_set k NDIRECT a ;; mret a else mret addr.

Lemma get_indirect_ok :
  (demand (A i) ≤ nfree sb V)%nat → (spend L i (A i) < log_cap)%nat →
  ∃ d' V' A' L', get_indirect (state d l) = Ok (ind (A' i)) (state d' (<[k := with_copy (A' i) ip]> l)) ∧
    repr d' V' [] L' ∧ grown i V A V' A' ∧ ind (A' i) ≠ 0 ∧
    (∀ n, 0 ≤ n < MAXFILE → nth_addr V' (A' i) n = nth_addr V (A i) n) ∧
    (spend L' i (A' i) ≤ spend L i (A i))%nat ∧ (nfree sb V' + demand (A i) = nfree sb V)%nat.
Proof.
  intros Hfree Hcap. pose proof op_len as Hlen. pose proof O as [R Hok Hk Hdev Hc Hl].
  unfold get_indirect. sizes.
  rewrite (bind_ok _ _ _ _ _ (addr_get_ok d l k ip 12 Hk Hlen ltac:(lia))). rewrite Hc. fold i.
  change (nth (Z.to_nat 12) (di_addrs (A i)) 0) with (ind (A i)).
  unfold demand in *. destruct (ind (A i) =? 0) eqn:E0; zbool.
  - destruct (balloc_ok sb p x Hgeo d l V [] L R) as (a & d' & E & Ha & Hu & R');
      [simpl; lia|apply op_meta|by intros ? ?%not_elem_of_nil| |by apply nfree_pos|].
    { destruct (spend_card L i (A i)). lia. }
    destruct (grown_indirect V A i a op_whole Hok Hl Ha Hu E0) as (G & Hi & Hoth).
    pose proof (geo_order _ _ Hgeo). destruct (bblock_range _ _ Hgeo a ltac:(lia)) as [_ Hin].
    exists d', (alloc sb V a), (upd A i (with_addrs (<[12%nat:=a]> (di_addrs (A i))) (A i))). rewrite upd_eq, Hi.
    eexists. split_and!; try done.
    + rewrite (bind_ok _ _ _ _ _ E).
      rewrite (bind_ok _ _ _ _ _ (addr_set_ok d' l k ip 12 a Hk Hlen ltac:(lia))). by rewrite Hc.
    + lia.
    + unfold spend, fixed, demand. rewrite Hi, (proj2 (Z.eqb_neq a 0)), E0 by lia. simpl.
      rewrite Nat.add_0_r, Nat.add_comm. etrans; [|apply (card_add _ a)]. apply card_mono. set_solver.
    + rewrite (nfree_take sb V (alloc sb V a) a); [lia|lia|done|].
      intros c. apply alloc_used; [apply op_whole|done].
  - exists d, V, A, L. rewrite op_slot. split_and!; try (done || lia); by apply grown_refl.
Qed.

(** The second half: entry [bn] of the indirect block [addr]. *)
Definition get_entry (addr bn : Z) : cm (fs D X) Z :=
  bp ← on_disk (d_bread ROOTDEV addr);
  v ← on_disk (d_get bp);
  let j := Z.to_nat (4 * bn) in
  let addr := load 4 v j in
  addr ← (if addr =? 0 then
            a ← balloc ROOTDEV;
            v ← on_disk (d_get bp);
            on_disk (d_set bp (store 4 v j a)) ;;
            on_disk (d_log_write bp) ;;
            mret a
          else mret addr);
  on_disk (d_brelse bp) ;;
  mret addr.

Lemma bmap_split bn :
  NDIRECT ≤ bn < MAXFILE →
  bmap k bn (state d l) = (addr ← get_indirect; get_entry addr (bn - NDIRECT)) (state d l).
Proof.
  intros Hbn. pose proof O as [R Hok Hk Hdev Hc Hl]. unfold bmap.
  rewrite (bind_ok _ _ _ _ _ (inode_at_ok d l k ip Hk)), Hdev. sizes.
  rewrite (proj2 (Z.ltb_ge bn 12)), (proj2 (Z.ltb_lt (bn - 12) 128)) by lia.
  unfold get_indirect, mbind, cm_bind. sizes. by destruct (addr_get k 12 (state d l)).
Qed.

Lemma get_entry_hole bn :
  NDIRECT ≤ bn < MAXFILE → ind (A i) ≠ 0 → nth_addr V (A i) bn = 0 →
  (0 < nfree sb V)%nat → (spend L i (A i) + 1 < log_cap)%nat →
  ∃ a d' L', get_entry (ind (A i)) (bn - NDIRECT) (state d l) = Ok a (state d' l) ∧
    dstart sb ≤ a < sb_size sb ∧ used sb V a = false ∧
    repr d' (put_entry V A i a bn) [] L' ∧ (spend ({[a]} ∪ L') i (A i) ≤ spend L i (A i) + 1)%nat.
Proof.
  intros Hbn Hn Hhole Hfree Hcap. pose proof O as [R Hok Hk Hdev Hc Hl]. sizes.
  destruct (op_data _ (owns_ind V _ Hn)) as [Hu _].
  pose proof (owned_used _ _ _ Hok i _ Hl (owns_ind V _ Hn)) as [Hr Hused].
  pose proof (geo_order _ _ Hgeo) as Ho.
  destruct (st_bread sb p x d l V [] L (ind (A i)) R Hu) as (q & d1 & E1 & R1);
    [apply not_elem_of_nil|simpl; lia|].
  destruct (balloc_ok sb p x Hgeo d1 l V [(q, ind (A i))] L R1) as (a & d2 & E2 & Ha & Hua & R2);
    [simpl; lia|apply op_meta| | |by apply nfree_pos|].
  { intros n ->%list_elem_of_singleton. simpl. split; [lia|apply Hused; lia]. }
  { destruct (spend_card L i (A i)). lia. }
  destruct (bblock_range _ _ Hgeo a ltac:(lia)) as [_ Hin].
  set (v := store 4 (V (ind (A i))) (Z.to_nat (4 * (bn - 12))) a).
  assert (Hv : whole v).
  { destruct (op_whole (ind (A i))) as [Hl1 Hl2]. unfold v. split; [rewrite length_store; lia|by apply store_bytes]. }
  destruct (st_put sb p x d2 l _ _ _ q (ind (A i)) v R2 ltac:(left) Hv) as (d3 & d4 & E3 & E4 & R4).
  { eapply Nat.le_lt_trans; [|exact Hcap]. etrans; [|apply (spend_alloc a (A i) Ha eq_refl)].
    etrans; [|apply spend_card]. apply card_mono. set_solver. }
  destruct (st_brelse sb p x d4 l _ [] _ q _ R4) as (d5 & E5 & R5).
  exists a, d5. eexists. split_and!; [|lia|lia|done|exact R5|].
  - unfold get_entry. rewrite (bind_ok _ _ _ _ _ E1).
    rewrite (bind_ok _ _ _ _ _ (st_get sb p x d1 l V [(q, ind (A i))] L q _ R1 ltac:(left))).
    unfold nth_addr in Hhole. sizes. rewrite (proj2 (Z.ltb_ge bn 12)), (proj2 (Z.eqb_neq _ _) Hn) in Hhole by lia.
    rewrite Hhole, Z.eqb_refl.
    pose proof (st_get sb p x d2 l _ _ _ q _ R2 ltac:(left)) as E2'.
    rewrite (alloc_ind V A i a Hok Hl Ha Hua Hn) in E2'.
    assert (E : (a ← balloc ROOTDEV; v ← on_disk (d_get q);
             on_disk (d_set q (store 4 v (Z.to_nat (4 * (bn - 12))) a)) ;; on_disk (d_log_write q) ;; mret a)
            (state d1 l) = Ok a (state d4 l)).
    { rewrite (bind_ok _ _ _ _ _ E2), (bind_ok _ _ _ _ _ E2'). fold v.
      by rewrite (bind_ok _ _ _ _ _ E3), (bind_ok _ _ _ _ _ E4). }
    rewrite (bind_ok _ _ _ _ _ E). by rewrite (bind_ok _ _ _ _ _ E5).
  - etrans; [|apply (spend_alloc a (A i) Ha eq_refl)]. unfold spend. apply Nat.add_le_mono_r.
    apply card_mono. unfold fixed. rewrite (proj2 (Z.eqb_neq _ _) Hn). set_solver.
Qed.
End opened.

(** What [bmap] of block [bn] does, whether or not the block is there. *)
Record mapped (i bn a : Z) (V : Z → block) (L : gset Z) (A : Z → dinode)
    (V' : Z → block) (L' : gset Z) (A' : Z → dinode) : Prop := {
  mp_grown : grown i V A V' A';
  mp_addr : nth_addr V' (A' i) bn = a;
  mp_nonzero : a ≠ 0;
  mp_others n : 0 ≤ n < MAXFILE → n ≠ bn → nth_addr V' (A' i) n = nth_addr V (A i) n;
  mp_spend : (spend ({[a]} ∪ L') i (A' i) ≤ spend L i (A i) + 1)%nat;
  mp_there : nth_addr V (A i) bn ≠ 0 → nfree sb V' = nfree sb V ∧ A' i = A i;
  mp_hole : nth_addr V (A i) bn = 0 → (nfree sb V' + 1 + demand (A i) = nfree sb V + demand (A' i))%nat
}.

Lemma spend_one L i d a : (spend ({[a]} ∪ L) i d ≤ spend L i d + 1)%nat.
Proof.
  unfold spend. rewrite <- (assoc_L (∪)). pose proof (card_add (L ∪ fixed i d) a). lia.
Qed.

Lemma bmap_ok d V L A l k ip bn :
  opened d V L A l k ip → 0 ≤ bn < MAXFILE →
  (nth_addr V (A (i_inum ip)) bn = 0 → (1 + demand (A (i_inum ip)) ≤ nfree sb V)%nat) →
  (spend L (i_inum ip) (A (i_inum ip)) + 1 < log_cap)%nat →
  ∃ a d' V' L' A', bmap k bn (state d l) = Ok a (state d' (<[k := with_copy (A' (i_inum ip)) ip]> l)) ∧
    repr d' V' [] L' ∧ mapped (i_inum ip) bn a V L A V' L' A'.
Proof.
  intros O Hbn Hfree Hcap. pose proof O as [R Hok Hk Hdev Hc Hl]. set (i := i_inum ip) in *.
  destruct (decide (nth_addr V (A i) bn = 0)) as [Hz|Hnz].
  2: { destruct (bmap_mapped _ _ _ _ _ _ _ O bn Hbn Hnz) as (d' & E & O').
       exists (nth_addr V (A i) bn), d', V, L, A.
       pose proof (op_slot _ _ _ _ _ _ _ O) as Es. fold i in Es. rewrite Es.
       split_and!; [done|apply O'|]. split; try done; [by apply grown_refl|apply spend_one]. }
  specialize (Hfree Hz). destruct (decide (bn < NDIRECT)) as [Hd|Hd].
  - destruct (bmap_direct _ _ _ _ _ _ _ O bn) as (a & d' & A' & L' & E & R' & G & Hn & Ha & Hu & Ho & Hs & Hdem);
      [lia|done|lia|fold i; lia|]. fold i in E, G, Hn, Ho, Hs, Hdem.
    exists a, d', (alloc sb V a), L', A'. split_and!; try done. pose proof (geo_order _ _ Hgeo).
    split; try done; [lia|]. intros _. rewrite Hdem.
    rewrite (nfree_take sb V (alloc sb V a) a); [lia|lia|done|].
    intros c. apply alloc_used; [|done]. intros n. by eapply op_whole.
  - destruct (get_indirect_ok _ _ _ _ _ _ _ O) as (d1 & V1 & A1 & L1 & E1 & R1 & G1 & Hi1 & Ho1 & Hs1 & Hf1);
      [fold i; lia|fold i; lia|]. fold i in E1, G1, Hi1, Ho1, Hs1, Hf1.
    pose proof (opened_grown _ _ _ _ _ _ _ O d1 V1 L1 A1 G1 R1) as O1. fold i in O1.
    pose proof O1 as [_ Hok1 _ _ _ Hl1]. cbn [i_inum with_copy] in Hl1. fold i in Hl1.
    assert (Hz1 : nth_addr V1 (A1 i) bn = 0) by (by rewrite Ho1).
    destruct (get_entry_hole _ _ _ _ _ _ _ O1 bn) as (a & d2 & L2 & E2 & Ha & Hu & R2 & Hs2);
      cbn [i_inum with_copy]; fold i; [lia|done|done|lia|lia|]. cbn [i_inum with_copy] in E2, R2, Hs2.
    fold i in E2, R2, Hs2.
    assert (HV1 : ∀ n, whole (V1 n)) by (intros n; by eapply repr_whole).
    destruct (grown_entry V1 A1 i a HV1 Hok1 Hl1 Ha Hu bn) as (G2 & Hn2 & Ho2); [lia|done|done|].
    exists a, d2, (put_entry V1 A1 i a bn), L2, A1. split_and!; [|done|].
    + rewrite (bmap_split _ _ _ _ _ _ _ O) by lia. by rewrite (bind_ok _ _ _ _ _ E1).
    + pose proof (geo_order _ _ Hgeo). split; try done; [by eapply grown_trans|lia| |lia|].
      * intros n Hn Hne. rewrite Ho2, Ho1 by done. done.
      * intros _. pose proof (nfree_take sb V1 (put_entry V1 A1 i a bn) a ltac:(lia) Hu) as Hf2.
        assert (Hd1 : demand (A1 i) = 0%nat) by (unfold demand; by rewrite (proj2 (Z.eqb_neq _ _) Hi1)).
        rewrite <- Hf1, Hf2, Hd1; [lia|]. intros c. by apply put_entry_used.
Qed.

(** ** [readi] *)

Lemma fbytes_app V di off a b : 0 ≤ a → 0 ≤ b → fbytes V di off (a + b) = fbytes V di off a ++ fbytes V di (off + a) b.
Proof. intros Ha Hb. unfold fbytes. by rewrite seqZ_app, fmap_app. Qed.

Lemma slice_fbytes V di off m :
  0 ≤ off → 0 ≤ m ≤ BSIZE - off mod BSIZE → nth_addr V di (off / BSIZE) ≠ 0 →
  whole (V (nth_addr V di (off / BSIZE))) →
  slice (V (nth_addr V di (off / BSIZE))) (off mod BSIZE) m = fbytes V di off m.
Proof.
  intros Ho Hm Hn [Hl _]. sizes. apply list_eq. intros j. unfold slice, fbytes. rewrite list_lookup_fmap.
  destruct (decide (j < Z.to_nat m)%nat) as [Hj|Hj].
  - rewrite lookup_take_lt, lookup_drop, lookup_seqZ_lt by lia. cbn [fmap option_fmap option_map].
    unfold fbyte. sizes. replace ((off + Z.of_nat j) / 512) with (off / 512) by dlia.
    replace ((off + Z.of_nat j) mod 512) with (off mod 512 + Z.of_nat j) by dlia.
    rewrite (proj2 (Z.eqb_neq _ _) Hn), nth_lookup.
    replace (Z.to_nat (off mod 512 + Z.of_nat j)) with (Z.to_nat (off mod 512) + j)%nat by dlia.
    destruct (lookup_lt_is_Some_2 (V (nth_addr V di (off / 512))) (Z.to_nat (off mod 512) + j)) as [y ->];
      [rewrite Hl; dlia|done].
  - rewrite lookup_take_ge, lookup_seqZ_ge by lia. done.
Qed.

Lemma readi_loop_ok fuel : ∀ d V L A l k ip off tot n,
  opened d V L A l k ip → 0 ≤ off → tot ≤ n → off + (n - tot) ≤ di_size (A (i_inum ip)) →
  n - tot ≤ Z.of_nat fuel →
  ∃ d', readi_loop fuel k off tot n (state d l) =
      Ok (fbytes V (A (i_inum ip)) off (n - tot)) (state d' l) ∧ opened d' V L A l k ip.
Proof.
  induction fuel as [|fuel IH]; intros d V L A l k ip off tot n O Ho Ht Hs Hf; cbn [readi_loop].
  - rewrite (proj2 (Z.ltb_ge tot n)) by lia. exists d. split; [|done]. by replace (n - tot) with 0 by lia.
  - destruct (tot <? n) eqn:E; zbool; [|exists d; split; [|done]; by replace (n - tot) with 0 by lia].
    pose proof O as [R Hok Hk Hdev Hc Hl]. set (i := i_inum ip) in *.
    rewrite (bind_ok _ _ _ _ _ (inode_at_ok d l k ip Hk)).
    pose proof (ok_file _ _ _ Hok i Hl) as Hfile.
    assert (Hbn : 0 ≤ off / BSIZE < MAXFILE) by (pose proof (fo_size _ _ _ Hfile); sizes; dlia).
    assert (Hnz : nth_addr V (A i) (off / BSIZE) ≠ 0).
    { apply (fo_alloc _ _ _ Hfile); [lia|]. sizes. dlia. }
    destruct (bmap_mapped _ _ _ _ _ _ _ O _ Hbn Hnz) as (d1 & E1 & O1).
    rewrite (bind_ok _ _ _ _ _ E1), Hdev. fold i.
    set (a := nth_addr V (A i) (off / BSIZE)) in *. set (m := Z.min (n - tot) (BSIZE - off mod BSIZE)).
    assert (Hm : 0 < m ≤ BSIZE - off mod BSIZE ∧ m ≤ n - tot) by (unfold m; sizes; dlia).
    destruct (op_data _ _ _ _ _ _ _ O a (owns_nth V _ _ Hbn Hnz)) as [Hu _].
    destruct (st_bread sb p x d1 l V [] L a (op_repr _ _ _ _ _ _ _ O1) Hu) as (q & d2 & E2 & R2);
      [apply not_elem_of_nil|simpl; lia|].
    destruct (st_brelse sb p x d2 l V [] L q a R2) as (d3 & E3 & R3).
    rewrite (bind_ok _ _ _ _ _ E2).
    rewrite (bind_ok _ _ _ _ _ (st_get sb p x d2 l V [(q, a)] L q a R2 ltac:(left))), (bind_ok _ _ _ _ _ E3).
    assert (O3 : opened d3 V L A l k ip) by done.
    destruct (IH d3 V L A l k ip (off + m) (tot + m) n O3) as (d4 & E4 & O4);
      [lia|lia|fold i; lia|lia|]. exists d4. split; [|done].
    rewrite (bind_ok _ _ _ _ _ E4). fold i. cbn [mret cm_ret]. f_equal. unfold a.
    rewrite slice_fbytes; [|lia|lia|done|by eapply op_whole].
    replace (n - tot) with (m + (n - (tot + m))) by lia. rewrite fbytes_app by lia. done.
Qed.

Lemma readi_ok d V L A l k ip off n :
  opened d V L A l k ip → di_type (A (i_inum ip)) ≠ T_DEV →
  0 ≤ off ≤ di_size (A (i_inum ip)) → 0 ≤ n → off + n < 2 ^ 32 →
  let m := Z.min n (di_size (A (i_inum ip)) - off) in
  ∃ d', readi k off n (state d l) = Ok (m, fbytes V (A (i_inum ip)) off m) (state d' l) ∧
    opened d' V L A l k ip.
Proof.
  intros O Ht Ho Hn Hs m. pose proof O as [R Hok Hk Hdev Hc Hl]. set (i := i_inum ip) in *.
  unfold readi. rewrite (bind_ok _ _ _ _ _ (inode_at_ok d l k ip Hk)), Hc. fold i.
  rewrite (proj2 (Z.eqb_neq _ _) Ht). unfold u32. rewrite Z.mod_small by lia.
  rewrite (proj2 (Z.ltb_ge (di_size (A i)) off)), (proj2 (Z.ltb_ge (off + n) off)) by lia. cbn [orb].
  replace (if di_size (A i) <? off + n then di_size (A i) - off else n) with m
    by (unfold m; destruct (di_size (A i) <? off + n) eqn:E; zbool; lia).
  destruct (readi_loop_ok (Z.to_nat m) d V L A l k ip off 0 m O) as (d' & E & O'); fold i; [lia|lia|lia|lia|].
  exists d'. split; [|done]. rewrite (bind_ok _ _ _ _ _ E). fold i. rewrite Z.sub_0_r. cbn [mret cm_ret].
  pose proof (fo_size _ _ _ (ok_file _ _ _ Hok i Hl)). sizes.
  f_equal. f_equal. unfold i32. rewrite Z.mod_small; lia.
Qed.

(** ** [writei] *)

Lemma splice_whole v o l :
  whole v → Forall is_byte l → 0 ≤ o → o + Z.of_nat (length l) ≤ 512 → whole (splice v o l).
Proof.
  intros [Hl Hb] Hlb Ho Hs. unfold splice. split.
  - rewrite !length_app, length_take, length_drop. lia.
  - rewrite !Forall_app. split_and!; [by apply Forall_take|done|by apply Forall_drop].
Qed.

Lemma nth_splice v o l j :
  whole v → 0 ≤ o → o + Z.of_nat (length l) ≤ 512 → 0 ≤ j < 512 →
  nth (Z.to_nat j) (splice v o l) 0 =
    if (o <=? j) && (j <? o + Z.of_nat (length l)) then nth (Z.to_nat (j - o)) l 0 else nth (Z.to_nat j) v 0.
Proof.
  intros [Hl _] Ho Hs Hj. unfold splice. rewrite !nth_lookup.
  destruct (decide (j < o)).
  - rewrite (proj2 (Z.leb_gt o j)) by lia. rewrite lookup_app_l by (rewrite length_take; lia).
    by rewrite lookup_take_lt by lia.
  - rewrite (proj2 (Z.leb_le o j)) by lia. rewrite lookup_app_r by (rewrite length_take; lia).
    rewrite length_take, Nat.min_l by lia. cbn [andb]. case_b.
    + rewrite lookup_app_l by lia. do 2 f_equal. lia.
    + rewrite lookup_app_r, lookup_drop by lia. do 2 f_equal. lia.
Qed.

(** Bytes [off] to [off + length src] of file [i] become [src]. *)
Record written (i off : Z) (src : list Z) (V : Z → block) (A : Z → dinode) (V' : Z → block) (A' : Z → dinode)
    : Prop := {
  wr_others j : j ≠ i → A' j = A j;
  wr_meta : A' i = with_addrs (di_addrs (A' i)) (A i);
  wr_bytes j k : live sb A j → 0 ≤ k < MAXFILE * BSIZE →
    fbyte V' (A' j) k =
      if (j =? i) && ((off <=? k) && (k <? off + Z.of_nat (length src)))
      then nth (Z.to_nat (k - off)) src 0 else fbyte V (A j) k;
  wr_table j : 0 ≤ j < sb_ninodes sb → dinode_at sb V' j = dinode_at sb V j;
  wr_keep bn : 0 ≤ bn < MAXFILE → nth_addr V (A i) bn ≠ 0 → nth_addr V' (A' i) bn ≠ 0;
  wr_there bn : off / BSIZE ≤ bn → bn * BSIZE < off + Z.of_nat (length src) → nth_addr V' (A' i) bn ≠ 0;
  wr_same : (∀ bn, off / BSIZE ≤ bn → bn * BSIZE < off + Z.of_nat (length src) → nth_addr V (A i) bn ≠ 0) →
    A' i = A i
}.

Lemma written_live i off src V A V' A' j : written i off src V A V' A' → live sb A' j ↔ live sb A j.
Proof.
  intros W. unfold live. destruct (decide (j = i)) as [->|Hj].
  - by rewrite (wr_meta _ _ _ _ _ _ _ W).
  - by rewrite (wr_others _ _ _ _ _ _ _ W).
Qed.

(** How many blocks bytes [off] to [off + n] are in, and which of them are not there. *)
Definition touched (off n : Z) : Z := if n =? 0 then 0 else (off + n - 1) / BSIZE - off / BSIZE + 1.
Definition holes (V : Z → block) (di : dinode) (bn n : Z) : nat :=
  length (filter (λ b, nth_addr V di b = 0) (seqZ bn n)).

(** There are enough free blocks for the holes. *)
Definition space (V : Z → block) (di : dinode) (off n : Z) : Prop :=
  let h := holes V di (off / BSIZE) (touched off n) in h = 0%nat ∨ (h + demand di ≤ nfree sb V)%nat.

Lemma touched_step off n m :
  0 ≤ off → 0 < n → m = Z.min n (BSIZE - off mod BSIZE) →
  touched off n = touched (off + m) (n - m) + 1 ∧ (0 ≤ touched (off + m) (n - m)) ∧
  (m < n → (off + m) / BSIZE = off / BSIZE + 1).
Proof.
  intros Ho Hn ->. unfold touched. sizes. rewrite (proj2 (Z.eqb_neq n 0)) by lia.
  destruct (n - Z.min n (512 - off mod 512) =? 0) eqn:E; zbool; dlia.
Qed.

Lemma holes_cons V di bn n :
  0 < n → holes V di bn n = ((if (nth_addr V di bn =? 0)%Z then 1 else 0) + holes V di (bn + 1)%Z (n - 1)%Z)%nat.
Proof.
  intros Hn. unfold holes. rewrite seqZ_cons by lia. rewrite filter_cons. unfold Z.succ, Z.pred.
  replace (n + -1) with (n - 1) by lia.
  destruct (nth_addr V di bn =? 0) eqn:E; zbool; [by rewrite decide_True|by rewrite decide_False].
Qed.

Lemma holes_same V V' di di' bn n :
  0 ≤ bn → bn + n ≤ MAXFILE → (∀ b, bn ≤ b < MAXFILE → nth_addr V' di' b = nth_addr V di b) →
  holes V' di' bn n = holes V di bn n.
Proof.
  intros Hbn Hn He. unfold holes. f_equal. apply filter_agree. intros b Hb%elem_of_seqZ. rewrite He by lia. done.
Qed.

(** One turn of the loop. *)
Lemma write_turn d V L A l k ip off piece :
  opened d V L A l k ip → 0 ≤ off → 0 < Z.of_nat (length piece) ≤ BSIZE - off mod BSIZE →
  off + Z.of_nat (length piece) ≤ MAXFILE * BSIZE → Forall is_byte piece →
  (nth_addr V (A (i_inum ip)) (off / BSIZE) = 0 → (1 + demand (A (i_inum ip)) ≤ nfree sb V)%nat) →
  (spend L (i_inum ip) (A (i_inum ip)) + 1 < log_cap)%nat →
  let i := i_inum ip in let bn := off / BSIZE in
  ∃ a d1 V1 L1 A1 q d2 d3 d4 d5 v l1, bmap k bn (state d l) = Ok a (state d1 l1) ∧
    l1 = <[k := with_copy (A1 i) ip]> l ∧ mapped i bn a V L A V1 L1 A1 ∧ (∀ n, whole (V1 n)) ∧
    on_disk (d_bread ROOTDEV a) (state d1 l1) = Ok q (state d2 l1) ∧
    on_disk (d_get q) (state d2 l1) = Ok v (state d2 l1) ∧ v = V1 a ∧
    on_disk (d_set q (splice v (off mod BSIZE) piece)) (state d2 l1) = Ok tt (state d3 l1) ∧
    on_disk (d_log_write q) (state d3 l1) = Ok tt (state d4 l1) ∧
    on_disk (d_brelse q) (state d4 l1) = Ok tt (state d5 l1) ∧
    opened d5 (upd V1 a (splice (V1 a) (off mod BSIZE) piece)) ({[a]} ∪ L1) A1 l1 k (with_copy (A1 i) ip).
Proof.
  intros O Ho Hp Hs Hb Hfree Hcap i bn. sizes. assert (Hbn : 0 ≤ bn < MAXFILE) by (unfold bn; sizes; dlia).
  destruct (bmap_ok d V L A l k ip bn O Hbn Hfree Hcap) as (a & d1 & V1 & L1 & A1 & E1 & R1 & M).
  fold i in E1, M, Hcap.
  pose proof M as [G Ha Hnz _ Hsp _ _]. pose proof (opened_grown _ _ _ _ _ _ _ O d1 V1 L1 A1 G R1) as O1.
  fold i in O1. set (l1 := <[k := with_copy (A1 i) ip]> l) in *.
  pose proof O1 as [_ Hok1 _ _ _ Hl1]. cbn [i_inum with_copy] in Hl1. fold i in Hl1.
  assert (Hown : owns V1 (A1 i) a) by (rewrite <- Ha; apply owns_nth; [done|by rewrite Ha]).
  destruct (op_data _ _ _ _ _ _ _ O1 a Hown) as [Hu _].
  destruct (st_bread sb p x d1 l1 V1 [] L1 a R1 Hu) as (q & d2 & E2 & R2);
    [apply not_elem_of_nil|simpl; lia|].
  assert (Hw : whole (splice (V1 a) (off mod 512) piece)).
  { apply splice_whole; [by eapply repr_whole|done|dlia|lia]. }
  destruct (st_put sb p x d2 l1 V1 _ L1 q a _ R2 ltac:(left) Hw) as (d3 & d4 & E3 & E4 & R4).
  { destruct (spend_card ({[a]} ∪ L1) i (A1 i)). pose proof (card_mono L1 ({[a]} ∪ L1) ltac:(set_solver)). lia. }
  destruct (st_brelse sb p x d4 l1 _ [] _ q a R4) as (d5 & E5 & R5).
  exists a, d1, V1, L1, A1, q, d2, d3, d4, d5, (V1 a), l1. split_and!; try done.
  - intros j. by eapply repr_whole.
  - by apply (st_get sb p x d2 l1 V1 [(q, a)] L1 q a R2); left.
  - destruct O1. split; try done. cbn [i_inum with_copy]. rewrite <- Ha.
    apply (write_ok usable sb V1 A1 i bn); try done. by rewrite Ha.
Qed.

Lemma written_turn i off piece a V L A V1 L1 A1 :
  fs_ok sb V A → live sb A i → mapped i (off / BSIZE) a V L A V1 L1 A1 → (∀ n, whole (V1 n)) → 0 ≤ off →
  0 < Z.of_nat (length piece) ≤ BSIZE - off mod BSIZE → off + Z.of_nat (length piece) ≤ MAXFILE * BSIZE →
  written i off piece V A (upd V1 a (splice (V1 a) (off mod BSIZE) piece)) A1.
Proof.
  intros Hok Hl [G Ha Hnz Hoth _ Hth _] HV Ho Hp Hs. pose proof (geo_order _ _ Hgeo).
  assert (Hbn : 0 ≤ off / BSIZE < MAXFILE) by (sizes; dlia). set (bn := off / BSIZE) in *.
  pose proof (proj2 (grown_live _ _ _ _ _ i G) Hl) as Hl1. pose proof (gn_ok _ _ _ _ _ G) as Hok1.
  assert (Hnz1 : nth_addr V1 (A1 i) bn ≠ 0) by (by rewrite Ha).
  assert (Hnth : ∀ n v, nth_addr (upd V1 a v) (A1 i) n = nth_addr V1 (A1 i) n).
  { intros n v. rewrite <- Ha. by apply (write_nth sb V1 A1 i bn v Hok1 Hl1 Hbn Hnz1). }
  split.
  - apply G.
  - apply G.
  - intros j k Hj Hk. pose proof (proj2 (grown_live _ _ _ _ _ j G) Hj) as Hj1. rewrite <- Ha.
    rewrite (write_bytes sb V1 A1 i bn _ Hok1 Hl1 Hbn Hnz1 j k Hj1 Hk), Ha.
    rewrite (gn_bytes _ _ _ _ _ G j k Hj Hk). destruct (j =? i) eqn:Ej; [|done]. cbn [andb]. zbool. subst j.
    unfold bn. sizes. destruct (k / 512 =? off / 512) eqn:Ek; zbool.
    + rewrite nth_splice by (first [apply HV|dlia]).
      replace ((off mod 512 <=? k mod 512) && (k mod 512 <? off mod 512 + Z.of_nat (length piece)))
        with ((off <=? k) && (k <? off + Z.of_nat (length piece))) by (apply eq_true_iff_eq; rewrite !andb_true_iff, !Z.leb_le, !Z.ltb_lt; dlia).
      case_b; [f_equal; dlia|]. rewrite <- (gn_bytes _ _ _ _ _ G i k Hl Hk). unfold fbyte. sizes.
      rewrite Ek. change (off / 512) with bn. by rewrite Ha, (proj2 (Z.eqb_neq a 0) Hnz).
    + case_b; [|done]. exfalso. apply Ek. dlia.
  - intros j Hj. rewrite (dinode_at_upd usable); [by apply G|done|done|].
    pose proof (proj1 (owned_used _ _ _ Hok1 i a Hl1 ltac:(rewrite <- Ha; by apply owns_nth))). lia.
  - intros n Hn Hnn. rewrite Hnth. destruct (decide (n = bn)) as [->|Hne]; [done|]. by rewrite Hoth.
  - intros n Hn Hlt. rewrite Hnth. assert (n = bn) as -> by (unfold bn in *; sizes; dlia). done.
  - intros Hall. apply Hth, Hall; [done|]. unfold bn. sizes. dlia.
Qed.

Lemma written_app i off p1 p2 V A V1 A1 V2 A2 :
  0 ≤ off → (length p1 = 0%nat ∨ p2 = [] ∨ (off + Z.of_nat (length p1)) mod BSIZE = 0) →
  off + Z.of_nat (length (p1 ++ p2)) ≤ MAXFILE * BSIZE →
  written i off p1 V A V1 A1 → written i (off + Z.of_nat (length p1)) p2 V1 A1 V2 A2 →
  written i off (p1 ++ p2) V A V2 A2.
Proof.
  intros Ho Hal Hs W1 W2. pose proof W1 as [Ho1 Hm1 Hb1 Ht1 Hk1 Hn1 Hs1].
  pose proof W2 as [Ho2 Hm2 Hb2 Ht2 Hk2 Hn2 Hs2].
  rewrite length_app, Nat2Z.inj_add in Hs.
  split.
  - intros j Hj. by rewrite Ho2, Ho1.
  - rewrite Hm2, Hm1. by destruct (A i).
  - intros j k Hj Hk. rewrite Hb2, Hb1; try done; [|by apply (written_live _ _ _ _ _ _ _ j W1)].
    rewrite length_app, Nat2Z.inj_add. destruct (j =? i); [|done]. cbn [andb]. repeat case_b; try lia; try done.
    + rewrite app_nth2 by lia. f_equal. lia.
    + rewrite app_nth1 by lia. done.
  - intros j Hj. by rewrite Ht2, Ht1.
  - intros bn Hbn Hn. by apply Hk2, Hk1.
  - intros bn Hbn Hlt. rewrite length_app, Nat2Z.inj_add in Hlt.
    assert (0 ≤ bn < MAXFILE) by (sizes; dlia).
    destruct (decide (bn * BSIZE < off + Z.of_nat (length p1))); [by apply Hk2, Hn1|].
    apply Hn2; [|lia]. destruct Hal as [Hal|[Hal|Hal]]; [|subst p2; simpl in Hlt; lia|].
    + rewrite Hal in *. by rewrite Z.add_0_r.
    + sizes. dlia.
  - rewrite length_app, Nat2Z.inj_add. intros Hall.
    assert (E1 : A1 i = A i) by (apply Hs1; intros bn Hbn Hlt; apply Hall; lia).
    rewrite <- E1. apply Hs2. intros bn Hbn Hlt. apply Hk1; [sizes; dlia|].
    apply Hall; [sizes; dlia|lia].
Qed.

Lemma space_step d V L A l k ip off (src : list Z) a V1 L1 A1 v :
  opened d V L A l k ip → mapped (i_inum ip) (off / BSIZE) a V L A V1 L1 A1 → 0 ≤ off → src ≠ [] →
  off + Z.of_nat (length src) ≤ MAXFILE * BSIZE →
  let i := i_inum ip in let n := Z.of_nat (length src) in let m := Z.min n (BSIZE - off mod BSIZE) in
  space V (A i) off n → m < n → space (upd V1 a v) (A1 i) (off + m) (n - m).
Proof.
  intros O [G Ha Hnz Hoth _ Hth Hho] Ho Hsrc Hs i n m Hsp Hm. fold i in G, Ha, Hoth, Hth, Hho.
  pose proof O as [_ Hok _ _ _ Hl]. fold i in Hl. pose proof (geo_order _ _ Hgeo).
  assert (Hn : 0 < n) by (unfold n; destruct src; [done|simpl; lia]).
  destruct (touched_step off n m Ho Hn eq_refl) as (Et & Hpos & Eb). specialize (Eb Hm).
  assert (Hbn : 0 ≤ off / BSIZE < MAXFILE) by (sizes; dlia).
  assert (Hend : off / BSIZE + touched off n ≤ MAXFILE).
  { unfold touched. rewrite (proj2 (Z.eqb_neq n 0)) by lia. fold n in Hs. sizes. dlia. }
  pose proof (proj2 (grown_live _ _ _ _ _ i G) Hl) as Hl1. pose proof (gn_ok _ _ _ _ _ G) as Hok1.
  assert (Hnz1 : nth_addr V1 (A1 i) (off / BSIZE) ≠ 0) by (by rewrite Ha).
  assert (Ea : holes (upd V1 a v) (A1 i) (off / BSIZE + 1) (touched off n - 1) =
               holes V (A i) (off / BSIZE + 1) (touched off n - 1)).
  { apply holes_same; [lia|lia|]. intros b Hb. rewrite <- Ha.
    rewrite (write_nth sb V1 A1 i (off / BSIZE) v Hok1 Hl1 Hbn Hnz1) by done. rewrite Hoth; [done|lia|lia]. }
  assert (Hnf : nfree sb (upd V1 a v) = nfree sb V1).
  { apply nfree_same. intros c Hc. apply (used_upd _ _ Hgeo); [done|].
    pose proof (proj1 (owned_used _ _ _ Hok1 i a Hl1 ltac:(rewrite <- Ha; by apply owns_nth))). lia. }
  unfold space in *. rewrite Eb, Hnf. replace (touched (off + m) (n - m)) with (touched off n - 1) by lia.
  rewrite Ea. rewrite (holes_cons V) in Hsp by lia. destruct (nth_addr V (A i) (off / BSIZE) =? 0) eqn:Ez; zbool.
  - specialize (Hho Ez). lia.
  - destruct (Hth Ez) as [-> ->]. lia.
Qed.

Lemma op_id d V L A l k ip : opened d V L A l k ip → with_copy (A (i_inum ip)) ip = ip.
Proof. intros [_ _ _ _ <- _]. by destruct ip. Qed.

(** At most [n] blocks and an indirect block were taken from the free ones. *)
Definition takes (i : Z) (V : Z → block) (A : Z → dinode) (V' : Z → block) (A' : Z → dinode) (n : Z) : Prop :=
  Z.of_nat (nfree sb V) + Z.of_nat (demand (A' i)) ≤ Z.of_nat (nfree sb V') + n + Z.of_nat (demand (A i)).

Lemma nfree_data V A i bn a v :
  fs_ok sb V A → live sb A i → 0 ≤ bn < MAXFILE → nth_addr V (A i) bn = a → a ≠ 0 → nfree sb (upd V a v) = nfree sb V.
Proof.
  intros Hok Hl Hbn Ha Hnz. apply nfree_same. intros c Hc. apply (used_upd _ _ Hgeo); [done|].
  pose proof (proj1 (owned_used _ _ _ Hok i a Hl ltac:(rewrite <- Ha; apply owns_nth; [done|by rewrite Ha]))). lia.
Qed.

Lemma takes_turn i bn a v V L A V1 L1 A1 V' A' n :
  0 ≤ bn < MAXFILE → live sb A i → mapped i bn a V L A V1 L1 A1 → takes i (upd V1 a v) A1 V' A' n → takes i V A V' A' (n + 1).
Proof.
  intros Hbn Hl [G Ha Hnz _ _ Hth Hho] Ht. unfold takes in *. pose proof (proj2 (grown_live _ _ _ _ _ i G) Hl) as Hl1.
  rewrite (nfree_data V1 A1 i bn a v (gn_ok _ _ _ _ _ G) Hl1 Hbn Ha Hnz) in Ht.
  destruct (decide (nth_addr V (A i) bn = 0)) as [E|E]; [specialize (Hho E); lia|].
  destruct (Hth E) as [E1 E2]. rewrite E1, E2 in *. lia.
Qed.

(** The result of the loop, for file [i = i_inum ip]. *)
Definition loop_done (d : D) V L A l k ip (src : list Z) off (r : outcome (fs D X) Z) : Prop :=
  let i := i_inum ip in let n := Z.of_nat (length src) in
  ∃ d' V' L' A', let ip' := with_copy (A' i) ip in let l' := <[k := ip']> l in
    r = Ok (off + n) (state d' l') ∧ opened d' V' L' A' l' k ip' ∧
    (src = [] → V' = V ∧ A' = A) ∧ (src ≠ [] → written i off src V A V' A') ∧
    Z.of_nat (spend L' i (A' i)) ≤ Z.of_nat (spend L i (A i)) + touched off n ∧ takes i V A V' A' (touched off n).

Lemma loop_done_nil d V L A l k ip off :
  opened d V L A l k ip → loop_done d V L A l k ip [] off (Ok off (state d l)).
Proof.
  intros O. exists d, V, L, A. cbv zeta. rewrite (op_slot _ _ _ _ _ _ _ O), (op_id _ _ _ _ _ _ _ O).
  split_and!; try done; [by rewrite Z.add_0_r|unfold touched; simpl; lia|unfold takes, touched; simpl; lia].
Qed.

Lemma writei_loop_ok fuel : ∀ d V L A l k ip src off,
  opened d V L A l k ip → (length src ≤ fuel)%nat → 0 ≤ off →
  off + Z.of_nat (length src) ≤ MAXFILE * BSIZE → Forall is_byte src →
  space V (A (i_inum ip)) off (Z.of_nat (length src)) →
  Z.of_nat (spend L (i_inum ip) (A (i_inum ip))) + touched off (Z.of_nat (length src)) < Z.of_nat log_cap →
  loop_done d V L A l k ip src off (writei_loop fuel k src off (state d l)).
Proof.
  induction fuel as [|fuel IH]; intros d V L A l k ip src off O Hf Ho Hs Hb Hsp Hcap.
  { destruct src; [|simpl in Hf; lia]. by apply loop_done_nil. }
  destruct (decide (src = [])) as [->|Hne]; [by apply loop_done_nil|].
  set (n := Z.of_nat (length src)) in *. assert (Hn : 0 < n) by (unfold n; destruct src; [done|simpl; lia]).
  set (m := Z.min n (BSIZE - off mod BSIZE)). set (i := i_inum ip) in *.
  destruct (touched_step off n m Ho Hn eq_refl) as (Et & Hpos & Eb).
  assert (Hm : 0 < m ≤ BSIZE - off mod BSIZE ∧ m ≤ n) by (unfold m; sizes; dlia).
  assert (Hlen : Z.of_nat (length (take (Z.to_nat m) src)) = m) by (rewrite length_take; lia).
  pose proof O as [R Hok Hk Hdev Hc Hl].
  destruct (write_turn d V L A l k ip off (take (Z.to_nat m) src) O)
    as (a & d1 & V1 & L1 & A1 & q & d2 & d3 & d4 & d5 & v & l1 & E1 & El1 & M & HV1 & E2 & E3 & Ev & E4 & E5 & E6 & O5);
    [done|lia|lia|by apply Forall_take| |fold i; lia|].
  { intros Hz. unfold space in Hsp. fold i in Hz. rewrite (holes_cons V) in Hsp by lia.
    rewrite Hz, Z.eqb_refl in Hsp. fold i. lia. }
  fold i in El1, M, O5. subst v.
  pose proof (written_turn i off (take (Z.to_nat m) src) a V L A V1 L1 A1 Hok Hl M HV1 Ho ltac:(lia) ltac:(lia)) as W1.
  set (V2 := upd V1 a _) in *. set (ip1 := with_copy (A1 i) ip) in *.
  assert (Hrest : Z.of_nat (length (drop (Z.to_nat m) src)) = n - m) by (rewrite length_drop; lia).
  destruct (IH d5 V2 ({[a]} ∪ L1) A1 l1 k ip1 (drop (Z.to_nat m) src) (off + m))
    as (d' & V' & L' & A' & E & O' & Hnil & Hw & Hspend & Htk);
    rewrite ?Hrest; [done|lia|lia|lia|by apply Forall_drop| | |].
  { destruct (decide (m < n)) as [Hmn|Hmn].
    - by apply (space_step d V L A l k ip off src a V1 L1 A1 _ O M Ho Hne Hs).
    - left. unfold holes. replace (n - m) with 0 by lia. done. }
  { cbn [i_inum ip1 with_copy]. fold i. pose proof (mp_spend _ _ _ _ _ _ _ _ _ M). lia. }
  cbn [i_inum ip1 with_copy] in E, O', Hw, Hspend, Htk. fold i in E, O', Hw, Hspend, Htk. rewrite Hrest in *.
  subst l1. rewrite list_insert_insert_eq in E, O'.
  exists d', V', L', A'. cbv zeta. fold i. split_and!; [|done|done| | |].
  - cbn [writei_loop]. fold n. rewrite (proj2 (Z.ltb_lt 0 n)) by lia.
    rewrite (bind_ok _ _ _ _ _ (inode_at_ok d l k ip Hk)), (bind_ok _ _ _ _ _ E1), Hdev.
    rewrite (bind_ok _ _ _ _ _ E2), (bind_ok _ _ _ _ _ E3). fold m.
    rewrite (bind_ok _ _ _ _ _ E4), (bind_ok _ _ _ _ _ E5), (bind_ok _ _ _ _ _ E6), E. fold n. f_equal. lia.
  - intros _. destruct (decide (m < n)) as [Hmn|Hmn].
    + rewrite <- (take_drop (Z.to_nat m) src). eapply written_app; [done| | |exact W1|].
      * do 2 right. rewrite Hlen. unfold m in *. sizes. dlia.
      * by rewrite take_drop.
      * rewrite Hlen. apply Hw. intros Hd. rewrite Hd in Hrest. simpl in Hrest. lia.
    + assert (Hd : drop (Z.to_nat m) src = []) by (apply drop_ge; lia).
      destruct (Hnil Hd) as [-> ->]. rewrite take_ge in W1 by lia. done.
  - pose proof (mp_spend _ _ _ _ _ _ _ _ _ M). fold n. lia.
  - fold n. replace (touched off n) with (touched (off + m) (n - m) + 1) by lia.
    eapply takes_turn; [|exact Hl|exact M|exact Htk]. sizes. dlia.
Qed.

(** ** The end of [writei]: the size *)

Lemma iupdate_ok d V L A l k ip :
  opened d V L A l k ip → (card L < log_cap)%nat →
  ∃ d', iupdate k (state d l) = Ok tt (state d' l) ∧
    repr d' (put_inode sb V (i_inum ip) (i_copy ip)) [] ({[IBLOCK (i_inum ip) sb]} ∪ L).
Proof.
  intros O Hc. pose proof O as [R Hok Hk Hdev Hcp Hl]. pose proof (geo_order _ _ Hgeo).
  pose proof (inode_block_range _ _ Hgeo _ (proj1 Hl)) as Hr. pose proof (fg_data _ _ Hgeo).
  destruct (op_whole _ _ _ _ _ _ _ O (IBLOCK (i_inum ip) sb)) as [Hv1 Hv2].
  destruct (st_write sb p x d l V [] L (IBLOCK (i_inum ip) sb)
    (λ v, store_dinode v (Z.to_nat (i_inum ip mod IPB)) (i_copy ip))) as (d' & R' & E);
    [done|apply (fg_usable _ _ Hgeo); lia|apply not_elem_of_nil|simpl; lia| |done|].
  { rewrite Hcp. apply store_dinode_whole; [done|sizes; dlia| |done].
    apply (fo_fits _ _ _ (ok_file _ _ _ Hok _ Hl)). }
  exists d'. split; [|done]. unfold iupdate.
  rewrite (bind_ok _ _ _ _ _ (inode_at_ok d l k ip Hk)), Hdev. exact E.
Qed.

(** The bytes of a file after writing [src] at [off]. *)
Definition overwrite (l : list Z) (off : Z) (src : list Z) : list Z :=
  take (Z.to_nat off) l ++ src ++ drop (Z.to_nat off + length src) l.

Lemma contents_overwrite V V' di di' off src :
  0 ≤ off ≤ di_size di → di_size di' = Z.max (di_size di) (off + Z.of_nat (length src)) →
  di_size di' ≤ MAXFILE * BSIZE →
  (∀ k, 0 ≤ k < MAXFILE * BSIZE → fbyte V' di' k =
     if (off <=? k) && (k <? off + Z.of_nat (length src)) then nth (Z.to_nat (k - off)) src 0 else fbyte V di k) →
  contents V' di' = overwrite (contents V di) off src.
Proof.
  intros Ho Hs Hmax He. unfold contents, overwrite. apply list_eq. intros j.
  destruct (decide (j < Z.to_nat (di_size di'))%nat) as [Hj|Hj].
  2: { rewrite !lookup_ge_None_2; [done| |rewrite length_fbytes; lia].
       rewrite !length_app, length_take, length_drop, length_fbytes. lia. }
  rewrite <- (Nat2Z.id j), fbytes_lookup, Z.add_0_l, He by lia. rewrite Nat2Z.id.
  destruct (decide (Z.of_nat j < off)).
  - rewrite (proj2 (Z.leb_gt off _)) by lia. cbn [andb].
    rewrite lookup_app_l by (rewrite length_take, length_fbytes; lia). rewrite lookup_take_lt by lia.
    pose proof (fbytes_lookup V di 0 (di_size di) (Z.of_nat j) ltac:(lia)) as E. rewrite Nat2Z.id in E. by rewrite E.
  - rewrite (proj2 (Z.leb_le off _)) by lia. cbn [andb].
    rewrite lookup_app_r by (rewrite length_take, length_fbytes; lia).
    rewrite length_take, length_fbytes, Nat.min_l by lia. case_b.
    + rewrite lookup_app_l, nth_lookup by lia. replace (Z.to_nat (Z.of_nat j - off)) with (j - Z.to_nat off)%nat by lia.
      destruct (lookup_lt_is_Some_2 src (j - Z.to_nat off)) as [y ->]; [lia|done].
    + rewrite lookup_app_r, lookup_drop by lia.
      replace (Z.to_nat off + length src + (j - Z.to_nat off - length src))%nat with (Z.to_nat (Z.of_nat j)) by lia.
      rewrite fbytes_lookup by lia. done.
Qed.

(** File [i] has the contents [c], every other file is as it was. *)
Record updated (i : Z) (c : list Z) (V : Z → block) (A : Z → dinode) (V' : Z → block) (A' : Z → dinode) : Prop := {
  up_synced : synced sb V' A';
  up_contents : contents V' (A' i) = c;
  up_size : di_size (A' i) = Z.of_nat (length c);
  up_meta : A' i = with_size (di_size (A' i)) (with_addrs (di_addrs (A' i)) (A i));
  up_others j : j ≠ i → A' j = A j;
  up_frame j : live sb A j → j ≠ i → contents V' (A j) = contents V (A j)
}.

Lemma contents_frame V V' di di' :
  di_size di' = di_size di → 0 ≤ di_size di ≤ MAXFILE * BSIZE →
  (∀ k, 0 ≤ k < MAXFILE * BSIZE → fbyte V' di' k = fbyte V di k) → contents V' di' = contents V di.
Proof.
  intros Hs Hr He. unfold contents, fbytes. rewrite Hs. apply list_fmap_ext. intros j k Hk.
  apply He. apply lookup_seqZ in Hk. lia.
Qed.

Lemma overwrite_length l off src :
  0 ≤ off ≤ Z.of_nat (length l) →
  Z.of_nat (length (overwrite l off src)) = Z.max (Z.of_nat (length l)) (off + Z.of_nat (length src)).
Proof. intros Ho. unfold overwrite. rewrite !length_app, length_take, length_drop. lia. Qed.

Lemma size_range V A j : fs_ok sb V A → live sb A j → 0 ≤ di_size (A j) ≤ MAXFILE * BSIZE.
Proof.
  intros Hok Hj. destruct (ok_file _ _ _ Hok j Hj) as [Hf _ _ _ Hsz _]. destruct Hf. lia.
Qed.

Section finish.
Context (V V1 : Z → block) (A A1 : Z → dinode) (i off : Z) (src : list Z).
Context (Hok : fs_ok sb V A) (Hsync : synced sb V A) (Hl : live sb A i) (Ho : 0 ≤ off ≤ di_size (A i)).
Context (Hok1 : fs_ok sb V1 A1) (HV1 : ∀ n, whole (V1 n)) (W : written i off src V A V1 A1).
Context (Hs : off + Z.of_nat (length src) ≤ MAXFILE * BSIZE).
Let n : Z := Z.of_nat (length src).

Lemma written_there bn : 0 ≤ bn → bn * BSIZE < Z.max (di_size (A i)) (off + n) → nth_addr V1 (A1 i) bn ≠ 0.
Proof.
  intros Hbn Hlt. pose proof (size_range V A i Hok Hl). destruct (decide (bn * BSIZE < di_size (A i))).
  - apply (wr_keep _ _ _ _ _ _ _ W); [sizes; lia|]. by apply (fo_alloc _ _ _ (ok_file _ _ _ Hok i Hl)).
  - apply (wr_there _ _ _ _ _ _ _ W); [sizes; dlia|unfold n in *; lia].
Qed.

(** The size stays: no block was added. *)
Lemma finish_same : off + n ≤ di_size (A i) → src ≠ [] → updated i (overwrite (contents V (A i)) off src) V A V1 A1.
Proof.
  intros Hle Hne. pose proof (size_range V A i Hok Hl) as Hsz.
  assert (E : A1 i = A i).
  { apply (wr_same _ _ _ _ _ _ _ W). intros bn Hbn Hlt.
    apply (fo_alloc _ _ _ (ok_file _ _ _ Hok i Hl)); unfold n in *; sizes; dlia. }
  assert (HA : ∀ j, A1 j = A j).
  { intros j. destruct (decide (j = i)) as [->|Hj]; [done|]. by apply (wr_others _ _ _ _ _ _ _ W). }
  assert (Hc : contents V1 (A1 i) = overwrite (contents V (A i)) off src).
  { apply contents_overwrite; rewrite ?E; unfold n in *; try lia. intros k Hk. rewrite <- E at 1.
    rewrite (wr_bytes _ _ _ _ _ _ _ W i k Hl Hk), Z.eqb_refl. done. }
  split; [| done | | |done |].
  - intros j Hj. rewrite HA, (wr_table _ _ _ _ _ _ _ W) by done. by apply Hsync.
  - rewrite overwrite_length; unfold contents; rewrite length_fbytes, ?E; unfold n in *; lia.
  - rewrite E. by destruct (A i).
  - intros j Hj Hji. apply contents_frame; [done|by apply (size_range V)|]. intros k Hk.
    rewrite <- (HA j) at 1. rewrite (wr_bytes _ _ _ _ _ _ _ W j k Hj Hk), (proj2 (Z.eqb_neq j i) Hji). done.
Qed.

(** The file grows: the inode is written. *)
Lemma finish_grow :
  di_size (A i) < off + n →
  let A2 := upd A1 i (with_size (off + n) (A1 i)) in let V2 := put_inode sb V1 i (A2 i) in
  fs_ok sb V1 A2 ∧ fs_ok sb V2 A2 ∧ updated i (overwrite (contents V (A i)) off src) V A V2 A2.
Proof.
  intros Hlt A2 V2. pose proof (size_range V A i Hok Hl) as Hsz.
  assert (Hl1 : live sb A1 i) by (by apply (written_live _ _ _ _ _ _ _ i W)).
  assert (Hok2 : fs_ok sb V1 A2).
  { apply resize_ok; [done|done|unfold n in *; lia|]. intros bn Hbn Hb. apply written_there; lia. }
  assert (Hl2 : ∀ j, live sb A2 j ↔ live sb A j).
  { intros j. unfold A2. rewrite live_upd by done. by apply (written_live _ _ _ _ _ _ _ j W). }
  assert (Hfits : dinode_fits (A2 i)) by (apply (fo_fits _ _ _ (ok_file _ _ _ Hok2 i (proj2 (Hl2 i) Hl)))).
  assert (Hi : 0 ≤ i < sb_ninodes sb) by apply Hl.
  assert (Hb : ∀ j k, live sb A j → 0 ≤ k < MAXFILE * BSIZE → fbyte V2 (A2 j) k = fbyte V1 (A1 j) k).
  { intros j k Hj Hk. unfold V2. rewrite (put_inode_bytes usable sb V1 i (A2 i) Hgeo Hi A2 j k Hok2 (proj2 (Hl2 j) Hj) Hk).
    unfold A2, upd. case_b; [by subst|done]. }
  assert (E2 : A2 i = with_size (off + n) (A1 i)) by (unfold A2; apply upd_eq).
  assert (Hm : A1 i = with_addrs (di_addrs (A1 i)) (A i)) by apply W.
  split_and!; [done|by apply (put_inode_ok usable)|]. split.
  - intros j Hj. unfold V2. rewrite dinode_at_put by (first [done|lia]). unfold A2 at 2, upd.
    destruct (j =? i) eqn:E; zbool; [by subst|].
    rewrite (wr_table _ _ _ _ _ _ _ W), (wr_others _ _ _ _ _ _ _ W) by done. by apply Hsync.
  - apply contents_overwrite; [done|rewrite E2; cbn [di_size with_size]; unfold n; lia
      |rewrite E2; cbn [di_size with_size]; unfold n; lia|].
    intros k Hk. rewrite Hb, (wr_bytes _ _ _ _ _ _ _ W i k Hl Hk), Z.eqb_refl by done. done.
  - rewrite overwrite_length; unfold contents; rewrite length_fbytes, ?E2; cbn [di_size with_size]; unfold n in *; lia.
  - rewrite E2, Hm. by destruct (A i).
  - intros j Hj. unfold A2. rewrite upd_ne by done. by apply (wr_others _ _ _ _ _ _ _ W).
  - intros j Hj Hji. apply contents_frame; [done|by apply (size_range V)|]. intros k Hk.
    assert (Ej : A2 j = A j) by (unfold A2; rewrite upd_ne by done; by apply (wr_others _ _ _ _ _ _ _ W)).
    rewrite <- Ej at 1. rewrite Hb, (wr_bytes _ _ _ _ _ _ _ W j k Hj Hk), (proj2 (Z.eqb_neq j i) Hji) by done. done.
Qed.
End finish.

Lemma updated_refl i V A :
  fs_ok sb V A → synced sb V A → live sb A i → updated i (contents V (A i)) V A V A.
Proof.
  intros Hok Hsync Hl. split; try done; [|by destruct (A i)].
  pose proof (size_range V A i Hok Hl). unfold contents. rewrite length_fbytes. lia.
Qed.

Lemma overwrite_nil l off : overwrite l off [] = l.
Proof. unfold overwrite. rewrite Nat.add_0_r. apply take_drop. Qed.

Lemma spend_iupdate L i di di' :
  ind di' = ind di → spend ({[IBLOCK i sb]} ∪ L) i di' = spend L i di.
Proof. intros E. unfold spend, fixed, demand. rewrite E. f_equal. f_equal. set_solver. Qed.

Lemma nfree_put_inode V i di : 0 ≤ i < sb_ninodes sb → nfree sb (put_inode sb V i di) = nfree sb V.
Proof.
  intros Hi. apply nfree_same. intros c Hc. unfold put_inode. apply (used_upd _ _ Hgeo); [done|].
  pose proof (inode_block_range _ _ Hgeo _ Hi). lia.
Qed.

(** What [writei] leaves, for file [i = i_inum ip]. *)
Definition write_done (d : D) V L A l k ip (src : list Z) off (r : outcome (fs D X) Z) : Prop :=
  let i := i_inum ip in let n := Z.of_nat (length src) in
  ∃ d' V' L' A', let ip' := with_copy (A' i) ip in let l' := <[k := ip']> l in
    r = Ok n (state d' l') ∧ opened d' V' L' A' l' k ip' ∧
    updated i (overwrite (contents V (A i)) off src) V A V' A' ∧
    Z.of_nat (spend L' i (A' i)) ≤ Z.of_nat (spend L i (A i)) + touched off n ∧ takes i V A V' A' (touched off n).

Lemma writei_loop_start d V L A l k ip src off :
  opened d V L A l k ip → di_type (A (i_inum ip)) ≠ T_DEV → 0 ≤ off ≤ di_size (A (i_inum ip)) →
  off + Z.of_nat (length src) ≤ MAXFILE * BSIZE →
  writei k src off (state d l) =
    (off ← writei_loop (length src) k src off;
     ip ← inode_at k;
     (if (0 <? Z.of_nat (length src)) && (di_size (i_copy ip) <? off)
      then copy_upd k (with_size off) ;; iupdate k
      else mret tt) ;;
     mret (Z.of_nat (length src))) (state d l).
Proof.
  intros O Ht Ho Hs. pose proof O as [R Hok Hk Hdev Hc Hl]. unfold writei.
  rewrite (bind_ok _ _ _ _ _ (inode_at_ok d l k ip Hk)), Hc, (proj2 (Z.eqb_neq _ _) Ht).
  sizes. rewrite u32_small by lia.
  rewrite (proj2 (Z.ltb_ge (di_size (A (i_inum ip))) off)), (proj2 (Z.ltb_ge (off + _) off)),
    (proj2 (Z.ltb_ge (140 * 512) _)) by lia.
  cbn [orb]. replace (i32 (Z.of_nat (length src))) with (Z.of_nat (length src)); [done|].
  unfold i32. rewrite Z.mod_small; lia.
Qed.

Lemma writei_ok d V L A l k ip src off :
  opened d V L A l k ip → synced sb V A → di_type (A (i_inum ip)) ≠ T_DEV →
  0 ≤ off ≤ di_size (A (i_inum ip)) → off + Z.of_nat (length src) ≤ MAXFILE * BSIZE → Forall is_byte src →
  space V (A (i_inum ip)) off (Z.of_nat (length src)) →
  Z.of_nat (spend L (i_inum ip) (A (i_inum ip))) + touched off (Z.of_nat (length src)) < Z.of_nat log_cap →
  write_done d V L A l k ip src off (writei k src off (state d l)).
Proof.
  intros O Hsync Ht Ho Hs Hb Hsp Hcap. pose proof O as [R Hok Hk Hdev Hc Hl].
  rewrite (writei_loop_start d V L A l k ip) by done.
  destruct (writei_loop_ok (length src) d V L A l k ip src off O ltac:(done) ltac:(lia) Hs Hb Hsp Hcap)
    as (d1 & V1 & L1 & A1 & E1 & O1 & Hnil & Hw & Hsp1 & Htk). cbv zeta in E1, O1, Hnil, Hw, Hsp1, Htk.
  set (i := i_inum ip) in *. set (n := Z.of_nat (length src)) in *. set (ip1 := with_copy (A1 i) ip) in *.
  set (l1 := <[k := ip1]> l) in *. rewrite (bind_ok _ _ _ _ _ E1).
  pose proof O1 as [R1 Hok1 Hk1 _ _ Hl1]. rewrite (bind_ok _ _ _ _ _ (inode_at_ok d1 l1 k ip1 Hk1)).
  cbn [i_copy ip1 with_copy]. change (i_inum ip1) with i in Hl1.
  assert (HV1 : ∀ n, whole (V1 n)) by (intros j; by eapply repr_whole).
  destruct (decide (src = [])) as [->|Hne].
  { destruct (Hnil eq_refl) as [-> ->]. exists d1, V, L1, A. cbv zeta. fold i l1. split_and!; try done.
    rewrite overwrite_nil. by apply updated_refl. }
  specialize (Hw Hne). assert (Hsz : di_size (A1 i) = di_size (A i)) by (by rewrite (wr_meta _ _ _ _ _ _ _ Hw)).
  rewrite (proj2 (Z.ltb_lt 0 n)) by (unfold n; destruct src; [done|simpl; lia]). cbn [andb]. rewrite Hsz.
  destruct (di_size (A i) <? off + n) eqn:Es; zbool.
  - destruct (finish_grow V V1 A A1 i off src Hok Hsync Hl Ho Hok1 HV1 Hw Hs Es) as (Hok2 & Hok3 & Hup).
    fold n in Hok2, Hok3, Hup. set (A2 := upd A1 i (with_size (off + n) (A1 i))) in *.
    set (ip2 := with_copy (A2 i) ip). set (l2 := <[k := ip2]> l).
    assert (E2 : copy_upd k (with_size (off + n)) (state d1 l1) = Ok tt (state d1 l2)).
    { rewrite (copy_upd_ok d1 l1 k ip1 _ Hk1). unfold l1. rewrite list_insert_insert_eq. unfold l2, ip2, A2.
      by rewrite upd_eq. }
    assert (O2 : opened d1 V1 L1 A2 l2 k ip2).
    { split; try done; [|unfold A2; by apply live_upd].
      apply list_lookup_insert_eq. by eapply lookup_lt_Some. }
    assert (Hind : ind (A2 i) = ind (A1 i)) by (unfold A2; by rewrite upd_eq).
    destruct (iupdate_ok d1 V1 L1 A2 l2 k ip2 O2) as (d2 & E3 & R3).
    { destruct (spend_card L1 i (A1 i)). lia. }
    cbn [i_inum i_copy ip2 with_copy] in R3. fold i in R3.
    exists d2, (put_inode sb V1 i (A2 i)), ({[IBLOCK i sb]} ∪ L1), A2. cbv zeta. fold i ip2 l2.
    split_and!; [|by destruct O2|done|by rewrite (spend_iupdate L1 i (A1 i))|].
    2: { unfold takes in *. rewrite (nfree_put_inode V1 i (A2 i)) by apply Hl1. unfold demand at 1. rewrite Hind. exact Htk. }
    assert (E4 : (copy_upd k (with_size (off + n)) ;; iupdate k) (state d1 l1) = Ok tt (state d2 l2))
      by (by rewrite (bind_ok _ _ _ _ _ E2)).
    by rewrite (bind_ok _ _ _ _ _ E4).
  - exists d1, V1, L1, A1. cbv zeta. fold i ip1 l1. split_and!; try done. by apply finish_same.
Qed.

(** Writes that are refused change nothing. *)
Lemma writei_refuses d l k ip src off :
  l !! k = Some ip → di_type (i_copy ip) ≠ T_DEV → 0 ≤ off →
  di_size (i_copy ip) < off ∨ MAXFILE * BSIZE < off + Z.of_nat (length src) < 2 ^ 32 →
  writei k src off (state d l) = Ok (-1) (state d l).
Proof.
  intros Hk Ht H0 Hr. unfold writei. rewrite (bind_ok _ _ _ _ _ (inode_at_ok d l k ip Hk)).
  rewrite (proj2 (Z.eqb_neq _ _) Ht). destruct Hr as [Hr|Hr].
  - by rewrite (proj2 (Z.ltb_lt _ off) Hr).
  - rewrite u32_small, (proj2 (Z.ltb_lt (MAXFILE * BSIZE) _)) by lia. by destruct (_ || _).
Qed.
End file.

(** An update of a file, on a disk that agrees from the inode blocks on. *)
Section update.
Context (U : Z → Prop) (sb : superblock) (Hgeo : fs_geo U sb).

Lemma updated_live i c V A V' A' j : updated sb i c V A V' A' → live sb A' j ↔ live sb A j.
Proof.
  intros [_ _ _ Hm Ho _]. unfold live. destruct (decide (j = i)) as [->|Hj]; [by rewrite Hm|by rewrite Ho].
Qed.

Lemma updated_trans i c1 c2 V A V1 A1 V2 A2 :
  updated sb i c1 V A V1 A1 → updated sb i c2 V1 A1 V2 A2 → updated sb i c2 V A V2 A2.
Proof.
  intros U1 [Hs Hc Hz Hm Ho Hf]. pose proof U1 as [_ _ _ Hm1 Ho1 Hf1]. split; try done.
  - rewrite Hm at 1. by rewrite Hm1.
  - intros j Hj. by rewrite Ho, Ho1.
  - intros j Hj Hji. rewrite <- (Hf1 j Hj Hji), <- (Ho1 j Hji). apply Hf; [|done]. by eapply updated_live.
Qed.

Lemma updated_agree i c V A V' A' dc :
  updated sb i c V A V' A' → fs_ok sb V' A' → live sb A' i →
  (∀ n, sb_inodestart sb ≤ n < sb_size sb → dc n = V' n) → updated sb i c V A dc A'.
Proof.
  intros Hup Hok Hi Hag. pose proof Hup as [Hs Hc Hz Hm Ho Hf]. split; try done.
  - eapply agree_synced; [done|exact Hag|done].
  - rewrite <- Hc. by eapply agree_contents.
  - intros j Hj Hji. rewrite <- (Hf j Hj Hji). rewrite <- (Ho j Hji) in *.
    eapply agree_contents; [done|exact Hag|done|]. by eapply updated_live.
Qed.
End update.
