(* ===== verification/FsTheorems.v ===== *)
(** * Theorems on files

    What a caller of [readi] and [writei] in [src/fs.c] may rely on, stated for the
    disk interface, and composed with the log for crashes; and a small file system
    on which the hypotheses are checked. *)
From S2P Require Import Prelude Bytes Bio Log Disk Fs FsAlloc FsModel FsFile.

Section crash.
Context {X : Type} {swtch : Devices X}.
Context (lst lsz dsize out comm : Z) (d0 : Z → block) (tr0 : list (Z * block)) (sb : superblock) (p : Z) (x : X).
#[local] Instance laws : DiskOk log := log_disk_ok lst lsz dsize out comm d0 tr0.
Context (Hgeo : fs_geo (usable (DiskOk := laws)) sb).

(** Committing what a call did to the disk [d0], with crashes. *)
Lemma commit_view (s : log) V L :
  repr s V [] L →
  trace (cache s) = tr0 ∧
  ∃ s' w, commit s = Ok tt s' ∧ trace (cache s') = tr0 ++ w ∧
    (∀ n, sb_inodestart sb ≤ n < sb_size sb → disk (cache s') n = V n) ∧
    ∀ k, ∃ s2, recover_from_log (reboot s (apply_writes (take k w) d0)) = Ok tt s2 ∧
      ((∀ n, sb_inodestart sb ≤ n < sb_size sb → disk (cache s2) n = d0 n) ∨
       (∀ n, sb_inodestart sb ≤ n < sb_size sb → disk (cache s2) n = V n)).
Proof.
  intros R. destruct (log_repr_tx _ _ _ _ _ _ _ s V L R) as (bl & _ & Htx).
  destruct (commit_all s bl Htx) as (s' & w & E & _ & Hw & Hd & Hk). destruct R.
  assert (Hhome : ∀ n, sb_inodestart sb ≤ n < sb_size sb → home s n).
  { intros n Hn. pose proof (fg_usable _ _ Hgeo n Hn) as [Hu1 Hu2]. unfold home. by rewrite lr_dsize, lr_start, lr_size. }
  split; [done|]. exists s', w. split_and!; [done|congruence| |].
  - intros n Hn. by rewrite Hd, lr_look by (by apply Hhome).
  - intros k. destruct (Hk k) as [Hld Hc]. rewrite lr_disk in Hld, Hc.
    destruct (reboot_recovers s _ (tx_geo s bl Htx) Hld) as (s2 & E2 & _ & Hr).
    exists s2. split; [done|]. destruct Hc as [Hc|Hc]; [left|right]; intros n Hn;
      rewrite Hr, Hc by (by apply Hhome); [done|apply lr_look].
Qed.

(** C2: A write to a file survives a crash whole or not at all.  [writei] in a transaction of
    its own writes nothing to the disk, and [commit] of that transaction makes the disk
    writes [w], in this order, after which the file has the bytes overwritten; and if the
    machine stops after any prefix of [w] and recovers, the file system is consistent and
    every file is as before, or the file is overwritten and every other file is as before. *)
Theorem writei_crash_atomic s A l k ip src off :
  opened sb s d0 ∅ A l k ip → synced sb d0 A → di_type (A (i_inum ip)) ≠ T_DEV →
  0 ≤ off ≤ di_size (A (i_inum ip)) → off + Z.of_nat (length src) ≤ MAXFILE * BSIZE → Forall is_byte src →
  space sb d0 (A (i_inum ip)) off (Z.of_nat (length src)) →
  Z.of_nat (spend sb ∅ (i_inum ip) (A (i_inum ip))) + touched off (Z.of_nat (length src)) < Z.of_nat log_cap →
  ∃ s' l' A' s2 w, writei k src off (st sb p x s l) = Ok (Z.of_nat (length src)) (st sb p x s' l') ∧
    disk (cache s') = d0 ∧ trace (cache s') = trace (cache s) ∧
    commit s' = Ok tt s2 ∧ trace (cache s2) = trace (cache s') ++ w ∧
    let new := overwrite (contents d0 (A (i_inum ip))) off src in
    fs_ok sb (disk (cache s2)) A' ∧ updated sb (i_inum ip) new d0 A (disk (cache s2)) A' ∧
    ∀ n, ∃ s3, recover_from_log (reboot s' (apply_writes (take n w) d0)) = Ok tt s3 ∧
      let dc := disk (cache s3) in
      (fs_ok sb dc A ∧ synced sb dc A ∧ ∀ j, live sb A j → contents dc (A j) = contents d0 (A j)) ∨
      (fs_ok sb dc A' ∧ updated sb (i_inum ip) new d0 A dc A').
Proof.
  intros O Hsync Ht Ho Hs Hb Hsp Hcap. pose proof O as [R Hok _ _ _ Hl].
  destruct (writei_ok sb p x Hgeo s d0 ∅ A l k ip src off O Hsync Ht Ho Hs Hb Hsp Hcap)
    as (s' & V' & L' & A' & E & O' & Hup & _). cbv zeta in E, O'. pose proof O' as [R' Hok' _ _ _ Hl'].
  destruct (commit_view s d0 ∅ R) as (Ht0 & _). destruct (commit_view s' V' L' R') as (Ht' & s2 & w & Ec & Hw & Hd & Hk).
  exists s'. eexists. exists A', s2, w. cbv zeta.
  split_and!; [exact E|apply R'|congruence|done|congruence|by eapply agree_ok| |].
  - by eapply updated_agree.
  - intros n. destruct (Hk n) as (s3 & E3 & Hc). exists s3. split; [done|].
    destruct Hc as [Hc|Hc]; [left|right]; split_and!; try (by eapply agree_ok).
    + by eapply agree_synced.
    + intros j Hj. by eapply agree_contents.
    + by eapply updated_agree.
Qed.
End crash.

Section files.
Context {D X : Type} {ops : Disk D} {laws : DiskOk D} {swtch : Devices X}.
Context (sb : superblock) (p : Z) (x : X).

(** C7: [writei] writes.  On a file of a consistent file system, with room on the disk
    and in the log, it returns the number of bytes; the file then is the old contents
    with the bytes at [off] overwritten (and extended, if they reach past the end);
    the inodes on disk are those in memory, the file system is consistent, and every
    other file has the contents it had. *)
Theorem writei_overwrites d V L A l k ip src off :
  fs_geo usable sb → opened sb d V L A l k ip → synced sb V A → di_type (A (i_inum ip)) ≠ T_DEV →
  0 ≤ off ≤ di_size (A (i_inum ip)) → off + Z.of_nat (length src) ≤ MAXFILE * BSIZE → Forall is_byte src →
  space sb V (A (i_inum ip)) off (Z.of_nat (length src)) →
  Z.of_nat (spend sb L (i_inum ip) (A (i_inum ip))) + touched off (Z.of_nat (length src)) < Z.of_nat log_cap →
  ∃ d' V' L' A', writei k src off (st sb p x d l) =
      Ok (Z.of_nat (length src)) (st sb p x d' (<[k := with_copy (A' (i_inum ip)) ip]> l)) ∧
    repr d' V' [] L' ∧ fs_ok sb V' A' ∧ synced sb V' A' ∧
    contents V' (A' (i_inum ip)) = overwrite (contents V (A (i_inum ip))) off src ∧
    ∀ j, live sb A j → j ≠ i_inum ip → A' j = A j ∧ contents V' (A' j) = contents V (A j).
Proof.
  intros Hgeo O Hsync Ht Ho Hs Hb Hsp Hcap.
  destruct (writei_ok sb p x Hgeo d V L A l k ip src off O Hsync Ht Ho Hs Hb Hsp Hcap)
    as (d' & V' & L' & A' & E & [R' Hok' _ _ _ _] & [Hs' Hc' _ _ Ho' Hf'] & _).
  exists d', V', L', A'. split_and!; try done. intros j Hj Hji. rewrite Ho' by done. split; [done|by apply Hf'].
Qed.

(** [readi] as a slice of the contents. *)
Lemma readi_slice d V L A l k ip off n :
  fs_geo usable sb → opened sb d V L A l k ip → di_type (A (i_inum ip)) ≠ T_DEV →
  0 ≤ off ≤ di_size (A (i_inum ip)) → 0 ≤ n → off + n < 2 ^ 32 →
  let c := take (Z.to_nat n) (drop (Z.to_nat off) (contents V (A (i_inum ip)))) in
  ∃ d', readi k off n (st sb p x d l) = Ok (Z.of_nat (length c), c) (st sb p x d' l) ∧ opened sb d' V L A l k ip.
Proof.
  intros Hgeo O Ht Ho Hn Hs. cbv zeta. destruct (readi_ok sb p x Hgeo d V L A l k ip off n O Ht Ho Hn Hs) as (d' & E & O').
  set (di := A (i_inum ip)) in *. exists d'. split; [|done]. rewrite E.
  assert (Ec : take (Z.to_nat n) (drop (Z.to_nat off) (contents V di)) = fbytes V di off (Z.min n (di_size di - off))).
  { unfold contents. replace (di_size di) with (off + (di_size di - off)) at 1 by lia.
    rewrite fbytes_app, Z.add_0_l by lia. rewrite drop_app_length' by (rewrite length_fbytes; lia).
    destruct (decide (n ≤ di_size di - off)).
    - rewrite Z.min_l by lia. replace (di_size di - off) with (n + (di_size di - off - n)) at 1 by lia.
      rewrite fbytes_app by lia. apply take_app_length'. rewrite length_fbytes. lia.
    - rewrite Z.min_r by lia. apply take_ge. rewrite length_fbytes. lia. }
  rewrite Ec, length_fbytes. f_equal. f_equal. lia.
Qed.

(** [readi] reads.  At an offset inside the file it returns as many of the bytes
    asked for as the file has, exactly those of the file, and changes neither the
    disk nor the inode. *)
Theorem readi_reads d V L A l k ip off n :
  fs_geo usable sb → opened sb d V L A l k ip → di_type (A (i_inum ip)) ≠ T_DEV →
  0 ≤ off ≤ di_size (A (i_inum ip)) → 0 ≤ n → off + n < 2 ^ 32 →
  let c := take (Z.to_nat n) (drop (Z.to_nat off) (contents V (A (i_inum ip)))) in
  ∃ d', readi k off n (st sb p x d l) = Ok (Z.of_nat (length c), c) (st sb p x d' l) ∧ repr d' V [] L.
Proof.
  intros Hgeo O Ht Ho Hn Hs. destruct (readi_slice d V L A l k ip off n Hgeo O Ht Ho Hn Hs) as (d' & E & O'). exists d'.
  split; [exact E|apply O'].
Qed.

(** Writing and reading back: the bytes [writei] wrote at [off] are the bytes
    [readi] returns for that range. *)
Theorem writei_readi d V L A l k ip src off :
  fs_geo usable sb → opened sb d V L A l k ip → synced sb V A → di_type (A (i_inum ip)) ≠ T_DEV →
  0 ≤ off ≤ di_size (A (i_inum ip)) → off + Z.of_nat (length src) ≤ MAXFILE * BSIZE → Forall is_byte src →
  space sb V (A (i_inum ip)) off (Z.of_nat (length src)) →
  Z.of_nat (spend sb L (i_inum ip) (A (i_inum ip))) + touched off (Z.of_nat (length src)) < Z.of_nat log_cap →
  returns ((writei k src off ;; readi k off (Z.of_nat (length src))) (st sb p x d l))
    (λ r _, r = (Z.of_nat (length src), src)).
Proof.
  intros Hgeo O Hsync Ht Ho Hs Hb Hsp Hcap.
  destruct (writei_ok sb p x Hgeo d V L A l k ip src off O Hsync Ht Ho Hs Hb Hsp Hcap)
    as (d' & V' & L' & A' & E & O' & [_ Hc' Hz' Hm' _ _] & _). cbv zeta in E, O'.
  rewrite (bind_ok _ _ _ _ _ E). set (i := i_inum ip) in *. set (n := Z.of_nat (length src)) in *.
  pose proof O as [_ Hok _ _ _ Hl]. pose proof (size_range sb V A i Hok Hl) as Hsz.
  assert (Hlen : Z.of_nat (length (contents V (A i))) = di_size (A i)) by (unfold contents; rewrite length_fbytes; lia).
  rewrite overwrite_length, Hlen in Hz' by lia. fold n in Hz'.
  destruct (readi_ok sb p x Hgeo d' V' L' A' _ k _ off n O') as (d2 & E2 & _);
    cbn [i_inum with_copy]; fold i; [by rewrite Hm'|lia|lia|sizes; lia|].
  cbn [i_inum with_copy] in E2. fold i in E2. rewrite E2. simpl. rewrite Z.min_l by lia. f_equal.
  assert (Es : fbytes V' (A' i) off n = take (length src) (drop (Z.to_nat off) (contents V' (A' i)))).
  { unfold contents. rewrite Hz'.
    replace (Z.max (di_size (A i)) (off + n)) with (off + (n + (Z.max (di_size (A i)) (off + n) - off - n))) by lia.
    rewrite fbytes_app, Z.add_0_l by lia. rewrite drop_app_length' by (rewrite length_fbytes; lia).
    rewrite fbytes_app by lia. rewrite take_app_length' by (rewrite length_fbytes; lia). done. }
  rewrite Es, Hc'. unfold overwrite. rewrite drop_app_length' by (rewrite length_take; lia).
  apply take_app_length.
Qed.
End files.

(** ** A small file system

    20 blocks: a log of 10 blocks from block 2 on, one block of inodes (12), the
    bitmap (14), data from 15 on.  Inode 1 is an empty file; entry 0 of the inode
    cache holds it. *)

#[local] Instance no_devices : Devices unit := {| dev_read _ := None; dev_write _ := None |}.

Definition ex_sb : superblock := Superblock 20 5 8 10 2 12 14.
Definition ex_dinode : dinode := Dinode T_FILE 0 0 1 0 (replicate 13 0).
Definition ex_disk : Z → block :=
  upd (upd (λ _, replicate 512 0) 12 (store_dinode (replicate 512 0) 1 ex_dinode))
    14 ([255; 127] ++ replicate 510 0).
Definition ex_log : log := Log (binit 20 ex_disk 1) false 2 10 1 0 ROOTDEV 0 (replicate 30 0) 0.
Definition ex_inode : inode := Inode ROOTDEV 1 1 (Some 1) true ex_dinode.
Definition ex_table : Z → dinode := dinode_at ex_sb ex_disk.
#[local] Instance ex_laws : DiskOk log := log_disk_ok 2 10 20 1 0 ex_disk [].

Lemma ex_geo : fs_geo (usable (DiskOk := ex_laws)) ex_sb.
Proof.
  split; try (by vm_compute; first [done|split]). intros n Hn. cbn in *. unfold log_usable. lia.
Qed.

Lemma ex_whole n : whole (ex_disk n).
Proof.
  unfold ex_disk, upd. repeat case_b; split; try done; try (by rewrite length_replicate);
    try (apply Forall_replicate; unfold is_byte; lia).
  - apply Forall_app. split; [by repeat constructor; unfold is_byte; lia|].
    apply Forall_replicate. unfold is_byte. lia.
  - apply store_words_bytes. do 5 apply store_bytes. apply Forall_replicate. lia.
Qed.

Lemma ex_live i : live ex_sb ex_table i → i = 1.
Proof.
  intros [Hi Ht]. cbn in Hi. assert (Hc : i ∈ seqZ 0 8) by (apply elem_of_seqZ; lia).
  change (seqZ 0 8) with [0; 1; 2; 3; 4; 5; 6; 7] in Hc.
  repeat (apply elem_of_cons in Hc as [->|Hc]; [try done; by destruct Ht; vm_compute|]).
  by apply not_elem_of_nil in Hc.
Qed.

Lemma ex_inode_1 : ex_table 1 = ex_dinode.
Proof. by vm_compute. Qed.

Lemma ex_no_addr bn : nth_addr ex_disk ex_dinode bn = 0.
Proof. unfold nth_addr. repeat case_b; try done. apply nth_zeros. Qed.

Lemma ex_owns b : ¬ owns ex_disk ex_dinode b.
Proof. intros [Hb [->|(bn & _ & E)]]; [done|]. by rewrite ex_no_addr in E. Qed.

Lemma ex_used b : 0 ≤ b < 20 → used ex_sb ex_disk b = (b <? 15).
Proof.
  intros Hb. assert (Hall : forallb (λ b, Bool.eqb (used ex_sb ex_disk b) (b <? 15)) (seqZ 0 20) = true) by (by vm_compute).
  rewrite forallb_forall in Hall. apply Bool.eqb_prop, Hall, list_elem_of_In, elem_of_seqZ. lia.
Qed.

Lemma ex_ok : fs_ok ex_sb ex_disk ex_table.
Proof.
  split.
  - intros i ->%ex_live. rewrite ex_inode_1. split.
    + split; try (cbn; lia); [done|]. apply Forall_replicate. lia.
    + intros b []%ex_owns.
    + intros bn bn' _ _. by rewrite ex_no_addr.
    + intros bn _ Hi. by destruct Hi.
    + by vm_compute.
    + intros bn Hbn Hlt. cbn in Hlt. sizes. lia.
  - intros i j b ->%ex_live ->%ex_live. done.
  - intros b Hb. cbn in Hb. rewrite ex_used, Z.ltb_lt by done. change (dstart ex_sb) with 15. split; [by left|].
    intros [?|(i & ->%ex_live & Ho)]; [done|]. rewrite ex_inode_1 in Ho. by apply ex_owns in Ho.
Qed.

Lemma ex_repr : log_repr 2 10 20 1 0 ex_disk [] ex_log ex_disk [] ∅.
Proof.
  destruct (binit_idle 20 ex_disk 1) as (Hw & Hp & Hh).
  split; try done; try (cbn; lia); try (by apply ex_whole).
  - exists []. split_and!; try done; [by apply NoDup_nil_2|]. intros m. split; [by intros ?%Hp|].
    by intros ?%not_elem_of_nil.
  - intros k m. split; [|by intros ?%not_elem_of_nil]. intros Hk. destruct (Hh m). by exists k.
  - by apply NoDup_nil_2.
  - vm_compute. lia.
Qed.

Lemma ex_opened : opened ex_sb ex_log ex_disk ∅ ex_table [ex_inode] 0 ex_inode.
Proof.
  split; [exact ex_repr|exact ex_ok|done|done|symmetry; apply ex_inode_1|]. split; [cbn; lia|].
  change (di_type (ex_table 1) ≠ 0). by rewrite ex_inode_1.
Qed.

Lemma ex_space n : (Z.to_nat (touched 0 n) ≤ 4)%nat → space ex_sb ex_disk ex_dinode 0 n.
Proof.
  intros Hn. right. etrans; [apply Nat.add_le_mono_r|].
  - unfold holes. etrans; [apply length_filter|]. by rewrite length_seqZ.
  - change (demand ex_dinode) with 1%nat. replace (nfree ex_sb ex_disk) with 5%nat by (by vm_compute). lia.
Qed.

Lemma writei_overwrites_witness :
  ∃ d' V' L' A', writei 0 [104; 105] 0 (st ex_sb 1 tt ex_log [ex_inode]) =
      Ok 2 (st ex_sb 1 tt d' [with_copy (A' 1) ex_inode]) ∧
    repr d' V' [] L' ∧ fs_ok ex_sb V' A' ∧ synced ex_sb V' A' ∧
    contents V' (A' 1) = [104; 105] ∧
    ∀ j, live ex_sb ex_table j → j ≠ 1 → A' j = ex_table j ∧ contents V' (A' j) = contents ex_disk (ex_table j).
Proof.
  apply (writei_overwrites ex_sb 1 tt ex_log ex_disk ∅ ex_table [ex_inode] 0 ex_inode [104; 105] 0);
    cbn [i_inum ex_inode]; rewrite ?ex_inode_1;
    [apply ex_geo|apply ex_opened|done|done|cbn; lia|by vm_compute|by repeat constructor; unfold is_byte; lia
    |apply ex_space; vm_compute; lia|by vm_compute].
Defined.

Lemma writei_crash_atomic_witness :
  ∃ s' l' A' s2 w, writei 0 [104; 105] 0 (st ex_sb 1 tt ex_log [ex_inode]) = Ok 2 (st ex_sb 1 tt s' l') ∧
    disk (cache s') = ex_disk ∧ trace (cache s') = trace (cache ex_log) ∧
    commit s' = Ok tt s2 ∧ trace (cache s2) = trace (cache s') ++ w ∧
    let new := [104; 105] in
    fs_ok ex_sb (disk (cache s2)) A' ∧ updated ex_sb 1 new ex_disk ex_table (disk (cache s2)) A' ∧
    ∀ n, ∃ s3, recover_from_log (reboot s' (apply_writes (take n w) ex_disk)) = Ok tt s3 ∧
      let dc := disk (cache s3) in
      (fs_ok ex_sb dc ex_table ∧ synced ex_sb dc ex_table ∧
       ∀ j, live ex_sb ex_table j → contents dc (ex_table j) = contents ex_disk (ex_table j)) ∨
      (fs_ok ex_sb dc A' ∧ updated ex_sb 1 new ex_disk ex_table dc A').
Proof.
  apply (writei_crash_atomic 2 10 20 1 0 ex_disk [] ex_sb 1 tt ex_geo ex_log ex_table [ex_inode] 0 ex_inode [104; 105] 0);
    cbn [i_inum ex_inode]; rewrite ?ex_inode_1;
    [apply ex_opened|done|done|cbn; lia|by vm_compute|by repeat constructor; unfold is_byte; lia
    |apply ex_space; vm_compute; lia|by vm_compute].
Defined.

