(* ===== verification/FsTx.v ===== *)
(** * Transactions in sequence

    Between system calls the log is [quiet]: no call in progress, nothing recorded, the disk up to date.
    [begin_op] opens a transaction on a quiet log, with the promises of [DiskOk]; [end_op] commits it
    and leaves the log quiet again, with the contents the call gave the blocks. *)
From S2P Require Import Prelude Bytes Bio Log Disk.

Section tx.
Context (st sz dsize : Z).

Record quiet (V : Z → block) (s : log) : Prop := {
  q_tx : tx s [];
  q_start : start s = st;
  q_size : size s = sz;
  q_dsize : disksize (cache s) = dsize;
  q_lock : log_lock s = false;
  q_out : outstanding s = 0;
  q_comm : committing s = 0;
  q_look m : look (cache s) m = V m;
  q_whole m : whole (V m)
}.

(** A transaction on the disk [d0]. *)
Definition open_tx (d0 : Z → block) (tr0 : list (Z * block)) : log → (Z → block) → list (nat * Z) → gset Z → Prop :=
  log_repr st sz dsize 1 0 d0 tr0.

Lemma begin_quiet V s :
  quiet V s →
  ∃ s', begin_op s = Ok true s' ∧ open_tx (disk (cache s)) (trace (cache s)) s' V [] ∅.
Proof.
  intros [[G En _ _ _ Hroom _ HQ Hh Hc] Hst Hsz Hds Hl Ho Hcm Hlk Hw]. exists (set_outstanding 1 s). split.
  - unfold begin_op, mbind, cm_bind, acquire, release, get, modify. cbn. rewrite Hl. cbn. rewrite Hcm. cbn.
    rewrite En, Ho. cbn. f_equal. destruct s; cbn in *. by subst.
  - destruct HQ as [Hwf Hheld Hpin]. split; cbn; try done; try lia.
    + destruct G. by split.
    + exists []. split_and!; try done. apply NoDup_nil_2.
    + intros m _. rewrite <- Hlk. eapply settled_look; [by split|]. apply not_elem_of_nil.
    + intros k m. split; [|by intros ?%not_elem_of_nil]. intros Hk. destruct (Hheld m). by exists k.
    + apply NoDup_nil_2.
    + by rewrite <- Hst.
    + by rewrite <- Hst.
    + unfold card. rewrite size_empty. lia.
Qed.

(** ** What a commit writes *)

Lemma put_blocks_bytes d i bl : Forall (λ b, 0 ≤ b < 256) d → Forall (λ b, 0 ≤ b < 256) (put_blocks d i bl).
Proof. revert d i. induction bl as [|b bl IH]; intros d i Hd; [done|]. cbn [put_blocks]. apply IH. by apply store_bytes. Qed.

Lemma hdr_whole d n bl : whole d → (length bl ≤ 30)%nat → whole (hdr d n bl).
Proof. intros [Hl Hb] Hn. split; [by apply length_hdr|]. apply put_blocks_bytes. by apply store_bytes. Qed.

Lemma apply_writes_whole (w : list (Z * block)) d m : Forall (λ x : Z * block, whole x.2) w → (∀ n, whole (d n)) → whole (apply_writes w d m).
Proof.
  intros Hw. revert d. induction Hw as [|[n v] w Hv _ IH]; intros d Hd; [apply Hd|]. cbn.
  apply IH. intros k. unfold upd. by case_b.
Qed.

Lemma zip_whole (ns : list Z) (vs : list block) : Forall whole vs → Forall (λ x : Z * block, whole x.2) (zip ns vs).
Proof.
  intros Hv. revert ns. induction Hv as [|v vs Hv _ IH]; intros [|n ns]; cbn; try constructor; auto.
Qed.

Lemma commit_whole s bl :
  tx s bl → (∀ m, whole (look (cache s) m)) → (∀ m, whole (disk (cache s) m)) → Forall (λ x : Z * block, whole x.2) (w_commit s bl).
Proof.
  intros Htx Hl Hd. unfold w_commit, w_log, w_home, h_clear, h_full.
  assert (Hn : Forall whole (look (cache s) <$> bl)) by (apply Forall_fmap, Forall_forall; intros; apply Hl).
  pose proof (bl_max s bl Htx). assert (Hf : whole (hdr (disk (cache s) (start s)) (Z.of_nat (length bl)) bl)) by by apply hdr_whole.
  apply Forall_app. split; [by apply zip_whole|]. constructor; [done|]. apply Forall_app. split; [by apply zip_whole|].
  constructor; [|constructor]. apply hdr_whole; [done|cbn; lia].
Qed.

(** ** [end_op] *)

Lemma tx_frame s s' bl :
  tx s bl → ldev s' = ldev s → start s' = start s → size s' = size s → cache s' = cache s → lh_n s' = lh_n s →
  lh_block s' = lh_block s → tx s' bl.
Proof.
  intros [[] Hn Ht Hnd Hh] E1 E2 E3 E4 E5 E6. assert (Hh' : Forall (home s') bl).
  { eapply Forall_impl; [exact Hh|]. intros m. unfold home. by rewrite E2, E3, E4. }
  split; [split|..]; rewrite ?E1, ?E2, ?E3, ?E4, ?E5, ?E6; done.
Qed.

Lemma commit_whole_run s bl :
  tx s bl → (∀ m, whole (look (cache s) m)) → (∀ m, whole (disk (cache s) m)) →
  ∃ c lh, commit s = Ok tt (set_lh 0 lh (set_cache c s)) ∧ tx (set_lh 0 lh (set_cache c s)) [] ∧
    disksize c = disksize (cache s) ∧ (∀ x, home s x → disk c x = look (cache s) x) ∧ (∀ x, whole (disk c x)).
Proof.
  intros Htx Hl Hd. destruct (decide (bl = [])) as [->|Hne].
  - exists (cache s), (lh_block s). pose proof Htx as [_ En _ _ _ _ _ HQ _ _].
    assert (Es : set_lh 0 (lh_block s) (set_cache (cache s) s) = s) by (destruct s; cbn in *; by subst). rewrite Es.
    split_and!; try done.
    + unfold commit, mbind, cm_bind, gets. by rewrite En.
    + intros x _. symmetry. apply (settled_look _ [] x HQ), not_elem_of_nil.
  - destruct (commit_run s bl Htx Hne) as (s' & E & Ht & _ & _ & Hz & Hdk & _).
    destruct (commit_frame s tt s') as (c & lh & ->); [rewrite (tx_n s bl Htx); lia|done|].
    exists c, lh. cbn in Hz, Hdk. split_and!; try done.
    + intros x Hx. rewrite Hdk. by apply (commit_end s bl Htx).
    + intros x. rewrite Hdk. apply apply_writes_whole; [by apply commit_whole|done].
Qed.

Lemma end_quiet d0 tr0 s V L :
  open_tx d0 tr0 s V [] L → (∀ m, whole (d0 m)) →
  ∃ s' V', end_op s = Ok tt s' ∧ quiet V' s' ∧ ∀ n, log_usable st sz dsize n → V' n = V n.
Proof.
  intros R Hd0. destruct (log_repr_tx _ _ _ _ _ _ _ s V L R) as (bl & _ & Htx). pose proof R as [].
  set (s1 := set_committing 1 (set_outstanding 0 s)).
  destruct (commit_whole_run s1 bl) as (c & lh & E & Ht & Hz & Hd & Hw).
  { by apply (tx_frame s). }
  { intros m. cbn. rewrite lr_look. apply lr_whole. }
  { intros m. cbn. by rewrite lr_disk. }
  set (s2 := set_lh 0 lh (set_cache c s1)) in *. set (s3 := wakeup_log (set_committing 0 s2)).
  exists s3, (look c). split_and!.
  - unfold end_op, mbind, cm_bind, acquire, release, get, modify, cwhen. rewrite lr_lock. cbn.
    rewrite lr_comm, lr_ops. change (1 - 1) with 0. cbn.
    match goal with |- context [commit ?x] => assert (x = s1) as ->; [|rewrite E] end.
    { unfold s1. destruct s; cbn in *. by subst. }
    cbn. rewrite lr_lock. cbn. f_equal. unfold s3, s2, s1. destruct s; cbn in *. by subst.
  - split; try done.
    + by apply (tx_frame s2).
    + by rewrite <- lr_dsize.
    + intros m. pose proof (tx_settled _ _ Ht) as HQ. cbn in HQ.
      rewrite (settled_look c [] m HQ (not_elem_of_nil _)). apply Hw.
  - intros n Hn. pose proof (tx_settled _ _ Ht) as HQ. cbn in HQ.
    rewrite (settled_look c [] n HQ (not_elem_of_nil _)). rewrite Hd; [apply lr_look|].
    destruct Hn. unfold home. cbn. by rewrite lr_dsize, lr_start, lr_size.
Qed.
End tx.
