(* ===== verification/FsInode.v ===== *)
(** * The inode cache

    [iget], [idup], [ilock], [iunlock] and [iput] of [src/fs.c] as operations on reference
    counts: [icache] relates the table in memory to the inodes [A] of the file system and
    to the number [rc] of references to each of them.  The cases of [iput] that free an inode are
    not used here: every caller holds an inode that has a name or another reference. *)
From S2P Require Import Prelude Bytes Bio Log Disk Fs FsAlloc FsModel FsFile.

Definition count (rc : Z → Z) (i n : Z) : Z → Z := upd rc i (rc i + n).

Lemma count_at rc i n j : count rc i n j = rc j + (if j =? i then n else 0).
Proof. unfold count, upd. case_b; subst; lia. Qed.

Section cache.
Context {D X : Type} {ops : Disk D} {laws : DiskOk D} {swtch : Devices X}.
Context (sb : superblock) (p : Z) (x : X) (Hgeo : fs_geo usable sb).
Local Abbreviation state := (st (D := D) sb p x).

(** At most one inode is locked, by the process. *)
Record icache (A : Z → dinode) (rc : Z → Z) (locked : option nat) (l : list inode) : Prop := {
  ic_len : length l = NINODE;
  ic_rc i : 0 ≤ rc i;
  ic_there i : 0 < rc i → ∃ k ip, l !! k = Some ip ∧ i_inum ip = i ∧ 0 < i_ref ip;
  ic_pos k ip : l !! k = Some ip → 0 ≤ i_ref ip;
  ic_ref k ip : l !! k = Some ip → 0 < i_ref ip → rc (i_inum ip) = i_ref ip;
  ic_live k ip : l !! k = Some ip → 0 < i_ref ip → i_dev ip = ROOTDEV ∧ live sb A (i_inum ip);
  ic_uniq k k' ip ip' : l !! k = Some ip → l !! k' = Some ip' → 0 < i_ref ip → 0 < i_ref ip' →
    i_inum ip = i_inum ip' → k = k';
  ic_valid k ip : l !! k = Some ip → 0 < i_ref ip → i_valid ip = true → i_copy ip = A (i_inum ip);
  ic_owner k ip : l !! k = Some ip → i_owner ip = if decide (locked = Some k) then Some p else None
}.

(** The entries in use keep what they hold, except for the count. *)
Definition stay (l l' : list inode) : Prop :=
  ∀ k ip, l !! k = Some ip → 0 < i_ref ip → ∃ r, i_ref ip ≤ r ∧ l' !! k = Some (with_ref r ip).

Lemma icache_ext A rc rc' locked l : (∀ i, rc' i = rc i) → icache A rc locked l → icache A rc' locked l.
Proof. intros E []. split; try done; intros; rewrite ?E in *; eauto. Qed.

(** ** [iget] *)

Definition caches (dev inum : Z) (ip : inode) : bool := (0 <? i_ref ip) && (i_dev ip =? dev) && (i_inum ip =? inum).

Lemma iget_scan_spec dev inum l i empty :
  match iget_scan dev inum l i empty with
  | inl j => ∃ k ip, j = (i + k)%nat ∧ l !! k = Some ip ∧ caches dev inum ip = true
  | inr e => (∀ k ip, l !! k = Some ip → caches dev inum ip = false) ∧
      match e with
      | Some j => empty = Some j ∨ ∃ k ip, j = (i + k)%nat ∧ l !! k = Some ip ∧ i_ref ip = 0
      | None => empty = None ∧ ∀ k ip, l !! k = Some ip → i_ref ip ≠ 0
      end
  end.
Proof.
  revert i empty. induction l as [|ip l IH]; intros i empty; cbn [iget_scan].
  { split; [done|]. destruct empty; [by left|done]. }
  change ((0 <? i_ref ip) && _ && _) with (caches dev inum ip). destruct (caches dev inum ip) eqn:Ec.
  { exists 0%nat, ip. split_and!; [lia|done|done]. }
  set (empty' := match empty with Some _ => empty | None => _ end).
  specialize (IH (S i) empty'). destruct (iget_scan dev inum l (S i) empty') as [j|e].
  - destruct IH as (k & jp & -> & Hk & Hc). exists (S k), jp. split_and!; [lia|done|done].
  - destruct IH as [Hno He]. split.
    { intros [|k] jp; cbn; [by intros [= <-]|apply Hno]. }
    destruct e as [j|].
    + destruct He as [He|(k & jp & -> & Hk & Hr)]; [|right; exists (S k), jp; split_and!; [lia|done|done]].
      unfold empty' in He. destruct empty; [by left|]. destruct (i_ref ip =? 0) eqn:Er; [|done]. zbool.
      injection He as <-. right. exists 0%nat, ip. split_and!; [lia|done|done].
    + destruct He as [He Hne]. unfold empty' in He. destruct empty; [done|]. split; [done|].
      destruct (i_ref ip =? 0) eqn:Er; [done|]. zbool. intros [|k] jp; cbn; [by intros [= <-]|apply Hne].
Qed.

(** ** Changing one entry *)

Section entry.
Context (A : Z → dinode) (rc : Z → Z) (locked : option nat) (l : list inode).
Context (IC : icache A rc locked l) (k : nat) (ip : inode) (Hk : l !! k = Some ip).

Lemma lookup_put jp j q : <[k := jp]> l !! j = Some q → j = k ∧ q = jp ∨ j ≠ k ∧ l !! j = Some q.
Proof.
  intros Hj. destruct (decide (j = k)) as [->|Hne].
  - left. rewrite list_lookup_insert_eq in Hj by (by eapply lookup_lt_Some). naive_solver.
  - right. by rewrite list_lookup_insert_ne in Hj.
Qed.

Lemma put_same jp : <[k := jp]> l !! k = Some jp.
Proof. apply list_lookup_insert_eq. by eapply lookup_lt_Some. Qed.

(** Another count. *)
Lemma icache_ref r :
  0 < i_ref ip → 0 ≤ r → icache A (upd rc (i_inum ip) r) locked (<[k := with_ref r ip]> l).
Proof.
  intros Hr Hr'. destruct IC. split.
  - by rewrite length_insert.
  - intros i. unfold upd. by case_b.
  - intros i. unfold upd. destruct (i =? i_inum ip) eqn:E; zbool; intros Hi.
    + exists k, (with_ref r ip). split; [apply put_same|]. done.
    + destruct (ic_there0 i Hi) as (j & jp & Hj & Hjn & Hjr). exists j, jp. split; [|done].
      rewrite list_lookup_insert_ne; [done|]. intros ->. naive_solver.
  - intros j jp [[-> ->]|[? ?]]%lookup_put; [done|by eapply ic_pos0].
  - intros j jp [[-> ->]|[? Hj]]%lookup_put Hjr; cbn in *.
    + by rewrite upd_eq.
    + rewrite upd_ne; [by eapply ic_ref0|]. intros E. apply H. by eapply ic_uniq0.
  - intros j jp [[-> ->]|[? Hj]]%lookup_put Hjr; [apply (ic_live0 _ _ Hk Hr)|by eapply ic_live0].
  - intros j j' jp jp' [[-> ->]|[? Hj]]%lookup_put [[-> ->]|[? Hj']]%lookup_put ???; cbn in *; try done;
      (eapply ic_uniq0; [eassumption..|done]).
  - intros j jp [[-> ->]|[? Hj]]%lookup_put Hjr Hv; cbn in *; [by apply (ic_valid0 _ _ Hk Hr)|by eapply ic_valid0].
  - intros j jp [[-> ->]|[? Hj]]%lookup_put; cbn in *; by eapply ic_owner0.
Qed.

(** The same inode with another state of its lock and copy. *)
Lemma icache_put jp locked' :
  i_dev jp = i_dev ip → i_inum jp = i_inum ip → i_ref jp = i_ref ip →
  (i_valid jp = true → 0 < i_ref ip → i_copy jp = A (i_inum ip)) →
  i_owner jp = (if decide (locked' = Some k) then Some p else None) →
  (∀ j, j ≠ k → locked' = Some j ↔ locked = Some j) → icache A rc locked' (<[k := jp]> l).
Proof.
  intros Hd Hi Hr Hv Ho Hlk. destruct IC. split.
  - by rewrite length_insert.
  - done.
  - intros i Hrc. destruct (ic_there0 i Hrc) as (j & q & Hj & Hji & Hjr).
    destruct (decide (j = k)) as [->|Hne].
    + exists k, jp. split; [apply put_same|]. naive_solver congruence.
    + exists j, q. by rewrite list_lookup_insert_ne by done.
  - intros j q [[-> ->]|[? Hj]]%lookup_put; [rewrite Hr; by apply (ic_pos0 _ _ Hk)|by eapply ic_pos0].
  - intros j q [[-> ->]|[? Hj]]%lookup_put Hjr; [rewrite Hi, Hr in *; by apply (ic_ref0 _ _ Hk)|by eapply ic_ref0].
  - intros j q [[-> ->]|[? Hj]]%lookup_put Hjr; [rewrite Hd, Hi, Hr in *; by apply (ic_live0 _ _ Hk)|by eapply ic_live0].
  - intros j j' q q' [[-> ->]|[? Hj]]%lookup_put [[-> ->]|[? Hj']]%lookup_put Hjr Hjr' E; try done;
      rewrite ?Hi, ?Hr in *; (eapply ic_uniq0; [eassumption..|done]).
  - intros j q [[-> ->]|[? Hj]]%lookup_put Hjr Hvj; [rewrite Hi; apply Hv; [done|by rewrite <- Hr]|by eapply ic_valid0].
  - intros j q [[-> ->]|[? Hj]]%lookup_put; [done|].
    rewrite (ic_owner0 _ _ Hj). destruct (decide (locked = Some j)), (decide (locked' = Some j)); naive_solver.
Qed.

Lemma stay_ref r : i_ref ip ≤ r → stay l (<[k := with_ref r ip]> l).
Proof.
  intros Hle j jp Hj Hr. destruct (decide (j = k)) as [->|Hne].
  - exists r. rewrite put_same. naive_solver.
  - exists (i_ref jp). rewrite list_lookup_insert_ne, Hj by done. split; [lia|]. by destruct jp.
Qed.

(** A free entry for an inode that is not in the cache. *)
Lemma icache_new inum :
  i_ref ip = 0 → rc inum = 0 → live sb A inum →
  icache A (upd rc inum 1) locked (<[k := Inode ROOTDEV inum 1 (i_owner ip) false (i_copy ip)]> l).
Proof.
  intros Hr Hrc Hlive. destruct IC. split.
  - by rewrite length_insert.
  - intros i. unfold upd. by case_b.
  - intros i. unfold upd. destruct (i =? inum) eqn:E; zbool; intros Hi.
    + eexists k, _. split; [apply put_same|]. done.
    + destruct (ic_there0 i Hi) as (j & jp & Hj & Hjn & Hjr). exists j, jp. split; [|done].
      rewrite list_lookup_insert_ne; [done|]. intros ->. naive_solver lia.
  - intros j jp [[-> ->]|[? ?]]%lookup_put; [done|by eapply ic_pos0].
  - intros j jp [[-> ->]|[? Hj]]%lookup_put Hjr; cbn in *; [by rewrite upd_eq|].
    rewrite upd_ne; [by eapply ic_ref0|]. intros E. pose proof (ic_ref0 _ _ Hj Hjr). rewrite E in *. lia.
  - intros j jp [[-> ->]|[? Hj]]%lookup_put Hjr; [done|by eapply ic_live0].
  - assert (Hno : ∀ j jp, l !! j = Some jp → 0 < i_ref jp → i_inum jp ≠ inum).
    { intros j jp Hj Hjr E. pose proof (ic_ref0 _ _ Hj Hjr). rewrite E in *. lia. }
    intros j j' jp jp' [[-> ->]|[? Hj]]%lookup_put [[-> ->]|[? Hj']]%lookup_put ???; cbn in *; try done.
    + exfalso. by eapply Hno.
    + exfalso. by eapply Hno.
    + by eapply ic_uniq0.
  - intros j jp [[-> ->]|[? Hj]]%lookup_put Hjr Hv; cbn in *; [done|by eapply ic_valid0].
  - intros j jp [[-> ->]|[? Hj]]%lookup_put; cbn in *; by eapply ic_owner0.
Qed.

Lemma stay_new jp : i_ref ip = 0 → stay l (<[k := jp]> l).
Proof.
  intros Hr j q Hj Hq. exists (i_ref q). rewrite list_lookup_insert_ne by naive_solver lia.
  rewrite Hj. split; [lia|]. by destruct q.
Qed.
End entry.

(** There is a free entry when fewer than [NINODE] inodes are referenced. *)
Lemma icache_room A rc locked l (S : list Z) :
  icache A rc locked l → (∀ i, 0 < rc i → i ∈ S) → (length S < NINODE)%nat → ∃ k ip, l !! k = Some ip ∧ i_ref ip = 0.
Proof.
  intros IC HS Hlen. destruct (decide (Exists (λ ip, i_ref ip = 0) l)) as [Hex|Hno].
  { apply Exists_exists in Hex as (ip & [k Hk]%list_elem_of_lookup & Hr). eauto. }
  exfalso. assert (Hall : ∀ k ip, l !! k = Some ip → 0 < i_ref ip).
  { intros k ip Hk. pose proof (ic_pos _ _ _ _ IC _ _ Hk). destruct (decide (i_ref ip = 0)) as [E|]; [|lia].
    exfalso. apply Hno, Exists_exists. exists ip. split; [by eapply list_elem_of_lookup_2|done]. }
  assert (Hnd : NoDup (i_inum <$> l)).
  { apply NoDup_alt. intros i j v Hi Hj. rewrite list_lookup_fmap in Hi, Hj.
    destruct (l !! i) as [ip|] eqn:Ei, (l !! j) as [jp|] eqn:Ej; try done. cbn in *. simplify_eq.
    eapply (ic_uniq _ _ _ _ IC); eauto. }
  assert (Hsub : i_inum <$> l ⊆+ S).
  { apply NoDup_submseteq; [done|]. intros i Hi. apply list_elem_of_fmap in Hi as (ip & -> & [k Hk]%list_elem_of_lookup).
    apply HS. rewrite (ic_ref _ _ _ _ IC _ _ Hk); eauto. }
  apply submseteq_length in Hsub. rewrite length_fmap, (ic_len _ _ _ _ IC) in Hsub. lia.
Qed.

Lemma state_lock d l : acquire ic_lock set_ic_lock (state d l) = Ok tt (Fs d sb l true p x).
Proof. done. Qed.

Lemma iget_ok A rc locked l d inum :
  icache A rc locked l → live sb A inum → (rc inum = 0 → ∃ k ip, l !! k = Some ip ∧ i_ref ip = 0) →
  ∃ j jp l', iget ROOTDEV inum (state d l) = Ok j (state d l') ∧ icache A (count rc inum 1) locked l' ∧
    stay l l' ∧ l' !! j = Some jp ∧ i_inum jp = inum ∧ 0 < i_ref jp.
Proof.
  intros IC Hlive Hroom. unfold iget. rewrite (bind_ok _ _ _ _ _ (state_lock d l)), bind_gets. cbn [inodes].
  pose proof (iget_scan_spec ROOTDEV inum l 0 None) as Hs.
  destruct (iget_scan ROOTDEV inum l 0 None) as [j|[j|]]; unfold inode_upd.
  - destruct Hs as (k & ip & -> & Hk & Hc). unfold caches in Hc. zbool. cbn [plus].
    assert (E : inode_at k (Fs d sb l true p x) = Ok ip (Fs d sb l true p x)) by (unfold inode_at; cbn; by rewrite Hk).
    exists k, (with_ref (i_ref ip + 1) ip), (<[k := with_ref (i_ref ip + 1) ip]> l). split_and!.
    + cbn. unfold mbind, cm_bind. by rewrite E.
    + unfold count. subst inum. rewrite (ic_ref _ _ _ _ IC _ _ Hk) by done. eapply icache_ref; [done..|lia].
    + eapply stay_ref; [done|lia].
    + by eapply put_same.
    + done.
    + cbn. lia.
  - destruct Hs as [Hno [Hs|(k & ip & -> & Hk & Hr)]]; [done|]. cbn [plus].
    assert (E : inode_at k (Fs d sb l true p x) = Ok ip (Fs d sb l true p x)) by (unfold inode_at; cbn; by rewrite Hk).
    assert (Hrc : rc inum = 0).
    { pose proof (ic_rc _ _ _ _ IC inum). destruct (decide (rc inum = 0)); [done|exfalso].
      destruct (ic_there _ _ _ _ IC inum) as (k' & ip' & Hk' & Hi & Hr'); [lia|].
      specialize (Hno _ _ Hk'). destruct (ic_live _ _ _ _ IC _ _ Hk' Hr') as [Hd _]. unfold caches in Hno.
      rewrite Hd, Hi, !Z.eqb_refl in Hno. lia. }
    eexists k, _, _. split_and!.
    + cbn. unfold mbind, cm_bind. by rewrite E.
    + unfold count. rewrite Hrc. by eapply icache_new.
    + by eapply stay_new.
    + by eapply put_same.
    + done.
    + done.
  - destruct Hs as [Hno [_ Hs]]. exfalso. destruct (decide (rc inum = 0)) as [E|Hrc].
    + destruct (Hroom E) as (k & ip & Hk & Hr). by eapply Hs.
    + pose proof (ic_rc _ _ _ _ IC inum). destruct (ic_there _ _ _ _ IC inum) as (k' & ip' & Hk' & Hi & Hr'); [lia|].
      specialize (Hno _ _ Hk'). destruct (ic_live _ _ _ _ IC _ _ Hk' Hr') as [Hd _]. unfold caches in Hno.
      rewrite Hd, Hi, !Z.eqb_refl in Hno. lia.
Qed.

(** ** The other operations, on an entry in use *)

Section hold.
Context (A : Z → dinode) (rc : Z → Z) (l : list inode) (d : D) (k : nat) (ip : inode).
Context (Hk : l !! k = Some ip) (Hr : 0 < i_ref ip).

Lemma entry_at b : inode_at k (Fs d sb l b p x) = Ok ip (Fs d sb l b p x).
Proof. unfold inode_at. cbn. by rewrite Hk. Qed.

Lemma idup_ok locked :
  icache A rc locked l →
  ∃ l', idup k (state d l) = Ok k (state d l') ∧ icache A (count rc (i_inum ip) 1) locked l' ∧ stay l l' ∧
    l' !! k = Some (with_ref (i_ref ip + 1) ip).
Proof.
  intros IC. exists (<[k := with_ref (i_ref ip + 1) ip]> l). split_and!.
  - unfold idup. rewrite (bind_ok _ _ _ _ _ (state_lock d l)). unfold inode_upd. cbn.
    unfold mbind, cm_bind. by rewrite entry_at.
  - unfold count. rewrite (ic_ref _ _ _ _ IC _ _ Hk) by done. eapply icache_ref; [done..|lia].
  - eapply stay_ref; [done|lia].
  - by eapply put_same.
Qed.

(** The entry as [ilock] leaves it. *)
Definition loaded : inode := Inode (i_dev ip) (i_inum ip) (i_ref ip) (Some p) true (A (i_inum ip)).

Lemma icache_loaded : icache A rc None l → icache A rc (Some k) (<[k := loaded]> l).
Proof. intros IC. eapply icache_put; try done; [by rewrite decide_True|naive_solver]. Qed.

Lemma ilock_ok V L :
  icache A rc None l → repr d V [] L → synced sb V A →
  ∃ d', ilock (Some k) (state d l) = Ok tt (state d' (<[k := loaded]> l)) ∧ repr d' V [] L.
Proof.
  intros IC R Hsync. unfold ilock. rewrite (bind_ok _ _ _ _ _ (entry_at false)).
  rewrite (proj2 (Z.ltb_ge (i_ref ip) 1)) by lia.
  pose proof (ic_owner _ _ _ _ IC _ _ Hk) as Ho. rewrite decide_False in Ho by done.
  destruct (ic_live _ _ _ _ IC _ _ Hk Hr) as [Hdev Hlive].
  set (l1 := <[k := with_iowner (Some p) ip]> l).
  assert (E1 : iacquire k (state d l) = Ok tt (state d l1)).
  { unfold iacquire. rewrite (bind_ok _ _ _ _ _ (entry_at false)), bind_gets. cbn [fpid]. by rewrite Ho. }
  rewrite (bind_ok _ _ _ _ _ E1).
  destruct (i_valid ip) eqn:Ev.
  { exists d. split; [|done]. cbn. do 2 f_equal. unfold l1. f_equal. f_equal.
    unfold loaded, with_iowner. rewrite <- (ic_valid _ _ _ _ IC _ _ Hk Hr Ev), Ev. done. }
  rewrite bind_gets. cbn [fsb state st].
  pose proof (inode_block_range _ _ Hgeo _ (proj1 Hlive)) as Hbr. pose proof (geo_order _ _ Hgeo). pose proof (fg_data _ _ Hgeo).
  assert (Hu : usable (IBLOCK (i_inum ip) sb)) by (apply (fg_usable _ _ Hgeo); lia).
  rewrite Hdev. destruct (st_bread sb p x d l1 V [] L _ R Hu) as (bp & d1 & E2 & R1); [apply not_elem_of_nil|cbn; lia|].
  rewrite (bind_ok _ _ _ _ _ E2), (bind_ok _ _ _ _ _ (st_get sb p x d1 l1 V _ L bp _ R1 ltac:(left))).
  set (l2 := <[k := with_copy (A (i_inum ip)) (with_iowner (Some p) ip)]> l).
  assert (Hk1 : l1 !! k = Some (with_iowner (Some p) ip)) by by eapply put_same.
  assert (E3 : copy_upd k (λ _, load_dinode (V (IBLOCK (i_inum ip) sb)) (Z.to_nat (i_inum ip mod IPB))) (state d1 l1) =
               Ok tt (state d1 l2)).
  { erewrite copy_upd_ok by done. unfold l1. rewrite list_insert_insert_eq. unfold l2. do 2 f_equal. f_equal. f_equal.
    change (load_dinode _ _) with (dinode_at sb V (i_inum ip)). by rewrite (Hsync _ (proj1 Hlive)). }
  rewrite (bind_ok _ _ _ _ _ E3).
  destruct (st_brelse sb p x d1 l2 V [] L bp _ R1) as (d2 & E4 & R2). rewrite (bind_ok _ _ _ _ _ E4).
  assert (Hk2 : l2 !! k = Some (with_copy (A (i_inum ip)) (with_iowner (Some p) ip))) by by eapply put_same.
  assert (E5 : inode_upd k (with_valid true) (state d2 l2) = Ok tt (state d2 (<[k := loaded]> l))).
  { unfold inode_upd. erewrite bind_ok by (by apply inode_at_ok). unfold inode_set, modify, set_inodes, l2, st.
    cbn [inodes dsk fsb ic_lock fpid devs]. rewrite list_insert_insert_eq. done. }
  rewrite (bind_ok _ _ _ _ _ E5).
  erewrite bind_ok by (apply inode_at_ok; by eapply put_same). cbn [i_copy loaded].
  rewrite (proj2 (Z.eqb_neq _ _)) by apply Hlive. eauto.
Qed.

(** An entry the process has locked. *)
Lemma icache_unlocked :
  icache A rc (Some k) l → icache A rc None (<[k := with_iowner None ip]> l).
Proof. intros IC. eapply icache_put; try done; [|naive_solver]. intros Hv _. by apply (ic_valid _ _ _ _ IC _ _ Hk Hr). Qed.

Lemma iunlock_ok :
  icache A rc (Some k) l → iunlock (Some k) (state d l) = Ok tt (state d (<[k := with_iowner None ip]> l)).
Proof.
  intros IC. pose proof (ic_owner _ _ _ _ IC _ _ Hk) as Ho. rewrite decide_True in Ho by done.
  assert (E1 : iholding k (state d l) = Ok true (state d l)).
  { unfold iholding. rewrite (bind_ok _ _ _ _ _ (entry_at false)), bind_gets. cbn [fpid st]. by rewrite Ho, Z.eqb_refl. }
  unfold iunlock. rewrite (bind_ok _ _ _ _ _ E1), (bind_ok _ _ _ _ _ (entry_at false)). cbn [negb orb].
  rewrite (proj2 (Z.ltb_ge (i_ref ip) 1)) by lia. unfold irelease, inode_upd.
  by rewrite (bind_ok _ _ _ _ _ (entry_at false)).
Qed.

(** A reference that is not the last one to an inode without a name. *)
Lemma iput_ok locked :
  icache A rc locked l → locked ≠ Some k → (di_nlink (A (i_inum ip)) = 0 → i_ref ip ≠ 1) →
  iput k (state d l) = Ok tt (state d (<[k := with_ref (i_ref ip - 1) ip]> l)) ∧
  icache A (count rc (i_inum ip) (- 1)) locked (<[k := with_ref (i_ref ip - 1) ip]> l).
Proof.
  intros IC Hlk Hlast. split.
  - pose proof (ic_owner _ _ _ _ IC _ _ Hk) as Ho. rewrite decide_False in Ho by done.
    unfold iput. set (l1 := <[k := with_iowner (Some p) ip]> l).
    assert (E1 : iacquire k (state d l) = Ok tt (state d l1)).
    { unfold iacquire. rewrite (bind_ok _ _ _ _ _ (entry_at false)), bind_gets. cbn [fpid]. by rewrite Ho. }
    rewrite (bind_ok _ _ _ _ _ E1).
    assert (Hk1 : l1 !! k = Some (with_iowner (Some p) ip)) by by eapply put_same.
    assert (E2 : ∀ b, inode_at k (Fs d sb l1 b p x) = Ok (with_iowner (Some p) ip) (Fs d sb l1 b p x))
      by (intros b; unfold inode_at; cbn; by rewrite Hk1).
    rewrite (bind_ok _ _ _ _ _ (E2 false)). cbn [i_valid i_copy with_iowner].
    match goal with |- (?body ≫= _) _ = _ => assert (E3 : body (state d l1) = Ok tt (state d l1)) end.
    { destruct (i_valid ip) eqn:Ev; [|done]. cbn [andb].
      destruct (di_nlink (i_copy ip) =? 0) eqn:En; [|done]. zbool.
      rewrite (ic_valid _ _ _ _ IC _ _ Hk Hr Ev) in En. specialize (Hlast En).
      rewrite (bind_ok _ _ _ _ _ (state_lock d l1)), (bind_ok _ _ _ _ _ (E2 true)).
      cbn [i_ref with_iowner]. rewrite (proj2 (Z.eqb_neq _ _) Hlast). done. }
    rewrite (bind_ok _ _ _ _ _ E3).
    assert (E4 : irelease k (state d l1) = Ok tt (state d l)).
    { unfold irelease, inode_upd. rewrite (bind_ok _ _ _ _ _ (E2 false)). unfold inode_set, modify, set_inodes, l1, st.
      cbn [inodes dsk fsb ic_lock fpid devs]. rewrite list_insert_insert_eq. do 2 f_equal. apply list_insert_id. rewrite Hk. f_equal.
      unfold with_iowner. cbn. rewrite <- Ho. by destruct ip. }
    rewrite (bind_ok _ _ _ _ _ E4), (bind_ok _ _ _ _ _ (state_lock d l)). unfold inode_upd. cbn. unfold mbind, cm_bind.
    by rewrite entry_at.
  - unfold count. rewrite (ic_ref _ _ _ _ IC _ _ Hk) by done. eapply icache_ref; [done..|lia].
Qed.
(** A process that drops an inode it has locked waits for itself. *)
Lemma iput_locked : icache A rc (Some k) l → iput k (state d l) = Ub "sleeps".
Proof.
  intros IC. pose proof (ic_owner _ _ _ _ IC _ _ Hk) as Ho. rewrite decide_True in Ho by done.
  unfold iput, iacquire. cbn. unfold mbind, cm_bind. change (state d l) with (Fs d sb l false p x).
  rewrite entry_at. cbn. by rewrite Ho.
Qed.
End hold.

Lemma iunlockput_ok A rc l d k ip :
  l !! k = Some ip → 0 < i_ref ip → icache A rc (Some k) l → (di_nlink (A (i_inum ip)) = 0 → i_ref ip ≠ 1) →
  let l' := <[k := with_ref (i_ref ip - 1) (with_iowner None ip)]> l in
  iunlockput k (state d l) = Ok tt (state d l') ∧ icache A (count rc (i_inum ip) (- 1)) None l'.
Proof.
  intros Hk Hr IC Hlast. unfold iunlockput. rewrite (bind_ok _ _ _ _ _ (iunlock_ok A rc l d k ip Hk Hr IC)).
  pose proof (icache_unlocked A rc l k ip Hk Hr IC) as IC1. set (l1 := <[k := with_iowner None ip]> l) in *.
  assert (Hk1 : l1 !! k = Some (with_iowner None ip)) by by eapply put_same.
  destruct (iput_ok A rc l1 d k (with_iowner None ip) Hk1 Hr None IC1 ltac:(done) Hlast) as [E IC2].
  unfold l1 in E, IC2. rewrite list_insert_insert_eq in E, IC2. done.
Qed.
End cache.
