(* ===== verification/FsDir.v ===== *)
(** * Directories and paths

    A directory is the list of its 16-byte entries, a path the list of its
    elements.  [dirlookup] finds the first entry with a name, [dirlink] adds one, and [namei]
    follows a path from directory to directory, with the references of the inode cache as
    they were plus the one it returns. *)
From S2P Require Import Prelude CString Bytes Bio Log Disk Fs FsAlloc FsModel FsFile FsInode.

(** ** Directories as lists of entries *)

Definition entries (c : list Z) : list (list Z) := (λ n, take 16 (drop (16 * n) c)) <$> seq 0 (length c / 16).

(** The name in a buffer of [DIRSIZ] bytes. *)
Definition dname (b : list Z) : list Z := cstr (take DIRSIZ b).

(** The inode number and the offset of the first entry of that name. *)
Fixpoint dir_find (name : list Z) (es : list (list Z)) (off : Z) : option (Z * Z) :=
  match es with
  | [] => None
  | e :: es =>
      if decide (de_inum e ≠ 0 ∧ dname (de_name e) = name) then Some (de_inum e, off)
      else dir_find name es (off + DIRENT)
  end.

Definition lookup_name (V : Z → block) (di : dinode) (name : list Z) : option (Z * Z) :=
  dir_find name (entries (contents V di)) 0.

(** A directory: whole entries, whose inode numbers are of live inodes. *)
Record dir_ok (sb : superblock) (V : Z → block) (A : Z → dinode) (di : dinode) : Prop := {
  dir_size : (16 | di_size di);
  dir_live e : e ∈ entries (contents V di) → de_inum e ≠ 0 → live sb A (de_inum e)
}.

(** A name that [strncmp] and [strncpy] can read. *)
Record name_buf (b : list Z) : Prop := {
  nb_end : (DIRSIZ ≤ length b)%nat ∨ 0 ∈ b;
  nb_bytes : Forall (λ c, 0 ≤ c < 256) b
}.

Lemma strncmp_app p r q n : 0 ∈ p → strncmp (p ++ r) q n = strncmp p q n.
Proof.
  revert p q. induction n as [|n IH]; intros p q Hp; [done|]. destruct p as [|a p]; [by apply not_elem_of_nil in Hp|].
  cbn. destruct q as [|b q]; [done|]. destruct (a =? 0) eqn:Ea; [done|]. cbn. destruct (a =? b); [|done].
  apply IH. zbool. by apply elem_of_cons in Hp as [?|?].
Qed.

Lemma cstr_app_nul p r : 0 ∈ p → cstr (p ++ r) = cstr p.
Proof.
  induction p as [|a p IH]; intros Hp; [by apply not_elem_of_nil in Hp|]. cbn. destruct (a =? 0) eqn:Ea; [done|].
  f_equal. zbool. apply IH. by apply elem_of_cons in Hp as [?|?].
Qed.

Lemma cstr_take_app n p r : 0 ∈ p → cstr (take n (p ++ r)) = cstr (take n p).
Proof.
  intros Hp. destruct (decide (n ≤ length p)%nat).
  - by rewrite take_app_le.
  - rewrite take_app_ge, (take_ge p) by lia. by apply cstr_app_nul.
Qed.

(** [namecmp] decides equality of names. *)
Lemma namecmp_ok s t :
  name_buf s → (DIRSIZ ≤ length t)%nat → Forall (λ c, 0 ≤ c < 256) t →
  ∃ c, namecmp s t = Some c ∧ (c = 0 ↔ dname t = dname s).
Proof.
  intros [Hs Bs] Ht Bt. unfold namecmp, dname.
  assert (Hgo : ∀ s', (DIRSIZ ≤ length s')%nat → Forall (λ c, 0 ≤ c < 256) s' →
            ∃ c, strncmp s' t DIRSIZ = Some c ∧ (c = 0 ↔ cstr (take DIRSIZ t) = cstr (take DIRSIZ s'))).
  { intros s' Hl Hb. destruct (strncmp_eq s' t DIRSIZ) as (c & E & Hc); [done..|]. exists c. split; [done|].
    rewrite Hc. split; by intros ->. }
  destruct Hs as [Hs|Hs]; [by apply Hgo|].
  destruct (Hgo (s ++ replicate DIRSIZ 0)) as (c & E & Hc).
  { rewrite length_app, length_replicate. lia. }
  { apply Forall_app. split; [done|]. apply Forall_replicate. lia. }
  rewrite strncmp_app in E by done. rewrite cstr_take_app in Hc by done. eauto.
Qed.

Lemma entries_length c : length (entries c) = (length c / 16)%nat.
Proof. unfold entries. by rewrite length_fmap, length_seq. Qed.

Lemma entries_lookup c n : (n < length c / 16)%nat → entries c !! n = Some (take 16 (drop (16 * n) c)).
Proof. intros Hn. unfold entries. rewrite list_lookup_fmap, lookup_seq_lt by done. done. Qed.

(** The entry at an offset of a directory on disk. *)
Lemma fbytes_slice V di off n :
  0 ≤ off → 0 ≤ n → off + n ≤ di_size di →
  take (Z.to_nat n) (drop (Z.to_nat off) (contents V di)) = fbytes V di off n.
Proof.
  intros Ho Hn Hs. unfold contents. replace (di_size di) with (off + (n + (di_size di - off - n))) by lia.
  rewrite fbytes_app, fbytes_app by lia. rewrite drop_app_length' by (rewrite length_fbytes; lia).
  rewrite take_app_length' by (rewrite length_fbytes; lia). by rewrite Z.add_0_l.
Qed.

Lemma entry_at_off V di (n : nat) :
  (16 | di_size di) → Z.of_nat n * 16 < di_size di →
  entries (contents V di) !! n = Some (fbytes V di (Z.of_nat n * 16) 16).
Proof.
  intros [q Hq] Hn. assert (Hl : length (contents V di) = (Z.to_nat q * 16)%nat) by (unfold contents; rewrite length_fbytes; lia).
  rewrite entries_lookup by (rewrite Hl, Nat.div_mul by lia; lia).
  rewrite <- (fbytes_slice V di) by lia. do 3 f_equal; lia.
Qed.

Lemma nth_byte v n : Forall is_byte v → is_byte (nth n v 0).
Proof. intros H. revert n. induction H; intros [|n]; cbn; auto; unfold is_byte; lia. Qed.

Lemma fbytes_bytes V di off n : (∀ m, whole (V m)) → Forall (λ c, 0 ≤ c < 256) (fbytes V di off n).
Proof.
  intros HV. unfold fbytes. apply Forall_fmap, Forall_forall. intros k _. cbn. unfold fbyte. case_b; [lia|].
  apply nth_byte, HV.
Qed.

Section dir.
Context {D X : Type} {ops : Disk D} {laws : DiskOk D} {swtch : Devices X}.
Context (sb : superblock) (p : Z) (x : X) (Hgeo : fs_geo usable sb).
Local Abbreviation state := (st (D := D) sb p x).
Local Abbreviation icache := (icache sb p).

(** ** [dirlookup] *)

(** What a lookup returns: nothing, or a new reference to the inode found. *)
Definition looked_up (r : option (Z * Z)) (d : D) V L A rc l k (o : outcome (fs D X) (option (nat * Z))) : Prop :=
  match r with
  | None => ∃ d', o = Ok None (state d' l) ∧ repr d' V [] L
  | Some (inum, off) => ∃ d' j jp l', o = Ok (Some (j, off)) (state d' l') ∧ repr d' V [] L ∧
      icache A (count rc inum 1) (Some k) l' ∧ stay l l' ∧ l' !! j = Some jp ∧ i_inum jp = inum ∧ 0 < i_ref jp
  end.

Section lookup.
Context (V : Z → block) (L : gset Z) (A : Z → dinode) (rc : Z → Z) (l : list inode) (k : nat) (ip : inode).
Let di : dinode := A (i_inum ip).
Context (Hdir : di_type di = T_DIR) (Hok : dir_ok sb V A di) (IC : icache A rc (Some k) l).
Context (Hroom : ∀ i, rc i = 0 → ∃ j jp, l !! j = Some jp ∧ i_ref jp = 0).

(** One entry. *)
Lemma read_entry d n :
  opened sb d V L A l k ip → Z.of_nat n * 16 < di_size di →
  ∃ d' e, readi k (Z.of_nat n * 16) DIRENT (state d l) = Ok (DIRENT, e) (state d' l) ∧ opened sb d' V L A l k ip ∧
    entries (contents V di) !! n = Some e ∧ length e = 16%nat ∧ Forall (λ c, 0 ≤ c < 256) e.
Proof.
  intros O Hn. pose proof O as [R Hfs Hk Hdev Hc Hl]. pose proof (size_range sb V A _ Hfs Hl) as Hsz. fold di in Hsz. sizes.
  destruct (readi_ok sb p x Hgeo d V L A l k ip (Z.of_nat n * 16) DIRENT O) as (d' & E & O');
    fold di; [rewrite Hdir; done|lia|done|unfold DIRENT; lia|]. fold di in E.
  destruct Hok as [[q Hq] _]. rewrite Z.min_l in E by (unfold DIRENT; lia).
  exists d', (fbytes V di (Z.of_nat n * 16) 16). split; [exact E|]. split; [done|].
  split; [apply entry_at_off; [by exists q|done]|]. split; [by rewrite length_fbytes|].
  apply fbytes_bytes. intros m. by eapply repr_whole.
Qed.

Lemma dirlookup_loop_ok fuel name : ∀ d n,
  opened sb d V L A l k ip → name_buf name → di_size di ≤ Z.of_nat (n + fuel) * 16 →
  looked_up (dir_find (dname name) (drop n (entries (contents V di))) (Z.of_nat n * 16)) d V L A rc l k
    (dirlookup_loop fuel k name (Z.of_nat n * 16) (state d l)).
Proof.
  induction fuel as [|fuel IH]; intros d n O Hname Hf; pose proof O as [R Hfs Hk Hdev Hc Hl];
    cbn [dirlookup_loop]; rewrite (bind_ok _ _ _ _ _ (inode_at_ok sb p x d l k ip Hk)), Hc; fold di.
  - rewrite (proj2 (Z.ltb_ge _ _)) by lia. rewrite drop_ge; [exists d; eauto|].
    rewrite entries_length. unfold contents. rewrite length_fbytes. apply Nat.Div0.div_le_upper_bound. lia.
  - destruct (Z.of_nat n * 16 <? di_size di) eqn:E; zbool.
    2: { rewrite drop_ge; [exists d; eauto|]. rewrite entries_length. unfold contents. rewrite length_fbytes.
         apply Nat.Div0.div_le_upper_bound. lia. }
    destruct (read_entry d n O E) as (d' & e & Er & O' & He & Hle & Hbe).
    rewrite (bind_ok _ _ _ _ _ Er). cbn [negb]. change (negb (DIRENT =? DIRENT)) with false. cbn iota.
    rewrite (drop_S _ _ _ He). cbn [dir_find].
    replace (Z.of_nat n * 16 + DIRENT) with (Z.of_nat (S n) * 16) by (unfold DIRENT; lia).
    destruct (de_inum e =? 0) eqn:E0; zbool.
    { rewrite decide_False by naive_solver. apply IH; [done|done|lia]. }
    destruct (namecmp_ok name (de_name e)) as (c & Ec & Hcmp); [done| | |].
    { unfold de_name. rewrite length_drop, Hle. unfold DIRSIZ. lia. }
    { unfold de_name. by apply Forall_drop. }
    rewrite Ec. destruct (c =? 0) eqn:Ec0; zbool.
    + rewrite decide_True by naive_solver. pose proof O' as [R' _ _ _ _ _].
      destruct (iget_ok sb p x A rc (Some k) l d' (de_inum e) IC) as (j & jp & l' & Eg & IC' & Hst & Hj & Hi & Hr); [|apply Hroom|].
      { apply (dir_live _ _ _ _ Hok); [by eapply list_elem_of_lookup_2|done]. }
      rewrite Hdev, (bind_ok _ _ _ _ _ Eg). exists d', j, jp, l'. done.
    + rewrite decide_False by naive_solver. apply IH; [done|done|lia].
Qed.

Lemma dirlookup_ok d name :
  opened sb d V L A l k ip → name_buf name →
  looked_up (lookup_name V di (dname name)) d V L A rc l k (dirlookup k name (state d l)).
Proof.
  intros O Hname. pose proof O as [R Hfs Hk Hdev Hc Hl]. unfold dirlookup, lookup_name.
  rewrite (bind_ok _ _ _ _ _ (inode_at_ok sb p x d l k ip Hk)), Hc. fold di. rewrite Hdir. cbn [negb Z.eqb T_DIR Pos.eqb].
  apply (dirlookup_loop_ok _ name d 0); [done|done|]. lia.
Qed.
End lookup.
End dir.
