(* ===== verification/Mkfs.v ===== *)
(** * Making a file system image

    [src/mkfs.c].  [img] is the image file by sectors and [nsect] its length; reading behind its end fails.  Host calls other
    than that do not fail here.  An [assert] that does not hold and a failed read end the run ([Panic]).  Numbers are
    in the byte order of the disk once [xint] and [xshort] have converted them, whatever the host's is, so they appear here as the numbers
    they stand for.  A file to add is its name on the command line and what the successive reads of it return. *)
From S2P Require Import Prelude CString Bytes Bio Log Disk Fs FsAlloc FsModel FsDir.

Definition FSSIZE : Z := 1000.
Definition NINODES : Z := 200.
Definition nbitmap : Z := FSSIZE / (BSIZE * 8) + 1.
Definition ninodeblocks : Z := NINODES / IPB + 1.
Definition nlog : Z := 30.
Definition nmeta : Z := 2 + nlog + ninodeblocks + nbitmap.
Definition nblocks : Z := FSSIZE - nmeta.

Definition sb : superblock :=
  Superblock FSSIZE nblocks NINODES nlog 2 (2 + nlog) (2 + nlog + ninodeblocks).

Definition zeroes : block := replicate 512 0.

Record mk : Type := Mk { img : Z → block; nsect : Z; freeinode : Z; freeblock : Z }.

Definition wsect (sec : Z) (buf : block) : cm mk unit :=
  modify (λ s, Mk (upd (img s) sec buf) (Z.max (nsect s) (sec + 1)) (freeinode s) (freeblock s)).
Definition rsect (sec : Z) : cm mk block := λ s,
  if sec <? nsect s then Ok (img s sec) s else Panic "read".

Definition winode (inum : Z) (ip : dinode) : cm mk unit :=
  let bn := IBLOCK inum sb in
  buf ← rsect bn;
  wsect bn (store_dinode buf (Z.to_nat (inum mod IPB)) ip).
Definition rinode (inum : Z) : cm mk dinode :=
  let bn := IBLOCK inum sb in
  buf ← rsect bn;
  mret (load_dinode buf (Z.to_nat (inum mod IPB))).

(** [freeinode++], [freeblock++]. *)
Definition next_inode : cm mk Z := λ s, Ok (freeinode s) (Mk (img s) (nsect s) (u32 (freeinode s + 1)) (freeblock s)).
Definition next_block : cm mk Z := λ s, Ok (freeblock s) (Mk (img s) (nsect s) (freeinode s) (u32 (freeblock s + 1))).

Definition mk_ialloc (type : Z) : cm mk Z :=
  inum ← next_inode;
  winode inum (Dinode type 0 0 1 0 (replicate 13 0)) ;;
  mret inum.

(** The loop of [balloc] on the bitmap block: the first [used] bits. *)
Definition first_bits (n : nat) : block := foldl set_bit zeroes (Z.of_nat <$> seq 0 n).

Definition mk_balloc (n : Z) : cm mk unit :=
  if BSIZE * 8 <=? n then panic "assert" else
  wsect (sb_bmapstart sb) (first_bits (Z.to_nat n)).

(** The block in entry [fbn] of the indirect block, allocated if need be. *)
Definition iappend_entry (din : dinode) (fbn : Z) : cm mk Z :=
  indirect ← rsect (ind din);
  let x := load 4 indirect (Z.to_nat (4 * (fbn - NDIRECT))) in
  if x =? 0 then
    b ← next_block;
    wsect (ind din) (store 4 indirect (Z.to_nat (4 * (fbn - NDIRECT))) b) ;;
    mret b
  else mret x.

(** The block of the file for [fbn]: the first half of the loop of [iappend]. *)
Definition iappend_block (din : dinode) (fbn : Z) : cm mk (dinode * Z) :=
  if fbn <? NDIRECT then
    let x := nth (Z.to_nat fbn) (di_addrs din) 0 in
    if x =? 0 then b ← next_block; mret (with_addrs (<[Z.to_nat fbn := b]> (di_addrs din)) din, b)
    else mret (din, x)
  else
    din ← (if ind din =? 0 then b ← next_block; mret (with_addrs (<[12%nat := b]> (di_addrs din)) din) else mret din);
    x ← iappend_entry din fbn;
    mret (din, x).

Fixpoint iappend_loop (fuel : nat) (din : dinode) (off : Z) (p : list Z) : cm mk (dinode * Z) :=
  match p, fuel with
  | [], _ => mret (din, off)
  | _ :: _, O => ub "loop"
  | _ :: _, S fuel' =>
      let fbn := off / BSIZE in
      if negb (fbn <? MAXFILE) then panic "assert" else
      '(din, x) ← iappend_block din fbn;
      let n1 := Z.min (Z.of_nat (length p)) ((fbn + 1) * BSIZE - off) in
      buf ← rsect x;
      wsect x (splice buf (off - fbn * BSIZE) (take (Z.to_nat n1) p)) ;;
      iappend_loop fuel' din (off + n1) (drop (Z.to_nat n1) p)
  end.

Definition iappend (inum : Z) (p : list Z) : cm mk unit :=
  din ← rinode inum;
  '(din, off) ← iappend_loop (length p) din (di_size din) p;
  winode inum (with_size off din).

(** The loop that clears the image. *)
Fixpoint clear_sects (n : nat) (i : Z) : cm mk unit :=
  match n with
  | O => mret tt
  | S n' => wsect i zeroes ;; clear_sects n' (i + 1)
  end.

(** The superblock in a block of zeroes. *)
Definition super_block : block :=
  store_words zeroes 0 [sb_size sb; sb_nblocks sb; sb_ninodes sb; sb_nlog sb; sb_logstart sb; sb_inodestart sb; sb_bmapstart sb].

(** A directory entry with the bytes [name] in its name. *)
Definition dirent (inum : Z) (name : list Z) : list Z := le_bytes 2 (u16 inum) ++ name.

Definition file : Type := list Z * list (list Z).

(** The reads of a file, up to the one that returns nothing. *)
Fixpoint append_reads (inum : Z) (reads : list (list Z)) : cm mk unit :=
  match reads with
  | [] => mret tt
  | buf :: reads' => if (length buf =? 0)%nat then mret tt else iappend inum buf ;; append_reads inum reads'
  end.

(** [argv[i]] without its leading underscore. *)
Definition stored_name (name : list Z) : list Z := match name with 95 :: name' => name' | _ => name end.

Definition add_file (rootino : Z) (f : file) : cm mk unit :=
  if bool_decide (47 ∈ f.1) then panic "assert" else
  inum ← mk_ialloc T_FILE;
  match strncpy (replicate DIRSIZ 0) (stored_name f.1 ++ [0]) DIRSIZ with
  | None => ub "strncpy"
  | Some name => iappend rootino (dirent inum name) ;; append_reads inum f.2
  end.

Fixpoint add_files (rootino : Z) (fs : list file) : cm mk unit :=
  match fs with
  | [] => mret tt
  | f :: fs' => add_file rootino f ;; add_files rootino fs'
  end.

(** The root directory is padded to whole blocks. *)
Definition fix_root (rootino : Z) : cm mk unit :=
  din ← rinode rootino;
  winode rootino (with_size (u32 ((di_size din / BSIZE + 1) * BSIZE)) din).

Definition dot (n : nat) : list Z := replicate n 46 ++ replicate (DIRSIZ - n) 0.

Definition mkfs_main (fs : list file) : cm mk unit :=
  modify (λ s, Mk (img s) (nsect s) (freeinode s) nmeta) ;;
  clear_sects (Z.to_nat FSSIZE) 0 ;;
  wsect 1 super_block ;;
  rootino ← mk_ialloc T_DIR;
  if negb (rootino =? ROOTINO) then panic "assert" else
  iappend rootino (dirent rootino (dot 1)) ;;
  iappend rootino (dirent rootino (dot 2)) ;;
  add_files rootino fs ;;
  fix_root rootino ;;
  fb ← gets freeblock;
  mk_balloc fb.

(** The image file just truncated. *)
Definition mk_start : mk := Mk (λ _, zeroes) 0 1 0.
