(* ===== verification/MkfsTheorems.v ===== *)
(** * The image that mkfs makes

    The image is followed through the run of [mkfs] as the disk the kernel would have, with the bitmap already marking the
    blocks given out so far ([W]); the steps are those of the kernel's allocator, whose lemmas apply.

    Theorem: the image is a consistent file system, with the files in the root directory. *)
From S2P Require Import Prelude CString Bytes Bio Log Disk Fs FsAlloc FsModel FsFile FsDir Mkfs.

(** The kernel's log on this disk; a block outside it is usable for files. *)
#[local] Instance mk_laws : DiskOk log := log_disk_ok 2 30 1000 1 0 (λ _, zeroes) [].

Lemma mk_geo : fs_geo (usable (DiskOk := mk_laws)) sb.
Proof. split; try (by vm_compute; first [done|split]). intros n Hn. change (32 ≤ n < 1000) in Hn. cbn. unfold log_usable. lia. Qed.

Lemma zeroes_whole : whole zeroes.
Proof. split; [done|]. apply Forall_replicate. unfold is_byte. lia. Qed.

(** ** The bitmap *)

Lemma first_bits_S n : first_bits (S n) = set_bit (first_bits n) (Z.of_nat n).
Proof. unfold first_bits. by rewrite seq_S, fmap_app, foldl_app. Qed.

Lemma first_bits_ok n : (n ≤ 4096)%nat → whole (first_bits n) ∧ ∀ i, 0 ≤ i < 4096 → bit (first_bits n) i = (i <? Z.of_nat n).
Proof.
  induction n as [|n IH]; intros Hn.
  - split; [apply zeroes_whole|]. intros i Hi. change (Z.of_nat 0) with 0. rewrite (proj2 (Z.ltb_ge i 0)) by lia. unfold bit, bm_byte. cbn [first_bits seq fmap list_fmap foldl].
    unfold zeroes. rewrite nth_zeros. apply Z.bits_0.
  - destruct IH as [Hw Hb]; [lia|]. rewrite first_bits_S. split; [apply set_bit_whole; [done|sizes; lia]|].
    intros i Hi. rewrite bit_set, Hb by (done || sizes; lia). apply eq_true_iff_eq. rewrite orb_true_iff, Z.eqb_eq, !Z.ltb_lt. lia.
Qed.

(** ** The invariant *)

Definition BMAP : Z := sb_bmapstart sb.

(** The image with the bitmap of the blocks given out so far. *)
Record ahead (V : Z → block) (fb : Z) (W : Z → block) : Prop := {
  ah_same n : n ≠ BMAP → W n = V n;
  ah_bits : W BMAP = first_bits (Z.to_nat fb)
}.

(** The first [m] blocks of the file are there and no other, and the indirect block if they need it. *)
Definition tight (W : Z → block) (d : dinode) (m : Z) : Prop :=
  (∀ bn, 0 ≤ bn < MAXFILE → nth_addr W d bn ≠ 0 ↔ bn < m) ∧ (ind d ≠ 0 ↔ NDIRECT < m).

Record built (s : mk) (W : Z → block) (A : Z → dinode) (m : Z → Z) : Prop := {
  bt_sect : nsect s = FSSIZE;
  bt_ahead : ahead (img s) (freeblock s) W;
  bt_whole n : whole (W n);
  bt_ok : fs_ok sb W A;
  bt_fb : dstart sb ≤ freeblock s ≤ FSSIZE;
  bt_zero n : freeblock s ≤ n < FSSIZE → img s n = zeroes;
  bt_tight i : live sb A i → tight W (A i) (m i)
}.

Lemma consts : sb_size sb = 1000 ∧ dstart sb = 59 ∧ BMAP = 58 ∧ FSSIZE = 1000 ∧ sb_ninodes sb = 200 ∧ sb_inodestart sb = 32.
Proof. done. Qed.

Ltac consts :=
  lazymatch goal with
  | _ : sb_size sb = 1000 |- _ => idtac
  | _ => destruct consts as (Esz & Eds & Ebm & Efs & Eni & Eis)
  end; sizes.

Lemma ahead_used V fb W b : ahead V fb W → 0 ≤ fb ≤ 1000 → 0 ≤ b < 1000 → used sb W b = (b <? fb).
Proof.
  intros [_ Hb] Hfb Hr. unfold used, BBLOCK. consts. replace (b / 4096 + sb_bmapstart sb) with BMAP by (change (sb_bmapstart sb) with 58; rewrite Ebm; dlia).
  rewrite Hb. destruct (first_bits_ok (Z.to_nat fb)) as [_ Hbit]; [lia|]. rewrite Z.mod_small, Hbit by lia. by rewrite Z2Nat.id by lia.
Qed.

(** The next free block, taken as [balloc] would. *)
Lemma ahead_alloc V fb W : ahead V fb W → 59 ≤ fb < 1000 → V fb = zeroes → ahead V (fb + 1) (alloc sb W fb).
Proof.
  intros [Hs Hb] Hfb Hz. consts. assert (EB : BBLOCK fb sb = 58) by (unfold BBLOCK; sizes; change (sb_bmapstart sb) with 58; dlia).
  unfold alloc, mark. rewrite EB. sizes. split.
  - intros n Hn. destruct (decide (n = fb)) as [->|Hne]; [by rewrite upd_eq, Hz|]. rewrite !upd_ne by (done || lia). by apply Hs.
  - rewrite upd_ne, Ebm, upd_eq by lia. rewrite <- Ebm, Hb. replace (Z.to_nat (fb + 1)) with (S (Z.to_nat fb)) by lia.
    rewrite first_bits_S. f_equal. rewrite Z.mod_small by lia. lia.
Qed.

Lemma ahead_write V fb W n v : ahead V fb W → n ≠ BMAP → ahead (upd V n v) fb (upd W n v).
Proof. intros [Hs Hb] Hn. split; [|by rewrite upd_ne]. intros c Hc. unfold upd. case_b; [done|by apply Hs]. Qed.

Lemma built_facts s W A m : built s W A m → 59 ≤ freeblock s ≤ 1000 ∧ ∀ b, 0 ≤ b < 1000 → used sb W b = (b <? freeblock s).
Proof.
  intros [_ Ha _ _ Hf _ _]. consts. split; [lia|]. intros b Hb. apply (ahead_used _ _ _ _ Ha); lia.
Qed.

(** Other files do not notice a change outside their indirect blocks. *)
Lemma built_others s W A m i s' W' A' mi :
  built s W A m → live sb A i → grown sb i W A W' A' →
  nsect s' = FSSIZE → ahead (img s') (freeblock s') W' → (∀ n, whole (W' n)) → dstart sb ≤ freeblock s' ≤ FSSIZE →
  (∀ n, freeblock s' ≤ n < FSSIZE → img s' n = zeroes) →
  (∀ j, live sb A j → j ≠ i → ind (A j) ≠ 0 → W' (ind (A j)) = W (ind (A j))) → tight W' (A' i) mi →
  built s' W' A' (upd m i mi).
Proof.
  intros B Hi G Hn Ha Hw Hf Hz Hsame Ht. constructor; try done; [apply (gn_ok _ _ _ _ _ _ G)|].
  intros j Hj. apply (grown_live _ _ _ _ _ _ _ G) in Hj. destruct (decide (j = i)) as [->|Hne]; [by rewrite upd_eq|].
  rewrite upd_ne, (gn_others _ _ _ _ _ _ G) by done. destruct (bt_tight _ _ _ _ B j Hj) as [H1 H2]. split; [|done].
  intros bn Hbn. rewrite (nth_addr_ext W); [by apply H1|]. intros Hj0. by apply Hsame.
Qed.

(** The indirect block of a file is one of the blocks given out. *)
Lemma built_ind s W A m j : built s W A m → live sb A j → ind (A j) ≠ 0 → 59 ≤ ind (A j) < freeblock s.
Proof.
  intros B Hj Hn. destruct (built_facts _ _ _ _ B) as [Hf Hu]. destruct (owned_used _ _ _ (bt_ok _ _ _ _ B) j _ Hj (owns_ind W _ Hn)) as [Hr Hu'].
  consts. specialize (Hu (ind (A j)) ltac:(lia)). rewrite Hu' in Hu by lia. lia.
Qed.

(** ** The block of a file *)

Definition nb (n : Z) : Z := n + (if NDIRECT <? n then 1 else 0).

Definition taken (s : mk) : mk := Mk (img s) (nsect s) (freeinode s) (freeblock s + 1).

Lemma next_block_ok s : 0 ≤ freeblock s < 1000 → next_block s = Ok (freeblock s) (taken s).
Proof. intros H. unfold next_block, taken. by rewrite u32_small by lia. Qed.

Section block.
Context (s : mk) (W : Z → block) (A : Z → dinode) (m : Z → Z) (i off fbn : Z) (din : dinode).
Context (B : built s W A m) (Hi : live sb A i) (Ed : A i = with_size off din) (Hfbn : 0 ≤ fbn < MAXFILE).

Lemma din_addrs : di_addrs din = di_addrs (A i) ∧ ind din = ind (A i).
Proof. unfold ind. by rewrite Ed. Qed.

Lemma alloc_step : freeblock s < 1000 →
  let b := freeblock s in
  used sb W b = false ∧ dstart sb ≤ b < sb_size sb ∧ ahead (img s) (b + 1) (alloc sb W b) ∧ (∀ n, whole (alloc sb W b n)) ∧
  (∀ n, b + 1 ≤ n < FSSIZE → img s n = zeroes) ∧ (∀ j, live sb A j → ind (A j) ≠ 0 → alloc sb W b (ind (A j)) = W (ind (A j))).
Proof.
  intros Hlt b. destruct (built_facts _ _ _ _ B) as [Hf Hu]. consts. split_and!; unfold b; try lia.
  - rewrite Hu by lia. lia.
  - apply ahead_alloc; [apply (bt_ahead _ _ _ _ B)|lia|]. apply (bt_zero _ _ _ _ B). lia.
  - intros n. unfold alloc, mark, upd. case_b; [apply zeroes_whole|]. case_b; [|apply (bt_whole _ _ _ _ B)].
    apply set_bit_whole; [apply (bt_whole _ _ _ _ B)|]. sizes. dlia.
  - intros n Hn. apply (bt_zero _ _ _ _ B). lia.
  - intros j Hj Hn. pose proof (built_ind _ _ _ _ _ B Hj Hn). apply (alloc_other sb mk_geo W (freeblock s)); lia.
Qed.

Lemma block_direct : fbn < NDIRECT → m i = fbn → freeblock s < 1000 →
  ∃ l, iappend_block din fbn s = Ok (with_addrs l din, freeblock s) (taken s) ∧
    let A1 := upd A i (with_size off (with_addrs l din)) in let W1 := alloc sb W (freeblock s) in
    built (taken s) W1 A1 (upd m i (fbn + 1)) ∧ grown sb i W A W1 A1 ∧ nth_addr W1 (A1 i) fbn = freeblock s.
Proof.
  intros Hd Hm Hlt. destruct (alloc_step Hlt) as (Hu & Hb & Ha & Hw & Hz & Hsame). destruct (bt_tight _ _ _ _ B i Hi) as [Ht1 Ht2].
  destruct din_addrs as [Eda Edi]. rewrite Hm in Ht1, Ht2.
  assert (Hhole : nth_addr W (A i) fbn = 0) by (destruct (Z.eq_dec (nth_addr W (A i) fbn) 0) as [|n]; [done|]; apply Ht1 in n; lia).
  exists (<[Z.to_nat fbn := freeblock s]> (di_addrs din)). split.
  - unfold iappend_block. rewrite (proj2 (Z.ltb_lt _ _) Hd). unfold nth_addr in Hhole. rewrite (proj2 (Z.ltb_lt _ _) Hd) in Hhole.
    rewrite Eda, Hhole. cbn [Z.eqb]. by rewrite (bind_ok _ _ _ _ _ (next_block_ok s ltac:(consts; lia))).
  - assert (EA : with_size off (with_addrs (<[Z.to_nat fbn:=freeblock s]> (di_addrs din)) din) =
      with_addrs (<[Z.to_nat fbn := freeblock s]> (di_addrs (A i))) (A i)) by (rewrite Eda, Ed; reflexivity). rewrite EA.
    destruct (grown_direct sb mk_geo W A i (freeblock s) (bt_whole _ _ _ _ B) (bt_ok _ _ _ _ B) Hi Hb Hu fbn ltac:(lia) Hhole) as (G & Hx & Hi' & Hn).
    split_and!; [|exact G|by rewrite upd_eq].
    eapply built_others; [exact B|exact Hi|exact G|apply (bt_sect _ _ _ _ B)|done|done|cbn; consts; lia|done|intros j Hj _; by apply Hsame|].
    rewrite upd_eq. split.
    + intros bn Hbn. destruct (decide (bn = fbn)) as [->|Hne]; [rewrite Hx; consts; lia|]. rewrite Hn by done. rewrite Ht1 by done. lia.
    + rewrite Hi', Ht2. consts. lia.
Qed.

(** The indirect block, taken but still empty. *)
Lemma block_indirect : ind (A i) = 0 → m i = NDIRECT → freeblock s < 1000 →
  let d1 := with_addrs (<[12%nat := freeblock s]> (di_addrs din)) din in
  let A1 := upd A i (with_size off d1) in let W1 := alloc sb W (freeblock s) in
  grown sb i W A W1 A1 ∧ ind (A1 i) = freeblock s ∧ (∀ n, 0 ≤ n < MAXFILE → nth_addr W1 (A1 i) n = nth_addr W (A i) n) ∧
  ahead (img s) (freeblock s + 1) W1 ∧ (∀ n, whole (W1 n)) ∧ (∀ n, freeblock s + 1 ≤ n < FSSIZE → img s n = zeroes) ∧
  (∀ j, live sb A j → j ≠ i → ind (A j) ≠ 0 → W1 (ind (A j)) = W (ind (A j))).
Proof.
  intros H0 Hm Hlt d1 A1 W1. destruct (alloc_step Hlt) as (Hu & Hb & Ha & Hw & Hz & Hsame). destruct din_addrs as [Eda _].
  assert (EA : with_size off d1 = with_addrs (<[12%nat := freeblock s]> (di_addrs (A i))) (A i)) by (unfold d1; rewrite Eda, Ed; reflexivity).
  destruct (grown_indirect sb mk_geo W A i (freeblock s) (bt_whole _ _ _ _ B) (bt_ok _ _ _ _ B) Hi Hb Hu H0) as (G & Hx & Hn).
  unfold A1. rewrite EA, upd_eq. split_and!; try done. intros j Hj _. by apply Hsame.
Qed.
End block.

(** An entry of the indirect block.  [A] may be ahead of [m] by the indirect block. *)
Section entry.
Context (s : mk) (W : Z → block) (A : Z → dinode) (i fbn : Z).
Context (Hsect : nsect s = FSSIZE) (Hah : ahead (img s) (freeblock s) W) (HW : ∀ n, whole (W n)) (Hok : fs_ok sb W A) (Hi : live sb A i).
Context (Hfb : 59 ≤ freeblock s < 1000) (Hz : ∀ n, freeblock s ≤ n < FSSIZE → img s n = zeroes).
Context (Hfbn : NDIRECT ≤ fbn < MAXFILE) (Hind : ind (A i) ≠ 0) (Hhole : nth_addr W (A i) fbn = 0).

Definition entered : mk :=
  Mk (upd (img s) (ind (A i)) (store 4 (img s (ind (A i))) (Z.to_nat (4 * (fbn - NDIRECT))) (freeblock s))) FSSIZE (freeinode s) (freeblock s + 1).

Lemma entry_free : used sb W (freeblock s) = false ∧ dstart sb ≤ freeblock s < sb_size sb ∧ 59 ≤ ind (A i) < freeblock s.
Proof.
  consts. pose proof (ahead_used _ _ _ (freeblock s) Hah ltac:(lia) ltac:(lia)) as E. split; [rewrite E; lia|]. split; [lia|].
  destruct (owned_used _ _ _ Hok i _ Hi (owns_ind W _ Hind)) as [Hr Hu]. pose proof (ahead_used _ _ _ (ind (A i)) Hah ltac:(lia) ltac:(lia)) as E'.
  rewrite Hu in E' by lia. lia.
Qed.

Lemma entry_ok : let W1 := put_entry sb W A i (freeblock s) fbn in
  grown sb i W A W1 A ∧ nth_addr W1 (A i) fbn = freeblock s ∧
  (∀ n, 0 ≤ n < MAXFILE → n ≠ fbn → nth_addr W1 (A i) n = nth_addr W (A i) n) ∧
  ahead (img entered) (freeblock entered) W1 ∧ (∀ n, whole (W1 n)) ∧
  (∀ n, freeblock entered ≤ n < FSSIZE → img entered n = zeroes) ∧
  (∀ j, live sb A j → j ≠ i → ind (A j) ≠ 0 → W1 (ind (A j)) = W (ind (A j))).
Proof.
  intros W1. destruct entry_free as (Hu & Hb & Hr). consts.
  destruct (grown_entry sb mk_geo W A i (freeblock s) HW Hok Hi Hb Hu fbn ltac:(sizes; lia) Hind Hhole) as (G & Hx & Hn).
  assert (Hz1 : img s (freeblock s) = zeroes) by (apply Hz; lia).
  assert (Eimg : W (ind (A i)) = img s (ind (A i))) by (apply (ah_same _ _ _ Hah); lia).
  assert (Hw1 : ∀ n, whole (alloc sb W (freeblock s) n)).
  { intros n. unfold alloc, mark, upd. case_b; [apply zeroes_whole|]. case_b; [|apply HW]. apply set_bit_whole; [apply HW|]. sizes. dlia. }
  split_and!; try done.
  - unfold W1, put_entry, entered. cbn [img freeblock]. rewrite <- Eimg. apply ahead_write; [by apply ahead_alloc|lia].
  - intros n. unfold W1, put_entry, upd. case_b; [|apply Hw1]. destruct (HW (ind (A i))) as [Hl Hb']. split; [rewrite length_store; sizes; lia|by apply store_bytes].
  - intros n. cbn [img entered freeblock]. intros Hn'. rewrite upd_ne by lia. apply Hz. lia.
  - intros j Hj Hne Hj0. unfold W1, put_entry. rewrite upd_ne.
    + destruct (owned_used _ _ _ Hok j _ Hj (owns_ind W _ Hj0)) as [Hrj Huj]. pose proof (ahead_used _ _ _ (ind (A j)) Hah ltac:(lia) ltac:(lia)) as E'.
      rewrite Huj in E' by lia. apply (alloc_other sb mk_geo W (freeblock s)); lia.
    + intros E. apply Hne. apply (ok_disj _ _ _ Hok j i (ind (A j))); try done; [by apply owns_ind|rewrite E; by apply owns_ind].
Qed.
End entry.

Lemma entry_runs s W A i fbn d :
  nsect s = FSSIZE → ahead (img s) (freeblock s) W → ind d = ind (A i) → 59 ≤ ind (A i) < 1000 → NDIRECT ≤ fbn →
  (nth_addr W (A i) fbn = 0 → 59 ≤ freeblock s < 1000) →
  iappend_entry d fbn s = if nth_addr W (A i) fbn =? 0 then Ok (freeblock s) (entered s A i fbn) else Ok (nth_addr W (A i) fbn) s.
Proof.
  intros Hs Ha Ed Hr Hd Hf. consts. unfold iappend_entry, rsect. unfold mbind at 1, cm_bind at 1. rewrite Ed, Hs, (proj2 (Z.ltb_lt _ _)) by lia.
  assert (E : nth_addr W (A i) fbn = load 4 (img s (ind (A i))) (Z.to_nat (4 * (fbn - NDIRECT)))).
  { unfold nth_addr. sizes. rewrite (proj2 (Z.ltb_ge _ _)), (proj2 (Z.eqb_neq _ 0)) by lia. by rewrite (ah_same _ _ _ Ha) by lia. }
  rewrite <- E. case_b; [|done]. specialize (Hf E0). rewrite (bind_ok _ _ _ _ _ (next_block_ok s ltac:(lia))).
  unfold wsect. rewrite bind_modify. unfold mret, cm_ret, taken, entered.
  cbn [img nsect freeinode freeblock]. by rewrite Z.max_l, Hs by lia.
Qed.

Section block_of.
Context (s : mk) (W : Z → block) (A : Z → dinode) (m : Z → Z) (i off fbn : Z) (din : dinode).
Context (B : built s W A m) (Hi : live sb A i) (Ed : A i = with_size off din) (Hfbn : 0 ≤ fbn < MAXFILE).
Context (Hm : fbn ≤ m i ≤ fbn + 1) (Hroom : freeblock s + (nb (fbn + 1) - nb (m i)) ≤ FSSIZE).

(** What it returns, and what it leaves. *)
Definition block_done (s1 : mk) (W1 : Z → block) (d1 : dinode) (x : Z) : Prop :=
  let A1 := upd A i (with_size off d1) in
  built s1 W1 A1 (upd m i (fbn + 1)) ∧ grown sb i W A W1 A1 ∧ x = nth_addr W1 (A1 i) fbn ∧ x ≠ 0 ∧
  freeblock s1 = freeblock s + (nb (fbn + 1) - nb (m i)) ∧ freeinode s1 = freeinode s ∧ (∃ l, d1 = with_addrs l din) ∧
  ∀ n, n < 59 → img s1 n = img s n.

Lemma upd_same {T} (f : Z → T) k v : f k = v → ∀ j, f j = upd f k v j.
Proof. intros E j. unfold upd. case_b; by subst. Qed.

Lemma built_ext s0 W0 A0 m0 A1 m1 : (∀ j, A1 j = A0 j) → (∀ j, m1 j = m0 j) → built s0 W0 A0 m0 → built s0 W0 A1 m1.
Proof.
  intros HA Hm' [B1 B2 B3 B4 B5 B6 B7]. constructor; try done; [by eapply fs_ok_ext|]. intros j [Hj Ht]. rewrite HA, Hm'. apply B7. split; [done|]. by rewrite <- HA.
Qed.

Lemma grown_ext W0 A0 W1 A1 A2 : (∀ j, A2 j = A1 j) → grown sb i W0 A0 W1 A1 → grown sb i W0 A0 W1 A2.
Proof.
  intros HA [G1 G2 G3 G4 G5]. split; try done; [by eapply fs_ok_ext|intros j Hj; rewrite HA; by apply G2|by rewrite HA|intros j k Hj Hk; rewrite HA; by apply G4].
Qed.

(** The block is there already. *)
Lemma block_there : m i = fbn + 1 → ∃ x, iappend_block din fbn s = Ok (din, x) s ∧ block_done s W din x.
Proof.
  intros Em. destruct (bt_tight _ _ _ _ B i Hi) as [Ht1 Ht2]. rewrite Em in *. assert (Hx : nth_addr W (A i) fbn ≠ 0) by (apply Ht1; [done|lia]).
  destruct (din_addrs A i off din Ed) as [Eda Edi]. exists (nth_addr W (A i) fbn). split.
  - unfold iappend_block. case_b.
    + assert (E' : nth_addr W (A i) fbn = nth (Z.to_nat fbn) (di_addrs din) 0) by (unfold nth_addr; by rewrite (proj2 (Z.ltb_lt _ _) E), Eda).
      rewrite <- E', (proj2 (Z.eqb_neq _ 0) Hx). done.
    + assert (Hin : ind (A i) ≠ 0) by (apply Ht2; sizes; lia). rewrite Edi, (proj2 (Z.eqb_neq _ 0) Hin), bind_ret.
      pose proof (built_ind _ _ _ _ _ B Hi Hin) as Hr. destruct (built_facts _ _ _ _ B) as [Hf _].
      erewrite bind_ok; [reflexivity|].
      rewrite (entry_runs s W A i fbn din (bt_sect _ _ _ _ B) (bt_ahead _ _ _ _ B) Edi) by (done || consts; lia).
      by rewrite (proj2 (Z.eqb_neq _ 0) Hx).
  - assert (HA : ∀ j, A j = upd A i (with_size off din) j) by (by apply upd_same).
    split_and!; try done.
    + eapply built_ext; [intros j; symmetry; apply HA|intros j; symmetry; by apply upd_same|exact B].
    + eapply grown_ext; [intros j; symmetry; apply HA|apply grown_refl, (bt_ok _ _ _ _ B)].
    + by rewrite <- HA.
    + rewrite Em. lia.
    + exists (di_addrs din). by destruct din.
Qed.

Lemma block_new_direct : m i = fbn → fbn < NDIRECT → ∃ s1 W1 d1 x, iappend_block din fbn s = Ok (d1, x) s1 ∧ block_done s1 W1 d1 x.
Proof.
  intros Em Hd. unfold nb in Hroom. rewrite Em, !(proj2 (Z.ltb_ge _ _)) in Hroom by lia. consts.
  destruct (block_direct s W A m i off fbn din B Hi Ed Hfbn Hd Em ltac:(lia)) as (l & E & B1 & G & Hx).
  exists (taken s), (alloc sb W (freeblock s)), (with_addrs l din), (freeblock s). split; [exact E|].
  destruct (built_facts _ _ _ _ B) as [Hf _].
  split_and!; try done; [lia| |by exists l]. unfold nb. rewrite Em, !(proj2 (Z.ltb_ge _ _)) by (sizes; lia). cbn [taken freeblock]. lia.
Qed.

(** An entry in the indirect block that is there. *)
Lemma block_new_entry : m i = fbn → NDIRECT ≤ fbn → ind (A i) ≠ 0 → ∃ s1 W1 d1 x, iappend_block din fbn s = Ok (d1, x) s1 ∧ block_done s1 W1 d1 x.
Proof.
  intros Em Hd Hin. destruct (bt_tight _ _ _ _ B i Hi) as [Ht1 Ht2]. rewrite Em in Ht1, Ht2. destruct (built_facts _ _ _ _ B) as [Hf _].
  pose proof (built_ind _ _ _ _ _ B Hi Hin) as Hr. destruct (din_addrs A i off din Ed) as [Eda Edi]. assert (Hlt : NDIRECT < fbn) by (by apply Ht2).
  unfold nb in Hroom. rewrite Em, !(proj2 (Z.ltb_lt _ _)) in Hroom by lia. consts.
  assert (Hhole : nth_addr W (A i) fbn = 0) by (destruct (Z.eq_dec (nth_addr W (A i) fbn) 0) as [|n]; [done|]; apply Ht1 in n; sizes; lia).
  destruct (entry_ok s W A i fbn (bt_ahead _ _ _ _ B) (bt_whole _ _ _ _ B) (bt_ok _ _ _ _ B) Hi ltac:(lia) (bt_zero _ _ _ _ B)
    ltac:(sizes; lia) Hin Hhole) as (G & Hx & Hn & Ha & Hw & Hz & Hs).
  exists (entered s A i fbn), (put_entry sb W A i (freeblock s) fbn), din, (freeblock s).
  assert (HA : ∀ j, A j = upd A i (with_size off din) j) by (by apply upd_same).
  split; [|split_and!].
  - unfold iappend_block. rewrite (proj2 (Z.ltb_ge _ _)), Edi, (proj2 (Z.eqb_neq _ 0) Hin), bind_ret by (sizes; lia).
    rewrite (bind_ok _ _ s (freeblock s) (entered s A i fbn)); [done|].
    rewrite (entry_runs s W A i fbn din (bt_sect _ _ _ _ B) (bt_ahead _ _ _ _ B) Edi) by (sizes; lia). by rewrite Hhole.
  - eapply built_ext; [intros j; symmetry; apply HA|intros j; reflexivity|].
    eapply built_others; [exact B|exact Hi|exact G|done|done|done|cbn; consts; lia|done|done|]. split.
    + intros bn Hbn. destruct (decide (bn = fbn)) as [->|Hne]; [rewrite Hx; lia|]. rewrite Hn by done. rewrite Ht1 by done. lia.
    + rewrite Ht2. sizes. lia.
  - eapply grown_ext; [intros j; symmetry; apply HA|done].
  - by rewrite <- HA.
  - lia.
  - unfold nb. rewrite Em, !(proj2 (Z.ltb_lt _ _)) by (sizes; lia). cbn [entered freeblock]. lia.
  - done.
  - exists (di_addrs din). by destruct din.
  - intros n Hn'. cbn [entered img]. apply upd_ne. lia.
Qed.

(** The indirect block and its first entry. *)
Lemma block_new_both : m i = fbn → NDIRECT ≤ fbn → ind (A i) = 0 → ∃ s1 W1 d1 x, iappend_block din fbn s = Ok (d1, x) s1 ∧ block_done s1 W1 d1 x.
Proof.
  intros Em Hd Hin. destruct (bt_tight _ _ _ _ B i Hi) as [Ht1 Ht2]. rewrite Em in Ht1, Ht2. destruct (built_facts _ _ _ _ B) as [Hf _].
  destruct (din_addrs A i off din Ed) as [Eda Edi].
  assert (Hfe : fbn = NDIRECT) by (destruct (Z.lt_trichotomy NDIRECT fbn) as [Hlt|[|]]; [by apply Ht2 in Hlt|done|lia]).
  unfold nb in Hroom. rewrite Em, Hfe in Hroom. sizes. change (12 <? 12 + 1) with true in Hroom. change (12 <? 12) with false in Hroom. consts.
  destruct (block_indirect s W A m i off fbn din B Hi Ed Hfbn Hin ltac:(sizes; lia) ltac:(lia)) as (G & Hi1 & Hn1 & Ha1 & Hw1 & Hz1 & Hs1).
  set (d1 := with_addrs (<[12%nat:=freeblock s]> (di_addrs din)) din) in *. set (A1 := upd A i (with_size off d1)) in *.
  set (W1 := alloc sb W (freeblock s)) in *.
  assert (Hhole : nth_addr W (A i) fbn = 0) by (destruct (Z.eq_dec (nth_addr W (A i) fbn) 0) as [|n]; [done|]; apply Ht1 in n; sizes; lia).
  assert (Hi' : live sb A1 i) by (by apply (grown_live _ _ _ _ _ _ _ G)).
  destruct (entry_ok (taken s) W1 A1 i fbn Ha1 Hw1 (gn_ok _ _ _ _ _ _ G) Hi' ltac:(cbn; lia) Hz1 ltac:(sizes; lia) ltac:(rewrite Hi1; lia))
    as (G2 & Hx & Hn & Ha & Hw & Hz & Hs); [by rewrite Hn1 by (sizes; lia)|]. cbn [freeblock taken] in *.
  exists (entered (taken s) A1 i fbn), (put_entry sb W1 A1 i (freeblock s + 1) fbn), d1, (freeblock s + 1).
  assert (Hsec : nsect (taken s) = FSSIZE) by apply (bt_sect _ _ _ _ B).
  assert (Ei1 : ind d1 = ind (A1 i)) by (unfold A1; by rewrite upd_eq).
  split; [|split_and!].
  - unfold iappend_block. rewrite (proj2 (Z.ltb_ge _ _)), Edi, Hin by (sizes; lia). cbn [Z.eqb].
    erewrite bind_ok; [|by rewrite (bind_ok _ _ _ _ _ (next_block_ok s ltac:(lia)))]. fold d1.
    rewrite (bind_ok _ _ (taken s) (freeblock s + 1) (entered (taken s) A1 i fbn)); [done|].
    rewrite (entry_runs (taken s) W1 A1 i fbn d1 Hsec Ha1 Ei1) by (cbn; sizes; lia). by rewrite Hn1, Hhole by (sizes; lia).
  - eapply built_others; [exact B|exact Hi|eapply grown_trans; [exact G|exact G2]|done|done|done|cbn; lia|done| |].
    + intros j Hj Hne Hj0. assert (Ej : A1 j = A j) by (by apply upd_ne). specialize (Hs j). rewrite Ej in Hs. rewrite Hs; [by apply Hs1| |done|done].
      by apply (grown_live _ _ _ _ _ _ _ G).
    + change (upd A i (with_size off d1)) with A1. split.
      * intros bn Hbn. destruct (decide (bn = fbn)) as [->|Hne]; [rewrite Hx; lia|]. rewrite Hn, Hn1 by done. rewrite Ht1 by done. lia.
      * rewrite Hi1. sizes. lia.
  - eapply grown_trans; [exact G|exact G2].
  - change (upd A i (with_size off d1)) with A1. by rewrite Hx.
  - lia.
  - unfold nb. rewrite Em, Hfe. sizes. change (12 <? 12 + 1) with true. change (12 <? 12) with false. cbn [entered freeblock taken]. lia.
  - done.
  - eexists. reflexivity.
  - intros n Hn'. cbn [entered img taken]. apply upd_ne. rewrite Hi1. lia.
Qed.

Lemma block_ok : ∃ s1 W1 d1 x, iappend_block din fbn s = Ok (d1, x) s1 ∧ block_done s1 W1 d1 x.
Proof.
  destruct (Z.eq_dec (m i) (fbn + 1)) as [Em|Em].
  { destruct (block_there Em) as (x & E & D). by exists s, W, din, x. }
  assert (m i = fbn) as Em' by lia. destruct (Z.lt_ge_cases fbn NDIRECT) as [Hd|Hd]; [by apply block_new_direct|].
  destruct (Z.eq_dec (ind (A i)) 0) as [Hz|Hz]; [by apply block_new_both|by apply block_new_entry].
Qed.
End block_of.

(** ** Appending *)

(** The blocks that [n] bytes take. *)
Definition cnt (n : Z) : Z := (n + 511) / 512.

(** [p] has been appended at [off] to file [i], in memory: its inode on disk is the old one. *)
Record appended (i off : Z) (p : list Z) (s : mk) (W : Z → block) (A : Z → dinode) (m : Z → Z)
    (s' : mk) (W' : Z → block) (A' : Z → dinode) (m' : Z → Z) : Prop := {
  ap_built : built s' W' A' m';
  ap_others j : j ≠ i → A' j = A j;
  ap_meta : A' i = with_size (off + Z.of_nat (length p)) (with_addrs (di_addrs (A' i)) (A i));
  ap_bytes j k : live sb A j → 0 ≤ k < MAXFILE * BSIZE →
    fbyte W' (A' j) k = if (j =? i) && ((off <=? k) && (k <? off + Z.of_nat (length p))) then nth (Z.to_nat (k - off)) p 0 else fbyte W (A j) k;
  ap_table j : 0 ≤ j < sb_ninodes sb → dinode_at sb W' j = dinode_at sb W j;
  ap_m j : m' j = if j =? i then cnt (off + Z.of_nat (length p)) else m j;
  ap_fb : freeblock s' = freeblock s + (nb (cnt (off + Z.of_nat (length p))) - nb (m i));
  ap_ino : freeinode s' = freeinode s;
  ap_low n : n < 59 → img s' n = img s n
}.

Lemma appended_live i off p s W A m s' W' A' m' j : appended i off p s W A m s' W' A' m' → live sb A' j ↔ live sb A j.
Proof.
  intros P. unfold live. destruct (decide (j = i)) as [->|Hj]; [by rewrite (ap_meta _ _ _ _ _ _ _ _ _ _ _ P)|by rewrite (ap_others _ _ _ _ _ _ _ _ _ _ _ P)].
Qed.

Lemma appended_trans i off p1 p2 s W A m s1 W1 A1 m1 s2 W2 A2 m2 :
  appended i off p1 s W A m s1 W1 A1 m1 → appended i (off + Z.of_nat (length p1)) p2 s1 W1 A1 m1 s2 W2 A2 m2 →
  appended i off (p1 ++ p2) s W A m s2 W2 A2 m2.
Proof.
  intros P1 P2. pose proof P1 as [_ O1 M1 Y1 T1 N1 F1 I1 L1]. pose proof P2 as [B2 O2 M2 Y2 T2 N2 F2 I2 L2].
  assert (El : off + Z.of_nat (length (p1 ++ p2)) = off + Z.of_nat (length p1) + Z.of_nat (length p2)) by (rewrite length_app; lia).
  constructor; rewrite ?El; try done.
  - intros j Hj. by rewrite O2, O1.
  - rewrite M2, M1. by destruct (A i).
  - intros j k Hj Hk. rewrite Y2 by (done || by apply (appended_live _ _ _ _ _ _ _ _ _ _ _ _ P1)). rewrite Y1 by done.
    destruct (j =? i); cbn [andb]; [|done]. rewrite !nth_lookup.
    destruct (Z.leb_spec (off + Z.of_nat (length p1)) k); cbn [andb].
    + rewrite (proj2 (Z.leb_le off k)) by lia. cbn [andb].
      rewrite (proj2 (Z.ltb_ge k (off + Z.of_nat (length p1)))) by lia.
      case_b; [|done]. rewrite lookup_app_r by lia. do 2 f_equal. lia.
    + destruct (Z.leb_spec off k); cbn [andb]; [|done]. rewrite !(proj2 (Z.ltb_lt k _)) by lia. by rewrite lookup_app_l by lia.
  - intros j Hj. by rewrite T2, T1.
  - intros j. rewrite N2, N1. by case_b.
  - rewrite F2, F1, N1, Z.eqb_refl. lia.
  - by rewrite I2, I1.
  - intros n Hn. by rewrite L2, L1.
Qed.

Lemma appended_nil i off s W A m : built s W A m → live sb A i → m i = cnt off → di_size (A i) = off → appended i off [] s W A m s W A m.
Proof.
  intros B Hi Hm Hs. constructor; cbn [length Z.of_nat]; rewrite ?Z.add_0_r; try done.
  - rewrite <- Hs. by destruct (A i).
  - intros j k Hj Hk. by replace ((off <=? k) && (k <? off)) with false by lia; rewrite andb_false_r.
  - intros j. case_b; [by subst|done].
  - rewrite Hm. lia.
Qed.

Section turn.
Context (s : mk) (W : Z → block) (A : Z → dinode) (m : Z → Z) (i off : Z) (din : dinode) (piece : list Z).
Context (B : built s W A m) (Hi : live sb A i) (Ed : A i = with_size off din) (Hm : m i = cnt off).
Context (Hoff : 0 ≤ off) (Hp0 : (0 < length piece)%nat) (Hp1 : off mod 512 + Z.of_nat (length piece) ≤ 512).
Context (Hmax : off + Z.of_nat (length piece) ≤ MAXFILE * BSIZE) (Hby : Forall is_byte piece).
Context (Hroom : freeblock s + (nb (cnt (off + Z.of_nat (length piece))) - nb (m i)) ≤ FSSIZE).
Let n1 : Z := Z.of_nat (length piece).
Let fbn : Z := off / BSIZE.

Lemma turn_cnt : cnt (off + n1) = fbn + 1 ∧ 0 ≤ fbn < MAXFILE ∧ fbn ≤ m i ≤ fbn + 1.
Proof. unfold cnt, fbn, n1. rewrite Hm. unfold cnt. sizes. dlia. Qed.

(** The block written. *)
Section write.
Context (s1 : mk) (W1 : Z → block) (d1 : dinode) (x : Z) (D : block_done s W A m i off fbn din s1 W1 d1 x).
Let A1 : Z → dinode := upd A i (with_size off d1).
Let v : block := splice (W1 x) (off - fbn * BSIZE) piece.
Let W2 : Z → block := upd W1 x v.
Let A2 : Z → dinode := upd A1 i (with_size (off + n1) (A1 i)).
Let s2 : mk := Mk (upd (img s1) x v) FSSIZE (freeinode s1) (freeblock s1).

Lemma turn_facts : built s1 W1 A1 (upd m i (fbn + 1)) ∧ live sb A1 i ∧ nth_addr W1 (A1 i) fbn = x ∧ x ≠ 0 ∧ 59 ≤ x < freeblock s1.
Proof.
  destruct D as (B1 & G & Hx & Hx0 & _). destruct turn_cnt as (_ & Hf & _). fold A1 in B1, G, Hx.
  assert (Hi1 : live sb A1 i) by (by apply (grown_live _ _ _ _ _ _ _ G)).
  pose proof (owns_nth W1 (A1 i) fbn Hf ltac:(congruence)) as Ho. rewrite <- Hx in Ho.
  destruct (owned_used _ _ _ (bt_ok _ _ _ _ B1) i _ Hi1 Ho) as [Hr Hu]. destruct (built_facts _ _ _ _ B1) as [_ Hu']. consts.
  rewrite Hu' in Hu by lia. specialize (Hu ltac:(lia)). split; [done|]. split; [done|]. split; [done|]. split; [done|]. lia.
Qed.

Lemma turn_v : whole v.
Proof.
  destruct turn_facts as (B1 & _). unfold v. apply splice_whole; [apply (bt_whole _ _ _ _ B1)|done|unfold fbn; sizes; dlia|unfold fbn; sizes; dlia].
Qed.

Lemma turn_ok2 : fs_ok sb W2 A2.
Proof.
  destruct turn_facts as (B1 & Hi1 & Hx & Hx0 & Hr). destruct turn_cnt as (Ec & Hf & _).
  assert (Ok2 : fs_ok sb W2 A1).
  { unfold W2. rewrite <- Hx. apply (write_ok _ _ _ _ i fbn v mk_geo (bt_ok _ _ _ _ B1) Hi1 Hf). by rewrite Hx. }
  apply (resize_ok sb W2 A1 i _ Ok2 Hi1); [unfold n1; lia|]. intros bn Hbn Hlt.
  assert (Hb : 0 ≤ bn < MAXFILE) by (unfold n1 in *; sizes; lia).
  assert (En : nth_addr W2 (A1 i) bn = nth_addr W1 (A1 i) bn).
  { unfold W2. rewrite <- Hx. apply (write_nth sb W1 A1 i fbn v (bt_ok _ _ _ _ B1) Hi1 Hf); [by rewrite Hx|done]. }
  rewrite En. apply (bt_tight _ _ _ _ B1 i Hi1); [done|]. rewrite upd_eq. unfold n1, fbn in *. sizes. dlia.
Qed.

Lemma turn_built : built s2 W2 A2 (upd m i (fbn + 1)).
Proof.
  destruct turn_facts as (B1 & Hi1 & Hx & Hx0 & Hr). destruct turn_cnt as (Ec & Hf & _). pose proof (bt_fb _ _ _ _ B1). consts. constructor; cbn [nsect img freeblock s2]; try done.
  - apply ahead_write; [apply (bt_ahead _ _ _ _ B1)|lia].
  - intros n. unfold W2, upd. case_b; [apply turn_v|apply (bt_whole _ _ _ _ B1)].
  - apply turn_ok2.
  - intros n Hn. rewrite upd_ne by lia. by apply (bt_zero _ _ _ _ B1).
  - intros j Hj. assert (Hj1 : live sb A1 j) by (by apply (live_upd sb A1 i (with_size (off + n1) (A1 i)) j Hi1) in Hj).
    assert (Ht : tight W2 (A1 j) (upd m i (fbn + 1) j)).
    { destruct (bt_tight _ _ _ _ B1 j Hj1) as [Ha Hb]. split; [|done]. intros bn Hbn. unfold W2. rewrite <- Hx.
      rewrite (write_nth sb W1 A1 i fbn v (bt_ok _ _ _ _ B1) Hi1 Hf) by (done || by rewrite Hx). by apply Ha. }
    unfold A2. destruct (decide (j = i)) as [->|Hne]; [rewrite upd_eq; apply Ht|by rewrite upd_ne].
Qed.

Lemma turn_appended : appended i off piece s W A m s2 W2 A2 (upd m i (fbn + 1)).
Proof.
  destruct turn_facts as (B1 & Hi1 & Hx & Hx0 & Hr). destruct turn_cnt as (Ec & Hf & _). destruct D as (_ & G & _ & _ & Hfb & Hino & [l El] & Hlow).
  fold A1 in G. constructor; fold n1.
  - apply turn_built.
  - intros j Hj. unfold A2, A1. by rewrite !upd_ne.
  - unfold A2. rewrite upd_eq. rewrite (gn_meta _ _ _ _ _ _ G). by destruct (A i).
  - intros j k Hj Hk. assert (Hj1 : live sb A1 j) by (by apply (grown_live _ _ _ _ _ _ _ G)).
    assert (E1 : fbyte W2 (A2 j) k = fbyte W2 (A1 j) k).
    { unfold A2. destruct (decide (j = i)) as [->|Hne]; [by rewrite upd_eq|by rewrite upd_ne]. }
    rewrite E1. unfold W2. rewrite <- Hx at 1.
    rewrite (write_bytes sb W1 A1 i fbn v (bt_ok _ _ _ _ B1) Hi1 Hf) by (done || by rewrite Hx).
    rewrite <- (gn_bytes _ _ _ _ _ _ G j k Hj Hk). destruct (Z.eqb_spec j i) as [->|Hne]; cbn [andb]; [|done].
    assert (Ek : k / BSIZE = fbn → fbyte W1 (A1 i) k = nth (Z.to_nat (k mod BSIZE)) (W1 x) 0).
    { intros E. unfold fbyte. cbv zeta. by rewrite E, Hx, (proj2 (Z.eqb_neq x 0) Hx0). }
    destruct (Z.eqb_spec (k / BSIZE) fbn) as [E|E].
    + rewrite (Ek E). unfold v. rewrite nth_splice by (first [apply (bt_whole _ _ _ _ B1)|unfold fbn in *; sizes; dlia]). fold n1.
      replace ((off - fbn * BSIZE <=? k mod BSIZE) && (k mod BSIZE <? off - fbn * BSIZE + n1)) with ((off <=? k) && (k <? off + n1)).
      * case_b; [|done]. do 2 f_equal. unfold fbn in *. sizes. dlia.
      * apply eq_true_iff_eq. rewrite !andb_true_iff, !Z.leb_le, !Z.ltb_lt. unfold fbn in *. sizes. dlia.
    + replace ((off <=? k) && (k <? off + n1)) with false; [done|]. symmetry. apply andb_false_iff. rewrite Z.leb_gt, Z.ltb_ge. unfold fbn, n1 in *. sizes. dlia.
  - intros j Hj. unfold W2. consts. rewrite (dinode_at_upd (usable (DiskOk := mk_laws))) by (first [apply mk_geo|done|change (sb_bmapstart sb) with 58; lia]). by apply (gn_table _ _ _ _ _ _ G).
  - intros j. rewrite Ec. unfold upd. done.
  - rewrite Ec. cbn [freeblock s2]. lia.
  - done.
  - intros n Hn. cbn [img s2]. rewrite upd_ne by lia. by apply Hlow.
Qed.
End write.
End turn.

(** One turn of the loop. *)
Lemma turn_runs s W A m i off din p f :
  built s W A m → live sb A i → A i = with_size off din → m i = cnt off → 0 ≤ off → p ≠ [] →
  off + Z.of_nat (length p) ≤ MAXFILE * BSIZE → Forall is_byte p →
  freeblock s + (nb (cnt (off + Z.of_nat (length p))) - nb (m i)) ≤ FSSIZE →
  let piece := take (Z.to_nat (Z.min (Z.of_nat (length p)) (512 - off mod 512))) p in
  ∃ s2 W2 A2 m2 d2, iappend_loop (S f) din off p s = iappend_loop f d2 (off + Z.of_nat (length piece)) (drop (length piece) p) s2 ∧ (0 < length piece)%nat ∧
    appended i off piece s W A m s2 W2 A2 m2 ∧ A2 i = with_size (off + Z.of_nat (length piece)) d2.
Proof.
  intros B Hi Ed Hm Hoff Hne Hmax Hby Hroom. set (n1 := Z.min _ _). intros piece.
  assert (Hlen : (0 < length p)%nat) by (destruct p; [done|cbn; lia]).
  assert (Hn1 : 0 < n1 ≤ Z.of_nat (length p) ∧ off mod 512 + n1 ≤ 512) by (unfold n1; dlia).
  assert (Hpl : Z.of_nat (length piece) = n1) by (unfold piece; rewrite length_take; lia).
  assert (Hroom' : freeblock s + (nb (cnt (off + Z.of_nat (length piece))) - nb (m i)) ≤ FSSIZE).
  { etrans; [|exact Hroom]. rewrite Hpl. assert (cnt (off + n1) ≤ cnt (off + Z.of_nat (length p))) by (unfold cnt; dlia). unfold nb. repeat case_b; lia. }
  assert (Hbp : Forall is_byte piece) by (by apply Forall_take).
  destruct (turn_cnt m i off piece Hm Hoff ltac:(lia) ltac:(lia) ltac:(lia)) as (Ec & Hf & Hmf).
  destruct (block_ok s W A m i off (off / BSIZE) din B Hi Ed Hf Hmf) as (s1 & W1 & d1 & x & E & D); [by rewrite <- Ec|].
  destruct (turn_facts s W A m i off din piece Hi Hm Hoff ltac:(lia) ltac:(lia) ltac:(lia) s1 W1 d1 x D) as (B1 & _ & _ & _ & Hx).
  pose proof (turn_appended s W A m i off din piece Hi Ed Hm Hoff ltac:(lia) ltac:(lia) ltac:(lia) Hbp s1 W1 d1 x D) as P.
  pose proof (bt_fb _ _ _ _ B1) as Hfb. consts. assert (En : Z.min (Z.of_nat (length p)) ((off / 512 + 1) * 512 - off) = n1) by (unfold n1; dlia).
  assert (Epc : piece = take (Z.to_nat n1) p) by done. clearbody n1 piece.
  assert (Ex : W1 x = img s1 x) by (apply (ah_same _ _ _ (bt_ahead _ _ _ _ B1)); lia).
  eexists _, _, _, _, d1. split; [|split; [lia|split; [exact P|by rewrite !upd_eq]]].
  destruct p as [|c p'] eqn:Ep; [done|]. rewrite <- Ep in *. cbn [iappend_loop]. rewrite Ep. cbn [iappend_loop]. rewrite <- Ep.
  change BSIZE with 512 in *. change MAXFILE with 140 in *. rewrite (proj2 (Z.ltb_lt _ _)) by lia. cbn [negb].
  rewrite (bind_ok _ _ _ _ _ E). unfold rsect, wsect. unfold mbind at 1, cm_bind at 1. rewrite (bt_sect _ _ _ _ B1), (proj2 (Z.ltb_lt x _)) by lia.
  rewrite bind_modify. rewrite En.
  rewrite <- Epc, Hpl, Ex, (bt_sect _ _ _ _ B1), Z.max_l by lia. by replace (length piece) with (Z.to_nat n1) by lia.
Qed.

Lemma take_then_drop {T} n (l : list T) : take n l ++ drop (length (take n l)) l = l.
Proof.
  rewrite length_take. destruct (Nat.le_ge_cases n (length l)); [rewrite Nat.min_l by done; apply take_drop|].
  rewrite Nat.min_r, drop_ge, app_nil_r by lia. by apply take_ge.
Qed.

Lemma iappend_loop_ok fuel : ∀ s W A m i off din p,
  built s W A m → live sb A i → A i = with_size off din → m i = cnt off → 0 ≤ off → (length p ≤ fuel)%nat →
  off + Z.of_nat (length p) ≤ MAXFILE * BSIZE → Forall is_byte p →
  freeblock s + (nb (cnt (off + Z.of_nat (length p))) - nb (m i)) ≤ FSSIZE →
  ∃ s' W' A' m' d', iappend_loop fuel din off p s = Ok (d', off + Z.of_nat (length p)) s' ∧
    appended i off p s W A m s' W' A' m' ∧ A' i = with_size (off + Z.of_nat (length p)) d'.
Proof.
  induction fuel as [|f IH]; intros s W A m i off din p B Hi Ed Hm Hoff Hl Hmax Hby Hroom; destruct (decide (p = [])) as [->|Hne].
  1, 3: exists s, W, A, m, din; cbn [length Z.of_nat]; rewrite Z.add_0_r; split; [done|split; [apply appended_nil; [done..|by rewrite Ed]|done]].
  { destruct p; [done|cbn in Hl; lia]. }
  destruct (turn_runs s W A m i off din p f B Hi Ed Hm Hoff Hne Hmax Hby Hroom) as (s2 & W2 & A2 & m2 & d2 & -> & Hlt & P & E2).
  set (piece := take _ p) in *. pose proof P as [B2 _ _ _ _ M2 F2 _ _].
  assert (Hpl : (length piece ≤ length p)%nat) by (unfold piece; rewrite length_take; lia).
  assert (Esum : off + Z.of_nat (length piece) + Z.of_nat (length (drop (length piece) p)) = off + Z.of_nat (length p)) by (rewrite length_drop; lia).
  specialize (M2 i) as Mi. rewrite Z.eqb_refl in Mi.
  assert (Hi2 : live sb A2 i) by (by apply (appended_live _ _ _ _ _ _ _ _ _ _ _ _ P)).
  assert (Hr2 : freeblock s2 + (nb (cnt (off + Z.of_nat (length piece) + Z.of_nat (length (drop (length piece) p)))) - nb (m2 i)) ≤ FSSIZE)
    by (rewrite Esum, F2, Mi; lia).
  destruct (IH s2 W2 A2 m2 i (off + Z.of_nat (length piece)) d2 (drop (length piece) p) B2 Hi2 E2 Mi) as (s' & W' & A' & m' & d' & E' & P' & EA');
    [lia|rewrite length_drop; lia|lia|by apply Forall_drop|done|].
  exists s', W', A', m', d'. rewrite Esum in E', EA'. split; [exact E'|]. split; [|done].
  pose proof (take_then_drop (Z.to_nat (Z.min (Z.of_nat (length p)) (512 - off mod 512))) p) as Ep. fold piece in Ep.
  rewrite <- Ep. by eapply appended_trans.
Qed.

(** ** Inodes *)

(** Between two calls: every inode is on disk. *)
Record image (s : mk) (W : Z → block) (A : Z → dinode) : Prop := {
  im_built : built s W A (λ j, cnt (di_size (A j)));
  im_sync : synced sb W A;
  im_ino : 1 ≤ freeinode s ≤ NINODES;
  im_unused j : freeinode s ≤ j < NINODES → di_type (A j) = 0;
  im_low n : n < sb_inodestart sb → img s n = if n =? 1 then super_block else zeroes;
  im_tail j k : live sb A j → di_size (A j) ≤ k < MAXFILE * BSIZE → fbyte W (A j) k = 0
}.

Lemma iblock_range i : 0 ≤ i < NINODES → 32 ≤ IBLOCK i sb < 58.
Proof. intros Hi. change NINODES with 200 in Hi. unfold IBLOCK. sizes. change (sb_inodestart sb) with 32. dlia. Qed.

Definition wrote_inode (s : mk) (i : Z) (d : dinode) : mk := Mk (put_inode sb (img s) i d) FSSIZE (freeinode s) (freeblock s).

Lemma winode_ok s i d : nsect s = FSSIZE → 0 ≤ i < NINODES → winode i d s = Ok tt (wrote_inode s i d).
Proof.
  intros Hs Hi. pose proof (iblock_range i Hi). consts. unfold winode, rsect, wsect. unfold mbind, cm_bind. rewrite Hs, (proj2 (Z.ltb_lt _ _)) by lia.
  unfold modify, wrote_inode, put_inode. rewrite Hs, Z.max_l by lia. done.
Qed.

Lemma rinode_ok s W A i : image s W A → 0 ≤ i < NINODES → rinode i s = Ok (A i) s.
Proof.
  intros I Hi. pose proof (iblock_range i Hi). pose proof (im_built _ _ _ I) as B. consts. unfold rinode, rsect. unfold mbind, cm_bind.
  rewrite (bt_sect _ _ _ _ B), (proj2 (Z.ltb_lt _ _)) by lia. rewrite <- (ah_same _ _ _ (bt_ahead _ _ _ _ B)) by lia.
  change (Ok (dinode_at sb W i) s = Ok (A i) s). by rewrite (im_sync _ _ _ I) by (rewrite Eni; done).
Qed.

(** Writing the inode of [A] to disk. *)
Lemma built_put s W A m i d : built s W A m → 0 ≤ i < NINODES → dinode_fits d → built (wrote_inode s i d) (put_inode sb W i d) A m.
Proof.
  intros B Hi Hd. pose proof (iblock_range i Hi) as Hr. destruct B as [B1 B2 B3 B4 B5 B6 B7]. consts.
  assert (Hi' : 0 ≤ i < sb_ninodes sb) by (rewrite Eni; done).
  assert (EW : W (IBLOCK i sb) = img s (IBLOCK i sb)) by (apply (ah_same _ _ _ B2); lia).
  constructor; cbn [wrote_inode nsect img freeblock]; try done.
  - unfold put_inode. rewrite EW. apply ahead_write; [done|lia].
  - intros n. unfold put_inode, upd. case_b; [|done]. apply store_dinode_whole; [apply B3|sizes; dlia|done|apply B3].
  - by apply (put_inode_ok _ _ _ _ _ mk_geo Hi).
  - intros n Hn. unfold put_inode. rewrite upd_ne by lia. by apply B6.
  - intros j Hj. destruct (B7 j Hj) as [Ht1 Ht2]. split; [|done]. intros bn Hbn. rewrite (nth_addr_ext W); [by apply Ht1|].
    intros Hn. apply (put_inode_data _ _ _ _ _ mk_geo Hi'). by apply (owned_used _ _ _ B4 j _ Hj), owns_ind.
Qed.

(** ** [iappend] *)

(** File [i] got [p], every other file is as it was. *)
Record extended (i : Z) (p : list Z) (s : mk) (W : Z → block) (A : Z → dinode) (s' : mk) (W' : Z → block) (A' : Z → dinode) : Prop := {
  ex_image : image s' W' A';
  ex_contents : contents W' (A' i) = contents W (A i) ++ p;
  ex_size : di_size (A' i) = di_size (A i) + Z.of_nat (length p);
  ex_type : di_type (A' i) = di_type (A i);
  ex_nlink : di_nlink (A' i) = di_nlink (A i);
  ex_others j : j ≠ i → A' j = A j;
  ex_frame j : live sb A j → j ≠ i → contents W' (A j) = contents W (A j);
  ex_fb : freeblock s' = freeblock s + (nb (cnt (di_size (A i) + Z.of_nat (length p))) - nb (cnt (di_size (A i))));
  ex_ino : freeinode s' = freeinode s
}.

Lemma iappend_ok s W A i p :
  image s W A → live sb A i → Forall is_byte p → di_size (A i) + Z.of_nat (length p) ≤ MAXFILE * BSIZE →
  freeblock s + (nb (cnt (di_size (A i) + Z.of_nat (length p))) - nb (cnt (di_size (A i)))) ≤ FSSIZE →
  ∃ s' W' A', iappend i p s = Ok tt s' ∧ extended i p s W A s' W' A'.
Proof.
  intros I Hi Hp Hmax Hroom. pose proof (im_built _ _ _ I) as B. pose proof (bt_ok _ _ _ _ B) as Hok.
  assert (Hr : 0 ≤ i < NINODES) by apply Hi. pose proof (size_range sb W A i Hok Hi) as Hsz. set (n := Z.of_nat (length p)) in *.
  unfold iappend. rewrite (bind_ok _ _ _ _ _ (rinode_ok _ _ _ _ I Hr)).
  destruct (iappend_loop_ok (length p) s W A _ i (di_size (A i)) (A i) p B Hi) as (s1 & W1 & A1 & m1 & d1 & E & P & EA);
    [by destruct (A i)|done|lia|done|done|done|done|]. fold n in E, EA. rewrite (bind_ok _ _ _ _ _ E).
  pose proof P as [B1 O1 M1 Y1 T1 N1 F1 J1 L1]. fold n in M1, N1, F1.
  assert (Hi1 : live sb A1 i) by (by apply (appended_live _ _ _ _ _ _ _ _ _ _ _ _ P)).
  pose proof (fo_fits _ _ _ (ok_file _ _ _ (bt_ok _ _ _ _ B1) i Hi1)) as Hfit.
  rewrite (winode_ok s1 i _ (bt_sect _ _ _ _ B1) Hr), <- EA. pose proof (built_put _ _ _ _ i _ B1 Hr Hfit) as B2.
  exists (wrote_inode s1 i (A1 i)), (put_inode sb W1 i (A1 i)), A1. split; [done|].
  assert (Hby : ∀ j k, live sb A1 j → 0 ≤ k < MAXFILE * BSIZE → fbyte (put_inode sb W1 i (A1 i)) (A1 j) k = fbyte W1 (A1 j) k).
  { intros j k Hj Hk. by apply (put_inode_bytes _ _ _ _ _ mk_geo Hr A1 j k (bt_ok _ _ _ _ B1)). }
  assert (Es1 : di_size (A1 i) = di_size (A i) + n) by (by rewrite M1).
  constructor; try done.
  - constructor; cbn [wrote_inode freeinode img]; rewrite ?J1; try apply I.
    + eapply built_ext; [done| |exact B2]. intros j. cbn beta. rewrite N1. case_b; [by subst; rewrite Es1|]. by rewrite O1.
    + intros j Hj. rewrite (dinode_at_put sb W1 i (A1 i)) by (first [apply (bt_whole _ _ _ _ B1)|done|lia]). case_b; [by subst|]. rewrite T1, O1 by done. by apply (im_sync _ _ _ I).
    + intros j Hj. pose proof (im_ino _ _ _ I). destruct (decide (j = i)) as [->|Hne]; [|rewrite O1 by done; by apply (im_unused _ _ _ I)].
      destruct Hi as [_ Hi]. by rewrite (im_unused _ _ _ I i Hj) in Hi.
    + intros k Hk. pose proof (iblock_range i Hr). consts. unfold put_inode. rewrite upd_ne, L1 by lia. apply (im_low _ _ _ I). lia.
    + intros j k Hj Hk. pose proof (size_range sb W1 A1 j (bt_ok _ _ _ _ B1) Hj). rewrite Hby by (done || lia).
      apply (appended_live _ _ _ _ _ _ _ _ _ _ _ _ P) in Hj. rewrite Y1 by (done || lia). destruct (Z.eqb_spec j i) as [->|Hne]; cbn [andb].
      * rewrite Es1 in Hk. fold n. rewrite (proj2 (Z.ltb_ge k _)), andb_false_r by lia. apply (im_tail _ _ _ I); [done|]. unfold n in Hk. lia.
      * apply (im_tail _ _ _ I); [done|]. by rewrite <- (O1 j Hne).
  - rewrite (contents_overwrite W _ (A i) (A1 i) (di_size (A i)) p); [|lia|rewrite Es1; fold n; lia|lia|].
    + unfold overwrite. pose proof (length_fbytes W (A i) 0 (di_size (A i))) as Hl. fold (contents W (A i)) in Hl.
      rewrite take_ge, drop_ge, app_nil_r by lia. done.
    + intros k Hk. rewrite Hby by done. rewrite Y1 by done. by rewrite Z.eqb_refl.
  - by rewrite M1.
  - by rewrite M1.
  - intros j Hj Hne. apply contents_frame; [done|by apply (size_range sb W A j Hok)|]. intros k Hk.
    assert (Hj1 : live sb A1 j) by (by apply (appended_live _ _ _ _ _ _ _ _ _ _ _ _ P)). pose proof (Hby j k Hj1 Hk) as E1. rewrite Y1 in E1 by done.
    by rewrite (proj2 (Z.eqb_neq j i) Hne), (O1 j Hne) in E1.
Qed.

(** ** A new inode *)

Definition new_dinode (t : Z) : dinode := Dinode t 0 0 1 0 (replicate 13 0).

Lemma new_addrs V t bn : 0 ≤ bn < MAXFILE → nth_addr V (new_dinode t) bn = 0 ∧ ind (new_dinode t) = 0.
Proof. intros Hb. split; [|done]. unfold nth_addr. case_b; [|done]. apply nth_zeros. Qed.

Lemma new_owns V t b : ¬ owns V (new_dinode t) b.
Proof. intros [H0 [E|(bn & Hbn & E)]]; [by rewrite E in H0|]. destruct (new_addrs V t bn Hbn) as [E' _]. congruence. Qed.

Lemma fs_ok_new V A i t : fs_ok sb V A → di_type (A i) = 0 → t = T_DIR ∨ t = T_FILE → fs_ok sb V (upd A i (new_dinode t)).
Proof.
  intros Hok H0 Ht.
  assert (Hl : ∀ j, live sb (upd A i (new_dinode t)) j → j = i ∨ j ≠ i ∧ live sb A j).
  { intros j [Hj Hd]. destruct (decide (j = i)) as [->|Hne]; [by left|right]. rewrite upd_ne in Hd by done. by split. }
  assert (Hl' : ∀ j, live sb A j → j ≠ i ∧ live sb (upd A i (new_dinode t)) j).
  { intros j [Hj Hd]. assert (j ≠ i) by congruence. split; [done|]. split; [done|]. by rewrite upd_ne. }
  split.
  - intros j [->|[Hne Hj]]%Hl; [rewrite upd_eq|rewrite upd_ne by done; by apply (ok_file _ _ _ Hok)]. constructor.
    + constructor; cbn; try done; [destruct Ht as [-> | ->]; unfold T_DIR, T_FILE; lia|]. repeat (apply Forall_cons; split; [lia|]). apply Forall_nil_2.
    + intros b Hb. by apply new_owns in Hb.
    + intros bn bn' Hbn Hbn'. destruct (new_addrs V t bn Hbn). done.
    + intros bn Hbn Hi. done.
    + cbn. sizes. lia.
    + intros bn Hbn Hlt. cbn in Hlt. sizes. lia.
  - intros j j' b [->|[Hne Hj]]%Hl [->|[Hne' Hj']]%Hl; rewrite ?upd_eq, ?upd_ne by done; [done| | |].
    + intros Ho. by apply new_owns in Ho.
    + intros _ Ho. by apply new_owns in Ho.
    + by apply (ok_disj _ _ _ Hok).
  - intros b Hb. rewrite (ok_used _ _ _ Hok b Hb). split; (intros [?|(j & Hj & Ho)]; [by left|right]).
    + destruct (Hl' j Hj) as [Hne Hj']. exists j. by rewrite upd_ne.
    + destruct (Hl j Hj) as [->|[Hne Hj']]; [rewrite upd_eq in Ho; by apply new_owns in Ho|]. exists j. by rewrite upd_ne in Ho.
Qed.

Lemma mk_ialloc_ok s W A t :
  image s W A → freeinode s < NINODES → t = T_DIR ∨ t = T_FILE →
  ∃ s' W', mk_ialloc t s = Ok (freeinode s) s' ∧ image s' W' (upd A (freeinode s) (new_dinode t)) ∧
    (∀ j, live sb A j → j ≠ freeinode s ∧ contents W' (A j) = contents W (A j)) ∧
    freeblock s' = freeblock s ∧ freeinode s' = freeinode s + 1.
Proof.
  intros I Hlt Ht. pose proof (im_ino _ _ _ I) as Hino. change NINODES with 200 in *. set (i := freeinode s) in *.
  pose proof (im_unused _ _ _ I i ltac:(change NINODES with 200; lia)) as Hun. pose proof (im_built _ _ _ I) as B.
  set (A1 := upd A i (new_dinode t)). assert (Hok1 : fs_ok sb W A1) by (apply fs_ok_new; [apply (bt_ok _ _ _ _ B)|done|done]).
  assert (Hne : ∀ j, live sb A j → j ≠ i) by (intros j [_ Hj]; congruence).
  assert (Hi : 0 ≤ i < NINODES) by (change NINODES with 200; lia).
  assert (Hli : live sb A1 i) by (split; [done|unfold A1; rewrite upd_eq; by destruct Ht as [-> | ->]]).
  assert (B1 : built (Mk (img s) (nsect s) (i + 1) (freeblock s)) W A1 (λ j, cnt (di_size (A1 j)))).
  { destruct B as [B1 B2 B3 B4 B5 B6 B7]. constructor; try done. intros j Hj. unfold A1. destruct (decide (j = i)) as [->|Hj'].
    - rewrite upd_eq. split; [|done]. intros bn Hbn. rewrite (proj1 (new_addrs W t bn Hbn)). cbn. split; [done|]. change (cnt 0) with 0. lia.
    - rewrite upd_ne by done. apply B7. destruct Hj as [? Hj]. split; [done|]. unfold A1 in Hj. by rewrite upd_ne in Hj. }
  pose proof (fo_fits _ _ _ (ok_file _ _ _ Hok1 i Hli)) as Hfit. unfold A1 in Hfit. rewrite upd_eq in Hfit.
  unfold mk_ialloc, next_inode. rewrite (bind_ok _ _ s i (Mk (img s) (nsect s) (i + 1) (freeblock s))) by (cbn; by rewrite u32_small by lia).
  rewrite (bind_ok _ _ _ _ _ (winode_ok _ i (new_dinode t) (bt_sect _ _ _ _ B1) Hi)).
  exists (wrote_inode (Mk (img s) (nsect s) (i + 1) (freeblock s)) i (new_dinode t)), (put_inode sb W i (new_dinode t)).
  split; [done|]. split; [|split; [|done]].
  - constructor; cbn [wrote_inode freeinode img]; [by apply built_put| |change NINODES with 200; lia| | |].
    + intros j Hj. rewrite (dinode_at_put sb W i (new_dinode t)) by (first [apply (bt_whole _ _ _ _ B)|done|lia]). unfold A1, upd. case_b; [done|]. by apply (im_sync _ _ _ I).
    + intros j Hj. unfold A1. rewrite upd_ne by lia. apply (im_unused _ _ _ I). fold i. lia.
    + intros n Hn. pose proof (iblock_range i Hi). consts. unfold put_inode. rewrite upd_ne by lia. apply (im_low _ _ _ I). lia.
    + intros j k Hj Hk. pose proof (size_range sb W A1 j Hok1 Hj).
      rewrite (put_inode_bytes _ _ _ _ _ mk_geo Hi A1 j k Hok1 Hj) by lia. destruct (decide (j = i)) as [->|Hj'].
      * unfold A1. rewrite upd_eq. unfold fbyte. by rewrite (proj1 (new_addrs W t (k / BSIZE) ltac:(sizes; dlia))).
      * unfold A1 in *. rewrite upd_ne in * by done. apply (im_tail _ _ _ I); [|done]. destruct Hj as [? Hj]. split; [done|]. by rewrite upd_ne in Hj.
  - intros j Hj. split; [by apply Hne|]. pose proof (bt_ok _ _ _ _ B) as Hok. apply contents_frame; [done|by apply (size_range sb W A j Hok)|].
    intros k Hk. by apply (put_inode_bytes _ _ _ _ _ mk_geo Hi A j k Hok).
Qed.

(** ** Files *)

(** What the reads of a file return before its end. *)
Fixpoint read_all (reads : list (list Z)) : list Z :=
  match reads with
  | [] => []
  | b :: reads' => if (length b =? 0)%nat then [] else b ++ read_all reads'
  end.

Definition space (c : list Z) : Z := nb (cnt (Z.of_nat (length c))).

Lemma space_mono n k : 0 ≤ n ≤ k → nb (cnt n) ≤ nb (cnt k).
Proof. intros H. assert (cnt n ≤ cnt k) by (unfold cnt; dlia). unfold nb. repeat case_b; lia. Qed.

Lemma contents_length s W A i : image s W A → live sb A i → Z.of_nat (length (contents W (A i))) = di_size (A i).
Proof.
  intros I Hi. unfold contents. rewrite length_fbytes. pose proof (size_range sb W A i (bt_ok _ _ _ _ (im_built _ _ _ I)) Hi). lia.
Qed.

Lemma extended_nil i s W A : image s W A → extended i [] s W A s W A.
Proof. intros I. constructor; cbn [length Z.of_nat]; rewrite ?app_nil_r, ?Z.add_0_r; try done. lia. Qed.

Lemma extended_live i p s W A s' W' A' j : extended i p s W A s' W' A' → live sb A' j ↔ live sb A j.
Proof.
  intros X. unfold live. destruct (decide (j = i)) as [->|Hj]; [by rewrite (ex_type _ _ _ _ _ _ _ _ X)|by rewrite (ex_others _ _ _ _ _ _ _ _ X)].
Qed.

Lemma extended_trans i p1 p2 s W A s1 W1 A1 s2 W2 A2 :
  extended i p1 s W A s1 W1 A1 → extended i p2 s1 W1 A1 s2 W2 A2 → extended i (p1 ++ p2) s W A s2 W2 A2.
Proof.
  intros X1 X2. pose proof X1 as [I1 C1 S1 T1 L1 O1 F1 B1 N1]. pose proof X2 as [I2 C2 S2 T2 L2 O2 F2 B2 N2]. constructor; try congruence; try done.
  - by rewrite C2, C1, app_assoc.
  - rewrite S2, S1, length_app. lia.
  - intros j Hj. by rewrite O2, O1.
  - intros j Hj Hne. rewrite <- (F1 j) by done. specialize (F2 j). rewrite (O1 j Hne) in F2. apply F2; [|done]. by apply (extended_live _ _ _ _ _ _ _ _ _ X1).
  - rewrite B2, B1, S1, length_app. replace (di_size (A i) + Z.of_nat (length p1) + Z.of_nat (length p2)) with (di_size (A i) + Z.of_nat (length p1 + length p2)) by lia. lia.
Qed.

Lemma append_reads_ok reads : ∀ s W A i,
  image s W A → live sb A i → Forall (Forall is_byte) reads → di_size (A i) + Z.of_nat (length (read_all reads)) ≤ MAXFILE * BSIZE →
  freeblock s + (nb (cnt (di_size (A i) + Z.of_nat (length (read_all reads)))) - nb (cnt (di_size (A i)))) ≤ FSSIZE →
  ∃ s' W' A', append_reads i reads s = Ok tt s' ∧ extended i (read_all reads) s W A s' W' A'.
Proof.
  induction reads as [|b reads IH]; intros s W A i I Hi Hb Hmax Hroom; cbn [append_reads read_all] in *.
  { exists s, W, A. split; [done|]. by apply extended_nil. }
  apply Forall_cons in Hb as [Hb Hbs]. destruct (length b =? 0)%nat eqn:E0.
  { exists s, W, A. split; [done|]. by apply extended_nil. }
  rewrite length_app in *. pose proof (size_range sb W A i (bt_ok _ _ _ _ (im_built _ _ _ I)) Hi) as Hsz.
  pose proof (space_mono (di_size (A i) + Z.of_nat (length b)) (di_size (A i) + Z.of_nat (length b + length (read_all reads))) ltac:(lia)) as Hmono.
  destruct (iappend_ok s W A i b I Hi Hb ltac:(lia) ltac:(lia)) as (s1 & W1 & A1 & E & X). rewrite (bind_ok _ _ _ _ _ E).
  pose proof X as [I1 _ S1 _ _ _ _ B1 _]. assert (Hi1 : live sb A1 i) by (by apply (extended_live _ _ _ _ _ _ _ _ _ X)).
  assert (Es : di_size (A1 i) + Z.of_nat (length (read_all reads)) = di_size (A i) + Z.of_nat (length b + length (read_all reads))) by lia.
  destruct (IH s1 W1 A1 i I1 Hi1 Hbs) as (s2 & W2 & A2 & E2 & X2); [lia|rewrite Es, B1, S1; lia|].
  exists s2, W2, A2. split; [done|]. by eapply extended_trans.
Qed.

(** The image holds the directory bytes [dir] and the files [cs], inodes 2, 3, and so on. *)
Record stored (s : mk) (W : Z → block) (A : Z → dinode) (dir : list Z) (cs : list (list Z)) : Prop := {
  sd_image : image s W A;
  sd_root : live sb A ROOTINO ∧ di_type (A ROOTINO) = T_DIR ∧ di_nlink (A ROOTINO) = 1;
  sd_dir : contents W (A ROOTINO) = dir;
  sd_file k c : cs !! k = Some c →
    di_type (A (2 + Z.of_nat k)) = T_FILE ∧ di_nlink (A (2 + Z.of_nat k)) = 1 ∧ contents W (A (2 + Z.of_nat k)) = c;
  sd_ino : freeinode s = 2 + Z.of_nat (length cs);
  sd_fb : freeblock s = dstart sb + space dir + foldr (λ c t, space c + t) 0 cs
}.

Lemma stored_live s W A dir cs k : stored s W A dir cs → (k < length cs)%nat → live sb A (2 + Z.of_nat k).
Proof.
  intros S Hk. destruct (lookup_lt_is_Some_2 _ _ Hk) as [c E]. destruct (sd_file _ _ _ _ _ S k c E) as (Ht & _).
  pose proof (im_ino _ _ _ (sd_image _ _ _ _ _ S)) as Hi. rewrite (sd_ino _ _ _ _ _ S) in Hi. split; [change (sb_ninodes sb) with NINODES; lia|]. rewrite Ht. done.
Qed.

(** More of the directory. *)
Lemma stored_dir s W A dir cs p s' W' A' :
  stored s W A dir cs → extended ROOTINO p s W A s' W' A' → stored s' W' A' (dir ++ p) cs.
Proof.
  intros S X. pose proof S as [I (Hr & Ht & Hl) Hd Hf Hi Hb]. pose proof X as [I1 C1 S1 T1 L1 O1 F1 B1 N1]. constructor; try done.
  - split_and!; [by apply (extended_live _ _ _ _ _ _ _ _ _ X)|congruence|congruence].
  - by rewrite C1, Hd.
  - intros k c Hk. destruct (Hf k c Hk) as (? & ? & ?). pose proof (stored_live _ _ _ _ _ k S (lookup_lt_Some _ _ _ Hk)).
    rewrite O1 by (unfold ROOTINO; lia). by rewrite F1 by (done || unfold ROOTINO; lia).
  - by rewrite N1.
  - rewrite B1, Hb. pose proof (contents_length _ _ _ _ I Hr) as El. rewrite Hd in El. unfold space. rewrite length_app, <- El.
    replace (Z.of_nat (length dir) + Z.of_nat (length p)) with (Z.of_nat (length dir + length p)) by lia. lia.
Qed.

(** A new, empty file. *)
Lemma stored_new s W A dir cs s' W' :
  stored s W A dir cs → image s' W' (upd A (freeinode s) (new_dinode T_FILE)) →
  (∀ j, live sb A j → j ≠ freeinode s ∧ contents W' (A j) = contents W (A j)) →
  freeblock s' = freeblock s → freeinode s' = freeinode s + 1 →
  stored s' W' (upd A (freeinode s) (new_dinode T_FILE)) dir (cs ++ [[]]).
Proof.
  intros S I1 Hs Hb' Hi'. pose proof S as [I (Hr & Ht & Hl) Hd Hf Hi Hb]. destruct (Hs _ Hr) as [Hne Hc]. constructor; try done.
  - rewrite upd_ne by done. split_and!; try done. destruct Hr as [? Hr]. split; [done|]. by rewrite upd_ne.
  - by rewrite upd_ne, Hc.
  - intros k c Hk. apply lookup_app_Some in Hk as [Hk|[Hk Hk']].
    + destruct (Hf k c Hk) as (? & ? & ?). pose proof (stored_live _ _ _ _ _ k S (lookup_lt_Some _ _ _ Hk)) as Hlk. destruct (Hs _ Hlk) as [? Hck].
      rewrite upd_ne by done. by rewrite Hck.
    + apply list_lookup_singleton_Some in Hk' as [Hk' <-]. assert (2 + Z.of_nat k = freeinode s) as -> by lia. rewrite upd_eq. done.
  - rewrite Hi', Hi, length_app. cbn. lia.
  - rewrite Hb', Hb, foldr_app. cbn. change (space []) with 0. done.
Qed.

Definition spaces (cs : list (list Z)) : Z := foldr (λ c t, space c + t) 0 cs.

Lemma spaces_app cs1 cs2 : spaces (cs1 ++ cs2) = spaces cs1 + spaces cs2.
Proof. induction cs1 as [|c cs1 IH]; cbn; [done|]. fold (spaces (cs1 ++ cs2)) (spaces cs1). rewrite IH. lia. Qed.

Lemma space_nonneg c : 0 ≤ space c.
Proof. unfold space, nb, cnt. case_b; dlia. Qed.

Lemma spaces_nonneg cs : 0 ≤ spaces cs.
Proof. induction cs as [|c cs IH]; [done|]. cbn. fold (spaces cs). pose proof (space_nonneg c). lia. Qed.

(** The contents of the file just created. *)
Lemma stored_last s W A dir cs c s' W' A' :
  stored s W A dir (cs ++ [[]]) → extended (2 + Z.of_nat (length cs)) c s W A s' W' A' → stored s' W' A' dir (cs ++ [c]).
Proof.
  intros S X. pose proof S as [I (Hr & Ht & Hl) Hd Hf Hi Hb]. pose proof X as [I1 C1 S1 T1 L1 O1 F1 B1 N1]. set (i := 2 + Z.of_nat (length cs)) in *.
  assert (Hl0 : (cs ++ [[]]) !! length cs = Some []) by (by rewrite lookup_app_r, Nat.sub_diag by done).
  destruct (Hf _ _ Hl0) as (Hti & Hli & Hci). fold i in Hti, Hli, Hci. pose proof (stored_live _ _ _ _ _ _ S (lookup_lt_Some _ _ _ Hl0)) as Hlive. fold i in Hlive.
  pose proof (contents_length _ _ _ _ I Hlive) as El. rewrite Hci in El. cbn in El.
  assert (Hri : ROOTINO ≠ i) by (unfold ROOTINO, i; lia). constructor; try done.
  - rewrite O1 by done. split_and!; try done. by apply (extended_live _ _ _ _ _ _ _ _ _ X).
  - by rewrite O1, F1 by done.
  - intros k c' Hk. apply lookup_app_Some in Hk as [Hk|[Hk Hk']].
    + pose proof (lookup_lt_Some _ _ _ Hk) as Hlt. assert (Hk0 : (cs ++ [[]]) !! k = Some c') by (by rewrite lookup_app_l).
      destruct (Hf k c' Hk0) as (? & ? & ?). pose proof (stored_live _ _ _ _ _ k S (lookup_lt_Some _ _ _ Hk0)).
      rewrite O1 by (unfold i; lia). by rewrite F1 by (done || unfold i; lia).
    + apply list_lookup_singleton_Some in Hk' as [Hk' <-]. assert (2 + Z.of_nat k = i) as -> by (unfold i; lia).
      rewrite C1, Hci. split_and!; [congruence|congruence|done].
  - by rewrite N1, Hi, !length_app.
  - rewrite B1, Hb, <- El. fold (spaces (cs ++ [[]])) (spaces (cs ++ [c])). rewrite !spaces_app. cbn [spaces foldr]. unfold space at 2 4. change (Z.of_nat 0) with 0.
    rewrite (Z.add_0_l (Z.of_nat (length c))). cbn [length]. change (nb (cnt (Z.of_nat 0))) with 0. change (nb (cnt 0)) with 0. lia.
Qed.

(** ** The files of the command line *)

Definition name14 (f : file) : list Z := take DIRSIZ (stored_name f.1) ++ replicate (DIRSIZ - length (stored_name f.1)) 0.

Record file_fits (f : file) : Prop := {
  ff_name : Forall (λ c, 0 < c < 256 ∧ c ≠ 47) f.1;
  ff_bytes : Forall (Forall is_byte) f.2;
  ff_size : Z.of_nat (length (read_all f.2)) ≤ MAXFILE * BSIZE
}.

Lemma stored_name_bytes f : file_fits f → Forall (λ c, c ≠ 0) (stored_name f.1) ∧ Forall is_byte (stored_name f.1).
Proof.
  intros [Hn _ _]. assert (Hs : Forall (λ c, 0 < c < 256 ∧ c ≠ 47) (stored_name f.1)).
  { destruct f.1 as [|c n]; [done|]. apply Forall_cons in Hn as [Hc Hn]. cbn. repeat case_match; try done; by constructor. }
  split; eapply Forall_impl; try exact Hs; cbn; unfold is_byte; lia.
Qed.

Lemma name_copied f : file_fits f → strncpy (replicate DIRSIZ 0) (stored_name f.1 ++ [0]) DIRSIZ = Some (name14 f).
Proof.
  intros Hf. destruct (stored_name_bytes f Hf) as [Hn _].
  rewrite strncpy_spec by (first [by rewrite length_replicate|right; apply elem_of_app; right; left]).
  rewrite cstr_app by done. rewrite drop_ge, app_nil_r by (by rewrite length_replicate). done.
Qed.

Lemma dirent_ok i n : length n = DIRSIZ → Forall is_byte n → length (dirent i n) = 16%nat ∧ Forall is_byte (dirent i n).
Proof.
  intros Hl Hn. unfold dirent. split; [by rewrite length_app, length_le_bytes, Hl|]. apply Forall_app. split; [apply le_bytes_bytes|done].
Qed.

Lemma name14_ok f : file_fits f → length (name14 f) = DIRSIZ ∧ Forall is_byte (name14 f).
Proof.
  intros Hf. destruct (stored_name_bytes f Hf) as [_ Hb]. unfold name14. split; [rewrite length_app, length_take, length_replicate; lia|].
  apply Forall_app. split; [by apply Forall_take|]. apply Forall_replicate. unfold is_byte. lia.
Qed.

Lemma add_file_ok s W A dir cs f :
  stored s W A dir cs → file_fits f → 2 + Z.of_nat (length cs) < NINODES → Z.of_nat (length dir) + 16 ≤ MAXFILE * BSIZE →
  dstart sb + nb (cnt (Z.of_nat (length dir) + 16)) + spaces cs + space (read_all f.2) ≤ FSSIZE →
  ∃ s' W' A', add_file ROOTINO f s = Ok tt s' ∧
    stored s' W' A' (dir ++ dirent (2 + Z.of_nat (length cs)) (name14 f)) (cs ++ [read_all f.2]).
Proof.
  intros S Hf Hn Hd Hroom. pose proof S as [I (Hr & _) Ed _ Ei _]. unfold add_file. rewrite bool_decide_eq_false_2.
  2: { intros Hin. destruct (proj1 (Forall_forall _ _) (ff_name _ Hf) _ Hin). done. }
  destruct (mk_ialloc_ok s W A T_FILE I ltac:(rewrite Ei; done) ltac:(by right)) as (s1 & W1 & E1 & I1 & Hc1 & Hb1 & Hi1).
  rewrite (bind_ok _ _ _ _ _ E1), (name_copied f Hf). pose proof (stored_new _ _ _ _ _ _ _ S I1 Hc1 Hb1 Hi1) as S1.
  rewrite Ei in *. set (i := 2 + Z.of_nat (length cs)) in *. set (A1 := upd A i (new_dinode T_FILE)) in *.
  destruct (name14_ok f Hf) as [Hl Hby]. destruct (dirent_ok i (name14 f) Hl Hby) as [Hel Heb].
  pose proof (sd_root _ _ _ _ _ S1) as (Hr1 & _). pose proof (contents_length _ _ _ _ I1 Hr1) as Hs1. rewrite (sd_dir _ _ _ _ _ S1) in Hs1.
  pose proof (sd_fb _ _ _ _ _ S1) as Hfb1. fold (spaces (cs ++ [[]])) in Hfb1. rewrite spaces_app in Hfb1. change (spaces [[]]) with 0 in Hfb1.
  pose proof (space_nonneg (read_all f.2)) as Hsp.
  destruct (iappend_ok s1 W1 A1 ROOTINO (dirent i (name14 f)) I1 Hr1 Heb) as (s2 & W2 & A2 & E2 & X2);
    [rewrite <- Hs1, Hel; lia|rewrite <- Hs1, Hel, Hfb1; unfold space; change (Z.of_nat 16) with 16; lia|].
  rewrite (bind_ok _ _ _ _ _ E2). pose proof (stored_dir _ _ _ _ _ _ _ _ _ S1 X2) as S2. pose proof (sd_image _ _ _ _ _ S2) as I2.
  assert (Hlive : live sb A2 i) by (apply (stored_live _ _ _ _ _ (length cs) S2); rewrite length_app; cbn; lia).
  assert (Hci : contents W2 (A2 i) = []).
  { apply (sd_file _ _ _ _ _ S2 (length cs)). by rewrite lookup_app_r, Nat.sub_diag by done. }
  pose proof (contents_length _ _ _ _ I2 Hlive) as Hs2. rewrite Hci in Hs2. cbn in Hs2.
  pose proof (sd_fb _ _ _ _ _ S2) as Hfb2. fold (spaces (cs ++ [[]])) in Hfb2. rewrite spaces_app in Hfb2. change (spaces [[]]) with 0 in Hfb2.
  unfold space in Hfb2 at 1. rewrite length_app, Hel in Hfb2.
  destruct (append_reads_ok f.2 s2 W2 A2 i I2 Hlive (ff_bytes _ Hf)) as (s3 & W3 & A3 & E3 & X3).
  - rewrite <- Hs2. apply (ff_size _ Hf).
  - rewrite <- Hs2, Hfb2, Z.add_0_l. change (nb (cnt 0)) with 0. fold (space (read_all f.2)).
    replace (Z.of_nat (length dir + 16)) with (Z.of_nat (length dir) + 16) by lia. change (nb (cnt (Z.of_nat 0))) with 0. lia.
  - exists s3, W3, A3. split; [exact E3|]. by eapply stored_last.
Qed.

(** The directory entries of the files, from inode [i] on. *)
Fixpoint file_entries (i : Z) (fs : list file) : list (list Z) :=
  match fs with
  | [] => []
  | f :: fs' => dirent i (name14 f) :: file_entries (i + 1) fs'
  end.

Lemma file_entries_length fs : ∀ i, Forall file_fits fs → length (mjoin (file_entries i fs)) = (16 * length fs)%nat.
Proof.
  induction fs as [|f fs IH]; intros i Hf; [done|]. apply Forall_cons in Hf as [Hf Hfs]. cbn [file_entries mjoin list_join]. rewrite length_app, IH by done.
  destruct (name14_ok f Hf) as [Hl Hb]. destruct (dirent_ok i _ Hl Hb) as [-> _]. cbn. lia.
Qed.

Definition sizes_of (fs : list file) : list (list Z) := (λ f, read_all f.2) <$> fs.

Lemma add_files_ok fs : ∀ s W A dir cs,
  stored s W A dir cs → Forall file_fits fs → 2 + Z.of_nat (length cs + length fs) ≤ NINODES →
  Z.of_nat (length dir) + 16 * Z.of_nat (length fs) ≤ MAXFILE * BSIZE →
  dstart sb + nb (cnt (Z.of_nat (length dir) + 16 * Z.of_nat (length fs))) + spaces cs + spaces (sizes_of fs) ≤ FSSIZE →
  ∃ s' W' A', add_files ROOTINO fs s = Ok tt s' ∧
    stored s' W' A' (dir ++ mjoin (file_entries (2 + Z.of_nat (length cs)) fs)) (cs ++ sizes_of fs).
Proof.
  induction fs as [|f fs IH]; intros s W A dir cs Hst Hf Hn Hd Hroom.
  { exists s, W, A. cbn. rewrite !app_nil_r. done. }
  apply Forall_cons in Hf as [Hf Hfs]. cbn [length] in *. cbn [add_files].
  change (sizes_of (f :: fs)) with (read_all f.2 :: sizes_of fs) in *.
  change (spaces (read_all f.2 :: sizes_of fs)) with (space (read_all f.2) + spaces (sizes_of fs)) in Hroom.
  pose proof (space_mono (Z.of_nat (length dir) + 16) (Z.of_nat (length dir) + 16 * Z.of_nat (S (length fs))) ltac:(lia)).
  pose proof (spaces_nonneg (sizes_of fs)).
  destruct (add_file_ok s W A dir cs f Hst Hf) as (s1 & W1 & A1 & E & S1); [lia|lia|lia|]. rewrite (bind_ok _ _ _ _ _ E).
  destruct (name14_ok f Hf) as [Hl Hb]. destruct (dirent_ok (2 + Z.of_nat (length cs)) _ Hl Hb) as [Hel _].
  assert (Elen : Z.of_nat (length (dir ++ dirent (2 + Z.of_nat (length cs)) (name14 f))) + 16 * Z.of_nat (length fs) =
    Z.of_nat (length dir) + 16 * Z.of_nat (S (length fs))) by (rewrite length_app, Hel; lia).
  destruct (IH _ _ _ _ _ S1 Hfs) as (s2 & W2 & A2 & E2 & S2).
  - rewrite length_app. cbn. lia.
  - rewrite Elen. lia.
  - rewrite Elen, spaces_app. change (spaces [read_all f.2]) with (space (read_all f.2) + 0). lia.
  - exists s2, W2, A2. split; [done|]. rewrite <- !app_assoc, length_app in S2. cbn [length app] in S2.
    cbn [file_entries mjoin list_join]. by replace (2 + Z.of_nat (length cs) + 1) with (2 + Z.of_nat (length cs + 1)) by lia.
Qed.

(** ** The empty image *)

Lemma clear_sects_ok n : ∀ i s, 0 ≤ i → nsect s ≤ i →
  (∀ k, img s k = zeroes) →
  ∃ s', clear_sects n i s = Ok tt s' ∧ (∀ k, img s' k = zeroes) ∧ (nsect s' = if (n =? 0)%nat then nsect s else i + Z.of_nat n) ∧
    freeinode s' = freeinode s ∧ freeblock s' = freeblock s.
Proof.
  induction n as [|n IH]; intros i s Hi Hs Hz; cbn [clear_sects]; [by exists s|].
  unfold wsect. rewrite bind_modify. set (s1 := Mk _ _ _ _).
  destruct (IH (i + 1) s1) as (s2 & E & Hz2 & Hn2 & Hi2 & Hb2); [lia|cbn; lia|intros k; cbn; unfold upd; by case_b|].
  exists s2. rewrite E. split_and!; try done. rewrite Hn2. cbn. destruct n; cbn; lia.
Qed.

Lemma super_whole : whole super_block.
Proof.
  unfold super_block. split; [vm_compute; reflexivity|]. apply store_words_bytes. apply zeroes_whole.
Qed.

Lemma blank_dinode j V : V (IBLOCK j sb) = zeroes → di_type (dinode_at sb V j) = 0.
Proof. intros E. unfold dinode_at, load_dinode. rewrite E. cbn [di_type]. unfold zeroes. by rewrite load_zeros. Qed.

Lemma blank_image s :
  nsect s = FSSIZE → (∀ k, img s k = if k =? 1 then super_block else zeroes) → freeinode s = 1 → freeblock s = nmeta →
  let W := upd (img s) BMAP (first_bits (Z.to_nat nmeta)) in image s W (dinode_at sb W).
Proof.
  intros Hn Hz Hi Hb W. consts.
  assert (Hdead : ∀ j, ¬ live sb (dinode_at sb W) j).
  { intros j [Hj Ht]. apply Ht, blank_dinode. pose proof (iblock_range j Hj). unfold W. rewrite upd_ne, Hz by lia. by rewrite (proj2 (Z.eqb_neq _ 1)) by lia. }
  assert (Ha : ahead (img s) (freeblock s) W).
  { split; [intros n Hne; by apply upd_ne|]. rewrite Hb. apply upd_eq. }
  constructor; try done.
  - constructor; try done.
    + intros n. unfold W, upd. case_b; [apply first_bits_ok; vm_compute; lia|]. rewrite Hz. case_b; [apply super_whole|apply zeroes_whole].
    + split; [intros j Hj; by apply Hdead in Hj|intros j j' b Hj; by apply Hdead in Hj|].
      intros b Hbr. rewrite (ahead_used _ _ _ _ Ha) by (rewrite ?Hb; change nmeta with 59; lia). rewrite Hb. change nmeta with 59. rewrite Z.ltb_lt.
      split; [intros Hlt; left; lia|]. intros [Hlt|(j & Hj & _)]; [lia|by apply Hdead in Hj].
    + rewrite Hb. change nmeta with 59. lia.
    + intros n Hr. rewrite Hb in Hr. change nmeta with 59 in Hr. rewrite Hz. by rewrite (proj2 (Z.eqb_neq n 1)) by lia.
    + intros j Hj. by apply Hdead in Hj.
  - rewrite Hi. change NINODES with 200. lia.
  - intros j Hj. destruct (Z.eq_dec (di_type (dinode_at sb W j)) 0) as [|Hne]; [done|]. destruct (Hdead j). split; [|done].
    rewrite Hi in Hj. change (sb_ninodes sb) with NINODES. lia.
  - intros j k Hj. by apply Hdead in Hj.
Qed.

(** ** The root directory *)

Lemma stored_root s W A s' W' :
  image s W A → freeinode s = ROOTINO → freeblock s = dstart sb → image s' W' (upd A ROOTINO (new_dinode T_DIR)) →
  freeblock s' = freeblock s → freeinode s' = freeinode s + 1 → stored s' W' (upd A ROOTINO (new_dinode T_DIR)) [] [].
Proof.
  intros I Hi Hb I' Hb' Hi'. constructor; [exact I'|unfold live| | | |].
  - rewrite upd_eq. by split_and!.
  - by rewrite upd_eq.
  - intros k c Hk. done.
  - by rewrite Hi', Hi.
  - rewrite Hb', Hb. change (space []) with 0. cbn [foldr]. lia.
Qed.

Definition root_entries : list (list Z) := [dirent ROOTINO (dot 1); dirent ROOTINO (dot 2)].

Lemma dot_ok n : (n ≤ DIRSIZ)%nat → length (dot n) = DIRSIZ ∧ Forall is_byte (dot n).
Proof.
  intros Hn. unfold dot. split; [rewrite length_app, !length_replicate; lia|]. apply Forall_app. split; apply Forall_replicate; unfold is_byte; lia.
Qed.

Lemma root_step s W A dir p : 
  stored s W A dir [] → Forall is_byte p → length p = 16%nat → Z.of_nat (length dir) ≤ 16 →
  ∃ s' W' A', iappend ROOTINO p s = Ok tt s' ∧ stored s' W' A' (dir ++ p) [].
Proof.
  intros S Hb Hl Hd. pose proof S as [I (Hr & _) Ed _ _ Hfb]. pose proof (contents_length _ _ _ _ I Hr) as Hs. rewrite Ed in Hs.
  assert (Hc : nb (cnt (Z.of_nat (length dir) + 16)) = 1).
  { assert (E : cnt (Z.of_nat (length dir) + 16) = 1) by (unfold cnt; dlia). by rewrite E. }
  cbn [foldr] in Hfb. unfold space in Hfb.
  destruct (iappend_ok s W A ROOTINO p I Hr Hb) as (s1 & W1 & A1 & E1 & X1).
  - rewrite <- Hs, Hl. sizes. lia.
  - rewrite <- Hs, Hl. change (Z.of_nat 16) with 16. rewrite Hc, Hfb. consts. lia.
  - exists s1, W1, A1. split; [done|]. by eapply stored_dir.
Qed.

(** The padding of the root directory, with a partial last block. *)
Lemma fix_root_ok s W A dir cs :
  stored s W A dir cs → Z.of_nat (length dir) mod 512 ≠ 0 → Z.of_nat (length dir) ≤ MAXFILE * BSIZE →
  ∃ s' W' A', fix_root ROOTINO s = Ok tt s' ∧ built s' W' A' (λ j, cnt (di_size (A j))) ∧ synced sb W' A' ∧
    (∀ j, j ≠ ROOTINO → A' j = A j) ∧ di_type (A' ROOTINO) = T_DIR ∧ di_nlink (A' ROOTINO) = 1 ∧
    contents W' (A' ROOTINO) = dir ++ replicate (Z.to_nat (512 * cnt (Z.of_nat (length dir)) - Z.of_nat (length dir))) 0 ∧
    (∀ j, live sb A j → j ≠ ROOTINO → contents W' (A j) = contents W (A j)) ∧
    freeblock s' = freeblock s ∧ ∀ n, n < sb_inodestart sb → img s' n = if n =? 1 then super_block else zeroes.
Proof.
  intros S Hm Hd. pose proof S as [I (Hr & Ht & Hl) Ed _ _ _]. pose proof (contents_length _ _ _ _ I Hr) as Hs. rewrite Ed in Hs.
  pose proof (im_built _ _ _ I) as B. pose proof (bt_ok _ _ _ _ B) as Hok. unfold fix_root. rewrite (bind_ok _ _ _ _ _ (rinode_ok _ _ _ _ I (proj1 Hr))).
  rewrite <- Hs. set (n := Z.of_nat (length dir)) in *. assert (En : u32 ((n / BSIZE + 1) * BSIZE) = 512 * cnt n).
  { rewrite u32_small by (sizes; dlia). unfold cnt. sizes. dlia. } rewrite En. set (n' := 512 * cnt n).
  assert (Hn' : n < n' ≤ MAXFILE * BSIZE ∧ n' = 512 * cnt n) by (unfold n', cnt; sizes; dlia). set (d := with_size n' (A ROOTINO)). set (A' := upd A ROOTINO d).
  assert (Hok' : fs_ok sb W A').
  { apply (resize_ok sb W A ROOTINO n' Hok Hr); [lia|]. intros bn Hbn Hlt. apply (bt_tight _ _ _ _ B ROOTINO Hr); [sizes; lia|]. cbn beta. rewrite <- Hs. fold n. sizes. lia. }
  assert (Hr' : live sb A' ROOTINO) by (split; [apply Hr|unfold A', d; rewrite upd_eq; cbn; apply Hr]).
  pose proof (fo_fits _ _ _ (ok_file _ _ _ Hok' ROOTINO Hr')) as Hfit. unfold A' in Hfit. rewrite upd_eq in Hfit.
  rewrite (winode_ok s ROOTINO d (bt_sect _ _ _ _ B) (proj1 Hr)).
  assert (B' : built s W A' (λ j, cnt (di_size (A j)))).
  { destruct B as [B1 B2 B3 B4 B5 B6 B7]. constructor; try done. intros j Hj. unfold A'. destruct (decide (j = ROOTINO)) as [->|Hne]; [rewrite upd_eq; by apply (B7 ROOTINO)|].
    rewrite upd_ne by done. apply B7. destruct Hj as [? Hj]. split; [done|]. unfold A' in Hj. by rewrite upd_ne in Hj. }
  exists (wrote_inode s ROOTINO d), (put_inode sb W ROOTINO d), A'. split; [done|]. split; [apply built_put; [exact B'|apply Hr|done]|]. split_and!.
  - intros j Hj. rewrite (dinode_at_put sb W ROOTINO d) by (first [apply (bt_whole _ _ _ _ B)|done|lia]). unfold A', upd. case_b; [done|]. by apply (im_sync _ _ _ I).
  - intros j Hj. by apply upd_ne.
  - unfold A'. by rewrite upd_eq.
  - unfold A'. by rewrite upd_eq.
  - unfold contents, fbytes. unfold A' at 2. rewrite upd_eq. cbn [d with_size di_size].
    replace n' with (n + (n' - n)) by lia. rewrite seqZ_app, fmap_app by lia. f_equal.
    + rewrite <- Ed. unfold contents, fbytes. rewrite <- Hs. apply list_fmap_ext. intros j k Hk. apply lookup_seqZ in Hk.
      rewrite (put_inode_bytes _ _ _ _ _ mk_geo (proj1 Hr) A' ROOTINO k Hok' Hr') by (sizes; lia). unfold A'. by rewrite upd_eq.
    + replace (n + (n' - n) - n) with (n' - n) by lia. apply list_eq. intros j. destruct (decide (j < Z.to_nat (n' - n))%nat) as [Hj|Hj].
      * rewrite list_lookup_fmap, lookup_seqZ_lt, lookup_replicate_2 by lia. cbn. f_equal.
        rewrite (put_inode_bytes _ _ _ _ _ mk_geo (proj1 Hr) A' ROOTINO _ Hok' Hr') by (sizes; lia). unfold A'. rewrite upd_eq.
        change (fbyte W d (0 + n + Z.of_nat j)) with (fbyte W (A ROOTINO) (0 + n + Z.of_nat j)). apply (im_tail _ _ _ I ROOTINO _ Hr). rewrite <- Hs. fold n. sizes. lia.
      * rewrite !lookup_ge_None_2; [done|rewrite length_replicate; lia|rewrite length_fmap, length_seqZ; lia].
  - intros j Hj Hne. apply contents_frame; [done|by apply (size_range sb W A j Hok)|]. intros k Hk.
    by apply (put_inode_bytes _ _ _ _ _ mk_geo (proj1 Hr) A j k Hok).
  - done.
  - intros k Hk. cbn [wrote_inode img]. pose proof (iblock_range ROOTINO (proj1 Hr)). consts. unfold put_inode. rewrite upd_ne by lia. apply (im_low _ _ _ I). lia.
Qed.

(** ** Names *)

Lemma dirent_inum i n : 0 ≤ i < 2 ^ 16 → de_inum (dirent i n) = i.
Proof.
  intros Hi. unfold de_inum, dirent, load. rewrite drop_0, take_app_le, take_ge by (by rewrite length_le_bytes).
  rewrite le_val_bytes; unfold u16; rewrite Z.mod_small by lia; [done|]. change (256 ^ Z.of_nat 2) with (2 ^ 16). lia.
Qed.

Lemma dirent_name i n : de_name (dirent i n) = n.
Proof. unfold de_name, dirent. by rewrite drop_app_length' by (by rewrite length_le_bytes). Qed.

(** The name the kernel finds a file under. *)
Definition kname (f : file) : list Z := take DIRSIZ (stored_name f.1).

Lemma name14_dname f : file_fits f → dname (name14 f) = kname f.
Proof.
  intros Hf. destruct (stored_name_bytes f Hf) as [Hn _]. destruct (name14_ok f Hf) as [Hl _]. unfold dname. rewrite take_ge by lia.
  unfold name14, kname. assert (Ht : Forall (λ c, c ≠ 0) (take DIRSIZ (stored_name f.1))) by (by apply Forall_take).
  destruct (DIRSIZ - length (stored_name f.1))%nat as [|z]; [cbn [replicate]; rewrite app_nil_r; by apply cstr_no_nul|]. by apply cstr_app.
Qed.

Lemma entries_join es z : Forall (λ e, length e = 16%nat) es →
  entries (mjoin es ++ replicate (16 * z) 0) = es ++ replicate z (replicate 16 0).
Proof.
  intros He. assert (Hl : length (mjoin es) = (16 * length es)%nat).
  { induction He as [|e es He _ IH]; [done|]. change (mjoin (e :: es)) with (e ++ mjoin es). rewrite length_app, IH, He. cbn. lia. }
  assert (Hd : (length (mjoin es ++ replicate (16 * z) 0%Z) / 16 = length es + z)%nat).
  { rewrite length_app, length_replicate, Hl, <- Nat.mul_add_distr_l, Nat.mul_comm. by apply Nat.div_mul. }
  unfold entries. rewrite Hd. clear Hd.
  apply list_eq. intros n. rewrite list_lookup_fmap. destruct (decide (n < length es + z)%nat) as [Hn|Hn].
  2: { rewrite !lookup_ge_None_2; [done|rewrite length_app, length_replicate; lia|rewrite length_seq; lia]. }
  rewrite lookup_seq_lt by done. cbn [fmap option_fmap option_map]. rewrite Nat.add_0_l. clear Hl.
  revert n Hn. induction He as [|e es He _ IH]; intros n Hn.
  - change (mjoin (@nil (list Z))) with (@nil Z). cbn [app length] in *. rewrite lookup_replicate_2 by lia. f_equal. rewrite drop_replicate, take_replicate. f_equal. lia.
  - change (mjoin (e :: es)) with (e ++ mjoin es). cbn [app]. destruct n as [|n].
    + change (Some (take 16 (drop (16 * 0) ((e ++ mjoin es) ++ replicate (16 * z) 0))) = Some e). rewrite Nat.mul_0_r, drop_0, <- app_assoc, take_app_le, take_ge by lia. done.
    + change ((e :: es ++ replicate z (replicate 16 0)) !! S n) with ((es ++ replicate z (replicate 16 0)) !! n). rewrite <- (IH n) by (cbn in Hn; lia). rewrite <- app_assoc, drop_app_ge by lia. do 3 f_equal. lia.
Qed.

Lemma dir_find_skip name es1 es2 : ∀ off,
  Forall (λ e, dname (de_name e) ≠ name) es1 → dir_find name (es1 ++ es2) off = dir_find name es2 (off + 16 * Z.of_nat (length es1)).
Proof.
  induction es1 as [|e es1 IH]; intros off He; cbn [app dir_find length]; [f_equal; lia|]. apply Forall_cons in He as [He Hes].
  rewrite decide_False by tauto. rewrite IH by done. unfold DIRENT. f_equal. lia.
Qed.

Lemma file_entries_split fs : ∀ i k f, fs !! k = Some f →
  file_entries i fs = file_entries i (take k fs) ++ dirent (i + Z.of_nat k) (name14 f) :: file_entries (i + Z.of_nat k + 1) (drop (S k) fs).
Proof.
  induction fs as [|g fs IH]; intros i k f Hk; [done|]. destruct k as [|k]; cbn in Hk.
  - injection Hk as ->. cbn. by rewrite Z.add_0_r, drop_0.
  - cbn [file_entries take app drop]. f_equal. rewrite (IH (i + 1) k f Hk). by replace (i + 1 + Z.of_nat k) with (i + Z.of_nat (S k)) by lia.
Qed.

Lemma length_file_entries i fs : length (file_entries i fs) = length fs.
Proof. revert i. induction fs as [|f fs IH]; intros i; cbn; [done|]. by rewrite IH. Qed.

Lemma file_entries_names (P : list Z → Prop) fs : ∀ i, Forall file_fits fs → Forall (λ f, P (kname f)) fs → Forall (λ e, P (dname (de_name e))) (file_entries i fs).
Proof.
  induction fs as [|f fs IH]; intros i Hf HP; [constructor|]. apply Forall_cons in Hf as [Hf Hfs]. apply Forall_cons in HP as [HP HPs]. cbn [file_entries].
  constructor; [|by apply IH]. by rewrite dirent_name, name14_dname.
Qed.

(** The first file of its name is found. *)
Lemma find_file fs zs k f :
  Forall file_fits fs → (length fs ≤ 198)%nat → fs !! k = Some f →
  kname f ∉ [46] :: [46; 46] :: (kname <$> take k fs) →
  dir_find (kname f) (root_entries ++ file_entries 2 fs ++ zs) 0 = Some (2 + Z.of_nat k, 16 * (2 + Z.of_nat k)).
Proof.
  intros Hf Hlen Hk Hnew. apply not_elem_of_cons in Hnew as [Hn1 Hnew]. apply not_elem_of_cons in Hnew as [Hn2 Hnew].
  pose proof (lookup_lt_Some _ _ _ Hk) as Hlt.
  assert (Hff : file_fits f) by (by eapply Forall_lookup_1).
  rewrite dir_find_skip.
  2: { repeat (apply Forall_cons; split); [..|apply Forall_nil_2]; rewrite dirent_name; unfold not; intros E; [by apply Hn1; rewrite <- E|by apply Hn2; rewrite <- E]. }
  rewrite (file_entries_split fs 2 k f Hk), <- app_assoc, dir_find_skip.
  2: { apply (file_entries_names (λ n, n ≠ kname f)); [by apply Forall_take|]. apply Forall_forall. intros g Hg E. apply Hnew. rewrite <- E. by apply list_elem_of_fmap_2. }
  cbn [app dir_find]. rewrite dirent_inum, dirent_name, name14_dname, decide_True by (done || lia || (split; [lia|done])).
  rewrite length_file_entries, length_take. f_equal. f_equal. cbn [root_entries length]. lia.
Qed.

(** ** Everything together *)

(** The files fit: there are inodes and blocks for them, and the root directory does not end at the end of a block. *)
Record fits (fs : list file) : Prop := {
  ft_files : Forall file_fits fs;
  ft_inodes : (length fs ≤ 198)%nat;
  ft_blocks : dstart sb + nb (cnt (16 * (2 + Z.of_nat (length fs)))) + spaces (sizes_of fs) ≤ FSSIZE;
  ft_partial : (2 + Z.of_nat (length fs)) mod 32 ≠ 0
}.

(** Up to the two entries of the root directory. *)
Lemma mkfs_prepares :
  ∃ s W A, stored s W A (mjoin root_entries) [] ∧ ∀ fs, mkfs_main fs mk_start =
    (add_files ROOTINO fs ;; fix_root ROOTINO ;; fb ← gets freeblock; mk_balloc fb) s.
Proof.
  destruct (clear_sects_ok (Z.to_nat FSSIZE) 0 (Mk (λ _, zeroes) 0 1 nmeta)) as (s1 & E1 & Hz1 & Hn1 & Hi1 & Hb1); [done..|].
  set (s2 := Mk (upd (img s1) 1 super_block) (Z.max (nsect s1) 2) (freeinode s1) (freeblock s1)).
  assert (I2 : image s2 (upd (img s2) BMAP (first_bits (Z.to_nat nmeta))) (dinode_at sb (upd (img s2) BMAP (first_bits (Z.to_nat nmeta))))).
  { apply blank_image; [by cbn; rewrite Hn1|intros k; cbn; unfold upd; case_b; [done|apply Hz1]|done|done]. }
  destruct (mk_ialloc_ok s2 _ _ T_DIR I2) as (s3 & W3 & E3 & I3 & _ & Hb3 & Hi3); [cbn; rewrite Hi1; done|by left|].
  assert (Ef : freeinode s2 = ROOTINO) by (cbn; by rewrite Hi1). rewrite Ef in *.
  pose proof (stored_root _ _ _ _ _ I2 Ef ltac:(cbn; rewrite Hb1; done) I3 Hb3 ltac:(rewrite Hi3, Ef; done)) as S3.
  destruct (dot_ok 1 ltac:(unfold DIRSIZ; lia)) as [L1 B1]. destruct (dirent_ok ROOTINO _ L1 B1) as [Le1 Be1].
  destruct (dot_ok 2 ltac:(unfold DIRSIZ; lia)) as [L2 B2]. destruct (dirent_ok ROOTINO _ L2 B2) as [Le2 Be2].
  destruct (root_step _ _ _ _ _ S3 Be1 Le1 ltac:(cbn; lia)) as (s4 & W4 & A4 & E4 & S4).
  destruct (root_step _ _ _ _ _ S4 Be2 Le2 ltac:(cbn [app]; rewrite Le1; lia)) as (s5 & W5 & A5 & E5 & S5).
  exists s5, W5, A5. split; [exact S5|]. intros fs. unfold mkfs_main. rewrite bind_modify. change (img mk_start) with (λ _ : Z, zeroes).
  rewrite (bind_ok _ _ _ _ _ E1). unfold wsect. rewrite bind_modify. fold s2. rewrite (bind_ok _ _ _ _ _ E3). cbn [Z.eqb negb ROOTINO Pos.eqb].
  by rewrite (bind_ok _ _ _ _ _ E4), (bind_ok _ _ _ _ _ E5).
Qed.

Lemma mk_balloc_ok s W A m : built s W A m →
  ∃ s', mk_balloc (freeblock s) s = Ok tt s' ∧ nsect s' = FSSIZE ∧ (∀ n, img s' n = W n) ∧ ∀ n, n ≠ BMAP → img s' n = img s n.
Proof.
  intros B. destruct (built_facts _ _ _ _ B) as [Hf _]. pose proof (bt_sect _ _ _ _ B) as Hs. destruct (bt_ahead _ _ _ _ B) as [Ha Hb]. consts.
  unfold mk_balloc. sizes. rewrite (proj2 (Z.leb_gt (512 * 8) _)) by lia. eexists. split; [reflexivity|]. cbn [nsect img]. fold BMAP. split_and!.
  - rewrite Hs. lia.
  - intros n. unfold upd. case_b; [by subst|]. by rewrite Ha.
  - intros n Hn. by apply upd_ne.
Qed.

(** The entries of the root directory. *)
Lemma root_listing fs :
  Forall file_fits fs →
  let dir := mjoin root_entries ++ mjoin (file_entries 2 fs) in
  let n := Z.of_nat (length dir) in
  ∃ z, entries (dir ++ replicate (Z.to_nat (512 * cnt n - n)) 0) = root_entries ++ file_entries 2 fs ++ replicate z (replicate 16 0).
Proof.
  intros Hf dir n. assert (Hdl : n = 16 * (2 + Z.of_nat (length fs))).
  { unfold n, dir. rewrite length_app, file_entries_length by done. change (length (mjoin root_entries)) with 32%nat. lia. }
  exists (Z.to_nat (32 * cnt n - (2 + Z.of_nat (length fs)))).
  replace (Z.to_nat (512 * cnt n - n)) with (16 * Z.to_nat (32 * cnt n - (2 + Z.of_nat (length fs))))%nat by (rewrite Hdl; unfold cnt; dlia).
  unfold dir. rewrite <- join_app, entries_join, <- app_assoc; [done|]. apply Forall_app. split; [by repeat constructor|].
  clear -Hf. generalize 2. induction Hf as [|f fs Hf _ IH]; intros i; cbn; constructor; [|apply IH].
  destruct (name14_ok f Hf) as [Hl Hb]. by destruct (dirent_ok i _ Hl Hb).
Qed.

(** C3: what mkfs writes, the kernel reads.  For files that fit, mkfs ends normally, with an image of 1000 blocks that has the
    superblock of the layout and an empty log, and that is a consistent file system: inode table and bitmap agree, no block
    has two uses.  The root directory holds [.], [..], and every file under its name, cut to 14 bytes and without the leading
    underscore: the kernel's directory lookup finds the inode of the first file of each name, and that inode has exactly the bytes
    read from the host file, through direct and indirect blocks. *)
Theorem mkfs_makes fs :
  fits fs →
  ∃ s A, mkfs_main fs mk_start = Ok tt s ∧
    nsect s = FSSIZE ∧ parse_sb (img s 1) = sb ∧ (∀ n, 2 ≤ n < sb_inodestart sb → img s n = zeroes) ∧
    (∀ n, whole (img s n)) ∧ fs_ok sb (img s) A ∧ synced sb (img s) A ∧
    live sb A ROOTINO ∧ di_type (A ROOTINO) = T_DIR ∧
    lookup_name (img s) (A ROOTINO) [46] = Some (ROOTINO, 0) ∧ lookup_name (img s) (A ROOTINO) [46; 46] = Some (ROOTINO, 16) ∧
    ∀ k (f : file), fs !! k = Some f →
      let i := 2 + Z.of_nat k in
      live sb A i ∧ di_type (A i) = T_FILE ∧ di_nlink (A i) = 1 ∧ contents (img s) (A i) = read_all f.2 ∧
      (kname f ∉ [46] :: [46; 46] :: (kname <$> take k fs) → lookup_name (img s) (A ROOTINO) (kname f) = Some (i, 16 * i)).
Proof.
  intros [Hf Hn Hb Hp]. destruct mkfs_prepares as (s0 & W0 & A0 & S0 & E0). rewrite E0.
  assert (Ld : length (mjoin root_entries) = 32%nat) by done.
  destruct (add_files_ok fs s0 W0 A0 _ [] S0 Hf) as (s1 & W1 & A1 & E1 & S1).
  { cbn [length]. change NINODES with 200. lia. }
  { rewrite Ld. sizes. lia. }
  { rewrite Ld. replace (Z.of_nat 32 + 16 * Z.of_nat (length fs)) with (16 * (2 + Z.of_nat (length fs))) by lia. change (spaces []) with 0. lia. }
  cbn [length app Z.of_nat] in S1. rewrite Z.add_0_r in S1. rewrite (bind_ok _ _ _ _ _ E1).
  set (dir := mjoin root_entries ++ mjoin (file_entries 2 fs)) in *.
  assert (Hdl : Z.of_nat (length dir) = 16 * (2 + Z.of_nat (length fs))) by (unfold dir; rewrite length_app, Ld, file_entries_length by done; lia).
  destruct (fix_root_ok s1 W1 A1 dir _ S1) as (s2 & W2 & A2 & E2 & B2 & Sy2 & O2 & T2 & N2 & C2 & F2 & Fb2 & L2); [rewrite Hdl; dlia|rewrite Hdl; sizes; lia|].
  rewrite (bind_ok _ _ _ _ _ E2), bind_gets. destruct (mk_balloc_ok _ _ _ _ B2) as (s3 & E3 & Hn3 & HW & Hi3).
  exists s3, A2. split; [exact E3|]. consts. pose proof (bt_ok _ _ _ _ B2) as Hok2.
  assert (Hag : ∀ n, sb_inodestart sb ≤ n < sb_size sb → img s3 n = W2 n) by (intros n _; apply HW).
  pose proof S1 as [I1 (Hr1 & _) _ Hf1 _ _].
  assert (Hlive : ∀ j, live sb A1 j → live sb A2 j).
  { intros j [Hj Ht]. split; [done|]. destruct (decide (j = ROOTINO)) as [->|Hne]; [by rewrite T2|by rewrite O2]. }
  assert (Hcr : contents (img s3) (A2 ROOTINO) = contents W2 (A2 ROOTINO)) by (by apply (agree_contents _ _ _ _ _ mk_geo Hag _ Hok2), Hlive).
  destruct (root_listing fs Hf) as [z Hz]. fold dir in Hz. cbv zeta in Hz. rewrite <- C2, <- Hcr in Hz.
  split; [done|]. split; [rewrite Hi3, L2 by lia; vm_compute; reflexivity|]. split; [intros n Hr; rewrite Hi3, L2 by lia; by rewrite (proj2 (Z.eqb_neq n 1)) by lia|].
  split; [intros n; rewrite HW; apply (bt_whole _ _ _ _ B2)|]. split; [by apply (agree_ok _ _ _ _ _ mk_geo Hag)|]. split; [by apply (agree_synced _ _ _ _ _ mk_geo Hag)|].
  split; [by apply Hlive|]. split; [done|]. unfold lookup_name. rewrite Hz. split; [done|]. split; [done|]. intros k f Hk. set (i := 2 + Z.of_nat k).
  assert (Hk1 : sizes_of fs !! k = Some (read_all f.2)) by (unfold sizes_of; rewrite list_lookup_fmap; unfold file in *; by rewrite Hk).
  destruct (Hf1 _ _ Hk1) as (Ht & Hl & Hc). fold i in Ht, Hl, Hc. pose proof (stored_live _ _ _ _ _ k S1 (lookup_lt_Some _ _ _ Hk1)) as Hlk. fold i in Hlk.
  assert (Hne : i ≠ ROOTINO) by (unfold i, ROOTINO; lia). rewrite (O2 i Hne). split_and!; try done.
  - by apply Hlive.
  - apply Hlive in Hlk as Hlk2. rewrite <- (O2 i Hne). rewrite (agree_contents _ _ _ _ _ mk_geo Hag _ Hok2 Hlk2), (O2 i Hne). by rewrite F2.
  - intros Hnew. by apply find_file.
Qed.

Module MkfsExample.
(** A program of 13 full blocks, so with an indirect block, and a small text. *)
Definition files : list file := [([95; 99; 97; 116], replicate 13 (replicate 512 7)); ([82; 69; 65; 68; 77; 69], [[120; 118]; [54; 10]])].

Lemma files_fit : fits files.
Proof.
  assert (L1 : Z.of_nat (length (read_all (replicate 13 (replicate 512 7)))) = 6656) by (vm_compute; reflexivity).
  constructor.
  - apply Forall_cons. split; [|apply Forall_singleton].
    + constructor; cbn [fst snd files]; [repeat (apply Forall_cons; split; [lia|]); apply Forall_nil_2|apply Forall_replicate, Forall_replicate; unfold is_byte; lia|].
      rewrite L1. sizes. lia.
    + constructor; cbn [fst snd files]; [repeat (apply Forall_cons; split; [lia|]); apply Forall_nil_2| |sizes; cbn; lia].
      unfold is_byte. repeat (apply Forall_cons; split); try lia; apply Forall_nil_2.
  - cbn [length files]. lia.
  - unfold sizes_of. cbn [fmap list_fmap files length fst snd spaces foldr]. unfold space. rewrite L1. vm_compute. discriminate.
  - vm_compute. discriminate.
Qed.

Lemma mkfs_makes_witness : ∃ s A, mkfs_main files mk_start = Ok tt s ∧ fs_ok sb (img s) A ∧ synced sb (img s) A ∧
  lookup_name (img s) (A ROOTINO) [99; 97; 116] = Some (2, 32) ∧ contents (img s) (A 2) = read_all (replicate 13 (replicate 512 7)) ∧
  contents (img s) (A 3) = [120; 118; 54; 10].
Proof.
  destruct (mkfs_makes files files_fit) as (s & A & E & _ & _ & _ & _ & Hok & Hsy & _ & _ & _ & _ & Hfiles).
  exists s, A. destruct (Hfiles 0%nat _ eq_refl) as (_ & _ & _ & C0 & L0). destruct (Hfiles 1%nat _ eq_refl) as (_ & _ & _ & C1 & _).
  split; [exact E|]. split; [exact Hok|]. split; [exact Hsy|]. split; [|split; [exact C0|exact C1]].
  apply L0. cbn [take fmap list_fmap]. rewrite !not_elem_of_cons. split_and!; [discriminate|discriminate|apply not_elem_of_nil].
Defined.
End MkfsExample.

(** With a root directory of whole blocks, 32 entries say, the padding adds a block that nothing allocated: the size of the root
    directory covers an address that is zero. *)
Lemma fix_root_overruns s W A dir cs :
  stored s W A dir cs → length dir = 512%nat →
  ∃ s' d, fix_root ROOTINO s = Ok tt s' ∧ dinode_at sb (img s') ROOTINO = d ∧ di_size d = 1024 ∧ nth_addr (img s') d 1 = 0.
Proof.
  intros S Hd. pose proof S as [I (Hr & _) Ed _ _ _]. pose proof (contents_length _ _ _ _ I Hr) as Hs. rewrite Ed, Hd in Hs.
  pose proof (im_built _ _ _ I) as B. unfold fix_root. rewrite (bind_ok _ _ _ _ _ (rinode_ok _ _ _ _ I (proj1 Hr))), <- Hs.
  rewrite (winode_ok s ROOTINO _ (bt_sect _ _ _ _ B) (proj1 Hr)). set (d := with_size _ (A ROOTINO)).
  exists (wrote_inode s ROOTINO d), d. split; [done|]. assert (Hfit : dinode_fits d).
  { destruct (fo_fits _ _ _ (ok_file _ _ _ (bt_ok _ _ _ _ B) ROOTINO Hr)). by constructor. }
  split_and!.
  - pose proof (iblock_range ROOTINO (proj1 Hr)). consts. cbn [wrote_inode img].
    pose proof (dinode_at_put sb W ROOTINO d (bt_whole _ _ _ _ B) (proj1 Hr) Hfit ROOTINO ltac:(done)) as E. rewrite Z.eqb_refl in E. etransitivity; [|exact E].
    unfold dinode_at, put_inode. rewrite !upd_eq. by rewrite (ah_same _ _ _ (bt_ahead _ _ _ _ B)) by lia.
  - done.
  - destruct (bt_tight _ _ _ _ B ROOTINO Hr) as [Ht _]. cbn beta in Ht. rewrite <- Hs in Ht. specialize (Ht 1 ltac:(sizes; lia)).
    destruct (Z.eq_dec (nth_addr W (A ROOTINO) 1) 0) as [E|E]; [exact E|]. apply Ht in E. vm_compute in E. discriminate.
Qed.
