(* ===== verification/FsPath.v ===== *)
(** * Paths

    A path is the list of its elements ([path_elems]); [walk] follows it through the directories of
    a disk.  [namei] and [nameiparent] of [src/fs.c] compute it, and leave the inode cache with
    the references it had and the one they return. *)
From S2P Require Import Prelude CString Bytes Bio Log Disk Fs FsAlloc FsModel FsFile FsInode FsDir.

(** ** The elements of a path *)

Fixpoint split_on (c : Z) (s : list Z) : list (list Z) :=
  match s with
  | [] => [[]]
  | b :: s =>
      if b =? c then [] :: split_on c s
      else match split_on c s with [] => [[b]] | w :: ws => (b :: w) :: ws end
  end.

(** The names between the slashes, cut to the size of a directory entry. *)
Definition path_elems (path : list Z) : list (list Z) :=
  take DIRSIZ <$> filter (λ w, w ≠ []) (split_on SLASH (cstr path)).

Lemma elems_slash p : path_elems (SLASH :: p) = path_elems p.
Proof. unfold path_elems. cbn [cstr]. change (SLASH =? 0) with false. cbn [split_on]. by rewrite Z.eqb_refl. Qed.

Lemma elems_skip p : path_elems (skip_slashes p) = path_elems p.
Proof.
  induction p as [|c p IH]; [done|]. cbn [skip_slashes]. destruct (c =? SLASH) eqn:E; [|done]. zbool. subst.
  by rewrite elems_slash.
Qed.

Lemma skip_slashes_head p : hd 0 (skip_slashes p) ≠ SLASH.
Proof. induction p as [|c p IH]; [done|]. cbn. destruct (c =? SLASH) eqn:E; [done|]. by zbool. Qed.

Lemma skip_slashes_length p : (length (skip_slashes p) ≤ length p)%nat.
Proof. induction p as [|c p IH]; [done|]. cbn. case_b; cbn; lia. Qed.

Definition plain (s : list Z) : Prop := Forall (λ b, b ≠ 0 ∧ b ≠ SLASH) s.

Lemma split_elem_spec p s r :
  split_elem p = (s, r) → p = s ++ r ∧ plain s ∧ (hd 0 r = 0 ∨ hd 0 r = SLASH).
Proof.
  revert s. induction p as [|c p IH]; intros s; cbn [split_elem].
  { intros [= <- <-]. split_and!; [done|constructor|by left]. }
  destruct (negb (c =? SLASH) && negb (c =? 0)) eqn:E.
  - destruct (split_elem p) as [s' r'] eqn:Es. intros [= <- <-]. destruct (IH s' eq_refl) as (-> & Hs & Hr). zbool.
    split_and!; [done|by constructor|done].
  - intros [= <- <-]. split_and!; [done|constructor|]. cbn. apply andb_false_iff in E as [E|E]; zbool; auto.
Qed.

Lemma split_on_plain s : plain s → split_on SLASH s = [s].
Proof.
  induction 1 as [|b s [Hb Hs] _ IH]; [done|]. cbn [split_on]. apply Z.eqb_neq in Hs. by rewrite Hs, IH.
Qed.

Lemma split_on_app s r : plain s → split_on SLASH (s ++ SLASH :: r) = s :: split_on SLASH r.
Proof.
  induction 1 as [|b s [Hb Hs] _ IH]; cbn [split_on app]; [by rewrite Z.eqb_refl|].
  apply Z.eqb_neq in Hs. by rewrite Hs, IH.
Qed.

Lemma cstr_plain s r : plain s → cstr (s ++ r) = s ++ cstr r.
Proof. induction 1 as [|b s [Hb Hs] _ IH]; [done|]. cbn. apply Z.eqb_neq in Hb. by rewrite Hb, IH. Qed.

Lemma elems_app s r : plain s → s ≠ [] → hd 0 r = 0 ∨ hd 0 r = SLASH → path_elems (s ++ r) = take DIRSIZ s :: path_elems r.
Proof.
  intros Hs Hne Hr. unfold path_elems. rewrite cstr_plain by done. destruct r as [|c r]; cbn in Hr.
  { rewrite app_nil_r, split_on_plain by done. rewrite filter_cons_True by done. done. }
  destruct Hr as [-> | ->]; cbn [cstr].
  - rewrite Z.eqb_refl, app_nil_r, split_on_plain by done. rewrite filter_cons_True by done. done.
  - change (SLASH =? 0) with false. cbn iota. rewrite split_on_app by done. rewrite filter_cons_True by done.
    cbn [split_on]. rewrite Z.eqb_refl. rewrite (filter_cons_False _ []) by naive_solver. done.
Qed.

Lemma elems_end p : hd 0 p = 0 → path_elems p = [].
Proof. destruct p as [|c p]; [done|]. cbn. intros ->. done. Qed.

Lemma elems_start p : hd 0 p ≠ 0 → hd 0 p ≠ SLASH → path_elems p ≠ [].
Proof.
  intros H0 Hs. destruct (split_elem p) as [s r] eqn:E. apply split_elem_spec in E as (-> & Hp & Hr).
  destruct s as [|c s]; [by destruct Hr|]. by rewrite elems_app.
Qed.

(** The element that [skipelem] leaves in the buffer. *)
Definition elem_buf (s name : list Z) : list Z :=
  if (DIRSIZ <=? length s)%nat then take DIRSIZ s else s ++ 0 :: drop (S (length s)) name.

Lemma elem_buf_name s name :
  plain s → Forall (λ c, 0 ≤ c < 256) s → Forall (λ c, 0 ≤ c < 256) name → length name = DIRSIZ →
  dname (elem_buf s name) = take DIRSIZ s ∧ length (elem_buf s name) = DIRSIZ ∧
  Forall (λ c, 0 ≤ c < 256) (elem_buf s name).
Proof.
  intros Hs Bs Bn Hn. unfold elem_buf, dname. destruct (DIRSIZ <=? length s)%nat eqn:E.
  - apply Nat.leb_le in E. split_and!; [|by rewrite length_take_le|by apply Forall_take].
    rewrite take_take, Nat.min_id. apply cstr_no_nul, Forall_take. eapply Forall_impl; [exact Hs|]. naive_solver.
  - apply Nat.leb_gt in E. split_and!.
    + rewrite take_app_ge by lia. rewrite (take_ge s) by lia. rewrite cstr_plain by done.
      destruct (DIRSIZ - length s)%nat eqn:E'; [lia|]. cbn. by rewrite app_nil_r.
    + rewrite length_app. cbn. rewrite length_drop, Hn. lia.
    + apply Forall_app. split; [done|]. constructor; [lia|]. by apply Forall_drop.
Qed.

Definition pathbytes (p : list Z) : Prop := Forall (λ c, 0 ≤ c < 256) p.

Lemma skip_slashes_bytes p : pathbytes p → pathbytes (skip_slashes p).
Proof. induction 1; cbn; [constructor|]. case_b; [done|]. by constructor. Qed.

(** [skipelem] takes the first element. *)
Lemma skipelem_spec path name :
  pathbytes path → pathbytes name → length name = DIRSIZ →
  match skipelem path name with
  | None => path_elems path = []
  | Some (path', name') =>
      path_elems path = dname name' :: path_elems path' ∧ length name' = DIRSIZ ∧ pathbytes name' ∧ pathbytes path' ∧
      (length path' < length path)%nat ∧ (peek path' = 0 ↔ path_elems path' = [])
  end.
Proof.
  intros Bp Bn Hn. unfold skipelem. pose proof (skip_slashes_head path) as Hh. pose proof (skip_slashes_length path) as Hlen.
  pose proof (skip_slashes_bytes _ Bp) as Bq. rewrite <- (elems_skip path). set (q := skip_slashes path) in *. unfold peek.
  destruct (hd 0 q =? 0) eqn:E0; zbool; [by apply elems_end|].
  destruct (split_elem q) as [s r] eqn:Es. apply split_elem_spec in Es as (Eq & Hs & Hr).
  assert (Hne : s ≠ []) by (intros ->; cbn in Eq; subst r; by destruct Hr).
  rewrite Eq in Bq. apply Forall_app in Bq as [Bs Br].
  destruct (elem_buf_name s name Hs Bs Bn Hn) as (H1 & H2 & H3). fold (elem_buf s name).
  split_and!; [|done|done|by apply skip_slashes_bytes| |].
  - rewrite Eq, elems_app by done. by rewrite H1, elems_skip.
  - pose proof (skip_slashes_length r). rewrite Eq in Hlen. rewrite length_app in Hlen.
    destruct s; [done|cbn in Hlen; lia].
  - pose proof (skip_slashes_head r). split; [by apply elems_end|]. intros E.
    destruct (decide (hd 0 (skip_slashes r) = 0)); [done|]. by apply elems_start in E.
Qed.

(** ** Following a path *)

Fixpoint walk (parent : bool) (V : Z → block) (A : Z → dinode) (i : Z) (es : list (list Z)) : option Z :=
  match es with
  | [] => if parent then None else Some i
  | e :: es' =>
      if negb (di_type (A i) =? T_DIR) then None
      else if parent && bool_decide (es' = []) then Some i
      else match lookup_name V (A i) e with
           | Some (j, _) => walk parent V A j es'
           | None => None
           end
  end.

(** A file system at rest: on disk as in memory, with well-formed directories, and inodes without a
    name only where there is a reference to them. *)
Record fs_at_rest (sb : superblock) (V : Z → block) (A : Z → dinode) (rc : Z → Z) : Prop := {
  rest_ok : fs_ok sb V A;
  rest_synced : synced sb V A;
  rest_dirs i : live sb A i → di_type (A i) = T_DIR → dir_ok sb V A (A i);
  rest_named i : live sb A i → di_nlink (A i) = 0 → 0 < rc i
}.

Section path.
Context {D X : Type} {ops : Disk D} {laws : DiskOk D} {swtch : Devices X}.
Context (sb : superblock) (p : Z) (x : X) (Hgeo : fs_geo usable sb).
Local Abbreviation state := (st (D := D) sb p x).
Local Abbreviation icache := (icache sb p).

(** The end of a walk: a reference to the inode, or the counts of the start. *)
Definition walked (r : option Z) (es : list (list Z)) (V : Z → block) (L : gset Z) (A : Z → dinode) (rc : Z → Z)
    (parent : bool) (o : outcome (fs D X) (option nat * list Z)) : Prop :=
  ∃ d' l' name',
    repr d' V [] L ∧
    match r with
    | None => o = Ok (None, name') (state d' l') ∧ icache A rc None l'
    | Some t => ∃ j jp, o = Ok (Some j, name') (state d' l') ∧ icache A (count rc t 1) None l' ∧
        l' !! j = Some jp ∧ i_inum jp = t ∧ 0 < i_ref jp ∧
        (parent = true → last es = Some (dname name') ∧ length name' = DIRSIZ ∧ pathbytes name')
    end.

Section walk.
Context (V : Z → block) (L : gset Z) (A : Z → dinode) (rc : Z → Z) (used : list Z).
Context (Rest : fs_at_rest sb V A rc) (Hused : ∀ i, 0 < rc i → i ∈ used) (Hroom : (length used + 2 ≤ NINODE)%nat).
Context (Hrc : ∀ i, 0 ≤ rc i) (parent : bool).

(** The inode in hand is not the last reference to an inode without a name. *)
Lemma hold_named l i locked k ip :
  icache A (count rc i 1) locked l → l !! k = Some ip → i_inum ip = i → 0 < i_ref ip →
  di_nlink (A (i_inum ip)) = 0 → i_ref ip ≠ 1.
Proof.
  intros IC Hk <- Hr Hn. rewrite <- (ic_ref _ _ _ _ _ _ IC _ _ Hk Hr). rewrite count_at, Z.eqb_refl.
  pose proof (rest_named _ _ _ _ Rest (i_inum ip) (proj2 (ic_live _ _ _ _ _ _ IC _ _ Hk Hr)) Hn). lia.
Qed.

Lemma free_entry l i locked :
  icache A (count rc i 1) locked l → ∃ k ip, l !! k = Some ip ∧ i_ref ip = 0.
Proof.
  intros IC. apply (icache_room _ _ _ _ _ _ (i :: used) IC); [|cbn; lia].
  intros j. unfold count, upd. case_b; [subst; by left|]. right. auto.
Qed.

Lemma count_back i n j : count (count rc i n) i (- n) j = rc j.
Proof. rewrite !count_at. repeat case_b; lia. Qed.

(** The inode in hand, at entry [k] of the cache. *)
Record in_hand (d : D) (l : list inode) (i : Z) (k : nat) (ip : inode) : Prop := {
  ih_repr : repr d V [] L;
  ih_cache : icache A (count rc i 1) None l;
  ih_at : l !! k = Some ip;
  ih_inum : i_inum ip = i;
  ih_ref : 0 < i_ref ip
}.

(** Dropping it. *)
Lemma drop_hand d l i k ip :
  repr d V [] L → icache A (count rc i 1) (Some k) l → l !! k = Some ip → i_inum ip = i → 0 < i_ref ip →
  ∃ l', iunlockput k (state d l) = Ok tt (state d l') ∧ icache A rc None l'.
Proof.
  intros R IC Hk Hi Hr. destruct (iunlockput_ok sb p x A (count rc i 1) l d k ip Hk Hr IC) as [E IC'].
  { by eapply hold_named. }
  eexists. split; [exact E|]. eapply icache_ext; [|exact IC']. intros j. by rewrite Hi, count_back.
Qed.

(** Moving on: the inode found is in hand, the directory is not. *)
Lemma pass_hand d l i k j jp t ip l2 :
  repr d V [] L → icache A (count rc i 1) (Some k) l → l !! k = Some ip → i_inum ip = i → 0 < i_ref ip →
  icache A (count (count rc i 1) t 1) (Some k) l2 → stay l l2 → l2 !! j = Some jp → i_inum jp = t → 0 < i_ref jp →
  ∃ l' jp', iunlockput k (state d l2) = Ok tt (state d l') ∧ in_hand d l' t j jp'.
Proof.
  intros R IC Hk Hi Hr IC2 Hst Hj Ht Hjr. destruct (Hst _ _ Hk Hr) as (r & Hle & Hk2). set (ip2 := with_ref r ip) in *.
  assert (Hr2 : 0 < i_ref ip2) by (cbn; lia).
  assert (Er : i_ref ip2 = count (count rc i 1) t 1 i).
  { pose proof (ic_ref _ _ _ _ _ _ IC2 _ _ Hk2 Hr2) as E. change (i_inum ip2) with (i_inum ip) in E. by rewrite Hi in E. }
  destruct (iunlockput_ok sb p x A _ l2 d k ip2 Hk2 Hr2 IC2) as [E IC3].
  { cbn [i_inum ip2 with_ref]. rewrite Hi. intros Hn.
    pose proof (rest_named _ _ _ _ Rest i ltac:(rewrite <- Hi; apply (ic_live _ _ _ _ _ _ IC _ _ Hk Hr)) Hn).
    rewrite Er. rewrite !count_at. repeat case_b; lia. }
  cbn [i_inum ip2 with_ref] in IC3. rewrite Hi in IC3.
  set (l3 := <[k := _]> l2) in *.
  assert (Hj3 : ∃ jp', l3 !! j = Some jp' ∧ i_inum jp' = t ∧ 0 < i_ref jp').
  { destruct (decide (j = k)) as [->|Hne].
    - eexists. split; [by eapply put_same|]. rewrite Hk2 in Hj. injection Hj as <-. split; [done|].
      cbn [i_ref with_ref] in *. cbn in Ht. rewrite Er. rewrite !count_at. pose proof (Hrc i).
      assert (t = i) as -> by congruence. repeat case_b; lia.
    - exists jp. unfold l3. by rewrite list_lookup_insert_ne. }
  destruct Hj3 as (jp' & Hj3 & Ht3 & Hr3). exists l3, jp'. split; [exact E|]. split; try done.
  eapply icache_ext; [|exact IC3]. intros m. rewrite !count_at. repeat case_b; lia.
Qed.

Lemma lock_hand d l i k ip :
  in_hand d l i k ip →
  ∃ d' ip', let l' := <[k := ip']> l in
    ilock (Some k) (state d l) = Ok tt (state d' l') ∧ opened sb d' V L A l' k ip' ∧ icache A (count rc i 1) (Some k) l' ∧
    l' !! k = Some ip' ∧ i_inum ip' = i ∧ 0 < i_ref ip'.
Proof.
  intros [R IC Hk Hi Hr]. destruct (ilock_ok sb p x Hgeo A (count rc i 1) l d k ip Hk Hr V L IC R (rest_synced _ _ _ _ Rest))
    as (d' & E & R').
  destruct (ic_live _ _ _ _ _ _ IC _ _ Hk Hr) as [Hdev Hlive].
  assert (Hk' : <[k := loaded p A ip]> l !! k = Some (loaded p A ip)) by by eapply put_same.
  exists d', (loaded p A ip). cbv zeta. split_and!; try done; [|by apply icache_loaded].
  split; try done. apply (rest_ok _ _ _ _ Rest).
Qed.

(** The path is at its end. *)
Lemma namex_end fuel d l i k ip path name :
  in_hand d l i k ip → skipelem path name = None → path_elems path = [] →
  walked (walk parent V A i (path_elems path)) (path_elems path) V L A rc parent
    (namex_loop fuel k path parent name (state d l)).
Proof.
  intros [R IC Hk Hi Hr] Es Ee. rewrite Ee. cbn [walk]. destruct fuel; cbn [namex_loop]; rewrite Es.
  all: destruct parent; [|exists d, l, name; split; [done|]; exists k, ip; done].
  all: destruct (iput_ok sb p x A (count rc i 1) l d k ip Hk Hr None IC) as [E IC']; [done|by eapply hold_named|].
  all: rewrite (bind_ok _ _ _ _ _ E); eexists d, _, name; split; [done|]; split; [done|].
  all: eapply icache_ext; [|exact IC']; intros j; by rewrite Hi, count_back.
Qed.

(** One element in a directory that is locked. *)
Lemma namex_elem fuel d l i k ip path path' name' es :
  (∀ d l i k ip, in_hand d l i k ip →
    walked (walk parent V A i (path_elems path')) (path_elems path') V L A rc parent
      (namex_loop fuel k path' parent name' (state d l))) →
  opened sb d V L A l k ip → icache A (count rc i 1) (Some k) l → l !! k = Some ip → i_inum ip = i → 0 < i_ref ip →
  path_elems path = es → es = dname name' :: path_elems path' → length name' = DIRSIZ → pathbytes name' →
  (peek path' = 0 ↔ path_elems path' = []) →
  walked (walk parent V A i es) es V L A rc parent
    ((if negb (di_type (i_copy ip) =? T_DIR) then iunlockput k ;; mret (None, name')
      else if parent && (peek path' =? 0) then iunlock (Some k) ;; mret (Some k, name')
      else
        next ← dirlookup k name';
        match next with
        | None => iunlockput k ;; mret (None, name')
        | Some (j, _) => iunlockput k ;; namex_loop fuel j path' parent name'
        end) (state d l)).
Proof.
  intros IH O IC Hk Hi Hr _ -> Hn Bn Hpeek. pose proof O as [R _ _ _ Hc Hlive]. rewrite Hc, Hi. cbn [walk].
  destruct (di_type (A i) =? T_DIR) eqn:Et; cbn [negb]; zbool.
  2: { destruct (drop_hand d l i k ip R IC Hk Hi Hr) as (l' & E & IC'). rewrite (bind_ok _ _ _ _ _ E).
       exists d, l', name'. done. }
  replace (peek path' =? 0) with (bool_decide (path_elems path' = [])) by
    (apply eq_true_iff_eq; rewrite bool_decide_eq_true, Z.eqb_eq; by rewrite Hpeek).
  destruct (parent && bool_decide (path_elems path' = [])) eqn:Ep.
  { rewrite (bind_ok _ _ _ _ _ (iunlock_ok sb p x A _ l d k ip Hk Hr IC)).
    pose proof (icache_unlocked sb p A _ l k ip Hk Hr IC) as IC1. apply andb_prop in Ep as [_ Ep].
    apply bool_decide_eq_true in Ep. rewrite Ep.
    eexists d, _, name'. split; [done|]. exists k, (with_iowner None ip). split_and!; try done. by eapply put_same. }
  pose proof (dirlookup_ok sb p x Hgeo V L A (count rc i 1) l k ip) as Hlook. rewrite Hi in Hlook.
  specialize (Hlook Et (rest_dirs _ _ _ _ Rest i ltac:(by rewrite <- Hi) Et) IC
    (λ i' _, free_entry l i (Some k) IC) d name' O).
  destruct (lookup_name V (A i) (dname name')) as [[t off]|]; cbn [looked_up] in Hlook.
  - destruct Hlook as (d2 & j & jp & l2 & E & R2 & IC2 & Hst & Hj & Ht & Hjr); [by split; [left; lia|]|].
    rewrite (bind_ok _ _ _ _ _ E).
    destruct (pass_hand d2 l i k j jp t ip l2 R2 IC Hk Hi Hr IC2 Hst Hj Ht Hjr) as (l3 & jp' & E3 & Hh).
    rewrite (bind_ok _ _ _ _ _ E3). destruct (IH d2 l3 t j jp' Hh) as (d4 & l4 & name4 & R4 & H4).
    exists d4, l4, name4. split; [done|]. destruct (walk parent V A t (path_elems path')) as [t'|]; [|done].
    destruct H4 as (j' & jp4 & E4 & IC4 & Hj4 & Ht4 & Hr4 & Hlast). exists j', jp4. split_and!; try done.
    intros Hp. destruct (Hlast Hp) as (H1 & H2 & H3). split; [|done].
    rewrite last_cons. by rewrite H1.
  - destruct Hlook as (d2 & E & R2); [by split; [left; lia|]|]. rewrite (bind_ok _ _ _ _ _ E).
    destruct (drop_hand d2 l i k ip R2 IC Hk Hi Hr) as (l' & E' & IC'). rewrite (bind_ok _ _ _ _ _ E').
    exists d2, l', name'. done.
Qed.

Lemma namex_loop_ok fuel : ∀ d l i k ip path name,
  in_hand d l i k ip → pathbytes path → pathbytes name → length name = DIRSIZ → (length path ≤ fuel)%nat →
  walked (walk parent V A i (path_elems path)) (path_elems path) V L A rc parent
    (namex_loop fuel k path parent name (state d l)).
Proof.
  induction fuel as [|fuel IH]; intros d l i k ip path name Hh Bp Bn Hn Hf;
    pose proof (skipelem_spec path name Bp Bn Hn) as Hs;
    destruct (skipelem path name) as [[path' name']|] eqn:Es; try by eapply namex_end.
  { destruct Hs as (_ & _ & _ & _ & Hl & _). lia. }
  destruct Hs as (Ees & Hn' & Bn' & Bp' & Hl & Hpeek). cbn [namex_loop]. rewrite Es.
  destruct (lock_hand d l i k ip Hh) as (d1 & ip1 & E1 & O1 & IC1 & Hk1 & Hi1 & Hr1).
  rewrite (bind_ok _ _ _ _ _ E1), (bind_ok _ _ _ _ _ (inode_at_ok sb p x d1 _ k ip1 Hk1)).
  apply (namex_elem fuel d1 _ i k ip1 path path' name'); try done.
  intros. eapply IH; [done..|]. lia.
Qed.
End walk.

(** Where a path starts: the root, or the directory of the process. *)
Definition starts_at (cwd : inode) (path : list Z) : Z := if peek path =? SLASH then ROOTINO else i_inum cwd.

Lemma namex_ok V L A rc used parent d l cwd cp path name :
  fs_at_rest sb V A rc → (∀ i, 0 < rc i → i ∈ used) → (length used + 2 ≤ NINODE)%nat →
  repr d V [] L → icache A rc None l → live sb A ROOTINO → l !! cwd = Some cp → 0 < i_ref cp →
  pathbytes path → pathbytes name → length name = DIRSIZ →
  walked (walk parent V A (starts_at cp path) (path_elems path)) (path_elems path) V L A rc parent
    (namex cwd path parent name (state d l)).
Proof.
  intros Rest Hused Hroom R IC Hroot Hc Hcr Bp Bn Hn. unfold namex, starts_at.
  assert (Hrc : ∀ i, 0 ≤ rc i) by apply (ic_rc _ _ _ _ _ _ IC).
  destruct (peek path =? SLASH).
  - destruct (iget_ok sb p x A rc None l d ROOTINO IC Hroot) as (j & jp & l' & E & IC' & _ & Hj & Hi & Hr).
    { intros _. apply (icache_room _ _ _ _ _ _ used IC Hused). lia. }
    rewrite (bind_ok _ _ _ _ _ E). eapply namex_loop_ok; try done; by split.
  - destruct (idup_ok sb p x A rc l d cwd cp Hc Hcr None IC) as (l' & E & IC' & _ & Hj).
    rewrite (bind_ok _ _ _ _ _ E). eapply namex_loop_ok; try done. split; try done. cbn. lia.
Qed.
End path.

Section resolve.
Context {D X : Type} {ops : Disk D} {laws : DiskOk D} {swtch : Devices X}.
Context (sb : superblock) (p : Z) (x : X).
Local Abbreviation state := (st (D := D) sb p x).

(** C10: [namei] resolves paths: it returns a reference to the inode that the names of the path lead to,
    directory by directory from the root or the current directory, and nothing when a name is missing
    or a step is not through a directory; [nameiparent] returns the directory of the last name and that
    name. Both return on every path, however many slashes it has and however long its names are (cut to
    the 14 bytes of an entry), change nothing on disk, leave no inode locked, and leave every reference
    count as it was but for the one reference they return. *)
Theorem namei_resolves V L A rc used d l cwd cp path name :
  fs_geo usable sb → fs_at_rest sb V A rc → (∀ i, 0 < rc i → i ∈ used) → (length used + 2 ≤ NINODE)%nat →
  repr d V [] L → icache sb p A rc None l → live sb A ROOTINO → l !! cwd = Some cp → 0 < i_ref cp →
  pathbytes path → pathbytes name → length name = DIRSIZ →
  (∃ d' l', repr d' V [] L ∧
    match walk false V A (starts_at cp path) (path_elems path) with
    | Some t => ∃ j jp, namei cwd path name (state d l) = Ok (Some j) (state d' l') ∧
        l' !! j = Some jp ∧ i_inum jp = t ∧ 0 < i_ref jp ∧ icache sb p A (count rc t 1) None l'
    | None => namei cwd path name (state d l) = Ok None (state d' l') ∧ icache sb p A rc None l'
    end) ∧
  (∃ d' l' name', repr d' V [] L ∧
    match walk true V A (starts_at cp path) (path_elems path) with
    | Some t => ∃ j jp, nameiparent cwd path name (state d l) = Ok (Some j, name') (state d' l') ∧
        l' !! j = Some jp ∧ i_inum jp = t ∧ 0 < i_ref jp ∧ icache sb p A (count rc t 1) None l' ∧
        last (path_elems path) = Some (dname name')
    | None => nameiparent cwd path name (state d l) = Ok (None, name') (state d' l') ∧ icache sb p A rc None l'
    end).
Proof.
  intros Hgeo Rest Hused Hroom R IC Hroot Hc Hcr Bp Bn Hn. split.
  - destruct (namex_ok sb p x Hgeo V L A rc used false d l cwd cp path name) as (d' & l' & name' & R' & H); try done.
    exists d', l'. split; [done|]. unfold namei. destruct (walk false _ _ _ _) as [t|].
    + destruct H as (j & jp & E & IC' & Hj & Ht & Hr & _). exists j, jp. by rewrite (bind_ok _ _ _ _ _ E).
    + destruct H as [E IC']. by rewrite (bind_ok _ _ _ _ _ E).
  - destruct (namex_ok sb p x Hgeo V L A rc used true d l cwd cp path name) as (d' & l' & name' & R' & H); try done.
    exists d', l', name'. split; [done|]. destruct (walk true _ _ _ _) as [t|]; [|done].
    destruct H as (j & jp & E & IC' & Hj & Ht & Hr & Hlast). destruct (Hlast eq_refl) as (H1 & _). by exists j, jp.
Qed.
End resolve.

(** ** A directory with one file

    Inode 1 is the root directory, with the entry [a] for inode 2, an empty file. *)

Module PathExample.
#[local] Instance no_devices : Devices unit := {| dev_read _ := None; dev_write _ := None |}.

Definition pe_sb : superblock := Superblock 20 5 8 10 2 12 14.
Definition pe_root : dinode := Dinode T_DIR 0 0 1 16 (15 :: replicate 12 0).
Definition pe_file : dinode := Dinode T_FILE 0 0 1 88 (16 :: replicate 12 0).
Definition pe_entry : list Z := dirent 2 (97 :: replicate 13 0).
(** The bytes of the file [a]: an ELF header, a program header and four bytes of code. *)
Definition pe_bytes : list Z :=
  [127; 69; 76; 70] ++ replicate 20 0 ++ [0; 0; 0; 0] ++ [52; 0; 0; 0] ++ replicate 12 0 ++ [1; 0] ++ replicate 6 0 ++
  [1; 0; 0; 0] ++ [84; 0; 0; 0] ++ replicate 8 0 ++ [4; 0; 0; 0] ++ [100; 0; 0; 0] ++ replicate 8 0 ++ [144; 144; 235; 254].
Definition pe_disk : Z → block :=
  upd (upd (upd (upd (λ _, replicate 512 0) 12 (store_dinode (store_dinode (replicate 512 0) 1 pe_root) 2 pe_file))
    14 ([255; 255; 1] ++ replicate 509 0)) 15 (pe_entry ++ replicate 496 0)) 16 (pe_bytes ++ replicate 424 0).
Definition pe_log : log := Log (binit 20 pe_disk 1) false 2 10 1 0 ROOTDEV 0 (replicate 30 0) 0.
Definition pe_table : Z → dinode := dinode_at pe_sb pe_disk.
Definition pe_dir : inode := Inode ROOTDEV 1 1 None true pe_root.
Definition pe_free : inode := Inode 0 0 0 None false pe_file.
Definition pe_cache : list inode := pe_dir :: replicate 49 pe_free.
Definition pe_rc : Z → Z := upd (λ _, 0) 1 1.
#[local] Instance pe_laws : DiskOk log := log_disk_ok 2 10 20 1 0 pe_disk [].

Lemma pe_geo : fs_geo (usable (DiskOk := pe_laws)) pe_sb.
Proof. split; try (by vm_compute; first [done|split]). intros n Hn. cbn in *. unfold log_usable. lia. Qed.

Lemma pe_whole n : whole (pe_disk n).
Proof.
  unfold pe_disk, upd. repeat case_b; split; try done; try (by rewrite length_replicate);
    try (apply Forall_replicate; unfold is_byte; lia);
    try (apply Forall_app; split; [by repeat constructor; unfold is_byte; vm_compute|apply Forall_replicate; unfold is_byte; lia]).
  apply store_words_bytes. do 5 apply store_bytes. apply store_words_bytes. do 5 apply store_bytes.
  apply Forall_replicate. lia.
Qed.

Lemma pe_live i : live pe_sb pe_table i → i = 1 ∨ i = 2.
Proof.
  intros [Hi Ht]. cbn in Hi. assert (Hc : i ∈ seqZ 0 8) by (apply elem_of_seqZ; lia).
  change (seqZ 0 8) with [0; 1; 2; 3; 4; 5; 6; 7] in Hc.
  repeat (apply elem_of_cons in Hc as [->|Hc]; [first [by left|by right|by destruct Ht; vm_compute]|]).
  by apply not_elem_of_nil in Hc.
Qed.

Lemma pe_inodes : pe_table 1 = pe_root ∧ pe_table 2 = pe_file.
Proof. by vm_compute. Qed.

(** A file of one block. *)
Lemma pe_addr d b bn : di_addrs d = b :: replicate 12 0 → 0 ≤ bn → nth_addr pe_disk d bn = if bn =? 0 then b else 0.
Proof.
  intros Ed H0. unfold nth_addr, ind. rewrite Ed. destruct (bn =? 0) eqn:E; zbool; [by subst|]. case_b; [|done].
  destruct (Z.to_nat bn) eqn:En; [lia|]. apply nth_zeros.
Qed.

Lemma pe_owns d b b' : di_addrs d = b :: replicate 12 0 → 0 < b → owns pe_disk d b' ↔ b' = b.
Proof.
  intros Ed Hb. split.
  - intros [Hb' [->|(bn & [H0 _] & E)]]; [unfold ind in Hb'; by rewrite Ed in Hb'|]. rewrite (pe_addr d b) in E by done. by case_match.
  - intros ->. split; [lia|]. right. exists 0. split; [by vm_compute|]. by rewrite (pe_addr d b).
Qed.

Lemma pe_used b : 0 ≤ b < 20 → used pe_sb pe_disk b = (b <? 17).
Proof.
  intros Hb. assert (Hall : forallb (λ b, Bool.eqb (used pe_sb pe_disk b) (b <? 17)) (seqZ 0 20) = true) by (by vm_compute).
  rewrite forallb_forall in Hall. apply Bool.eqb_prop, Hall, list_elem_of_In, elem_of_seqZ. lia.
Qed.

Lemma pe_fits d : d = pe_root ∨ d = pe_file → dinode_fits d.
Proof. intros [-> | ->]; split; try (cbn; lia); try done; repeat constructor; lia. Qed.

Lemma pe_file_ok d b :
  d = pe_root ∨ d = pe_file → di_addrs d = b :: replicate 12 0 → 15 ≤ b < 20 → 0 ≤ di_size d ≤ 512 → file_ok pe_sb pe_disk d.
Proof.
  intros Hd Ed Hb Hs. split.
  - by apply pe_fits.
  - intros b' ->%(pe_owns d b); [|done|lia]. change (dstart pe_sb) with 15. change (sb_size pe_sb) with 20. lia.
  - intros bn bn' [? _] [? _]. rewrite !(pe_addr d b) by done. repeat case_b; lia.
  - intros bn _ Hi. destruct Hi. unfold ind. by rewrite Ed.
  - sizes. lia.
  - intros bn Hbn Hlt. sizes. rewrite (pe_addr d b) by (done || lia). case_b; lia.
Qed.

Lemma pe_live_1 : live pe_sb pe_table 1.
Proof. split; [cbn; lia|]. by rewrite (proj1 pe_inodes). Qed.

Lemma pe_live_2 : live pe_sb pe_table 2.
Proof. split; [cbn; lia|]. by rewrite (proj2 pe_inodes). Qed.

Lemma pe_ok : fs_ok pe_sb pe_disk pe_table.
Proof.
  destruct pe_inodes as [E1 E2].
  assert (O1 : ∀ b, owns pe_disk pe_root b ↔ b = 15) by (intros b; by apply pe_owns).
  assert (O2 : ∀ b, owns pe_disk pe_file b ↔ b = 16) by (intros b; by apply pe_owns).
  split.
  - intros i [-> | ->]%pe_live; rewrite ?E1, ?E2;
      [apply (pe_file_ok pe_root 15); [by left|done|lia|cbn; lia]|apply (pe_file_ok pe_file 16); [by right|done|lia|cbn; lia]].
  - intros i j b [-> | ->]%pe_live [-> | ->]%pe_live; rewrite ?E1, ?E2, ?O1, ?O2; lia.
  - intros b Hb. cbn in Hb. rewrite pe_used, Z.ltb_lt by done. change (dstart pe_sb) with 15. split.
    + intros Hlt. destruct (decide (b < 15)); [by left|]. right. destruct (decide (b = 15)) as [->|].
      * exists 1. split; [apply pe_live_1|]. rewrite E1. by apply O1.
      * exists 2. split; [apply pe_live_2|]. rewrite E2. apply O2. lia.
    + intros [?|(i & [-> | ->]%pe_live & Ho)]; [lia| |]; rewrite ?E1, ?E2, ?O1, ?O2 in Ho; lia.
Qed.

Lemma pe_repr : log_repr 2 10 20 1 0 pe_disk [] pe_log pe_disk [] ∅.
Proof.
  destruct (binit_idle 20 pe_disk 1) as (Hw & Hp & Hh).
  split; try done; try (cbn; lia); try (by apply pe_whole).
  - exists []. split_and!; try done; [by apply NoDup_nil_2|]. intros m. split; [by intros ?%Hp|].
    by intros ?%not_elem_of_nil.
  - intros k m. split; [|by intros ?%not_elem_of_nil]. intros Hk. destruct (Hh m). by exists k.
  - by apply NoDup_nil_2.
  - vm_compute. lia.
Qed.

Lemma pe_entries : entries (contents pe_disk pe_root) = [pe_entry].
Proof. by vm_compute. Qed.

Lemma pe_rest : fs_at_rest pe_sb pe_disk pe_table pe_rc.
Proof.
  destruct pe_inodes as [E1 E2]. split.
  - apply pe_ok.
  - intros j _. reflexivity.
  - intros i [-> | ->]%pe_live; rewrite ?E1, ?E2; [|intros H; vm_compute in H; discriminate]. intros _. split; [by exists 1|].
    rewrite pe_entries. intros e ->%list_elem_of_singleton _. apply pe_live_2.
  - intros i [-> | ->]%pe_live; rewrite ?E1, ?E2; intros H; vm_compute in H; discriminate.
Qed.

Lemma pe_slots k ip : pe_cache !! k = Some ip → k = 0%nat ∧ ip = pe_dir ∨ ip = pe_free.
Proof.
  destruct k as [|k]; [intros [= <-]; by left|]. change (pe_cache !! S k) with (replicate 49 pe_free !! k).
  intros [-> _]%lookup_replicate_1. by right.
Qed.

Lemma pe_slot k ip : pe_cache !! k = Some ip → 0 < i_ref ip → k = 0%nat ∧ ip = pe_dir.
Proof. intros [?| ->]%pe_slots Hr; [done|]. by cbn in Hr. Qed.

Lemma pe_icache : icache pe_sb 1 pe_table pe_rc None pe_cache.
Proof.
  destruct pe_inodes as [E1 E2]. split.
  - done.
  - intros i. unfold pe_rc, upd. case_b; lia.
  - intros i. unfold pe_rc, upd. case_b; [|lia]. intros _. subst i.
    exists 0%nat, pe_dir. split; [reflexivity|]. split; reflexivity.
  - intros k ip [[-> ->]| ->]%pe_slots; cbn; lia.
  - intros k ip Hk [-> ->]%(pe_slot _ _ Hk). reflexivity.
  - intros k ip Hk [-> ->]%(pe_slot _ _ Hk). split; [done|apply pe_live_1].
  - intros k k' ip ip' Hk Hk' [-> ->]%(pe_slot _ _ Hk) [-> ->]%(pe_slot _ _ Hk'). reflexivity.
  - intros k ip Hk [-> ->]%(pe_slot _ _ Hk) _. symmetry. exact E1.
  - intros k ip [[-> ->]| ->]%pe_slots; (rewrite decide_False by discriminate; reflexivity).
Qed.

Lemma namei_resolves_witness :
  ∃ d' l' j jp, namei 0 [47; 47; 97; 0] (replicate 14 0) (st pe_sb 1 tt pe_log pe_cache) = Ok (Some j) (st pe_sb 1 tt d' l') ∧
    l' !! j = Some jp ∧ i_inum jp = 2 ∧ icache pe_sb 1 pe_table (count pe_rc 2 1) None l'.
Proof.
  destruct (namei_resolves pe_sb 1 tt pe_disk ∅ pe_table pe_rc [1] pe_log pe_cache 0
    pe_dir [47; 47; 97; 0] (replicate 14 0)) as [(d' & l' & _ & H) _];
    [apply pe_geo|apply pe_rest| |unfold NINODE; cbn; lia|exact pe_repr|apply pe_icache|apply pe_live_1|reflexivity|reflexivity
    |repeat constructor; lia|repeat constructor; lia|reflexivity|].
  { intros i. unfold pe_rc, upd. case_b; [|lia]. intros _. subst i. left. }
  change (walk false pe_disk pe_table (starts_at _ _) (path_elems [47; 47; 97; 0])) with
    (walk false pe_disk pe_table 1 [[97]]) in H.
  assert (E : walk false pe_disk pe_table 1 [[97]] = Some 2) by (by vm_compute). rewrite E in H.
  destruct H as (j & jp & H1 & H2 & H3 & _ & H4). exists d', l', j, jp. split; [exact H1|]. split; [exact H2|]. split; [exact H3|exact H4].
Defined.
End PathExample.
