(* ===== verification/FsLink.v ===== *)
(** * Adding directory entries

    [dirlink] of [src/fs.c]: the entry goes to the first free place of the directory, the new name
    leads to its inode, and every other name leads where it did.  A name that exists is refused,
    except one of the directory itself, for which the call waits for the lock it holds. *)
From S2P Require Import Prelude CString Bytes Bio Log Disk Fs FsAlloc FsModel FsFile FsInode FsDir FsPath.

(** ** Entries *)

(** The number of the first free entry. *)
Fixpoint free_slot (es : list (list Z)) : nat :=
  match es with
  | [] => 0
  | e :: es => if de_inum e =? 0 then 0 else S (free_slot es)
  end.

Definition put_slot (es : list (list Z)) (n : nat) (e : list Z) : list (list Z) := take n es ++ e :: drop (S n) es.

Lemma free_slot_le es : (free_slot es ≤ length es)%nat.
Proof. induction es as [|e es IH]; [done|]. cbn. case_b; cbn; lia. Qed.

(** The name of an entry without an inode is not found. *)
Lemma dir_find_put name es off n e :
  n = free_slot es → de_inum e ≠ 0 →
  dir_find name (put_slot es n e) off =
    if decide (dname (de_name e) = name)
    then match dir_find name (take n es) off with Some r => Some r | None => Some (de_inum e, off + DIRENT * Z.of_nat n) end
    else dir_find name es off.
Proof.
  intros -> He. revert off. induction es as [|a es IH]; intros off; unfold put_slot; cbn [free_slot].
  - cbn [take drop app dir_find]. rewrite Z.mul_0_r, Z.add_0_r. destruct (decide (dname (de_name e) = name)); [by rewrite decide_True|]. by rewrite decide_False by naive_solver.
  - destruct (de_inum a =? 0) eqn:Ea; zbool; cbn [take drop app dir_find].
    + rewrite Z.mul_0_r, Z.add_0_r. rewrite drop_0. destruct (decide (dname (de_name e) = name)); [by rewrite decide_True|].
      rewrite !decide_False by naive_solver. done.
    + destruct (decide (de_inum a ≠ 0 ∧ dname (de_name a) = name)) as [Hm|Hm]; [by destruct (decide (dname (de_name e) = name))|].
      unfold put_slot in IH. rewrite IH. replace (off + DIRENT * Z.of_nat (S (free_slot es))) with
        (off + DIRENT + DIRENT * Z.of_nat (free_slot es)) by (unfold DIRENT; lia). done.
Qed.

(** A name that is not in the directory is not in its beginning. *)
Lemma dir_find_take name es off n : dir_find name es off = None → dir_find name (take n es) off = None.
Proof.
  revert off n. induction es as [|e es IH]; intros off [|n]; cbn [take dir_find]; try done.
  case_match; [done|]. apply IH.
Qed.

Lemma entries_overwrite c n e :
  length e = 16%nat → (n ≤ length c / 16)%nat → (length c mod 16 = 0)%nat →
  entries (overwrite c (Z.of_nat n * 16) e) = put_slot (entries c) n e.
Proof.
  intros He Hn Hm. assert (Hc : length c = (16 * (length c / 16))%nat) by (rewrite (Nat.div_mod_eq (length c) 16) at 1; lia).
  set (q := (length c / 16)%nat) in *. unfold overwrite.
  replace (Z.to_nat (Z.of_nat n * 16)) with (16 * n)%nat by lia.
  assert (Hlen : length (take (16 * n) c ++ e ++ drop (16 * n + length e) c) = (16 * Nat.max q (S n))%nat).
  { rewrite !length_app, length_take, length_drop. lia. }
  apply list_eq. intros i. destruct (decide (i < Nat.max q (S n))%nat) as [Hi|Hi].
  2: { rewrite !lookup_ge_None_2; [done| |].
       - unfold put_slot. rewrite length_app. cbn [length]. rewrite length_take, length_drop, entries_length. fold q. lia.
       - rewrite entries_length, Hlen, Nat.mul_comm, Nat.div_mul by lia. lia. }
  rewrite entries_lookup by (rewrite Hlen, Nat.mul_comm, Nat.div_mul by lia; lia).
  unfold put_slot. destruct (decide (i < n)%nat).
  - rewrite lookup_app_l by (rewrite length_take, entries_length; fold q; lia).
    rewrite lookup_take_lt, entries_lookup by (fold q; lia). f_equal.
    rewrite drop_app_le by (rewrite length_take; lia). rewrite take_app_le by (rewrite length_drop, length_take; lia).
    rewrite !take_drop_commute, take_take. do 2 f_equal. lia.
  - rewrite lookup_app_r by (rewrite length_take, entries_length; fold q; lia).
    rewrite length_take, entries_length. fold q. rewrite Nat.min_l by lia.
    rewrite drop_app_ge by (rewrite length_take; lia). rewrite length_take, Nat.min_l by lia.
    destruct (decide (i = n)) as [->|].
    + rewrite !Nat.sub_diag, drop_0. cbn. rewrite <- He at 1. by rewrite take_app_length.
    + replace (i - n)%nat with (S (i - n - 1)) by lia.
      change ((e :: drop (S n) (entries c)) !! S (i - n - 1)) with (drop (S n) (entries c) !! (i - n - 1)%nat).
      rewrite lookup_drop, entries_lookup by (fold q; lia). f_equal.
      rewrite drop_app_ge by lia. rewrite drop_drop. do 2 f_equal. lia.
Qed.

(** The new entry. *)
Definition new_entry (inum : Z) (name : list Z) : list Z :=
  dirent inum (take DIRSIZ (cstr name) ++ replicate (DIRSIZ - length (cstr name)) 0).

Lemma cstr_app_zeros s n : Forall (λ b, b ≠ 0) s → cstr (s ++ replicate n 0) = s.
Proof. intros Hs. destruct n; cbn [replicate]; [|by apply cstr_app]. rewrite app_nil_r. by apply cstr_no_nul. Qed.

Lemma cstr_take_cstr n b : cstr (take n b) = take n (cstr b).
Proof.
  revert n. induction b as [|c b IH]; intros n; [cbn [cstr]; rewrite !take_nil; done|]. destruct n as [|n]; [done|]. cbn.
  destruct (c =? 0); [done|]. by rewrite IH.
Qed.

Lemma new_entry_spec inum name :
  0 ≤ inum < 2 ^ 16 → Forall (λ c, 0 ≤ c < 256) name →
  length (new_entry inum name) = 16%nat ∧ de_inum (new_entry inum name) = inum ∧
  dname (de_name (new_entry inum name)) = dname name ∧ Forall is_byte (new_entry inum name).
Proof.
  intros Hi Bn. unfold new_entry, dirent. set (nm := take DIRSIZ (cstr name) ++ _).
  assert (Hl : length nm = DIRSIZ) by (unfold nm; rewrite length_app, length_take, length_replicate; lia).
  split_and!.
  - rewrite length_app, length_le_bytes, Hl. done.
  - unfold de_inum, load. rewrite drop_0, take_app_le by (rewrite length_le_bytes; lia).
    rewrite take_ge by (rewrite length_le_bytes; lia). unfold u16. rewrite Z.mod_small by lia. apply le_val_bytes. done.
  - unfold de_name. rewrite drop_app_length' by (by rewrite length_le_bytes). unfold dname. rewrite (take_ge nm) by lia.
    unfold nm. rewrite cstr_app_zeros; [by rewrite cstr_take_cstr|]. apply Forall_take, cstr_nonzero.
  - apply Forall_app. split; [apply le_bytes_bytes|]. unfold nm. apply Forall_app. split.
    + apply Forall_take. clear -Bn. induction Bn as [|c name Hc _ IH]; cbn; [constructor|]. case_b; [constructor|]. by constructor.
    + apply Forall_replicate. unfold is_byte. lia.
Qed.

Section link.
Context {D X : Type} {ops : Disk D} {laws : DiskOk D} {swtch : Devices X}.
Context (sb : superblock) (p : Z) (x : X) (Hgeo : fs_geo usable sb).
Local Abbreviation state := (st (D := D) sb p x).
Local Abbreviation icache := (icache sb p).

(** The cache after a write to the inode that is locked. *)
Lemma icache_updated A rc l k ip i c V V' A' :
  icache A rc (Some k) l → l !! k = Some ip → 0 < i_ref ip → i_inum ip = i → updated sb i c V A V' A' →
  icache A' rc (Some k) (<[k := with_copy (A' i) ip]> l).
Proof.
  intros IC Hk Hr Hi U. assert (Hput := lookup_put l k ip Hk (with_copy (A' i) ip)). destruct IC. split.
  - by rewrite length_insert.
  - done.
  - intros j Hj. destruct (ic_there j Hj) as (m & mp & Hm & Hmi & Hmr). destruct (decide (m = k)) as [->|Hne].
    + exists k, (with_copy (A' i) ip). split; [by eapply put_same|]. naive_solver.
    + exists m, mp. by rewrite list_lookup_insert_ne by done.
  - intros j q [[-> ->]|[? Hj]]%Hput; [by apply (ic_pos _ _ Hk)|by eapply ic_pos].
  - intros j q [[-> ->]|[? Hj]]%Hput Hjr; [by apply (ic_ref _ _ Hk)|by eapply ic_ref].
  - intros j q [[-> ->]|[? Hj]]%Hput Hjr.
    + destruct (ic_live _ _ Hk Hr) as [H1 H2]. split; [done|]. by apply (updated_live _ _ _ _ _ _ _ _ U).
    + destruct (ic_live _ _ Hj Hjr) as [H1 H2]. split; [done|]. by apply (updated_live _ _ _ _ _ _ _ _ U).
  - intros j j' q q' [[-> ->]|[? Hj]]%Hput [[-> ->]|[? Hj']]%Hput Hjr Hjr' E; try done;
      (eapply ic_uniq; [eassumption..|done]).
  - intros j q [[-> ->]|[Hne Hj]]%Hput Hjr Hv; [cbn; by rewrite Hi|].
    rewrite (up_others _ _ _ _ _ _ _ U); [by eapply ic_valid|]. rewrite <- Hi. intros E. apply Hne. by eapply ic_uniq.
  - intros j q [[-> ->]|[? Hj]]%Hput; [by apply (ic_owner _ _ Hk)|by eapply ic_owner].
Qed.

Section one.
Context (V : Z → block) (L : gset Z) (A : Z → dinode) (rc : Z → Z) (l : list inode) (k : nat) (ip : inode).
Let di : dinode := A (i_inum ip).
Context (Hdir : di_type di = T_DIR) (Hok : dir_ok sb V A di) (IC : icache A rc (Some k) l) (Hr : 0 < i_ref ip).
Context (Hroom : ∀ i, rc i = 0 → ∃ j jp, l !! j = Some jp ∧ i_ref jp = 0).
Let es := entries (contents V di).

Lemma es_length : Z.of_nat (length es) * 16 = di_size di ∨ di_size di < 0.
Proof.
  unfold es. rewrite entries_length. unfold contents. rewrite length_fbytes. destruct Hok as [[q Hq] _]. rewrite Hq.
  destruct (decide (q < 0)); [right; lia|left]. replace (Z.to_nat (q * 16)) with (Z.to_nat q * 16)%nat by lia.
  rewrite Nat.div_mul by lia. lia.
Qed.

(** [dirlink]'s search for a free entry. *)
Lemma dirlink_loop_ok fuel : ∀ d n,
  opened sb d V L A l k ip → (n ≤ length es)%nat → di_size di ≤ Z.of_nat (n + fuel) * 16 →
  ∃ d', dirlink_loop fuel k (Z.of_nat n * 16) (state d l) =
    Ok (Z.of_nat (n + free_slot (drop n es)) * 16) (state d' l) ∧ opened sb d' V L A l k ip.
Proof.
  induction fuel as [|fuel IH]; intros d n O Hn Hf; pose proof O as [R Hfs Hk Hdev Hc Hl];
    pose proof (size_range sb V A _ Hfs Hl) as Hsz; fold di in Hsz;
    cbn [dirlink_loop]; rewrite (bind_ok _ _ _ _ _ (inode_at_ok sb p x d l k ip Hk)), Hc; fold di;
    destruct es_length as [Hes|]; try lia.
  - rewrite (proj2 (Z.ltb_ge _ _)) by lia. exists d. rewrite drop_ge by lia. cbn. by rewrite Nat.add_0_r.
  - destruct (Z.of_nat n * 16 <? di_size di) eqn:E; zbool.
    2: { exists d. rewrite drop_ge by lia. cbn. by rewrite Nat.add_0_r. }
    destruct (read_entry sb p x Hgeo V L A l k ip Hdir Hok d n O E) as (d' & e & Er & O' & He & Hle & Hbe).
    rewrite (bind_ok _ _ _ _ _ Er). change (negb (DIRENT =? DIRENT)) with false. cbn iota.
    change (entries _) with es in He. rewrite (drop_S _ _ _ He). cbn [free_slot]. destruct (de_inum e =? 0) eqn:E0.
    { exists d'. by rewrite Nat.add_0_r. }
    replace (Z.of_nat n * 16 + DIRENT) with (Z.of_nat (S n) * 16) by (unfold DIRENT; lia).
    destruct (IH d' (S n) O') as (d2 & E2 & O2); [lia|lia|]. exists d2. rewrite E2. split; [|done]. do 3 f_equal. lia.
Qed.

(** Where the entry goes. *)
Definition link_off : Z := Z.of_nat (free_slot es) * 16.

(** What [dirlink] leaves when the name is new. *)
Definition linked (name : list Z) (inum : Z) (o : outcome (fs D X) Z) : Prop :=
  ∃ d' V' L' A', let ip' := with_copy (A' (i_inum ip)) ip in let l' := <[k := ip']> l in
    o = Ok 0 (state d' l') ∧ opened sb d' V' L' A' l' k ip' ∧ icache A' rc (Some k) l' ∧
    updated sb (i_inum ip) (overwrite (contents V di) link_off (new_entry inum name)) V A V' A' ∧
    ∀ nm, lookup_name V' (A' (i_inum ip)) nm =
      if decide (nm = dname name) then Some (inum, link_off) else lookup_name V di nm.

Lemma touched_entry : touched link_off 16 = 1.
Proof. unfold touched, link_off. cbn [Z.eqb]. sizes. dlia. Qed.

Lemma lookup_linked name inum V' A' :
  0 < inum < 2 ^ 16 → name_buf name → lookup_name V di (dname name) = None → 0 ≤ di_size di →
  contents V' (A' (i_inum ip)) = overwrite (contents V di) link_off (new_entry inum name) →
  ∀ nm, lookup_name V' (A' (i_inum ip)) nm =
    if decide (nm = dname name) then Some (inum, link_off) else lookup_name V di nm.
Proof.
  intros Hi Hname Hnone Hsz Hc nm. destruct (new_entry_spec inum name) as (Hlen & Hin & Hnm & _); [lia|apply Hname|].
  unfold lookup_name. rewrite Hc. unfold link_off. rewrite entries_overwrite; [|done| |].
  2: { pose proof (free_slot_le es) as Hle. unfold es in Hle at 2. by rewrite entries_length in Hle. }
  2: { unfold contents. rewrite length_fbytes. destruct Hok as [[q Hq] _]. rewrite Hq.
       replace (Z.to_nat (q * 16)) with (Z.to_nat q * 16)%nat by lia. apply Nat.Div0.mod_mul. }
  fold es. rewrite dir_find_put by (done || lia). rewrite Hnm.
  destruct (decide (nm = dname name)) as [->|Hne]; [|by rewrite decide_False by congruence].
  rewrite decide_True by done. rewrite dir_find_take by done. rewrite Hin. do 2 f_equal. unfold DIRENT. lia.
Qed.

Lemma dirlink_new d name inum :
  opened sb d V L A l k ip → synced sb V A → name_buf name → 0 < inum < 2 ^ 16 →
  lookup_name V di (dname name) = None →
  link_off + 16 ≤ MAXFILE * BSIZE → space sb V di link_off 16 →
  Z.of_nat (spend sb L (i_inum ip) di) + 1 < Z.of_nat log_cap →
  linked name inum (dirlink k name inum (state d l)).
Proof.
  intros O Hsync Hname Hi Hnone Hmax Hsp Hcap. unfold dirlink.
  pose proof (dirlookup_ok sb p x Hgeo V L A rc l k ip Hdir Hok IC Hroom d name O Hname) as Hlook. fold di in Hlook.
  rewrite Hnone in Hlook. destruct Hlook as (d1 & E1 & R1). rewrite (bind_ok _ _ _ _ _ E1).
  pose proof O as [_ Hfs Hk Hdev Hc Hl]. assert (O1 : opened sb d1 V L A l k ip) by by split.
  pose proof (size_range sb V A _ Hfs Hl) as Hsz. fold di in Hsz.
  rewrite (bind_ok _ _ _ _ _ (inode_at_ok sb p x d1 l k ip Hk)), Hc. fold di.
  destruct (dirlink_loop_ok (Z.to_nat (di_size di)) d1 0 O1) as (d2 & E2 & O2); [lia|lia|].
  change (0 + free_slot (drop 0 es))%nat with (free_slot (drop 0 es)) in E2. rewrite drop_0 in E2. fold link_off in E2.
  rewrite (bind_ok _ _ _ _ _ E2). destruct Hname as [Hend Hbytes].
  rewrite strncpy_spec by (rewrite ?length_replicate; done || lia). rewrite drop_ge, app_nil_r by (by rewrite length_replicate).
  fold (new_entry inum name). destruct (new_entry_spec inum name) as (Hlen & Hin & Hnm & Hby); [lia|done|].
  assert (Hoff : 0 ≤ link_off ≤ di_size di).
  { unfold link_off. pose proof (free_slot_le es). destruct es_length; lia. }
  destruct (writei_ok sb p x Hgeo d2 V L A l k ip (new_entry inum name) link_off O2 Hsync) as (d3 & V' & L' & A' & E3 & O3 & U & _);
    fold di; rewrite ?Hlen; [by rewrite Hdir|done|done|done|done|change (Z.of_nat 16) with 16; rewrite touched_entry; done|].
  cbv zeta in E3, O3. rewrite Hlen in E3. rewrite (bind_ok _ _ _ _ _ E3).
  exists d3, V', L', A'. cbv zeta. split_and!; try done.
  - by eapply icache_updated.
  - eapply lookup_linked; try done; [lia|]. apply U.
Qed.

(** A name that is there already. *)
Lemma dirlink_exists d name inum t off :
  opened sb d V L A l k ip → name_buf name → lookup_name V di (dname name) = Some (t, off) → t ≠ i_inum ip →
  (di_nlink (A t) = 0 → 0 < rc t) → (∀ i, 0 ≤ rc i) →
  ∃ d' l', dirlink k name inum (state d l) = Ok (-1) (state d' l') ∧ repr d' V [] L ∧ icache A rc (Some k) l'.
Proof.
  intros O Hname Hsome Hne Hnl Hrc. unfold dirlink.
  pose proof (dirlookup_ok sb p x Hgeo V L A rc l k ip Hdir Hok IC Hroom d name O Hname) as Hlook. fold di in Hlook.
  rewrite Hsome in Hlook. destruct Hlook as (d1 & j & jp & l1 & E1 & R1 & IC1 & Hst & Hj & Ht & Hjr).
  rewrite (bind_ok _ _ _ _ _ E1). pose proof O as [_ _ Hk _ _ _]. destruct (Hst _ _ Hk Hr) as (r & _ & Hk1).
  destruct (iput_ok sb p x A (count rc t 1) l1 d1 j jp Hj Hjr (Some k) IC1) as [E2 IC2].
  { intros [= ->]. rewrite Hk1 in Hj. injection Hj as <-. done. }
  { rewrite Ht. intros Hn. rewrite <- (ic_ref _ _ _ _ _ _ IC1 _ _ Hj Hjr), Ht, count_at, Z.eqb_refl. specialize (Hnl Hn). lia. }
  rewrite (bind_ok _ _ _ _ _ E2). eexists d1, _. split; [done|]. split; [done|].
  eapply icache_ext; [|exact IC2]. intros i. rewrite Ht, !count_at. case_b; lia.
Qed.

(** The name of the directory itself: the process waits for the lock it holds. *)
Lemma dirlink_self_deadlocks d name inum off :
  opened sb d V L A l k ip → name_buf name → lookup_name V di (dname name) = Some (i_inum ip, off) →
  dirlink k name inum (state d l) = Ub "sleeps".
Proof.
  intros O Hname Hsome. unfold dirlink.
  pose proof (dirlookup_ok sb p x Hgeo V L A rc l k ip Hdir Hok IC Hroom d name O Hname) as Hlook. fold di in Hlook.
  rewrite Hsome in Hlook. destruct Hlook as (d1 & j & jp & l1 & E1 & R1 & IC1 & Hst & Hj & Ht & Hjr).
  rewrite (bind_ok _ _ _ _ _ E1). pose proof O as [_ _ Hk _ _ _]. destruct (Hst _ _ Hk Hr) as (r & Hle & Hk1).
  assert (j = k) as ->.
  { eapply (ic_uniq _ _ _ _ _ _ IC1); [done|done|done|cbn; lia|done]. }
  unfold mbind, cm_bind. by rewrite (iput_locked sb p x A (count rc (i_inum ip) 1) l1 d1 k _ Hk1 IC1).
Qed.
End one.

(** C37: [dirlink] adds a name to a directory: a new name is written to the first free entry (or appended),
    after which that name leads to the given inode and every other name leads where it did; the
    contents of every other file and the reference counts are unchanged.  A name that leads to another
    inode is refused with -1 and nothing changes.  For a name that leads to the directory itself, such as
    its entry [.], the call never comes back: [iput] waits for the lock that the caller holds. *)
Theorem dirlink_links V L A rc l k ip d name inum :
  di_type (A (i_inum ip)) = T_DIR → dir_ok sb V A (A (i_inum ip)) → icache A rc (Some k) l → 0 < i_ref ip →
  (∀ i, rc i = 0 → ∃ j jp, l !! j = Some jp ∧ i_ref jp = 0) →
  opened sb d V L A l k ip → synced sb V A → name_buf name → 0 < inum < 2 ^ 16 →
  let di := A (i_inum ip) in
  match lookup_name V di (dname name) with
  | None =>
      link_off V A ip + 16 ≤ MAXFILE * BSIZE → space sb V di (link_off V A ip) 16 →
      Z.of_nat (spend sb L (i_inum ip) di) + 1 < Z.of_nat log_cap →
      ∃ d' V' L' A' l' ip', dirlink k name inum (state d l) = Ok 0 (state d' l') ∧
        opened sb d' V' L' A' l' k ip' ∧ i_inum ip' = i_inum ip ∧ synced sb V' A' ∧ icache A' rc (Some k) l' ∧
        (∀ nm, lookup_name V' (A' (i_inum ip)) nm =
           if decide (nm = dname name) then Some (inum, link_off V A ip) else lookup_name V di nm) ∧
        (∀ j, live sb A j → j ≠ i_inum ip → A' j = A j ∧ contents V' (A' j) = contents V (A j))
  | Some (t, _) =>
      if decide (t = i_inum ip) then dirlink k name inum (state d l) = Ub "sleeps" else
      (di_nlink (A t) = 0 → 0 < rc t) →
      ∃ d' l', dirlink k name inum (state d l) = Ok (-1) (state d' l') ∧ repr d' V [] L ∧ icache A rc (Some k) l'
  end.
Proof.
  intros Hdir Hok IC Hr Hroom O Hsync Hname Hi di. destruct (lookup_name V di (dname name)) as [[t off]|] eqn:E.
  - destruct (decide (t = i_inum ip)) as [->|Hne]; [by eapply dirlink_self_deadlocks|].
    intros Hnl. eapply dirlink_exists; try done. apply (ic_rc _ _ _ _ _ _ IC).
  - intros Hmax Hsp Hcap.
    destruct (dirlink_new V L A rc l k ip Hdir Hok IC Hr Hroom d name inum O Hsync Hname Hi E Hmax Hsp Hcap)
      as (d' & V' & L' & A' & E' & O' & IC' & U & Hlook). cbv zeta in *.
    eexists d', V', L', A', _, _. split; [exact E'|]. split_and!; try done; [by apply U|].
    intros j Hj Hne. rewrite (up_others _ _ _ _ _ _ _ U) by done. split; [done|]. by apply (up_frame _ _ _ _ _ _ _ U).
Qed.
End link.

(** ** The name [b] in the directory of [PathExample] *)

Module LinkExample.
Import PathExample.
#[local] Existing Instances PathExample.no_devices PathExample.pe_laws.

Definition le_dir : inode := loaded 1 pe_table pe_dir.
Definition le_cache : list inode := <[0%nat := le_dir]> pe_cache.
Definition le_name : list Z := [98; 0].

Lemma le_icache : icache pe_sb 1 pe_table pe_rc (Some 0%nat) le_cache.
Proof. apply icache_loaded; [reflexivity|apply pe_icache]. Qed.

Lemma le_opened : opened pe_sb pe_log pe_disk ∅ pe_table le_cache 0 le_dir.
Proof. split; [exact pe_repr|apply pe_ok|reflexivity|reflexivity|reflexivity|apply pe_live_1]. Qed.

Lemma le_buf : name_buf le_name.
Proof. split; [right; right; left|]. repeat constructor; lia. Qed.

Lemma dirlink_links_witness :
  ∃ d' V' L' A' l' ip', dirlink 0 le_name 2 (st pe_sb 1 tt pe_log le_cache) = Ok 0 (st pe_sb 1 tt d' l') ∧
    opened pe_sb d' V' L' A' l' 0 ip' ∧
    lookup_name V' (A' 1) [98] = Some (2, 16) ∧ lookup_name V' (A' 1) [97] = Some (2, 0).
Proof.
  destruct pe_inodes as [E1 E2].
  pose proof (dirlink_links pe_sb 1 tt pe_geo pe_disk ∅ pe_table pe_rc le_cache 0 le_dir pe_log le_name 2) as H.
  cbn [i_inum le_dir loaded pe_dir] in H. rewrite E1 in H. cbv zeta in H.
  assert (En : lookup_name pe_disk pe_root (dname le_name) = None) by (by vm_compute). rewrite En in H.
  assert (Ea : lookup_name pe_disk pe_root [97] = Some (2, 0)) by (by vm_compute).
  assert (Eo : link_off pe_disk pe_table le_dir = 16) by (by vm_compute). rewrite Eo in H.
  destruct H as (d' & V' & L' & A' & l' & ip' & H1 & H2 & _ & _ & _ & H3 & _).
  - reflexivity.
  - pose proof (rest_dirs _ _ _ _ pe_rest 1 pe_live_1) as Hd. rewrite E1 in Hd. apply Hd. reflexivity.
  - apply le_icache.
  - reflexivity.
  - intros i _. exists 1%nat, pe_free. split; reflexivity.
  - apply le_opened.
  - intros j _. reflexivity.
  - apply le_buf.
  - lia.
  - by vm_compute.
  - right. vm_compute. lia.
  - by vm_compute.
  - exists d', V', L', A', l', ip'. split; [exact H1|]. split; [exact H2|].
    split; rewrite H3; [reflexivity|rewrite decide_False by discriminate; exact Ea].
Defined.
End LinkExample.
