(* ===== verification/FsRest.v ===== *)
(** * The file system between system calls

    The log is quiet, the inodes in memory agree with the disk, no inode is locked: what the system calls on files
    start from and come back to. *)
From S2P Require Import Prelude Bytes Bio Log Disk Fs FsAlloc FsModel FsFile FsTheorems FsTx FsInode.

Section rest.
Context {X : Type} {swtch : Devices X} (lst lsz dsize : Z) (sb : superblock) (p : Z) (x : X).
Local Abbreviation state := (st (D := log) sb p x).

Record at_rest (s : fs log X) (V : Z → block) (A : Z → dinode) (rc : Z → Z) (l : list inode) : Prop := {
  ar_log : ∃ lg, s = state lg l ∧ quiet lst lsz dsize V lg;
  ar_ok : fs_ok sb V A;
  ar_synced : synced sb V A;
  ar_cache : icache sb p A rc None l
}.

(** A reference to inode [i] at entry [k]. *)
Definition refers (l : list inode) (k : nat) (i : Z) : Prop := ∃ ip, l !! k = Some ip ∧ i_inum ip = i ∧ 0 < i_ref ip.

Lemma on_disk_log {A} (m : cm log A) lg l a lg' : m lg = Ok a lg' → on_disk m (state lg l) = Ok a (state lg' l).
Proof. intros E. unfold on_disk. cbn [dsk st]. by rewrite E. Qed.

Lemma quiet_disk V lg m : quiet lst lsz dsize V lg → whole (disk (cache lg) m).
Proof.
  intros [Htx _ _ _ _ _ _ Hl Hw]. rewrite <- (settled_look _ [] m (tx_settled _ _ Htx) (not_elem_of_nil _)).
  rewrite Hl. apply Hw.
Qed.
End rest.
