(* ===== verification/Kalloc.v ===== *)
(** * Physical memory and its allocator

    [src/kalloc.c]: the free pages of physical memory are linked through their first
    words.  Memory is its bytes by physical address; the kernel reaches physical
    address [a] at the pointer [P2V a], and 0 is the null pointer.  A pointer outside
    the pages that the kernel maps to memory is undefined here.

    [free_list m h l] says that the pages [l] are linked from [h] on.  Theorems: the
    allocator hands out each free page once, in stack order, reports exhaustion with
    0, and touches no byte of a page that is allocated. *)
From S2P Require Import Prelude CString Bytes.

Definition PGSIZE : Z := 4096.
Definition KERNBASE : Z := 2 ^ 31.
Definition EXTMEM : Z := 1048576.
Definition PHYSTOP : Z := 234881024.
Definition V2P (a : Z) : Z := u32 (a - KERNBASE).
Definition P2V (a : Z) : Z := u32 (a + KERNBASE).
Definition PGROUNDUP (sz : Z) : Z := Z.land (u32 (sz + PGSIZE - 1)) (Z.lnot (PGSIZE - 1)).
Definition PGROUNDDOWN (a : Z) : Z := Z.land a (Z.lnot (PGSIZE - 1)).

(** The bytes of physical memory. *)
Definition pmem : Type := Z → Z.

(** A 4-byte word of memory. *)
Definition ldw (m : pmem) (a : Z) : Z := le_val [m a; m (a + 1); m (a + 2); m (a + 3)].
Definition stw (m : pmem) (a v : Z) : pmem := λ x,
  if (a <=? x) && (x <? a + 4) then (v / 256 ^ (x - a)) mod 256 else m x.

Record kmem : Type := Kmem {
  phys : pmem;
  kend : Z;             (* end, the first address after the kernel *)
  use_lock : bool;
  klock : bool;
  freelist : Z
}.

Definition set_phys (m : pmem) (s : kmem) : kmem := Kmem m (kend s) (use_lock s) (klock s) (freelist s).
Definition set_use_lock (b : bool) (s : kmem) : kmem := Kmem (phys s) (kend s) b (klock s) (freelist s).
Definition set_klock (b : bool) (s : kmem) : kmem := Kmem (phys s) (kend s) (use_lock s) b (freelist s).
Definition set_freelist (r : Z) (s : kmem) : kmem := Kmem (phys s) (kend s) (use_lock s) (klock s) r.

(** A pointer to memory. *)
Definition in_ram (v : Z) : bool := (KERNBASE <=? v) && (v <? KERNBASE + PHYSTOP).

(** Words behind a kernel pointer. *)
Definition kload (v : Z) : cm kmem Z := λ s,
  if in_ram v then Ok (ldw (phys s) (V2P v)) s else Ub "pointer".
Definition kstore (v x : Z) : cm kmem unit := λ s,
  if in_ram v then Ok tt (set_phys (stw (phys s) (V2P v) x) s) else Ub "pointer".

(** [memset(v, c, PGSIZE)] on a page. *)
Definition fill_page (v c : Z) : cm kmem unit := λ s,
  if in_ram v then Ok tt (set_phys (memset (phys s) (V2P v) c PGSIZE) s) else Ub "pointer".

(** [if(kmem.use_lock) acquire(&kmem.lock)], and the release. *)
Definition lock_kmem : cm kmem unit := b ← gets use_lock; cwhen b (acquire klock set_klock).
Definition unlock_kmem : cm kmem unit := b ← gets use_lock; cwhen b (release klock set_klock).

Definition kfree (v : Z) : cm kmem unit :=
  e ← gets kend;
  if negb (v mod PGSIZE =? 0) || (v <? e) || (PHYSTOP <=? V2P v) then panic "kfree" else
  fill_page v 1 ;;
  lock_kmem ;;
  r ← gets freelist;
  kstore v r ;;
  modify (set_freelist v) ;;
  unlock_kmem.

Definition kalloc : cm kmem Z :=
  lock_kmem ;;
  r ← gets freelist;
  (if r =? 0 then mret tt else n ← kload r; modify (set_freelist n)) ;;
  unlock_kmem ;;
  mret r.

(** [for(; p + PGSIZE <= vend; p += PGSIZE) kfree(p)]. *)
Fixpoint freerange_loop (n : nat) (p vend : Z) : cm kmem unit :=
  if p + PGSIZE <=? vend then
    match n with
    | O => ub "loop"
    | S n' => kfree p ;; freerange_loop n' (p + PGSIZE) vend
    end
  else mret tt.

Definition freerange (vstart vend : Z) : cm kmem unit :=
  freerange_loop (Z.to_nat (vend / PGSIZE)) (PGROUNDUP vstart) vend.

Definition kinit1 (vstart vend : Z) : cm kmem unit :=
  modify (set_klock false) ;;
  modify (set_use_lock false) ;;
  freerange vstart vend.

Definition kinit2 (vstart vend : Z) : cm kmem unit :=
  freerange vstart vend ;;
  modify (set_use_lock true).

(** ** Words of memory *)

Lemma ldw_stw_eq m a v : 0 ≤ v < 2 ^ 32 → ldw (stw m a v) a = v.
Proof.
  intros Hv. unfold ldw, stw.
  repeat match goal with |- context [if ?b then _ else _] =>
    replace b with true by (symmetry; apply andb_true_iff; rewrite Z.leb_le, Z.ltb_lt; lia) end.
  rewrite Z.sub_diag. replace (a + 1 - a) with 1 by lia. replace (a + 2 - a) with 2 by lia.
  replace (a + 3 - a) with 3 by lia. cbn [le_val]. change (256 ^ 0) with 1. change (256 ^ 1) with 256.
  change (256 ^ 2) with 65536. change (256 ^ 3) with 16777216. dlia.
Qed.

Lemma stw_other m a v x : ¬ (a ≤ x < a + 4) → stw m a v x = m x.
Proof. intros Hx. unfold stw. case_b; [lia|done]. Qed.

Lemma ldw_ext m m' a : (∀ x, a ≤ x < a + 4 → m' x = m x) → ldw m' a = ldw m a.
Proof. intros He. unfold ldw. by rewrite !He by lia. Qed.

Lemma ldw_stw_ne m a b v : a + 4 ≤ b ∨ b + 4 ≤ a → ldw (stw m a v) b = ldw m b.
Proof. intros Hd. apply ldw_ext. intros x Hx. apply stw_other. lia. Qed.

(** ** The free list *)

Definition page (e v : Z) : Prop :=
  v mod PGSIZE = 0 ∧ e ≤ v ∧ KERNBASE ≤ v < KERNBASE + PHYSTOP.

(** The bytes of the page at pointer [v]. *)
Definition in_page (v a : Z) : Prop := V2P v ≤ a < V2P v + PGSIZE.

Fixpoint free_list (m : pmem) (h : Z) (l : list Z) : Prop :=
  match l with
  | [] => h = 0
  | v :: l' => h = v ∧ free_list m (ldw m (V2P v)) l'
  end.

Record kmem_ok (s : kmem) (l : list Z) : Prop := {
  km_end : KERNBASE < kend s;
  km_lock : klock s = false;
  km_list : free_list (phys s) (freelist s) l;
  km_nodup : NoDup l;
  km_pages : Forall (page (kend s)) l
}.

Lemma page_V2P e v : page e v → V2P v = v - KERNBASE ∧ 0 ≤ V2P v ∧ V2P v + PGSIZE ≤ PHYSTOP ∧ V2P v mod PGSIZE = 0.
Proof.
  intros (Hm & _ & Hr). unfold V2P, u32. unfold KERNBASE, PHYSTOP, PGSIZE in *. rewrite Z.mod_small by lia. dlia.
Qed.

Lemma page_ram e v : page e v → in_ram v = true.
Proof. intros (_ & _ & Hr). unfold in_ram. apply andb_true_iff. rewrite Z.leb_le, Z.ltb_lt. lia. Qed.

Lemma page_pos e v : page e v → v ≠ 0.
Proof. intros (_ & _ & Hr). unfold KERNBASE in Hr. lia. Qed.

(** Distinct pages do not overlap. *)
Lemma pages_apart e v w a : page e v → page e w → v ≠ w → in_page v a → ¬ in_page w a.
Proof.
  intros Hv Hw Hne. destruct (page_V2P e v Hv) as (Ev & _ & _ & Mv), (page_V2P e w Hw) as (Ew & _ & _ & Mw).
  unfold in_page. unfold PGSIZE in *. dlia.
Qed.

Lemma free_list_ext e m m' h l :
  Forall (page e) l → (∀ v x, v ∈ l → in_page v x → m' x = m x) → free_list m h l → free_list m' h l.
Proof.
  intros Hp. revert h. induction l as [|v l IH]; intros h He; [done|]. apply Forall_cons in Hp as [Hv Hp].
  intros [-> Hl]. split; [done|]. rewrite (ldw_ext m m').
  - apply IH; [done| |done]. intros w x Hw. apply He. by right.
  - intros x Hx. apply (He v); [left|]. unfold in_page, PGSIZE. lia.
Qed.

Lemma lock_kmem_ok s : klock s = false → lock_kmem s = Ok tt (set_klock (use_lock s) s).
Proof.
  intros Hl. unfold lock_kmem, mbind, cm_bind, gets, cwhen, acquire. destruct s as [m e u k f].
  simpl in *. subst. by destruct u.
Qed.

Lemma unlock_kmem_ok s : klock s = use_lock s → unlock_kmem s = Ok tt (set_klock false s).
Proof.
  intros Hl. unfold unlock_kmem, mbind, cm_bind, gets, cwhen, release. destruct s as [m e u k f].
  simpl in *. subst. by destruct u.
Qed.

Lemma kalloc_ok s l :
  kmem_ok s l →
  ∃ s', kalloc s = Ok (hd 0 l) s' ∧ kmem_ok s' (tail l) ∧ phys s' = phys s ∧ kend s' = kend s ∧
    use_lock s' = use_lock s.
Proof.
  intros [He Hl Hf Hn Hp]. unfold kalloc. rewrite (bind_ok _ _ _ _ _ (lock_kmem_ok s Hl)).
  rewrite bind_gets. cbn [freelist set_klock]. destruct l as [|v l]; simpl in Hf.
  - rewrite Hf, Z.eqb_refl. rewrite bind_ret.
    rewrite (bind_ok _ _ _ _ _ (unlock_kmem_ok (set_klock (use_lock s) s) eq_refl)). eexists. split; [done|]. by split_and!.
  - destruct Hf as [Ev Hf]. apply Forall_cons in Hp as [Hv Hp]. apply NoDup_cons in Hn as [Hin Hn]. rewrite Ev.
    rewrite (proj2 (Z.eqb_neq v 0)) by (by eapply page_pos).
    set (s1 := set_freelist (ldw (phys s) (V2P v)) (set_klock (use_lock s) s)).
    assert (E : (n ← kload v; modify (set_freelist n)) (set_klock (use_lock s) s) = Ok tt s1).
    { unfold mbind, cm_bind, kload. by rewrite (page_ram _ _ Hv). }
    rewrite (bind_ok _ _ _ _ _ E), (bind_ok _ _ _ _ _ (unlock_kmem_ok s1 eq_refl)).
    eexists. split; [done|]. by split_and!.
Qed.

Lemma kfree_ok s l v :
  kmem_ok s l → page (kend s) v → v ∉ l →
  ∃ s', kfree v s = Ok tt s' ∧ kmem_ok s' (v :: l) ∧ (∀ x, ¬ in_page v x → phys s' x = phys s x) ∧
    kend s' = kend s ∧ use_lock s' = use_lock s.
Proof.
  intros [He Hl Hf Hn Hp] Hv Hin. pose proof Hv as (Hm & Hge & Hr).
  destruct (page_V2P _ _ Hv) as (Ev & Hv1 & Hv2 & _).
  unfold kfree. rewrite bind_gets.
  rewrite Hm, (proj2 (Z.ltb_ge v _)), (proj2 (Z.leb_gt PHYSTOP _)) by (unfold PGSIZE in *; lia). cbn [negb orb Z.eqb].
  set (s1 := set_phys (memset (phys s) (V2P v) 1 PGSIZE) s).
  assert (E1 : fill_page v 1 s = Ok tt s1) by (unfold fill_page; by rewrite (page_ram _ _ Hv)).
  rewrite (bind_ok _ _ _ _ _ E1), (bind_ok _ _ _ _ _ (lock_kmem_ok s1 Hl)).
  rewrite bind_gets. cbn [freelist set_klock].
  set (s2 := set_phys (stw (phys s1) (V2P v) (freelist s)) (set_klock (use_lock s1) s1)).
  assert (E2 : kstore v (freelist s) (set_klock (use_lock s1) s1) = Ok tt s2)
    by (unfold kstore; by rewrite (page_ram _ _ Hv)).
  rewrite (bind_ok _ _ _ _ _ E2), bind_modify.
  rewrite unlock_kmem_ok by done.
  assert (Hsame : ∀ x, ¬ in_page v x → phys s2 x = phys s x).
  { intros x Hx. unfold in_page, PGSIZE in Hx. simpl. rewrite stw_other by lia.
    unfold PGSIZE. rewrite memset_spec by lia. case_b; [lia|done]. }
  eexists. split; [done|]. split_and!; try done.
  split; simpl; try done; [|by apply NoDup_cons|by apply Forall_cons].
  split; [done|]. rewrite ldw_stw_eq.
  - apply (free_list_ext (kend s) (phys s)); [done| |done]. intros w x Hw Hx. apply Hsame.
    rewrite Forall_forall in Hp. apply (pages_apart (kend s) w v); [by apply Hp|done|congruence|done].
  - destruct l as [|w l]; simpl in Hf; [lia|]. destruct Hf as [-> _]. apply Forall_cons in Hp as [(_ & _ & Hw) _].
    unfold KERNBASE, PHYSTOP in *. lia.
Qed.

(** Freeing what is not a page of memory after the kernel. *)
Lemma kfree_panics s v : 0 ≤ v < 2 ^ 32 → KERNBASE ≤ kend s → ¬ page (kend s) v → kfree v s = Panic "kfree".
Proof.
  intros Hv He Hn. unfold kfree, mbind, cm_bind, gets. case_b; [done|]. exfalso. apply Hn.
  unfold V2P, u32 in H0. unfold page, KERNBASE, PHYSTOP in *. split_and!; try lia.
  rewrite Z.mod_small in H0 by lia. lia.
Qed.

(** ** [freerange] *)

Lemma pgroundup_mod a : 0 ≤ a → a + PGSIZE ≤ 2 ^ 32 → PGROUNDUP a mod PGSIZE = 0 ∧ a ≤ PGROUNDUP a < a + PGSIZE.
Proof.
  intros Ha Hb. unfold PGROUNDUP, u32. rewrite (Z.mod_small (a + PGSIZE - 1)) by (unfold PGSIZE in *; lia).
  change (PGSIZE - 1) with (Z.ones 12). rewrite <- Z.ldiff_land, Z.ldiff_ones_r, Z.shiftr_div_pow2, Z.shiftl_mul_pow2 by lia.
  change (2 ^ 12) with PGSIZE. unfold PGSIZE in *. dlia.
Qed.

(** The pages that [n] turns of the loop free, the last one first. *)
Definition range_pages (p : Z) (n : nat) : list Z := rev ((λ i, p + PGSIZE * Z.of_nat i) <$> seq 0 n).

Lemma range_pages_S p n : range_pages p (S n) = range_pages (p + PGSIZE) n ++ [p].
Proof.
  unfold range_pages. cbn [seq fmap list_fmap rev]. rewrite <- fmap_S_seq, <- list_fmap_compose. f_equal; [|f_equal; lia].
  f_equal. apply list_fmap_ext. intros i j _. unfold compose. lia.
Qed.

Lemma freerange_loop_ok n : ∀ fuel p vend s l,
  kmem_ok s l → (n ≤ fuel)%nat → p + PGSIZE * Z.of_nat n ≤ vend < p + PGSIZE * (Z.of_nat n + 1) →
  (∀ i, 0 ≤ i < Z.of_nat n → page (kend s) (p + PGSIZE * i) ∧ p + PGSIZE * i ∉ l) →
  ∃ s', freerange_loop fuel p vend s = Ok tt s' ∧ kmem_ok s' (range_pages p n ++ l) ∧ kend s' = kend s ∧
    use_lock s' = use_lock s.
Proof.
  induction n as [|n IH]; intros fuel p vend s l Hok Hf Hv Hp.
  - exists s. split_and!; try done. destruct fuel; cbn [freerange_loop];
      (rewrite (proj2 (Z.leb_gt (p + PGSIZE) vend)) by lia; done).
  - destruct fuel as [|fuel]; [lia|]. cbn [freerange_loop].
    rewrite (proj2 (Z.leb_le (p + PGSIZE) vend)) by (unfold PGSIZE in *; lia).
    destruct (Hp 0 ltac:(lia)) as [Hp0 Hn0]. rewrite Z.mul_0_r, Z.add_0_r in Hp0, Hn0.
    destruct (kfree_ok s l p Hok Hp0 Hn0) as (s1 & E1 & Hok1 & _ & He1 & Hu1).
    destruct (IH fuel (p + PGSIZE) vend s1 (p :: l) Hok1) as (s2 & E2 & Hok2 & He2 & Hu2);
      [lia|unfold PGSIZE in *; lia| |].
    { intros i Hi. rewrite He1. replace (p + PGSIZE + PGSIZE * i) with (p + PGSIZE * (i + 1)) by lia.
      destruct (Hp (i + 1) ltac:(lia)) as [H1 H2]. split; [done|]. apply not_elem_of_cons. split; [|done].
      unfold PGSIZE. lia. }
    exists s2. rewrite (bind_ok _ _ _ _ _ E1). split_and!; [done| |congruence|congruence].
    by rewrite range_pages_S, <- (assoc_L (++)).
Qed.

Lemma elem_of_range_pages p n v : v ∈ range_pages p n ↔ ∃ i, 0 ≤ i < Z.of_nat n ∧ v = p + PGSIZE * i.
Proof.
  unfold range_pages. rewrite elem_of_rev, list_elem_of_fmap. split.
  - intros (i & -> & Hi%elem_of_seq). exists (Z.of_nat i). lia.
  - intros (i & Hi & ->). exists (Z.to_nat i). split; [by rewrite Z2Nat.id by lia|]. apply elem_of_seq. lia.
Qed.

(** ** Clients *)

Inductive kop : Type := KAlloc | KFree (v : Z).

Fixpoint run_kops (ops : list kop) : cm kmem (list Z) :=
  match ops with
  | [] => mret []
  | KAlloc :: ops' => v ← kalloc; r ← run_kops ops'; mret (v :: r)
  | KFree v :: ops' => kfree v ;; run_kops ops'
  end.

(** The allocator as a stack of free pages [l] and the pages [h] in use; a client may
    free only a page it uses. *)
Fixpoint spec_kops (ops : list kop) (l h : list Z) : option (list Z * list Z * list Z) :=
  match ops with
  | [] => Some ([], l, h)
  | KAlloc :: ops' =>
      match l with
      | [] => r ← spec_kops ops' [] h; Some (0 :: r.1.1, r.1.2, r.2)
      | v :: l' => r ← spec_kops ops' l' (v :: h); Some (v :: r.1.1, r.1.2, r.2)
      end
  | KFree v :: ops' => if decide (v ∈ h) then spec_kops ops' (v :: l) (filter (λ w, w ≠ v) h) else None
  end.

Lemma filter_perm v (h : list Z) : NoDup h → v ∈ h → h ≡ₚ v :: filter (λ w, w ≠ v) h.
Proof.
  intros Hn Hv. apply NoDup_Permutation; [done| |].
  - apply NoDup_cons. split; [|by apply NoDup_filter]. intros Hx. by apply list_elem_of_filter in Hx as [? _].
  - intros w. rewrite elem_of_cons, list_elem_of_filter. destruct (decide (w = v)); naive_solver.
Qed.

Lemma run_kops_ok ops : ∀ s l h r l' h',
  kmem_ok s l → NoDup (l ++ h) → Forall (page (kend s)) h → spec_kops ops l h = Some (r, l', h') →
  ∃ s', run_kops ops s = Ok r s' ∧ kmem_ok s' l' ∧ kend s' = kend s ∧ l' ++ h' ≡ₚ l ++ h ∧
    ∀ x, (∀ v, v ∈ l ∨ KFree v ∈ ops → ¬ in_page v x) → phys s' x = phys s x.
Proof.
  induction ops as [|[|v] ops IH]; intros s l h r l' h' Hok Hn Hp Hs; cbn [run_kops spec_kops] in *.
  - injection Hs as <- <- <-. eexists. by split_and!.
  - destruct (kalloc_ok s l Hok) as (s1 & E1 & Hok1 & Em & Ee & _). rewrite (bind_ok _ _ _ _ _ E1).
    destruct l as [|v l]; cbn [hd tail] in *.
    + destruct (spec_kops ops [] h) as [[[r1 l1] h1]|] eqn:Es; [|done]. injection Hs as <- <- <-.
      destruct (IH s1 [] h r1 l1 h1 Hok1 Hn ltac:(by rewrite Ee) Es) as (s2 & E2 & Hok2 & Ee2 & Hperm & Hx).
      exists s2. rewrite (bind_ok _ _ _ _ _ E2). split_and!; try done; [congruence|].
      intros x Hv. rewrite Hx, Em; [done|]. intros w Hw. apply Hv. destruct Hw as [Hw|Hw]; [by left|right; by right].
    + destruct (spec_kops ops l (v :: h)) as [[[r1 l1] h1]|] eqn:Es; [|done]. injection Hs as <- <- <-.
      pose proof (km_pages _ _ Hok) as Hpl. apply Forall_cons in Hpl as [Hv _].
      destruct (IH s1 l (v :: h) r1 l1 h1 Hok1) as (s2 & E2 & Hok2 & Ee2 & Hperm & Hx);
        [|rewrite Ee; by apply Forall_cons|done|].
      { eapply NoDup_Permutation_proper; [|exact Hn]. cbn [app]. by rewrite Permutation_middle. }
      exists s2. rewrite (bind_ok _ _ _ _ _ E2). split_and!; try done; [congruence|rewrite Hperm; cbn [app]; by rewrite <- Permutation_middle|].
      intros x Hv'. rewrite Hx, Em; [done|]. intros w Hw. apply Hv'.
      destruct Hw as [Hw|Hw]; [left; by right|right; by right].
  - case_decide as Hv; [|done]. apply NoDup_app in Hn as (Hn1 & Hn2 & Hn3).
    assert (Hvl : v ∉ l) by (intros Hl; by apply (Hn2 v)).
    assert (Hpv : page (kend s) v) by (by eapply Forall_forall).
    destruct (kfree_ok s l v Hok Hpv Hvl) as (s1 & E1 & Hok1 & Hx1 & Ee & _). rewrite (bind_ok _ _ _ _ _ E1).
    pose proof (filter_perm v h Hn3 Hv) as Hperm1.
    assert (Hmid : (v :: l) ++ filter (λ w, w ≠ v) h ≡ₚ l ++ h).
    { cbn [app]. by rewrite Permutation_middle, <- Hperm1. }
    destruct (IH s1 (v :: l) (filter (λ w, w ≠ v) h) r l' h' Hok1) as (s2 & E2 & Hok2 & Ee2 & Hperm & Hx);
      [|rewrite Ee; rewrite Hperm1 in Hp; by apply Forall_cons in Hp as [_ Hp]|done|].
    { eapply NoDup_Permutation_proper; [exact Hmid|]. by apply NoDup_app. }
    exists s2. split_and!; try done; [congruence| |].
    + by rewrite Hperm.
    + intros x Hv'. rewrite Hx, Hx1; [done| |].
      * apply Hv'. right. left.
      * intros w Hw. apply Hv'. rewrite elem_of_cons in Hw. destruct Hw as [[->|Hw]|Hw];
          [right; left|by left|right; by right].
Qed.

(** C27: The page allocator never gives a page out twice.  Whatever sequence of
    [kalloc] and [kfree] a client runs, freeing only pages it was given, no call
    panics; the pages come in the order of a stack, 0 when there are none left; free
    pages and pages in use stay disjoint and none is lost; and no byte changes
    outside the pages that are free or freed. *)
Theorem kalloc_refines ops s l h r l' h' :
  kmem_ok s l → NoDup (l ++ h) → Forall (page (kend s)) h → spec_kops ops l h = Some (r, l', h') →
  returns (run_kops ops s) (λ r' s', r' = r ∧ kmem_ok s' l' ∧ NoDup (l' ++ h') ∧ l' ++ h' ≡ₚ l ++ h ∧
    ∀ x, (∀ v, v ∈ l ∨ KFree v ∈ ops → ¬ in_page v x) → phys s' x = phys s x).
Proof.
  intros Hok Hn Hp Hs. destruct (run_kops_ok ops s l h r l' h' Hok Hn Hp Hs) as (s' & E & Hok' & _ & Hperm & Hx).
  rewrite E. simpl. split_and!; try done. by rewrite Hperm.
Qed.

(** [freerange] puts exactly the whole pages of its range on the free list. *)
Lemma freerange_ok s l vstart vend :
  kmem_ok s l → kend s ≤ vstart ≤ vend → PGROUNDUP vstart ≤ vend ≤ KERNBASE + PHYSTOP →
  (∀ v, v ∈ l → ¬ (vstart ≤ v < vend)) →
  returns (freerange vstart vend s) (λ _ s', ∃ l', kmem_ok s' (l' ++ l) ∧
    ∀ v, v ∈ l' ↔ v mod PGSIZE = 0 ∧ vstart ≤ v ∧ v + PGSIZE ≤ vend).
Proof.
  intros Hok He Hv Hl. pose proof (km_end _ _ Hok) as Hk. unfold KERNBASE, PHYSTOP in *.
  destruct (pgroundup_mod vstart) as [Hm Hr]; [lia|unfold PGSIZE; lia|]. set (p := PGROUNDUP vstart) in *.
  set (n := Z.to_nat ((vend - p) / PGSIZE)).
  assert (Hn : p + PGSIZE * Z.of_nat n ≤ vend < p + PGSIZE * (Z.of_nat n + 1)) by (unfold n, PGSIZE in *; dlia).
  destruct (freerange_loop_ok n (Z.to_nat (vend / PGSIZE)) p vend s l Hok) as (s' & E & Hok' & _);
    [unfold n, PGSIZE in *; dlia|done| |].
  { intros i Hi. unfold page, KERNBASE, PHYSTOP, PGSIZE in *. split; [split_and!; dlia|].
    intros Hin. apply (Hl _ Hin). lia. }
  unfold freerange. fold p. rewrite E. simpl. exists (range_pages p n). split; [done|]. intros v.
  rewrite elem_of_range_pages. split.
  - intros (i & Hi & ->). unfold PGSIZE in *. split_and!; dlia.
  - intros (Hv1 & Hv2 & Hv3). exists ((v - p) / PGSIZE). unfold PGSIZE in *. dlia.
Qed.

(** ** Witnesses *)

(** A machine with three free pages after the kernel, and one in use. *)
Definition ex_base : Z := KERNBASE + EXTMEM.
Definition ex_kmem : kmem :=
  let m := stw (stw (stw (λ _, 0) EXTMEM (ex_base + 4096)) (EXTMEM + 4096) (ex_base + 8192)) (EXTMEM + 8192) 0 in
  Kmem m ex_base true false ex_base.
Definition ex_free : list Z := [ex_base; ex_base + 4096; ex_base + 8192].

Lemma kalloc_refines_witness :
  returns (run_kops [KAlloc; KAlloc; KFree ex_base; KAlloc; KAlloc; KAlloc] ex_kmem) (λ r _,
    r = [ex_base; ex_base + 4096; ex_base; ex_base + 8192; 0]).
Proof.
  eapply returns_mono.
  - apply (kalloc_refines _ ex_kmem ex_free [ex_base + 12288]
      [ex_base; ex_base + 4096; ex_base; ex_base + 8192; 0] [] [ex_base + 8192; ex_base; ex_base + 4096; ex_base + 12288]).
    + split; [by vm_compute|done|by vm_compute| |].
      * apply (bool_decide_unpack _). by vm_compute.
      * repeat constructor; by vm_compute.
    + apply (bool_decide_unpack _). by vm_compute.
    + repeat constructor; by vm_compute.
    + by vm_compute.
  - intros r s' (-> & _). done.
Defined.
