(* ===== verification/Mp.v ===== *)
(** * The multiprocessor tables

    [src/mp.c]: the search for the tables that the firmware leaves in memory, and what [mpinit] takes from them.  Memory is the bytes at
    kernel addresses; pointers are 32-bit numbers.

    Theorem: [mpinit] finds the processors, the I/O APIC and the address of the local APIC that a table with known entries lists;
    an entry of an unknown type makes it run forever. *)
From S2P Require Import Prelude CString Bytes Ata Kalloc.

Definition NCPU : nat := 8.
Definition MPPROC : Z := 0x00.
Definition MPBUS : Z := 0x01.
Definition MPIOAPIC : Z := 0x02.
Definition MPIOINTR : Z := 0x03.
Definition MPLINTR : Z := 0x04.
(** The sizes of [struct mp], [struct mpconf], [struct mpproc] and [struct mpioapic]. *)
Definition mp_size : Z := 16.
Definition mpconf_size : Z := 44.
Definition mpproc_size : Z := 20.
Definition mpioapic_size : Z := 8.

Definition bytes_at (m : memory) (a : Z) (n : nat) : list Z := (λ j, m (a + Z.of_nat j)) <$> seq 0 n.

Fixpoint sum_loop (m : memory) (addr : Z) (n : nat) (s : Z) : Z :=
  match n with
  | O => s
  | S n' => sum_loop m (addr + 1) n' (i32 (s + m addr))
  end.
Definition sum (m : memory) (addr len : Z) : Z := u8 (sum_loop m addr (Z.to_nat len) 0).

(** [memcmp] with a signature of four characters. *)
Definition signed (m : memory) (a : Z) (sig : list Z) : bool := bool_decide (memcmp (bytes_at m a 4) sig 4 = Some 0).
Definition sig_mp : list Z := [95; 77; 80; 95].
Definition sig_pcmp : list Z := [80; 67; 77; 80].

Fixpoint mpsearch1_loop (fuel : nat) (m : memory) (p e : Z) : option Z :=
  if p <? e then
    match fuel with
    | O => None
    | S f => if signed m p sig_mp && (sum m p mp_size =? 0) then Some p else mpsearch1_loop f m (u32 (p + mp_size)) e
    end
  else Some 0.

(** The pointer found, or 0; there is a step for every 16 bytes. *)
Definition mpsearch1 (m : memory) (a len : Z) : option Z :=
  let addr := P2V a in
  mpsearch1_loop (Z.to_nat (len / mp_size + 1)) m addr (u32 (addr + len)).

Definition mpsearch (m : memory) : option Z :=
  let bda := P2V 0x400 in
  let p := Z.shiftl (Z.lor (Z.shiftl (m (bda + 0x0F)) 8) (m (bda + 0x0E))) 4 in
  match (if negb (p =? 0) then mpsearch1 m p 1024
         else let p := u32 (Z.lor (Z.shiftl (m (bda + 0x14)) 8) (m (bda + 0x13)) * 1024) in mpsearch1 m (u32 (p - 1024)) 1024) with
  | None => None
  | Some mp => if negb (mp =? 0) then Some mp else mpsearch1 m 0xF0000 0x10000
  end.

(** The table and the structure that points to it, or nothing. *)
Definition mpconfig (m : memory) : option (option (Z * Z)) :=
  match mpsearch m with
  | None => None
  | Some mp =>
      if (mp =? 0) || (field 4 m (mp + 4) =? 0) then Some None else
      let conf := P2V (field 4 m (mp + 4)) in
      if negb (signed m conf sig_pcmp) then Some None else
      let version := field 1 m (conf + 6) in
      if negb (version =? 1) && negb (version =? 4) then Some None else
      if negb (sum m conf (field 2 m (conf + 4)) =? 0) then Some None else
      Some (Some (conf, mp))
  end.

Section mp.
Context {C : Type} {ports : Ports C}.

(** [cpus]: the [apicid] of the processors found, of which there are [ncpu]. *)
Record mps : Type := Mps { cpus : list Z; ioapicid : Z; lapic : Z; mp_ctl : C }.

(** The loop over the entries of the table; the result is [ismp]. *)
Fixpoint mp_entries (fuel : nat) (m : memory) (p e : Z) (ismp : bool) : cm mps bool :=
  if p <? e then
    match fuel with
    | O => ub "loop"
    | S f =>
        let t := m p in
        if t =? MPPROC then
          modify (λ s, if (length (cpus s) <? NCPU)%nat then Mps (cpus s ++ [m (p + 1)]) (ioapicid s) (lapic s) (mp_ctl s) else s) ;;
          mp_entries f m (u32 (p + mpproc_size)) e ismp
        else if t =? MPIOAPIC then
          modify (λ s, Mps (cpus s) (m (p + 1)) (lapic s) (mp_ctl s)) ;;
          mp_entries f m (u32 (p + mpioapic_size)) e ismp
        else if (t =? MPBUS) || (t =? MPIOINTR) || (t =? MPLINTR) then mp_entries f m (u32 (p + 8)) e ismp
        else mp_entries f m p e false
    end
  else mret ismp.

Definition mp_out (p v : Z) : cm mps unit := modify (λ s, Mps (cpus s) (ioapicid s) (lapic s) (outb p v (mp_ctl s))).
Definition mp_in (p : Z) : cm mps Z := λ s, let r := inb p (mp_ctl s) in Ok r.1 (Mps (cpus s) (ioapicid s) (lapic s) r.2).

Definition mpinit (m : memory) : cm mps unit :=
  match mpconfig m with
  | None => ub "loop"
  | Some None => panic "Expect to run on an SMP"
  | Some (Some (conf, mp)) =>
      modify (λ s, Mps (cpus s) (ioapicid s) (field 4 m (conf + 36)) (mp_ctl s)) ;;
      let len := field 2 m (conf + 4) in
      ismp ← mp_entries (Z.to_nat len) m (u32 (conf + mpconf_size)) (u32 (conf + len)) true;
      if negb ismp then panic "Didn't find a suitable machine" else
      if negb (m (mp + 12) =? 0) then
        mp_out 0x22 0x70 ;;
        r ← mp_in 0x23;
        mp_out 0x23 (u8 (Z.lor r 1))
      else mret tt
  end.
End mp.

(** ** The search ends *)

Lemma mpsearch1_loop_total m n : ∀ fuel p e,
  (n ≤ fuel)%nat → e ≤ p + mp_size * Z.of_nat n → 0 ≤ p → e + mp_size < 2 ^ 32 → is_Some (mpsearch1_loop fuel m p e).
Proof.
  induction n as [|n IH]; intros fuel p e Hf He Hp Hw.
  - destruct fuel; cbn [mpsearch1_loop]; rewrite (proj2 (Z.ltb_ge p e)) by lia; by eexists.
  - destruct fuel as [|fuel]; [lia|]. cbn [mpsearch1_loop].
    destruct (Z.ltb_spec p e); [|by eexists]. destruct (_ && _); [by eexists|]. unfold mp_size in *. rewrite u32_small by lia. apply IH; lia.
Qed.

Lemma mpsearch1_total m a len : 0 ≤ a → 0 ≤ len → a + len < 2 ^ 31 - 32 → is_Some (mpsearch1 m a len).
Proof.
  intros Ha Hl Hs. unfold mpsearch1, P2V, KERNBASE, mp_size. rewrite !u32_small by lia.
  apply (mpsearch1_loop_total m (Z.to_nat (len / 16 + 1))); unfold mp_size; try lia. rewrite Z2Nat.id by dlia. dlia.
Qed.

(** For a base memory of at least a kilobyte, or an extended data area, the search ends. *)
Lemma mpsearch_total m :
  (∀ x, 0 ≤ m x < 256) → 0 < Z.lor (Z.shiftl (m (P2V 0x400 + 0x0F)) 8) (m (P2V 0x400 + 0x0E)) ∨ 0 < m (P2V 0x400 + 0x13) →
  is_Some (mpsearch m).
Proof.
  intros Hm Hb. assert (W : ∀ x y, Z.lor (Z.shiftl (m x) 8) (m y) = m x * 256 + m y).
  { intros x y. pose proof (Hm x). pose proof (Hm y). rewrite Z.shiftl_mul_pow2 by lia. apply (lor_shiftl_add (m x) (m y) 8); [lia|done]. }
  unfold mpsearch. rewrite !W in *. set (bda := P2V 0x400) in *. rewrite Z.shiftl_mul_pow2 by lia. change (2 ^ 4) with 16.
  pose proof (Hm (bda + 0x0F)). pose proof (Hm (bda + 0x0E)). pose proof (Hm (bda + 0x13)). pose proof (Hm (bda + 0x14)).
  assert (is_Some (mpsearch1 m 0xF0000 0x10000)) as [q Eq] by (apply mpsearch1_total; lia).
  match goal with |- is_Some match ?X with _ => _ end => assert (is_Some X) as [mp ->] end.
  - destruct (Z.eqb_spec ((m (bda + 15) * 256 + m (bda + 14)) * 16) 0); cbn [negb].
    + rewrite (u32_small (_ * 1024)) by lia. rewrite u32_small by lia. apply mpsearch1_total; lia.
    + apply mpsearch1_total; lia.
  - destruct (negb _); [by eexists|]. rewrite Eq. by eexists.
Qed.

(** ** Tables

    The entries of a table, with the bytes that are not looked at. *)
Inductive entry : Type :=
| Cpu (apicid : Z) (rest : list Z) | Bus (rest : list Z) | Ioapic (apicno : Z) (rest : list Z) | Iointr (rest : list Z) | Lintr (rest : list Z).

Definition entry_bytes (x : entry) : list Z :=
  match x with
  | Cpu a r => MPPROC :: a :: r
  | Bus r => MPBUS :: r
  | Ioapic a r => MPIOAPIC :: a :: r
  | Iointr r => MPIOINTR :: r
  | Lintr r => MPLINTR :: r
  end.
Definition entry_ok (x : entry) : Prop :=
  length (entry_bytes x) = match x with Cpu _ _ => 20%nat | _ => 8%nat end.

Definition entry_cpus (x : entry) : list Z := match x with Cpu a _ => [a] | _ => [] end.
Definition entry_ioapic (id : Z) (x : entry) : Z := match x with Ioapic a _ => a | _ => id end.

(** The bytes [l] are at [a]. *)
Definition at_addr (m : memory) (a : Z) (l : list Z) : Prop := ∀ j b, l !! j = Some b → m (a + Z.of_nat j) = b.

Lemma at_addr_app m a l r : at_addr m a (l ++ r) → at_addr m a l ∧ at_addr m (a + Z.of_nat (length l)) r.
Proof.
  intros H. split; intros j b E.
  - apply H. by apply lookup_app_l_Some.
  - rewrite <- Z.add_assoc, <- Nat2Z.inj_add. apply H. rewrite lookup_app_r by lia. by replace (length l + j - length l)%nat with j by lia.
Qed.

Lemma at_addr_cons m a b l : at_addr m a (b :: l) → m a = b ∧ at_addr m (a + 1) l.
Proof.
  intros H. split; [rewrite <- (H 0%nat b eq_refl); f_equal; lia|]. intros j c E. rewrite <- (H (S j) c E). f_equal. lia.
Qed.

Lemma entries_long es : Forall entry_ok es → (length es ≤ length (mjoin (entry_bytes <$> es)))%nat.
Proof.
  induction 1 as [|x es Hx _ IH]; [done|]. change (mjoin (entry_bytes <$> x :: es)) with (entry_bytes x ++ mjoin (entry_bytes <$> es)).
  rewrite length_app, Hx. cbn. destruct x; lia.
Qed.

Section mpinit.
Context {C : Type} {ports : Ports C}.
Abbreviation mps := (@mps C).

Definition found (s : mps) (es : list entry) : mps :=
  Mps (take NCPU (cpus s ++ mjoin (entry_cpus <$> es))) (foldl entry_ioapic (ioapicid s) es) (lapic s) (mp_ctl s).

Lemma mp_entries_ok es : ∀ fuel m p e ismp (s : mps),
  Forall entry_ok es → at_addr m p (mjoin (entry_bytes <$> es)) → e = p + Z.of_nat (length (mjoin (entry_bytes <$> es))) →
  0 ≤ p → e < 2 ^ 32 → (length es ≤ fuel)%nat → (length (cpus s) ≤ NCPU)%nat →
  mp_entries fuel m p e ismp s = Ok ismp (found s es).
Proof.
  induction es as [|x es IH]; intros fuel m p e ismp s Ho Ha He Hp Hw Hf Hn.
  - cbn in He. assert ((p <? e) = false) as E by (apply Z.ltb_ge; lia). assert (Es : found s [] = s).
    { unfold found. cbn. rewrite app_nil_r, take_ge by done. by destruct s. }
    rewrite Es. by destruct fuel; cbn [mp_entries]; rewrite E.
  - apply Forall_cons in Ho as [Hx Ho]. change (mjoin (entry_bytes <$> x :: es)) with (entry_bytes x ++ mjoin (entry_bytes <$> es)) in *.
    apply at_addr_app in Ha as [Hx' Ha]. rewrite length_app in He. destruct fuel as [|fuel]; [cbn in Hf; lia|]. cbn [mp_entries].
    assert (Hlen : Z.of_nat (length (entry_bytes x)) = match x with Cpu _ _ => 20 | _ => 8 end) by (rewrite Hx; by destruct x).
    rewrite (proj2 (Z.ltb_lt p e)) by (destruct x; lia).
    assert (Hnext : ∀ d s', d = Z.of_nat (length (entry_bytes x)) → (length (cpus s') ≤ NCPU)%nat → found s' es = found s (x :: es) →
      mp_entries fuel m (u32 (p + d)) e ismp s' = Ok ismp (found s (x :: es))).
    { intros d s' -> Hn' <-. rewrite u32_small by lia. apply IH; try done; try lia. cbn in Hf. lia. }
    destruct x as [a r|r|a r|r|r]; cbn [entry_bytes] in Hx'; apply at_addr_cons in Hx' as [Et Hx']; rewrite Et; cbn [Z.eqb MPPROC MPIOAPIC MPBUS MPIOINTR MPLINTR Pos.eqb orb].
    + apply at_addr_cons in Hx' as [Ea _]. rewrite bind_modify, Ea. apply Hnext; [done|..]; destruct (Nat.ltb_spec (length (cpus s)) NCPU); cbn [cpus].
      * rewrite length_app. cbn. lia.
      * done.
      * unfold found. cbn. by rewrite <- app_assoc.
      * unfold found, NCPU in *. cbn. rewrite !take_app_le by lia. done.
    + by apply Hnext.
    + apply at_addr_cons in Hx' as [Ea _]. rewrite bind_modify, Ea. by apply Hnext.
    + by apply Hnext.
    + by apply Hnext.
Qed.

(** An entry of an unknown type: the [break] in [default] leaves the [switch], not the loop, and [p] stays where it is. *)
Lemma mp_entries_diverges fuel m p e ismp (s : mps) :
  p < e → 4 < m p → mp_entries fuel m p e ismp s = Ub "loop".
Proof.
  intros Hp Hm. revert ismp. induction fuel as [|fuel IH]; intros ismp; cbn [mp_entries]; rewrite (proj2 (Z.ltb_lt p e) Hp); [done|].
  unfold MPPROC, MPIOAPIC, MPBUS, MPIOINTR, MPLINTR. rewrite !(proj2 (Z.eqb_neq (m p) _)) by lia. apply IH.
Qed.
End mpinit.

(** [mpinit] takes the machine from the tables.  It panics if the search finds no table; and a table it accepts has its signature, a version it knows
    and bytes that add up to 0 modulo 256.  If the rest of the table is a list of entries of the five types, [mpinit] returns with the first eight
    processors of the table, in its order, the last I/O APIC and the address of the local APIC. *)
Theorem mpinit_takes {C} `{!Ports C} m (s : @mps C) :
  (mpconfig m = Some None → mpinit m s = Panic "Expect to run on an SMP") ∧
  (∀ conf mp, mpconfig m = Some (Some (conf, mp)) →
    let len := field 2 m (conf + 4) in
    bytes_at m conf 4 = sig_pcmp ∧ field 1 m (conf + 6) ∈ [1; 4] ∧ sum m conf len = 0 ∧ conf = P2V (field 4 m (mp + 4)) ∧
    ∀ es, cpus s = [] → 0 ≤ conf → Forall entry_ok es → at_addr m (conf + mpconf_size) (mjoin (entry_bytes <$> es)) →
      len = mpconf_size + Z.of_nat (length (mjoin (entry_bytes <$> es))) → conf + len < 2 ^ 32 →
      ∃ s', mpinit m s = Ok tt s' ∧ cpus s' = take NCPU (mjoin (entry_cpus <$> es)) ∧
        ioapicid s' = foldl entry_ioapic (ioapicid s) es ∧ lapic s' = field 4 m (conf + 36)).
Proof.
  split; [intros E; unfold mpinit; by rewrite E|]. intros conf mp E len. unfold mpinit. rewrite E. unfold mpconfig in E.
  destruct (mpsearch m) as [q|]; [|done]. destruct ((q =? 0) || _); [done|].
  destruct (signed m _ sig_pcmp) eqn:Es; [|done]. cbn [negb] in E. set (conf' := P2V _) in *.
  destruct (negb (field 1 m (conf' + 6) =? 1) && negb (field 1 m (conf' + 6) =? 4)) eqn:Ev; [done|].
  destruct (Z.eqb_spec (sum m conf' (field 2 m (conf' + 4))) 0) as [Hs|]; [|done]. cbn [negb] in E. injection E as <- <-.
  split_and!; [|by destruct (Z.eqb_spec (field 1 m (conf' + 6)) 1), (Z.eqb_spec (field 1 m (conf' + 6)) 4); try done; set_solver|done|done|].
  - apply bool_decide_eq_true in Es. unfold bytes_at in *. cbn in Es |- *. unfold sig_pcmp.
    repeat match type of Es with context [negb (?a =? ?b)] => destruct (Z.eqb_spec a b); cbn [negb] in Es; [|injection Es as Es; lia] end. congruence.
  - intros es Hc H0 Ho Ha Hl Hw. rewrite bind_modify. unfold mpconf_size in *. fold len. rewrite !u32_small by lia.
    pose proof (entries_long es Ho) as Hlong.
    erewrite bind_ok; [|apply (mp_entries_ok es); cbn [cpus]; try done; try lia; rewrite Hc; cbn; lia].
    cbn [negb]. unfold found. cbn [cpus ioapicid lapic mp_ctl]. rewrite Hc, app_nil_l.
    destruct (m (q + 12) =? 0); cbn [negb]; [by eexists|]. unfold mp_out, mp_in, mbind, cm_bind, modify. cbn. by eexists.
Qed.

(** ** A machine with two processors *)
Module MpExample.
Import AtaExample.

Definition zs (n : nat) : list Z := replicate n 0.
Definition pointer : list Z := sig_mp ++ [0; 32; 0; 0; 1; 4; 128; 0; 0; 0; 0; 0].
Definition entries : list entry := [Cpu 0 (zs 18); Cpu 1 (zs 18); Bus (zs 7); Ioapic 2 (zs 6)].
Definition table : list Z :=
  sig_pcmp ++ [100; 0; 4; 128] ++ zs 26 ++ [4; 0; 0; 0; 224; 254] ++ zs 4 ++ mjoin (entry_bytes <$> entries).

(** The extended data area is at 0x1000, the table at 0x2000. *)
Definition firmware (x : Z) : Z :=
  if x =? P2V 0x40F then 1
  else if (P2V 0x1000 <=? x) && (x <? P2V 0x1010) then default 0 (pointer !! Z.to_nat (x - P2V 0x1000))
  else if (P2V 0x2000 <=? x) && (x <? P2V 0x2064) then default 0 (table !! Z.to_nat (x - P2V 0x2000))
  else 0.

Definition before : @mps chip := Mps [] 0 0 (Chip (Ata (λ dr, dr =? 0) (λ _ _, []) (λ _, 0) Idle) 0 false).

Lemma firmware_table : at_addr firmware (P2V 0x2000 + mpconf_size) (mjoin (entry_bytes <$> entries)).
Proof.
  intros j b E. pose proof (lookup_lt_Some _ _ _ E) as Hj. change (length (mjoin (entry_bytes <$> entries))) with 56%nat in Hj.
  assert (Hf : forallb (λ k, firmware (P2V 0x2000 + mpconf_size + k) =? default 0 (mjoin (entry_bytes <$> entries) !! Z.to_nat k)) (seqZ 0 56) = true)
    by reflexivity.
  pose proof (range_forall _ 56 Hf (Z.of_nat j) ltac:(lia)) as H. cbn beta in H. rewrite Nat2Z.id, E in H. by apply Z.eqb_eq in H.
Qed.

Lemma mpinit_takes_witness : ∃ s',
  mpinit firmware before = Ok tt s' ∧ cpus s' = [0; 1] ∧ ioapicid s' = 2 ∧ lapic s' = 0xFEE00000.
Proof.
  assert (E : mpconfig firmware = Some (Some (P2V 0x2000, P2V 0x1000))) by (vm_compute; reflexivity).
  assert (El : field 4 firmware (P2V 0x2000 + 36) = 0xFEE00000) by (vm_compute; reflexivity).
  assert (En : field 2 firmware (P2V 0x2000 + 4) = mpconf_size + Z.of_nat (length (mjoin (entry_bytes <$> entries)))) by (vm_compute; reflexivity).
  destruct (mpinit_takes firmware before) as [_ H]. destruct (H _ _ E) as (_ & _ & _ & _ & H'). rewrite El in H'.
  apply (H' entries); [reflexivity|by vm_compute| |exact firmware_table|exact En|rewrite En; by vm_compute].
  by repeat constructor.
Defined.
End MpExample.
