(* ===== verification/Spinlock.v ===== *)
(** * Spinlocks between CPUs

    [src/spinlock.c] as several CPUs run it.  [cpus i] is [struct cpu] of CPU [i] with its interrupt flag and the point it
    has reached; [locks a] the [struct spinlock] at address [a].  Every access to [locked] and [cpu] of a lock is a
    step of its own, and the steps of the CPUs interleave freely; memory is sequentially consistent, as the fences of the code are there to
    ensure.  Between calls a CPU may call [acquire] or [release] on any lock.

    Theorems: a lock is held by one CPU at a time, with interrupts off; the calls panic on misuse only; interrupts come
    back when the last lock is released. *)
From S2P Require Import Prelude Kalloc.

Record spinlock : Type := Lock { locked : Z; lk_cpu : option Z; pcs : list Z }.

(** Where a CPU is.  [AHolding b], [RHolding b]: in [holding], having read [b] from [locked]. *)
Inductive pc : Type :=
| Run
| APushed (lk : Z) | AHolding (lk : Z) (b : Z) | AHeld (lk : Z) (r : bool) | ASpin (lk : Z) | AGot (lk : Z)
| RHolding (lk : Z) (b : Z) | RHeld (lk : Z) (r : bool) | RCleared (lk : Z) | RStored (lk : Z)
| Panicked (msg : string).

Record cpu : Type := Cpu { ncli : Z; intena : bool; fl_if : bool; at_pc : pc }.

Record machine : Type := Machine { cpus : Z → cpu; locks : Z → spinlock }.

Definition initlock : spinlock := Lock 0 None (replicate 10 0).

(** [readeflags] and [cli], then the count: one step, since only this CPU uses them and interrupts are off after [cli]. *)
Definition pushcli (c : cpu) : cpu :=
  Cpu (ncli c + 1) (if ncli c =? 0 then fl_if c else intena c) false (at_pc c).

(** The new state, or the message of the panic. *)
Definition popcli (c : cpu) : cpu + string :=
  if fl_if c then inr "popcli - interruptible" else
  if ncli c - 1 <? 0 then inr "popcli" else
  inl (Cpu (ncli c - 1) (intena c) (if (ncli c - 1 =? 0) && intena c then true else fl_if c) (at_pc c)).

Definition goto (p : pc) (c : cpu) : cpu := Cpu (ncli c) (intena c) (fl_if c) p.

(** [popcli] and on to [p]. *)
Definition pop_goto (p : pc) (c : cpu) : cpu :=
  match popcli c with inl c' => goto p c' | inr msg => goto (Panicked msg) c end.

(** The saved program counters along the [ebp] chain of the stack [m]. *)
Fixpoint caller_loop (n : nat) (m : Z → Z) (ebp : Z) : list Z :=
  match n with
  | O => []
  | S n' =>
      if (ebp =? 0) || (ebp <? KERNBASE) || (ebp =? 0xffffffff) then replicate n 0
      else m (u32 (ebp + 4)) :: caller_loop n' m (m ebp)
  end.
Definition getcallerpcs (m : Z → Z) (v : Z) : list Z := caller_loop 10 m (u32 (v - 8)).

Definition set_cpu (i : Z) (c : cpu) (s : machine) : machine := Machine (upd (cpus s) i c) (locks s).
Definition set_lock (a : Z) (l : spinlock) (s : machine) : machine := Machine (cpus s) (upd (locks s) a l).

(** [holding]: the two reads. *)
Definition owns (i : Z) (b : Z) (l : spinlock) : bool := negb (b =? 0) && bool_decide (lk_cpu l = Some i).

(** One step of CPU [i], which is at [p]. *)
Inductive at_step (i : Z) (s : machine) (c : cpu) : pc → machine → Prop :=
| step_acquire lk : at_step i s c Run (set_cpu i (goto (APushed lk) (pushcli c)) s)
| step_acq_locked lk :
    at_step i s c (APushed lk) (set_cpu i (goto (AHolding lk (locked (locks s lk))) (pushcli c)) s)
| step_acq_cpu lk b :
    at_step i s c (AHolding lk b) (set_cpu i (pop_goto (AHeld lk (owns i b (locks s lk))) c) s)
| step_acq_panic lk : at_step i s c (AHeld lk true) (set_cpu i (goto (Panicked "acquire") c) s)
| step_acq_go lk : at_step i s c (AHeld lk false) (set_cpu i (goto (ASpin lk) c) s)
| step_xchg lk :
    let l := locks s lk in
    at_step i s c (ASpin lk)
      (set_lock lk (Lock 1 (lk_cpu l) (pcs l)) (set_cpu i (goto (if locked l =? 0 then AGot lk else ASpin lk) c) s))
| step_record lk m v :
    at_step i s c (AGot lk)
      (set_lock lk (Lock (locked (locks s lk)) (Some i) (getcallerpcs m v)) (set_cpu i (goto Run c) s))
| step_release lk : at_step i s c Run (set_cpu i (goto (RHolding lk (locked (locks s lk))) (pushcli c)) s)
| step_rel_cpu lk b :
    at_step i s c (RHolding lk b) (set_cpu i (pop_goto (RHeld lk (owns i b (locks s lk))) c) s)
| step_rel_panic lk : at_step i s c (RHeld lk false) (set_cpu i (goto (Panicked "release") c) s)
| step_clear lk :
    let l := locks s lk in
    at_step i s c (RHeld lk true)
      (set_lock lk (Lock (locked l) None (<[0%nat := 0]> (pcs l))) (set_cpu i (goto (RCleared lk) c) s))
| step_store lk :
    let l := locks s lk in
    at_step i s c (RCleared lk) (set_lock lk (Lock 0 (lk_cpu l) (pcs l)) (set_cpu i (goto (RStored lk) c) s))
| step_pop lk : at_step i s c (RStored lk) (set_cpu i (pop_goto Run c) s).

Definition step (i : Z) (s s' : machine) : Prop := at_step i s (cpus s i) (at_pc (cpus s i)) s'.

(** The start: no lock held, [sti] as [f] has it. *)
Definition start (f : Z → bool) : machine := Machine (λ i, Cpu 0 false (f i) Run) (λ _, initlock).

Inductive reachable (f : Z → bool) : machine → Prop :=
| reach_start : reachable f (start f)
| reach_step i s s' : reachable f s → step i s s' → reachable f s'.

(** CPU [i] holds the lock [lk]: from the [xchg] that took it to the store that gives it back. *)
Definition has (s : machine) (i lk : Z) : Prop :=
  locked (locks s lk) ≠ 0 ∧
  match at_pc (cpus s i) with
  | AGot lk' | RCleared lk' => lk' = lk ∨ lk_cpu (locks s lk) = Some i
  | _ => lk_cpu (locks s lk) = Some i
  end.

(** ** The invariant *)

(** How many [pushcli] are pending besides those of the locks held. *)
Definition pending (p : pc) : Z :=
  match p with
  | APushed _ | AHeld _ _ | ASpin _ | RHolding _ _ | RStored _ => 1
  | AHolding _ _ => 2
  | _ => 0
  end.

(** What the point in the code says about the [cpu] field of the lock; [mine]: it names this CPU. *)
Definition knows (p : pc) (mine : Z → Prop) (held : gset Z) : Prop :=
  match p with
  | AHolding lk b | RHolding lk b => mine lk → b ≠ 0
  | AHeld lk r | RHeld lk r => r = true ↔ mine lk
  | ASpin lk => ¬ mine lk
  | AGot lk | RCleared lk => lk ∈ held ∧ ¬ mine lk
  | _ => True
  end.

Definition between (p : pc) (lk : Z) : Prop := p = AGot lk ∨ p = RCleared lk.

Record cpu_inv (f : bool) (c : cpu) (mine : Z → Prop) (held : gset Z) : Prop := {
  ci_count : ncli c = Z.of_nat (size held) + pending (at_pc c);
  ci_off : 0 < ncli c → fl_if c = false ∧ intena c = f;
  ci_on : ncli c = 0 → fl_if c = f;
  ci_knows : knows (at_pc c) mine held;
  ci_mine lk : mine lk → lk ∈ held;
  ci_held lk : lk ∈ held → mine lk ∨ between (at_pc c) lk
}.

Definition stopped (c : cpu) : Prop := ∃ msg, at_pc c = Panicked msg.

(** [held i]: the locks CPU [i] has. *)
Record inv (f : Z → bool) (s : machine) (held : Z → gset Z) : Prop := {
  iv_free lk : locked (locks s lk) = 0 ↔ ∀ i, lk ∉ held i;
  iv_one i j lk : lk ∈ held i → lk ∈ held j → i = j;
  iv_cpu i lk : lk_cpu (locks s lk) = Some i → lk ∈ held i;
  iv_inv i : stopped (cpus s i) ∨ cpu_inv (f i) (cpus s i) (λ lk, lk_cpu (locks s lk) = Some i) (held i)
}.

Lemma cpu_inv_ext f c P Q h : (∀ lk, P lk ↔ Q lk) → cpu_inv f c P h → cpu_inv f c Q h.
Proof.
  intros H [I1 I2 I3 I4 I5 I6]. split; try done.
  - unfold knows in *. destruct (at_pc c); try done; by rewrite <- H.
  - intros lk. rewrite <- H. apply I5.
  - intros lk. rewrite <- H. apply I6.
Qed.

(** A step that changes CPU [i] only. *)
Lemma inv_local f s held i c :
  inv f s held → stopped c ∨ cpu_inv (f i) c (λ lk, lk_cpu (locks s lk) = Some i) (held i) → inv f (set_cpu i c s) held.
Proof.
  intros [Hf Ho Hc Hi] H. split; try done. intros j. cbn. unfold upd. case_b; [by subst|]. apply Hi.
Qed.

(** A step of CPU [i] on the lock [a]. *)
Lemma inv_lock f s held i c a l h :
  inv f s held →
  (∀ lk, lk ≠ a → lk ∈ h ↔ lk ∈ held i) → (∀ j, j ≠ i → a ∉ held j) → (locked l = 0 ↔ a ∉ h) →
  (lk_cpu l = Some i → a ∈ h) → (∀ j, j ≠ i → lk_cpu l ≠ Some j) →
  cpu_inv (f i) c (λ lk, (if lk =? a then lk_cpu l else lk_cpu (locks s lk)) = Some i) h →
  inv f (set_lock a l (set_cpu i c s)) (upd held i h).
Proof.
  intros [Hf Ho Hc Hi] Hh Hot Hfree Hcpu Hcpu' Hci.
  assert (Hu : ∀ j lk, lk ∈ upd held i h j ↔ if decide (lk = a) then j = i ∧ a ∈ h else lk ∈ held j).
  { intros j lk. destruct (decide (j = i)) as [->|Hj]; rewrite ?upd_eq, ?upd_ne by done; destruct (decide (lk = a)) as [->|Hlk].
    - tauto.
    - by apply Hh.
    - split; [by intros ?%Hot|tauto].
    - done. }
  assert (Hl : ∀ lk, upd (locks s) a l lk = if lk =? a then l else locks s lk) by done.
  split; cbn [locks cpus set_lock set_cpu].
  - intros lk. setoid_rewrite Hu. rewrite Hl. destruct (decide (lk = a)) as [->|Hne].
    + rewrite Z.eqb_refl, Hfree. split; [tauto|]. intros H Ha. by apply (H i).
    + rewrite (proj2 (Z.eqb_neq lk a)) by done. apply Hf.
  - intros j k lk. rewrite !Hu. destruct (decide (lk = a)); [intros [-> _] [-> _]; done|apply Ho].
  - intros j lk. rewrite Hu, Hl. destruct (decide (lk = a)) as [->|Hne].
    + rewrite Z.eqb_refl. intros H. destruct (decide (j = i)) as [->|Hj]; [auto|by destruct (Hcpu' j)].
    + rewrite (proj2 (Z.eqb_neq lk a)) by done. apply Hc.
  - intros j. destruct (decide (j = i)) as [->|Hj]; rewrite ?upd_eq, ?upd_ne by done.
    + right. eapply cpu_inv_ext; [|exact Hci]. intros lk. rewrite Hl. by destruct (lk =? a).
    + destruct (Hi j) as [?|Hij]; [by left|right]. eapply cpu_inv_ext; [|exact Hij].
      intros lk. rewrite Hl. destruct (lk =? a) eqn:E; [|done]. zbool. subst lk.
      split; [intros ?%Hc; by destruct (Hot j)|by intros ?%Hcpu'].
Qed.

(** ** Steps *)

Section moves.
Context (f : bool) (c : cpu) (mine : Z → Prop) (held : gset Z) (I : cpu_inv f c mine held) (p : pc).
Context (Hk : knows p mine held) (Hb : ∀ lk, between (at_pc c) lk → between p lk).

Lemma goto_inv : pending p = pending (at_pc c) → cpu_inv f (goto p c) mine held.
Proof using I Hk Hb.
  intros Hp. destruct I as [I1 I2 I3 I4 I5 I6]. split; try done; cbn [ncli at_pc goto]; [lia|].
  intros lk Hl. destruct (I6 lk Hl); auto.
Qed.

Lemma push_inv : pending p = pending (at_pc c) + 1 → cpu_inv f (goto p (pushcli c)) mine held.
Proof using I Hk Hb.
  intros Hp. destruct I as [I1 I2 I3 I4 I5 I6]. assert (0 ≤ pending (at_pc c)) by (by destruct (at_pc c)).
  split; try done; cbn [ncli at_pc goto pushcli fl_if intena]; [lia| |lia|].
  - intros _. split; [done|]. case_b; [by apply I3|]. apply I2. lia.
  - intros lk Hl. destruct (I6 lk Hl); auto.
Qed.

Lemma pop_inv : 0 < ncli c → pending p = pending (at_pc c) - 1 → cpu_inv f (pop_goto p c) mine held.
Proof using I Hk Hb.
  intros Hn Hp. destruct I as [I1 I2 I3 I4 I5 I6]. destruct (I2 Hn) as [Hoff Hena]. unfold pop_goto, popcli.
  rewrite Hoff, (proj2 (Z.ltb_ge _ 0)), Hena by lia. split; try done; cbn [ncli at_pc goto fl_if intena]; [lia| | |].
  - intros H. rewrite (proj2 (Z.eqb_neq _ 0)) by lia. done.
  - intros H. rewrite (proj2 (Z.eqb_eq _ 0)) by lia. cbn [andb]. by destruct f.
  - intros lk Hl. destruct (I6 lk Hl); auto.
Qed.
End moves.

Lemma not_between p lk : (∀ lk, p ≠ AGot lk) → (∀ lk, p ≠ RCleared lk) → ¬ between p lk.
Proof. intros H1 H2 [?|?]; [by eapply H1|by eapply H2]. Qed.

Lemma owns_spec i b l : owns i b l = true ↔ b ≠ 0 ∧ lk_cpu l = Some i.
Proof. unfold owns. rewrite andb_true_iff, negb_true_iff, Z.eqb_neq, bool_decide_eq_true. done. Qed.

(** The lock written with what it had. *)
Lemma inv_touch f s held a l :
  inv f s held → lk_cpu l = lk_cpu (locks s a) → (locked l = 0 ↔ locked (locks s a) = 0) → inv f (set_lock a l s) held.
Proof.
  intros [Hf Ho Hc Hi] Hl Hk.
  assert (Hu : ∀ lk, lk_cpu (upd (locks s) a l lk) = lk_cpu (locks s lk) ∧ (locked (upd (locks s) a l lk) = 0 ↔ locked (locks s lk) = 0)).
  { intros lk. destruct (decide (lk = a)) as [->|]; rewrite ?upd_eq, ?upd_ne by done; done. }
  split; cbn [locks cpus set_lock]; try done.
  - intros lk. rewrite (proj2 (Hu lk)). apply Hf.
  - intros i lk. rewrite (proj1 (Hu lk)). apply Hc.
  - intros i. destruct (Hi i) as [?|H]; [by left|right]. eapply cpu_inv_ext; [|exact H]. intros lk. by rewrite (proj1 (Hu lk)).
Qed.

(** The lock taken, and given back. *)
Lemma inv_take f s held i c lk :
  inv f s held → cpus s i = c → at_pc c = ASpin lk → locked (locks s lk) = 0 →
  inv f (set_lock lk (Lock 1 (lk_cpu (locks s lk)) (pcs (locks s lk))) (set_cpu i (goto (AGot lk) c) s)) (upd held i ({[lk]} ∪ held i)).
Proof.
  intros H Ec Ep Hl. pose proof H as [Hf Ho Hc Hi]. destruct (Hi i) as [[msg Hs]|I]; [congruence|]. rewrite Ec in I.
  pose proof (proj1 (Hf lk) Hl) as Hfree. assert (Hcpu : ∀ j, lk_cpu (locks s lk) ≠ Some j) by (intros j ?%Hc; by apply (Hfree j)).
  destruct I as [I1 I2 I3 I4 I5 I6]. rewrite Ep in *. cbn [pending knows] in *. apply inv_lock; try done.
  - intros k Hk. rewrite elem_of_union, elem_of_singleton. tauto.
  - split; [done|]. intros Hn. destruct Hn. apply elem_of_union. left. by apply elem_of_singleton.
  - assert (Hm : ∀ k, (if k =? lk then lk_cpu (locks s lk) else lk_cpu (locks s k)) = lk_cpu (locks s k)) by (intros k; case_b; congruence).
    apply (cpu_inv_ext _ _ (λ k, lk_cpu (locks s k) = Some i)); [intros k; cbn [lk_cpu]; by rewrite Hm|]. split; cbn [goto ncli at_pc pending knows fl_if intena].
    + rewrite size_union, size_singleton; [lia|]. apply disjoint_singleton_l. apply Hfree.
    + done.
    + done.
    + split; [apply elem_of_union; left; by apply elem_of_singleton|apply Hcpu].
    + intros k ?%I5. apply elem_of_union. by right.
    + intros k [->%elem_of_singleton|Hk]%elem_of_union; [right; by left|].
      destruct (I6 k Hk) as [?|[?|?]]; [by left|done|done].
Qed.

(** The [cpu] field set or cleared by the CPU that has the lock. *)
Lemma inv_mark f s held i c lk o l p :
  inv f s held → cpus s i = c → ¬ stopped c → lk ∈ held i → o = Some i ∨ o = None →
  lk_cpu l = o → (locked l = 0 ↔ locked (locks s lk) = 0) →
  pending p = pending (at_pc c) → (∀ k, k ≠ lk → ¬ between (at_pc c) k) →
  (o = None → p = RCleared lk) → (o = Some i → p = Run) →
  inv f (set_lock lk l (set_cpu i (goto p c) s)) held.
Proof.
  intros H Ec Hns Hin Ho El Hl Hp Hb Hp1 Hp2. pose proof H as [Hf H1 Hc Hi]. destruct (Hi i) as [Hs|I]; [congruence|]. rewrite Ec in I.
  assert (Hother : ∀ j, j ≠ i → lk ∉ held j) by (intros j Hj ?; apply Hj; by eapply H1).
  assert (E : ∀ j, upd held i (held i) j = held j) by (intros j; unfold upd; case_b; congruence).
  assert (HI : inv f (set_lock lk l (set_cpu i (goto p c) s)) (upd held i (held i))).
  { apply inv_lock; try done.
    - rewrite Hl, Hf. split; [auto|]. intros Hn j. destruct (decide (j = i)) as [->|]; auto.
    - intros j Hj. rewrite El. destruct Ho as [->| ->]; congruence.
    - destruct I as [I1 I2 I3 I4 I5 I6]. split; cbn [goto ncli at_pc fl_if intena]; try done; [lia| | |].
      + destruct Ho as [->| ->]; [by rewrite (Hp2 eq_refl)|]. rewrite (Hp1 eq_refl). split; [done|]. rewrite Z.eqb_refl, El. done.
      + intros k. case_b; [by subst|apply I5].
      + intros k Hk. case_b; [subst k; rewrite El; destruct Ho as [->| ->]; [by left|right; right; auto]|].
        destruct (I6 k Hk) as [?|Hbt]; [by left|]. by destruct (Hb k). }
  destruct HI as [G1 G2 G3 G4]. split.
  - intros k. rewrite G1. by setoid_rewrite E.
  - intros j k a. specialize (G2 j k a). by rewrite !E in G2.
  - intros j k. specialize (G3 j k). by rewrite E in G3.
  - intros j. specialize (G4 j). by rewrite E in G4.
Qed.

(** The lock given back. *)
Lemma inv_give f s held i c lk :
  inv f s held → cpus s i = c → at_pc c = RCleared lk →
  inv f (set_lock lk (Lock 0 (lk_cpu (locks s lk)) (pcs (locks s lk))) (set_cpu i (goto (RStored lk) c) s)) (upd held i (held i ∖ {[lk]})).
Proof.
  intros H Ec Ep. pose proof H as [Hf Ho Hc Hi]. destruct (Hi i) as [[msg Hs]|I]; [congruence|]. rewrite Ec in I.
  destruct I as [I1 I2 I3 I4 I5 I6]. rewrite Ep in *. cbn [pending knows] in *. destruct I4 as [Hin Hno].
  assert (Hother : ∀ j, j ≠ i → lk ∉ held j) by (intros j Hj ?; apply Hj; by eapply Ho).
  assert (Hcpu : ∀ j, lk_cpu (locks s lk) ≠ Some j).
  { intros j Hj. destruct (decide (j = i)) as [->|Hne]; [done|]. apply (Hother j Hne). by apply Hc. }
  apply inv_lock; try done.
  - intros k Hk. rewrite elem_of_difference, elem_of_singleton. tauto.
  - split; [|done]. intros _. rewrite elem_of_difference, elem_of_singleton. tauto.
  - assert (Hm : ∀ k, (if k =? lk then lk_cpu (locks s lk) else lk_cpu (locks s k)) = lk_cpu (locks s k)) by (intros k; case_b; congruence).
    apply (cpu_inv_ext _ _ (λ k, lk_cpu (locks s k) = Some i)); [intros k; cbn [lk_cpu]; by rewrite Hm|].
    split; cbn [goto ncli at_pc pending knows fl_if intena]; try done.
    + rewrite size_difference, size_singleton by (by apply singleton_subseteq_l). 
      assert (size (held i) ≠ 0%nat) by (intros Hz; apply size_empty_inv in Hz; by apply Hz, not_elem_of_empty in Hin). lia.
    + intros k Hk. apply elem_of_difference. split; [by apply I5|]. intros ->%elem_of_singleton. by destruct (Hcpu i).
    + intros k [Hk Hne]%elem_of_difference. rewrite elem_of_singleton in Hne.
      destruct (I6 k Hk) as [?|[?|E]]; [by left|done|]. injection E. congruence.
Qed.

(** Steps of CPU [i] that change only its own state. *)
Section local.
Context (f : Z → bool) (s : machine) (held : Z → gset Z) (i : Z) (c : cpu).
Context (H : inv f s held) (I : cpu_inv (f i) c (λ lk, lk_cpu (locks s lk) = Some i) (held i)).
Context (Hnb : ∀ lk, ¬ between (at_pc c) lk).

Lemma local_goto p :
  knows p (λ lk, lk_cpu (locks s lk) = Some i) (held i) → pending p = pending (at_pc c) → inv f (set_cpu i (goto p c) s) held.
Proof using H I Hnb. intros Hk Hp. apply inv_local; [done|]. right. apply goto_inv; try done. by intros lk ?%Hnb. Qed.

Lemma local_push p :
  knows p (λ lk, lk_cpu (locks s lk) = Some i) (held i) → pending p = pending (at_pc c) + 1 → inv f (set_cpu i (goto p (pushcli c)) s) held.
Proof using H I Hnb. intros Hk Hp. apply inv_local; [done|]. right. apply push_inv; try done. by intros lk ?%Hnb. Qed.

Lemma local_pop p :
  knows p (λ lk, lk_cpu (locks s lk) = Some i) (held i) → 0 < pending (at_pc c) → pending p = pending (at_pc c) - 1 →
  inv f (set_cpu i (pop_goto p c) s) held.
Proof using H I Hnb.
  intros Hk Hn Hp. apply inv_local; [done|]. right. apply pop_inv; try done; [by intros lk ?%Hnb|].
  rewrite (ci_count _ _ _ _ I). lia.
Qed.

Lemma local_panic msg : inv f (set_cpu i (goto (Panicked msg) c) s) held.
Proof using H. apply inv_local; [done|]. left. by exists msg. Qed.
End local.

Lemma inv_step f s held i s' : inv f s held → step i s s' → ∃ held', inv f s' held'.
Proof.
  intros H Hs. unfold step in Hs. pose proof H as [Hf Ho Hc Hi].
  assert (Hns : ¬ stopped (cpus s i)) by (intros [msg E]; rewrite E in Hs; inversion Hs).
  destruct (Hi i) as [?|I]; [done|]. pose proof (ci_knows _ _ _ _ I) as I4.
  remember (cpus s i) as c eqn:Ec. remember (at_pc c) as p eqn:Ep. symmetry in Ec, Ep.
  assert (Hlk : ∀ lk, lk_cpu (locks s lk) = Some i → locked (locks s lk) ≠ 0) by (intros lk ?%Hc Hz; by apply (proj1 (Hf lk) Hz i)).
  destruct Hs; cbn [knows] in I4;
    try (exists held; first [apply local_push|apply local_pop|apply local_panic|apply local_goto]; try done;
         rewrite ?Ep; try done; try (intros ? [?|?]; done); cbn [knows]; auto; fail).
  - exists held. apply local_pop; rewrite ?Ep; try done; [intros ? [?|?]; done|]. cbn [knows]. rewrite owns_spec. split; [tauto|auto].
  - exists held. apply local_goto; rewrite ?Ep; try done; [intros ? [?|?]; done|]. cbn [knows]. intros Hm. by apply I4 in Hm.
  - destruct (locked l =? 0) eqn:El; zbool.
    + eexists. by apply inv_take.
    + exists held. apply inv_touch; [|done|cbn; split; [done|by intros ?]]. apply local_goto; rewrite ?Ep; try done. intros ? [?|?]; done.
  - exists held. destruct I4 as [Hin Hno]. eapply inv_mark; try done; [by left|by rewrite Ep|].
    intros k Hk [E|E]; rewrite Ep in E; [injection E; congruence|done].
  - exists held. apply local_pop; rewrite ?Ep; try done; [intros ? [?|?]; done|]. cbn [knows]. rewrite owns_spec. split; [tauto|auto].
  - exists held. eapply inv_mark; try done; [by apply Hc, I4|by right|by rewrite Ep|]. intros k Hk [E|E]; by rewrite Ep in E.
  - eexists. by apply inv_give.
Qed.

Lemma inv_start f : inv f (start f) (λ _, ∅).
Proof.
  split; cbn; try done.
  intros i. right. split; cbn; try done; intros; set_solver.
Qed.

Lemma reachable_inv f s : reachable f s → ∃ held, inv f s held.
Proof.
  induction 1 as [|i s s' _ [held IH] Hs]; [eexists; apply inv_start|]. by eapply inv_step.
Qed.

Lemma has_held f s held i lk : inv f s held → ¬ stopped (cpus s i) → has s i lk ↔ lk ∈ held i.
Proof.
  intros [Hf Ho Hc Hi] Hns. destruct (Hi i) as [?|[I1 I2 I3 I4 I5 I6]]; [done|]. unfold has. split.
  - intros [_ H]. destruct (at_pc (cpus s i)) eqn:E; try (by apply Hc); cbn [knows] in I4; destruct H as [->|?]; try (by apply Hc); apply I4.
  - intros H. split; [intros Hz; by apply (proj1 (Hf lk) Hz i)|].
    destruct (I6 lk H) as [Hm|[E|E]]; [destruct (at_pc (cpus s i)); auto|rewrite E; by left|rewrite E; by left].
Qed.

(** C16: spinlocks exclude.  However the steps of the CPUs interleave, two CPUs never hold the same lock, and a CPU that holds
    one runs with its interrupts off, so that no interrupt handler can wait for the lock on the same CPU. *)
Theorem spinlock_excludes f s i j lk :
  reachable f s → ¬ stopped (cpus s i) → ¬ stopped (cpus s j) → has s i lk → has s j lk →
  i = j ∧ fl_if (cpus s i) = false ∧ 0 < ncli (cpus s i).
Proof.
  intros [held H]%reachable_inv Hi Hj H1%(has_held _ _ _ _ _ H Hi) H2%(has_held _ _ _ _ _ H Hj).
  destruct (iv_inv _ _ _ H i) as [?|[I1 I2 _ _ _ _]]; [done|]. split; [by eapply (iv_one _ _ _ H)|].
  assert (Hn : 0 < ncli (cpus s i)).
  { rewrite I1. assert (size (held i) ≠ 0%nat) by (intros Hz; apply size_empty_inv in Hz; by apply Hz, not_elem_of_empty in H1).
    assert (0 ≤ pending (at_pc (cpus s i))) by (by destruct (at_pc _)). lia. }
  split; [by apply I2|done].
Qed.

(** C35: [acquire] and [release] nest.  A CPU that has given back its last lock has its interrupts as at the start; a call
    panics only in a CPU that acquires a lock it holds or releases one it does not; and a CPU that waits for a lock nobody
    holds has it after its next step. *)
Theorem spinlock_nests f s i :
  reachable f s → ¬ stopped (cpus s i) →
  (at_pc (cpus s i) = Run → (∀ lk, ¬ has s i lk) → ncli (cpus s i) = 0 ∧ fl_if (cpus s i) = f i) ∧
  (∀ s' msg, step i s s' → at_pc (cpus s' i) = Panicked msg →
     ∃ lk, (msg = "acquire" ∧ at_pc (cpus s i) = AHeld lk true ∧ has s i lk) ∨
           (msg = "release" ∧ at_pc (cpus s i) = RHeld lk false ∧ ¬ has s i lk)) ∧
  (∀ lk, at_pc (cpus s i) = ASpin lk → (∀ j, ¬ has s j lk) → (∀ j, ¬ stopped (cpus s j)) → ∀ s', step i s s' → has s' i lk).
Proof.
  intros [held H]%reachable_inv Hns. pose proof (λ lk, has_held f s held i lk H Hns) as Hh.
  destruct (iv_inv _ _ _ H i) as [?|I]; [done|]. pose proof I as [I1 I2 I3 I4 I5 I6]. split_and!.
  - intros Hr Hno. assert (Hz : size (held i) = 0%nat).
    { apply size_empty_iff. intros lk. rewrite <- Hh. split; [by intros ?%Hno|by intros ?%not_elem_of_empty]. }
    rewrite I1, Hz, Hr. split; [done|]. apply I3. by rewrite I1, Hz, Hr.
  - intros s' msg Hs Hp. unfold step in Hs.
    assert (Hpop : ∀ p, (∀ m, p ≠ Panicked m) → 0 < ncli (cpus s i) → at_pc (pop_goto p (cpus s i)) ≠ Panicked msg).
    { intros p Hne Hn. destruct (I2 Hn) as [Hoff _]. unfold pop_goto, popcli. rewrite Hoff, (proj2 (Z.ltb_ge _ 0)) by lia. apply Hne. }
    destruct (at_pc (cpus s i)) eqn:E; inversion Hs; subst; cbn [cpus set_cpu set_lock] in Hp; rewrite upd_eq in Hp; cbn [at_pc goto] in Hp; try discriminate Hp;
      try (exfalso; refine (Hpop _ _ _ Hp); [by intros|rewrite I1; cbn [pending]; lia]).
    + exists lk. left. injection Hp as <-. split_and!; [done|done|]. apply Hh, I5. cbn [knows] in I4. by apply I4.
    + by destruct (locked _ =? 0).
    + exists lk. right. injection Hp as <-. split_and!; [done|done|]. rewrite Hh. intros Hin. cbn [knows] in I4.
      destruct (I6 lk Hin) as [Hm|[?|?]]; [by apply I4 in Hm|done|done].
  - intros lk Ep Hno Hall s' Hs. unfold step in Hs. rewrite Ep in Hs. inversion Hs; subst.
    assert (Hz : locked (locks s lk) = 0).
    { apply (iv_free _ _ _ H). intros j Hj. apply (Hno j). by apply (has_held _ _ _ _ _ H (Hall j)). }
    unfold has. cbn [cpus locks set_lock set_cpu]. rewrite !upd_eq. cbn [locked]. split; [done|]. cbn [at_pc goto].
    replace (locked l) with 0 by done. cbn [Z.eqb]. by left.
Qed.

(** ** Two CPUs and one lock

    CPU 0 takes lock 7, CPU 1 waits for it. *)
Module LockExample.
Definition on : Z → bool := λ _, true.

(** The steps of [acquire] of CPU [i] up to the [xchg]. *)
Lemma to_spin s i :
  reachable on s → at_pc (cpus s i) = Run → cpus s i = Cpu 0 (intena (cpus s i)) true Run → lk_cpu (locks s 7) ≠ Some i →
  ∃ s', reachable on s' ∧ cpus s' i = Cpu 1 true false (ASpin 7) ∧ (∀ j, j ≠ i → cpus s' j = cpus s j) ∧ locks s' = locks s.
Proof.
  intros R Ep Ec Hm.
  assert (R1 : reachable on (set_cpu i (goto (APushed 7) (pushcli (cpus s i))) s)).
  { eapply (reach_step _ i); [exact R|]. unfold step. rewrite Ep. apply step_acquire. }
  rewrite Ec in R1. cbn in R1. set (s1 := set_cpu _ _ _) in R1.
  assert (E1 : cpus s1 i = Cpu 1 true false (APushed 7)) by (unfold s1; cbn; by rewrite upd_eq).
  assert (R2 : reachable on (set_cpu i (Cpu 2 true false (AHolding 7 (locked (locks s 7)))) s1)).
  { eapply (reach_step _ i); [exact R1|]. unfold step. rewrite E1. exact (step_acq_locked i s1 (Cpu 1 true false (APushed 7)) 7). }
  set (s2 := set_cpu _ _ s1) in R2. assert (E2 : cpus s2 i = Cpu 2 true false (AHolding 7 (locked (locks s 7)))) by (unfold s2; cbn; by rewrite upd_eq).
  assert (Ho : owns i (locked (locks s 7)) (locks s2 7) = false).
  { unfold owns. change (locks s2 7) with (locks s 7). rewrite bool_decide_eq_false_2 by done. apply andb_false_r. }
  assert (R3 : reachable on (set_cpu i (Cpu 1 true false (AHeld 7 false)) s2)).
  { eapply (reach_step _ i); [exact R2|]. unfold step. rewrite E2.
    pose proof (step_acq_cpu i s2 (Cpu 2 true false (AHolding 7 (locked (locks s 7)))) 7 (locked (locks s 7))) as H. by rewrite Ho in H. }
  set (s3 := set_cpu _ _ s2) in R3. assert (E3 : cpus s3 i = Cpu 1 true false (AHeld 7 false)) by (unfold s3; cbn; by rewrite upd_eq).
  exists (set_cpu i (Cpu 1 true false (ASpin 7)) s3). split_and!; [|cbn; by rewrite upd_eq| |done].
  - eapply (reach_step _ i); [exact R3|]. unfold step. rewrite E3. exact (step_acq_go i s3 (Cpu 1 true false (AHeld 7 false)) 7).
  - intros j Hj. cbn. by rewrite !upd_ne.
Qed.

(** CPU 0 has the lock, CPU 1 is at the [xchg]. *)
Lemma contended : ∃ s, reachable on s ∧ at_pc (cpus s 0) = Run ∧ at_pc (cpus s 1) = ASpin 7 ∧ has s 0 7.
Proof.
  destruct (to_spin (start on) 0 (reach_start on) eq_refl eq_refl ltac:(done)) as (s1 & R1 & E1 & O1 & L1).
  assert (R2 : reachable on (set_lock 7 (Lock 1 None (replicate 10 0)) (set_cpu 0 (Cpu 1 true false (AGot 7)) s1))).
  { eapply (reach_step _ 0); [exact R1|]. unfold step. rewrite E1. pose proof (step_xchg 0 s1 (Cpu 1 true false (ASpin 7)) 7) as H.
    cbv zeta in H. by rewrite L1 in H. }
  set (s2 := set_lock _ _ _) in R2. assert (E2 : cpus s2 0 = Cpu 1 true false (AGot 7)) by reflexivity.
  assert (R3 : reachable on (set_lock 7 (Lock 1 (Some 0) (getcallerpcs (λ _, 0) 0)) (set_cpu 0 (Cpu 1 true false Run) s2))).
  { eapply (reach_step _ 0); [exact R2|]. unfold step. rewrite E2. exact (step_record 0 s2 (Cpu 1 true false (AGot 7)) 7 (λ _, 0) 0). }
  set (s3 := set_lock _ _ _) in R3.
  assert (E3 : cpus s3 1 = Cpu 0 false true Run) by (unfold s3, s2; cbn; by rewrite O1).
  destruct (to_spin s3 1 R3) as (s4 & R4 & E4 & O4 & L4); [by rewrite E3|by rewrite E3|done|].
  exists s4. split_and!; [done|by rewrite O4|by rewrite E4|]. unfold has. rewrite L4, O4 by done. done.
Qed.

Lemma spinlock_excludes_witness : ∃ s, reachable on s ∧ at_pc (cpus s 1) = ASpin 7 ∧ fl_if (cpus s 0) = false.
Proof.
  destruct contended as (s & R & E0 & E1 & H). exists s. split; [exact R|]. split; [exact E1|].
  assert (Hn : ¬ stopped (cpus s 0)) by (intros [m Em]; rewrite E0 in Em; discriminate Em).
  exact (proj1 (proj2 (spinlock_excludes on s 0 0 7 R Hn Hn H H))).
Defined.

Lemma spinlock_nests_witness : ∃ s, reachable on s ∧ ∀ s' msg, step 1 s s' → at_pc (cpus s' 1) = Panicked msg → False.
Proof.
  destruct contended as (s & R & E0 & E1 & H). exists s. split; [exact R|]. intros s' msg Hs Hp.
  assert (Hn : ¬ stopped (cpus s 1)) by (intros [m Em]; rewrite E1 in Em; discriminate Em).
  destruct (proj1 (proj2 (spinlock_nests on s 1 R Hn)) s' msg Hs Hp) as (lk & [(_ & E & _)|(_ & E & _)]); rewrite E1 in E; discriminate E.
Defined.
End LockExample.
