(* ===== verification/Vm.v ===== *)
(** * Page tables

    [src/vm.c]: two-level page tables in the pages of [Kalloc].  A page directory is
    the kernel pointer of its page; [walkpgdir] returns the pointer of a page table
    entry, [None] for the null pointer.  [data], the start of the kernel's data, comes
    from the linker.  The messages printed when memory runs out are left out, as are
    the segment registers and the page table register of the CPU.

    [xlate m p va] is the entry that maps [va], 0 when it has no page table. *)
From S2P Require Import Prelude CString Bytes Kalloc.

Definition PTE_P : Z := 1.
Definition PTE_W : Z := 2.
Definition PTE_U : Z := 4.
Definition DEVSPACE : Z := 4261412864.
Definition KERNLINK : Z := KERNBASE + EXTMEM.
Definition NPDENTRIES : Z := 1024.

Definition PDX (va : Z) : Z := Z.land (Z.shiftr va 22) 1023.
Definition PTX (va : Z) : Z := Z.land (Z.shiftr va 12) 1023.
Definition PGADDR (d t o : Z) : Z := u32 (Z.lor (Z.lor (Z.shiftl d 22) (Z.shiftl t 12)) o).
Definition PTE_ADDR (pte : Z) : Z := Z.land pte (Z.lnot 4095).
Definition PTE_FLAGS (pte : Z) : Z := Z.land pte 4095.
Definition present (pte : Z) : bool := negb (Z.land pte PTE_P =? 0).

Definition walkpgdir (pgdir va : Z) (alloc : bool) : cm kmem (option Z) :=
  let pde := pgdir + 4 * PDX va in
  e ← kload pde;
  pgtab ← (if present e then mret (Some (P2V (PTE_ADDR e)))
           else if negb alloc then mret None
           else
             r ← kalloc;
             if r =? 0 then mret None else
             fill_page r 0 ;;
             kstore pde (Z.lor (Z.lor (Z.lor (V2P r) PTE_P) PTE_W) PTE_U) ;;
             mret (Some r));
  mret ((λ t, t + 4 * PTX va) <$> pgtab).

(** The loop of [mappages]: [a] to [last], by page. *)
Fixpoint mappages_loop (n : nat) (pgdir a last pa perm : Z) : cm kmem Z :=
  match n with
  | O => ub "loop"
  | S n' =>
      pte ← walkpgdir pgdir a true;
      match pte with
      | None => mret (-1)
      | Some q =>
          e ← kload q;
          if present e then panic "remap" else
          kstore q (Z.lor (Z.lor pa perm) PTE_P) ;;
          if a =? last then mret 0
          else mappages_loop n' pgdir (u32 (a + PGSIZE)) last (u32 (pa + PGSIZE)) perm
      end
  end.

Definition mappages (pgdir va size pa perm : Z) : cm kmem Z :=
  let a := PGROUNDDOWN va in
  let last := PGROUNDDOWN (u32 (va + size - 1)) in
  mappages_loop (Z.to_nat (u32 (last - a) / PGSIZE + 1)) pgdir a last pa perm.

(** The loop of [deallocuvm]. *)
Fixpoint deallocuvm_loop (n : nat) (pgdir a oldsz : Z) : cm kmem unit :=
  if a <? oldsz then
    match n with
    | O => ub "loop"
    | S n' =>
        pte ← walkpgdir pgdir a false;
        match pte with
        | None =>
            let a := u32 (PGADDR (PDX a + 1) 0 0 - PGSIZE) in
            deallocuvm_loop n' pgdir (u32 (a + PGSIZE)) oldsz
        | Some q =>
            e ← kload q;
            (if present e then
               let pa := PTE_ADDR e in
               if pa =? 0 then panic "kfree" else
               kfree (P2V pa) ;;
               kstore q 0
             else mret tt) ;;
            deallocuvm_loop n' pgdir (u32 (a + PGSIZE)) oldsz
        end
    end
  else mret tt.

Definition deallocuvm (pgdir oldsz newsz : Z) : cm kmem Z :=
  if oldsz <=? newsz then mret oldsz else
  deallocuvm_loop (Z.to_nat (oldsz / PGSIZE + 1)) pgdir (PGROUNDUP newsz) oldsz ;;
  mret newsz.

Fixpoint allocuvm_loop (n : nat) (pgdir a oldsz newsz : Z) : cm kmem Z :=
  if a <? newsz then
    match n with
    | O => ub "loop"
    | S n' =>
        mem ← kalloc;
        if mem =? 0 then deallocuvm pgdir newsz oldsz ;; mret 0 else
        fill_page mem 0 ;;
        r ← mappages pgdir a PGSIZE (V2P mem) (Z.lor PTE_W PTE_U);
        if r <? 0 then deallocuvm pgdir newsz oldsz ;; kfree mem ;; mret 0
        else allocuvm_loop n' pgdir (u32 (a + PGSIZE)) oldsz newsz
    end
  else mret newsz.

Definition allocuvm (pgdir oldsz newsz : Z) : cm kmem Z :=
  if KERNBASE <=? newsz then mret 0 else
  if newsz <? oldsz then mret oldsz else
  allocuvm_loop (Z.to_nat (newsz / PGSIZE + 1)) pgdir (PGROUNDUP oldsz) oldsz newsz.

(** The loop of [freevm] over the page directory. *)
Fixpoint freevm_loop (n : nat) (pgdir i : Z) : cm kmem unit :=
  match n with
  | O => mret tt
  | S n' =>
      e ← kload (pgdir + 4 * i);
      (if present e then kfree (P2V (PTE_ADDR e)) else mret tt) ;;
      freevm_loop n' pgdir (i + 1)
  end.

Definition freevm (pgdir : Z) : cm kmem unit :=
  if pgdir =? 0 then panic "freevm: no pgdir" else
  deallocuvm pgdir KERNBASE 0 ;;
  freevm_loop (Z.to_nat NPDENTRIES) pgdir 0 ;;
  kfree pgdir.

Section kernel_map.
Context (data : Z).

(** [kmap]: virtual address, physical start and end, permissions. *)
Definition kmap : list (Z * Z * Z * Z) :=
  [(KERNBASE, 0, EXTMEM, PTE_W);
   (KERNLINK, V2P KERNLINK, V2P data, 0);
   (data, V2P data, PHYSTOP, PTE_W);
   (DEVSPACE, DEVSPACE, 0, PTE_W)].

Fixpoint setupkvm_loop (pgdir : Z) (ks : list (Z * Z * Z * Z)) : cm kmem Z :=
  match ks with
  | [] => mret pgdir
  | (virt, ps, pe, perm) :: ks' =>
      r ← mappages pgdir virt (u32 (pe - ps)) ps perm;
      if r <? 0 then freevm pgdir ;; mret 0 else setupkvm_loop pgdir ks'
  end.

Definition setupkvm : cm kmem Z :=
  pgdir ← kalloc;
  if pgdir =? 0 then mret 0 else
  fill_page pgdir 0 ;;
  if DEVSPACE <? P2V PHYSTOP then panic "PHYSTOP too high" else
  setupkvm_loop pgdir kmap.

(** [memmove(mem, P2V(pa), PGSIZE)] between pages, and of bytes into memory. *)
Definition copy_page (dst src : Z) : cm kmem unit := λ s,
  if in_ram dst && in_ram src
  then Ok tt (set_phys (memmove (phys s) (V2P dst) (V2P src) PGSIZE) s) else Ub "pointer".
Definition copy_bytes (dst : Z) (l : list Z) : cm kmem unit := λ s,
  if in_ram dst
  then Ok tt (set_phys (λ x, if (V2P dst <=? x) && (x <? V2P dst + Z.of_nat (length l))
                             then nth (Z.to_nat (x - V2P dst)) l 0 else phys s x) s)
  else Ub "pointer".

Definition inituvm (pgdir : Z) (init : list Z) : cm kmem unit :=
  if PGSIZE <=? Z.of_nat (length init) then panic "inituvm: more than a page" else
  mem ← kalloc;
  fill_page mem 0 ;;
  mappages pgdir 0 PGSIZE (V2P mem) (Z.lor PTE_W PTE_U) ;;
  copy_bytes mem init.

Definition clearpteu (pgdir uva : Z) : cm kmem unit :=
  pte ← walkpgdir pgdir uva false;
  match pte with
  | None => panic "clearpteu"
  | Some q => e ← kload q; kstore q (Z.land e (Z.lnot PTE_U))
  end.

Fixpoint copyuvm_loop (n : nat) (pgdir d i sz : Z) : cm kmem Z :=
  if i <? sz then
    match n with
    | O => ub "loop"
    | S n' =>
        pte ← walkpgdir pgdir i false;
        match pte with
        | None => panic "copyuvm: pte should exist"
        | Some q =>
            e ← kload q;
            if negb (present e) then panic "copyuvm: page not present" else
            let pa := PTE_ADDR e in
            let flags := PTE_FLAGS e in
            mem ← kalloc;
            if mem =? 0 then freevm d ;; mret 0 else
            copy_page mem (P2V pa) ;;
            r ← mappages d i PGSIZE (V2P mem) flags;
            if r <? 0 then kfree mem ;; freevm d ;; mret 0
            else copyuvm_loop n' pgdir d (u32 (i + PGSIZE)) sz
        end
    end
  else mret d.

Definition copyuvm (pgdir sz : Z) : cm kmem Z :=
  d ← setupkvm;
  if d =? 0 then mret 0 else copyuvm_loop (Z.to_nat (sz / PGSIZE + 1)) pgdir d 0 sz.

(** The null entry of [walkpgdir] is read like any other pointer: undefined. *)
Definition uva2ka (pgdir uva : Z) : cm kmem Z :=
  pte ← walkpgdir pgdir uva false;
  match pte with
  | None => ub "null pte"
  | Some q =>
      e ← kload q;
      if Z.land e PTE_P =? 0 then mret 0
      else if Z.land e PTE_U =? 0 then mret 0
      else mret (P2V (PTE_ADDR e))
  end.

(** [p] is the list of the [len] bytes to copy. *)
Fixpoint copyout_loop (fuel : nat) (pgdir va : Z) (buf : list Z) : cm kmem Z :=
  if 0 <? Z.of_nat (length buf) then
    match fuel with
    | O => ub "loop"
    | S fuel' =>
        let va0 := PGROUNDDOWN va in
        pa0 ← uva2ka pgdir va0;
        if pa0 =? 0 then mret (-1) else
        let n := Z.min (PGSIZE - (va - va0)) (Z.of_nat (length buf)) in
        copy_bytes (pa0 + (va - va0)) (take (Z.to_nat n) buf) ;;
        copyout_loop fuel' pgdir (u32 (va0 + PGSIZE)) (drop (Z.to_nat n) buf)
    end
  else mret 0.

Definition copyout (pgdir va : Z) (p : list Z) : cm kmem Z := copyout_loop (length p) pgdir va p.
End kernel_map.

(** ** Addresses and entries *)

(** The virtual page of an address. *)
Definition vpn (va : Z) : Z := va / PGSIZE.

Lemma PDX_vpn va : 0 ≤ va < 2 ^ 32 → PDX va = vpn va / 1024.
Proof.
  intros Hv. unfold PDX, vpn, PGSIZE. change 1023 with (2 ^ 10 - 1).
  rewrite land_ones_mod, Z.shiftr_div_pow2 by lia. change (2 ^ 22) with 4194304. change (2 ^ 10) with 1024. dlia.
Qed.

Lemma PTX_vpn va : 0 ≤ va < 2 ^ 32 → PTX va = vpn va mod 1024.
Proof.
  intros Hv. unfold PTX, vpn, PGSIZE. change 1023 with (2 ^ 10 - 1).
  rewrite land_ones_mod, Z.shiftr_div_pow2 by lia. by change (2 ^ 12) with 4096.
Qed.

Lemma index_range va : 0 ≤ va < 2 ^ 32 → 0 ≤ PDX va < 1024 ∧ 0 ≤ PTX va < 1024.
Proof. intros Hv. rewrite PDX_vpn, PTX_vpn by done. unfold vpn, PGSIZE. dlia. Qed.

(** Both indices together are the page. *)
Lemma index_inj va va' :
  0 ≤ va < 2 ^ 32 → 0 ≤ va' < 2 ^ 32 → (PDX va = PDX va' ∧ PTX va = PTX va') ↔ vpn va = vpn va'.
Proof. intros Hv Hv'. rewrite !PDX_vpn, !PTX_vpn by done. dlia. Qed.

Lemma PTE_ADDR_eq e : PTE_ADDR e = PGSIZE * (e / PGSIZE).
Proof.
  unfold PTE_ADDR. change 4095 with (Z.ones 12).
  rewrite <- Z.ldiff_land, Z.ldiff_ones_r, Z.shiftr_div_pow2, Z.shiftl_mul_pow2 by lia.
  change (2 ^ 12) with PGSIZE. lia.
Qed.

Lemma PTE_FLAGS_eq e : PTE_FLAGS e = e mod PGSIZE.
Proof. unfold PTE_FLAGS. change 4095 with (2 ^ 12 - 1). by rewrite land_ones_mod. Qed.

Lemma present_odd e : present e = (e mod 2 =? 1).
Proof.
  unfold present, PTE_P. change 1 with (2 ^ 1 - 1) at 1. rewrite land_ones_mod by lia. change (2 ^ 1) with 2.
  destruct (e mod 2 =? 0) eqn:E1, (e mod 2 =? 1) eqn:E2; zbool; try done; dlia.
Qed.

(** An entry for the page at [pa] with flags [f]. *)
Lemma lor_page pa f : 0 ≤ pa → pa mod PGSIZE = 0 → 0 ≤ f < PGSIZE → Z.lor pa f = pa + f.
Proof.
  intros Hp Hm Hf. unfold PGSIZE in *. replace pa with (pa / 4096 * 2 ^ 12) by (change (2 ^ 12) with 4096; dlia).
  apply lor_shiftl_add; [lia|]. change (2 ^ 12) with 4096. lia.
Qed.

Lemma entry_page pa f :
  0 ≤ pa → pa mod PGSIZE = 0 → 0 ≤ f < PGSIZE → PTE_ADDR (pa + f) = pa ∧ PTE_FLAGS (pa + f) = f.
Proof. intros Hp Hm Hf. rewrite PTE_ADDR_eq, PTE_FLAGS_eq. unfold PGSIZE in *. dlia. Qed.

Lemma P2V_V2P e v : page e v → P2V (V2P v) = v.
Proof.
  intros Hv. destruct (page_V2P e v Hv) as (-> & _). destruct Hv as (_ & _ & Hr).
  unfold P2V, u32. replace (v - KERNBASE + KERNBASE) with v by lia. unfold KERNBASE, PHYSTOP in *.
  rewrite Z.mod_small; lia.
Qed.

Lemma perm_range perm : 0 ≤ perm < PGSIZE → 0 ≤ Z.lor perm PTE_P < PGSIZE.
Proof.
  intros Hf. split; [apply Z.lor_nonneg; unfold PTE_P; lia|]. unfold PGSIZE in *. change 4096 with (2 ^ 12).
  destruct (Z.eq_dec (Z.lor perm PTE_P) 0) as [->|Hz]; [lia|]. apply Z.log2_lt_pow2.
  - assert (0 ≤ Z.lor perm PTE_P) by (apply Z.lor_nonneg; unfold PTE_P; lia). lia.
  - rewrite Z.log2_lor by (unfold PTE_P; lia). apply Z.max_lub_lt; [|by vm_compute].
    destruct (Z.eq_dec perm 0) as [->|]; [by vm_compute|]. apply Z.log2_lt_pow2; lia.
Qed.

(** The entry [mappages] stores. *)
Lemma perm_entry e v perm :
  page e v → 0 ≤ perm < PGSIZE →
  present (V2P v + Z.lor perm PTE_P) = true ∧ P2V (PTE_ADDR (V2P v + Z.lor perm PTE_P)) = v ∧
  PTE_FLAGS (V2P v + Z.lor perm PTE_P) = Z.lor perm PTE_P.
Proof.
  intros Hv Hf. destruct (page_V2P e v Hv) as (_ & H0 & _ & Hm). pose proof (perm_range perm Hf) as Hp.
  destruct (entry_page (V2P v) _ H0 Hm Hp) as [-> ->]. split_and!; [|by eapply P2V_V2P|done].
  rewrite present_odd. apply Z.eqb_eq. assert (E : Z.lor perm PTE_P mod 2 = 1).
  { change 2 with (2 ^ 1). rewrite <- Z.land_ones, Z.land_lor_distr_l by lia. change (Z.land PTE_P (Z.ones 1)) with 1.
    rewrite Z.land_ones by lia. assert (perm mod 2 ^ 1 = 0 ∨ perm mod 2 ^ 1 = 1) as [-> | ->] by (change (2 ^ 1) with 2; dlia); done. }
  unfold PGSIZE in Hm. dlia.
Qed.

(** ** A page table in memory *)

Definition pde (m : pmem) (p i : Z) : Z := ldw m (V2P p + 4 * i).
Definition table (m : pmem) (p i : Z) : Z := P2V (PTE_ADDR (pde m p i)).
Definition xlate (m : pmem) (p va : Z) : Z :=
  if present (pde m p (PDX va)) then ldw m (V2P (table m p (PDX va)) + 4 * PTX va) else 0.

(** The pages the tables are in: distinct pages after the kernel. *)
Record tree (e : Z) (m : pmem) (p : Z) : Prop := {
  tr_dir : page e p;
  tr_tab i : 0 ≤ i < 1024 → present (pde m p i) = true → page e (table m p i) ∧ table m p i ≠ p;
  tr_inj i j : 0 ≤ i < 1024 → 0 ≤ j < 1024 → present (pde m p i) = true → present (pde m p j) = true →
    table m p i = table m p j → i = j
}.

Definition tpage (m : pmem) (p v : Z) : Prop :=
  v = p ∨ ∃ i, 0 ≤ i < 1024 ∧ present (pde m p i) = true ∧ v = table m p i.

Lemma ldw_page m m' v i :
  0 ≤ i < 1024 → (∀ x, in_page v x → m' x = m x) → ldw m' (V2P v + 4 * i) = ldw m (V2P v + 4 * i).
Proof. intros Hi He. apply ldw_ext. intros x Hx. apply He. unfold in_page, PGSIZE. lia. Qed.

(** Changes outside the pages of the tables. *)
Section same.
Context (e : Z) (m m' : pmem) (p : Z) (Ht : tree e m p) (He : ∀ v x, tpage m p v → in_page v x → m' x = m x).

Lemma pde_same i : 0 ≤ i < 1024 → pde m' p i = pde m p i.
Proof. intros Hi. apply ldw_page; [done|]. intros x. apply He. by left. Qed.

Lemma table_same i : 0 ≤ i < 1024 → table m' p i = table m p i.
Proof. intros Hi. unfold table. by rewrite pde_same. Qed.

Lemma tree_same : tree e m' p.
Proof.
  destruct Ht as [Hd Htab Hinj]. split; [done| |].
  - intros i Hi. rewrite pde_same, table_same by done. by apply Htab.
  - intros i j Hi Hj. rewrite !pde_same, !table_same by done. by apply Hinj.
Qed.

Lemma tpage_same v : tpage m' p v ↔ tpage m p v.
Proof.
  unfold tpage. split; (intros [->|(i & Hi & H1 & H2)]; [by left|right; exists i]);
    (rewrite pde_same, table_same in * by done) || (rewrite pde_same, table_same by done); done.
Qed.

Lemma xlate_same va : 0 ≤ va < 2 ^ 32 → xlate m' p va = xlate m p va.
Proof.
  intros Hv. destruct (index_range va Hv) as [H1 H2]. unfold xlate. rewrite pde_same, table_same by done.
  case_b; [|done]. apply ldw_page; [done|]. intros x. apply He. right. eauto.
Qed.
End same.

Lemma new_entry e r : page e r → present (V2P r + 7) = true ∧ P2V (PTE_ADDR (V2P r + 7)) = r.
Proof.
  intros Hr. destruct (page_V2P e r Hr) as (_ & Hr0 & _ & Hm).
  destruct (entry_page (V2P r) 7 Hr0 Hm) as [-> _]; [unfold PGSIZE; lia|]. split; [|by eapply P2V_V2P].
  rewrite present_odd. apply Z.eqb_eq. unfold PGSIZE in Hm. dlia.
Qed.

(** A new page table: the page [r], zeroed, entered at index [k] of the directory. *)
Section new_table.
Context (e : Z) (m : pmem) (p k r : Z).
Context (Ht : tree e m p) (Hk : 0 ≤ k < 1024) (Hr : page e r) (Hnew : ¬ tpage m p r).
Context (Hno : present (pde m p k) = false).

Definition with_table : pmem := stw (memset m (V2P r) 0 PGSIZE) (V2P p + 4 * k) (V2P r + 7).

Lemma r_not_p : r ≠ p.
Proof. intros ->. apply Hnew. by left. Qed.

(** Bytes outside the new page and the directory entry. *)
Lemma with_table_out x :
  ¬ in_page r x → ¬ (V2P p + 4 * k ≤ x < V2P p + 4 * k + 4) → with_table x = m x.
Proof.
  intros Hx Hd. unfold with_table. rewrite stw_other by done. unfold in_page in Hx.
  rewrite memset_spec by (unfold PGSIZE; lia). case_b; [lia|done].
Qed.

Lemma with_table_frame v x : page e v → v ≠ r → v ≠ p → in_page v x → with_table x = m x.
Proof.
  intros Hv Hvr Hvp Hx. apply with_table_out; [by apply (pages_apart e v r x)|].
  pose proof (pages_apart e v p x Hv (tr_dir _ _ _ Ht) Hvp Hx) as Hn. unfold in_page, PGSIZE in *. lia.
Qed.

Lemma with_table_pde i : 0 ≤ i < 1024 → pde with_table p i = if i =? k then V2P r + 7 else pde m p i.
Proof.
  intros Hi. destruct (page_V2P e r Hr) as (_ & Hr0 & Hr1 & _). unfold pde. case_b.
  - subst i. apply ldw_stw_eq. unfold PHYSTOP, PGSIZE in *. lia.
  - apply ldw_ext. intros x Hx. apply with_table_out; [|lia].
    apply (pages_apart e p r x (tr_dir _ _ _ Ht) Hr (not_eq_sym r_not_p)). unfold in_page, PGSIZE. lia.
Qed.

Lemma with_table_present i :
  0 ≤ i < 1024 → present (pde with_table p i) = (i =? k) || present (pde m p i).
Proof. intros Hi. rewrite with_table_pde by done. case_b; [|done]. by apply (new_entry e). Qed.

Lemma with_table_table i : 0 ≤ i < 1024 → table with_table p i = if i =? k then r else table m p i.
Proof. intros Hi. unfold table. rewrite with_table_pde by done. case_b; [|done]. by apply (new_entry e). Qed.

Lemma with_table_tpage v : tpage with_table p v ↔ tpage m p v ∨ v = r.
Proof.
  unfold tpage. split.
  - intros [->|(i & Hi & H1 & H2)]; [by left; left|]. rewrite with_table_table in H2 by done.
    rewrite with_table_present in H1 by done. destruct (i =? k); [by right|]. left. right. eauto.
  - intros [[->|(i & Hi & H1 & H2)]| ->]; [by left| |].
    + right. exists i. rewrite with_table_present, with_table_table, H1, orb_true_r by done.
      destruct (i =? k) eqn:E; zbool; [congruence|done].
    + right. exists k. rewrite with_table_present, with_table_table, Z.eqb_refl by done. done.
Qed.

Lemma with_table_tree : tree e with_table p.
Proof.
  destruct Ht as [Hd Htab Hinj]. split; [done| |].
  - intros i Hi. rewrite with_table_present, with_table_table by done.
    destruct (i =? k); [intros _; split; [done|apply r_not_p]|]. by apply Htab.
  - intros i j Hi Hj. rewrite !with_table_present, !with_table_table by done.
    destruct (i =? k) eqn:Ei, (j =? k) eqn:Ej; zbool; cbn [orb]; intros H1 H2 E; try congruence.
    + exfalso. apply Hnew. right. eauto.
    + exfalso. apply Hnew. right. eauto.
    + by apply Hinj.
Qed.

Lemma with_table_xlate va : 0 ≤ va < 2 ^ 32 → xlate with_table p va = xlate m p va.
Proof.
  intros Hv. destruct (index_range va Hv) as [H1 H2]. unfold xlate.
  rewrite with_table_present, with_table_table by done. destruct (PDX va =? k) eqn:E; zbool; cbn [orb].
  - rewrite E, Hno. unfold ldw.
    assert (Hz : ∀ x, in_page r x → with_table x = 0).
    { intros x Hx. unfold with_table. rewrite stw_other.
      - unfold in_page, PGSIZE in *. rewrite memset_spec by lia. case_b; [done|lia].
      - pose proof (pages_apart e r p x Hr (tr_dir _ _ _ Ht) r_not_p Hx). unfold in_page, PGSIZE in *. lia. }
    rewrite !Hz by (unfold in_page, PGSIZE; lia). done.
  - case_b; [|done]. apply ldw_page; [done|]. intros x.
    destruct (tr_tab _ _ _ Ht _ H1 E0) as [Hp Hne]. apply with_table_frame; [done| |done].
    intros Er. apply Hnew. right. by exists (PDX va).
Qed.
End new_table.

(** What changes of the page table [p] leave: a page table, with pages of the free
    list for new tables, and all memory that is neither. *)
Record kept (p : Z) (s : kmem) (l : list Z) (s' : kmem) (l' : list Z) : Prop := {
  wk_ok : kmem_ok s' l';
  wk_end : kend s' = kend s;
  wk_tree : tree (kend s) (phys s') p;
  wk_free v : v ∈ l' → ¬ tpage (phys s') p v;
  wk_sub v : v ∈ l' → v ∈ l;
  wk_tpage v : tpage (phys s) p v → tpage (phys s') p v;
  wk_new v : tpage (phys s') p v → tpage (phys s) p v ∨ v ∈ l;
  wk_all v : v ∈ l → v ∈ l' ∨ tpage (phys s') p v;
  wk_mem v x : page (kend s) v → ¬ tpage (phys s) p v → v ∉ l → in_page v x → phys s' x = phys s x
}.

Lemma in_ram_off e v i : page e v → 0 ≤ i < 1024 → in_ram (v + 4 * i) = true ∧ V2P (v + 4 * i) = V2P v + 4 * i.
Proof.
  intros Hv Hi. pose proof Hv as (Hm & _ & Hr). destruct (page_V2P e v Hv) as (-> & _).
  unfold in_ram, V2P, u32, KERNBASE, PHYSTOP, PGSIZE in *.
  split; [apply andb_true_iff; rewrite Z.leb_le, Z.ltb_lt; dlia|]. rewrite Z.mod_small; dlia.
Qed.

Lemma walk_ok p va s l :
  kmem_ok s l → tree (kend s) (phys s) p → (∀ v, v ∈ l → ¬ tpage (phys s) p v) → 0 ≤ va < 2 ^ 32 →
  (∃ s' l', walkpgdir p va true s = Ok (Some (table (phys s') p (PDX va) + 4 * PTX va)) s' ∧
     kept p s l s' l' ∧ (length l ≤ S (length l'))%nat ∧ present (pde (phys s') p (PDX va)) = true ∧
     ∀ va', 0 ≤ va' < 2 ^ 32 → xlate (phys s') p va' = xlate (phys s) p va') ∨
  (l = [] ∧ ∃ s', walkpgdir p va true s = Ok None s' ∧ kept p s l s' [] ∧ phys s' = phys s).
Proof.
  intros Hok Ht Hd Hv. destruct (index_range va Hv) as [Hi Hj].
  destruct (in_ram_off _ _ _ (tr_dir _ _ _ Ht) Hi) as [Hram Ev].
  unfold walkpgdir. assert (E1 : kload (p + 4 * PDX va) s = Ok (pde (phys s) p (PDX va)) s).
  { unfold kload. by rewrite Hram, Ev. }
  rewrite (bind_ok _ _ _ _ _ E1). destruct (present (pde (phys s) p (PDX va))) eqn:Ep.
  - left. exists s, l. split_and!; [done| |lia|done|done]. by split; auto.
  - cbn [negb]. destruct (kalloc_ok s l Hok) as (s1 & E2 & Hok1 & Em & Ee & _).
    destruct l as [|r l]; cbn [hd tail] in *.
    + right. split; [done|]. exists s1. unfold mbind, cm_bind. rewrite E2. split_and!; [done| |done].
      split; rewrite ?Ee, ?Em; auto.
    + left. pose proof (km_pages _ _ Hok) as Hp. apply Forall_cons in Hp as [Hr Hp].
      pose proof (km_nodup _ _ Hok) as Hn. apply NoDup_cons in Hn as [Hrl _].
      assert (Hnew : ¬ tpage (phys s) p r) by (apply Hd; left).
      set (s2 := set_phys (memset (phys s1) (V2P r) 0 PGSIZE) s1).
      set (s3 := set_phys (with_table (phys s) p (PDX va) r) s2).
      assert (E3 : kstore (p + 4 * PDX va) (Z.lor (Z.lor (Z.lor (V2P r) PTE_P) PTE_W) PTE_U) s2 = Ok tt s3).
      { unfold kstore. rewrite Hram, Ev. destruct (page_V2P _ _ Hr) as (_ & Hr0 & _ & Hm).
        rewrite <- !Z.lor_assoc. change (Z.lor PTE_P (Z.lor PTE_W PTE_U)) with 7.
        rewrite lor_page by (first [done|unfold PGSIZE; lia]). simpl. by rewrite Em. }
      exists s3, l. assert (Et : table (phys s3) p (PDX va) = r).
      { change (phys s3) with (with_table (phys s) p (PDX va) r).
        rewrite (with_table_table (kend s)), Z.eqb_refl by done. done. }
      split_and!.
      * rewrite Et. unfold mbind, cm_bind. rewrite E2, (proj2 (Z.eqb_neq r 0)) by (by eapply page_pos).
        unfold fill_page. rewrite (page_ram _ _ Hr). fold s2. by rewrite E3.
      * assert (Ew : phys s3 = with_table (phys s) p (PDX va) r) by done. split; try setoid_rewrite Ew; try done.
        -- destruct Hok1 as [K1 K2 K3 K4 K5]. split; try done. simpl.
           apply (free_list_ext (kend s1) (phys s1)); [done| |done]. intros v x Hvl Hx. rewrite Em.
           rewrite Ee in K5. rewrite Forall_forall in K5.
           apply (with_table_frame (kend s)) with (v := v); try done; [by apply K5|congruence|].
           intros ->. apply (Hd p); [by right|by left].
        -- by apply with_table_tree.
        -- intros v Hvl. rewrite (with_table_tpage (kend s)) by done. intros [Hv'|Hv'].
           ++ apply (Hd v); [by right|done].
           ++ by rewrite Hv' in Hvl.
        -- intros v Hvl. by right.
        -- intros v Hv'. rewrite (with_table_tpage (kend s)) by done. by left.
        -- intros v. rewrite (with_table_tpage (kend s)) by done. intros [?|Hv']; [by left|right; rewrite Hv'; left].
        -- intros v. rewrite (with_table_tpage (kend s)) by done. intros [->|?]%elem_of_cons; [right; by right|by left].
        -- intros v x Hv' Hvp Hvl Hx. apply (with_table_frame (kend s)) with (v := v); try done.
           ++ intros ->. apply Hvl. left.
           ++ intros ->. apply Hvp. by left.
      * done.
      * change (phys s3) with (with_table (phys s) p (PDX va) r).
        rewrite (with_table_present (kend s)), Z.eqb_refl by done. done.
      * intros va' Hv'. by apply (with_table_xlate (kend s)).
Qed.

Lemma kept_trans p s l s1 l1 s2 l2 : kept p s l s1 l1 → kept p s1 l1 s2 l2 → kept p s l s2 l2.
Proof.
  intros [O1 E1 T1 F1 S1 P1 N1 A1 M1] [O2 E2 T2 F2 S2 P2 N2 A2 M2]. rewrite E1 in *. split; try done; auto.
  - intros v [Hv|Hv]%N2; auto.
  - intros v [Hv|Hv]%A1; auto.
  - intros v x Hv Hvp Hvl Hx. rewrite (M2 v), (M1 v); auto. intros [?|?]%N1; auto.
Qed.

(** Storing an entry. *)
Section entry.
Context (e : Z) (m : pmem) (p va v : Z).
Context (Ht : tree e m p) (Hva : 0 ≤ va < 2 ^ 32) (Hp : present (pde m p (PDX va)) = true) (Hv : 0 ≤ v < 2 ^ 32).

Definition with_entry : pmem := stw m (V2P (table m p (PDX va)) + 4 * PTX va) v.

Lemma with_entry_out x : ¬ in_page (table m p (PDX va)) x → with_entry x = m x.
Proof.
  intros Hx. destruct (index_range va Hva). apply stw_other. unfold in_page, PGSIZE in Hx. lia.
Qed.

Lemma with_entry_pde i : 0 ≤ i < 1024 → pde with_entry p i = pde m p i.
Proof.
  intros Hi. destruct (index_range va Hva) as [H1 _]. destruct (tr_tab _ _ _ Ht _ H1 Hp) as [Hpg Hne].
  apply ldw_page; [done|]. intros x Hx. apply with_entry_out.
  by apply (pages_apart e p _ x (tr_dir _ _ _ Ht) Hpg (not_eq_sym Hne)).
Qed.

Lemma with_entry_table i : 0 ≤ i < 1024 → table with_entry p i = table m p i.
Proof. intros Hi. unfold table. by rewrite with_entry_pde. Qed.

Lemma with_entry_tree : tree e with_entry p.
Proof.
  destruct Ht as [Hd Htab Hinj]. split; [done| |].
  - intros i Hi. rewrite with_entry_pde, with_entry_table by done. by apply Htab.
  - intros i j Hi Hj. rewrite !with_entry_pde, !with_entry_table by done. by apply Hinj.
Qed.

Lemma with_entry_tpage w : tpage with_entry p w ↔ tpage m p w.
Proof.
  unfold tpage. split; (intros [->|(i & Hi & H1 & H2)]; [by left|right; exists i]).
  - by rewrite with_entry_pde, with_entry_table in * by done.
  - by rewrite with_entry_pde, with_entry_table by done.
Qed.

Lemma with_entry_xlate va' :
  0 ≤ va' < 2 ^ 32 → xlate with_entry p va' = if vpn va' =? vpn va then v else xlate m p va'.
Proof.
  intros Hva'. destruct (index_range va Hva) as [H1 H2], (index_range va' Hva') as [H3 H4].
  unfold xlate. rewrite with_entry_pde, with_entry_table by done. destruct (vpn va' =? vpn va) eqn:E; zbool.
  - apply (index_inj va' va) in E as [-> ->]; [|done|done]. rewrite Hp. by apply ldw_stw_eq.
  - case_b; [|done]. destruct (decide (PDX va' = PDX va)) as [Ed|Ed].
    + rewrite Ed. apply ldw_stw_ne. assert (PTX va' ≠ PTX va) by (intros Et; apply E, (index_inj va' va); done). lia.
    + apply ldw_page; [done|]. intros x Hx. apply with_entry_out.
      destruct (tr_tab _ _ _ Ht _ H1 Hp) as [Hpg _], (tr_tab _ _ _ Ht _ H3 E0) as [Hpg' _].
      apply (pages_apart e _ _ x Hpg' Hpg); [|done]. intros Et. apply Ed. by apply (tr_inj _ _ _ Ht).
Qed.
End entry.

(** The entry of [va] set to [v], as a change of the state. *)
Lemma set_entry_kept p s l va v :
  kmem_ok s l → tree (kend s) (phys s) p → (∀ w, w ∈ l → ¬ tpage (phys s) p w) → 0 ≤ va < 2 ^ 32 →
  present (pde (phys s) p (PDX va)) = true → 0 ≤ v < 2 ^ 32 →
  let s' := set_phys (with_entry (phys s) p va v) s in
  kstore (table (phys s) p (PDX va) + 4 * PTX va) v s = Ok tt s' ∧ kmem_ok s' l ∧ kend s' = kend s ∧
  tree (kend s) (phys s') p ∧ (∀ w, tpage (phys s') p w ↔ tpage (phys s) p w) ∧
  (∀ w x, page (kend s) w → ¬ tpage (phys s) p w → in_page w x → phys s' x = phys s x).
Proof.
  intros Hok Ht Hd Hva Hp Hv s'. destruct (index_range va Hva) as [H1 H2].
  destruct (tr_tab _ _ _ Ht _ H1 Hp) as [Hpg _].
  destruct (in_ram_off _ _ _ Hpg H2) as [Hram Ev].
  assert (Hframe : ∀ w x, page (kend s) w → ¬ tpage (phys s) p w → in_page w x → phys s' x = phys s x).
  { intros w x Hw Hnt Hx. apply with_entry_out; try done. apply (pages_apart (kend s) w _ x Hw Hpg); [|done].
    intros ->. apply Hnt. right. eauto. }
  split_and!; try done.
  - unfold kstore. by rewrite Hram, Ev.
  - destruct Hok as [K1 K2 K3 K4 K5]. split; try done. apply (free_list_ext (kend s) (phys s)); [done| |done].
    rewrite Forall_forall in K5.
    intros w x Hw Hx. apply (Hframe w x); [by apply K5|by apply Hd|done].
  - by apply with_entry_tree.
  - intros w. by apply (with_entry_tpage (kend s)).
Qed.

Lemma kept_refl p s l :
  kmem_ok s l → tree (kend s) (phys s) p → (∀ v, v ∈ l → ¬ tpage (phys s) p v) → kept p s l s l.
Proof. intros. split; auto. Qed.

(** [f] with the [j] pages from [a] on mapped to the pages from [pa] on. *)
Definition remap (f : Z → Z) (a j pa fl : Z) : Z → Z := λ va,
  if (vpn a <=? vpn va) && (vpn va <? vpn a + j) then pa + PGSIZE * (vpn va - vpn a) + fl else f va.

Lemma remap_cons f a j pa fl va :
  0 ≤ a → a mod PGSIZE = 0 → 0 ≤ j → 0 ≤ va →
  remap (λ w, if vpn w =? vpn a then pa + fl else f w) (a + PGSIZE) j (pa + PGSIZE) fl va = remap f a (j + 1) pa fl va.
Proof.
  intros Ha Hm Hj Hva. unfold remap. replace (vpn (a + PGSIZE)) with (vpn a + 1) by (unfold vpn, PGSIZE in *; dlia).
  unfold PGSIZE. repeat case_b; try lia; done.
Qed.

(** One page: the walk, the test and the store. *)
Lemma map_one p va pa perm s l :
  kmem_ok s l → tree (kend s) (phys s) p → (∀ v, v ∈ l → ¬ tpage (phys s) p v) → 0 ≤ va < 2 ^ 32 →
  pa mod PGSIZE = 0 → 0 ≤ pa < 2 ^ 32 → 0 ≤ perm < PGSIZE → present (xlate (phys s) p va) = false →
  (∃ q s1 e s2 l', walkpgdir p va true s = Ok (Some q) s1 ∧ kload q s1 = Ok e s1 ∧ present e = false ∧
     kstore q (Z.lor (Z.lor pa perm) PTE_P) s1 = Ok tt s2 ∧ kept p s l s2 l' ∧ (length l ≤ S (length l'))%nat ∧
     ∀ va', 0 ≤ va' < 2 ^ 32 →
       xlate (phys s2) p va' = if vpn va' =? vpn va then pa + Z.lor perm PTE_P else xlate (phys s) p va') ∨
  (l = [] ∧ ∃ s1, walkpgdir p va true s = Ok None s1 ∧ kept p s l s1 [] ∧
     ∀ va', 0 ≤ va' < 2 ^ 32 → xlate (phys s1) p va' = xlate (phys s) p va').
Proof.
  intros Hok Ht Hd Hva Hpm Hpa Hf Hnp.
  destruct (walk_ok p va s l Hok Ht Hd Hva) as [(s1 & l' & E1 & K1 & Hn & Hp & X1)|(-> & s1 & E1 & K1 & Em)].
  2: { right. split; [done|]. exists s1. split_and!; [done|done|]. intros va' _. by rewrite Em. }
  left. destruct (index_range va Hva) as [H1 H2]. pose proof K1 as [O1 Ee1 T1 F1 S1 P1 N1 A1 M1].
  pose proof (perm_range perm Hf) as Hfl.
  assert (Ev : Z.lor (Z.lor pa perm) PTE_P = pa + Z.lor perm PTE_P).
  { rewrite <- Z.lor_assoc. apply lor_page; [lia|done|done]. }
  assert (Hv : 0 ≤ pa + Z.lor perm PTE_P < 2 ^ 32) by (unfold PGSIZE in *; change (2 ^ 32) with 4294967296 in *; dlia).
  rewrite <- Ee1 in T1.
  destruct (set_entry_kept p s1 l' va _ O1 T1 F1 Hva Hp Hv) as (E3 & O3 & Ee3 & T3 & P3 & M3).
  set (s2 := set_phys _ s1) in *. destruct (tr_tab _ _ _ T1 _ H1 Hp) as [Hpg _].
  destruct (in_ram_off _ _ _ Hpg H2) as [Hram Eq].
  exists (table (phys s1) p (PDX va) + 4 * PTX va), s1, (xlate (phys s1) p va), s2, l'. split_and!; try done.
  - unfold kload, xlate. by rewrite Hram, Eq, Hp.
  - by rewrite X1.
  - by rewrite Ev.
  - eapply kept_trans; [exact K1|]. split; try done.
    + intros v Hvl. rewrite P3. by apply F1.
    + intros v. by rewrite P3.
    + intros v. rewrite P3. by left.
    + intros v. by left.
    + intros v x Hv' Hnt _ Hx. by apply (M3 v).
  - intros va' Hva'. change (phys s2) with (with_entry (phys s1) p va (pa + Z.lor perm PTE_P)).
    rewrite (with_entry_xlate (kend s1)) by done. by rewrite X1.
Qed.

Lemma mappages_loop_ok n : ∀ p a last pa perm s l,
  kmem_ok s l → tree (kend s) (phys s) p → (∀ v, v ∈ l → ¬ tpage (phys s) p v) →
  0 ≤ a → a mod PGSIZE = 0 → last = a + PGSIZE * Z.of_nat n → last + PGSIZE ≤ 2 ^ 32 →
  pa mod PGSIZE = 0 → 0 ≤ pa → pa + PGSIZE * (Z.of_nat n + 1) ≤ 2 ^ 32 → 0 ≤ perm < PGSIZE →
  (∀ va, a ≤ va < last + PGSIZE → present (xlate (phys s) p va) = false) →
  ∃ r s' l' j, mappages_loop (S n) p a last pa perm s = Ok r s' ∧ kept p s l s' l' ∧
    (r = 0 ∧ j = Z.of_nat n + 1 ∨ r = -1 ∧ 0 ≤ j ≤ Z.of_nat n ∧ l' = []) ∧
    ∀ va, 0 ≤ va < 2 ^ 32 → xlate (phys s') p va = remap (xlate (phys s) p) a j pa (Z.lor perm PTE_P) va.
Proof.
  induction n as [|n IH]; intros p a last pa perm s l Hok Ht Hd Ha Hm El Hlast Hpm Hpa Hpe Hf Hnp.
  all: destruct (map_one p a pa perm s l Hok Ht Hd) as
      [(q & s1 & e & s2 & l1 & E1 & E2 & Ep & E3 & K & _ & X)|(_ & s1 & E1 & K & X)]; try done;
    [unfold PGSIZE in *; lia|unfold PGSIZE in *; lia|apply Hnp; unfold PGSIZE in *; lia| |].
  2, 4: exists (-1), s1, [], 0; split_and!; [unfold mappages_loop, mbind, cm_bind; by rewrite E1|done|right; split_and!; done || lia|];
    intros va Hva; rewrite X by done; unfold remap; case_b; [lia|done].
  - exists 0, s2, l1, 1. split_and!; [|done|left; lia|].
    + cbn [mappages_loop]. rewrite (bind_ok _ _ _ _ _ E1), (bind_ok _ _ _ _ _ E2), Ep, (bind_ok _ _ _ _ _ E3).
      by replace (a =? last) with true by (symmetry; apply Z.eqb_eq; unfold PGSIZE in *; lia).
    + intros va Hva. rewrite X by done. unfold remap.
      unfold PGSIZE. destruct (vpn va =? vpn a) eqn:E; zbool; case_b; try lia; done.
  - pose proof K as [O2 Ee2 T2 F2 S2 P2 N2 A2 M2]. rewrite <- Ee2 in T2.
    destruct (IH p (a + PGSIZE) last (pa + PGSIZE) perm s2 l1 O2 T2 F2) as (r & s' & l' & j & E & K' & Hr & X');
      try done; try (unfold PGSIZE in *; dlia).
    { intros va Hva. rewrite X by (unfold PGSIZE in *; lia). rewrite (proj2 (Z.eqb_neq _ _)).
      - apply Hnp. unfold PGSIZE in *. lia.
      - unfold vpn, PGSIZE in *. dlia. }
    exists r, s', l', (j + 1). split_and!; [|by eapply kept_trans|destruct Hr as [(? & ?)|(? & ? & ?)]; [left|right]; split_and!; done || lia|].
    + remember (S n) as fuel. cbn [mappages_loop].
      rewrite (bind_ok _ _ _ _ _ E1), (bind_ok _ _ _ _ _ E2), Ep, (bind_ok _ _ _ _ _ E3).
      replace (a =? last) with false by (symmetry; apply Z.eqb_neq; unfold PGSIZE in *; lia).
      unfold u32. rewrite !Z.mod_small by (unfold PGSIZE in *; lia). exact E.
    + intros va Hva. rewrite X' by done. rewrite <- remap_cons by (try done; lia). unfold remap.
      case_b; [done|]. by apply X.
Qed.

Lemma pgrounddown_eq a : PGROUNDDOWN a = PGSIZE * vpn a.
Proof. unfold PGROUNDDOWN, vpn. change (PGSIZE - 1) with 4095. apply PTE_ADDR_eq. Qed.

Lemma mappages_ok p va size pa perm s l :
  kmem_ok s l → tree (kend s) (phys s) p → (∀ v, v ∈ l → ¬ tpage (phys s) p v) →
  0 ≤ va → 0 < size → va + size ≤ 2 ^ 32 →
  let n := vpn (va + size - 1) - vpn va + 1 in
  pa mod PGSIZE = 0 → 0 ≤ pa → pa + PGSIZE * n ≤ 2 ^ 32 → 0 ≤ perm < PGSIZE →
  (∀ va', vpn va ≤ vpn va' < vpn va + n → 0 ≤ va' < 2 ^ 32 → present (xlate (phys s) p va') = false) →
  ∃ r s' l' j, mappages p va size pa perm s = Ok r s' ∧ kept p s l s' l' ∧
    (r = 0 ∧ j = n ∨ r = -1 ∧ 0 ≤ j < n ∧ l' = []) ∧
    ∀ va', 0 ≤ va' < 2 ^ 32 → xlate (phys s') p va' = remap (xlate (phys s) p) va j pa (Z.lor perm PTE_P) va'.
Proof.
  intros Hok Ht Hd Hva Hsz Hend n Hpm Hpa Hpe Hf Hnp.
  assert (Hn : 1 ≤ n) by (unfold n, vpn, PGSIZE; dlia).
  unfold mappages. rewrite (u32_small (va + size - 1)) by lia. rewrite !pgrounddown_eq.
  set (a := PGSIZE * vpn va). set (last := PGSIZE * vpn (va + size - 1)).
  assert (El : last = a + PGSIZE * Z.of_nat (Z.to_nat (n - 1))) by (unfold a, last, n in *; rewrite Z2Nat.id by lia; lia).
  assert (Hvpn : vpn a = vpn va) by (unfold a, vpn, PGSIZE; dlia).
  rewrite u32_small by (unfold a, last, vpn, PGSIZE in *; dlia).
  replace (Z.to_nat ((last - a) / PGSIZE + 1)) with (S (Z.to_nat (n - 1))) by (unfold PGSIZE in *; dlia).
  destruct (mappages_loop_ok (Z.to_nat (n - 1)) p a last pa perm s l Hok Ht Hd) as (r & s' & l' & j & E & K & Hr & X);
    try done; try (unfold a, last, vpn, PGSIZE in *; dlia).
  { intros va' Hva'. apply Hnp.
    - unfold a, last, n, vpn, PGSIZE in *. dlia.
    - unfold a, last, vpn, PGSIZE in *. dlia. }
  exists r, s', l', j. split_and!; [done|done| |].
  - destruct Hr as [(? & ?)|(? & ? & ?)]; [left|right]; split_and!; done || lia.
  - intros va' Hva'. rewrite X by done. unfold remap. by rewrite Hvpn.
Qed.

(** [mappages] maps.  Given a page table and pages of which none is mapped yet, it
    returns 0 with the pages of the range mapped in order and every other address
    translated as before; or, when memory runs out, -1 with a prefix of the range
    mapped and no free page left.  Memory outside the tables and the free pages is
    untouched. *)
Theorem mappages_maps p va size pa perm s l :
  kmem_ok s l → tree (kend s) (phys s) p → (∀ v, v ∈ l → ¬ tpage (phys s) p v) →
  0 ≤ va → 0 < size → va + size ≤ 2 ^ 32 →
  let n := vpn (va + size - 1) - vpn va + 1 in
  pa mod PGSIZE = 0 → 0 ≤ pa → pa + PGSIZE * n ≤ 2 ^ 32 → 0 ≤ perm < PGSIZE →
  (∀ va', vpn va ≤ vpn va' < vpn va + n → 0 ≤ va' < 2 ^ 32 → present (xlate (phys s) p va') = false) →
  returns (mappages p va size pa perm s) (λ r s', ∃ l' j,
    (r = 0 ∧ j = n ∨ r = -1 ∧ 0 ≤ j < n ∧ l' = []) ∧
    kmem_ok s' l' ∧ tree (kend s) (phys s') p ∧ (∀ v, v ∈ l' → v ∈ l ∧ ¬ tpage (phys s') p v) ∧
    (∀ va', 0 ≤ va' < 2 ^ 32 →
       xlate (phys s') p va' =
         if (vpn va <=? vpn va') && (vpn va' <? vpn va + j)
         then pa + PGSIZE * (vpn va' - vpn va) + Z.lor perm PTE_P else xlate (phys s) p va') ∧
    ∀ v x, page (kend s) v → ¬ tpage (phys s) p v → v ∉ l → in_page v x → phys s' x = phys s x).
Proof.
  intros Hok Ht Hd Hva Hsz Hend n Hpm Hpa Hpe Hf Hnp.
  destruct (mappages_ok p va size pa perm s l Hok Ht Hd Hva Hsz Hend Hpm Hpa Hpe Hf Hnp)
    as (r & s' & l' & j & E & K & Hr & X). rewrite E. simpl. exists l', j. destruct K. split_and!; try done.
  intros v Hv. split; [by apply wk_sub0|by apply wk_free0].
Qed.

(** A zeroed page as the directory, with the free pages of [ex_kmem]. *)
Definition ex_dir : Z := ex_base + 12288.

Lemma ex_kmem_ok : kmem_ok ex_kmem ex_free.
Proof.
  split; [by vm_compute|done|by vm_compute| |].
  - apply (bool_decide_unpack _). by vm_compute.
  - repeat constructor; by vm_compute.
Qed.

Lemma ex_pde i : 0 ≤ i < 1024 → pde (phys ex_kmem) ex_dir i = 0.
Proof.
  intros Hi. unfold pde. change (V2P ex_dir) with (EXTMEM + 12288). transitivity (ldw (λ _, 0) (EXTMEM + 12288 + 4 * i)); [|done].
  apply ldw_ext. intros x Hx. unfold ex_kmem. cbn [phys]. rewrite !stw_other by (unfold EXTMEM in *; lia). done.
Qed.

Lemma ex_tree : tree (kend ex_kmem) (phys ex_kmem) ex_dir.
Proof. split; [by vm_compute|intros i Hi|intros i j Hi Hj]; by rewrite ex_pde. Qed.

Lemma ex_no_tpage v : v ∈ ex_free → ¬ tpage (phys ex_kmem) ex_dir v.
Proof.
  intros Hv [->|(i & Hi & Hp & _)]; [|by rewrite ex_pde in Hp].
  unfold ex_free in Hv. rewrite !elem_of_cons, elem_of_nil in Hv. destruct Hv as [?|[?|[?|?]]]; done.
Qed.

Lemma ex_xlate va : 0 ≤ va < 2 ^ 32 → xlate (phys ex_kmem) ex_dir va = 0.
Proof. intros Hv. destruct (index_range va Hv). unfold xlate. by rewrite ex_pde. Qed.

