(* ===== verification/Uvm.v ===== *)
(** * User memory

    [allocuvm] and [deallocuvm] of [src/vm.c] over the page tables of [Vm].
    [uspace p s l M] says that exactly the user pages [M] of page table [p] are mapped,
    each to a physical page of its own that is neither free nor a table.

    Theorems: [allocuvm] extends a process by zeroed pages of its own or leaves its
    memory as it was; [deallocuvm] returns exactly the pages above the new size. *)
From S2P Require Import Prelude CString Bytes Kalloc Vm.

(** The user part of the address space, in pages. *)
Definition NUSER : Z := 524288.

(** The entry of virtual page [i], and the kernel's pointer to the page it maps. *)
Definition entry (s : kmem) (p i : Z) : Z := xlate (phys s) p (PGSIZE * i).
Definition upage (s : kmem) (p i : Z) : Z := P2V (PTE_ADDR (entry s p i)).

Record uspace (p : Z) (s : kmem) (l : list Z) (M : Z → bool) : Prop := {
  us_km : kmem_ok s l;
  us_tree : tree (kend s) (phys s) p;
  us_free v : v ∈ l → ¬ tpage (phys s) p v;
  us_in i : 0 ≤ i < NUSER → M i = true →
    present (entry s p i) = true ∧ page (kend s) (upage s p i) ∧ ¬ tpage (phys s) p (upage s p i) ∧
    upage s p i ∉ l;
  us_inj i j : 0 ≤ i < NUSER → 0 ≤ j < NUSER → M i = true → M j = true → upage s p i = upage s p j → i = j;
  us_out i : 0 ≤ i < NUSER → M i = false → present (entry s p i) = false
}.

Lemma user_va i : 0 ≤ i < NUSER → 0 ≤ PGSIZE * i < 2 ^ 32 ∧ vpn (PGSIZE * i) = i.
Proof. unfold vpn, NUSER, PGSIZE. intros. dlia. Qed.

(** A change that keeps the entries of the pages [M], and what the pages hold. *)
Record same_user (p : Z) (M : Z → bool) (s s' : kmem) : Prop := {
  su_entry i : 0 ≤ i < NUSER → M i = true → entry s' p i = entry s p i;
  su_mem i x : 0 ≤ i < NUSER → M i = true → in_page (upage s p i) x → phys s' x = phys s x
}.

Lemma same_user_refl p M s : same_user p M s s.
Proof. by split. Qed.

Lemma same_user_trans p M s s1 s2 : same_user p M s s1 → same_user p M s1 s2 → same_user p M s s2.
Proof.
  intros [E1 M1] [E2 M2]. split.
  - intros i Hi Hm. by rewrite E2, E1.
  - intros i x Hi Hm Hx. rewrite (M2 i), (M1 i); try done. unfold upage. by rewrite E1.
Qed.

Lemma same_user_sub p M M' s s' :
  (∀ i, 0 ≤ i < NUSER → M' i = true → M i = true) → same_user p M s s' → same_user p M' s s'.
Proof. intros Hs [E Hm]. split; auto. intros i x Hi HM. apply Hm; auto. Qed.

(** ** Unmapping a page *)

Lemma walk_find p va s l M :
  uspace p s l M → 0 ≤ va < 2 ^ 32 →
  walkpgdir p va false s =
    Ok (if present (pde (phys s) p (PDX va)) then Some (table (phys s) p (PDX va) + 4 * PTX va) else None) s.
Proof.
  intros U Hva. destruct (index_range va Hva) as [H1 H2].
  destruct (in_ram_off _ _ _ (tr_dir _ _ _ (us_tree _ _ _ _ U)) H1) as [Hram Ev].
  unfold walkpgdir, mbind, cm_bind, kload. rewrite Hram, Ev. fold (pde (phys s) p (PDX va)).
  by destruct (present _).
Qed.

Lemma kload_entry p va s l M :
  uspace p s l M → 0 ≤ va < 2 ^ 32 → present (pde (phys s) p (PDX va)) = true →
  kload (table (phys s) p (PDX va) + 4 * PTX va) s = Ok (xlate (phys s) p va) s.
Proof.
  intros U Hva Hp. destruct (index_range va Hva) as [H1 H2].
  destruct (tr_tab _ _ _ (us_tree _ _ _ _ U) _ H1 Hp) as [Hpg _].
  destruct (in_ram_off _ _ _ Hpg H2) as [Hram Eq]. unfold kload, xlate. by rewrite Hram, Eq, Hp.
Qed.

Lemma present_table p s l M i :
  uspace p s l M → 0 ≤ i < NUSER → M i = true → present (pde (phys s) p (PDX (PGSIZE * i))) = true.
Proof.
  intros U Hi Hm. destruct (us_in _ _ _ _ U i Hi Hm) as (Hp & _). unfold entry, xlate in Hp.
  by destruct (present (pde _ _ _)).
Qed.

(** The page of entry [i] freed and the entry cleared. *)
Lemma unmap_one p s l M i :
  uspace p s l M → 0 ≤ i < NUSER → M i = true →
  let M' := λ j, M j && negb (j =? i) in
  ∃ s1 s2, kfree (upage s p i) s = Ok tt s1 ∧
    kstore (table (phys s) p (PDX (PGSIZE * i)) + 4 * PTX (PGSIZE * i)) 0 s1 = Ok tt s2 ∧
    uspace p s2 (upage s p i :: l) M' ∧ same_user p M' s s2 ∧ kend s2 = kend s ∧
    (∀ w, tpage (phys s2) p w ↔ tpage (phys s) p w) ∧
    ∀ w x, page (kend s) w → ¬ tpage (phys s) p w → w ≠ upage s p i → in_page w x → phys s2 x = phys s x.
Proof.
  intros U Hi Hm M'. pose proof U as [Hok Ht Hd Hin Hinj Hout].
  destruct (Hin i Hi Hm) as (Hp & Hpg & Hnt & Hnl). set (v := upage s p i) in *.
  destruct (user_va i Hi) as [Hva Hvp]. set (va := PGSIZE * i) in *.
  destruct (kfree_ok s l v Hok Hpg Hnl) as (s1 & E1 & Hok1 & Hx1 & Ee1 & _).
  (* the tables are not in the freed page *)
  assert (Hs1 : ∀ w x, tpage (phys s) p w → in_page w x → phys s1 x = phys s x).
  { intros w x Hw Hx. apply Hx1. assert (Hpw : page (kend s) w).
    { destruct Hw as [->|(k & Hk & Hk1 & ->)]; [apply Ht|by apply (tr_tab _ _ _ Ht)]. }
    apply (pages_apart (kend s) w v x Hpw Hpg); [|done]. intros ->. done. }
  pose proof (tree_same _ _ _ _ Ht Hs1) as Ht1. rewrite <- Ee1 in Ht1.
  assert (Hd1 : ∀ w, w ∈ v :: l → ¬ tpage (phys s1) p w).
  { intros w Hw Hw'. apply (tpage_same _ _ _ Hs1) in Hw'.
    apply elem_of_cons in Hw as [->|Hw]; [done|by apply (Hd w)]. }
  assert (Hp1 : present (pde (phys s1) p (PDX va)) = true).
  { destruct (index_range va Hva). rewrite (pde_same _ _ _ Hs1) by done. by eapply present_table. }
  destruct (set_entry_kept p s1 (v :: l) va 0 Hok1 Ht1 Hd1 Hva Hp1) as (E2 & Hok2 & Ee2 & T2 & P2 & M2); [lia|].
  set (s2 := set_phys _ s1) in *. exists s1, s2.
  assert (Hent : ∀ j, 0 ≤ j < NUSER → entry s2 p j = if j =? i then 0 else entry s p j).
  { intros j Hj. destruct (user_va j Hj) as [Hvj Hvpj]. unfold entry.
    change (phys s2) with (with_entry (phys s1) p va 0). rewrite (with_entry_xlate (kend s1)), Hvp, Hvpj by done.
    case_b; [done|]. by rewrite (xlate_same _ _ _ Hs1). }
  assert (Hup : ∀ j, 0 ≤ j < NUSER → j ≠ i → upage s2 p j = upage s p j).
  { intros j Hj Hne. unfold upage. by rewrite Hent, (proj2 (Z.eqb_neq j i)) by done. }
  assert (HM : ∀ j, M' j = true ↔ M j = true ∧ j ≠ i).
  { intros j. unfold M'. rewrite andb_true_iff, negb_true_iff, Z.eqb_neq. done. }
  assert (Htp : ∀ w, tpage (phys s2) p w ↔ tpage (phys s) p w).
  { intros w. rewrite P2. by apply (tpage_same _ _ _ Hs1). }
  assert (Hfr : ∀ w x, page (kend s) w → ¬ tpage (phys s) p w → w ≠ v → in_page w x → phys s2 x = phys s x).
  { intros w x Hw Hwt Hwv Hx. rewrite (M2 w), Hx1; [done| | | |done].
    - by apply (pages_apart (kend s) w v x).
    - by rewrite Ee1.
    - intros Hw'. by apply (tpage_same _ _ _ Hs1) in Hw'. }
  split_and!; [done| | | |congruence|done|done].
  - destruct (index_range va Hva). by rewrite <- (table_same _ _ _ Hs1) by done.
  - split; try done.
    + intros w Hw Hw'. apply Htp in Hw'. apply elem_of_cons in Hw as [->|Hw]; [done|by apply (Hd w)].
    + intros j Hj [Hmj Hne]%HM. destruct (Hin j Hj Hmj) as (A1 & A2 & A3 & A4).
      rewrite Hup, Hent, (proj2 (Z.eqb_neq j i)), Htp by done. rewrite Ee2, Ee1. split_and!; try done.
      apply not_elem_of_cons. split; [|done]. intros E. apply Hne. by apply Hinj.
    + intros j k Hj Hk [Hmj Hnj]%HM [Hmk Hnk]%HM. rewrite !Hup by done. by apply Hinj.
    + intros j Hj Hmj. rewrite Hent by done. case_b; [done|]. apply Hout; [done|]. unfold M' in Hmj.
      rewrite (proj2 (Z.eqb_neq j i)) in Hmj by done. by rewrite andb_true_r in Hmj.
  - split.
    + intros j Hj [Hmj Hne]%HM. by rewrite Hent, (proj2 (Z.eqb_neq j i)).
    + intros j x Hj [Hmj Hne]%HM Hx. destruct (Hin j Hj Hmj) as (A1 & A2 & A3 & A4).
      apply (Hfr (upage s p j)); try done. intros E. apply Hne. by apply Hinj.
Qed.

(** ** [deallocuvm] *)

(** [M] without the pages from [lo] to [hi]. *)
Definition cut (M : Z → bool) (lo hi : Z) : Z → bool := λ i, M i && negb ((lo <=? i) && (i <? hi)).

(** The pages that hold [sz] bytes. *)
Definition pages (sz : Z) : Z := (sz + PGSIZE - 1) / PGSIZE.

Lemma uspace_ext p s l M M' : (∀ i, 0 ≤ i < NUSER → M' i = M i) → uspace p s l M → uspace p s l M'.
Proof.
  intros HM [Hok Ht Hd Hin Hinj Hout]. split; try done.
  - intros i Hi. rewrite HM by done. by apply Hin.
  - intros i j Hi Hj. rewrite !HM by done. by apply Hinj.
  - intros i Hi. rewrite HM by done. by apply Hout.
Qed.

(** What freeing the pages of [M] from [lo] to [hi] leaves. *)
Record freed (p lo hi : Z) (M : Z → bool) (s : kmem) (l : list Z) (s' : kmem) (l' : list Z) : Prop := {
  fr_space : uspace p s' l' (cut M lo hi);
  fr_same : same_user p (cut M lo hi) s s';
  fr_end : kend s' = kend s;
  fr_tpage v : tpage (phys s') p v ↔ tpage (phys s) p v;
  fr_list v : v ∈ l' ↔ v ∈ l ∨ ∃ i, 0 ≤ i < NUSER ∧ lo ≤ i < hi ∧ M i = true ∧ v = upage s p i;
  fr_mem v x : page (kend s) v → ¬ tpage (phys s) p v → (∀ i, 0 ≤ i < NUSER → M i = true → upage s p i ≠ v) →
    in_page v x → phys s' x = phys s x
}.

Lemma freed_none p lo hi M s l :
  uspace p s l M → (∀ i, 0 ≤ i < NUSER → lo ≤ i < hi → M i = false) → freed p lo hi M s l s l.
Proof.
  intros U Hn. split; [|apply same_user_refl|done|done| |done].
  - eapply uspace_ext; [|exact U]. intros i Hi. unfold cut. destruct ((lo <=? i) && (i <? hi)) eqn:E; zbool;
      [by rewrite Hn by lia|by rewrite andb_true_r].
  - intros v. split; [by left|]. intros [?|(i & Hi & Hr & Hm & _)]; [done|]. by rewrite Hn in Hm.
Qed.

(** A gap of unmapped pages at the start. *)
Lemma freed_skip p lo mid hi M s l s' l' :
  (∀ i, 0 ≤ i < NUSER → lo ≤ i < mid → M i = false) → lo ≤ mid →
  freed p mid hi M s l s' l' → freed p lo hi M s l s' l'.
Proof.
  intros Hn Hm [U S E T F X].
  assert (HM : ∀ i, 0 ≤ i < NUSER → cut M lo hi i = cut M mid hi i).
  { intros i Hi. unfold cut. destruct (decide (lo ≤ i < mid)) as [Hr|Hr]; [by rewrite Hn|].
    do 2 f_equal. apply eq_true_iff_eq. rewrite !andb_true_iff, !Z.leb_le, !Z.ltb_lt. lia. }
  split; [by eapply uspace_ext| |done|done| |done].
  - eapply same_user_sub; [|exact S]. intros i Hi. by rewrite HM.
  - intros v. rewrite F. split; (intros [?|(i & Hi & Hr & Hm' & ->)]; [by left|right; exists i]).
    + split_and!; done || lia.
    + destruct (decide (i < mid)); [by rewrite Hn in Hm' by lia|]. split_and!; done || lia.
Qed.

(** One mapped page freed, then the rest. *)
Lemma freed_cons p i hi M s l s2 s' l' :
  0 ≤ i < NUSER → i < hi → M i = true →
  let M' := λ j, M j && negb (j =? i) in
  same_user p M' s s2 → kend s2 = kend s → (∀ w, tpage (phys s2) p w ↔ tpage (phys s) p w) →
  (∀ w x, page (kend s) w → ¬ tpage (phys s) p w → w ≠ upage s p i → in_page w x → phys s2 x = phys s x) →
  freed p (i + 1) hi M' s2 (upage s p i :: l) s' l' → freed p i hi M s l s' l'.
Proof.
  intros Hi Hih Hm M' S2 E2 T2 X2 [U S E T F X].
  assert (HM : ∀ j, cut M i hi j = cut M' (i + 1) hi j).
  { intros j. unfold cut, M'. destruct (M j); [|done]. cbn [andb].
    apply eq_true_iff_eq. rewrite !andb_true_iff, !negb_true_iff, Z.eqb_neq, !andb_false_iff, !Z.leb_gt, !Z.ltb_ge. lia. }
  split; [by apply (uspace_ext _ _ _ _ _ (λ j _, HM j))| |congruence|by setoid_rewrite T| |].
  - eapply same_user_trans.
    + eapply same_user_sub; [|exact S2]. intros j Hj. rewrite HM. unfold cut. by intros [? _]%andb_true_iff.
    + eapply same_user_sub; [|exact S]. intros j Hj. by rewrite HM.
  - intros v. rewrite F, elem_of_cons. split.
    + intros [[->|Hv]|(j & Hj & Hr & Hmj & ->)].
      * right. exists i. split_and!; done || lia.
      * by left.
      * right. exists j. apply andb_true_iff in Hmj as Hmj'. destruct Hmj' as [Hmj' _]. split_and!; try (done || lia).
        unfold upage. by rewrite (su_entry _ _ _ _ S2).
    + intros [Hv|(j & Hj & Hr & Hmj & ->)]; [by left; right|].
      destruct (decide (j = i)) as [->|Hne]; [by left; left|]. right. exists j.
      assert (HM' : M' j = true) by (unfold M'; by rewrite Hmj, (proj2 (Z.eqb_neq j i))).
      split_and!; try (done || lia). unfold upage. by rewrite (su_entry _ _ _ _ S2).
  - intros v x Hv Hvt Hvu Hx. rewrite (X v), (X2 v); try done.
    + intros E'. by apply (Hvu i).
    + by rewrite E2.
    + by rewrite T2.
    + intros j Hj Hmj. unfold upage. rewrite (su_entry _ _ _ _ S2) by done. apply Hvu; [done|].
      by apply andb_true_iff in Hmj as [? _].
Qed.

Lemma PGADDR_dir k : 0 ≤ k < 1024 → PGADDR k 0 0 = 4194304 * k.
Proof.
  intros Hk. unfold PGADDR. rewrite Z.shiftl_0_l, !Z.lor_0_r, Z.shiftl_mul_pow2 by lia.
  change (2 ^ 22) with 4194304. rewrite u32_small; lia.
Qed.

(** The end of the directory entry of page [i], where the loop goes on when there is no table. *)
Lemma skip_dir i : 0 ≤ i < NUSER → ∃ k,
  u32 (u32 (PGADDR (PDX (PGSIZE * i) + 1) 0 0 - PGSIZE) + PGSIZE) = PGSIZE * k ∧ i < k ≤ NUSER ∧
  ∀ j, i ≤ j < k → PDX (PGSIZE * j) = PDX (PGSIZE * i).
Proof.
  intros Hi. destruct (user_va i Hi) as [Hva Hvp]. rewrite PDX_vpn, Hvp by done. unfold NUSER in *.
  exists (1024 * (i / 1024 + 1)). split_and!; [|dlia|dlia|].
  - rewrite PGADDR_dir by dlia. rewrite (u32_small (_ - _)) by (unfold PGSIZE; dlia).
    rewrite u32_small by (unfold PGSIZE; dlia). unfold PGSIZE. lia.
  - intros j Hj. destruct (user_va j) as [Hvj Hvpj]; [unfold NUSER; dlia|]. rewrite PDX_vpn, Hvpj by done. dlia.
Qed.

Lemma upage_pos p s l M i : uspace p s l M → 0 ≤ i < NUSER → M i = true → (PTE_ADDR (entry s p i) =? 0) = false.
Proof.
  intros U Hi Hm. destruct (us_in _ _ _ _ U i Hi Hm) as (_ & (_ & He & _) & _).
  pose proof (km_end _ _ (us_km _ _ _ _ U)). apply Z.eqb_neq. intros E0. unfold upage in He. rewrite E0 in He.
  change (P2V 0) with KERNBASE in He. lia.
Qed.

Lemma not_mapped p s l M i j :
  uspace p s l M → 0 ≤ i < NUSER → 0 ≤ j < NUSER → PDX (PGSIZE * j) = PDX (PGSIZE * i) →
  present (pde (phys s) p (PDX (PGSIZE * i))) = false → M j = false.
Proof.
  intros U Hi Hj Ed Hp. destruct (M j) eqn:Em; [|done].
  pose proof (present_table p s l M j U Hj Em). congruence.
Qed.

Lemma deallocuvm_loop_ok fuel : ∀ p i oldsz s l M,
  uspace p s l M → 0 ≤ i ≤ NUSER → 0 ≤ oldsz ≤ KERNBASE → pages oldsz - i ≤ Z.of_nat fuel →
  ∃ s' l', deallocuvm_loop fuel p (PGSIZE * i) oldsz s = Ok tt s' ∧ freed p i (pages oldsz) M s l s' l'.
Proof.
  induction fuel as [|fuel IH]; intros p i oldsz s l M U Hi Ho Hf; cbn [deallocuvm_loop].
  all: destruct (PGSIZE * i <? oldsz) eqn:E; zbool;
    [|exists s, l; split; [done|]; apply freed_none; [done|]; intros j Hj Hr; unfold pages, PGSIZE in *; dlia].
  { unfold pages, PGSIZE in *. dlia. }
  assert (Hi' : 0 ≤ i < NUSER) by (unfold KERNBASE, NUSER, PGSIZE in *; lia).
  assert (Hlt : i < pages oldsz ∧ pages oldsz ≤ NUSER) by (unfold pages, KERNBASE, NUSER, PGSIZE in *; dlia).
  destruct (user_va i Hi') as [Hva Hvp].
  rewrite (bind_ok _ _ _ _ _ (walk_find p (PGSIZE * i) s l M U Hva)).
  assert (Hnext : u32 (PGSIZE * i + PGSIZE) = PGSIZE * (i + 1)) by (rewrite u32_small; unfold NUSER, PGSIZE in *; lia).
  destruct (present (pde (phys s) p (PDX (PGSIZE * i)))) eqn:Ep.
  - rewrite (bind_ok _ _ _ _ _ (kload_entry p (PGSIZE * i) s l M U Hva Ep)). fold (entry s p i).
    destruct (M i) eqn:Em.
    + destruct (us_in _ _ _ _ U i Hi' Em) as (Hp & Hpg & _). rewrite Hp.
      rewrite (upage_pos _ _ _ _ _ U Hi' Em).
      destruct (unmap_one p s l M i U Hi' Em) as (s1 & s2 & E1 & E2 & U2 & S2 & Ee2 & T2 & X2).
      destruct (IH p (i + 1) oldsz s2 _ _ U2) as (s' & l' & E3 & Hfr); [lia|done|lia|].
      exists s', l'. split; [|eapply freed_cons; try done; lia].
      fold (upage s p i). unfold mbind at 1 2, cm_bind. rewrite E1, E2, Hnext. exact E3.
    + rewrite (us_out _ _ _ _ U i Hi' Em), Hnext.
      destruct (IH p (i + 1) oldsz s l M U) as (s' & l' & E3 & Hfr); [lia|done|lia|].
      exists s', l'. split; [exact E3|]. eapply freed_skip; [| |exact Hfr]; [|lia].
      intros j Hj Hr. by replace j with i by lia.
  - destruct (skip_dir i Hi') as (k & -> & Hk & Hin).
    destruct (IH p k oldsz s l M U) as (s' & l' & E3 & Hfr); [lia|done|lia|].
    exists s', l'. split; [exact E3|]. eapply freed_skip; [| |exact Hfr]; [|lia].
    intros j Hj Hr. apply (not_mapped p s l M i j); try done. apply Hin; lia.
Qed.

Lemma pages_eq sz : 0 ≤ sz ≤ KERNBASE → PGROUNDUP sz = PGSIZE * pages sz ∧ 0 ≤ pages sz ≤ NUSER.
Proof.
  intros Hs. destruct (pgroundup_mod sz) as [Hm Hr]; [lia|unfold KERNBASE, PGSIZE in *; lia|].
  unfold pages, KERNBASE, NUSER, PGSIZE in *. dlia.
Qed.

Lemma deallocuvm_ok p oldsz newsz s l M :
  uspace p s l M → 0 ≤ newsz < oldsz → oldsz ≤ KERNBASE →
  ∃ s' l', deallocuvm p oldsz newsz s = Ok newsz s' ∧ freed p (pages newsz) (pages oldsz) M s l s' l'.
Proof.
  intros U Hn Ho. destruct (pages_eq newsz) as [E Hp]; [lia|]. unfold deallocuvm.
  rewrite (proj2 (Z.leb_gt oldsz newsz)), E by lia.
  destruct (deallocuvm_loop_ok (Z.to_nat (oldsz / PGSIZE + 1)) p (pages newsz) oldsz s l M U) as (s' & l' & E1 & Hf);
    [lia|lia|unfold pages, PGSIZE in *; dlia|].
  exists s', l'. by rewrite (bind_ok _ _ _ _ _ E1).
Qed.

(** ** [allocuvm] *)

(** [M] and the pages from [lo] to [hi]. *)
Definition join (M : Z → bool) (lo hi : Z) : Z → bool := λ i, M i || ((lo <=? i) && (i <? hi)).

(** A page that is not in use: neither free, nor a table, nor a user page. *)
Record fresh (p : Z) (s : kmem) (l : list Z) (M : Z → bool) (v : Z) : Prop := {
  fs_page : page (kend s) v;
  fs_table : ¬ tpage (phys s) p v;
  fs_free : v ∉ l;
  fs_user j : 0 ≤ j < NUSER → M j = true → upage s p j ≠ v
}.

(** ** The pages of an address space *)

(** The page [w] is one of the tables of [p] or one of its user pages [M]. *)
Definition owned (p : Z) (s : kmem) (M : Z → bool) (w : Z) : Prop :=
  tpage (phys s) p w ∨ ∃ i, 0 ≤ i < NUSER ∧ M i = true ∧ w = upage s p i.

(** A change of [p] with pages of [l]: no page is lost, and the memory of the others is as it was. *)
Record confined (p : Z) (s : kmem) (l : list Z) (M : Z → bool) (s' : kmem) (l' : list Z) (M' : Z → bool) : Prop := {
  cf_end : kend s' = kend s;
  cf_pool v : v ∈ l' ∨ owned p s' M' v ↔ v ∈ l ∨ owned p s M v;
  cf_mem w x : page (kend s) w → w ∉ l → ¬ owned p s M w → in_page w x → phys s' x = phys s x
}.

Lemma confined_refl p s l M : confined p s l M s l M.
Proof. by split. Qed.

Lemma confined_trans p s l M s1 l1 M1 s2 l2 M2 :
  confined p s l M s1 l1 M1 → confined p s1 l1 M1 s2 l2 M2 → confined p s l M s2 l2 M2.
Proof.
  intros [E1 P1 F1] [E2 P2 F2]. split; [congruence|intros v; by rewrite P2|]. intros w x Hw Hl Ho Hx.
  assert (¬ (w ∈ l1 ∨ owned p s1 M1 w)) by (rewrite P1; tauto).
  rewrite (F2 w), (F1 w); try done; try tauto. by rewrite E1.
Qed.

Lemma owned_ext p s M M' w : (∀ i, 0 ≤ i < NUSER → M' i = M i) → owned p s M w ↔ owned p s M' w.
Proof. intros HM. unfold owned. split; (intros [?|(i & Hi & Hm & ->)]; [by left|right; exists i]); [rewrite HM|rewrite HM in Hm]; done. Qed.

Lemma confined_ext p s l M s' l' M' N N' :
  (∀ i, 0 ≤ i < NUSER → N i = M i) → (∀ i, 0 ≤ i < NUSER → N' i = M' i) →
  confined p s l M s' l' M' → confined p s l N s' l' N'.
Proof.
  intros H H' [E P F]. pose proof (λ w, owned_ext p s M N w H) as Ho. pose proof (λ w, owned_ext p s' M' N' w H') as Ho'.
  split; [done|intros v; by rewrite <- Ho, <- Ho'|]. intros w x Hw Hl Hn. apply F; try done. by rewrite Ho.
Qed.

(** With one more page in hand. *)
Lemma confined_more p s l M s' l' M' v : confined p s l M s' l' M' → confined p s (v :: l) M s' (v :: l') M'.
Proof.
  intros [E P F]. split; [done|intros w; specialize (P w); rewrite !elem_of_cons; tauto|].
  intros w x Hw [_ Hl]%not_elem_of_cons. by apply F.
Qed.

Lemma owned_same p M s s' w :
  same_user p M s s' → (∀ v, tpage (phys s') p v ↔ tpage (phys s) p v) → owned p s' M w ↔ owned p s M w.
Proof.
  intros S T. unfold owned. rewrite T. split; (intros [?|(i & Hi & Hm & ->)]; [by left|right; exists i]);
    unfold upage; by rewrite (su_entry _ _ _ _ S).
Qed.

(** The page in hand written, or freed. *)
Lemma confined_hand p s l M s' v :
  same_user p M s s' → kend s' = kend s → (∀ w, tpage (phys s') p w ↔ tpage (phys s) p w) →
  (∀ w x, page (kend s) w → w ≠ v → in_page w x → phys s' x = phys s x) →
  confined p s (v :: l) M s' (v :: l) M.
Proof.
  intros S E T F. split; [done|intros w; by rewrite (owned_same _ _ _ _ _ S T)|].
  intros w x Hw [Hv _]%not_elem_of_cons _. by apply F.
Qed.

(** Page [i], if it is a user page, entered for the page [v]; all else as it was. *)
Lemma kept_space p s l s' l' M i v e :
  uspace p s l M → kept p s l s' l' → fresh p s l M v → (0 ≤ i < NUSER → M i = false) →
  present e = true → P2V (PTE_ADDR e) = v →
  (∀ j, 0 ≤ j < NUSER → entry s' p j = if j =? i then e else entry s p j) →
  uspace p s' l' (join M i (i + 1)) ∧ same_user p M s s'.
Proof.
  intros [Hok Ht Hd Hin Hinj Hout] [O' E' T' F' S' P' N' A' M'] [Hv Hvt Hvl Hvu] Hi Hep Hea Hent.
  assert (HJ : ∀ j, join M i (i + 1) j = M j || (j =? i)).
  { intros j. unfold join. f_equal. apply eq_true_iff_eq. rewrite andb_true_iff, Z.leb_le, Z.ltb_lt, Z.eqb_eq. lia. }
  assert (Hold : ∀ j, 0 ≤ j < NUSER → M j = true → entry s' p j = entry s p j).
  { intros j Hj Hm. rewrite Hent by done. case_b; [|done]. subst j. rewrite Hi in Hm by done. done. }
  assert (Hup : ∀ j, 0 ≤ j < NUSER → j = i → upage s' p j = v ∧ present (entry s' p j) = true).
  { intros j Hj ->. unfold upage. rewrite Hent, Z.eqb_refl by done. done. }
  assert (Hnt : ∀ w, ¬ tpage (phys s) p w → w ∉ l → ¬ tpage (phys s') p w ∧ w ∉ l').
  { intros w H1 H2. split; [by intros [?|?]%N'|]. by intros ?%S'. }
  split; split; try done.
  - by rewrite E'.
  - intros j Hj Hm. rewrite HJ in Hm. rewrite E'. apply orb_true_iff in Hm as [Hm|Hm].
    + destruct (Hin j Hj Hm) as (A1 & A2 & A3 & A4). unfold upage. rewrite Hold by done. by split_and!; try apply Hnt.
    + zbool. destruct (Hup j Hj Hm) as [-> ->]. by split_and!; try apply Hnt.
  - intros j k Hj Hk Hmj Hmk. rewrite HJ in Hmj, Hmk. apply orb_true_iff in Hmj, Hmk.
    destruct Hmj as [Hmj|Hmj], Hmk as [Hmk|Hmk]; zbool.
    + unfold upage. rewrite !Hold by done. by apply Hinj.
    + destruct (Hup k Hk Hmk) as [-> _]. unfold upage. rewrite Hold by done. intros E. by destruct (Hvu j Hj Hmj).
    + destruct (Hup j Hj Hmj) as [-> _]. unfold upage. rewrite (Hold k) by done. intros E. by destruct (Hvu k Hk Hmk).
    + congruence.
  - intros j Hj Hm. rewrite HJ in Hm. apply orb_false_iff in Hm as [Hm Hji]. rewrite Hent, Hji by done. by apply Hout.
  - intros j x Hj Hm Hx. destruct (Hin j Hj Hm) as (A1 & A2 & A3 & A4). by apply (M' (upage s p j)).
Qed.

(** A change of the page [v] and of whether it is free. *)
Lemma same_space p s l s' l' M v :
  uspace p s l M → kmem_ok s' l' → kend s' = kend s →
  (∀ w x, page (kend s) w → w ≠ v → in_page w x → phys s' x = phys s x) →
  ¬ tpage (phys s) p v → (∀ j, 0 ≤ j < NUSER → M j = true → upage s p j ≠ v) →
  (∀ w, w ∈ l' → w = v ∨ w ∈ l) →
  uspace p s' l' M ∧ same_user p M s s' ∧ (∀ w, tpage (phys s') p w ↔ tpage (phys s) p w) ∧
  (∀ j, 0 ≤ j < NUSER → upage s' p j = upage s p j).
Proof.
  intros [Hok Ht Hd Hin Hinj Hout] Hok' Ee Hx Hvt Hvu Hl.
  assert (Hs : ∀ w x, tpage (phys s) p w → in_page w x → phys s' x = phys s x).
  { intros w x Hw. apply Hx; [|by intros ->]. destruct Hw as [->|(k & Hk & Hk1 & ->)]; [apply Ht|by apply (tr_tab _ _ _ Ht)]. }
  assert (Hent : ∀ j, 0 ≤ j < NUSER → entry s' p j = entry s p j).
  { intros j Hj. destruct (user_va j Hj). by apply (xlate_same _ _ _ Hs). }
  assert (Hup : ∀ j, 0 ≤ j < NUSER → upage s' p j = upage s p j) by (intros; unfold upage; by rewrite Hent).
  assert (Htp : ∀ w, tpage (phys s') p w ↔ tpage (phys s) p w) by (by apply tpage_same).
  split_and!; [| |done|done]; split; try done.
  - rewrite Ee. by eapply tree_same.
  - intros w Hw. rewrite Htp. destruct (Hl w Hw) as [->|?]; [done|by apply Hd].
  - intros j Hj Hm. rewrite Hent, Hup, Htp, Ee by done. destruct (Hin j Hj Hm) as (? & ? & ? & ?). split_and!; try done.
    intros [?|?]%Hl; [by apply (Hvu j)|done].
  - intros j k Hj Hk. rewrite !Hup by done. by apply Hinj.
  - intros j Hj. rewrite Hent by done. by apply Hout.
  - intros; by apply Hent.
  - intros j x Hj Hm. apply Hx; [by apply Hin|by apply Hvu].
Qed.

(** [kalloc] and [memset]: a fresh zeroed page. *)
Lemma take_page p s v l M :
  uspace p s (v :: l) M →
  ∃ s1 s2, kalloc s = Ok v s1 ∧ fill_page v 0 s1 = Ok tt s2 ∧ uspace p s2 l M ∧ same_user p M s s2 ∧
    confined p s (v :: l) M s2 (v :: l) M ∧ fresh p s2 l M v ∧ (∀ x, in_page v x → phys s2 x = 0).
Proof.
  intros U. pose proof (us_km _ _ _ _ U) as Hok.
  destruct (kalloc_ok s (v :: l) Hok) as (s1 & E1 & Hok1 & Em & Ee & _). cbn [hd tail] in *.
  pose proof (km_pages _ _ Hok) as Hp. apply Forall_cons in Hp as [Hv Hp].
  pose proof (km_nodup _ _ Hok) as Hn. apply NoDup_cons in Hn as [Hvl _].
  set (s2 := set_phys (memset (phys s1) (V2P v) 0 PGSIZE) s1).
  assert (Hx : ∀ x, phys s2 x = if bool_decide (in_page v x) then 0 else phys s x).
  { intros x. simpl. rewrite memset_spec, Em by (unfold PGSIZE; lia). unfold in_page.
    destruct (bool_decide _) eqn:E; [apply bool_decide_eq_true in E|apply bool_decide_eq_false in E]; case_b; done || lia. }
  assert (Hfr : ∀ w x, page (kend s) w → w ≠ v → in_page w x → phys s2 x = phys s x).
  { intros w x Hw Hne Hwx. rewrite Hx, bool_decide_eq_false_2; [done|]. by apply (pages_apart (kend s) w v x). }
  assert (Hvu : ∀ j, 0 ≤ j < NUSER → M j = true → upage s p j ≠ v).
  { intros j Hj Hm E. destruct (us_in _ _ _ _ U j Hj Hm) as (_ & _ & _ & Hnl). apply Hnl. rewrite E. left. }
  assert (Hvt : ¬ tpage (phys s) p v) by (apply (us_free _ _ _ _ U); left).
  assert (Hok2 : kmem_ok s2 l).
  { destruct Hok1 as [K1 K2 K3 K4 K5]. split; try done.
    apply (free_list_ext (kend s1) (phys s1)); [done| |done]. intros w x Hw Hwx.
    transitivity (phys s x); [|by rewrite Em]. apply (Hfr w); [|congruence|done].
    rewrite <- Ee. by eapply Forall_forall in K5. }
  destruct (same_space p s (v :: l) s2 l M v U Hok2 Ee Hfr Hvt Hvu) as (U2 & S2 & T2 & P2); [intros w; rewrite elem_of_cons; auto|].
  exists s1, s2. split_and!; try done.
  - unfold fill_page. by rewrite (page_ram _ _ Hv).
  - by apply confined_hand.
  - split; [change (kend s2) with (kend s1); by rewrite Ee|by rewrite T2|done|]. intros j Hj. rewrite P2 by done. by apply Hvu.
  - intros x Hvx. by rewrite Hx, bool_decide_eq_true_2.
Qed.

(** [kalloc] when no page is free. *)
Lemma take_none p s M :
  uspace p s [] M → ∃ s', kalloc s = Ok 0 s' ∧ uspace p s' [] M ∧ same_user p M s s' ∧ confined p s [] M s' [] M.
Proof.
  intros [Hok Ht Hd Hin Hinj Hout]. destruct (kalloc_ok s [] Hok) as (s' & E & Hok' & Em & Ee & _).
  exists s'. split_and!; [done|..]; split; unfold owned, upage, entry in *; rewrite ?Em, ?Ee; done.
Qed.

(** [kfree] of a fresh page. *)
Lemma give_page p s v l M :
  uspace p s l M → fresh p s l M v →
  ∃ s', kfree v s = Ok tt s' ∧ uspace p s' (v :: l) M ∧ same_user p M s s' ∧ kend s' = kend s ∧
    (∀ w, tpage (phys s') p w ↔ tpage (phys s) p w) ∧
    ∀ w x, page (kend s) w → w ≠ v → in_page w x → phys s' x = phys s x.
Proof.
  intros U [Hv Hvt Hvl Hvu]. destruct (kfree_ok s l v (us_km _ _ _ _ U) Hv Hvl) as (s' & E & Hok & Hx & Ee & _).
  assert (Hm : ∀ w x, page (kend s) w → w ≠ v → in_page w x → phys s' x = phys s x).
  { intros w x Hw Hne Hwx. apply Hx. by apply (pages_apart (kend s) w v x). }
  exists s'. destruct (same_space p s l s' (v :: l) M v U Hok Ee) as (U2 & S2 & T2 & _); try done.
  intros w. by rewrite elem_of_cons.
Qed.

(** [mappages] of one user page. *)
Lemma map_user p s l M i v perm :
  uspace p s l M → fresh p s l M v → 0 ≤ i < NUSER → M i = false → 0 ≤ perm < PGSIZE →
  (∃ s' l', mappages p (PGSIZE * i) PGSIZE (V2P v) perm s = Ok 0 s' ∧
     uspace p s' l' (join M i (i + 1)) ∧ same_user p M s s' ∧ kept p s l s' l' ∧
     entry s' p i = V2P v + Z.lor perm PTE_P ∧ (length l ≤ S (length l'))%nat) ∨
  (l = [] ∧ ∃ s', mappages p (PGSIZE * i) PGSIZE (V2P v) perm s = Ok (-1) s' ∧
     uspace p s' [] M ∧ same_user p M s s' ∧ kept p s [] s' [] ∧ fresh p s' [] M v).
Proof.
  intros U Fr Hi Hm Hf. destruct (user_va i Hi) as [Hva Hvp]. pose proof U as [Hok Ht Hd _ _ Hout].
  pose proof Fr as [Hv Hvt Hvl Hvu]. destruct (page_V2P _ _ Hv) as (_ & Hv0 & Hv1 & Hvm).
  destruct (perm_entry _ _ _ Hv Hf) as (He1 & He2 & _).
  unfold mappages. rewrite (u32_small (_ - 1)) by (unfold NUSER, PGSIZE in *; lia). rewrite !pgrounddown_eq, Hvp.
  replace (vpn (PGSIZE * i + PGSIZE - 1)) with i by (unfold vpn, PGSIZE; dlia).
  rewrite Z.sub_diag. change (Z.to_nat (u32 0 / PGSIZE + 1)) with 1%nat. cbn [mappages_loop].
  destruct (map_one p (PGSIZE * i) (V2P v) perm s l Hok Ht Hd Hva Hvm) as
    [(q & s1 & e & s2 & l1 & E1 & E2 & Ep & E3 & K & Hn & X)|(-> & s1 & E1 & K & X)];
    [unfold PHYSTOP, PGSIZE in *; lia|done|by apply Hout| |].
  - left. exists s2, l1. rewrite (bind_ok _ _ _ _ _ E1), (bind_ok _ _ _ _ _ E2), Ep, (bind_ok _ _ _ _ _ E3), Z.eqb_refl.
    assert (Hent : ∀ j, 0 ≤ j < NUSER → entry s2 p j = if j =? i then V2P v + Z.lor perm PTE_P else entry s p j).
    { intros j Hj. destruct (user_va j Hj) as [Hvj Hpj]. unfold entry. by rewrite X, Hvp, Hpj by done. }
    destruct (kept_space p s l s2 l1 M i v _ U K Fr (λ _, Hm) He1 He2 Hent) as [U2 S2]. split_and!; try done.
    by rewrite Hent, Z.eqb_refl by done.
  - right. split; [done|]. exists s1. rewrite (bind_ok _ _ _ _ _ E1).
    assert (Hent : ∀ j, 0 ≤ j < NUSER → entry s1 p j = if j =? -1 then V2P v + Z.lor perm PTE_P else entry s p j).
    { intros j Hj. destruct (user_va j Hj) as [Hvj Hpj]. unfold entry. rewrite X by done. case_b; [lia|done]. }
    destruct (kept_space p s [] s1 [] M (-1) v _ U K Fr ltac:(lia) He1 He2 Hent) as [U2 S2].
    split_and!; try done.
    + eapply uspace_ext; [|exact U2]. intros j Hj. unfold join. rewrite (proj2 (Z.ltb_ge j _)), andb_false_r by lia.
      by rewrite orb_false_r.
    + split; [by rewrite (wk_end _ _ _ _ _ K)| |done|].
      * by intros [?|?]%(wk_new _ _ _ _ _ K).
      * intros j Hj Hmj. unfold upage. rewrite (su_entry _ _ _ _ S2) by done. by apply Hvu.
Qed.

(** A page in hand mapped at [i]. *)
Lemma kept_confined p s l s' l' M i v :
  kept p s l s' l' → same_user p M s s' → 0 ≤ i < NUSER → M i = false → upage s' p i = v →
  confined p s (v :: l) M s' l' (join M i (i + 1)).
Proof.
  intros [O E T F L P N A X] S Hi Hm Hv.
  assert (Ho : ∀ w, owned p s' (join M i (i + 1)) w ↔ tpage (phys s') p w ∨ w = v ∨ ∃ j, 0 ≤ j < NUSER ∧ M j = true ∧ w = upage s p j).
  { intros w. unfold owned. split.
    - intros [?|(j & Hj & Hmj & ->)]; [by left|right]. unfold join in Hmj. apply orb_true_iff in Hmj as [Hmj|Hmj].
      + right. exists j. unfold upage. by rewrite (su_entry _ _ _ _ S).
      + zbool. assert (j = i) as -> by lia. by left.
    - intros [?|[->|(j & Hj & Hmj & ->)]]; [by left|right; exists i|right; exists j]; split; try done; unfold join.
      + rewrite (proj2 (Z.leb_le i i)), (proj2 (Z.ltb_lt i _)), orb_true_r by lia. done.
      + rewrite Hmj. unfold upage. by rewrite (su_entry _ _ _ _ S). }
  split; [done| |].
  - intros w. rewrite Ho, elem_of_cons. unfold owned. specialize (L w). specialize (P w). specialize (N w). specialize (A w). tauto.
  - intros w x Hw [_ Hl]%not_elem_of_cons Hn. apply X; try done. intros ?. apply Hn. by left.
Qed.

Lemma kept_none_confined p s s' M : kept p s [] s' [] → same_user p M s s' → confined p s [] M s' [] M.
Proof.
  intros [O E T F L P N A X] S. split; [done| |].
  - intros w. rewrite (owned_same _ _ _ _ _ S); [done|]. intros v. split; [|apply P]. intros [?|?%not_elem_of_nil]%N; done.
  - intros w x Hw Hl Hn. apply X; try done. intros ?. apply Hn. by left.
Qed.

Lemma freed_confined p lo hi M s l s' l' : freed p lo hi M s l s' l' → confined p s l M s' l' (cut M lo hi).
Proof.
  intros [U S E T F X].
  assert (Hc : ∀ i, cut M lo hi i = true ↔ M i = true ∧ ¬ (lo ≤ i < hi)).
  { intros i. unfold cut. rewrite andb_true_iff, negb_true_iff, andb_false_iff, Z.leb_gt, Z.ltb_ge.
    split; (intros [? ?]; split; [done|lia]). }
  split; [done| |].
  - intros w. rewrite F. unfold owned. rewrite T. split.
    + intros [[?|(i & Hi & _ & Hm & ->)]|[?|(i & Hi & Hm & ->)]]; [by left|right; right; eauto|by right; left|].
      right. right. exists i. unfold upage. rewrite (su_entry _ _ _ _ S) by done. apply Hc in Hm as [? _]. done.
    + intros [?|[?|(i & Hi & Hm & ->)]]; [by left; left|by right; left|].
      destruct (decide (lo ≤ i < hi)); [left; right; eauto|]. right. right. exists i.
      assert (cut M lo hi i = true) by (by apply Hc). unfold upage. by rewrite (su_entry _ _ _ _ S).
  - intros w x Hw Hl Hn. apply X; [done|intros ?; apply Hn; by left|]. intros i Hi Hm <-. apply Hn. right. eauto.
Qed.

Lemma fresh_freed p lo hi s l s' l' M v :
  freed p lo hi M s l s' l' → fresh p s l M v → fresh p s' l' (cut M lo hi) v.
Proof.
  intros [U S E T F _] [Hv Hvt Hvl Hvu]. split; [by rewrite E|by rewrite T| |].
  - intros [?|(i & Hi & _ & Hm & ->)]%F; [done|]. by apply (Hvu i).
  - intros j Hj Hm. unfold upage. rewrite (su_entry _ _ _ _ S) by done. apply Hvu; [done|].
    unfold cut in Hm. by apply andb_true_iff in Hm as [? _].
Qed.

(** Page [j] is writable and accessible to the process, and all zero. *)
Definition zeroed (s : kmem) (p j : Z) : Prop :=
  entry s p j = V2P (upage s p j) + Z.lor (Z.lor PTE_W PTE_U) PTE_P ∧ ∀ x, in_page (upage s p j) x → phys s x = 0.

Section alloc.
Context (p oldsz newsz : Z) (M : Z → bool).
Context (Hsz : 0 ≤ oldsz ≤ newsz) (Hnew : newsz < KERNBASE).
Context (HM : ∀ i, pages oldsz ≤ i < pages newsz → M i = false).

Lemma sizes_ok : 0 ≤ pages oldsz ∧ pages oldsz ≤ pages newsz ≤ NUSER ∧ oldsz ≤ PGSIZE * pages oldsz.
Proof. unfold pages, KERNBASE, NUSER, PGSIZE in *. dlia. Qed.

Lemma cut_join i : pages oldsz ≤ i ≤ pages newsz → ∀ j, cut (join M (pages oldsz) i) (pages oldsz) (pages newsz) j = M j.
Proof.
  intros Hi j. unfold cut, join. destruct (decide (pages oldsz ≤ j < pages newsz)) as [Hj|Hj].
  - rewrite HM by done. rewrite (proj2 (Z.leb_le _ j)), (proj2 (Z.ltb_lt j (pages newsz))) by lia. by rewrite andb_false_r.
  - replace ((pages oldsz <=? j) && (j <? pages newsz)) with false;
      [replace ((pages oldsz <=? j) && (j <? i)) with false; [by rewrite orb_false_r, andb_true_r|]|];
      symmetry; apply andb_false_iff; rewrite Z.leb_gt, Z.ltb_ge; lia.
Qed.

Lemma join_S i : pages oldsz ≤ i → ∀ j, join M (pages oldsz) (i + 1) j = join (join M (pages oldsz) i) i (i + 1) j.
Proof.
  intros Hi j. unfold join. rewrite <- orb_assoc. f_equal. apply eq_true_iff_eq.
  rewrite orb_true_iff, !andb_true_iff, !Z.leb_le, !Z.ltb_lt. lia.
Qed.

Lemma M_join i j : M j = true → join M (pages oldsz) i j = true.
Proof. unfold join. by intros ->. Qed.

(** The way out when memory is used up. *)
Lemma undo_alloc i s l :
  uspace p s l (join M (pages oldsz) i) → pages oldsz ≤ i ≤ pages newsz → oldsz < newsz →
  ∃ s' l', deallocuvm p newsz oldsz s = Ok oldsz s' ∧ uspace p s' l' M ∧ same_user p M s s' ∧
    confined p s l (join M (pages oldsz) i) s' l' M ∧
    ∀ v, fresh p s l (join M (pages oldsz) i) v → fresh p s' l' M v.
Proof.
  intros U Hi Hlt. destruct (deallocuvm_ok p newsz oldsz s l _ U) as (s' & l' & E & F); [lia|lia|].
  pose proof (cut_join i Hi) as Hc.
  pose proof F as [F1 F2 F3 _ _ _]. exists s', l'. split_and!; [done|..].
  - eapply uspace_ext; [|exact F1]. intros j _. by rewrite Hc.
  - eapply same_user_sub; [|exact F2]. intros j _. by rewrite Hc.
  - eapply confined_ext; [| |exact (freed_confined _ _ _ _ _ _ _ _ F)]; [done|]. intros j _. by rewrite Hc.
  - intros v Hv. destruct (fresh_freed _ _ _ _ _ _ _ _ _ F Hv) as [A1 A2 A3 A4]. split; try done.
    intros j Hj Hm. apply A4; [done|]. by rewrite Hc.
Qed.

Lemma allocuvm_loop_ok fuel : ∀ i s l,
  uspace p s l (join M (pages oldsz) i) → pages oldsz ≤ i ≤ pages newsz → pages newsz - i ≤ Z.of_nat fuel →
  ∃ r s' l', allocuvm_loop fuel p (PGSIZE * i) oldsz newsz s = Ok r s' ∧
    ((r = newsz ∧ uspace p s' l' (join M (pages oldsz) (pages newsz)) ∧ same_user p (join M (pages oldsz) i) s s' ∧
      confined p s l (join M (pages oldsz) i) s' l' (join M (pages oldsz) (pages newsz)) ∧
      ∀ j, i ≤ j < pages newsz → zeroed s' p j) ∨
     (r = 0 ∧ uspace p s' l' M ∧ same_user p M s s' ∧ confined p s l (join M (pages oldsz) i) s' l' M ∧
      Z.of_nat (length l) < 2 * (pages newsz - i))).
Proof.
  destruct sizes_ok as (H0 & H1 & H2).
  induction fuel as [|fuel IH]; intros i s l U Hi Hf; cbn [allocuvm_loop];
    (destruct (PGSIZE * i <? newsz) eqn:E; zbool;
      [|assert (i = pages newsz) as -> by (unfold pages, PGSIZE in *; dlia); exists newsz, s, l; split; [done|];
        left; split_and!; try done; intros; lia]).
  { unfold pages, PGSIZE in *. dlia. }
  assert (Hlt : i < pages newsz) by (unfold pages, PGSIZE in *; dlia).
  assert (Hon : oldsz < newsz) by (unfold PGSIZE in *; lia).
  assert (Hnext : u32 (PGSIZE * i + PGSIZE) = PGSIZE * (i + 1)) by (rewrite u32_small; unfold NUSER, PGSIZE in *; lia).
  assert (Hji : join M (pages oldsz) i i = false).
  { unfold join. rewrite HM, Z.ltb_irrefl, andb_false_r by lia. done. }
  destruct l as [|v l].
  - destruct (take_none _ _ _ U) as (s1 & E1 & U1 & S1 & C1). rewrite (bind_ok _ _ _ _ _ E1). cbn [Z.eqb].
    destruct (undo_alloc i s1 [] U1) as (s2 & l2 & E2 & U2 & S2 & C2 & _); [lia|done|].
    exists 0, s2, l2. rewrite (bind_ok _ _ _ _ _ E2). split; [done|]. right.
    split_and!; [done|done| |by eapply confined_trans|cbn [length]; lia]. eapply same_user_trans; [|exact S2].
    eapply same_user_sub; [|exact S1]. intros j _. apply M_join.
  - destruct (take_page _ _ _ _ _ U) as (s1 & s2 & E1 & E2 & U2 & S2 & C2 & Fr2 & Z2).
    rewrite (bind_ok _ _ _ _ _ E1), (proj2 (Z.eqb_neq v 0)) by (by eapply page_pos, Fr2).
    rewrite (bind_ok _ _ _ _ _ E2).
    destruct (map_user p s2 l _ i v (Z.lor PTE_W PTE_U) U2 Fr2) as
      [(s3 & l3 & E3 & U3 & S3 & K3 & P3 & Hl)|(-> & s3 & E3 & U3 & S3 & K3 & Fr3)]; [lia|done|by vm_compute| |].
    + assert (P3' : upage s3 p i = v).
      { destruct (perm_entry (kend s2) v (Z.lor PTE_W PTE_U) (fs_page _ _ _ _ _ Fr2)) as (_ & He & _); [by vm_compute|].
        unfold upage. by rewrite P3. }
      rewrite (bind_ok _ _ _ _ _ E3), Hnext. cbn [Z.ltb Z.compare].
      assert (U3' : uspace p s3 l3 (join M (pages oldsz) (i + 1))).
      { eapply uspace_ext; [|exact U3]. intros j _. apply join_S. lia. }
      assert (C3 : confined p s (v :: l) (join M (pages oldsz) i) s3 l3 (join M (pages oldsz) (i + 1))).
      { eapply confined_trans; [exact C2|]. eapply confined_ext; [..|exact (kept_confined _ _ _ _ _ _ i v K3 S3 ltac:(lia) Hji P3')];
          [done|]. intros j _. apply join_S. lia. }
      destruct (IH (i + 1) s3 l3 U3') as (r & s' & l' & E4 & Hr); [lia|lia|]. exists r, s', l'.
      split; [done|]. pose proof (same_user_trans _ _ _ _ _ S2 S3) as S13.
      destruct Hr as [(-> & U4 & S4 & C4 & Z4)|(-> & U4 & S4 & C4 & Hn)]; [left|right];
        split_and!; try done; try (by eapply confined_trans).
      * eapply same_user_trans; [exact S13|]. eapply same_user_sub; [|exact S4]. intros j _. unfold join.
        rewrite !orb_true_iff, !andb_true_iff, !Z.leb_le, !Z.ltb_lt. intros [?|?]; [by left|right; lia].
      * intros j Hj. destruct (decide (j = i)) as [->|Hne]; [|apply Z4; lia].
        assert (Hm : join M (pages oldsz) (i + 1) i = true).
        { unfold join. rewrite (proj2 (Z.leb_le _ i)), (proj2 (Z.ltb_lt i _)), orb_true_r by lia. done. }
        assert (Ei : entry s' p i = entry s3 p i) by (apply (su_entry _ _ _ _ S4); done || lia).
        unfold zeroed. unfold upage. rewrite Ei. fold (upage s3 p i). rewrite P3'. split; [done|]. intros x Hx.
        rewrite (su_mem _ _ _ _ S4 i) by (rewrite ?P3'; done || lia).
        rewrite (wk_mem _ _ _ _ _ K3 v) by (done || apply Fr2). by apply Z2.
      * eapply same_user_trans; [|exact S4]. eapply same_user_sub; [|exact S13]. intros j _. apply M_join.
      * cbn [length]. lia.
    + rewrite (bind_ok _ _ _ _ _ E3). cbn [Z.ltb Z.compare].
      destruct (undo_alloc i s3 [] U3) as (s4 & l4 & E4 & U4 & S4 & C4 & Fr4); [lia|done|].
      destruct (give_page p s4 v l4 M U4 (Fr4 v Fr3)) as (s5 & E5 & U5 & S5 & Ee5 & T5 & X5).
      exists 0, s5, (v :: l4). rewrite (bind_ok _ _ _ _ _ E4), (bind_ok _ _ _ _ _ E5).
      assert (C5 : confined p s [v] (join M (pages oldsz) i) s5 (v :: l4) M).
      { eapply confined_trans; [exact C2|]. eapply confined_trans; [exact (confined_more _ _ _ _ _ _ _ v (kept_none_confined _ _ _ _ K3 S3))|].
        eapply confined_trans; [exact (confined_more _ _ _ _ _ _ _ v C4)|]. by apply confined_hand. }
      split; [done|]. right. split_and!; [done|done| |done|cbn [length]; lia].
      eapply same_user_trans; [|eapply same_user_trans; [exact S4|exact S5]].
      eapply same_user_sub; [|eapply same_user_trans; [exact S2|exact S3]]. intros j _. apply M_join.
Qed.
End alloc.

Lemma allocuvm_ok p oldsz newsz s l M :
  uspace p s l M → 0 ≤ oldsz ≤ newsz → newsz < KERNBASE → (∀ i, pages oldsz ≤ i < pages newsz → M i = false) →
  ∃ r s' l', allocuvm p oldsz newsz s = Ok r s' ∧
    ((r = newsz ∧ uspace p s' l' (join M (pages oldsz) (pages newsz)) ∧ same_user p M s s' ∧
      confined p s l M s' l' (join M (pages oldsz) (pages newsz)) ∧
      ∀ j, pages oldsz ≤ j < pages newsz → zeroed s' p j) ∨
     (r = 0 ∧ uspace p s' l' M ∧ same_user p M s s' ∧ confined p s l M s' l' M ∧
      Z.of_nat (length l) < 2 * (pages newsz - pages oldsz))).
Proof.
  intros U Hsz Hnew HM. destruct (sizes_ok oldsz newsz Hsz Hnew) as (H0 & H1 & _).
  destruct (pages_eq oldsz) as [Ep _]; [lia|]. unfold allocuvm.
  rewrite (proj2 (Z.leb_gt KERNBASE newsz)), (proj2 (Z.ltb_ge newsz oldsz)), Ep by lia.
  assert (HJ : ∀ j, join M (pages oldsz) (pages oldsz) j = M j).
  { intros j. unfold join. replace ((pages oldsz <=? j) && (j <? pages oldsz)) with false; [by rewrite orb_false_r|].
    symmetry. apply andb_false_iff. rewrite Z.leb_gt, Z.ltb_ge. lia. }
  destruct (allocuvm_loop_ok p oldsz newsz M Hsz Hnew HM (Z.to_nat (newsz / PGSIZE + 1)) (pages oldsz) s l)
    as (r & s' & l' & E & Hr).
  - by apply (uspace_ext _ _ _ _ _ (λ j _, HJ j)).
  - lia.
  - unfold pages, PGSIZE in *. dlia.
  - exists r, s', l'. split; [done|].
    destruct Hr as [(-> & U' & S' & C' & Z')|(-> & U' & S' & C' & Hn)]; [left|right]; split_and!; try done;
      try (eapply confined_ext; [| |exact C']; [|done]; intros j _; by rewrite HJ).
    eapply same_user_sub; [|exact S']. intros j _. by rewrite HJ.
Qed.

(** C20: growing a process.  [allocuvm] gives it a page of its own, zeroed, for every
    new page and keeps its old pages and their contents; or it returns 0 with the
    process as it was.  Either way no page is lost, and memory that was neither free nor
    the process's is untouched.  It cannot fail while two free pages are left for each
    new one. *)
Theorem allocuvm_grows p oldsz newsz s l M :
  uspace p s l M → 0 ≤ oldsz ≤ newsz → newsz < KERNBASE → (∀ i, pages oldsz ≤ i < pages newsz → M i = false) →
  returns (allocuvm p oldsz newsz s) (λ r s', ∃ l',
    (r = newsz ∧ uspace p s' l' (join M (pages oldsz) (pages newsz)) ∧ same_user p M s s' ∧
     confined p s l M s' l' (join M (pages oldsz) (pages newsz)) ∧
     ∀ j, pages oldsz ≤ j < pages newsz → zeroed s' p j) ∨
    (r = 0 ∧ uspace p s' l' M ∧ same_user p M s s' ∧ confined p s l M s' l' M ∧
     Z.of_nat (length l) < 2 * (pages newsz - pages oldsz))).
Proof.
  intros U Hsz Hnew HM. destruct (allocuvm_ok p oldsz newsz s l M U Hsz Hnew HM) as (r & s' & l' & E & Hr).
  rewrite E. by exists l'.
Qed.

(** Shrinking a process.  [deallocuvm] unmaps exactly the pages above the new size
    and keeps the others with their contents.  The free pages afterwards are those that
    were free and the pages unmapped. *)
Theorem deallocuvm_frees p oldsz newsz s l M :
  uspace p s l M → 0 ≤ newsz < oldsz → oldsz ≤ KERNBASE →
  returns (deallocuvm p oldsz newsz s) (λ r s', r = newsz ∧ ∃ l',
    uspace p s' l' (cut M (pages newsz) (pages oldsz)) ∧ same_user p (cut M (pages newsz) (pages oldsz)) s s' ∧
    ∀ v, v ∈ l' ↔ v ∈ l ∨
      ∃ i, 0 ≤ i < NUSER ∧ pages newsz ≤ i < pages oldsz ∧ M i = true ∧ v = upage s p i).
Proof.
  intros U Hn Ho. destruct (deallocuvm_ok p oldsz newsz s l M U Hn Ho) as (s' & l' & E & [F1 F2 F3 F4 F5 _]).
  rewrite E. split; [done|]. by exists l'.
Qed.

(** An empty process. *)
Lemma ex_uspace : uspace ex_dir ex_kmem ex_free (λ _, false).
Proof.
  split; try done; [apply ex_kmem_ok|apply ex_tree|apply ex_no_tpage|].
  intros i Hi _. destruct (user_va i Hi). unfold entry. by rewrite ex_xlate.
Qed.

Lemma allocuvm_grows_witness :
  returns (allocuvm ex_dir 0 100 ex_kmem) (λ r s', r = 100 ∧ present (entry s' ex_dir 0) = true ∧
    phys s' (V2P (upage s' ex_dir 0) + 99) = 0).
Proof.
  eapply returns_mono; [apply (allocuvm_grows ex_dir 0 100 ex_kmem ex_free (λ _, false))|].
  - apply ex_uspace.
  - lia.
  - by vm_compute.
  - done.
  - intros r s' (l' & [(-> & U & _ & _ & Hz)|(_ & _ & _ & _ & Hn)]); [|vm_compute in Hn; done].
    destruct (us_in _ _ _ _ U 0) as (Hp & _); [by vm_compute|by vm_compute|]. split_and!; [done|done|].
    apply (Hz 0); [by vm_compute|]. unfold in_page, PGSIZE. lia.
Defined.

(** A process of one page. *)
Lemma ex_alloc : ∃ s1 l1, allocuvm ex_dir 0 100 ex_kmem = Ok 100 s1 ∧ uspace ex_dir s1 l1 (join (λ _, false) 0 1).
Proof.
  assert (H1 : 0 ≤ 0 ≤ 100) by lia. assert (H2 : 100 < KERNBASE) by done.
  destruct (allocuvm_ok ex_dir 0 100 ex_kmem ex_free (λ _, false) ex_uspace H1 H2 (λ _ _, eq_refl)) as
    (r & s1 & l1 & E & [(Er & U & _)|(_ & _ & _ & _ & Hn)]).
  - exists s1, l1. split; [rewrite E, Er; reflexivity|exact U].
  - exfalso. change (3 < 2) in Hn. lia.
Qed.

(** [uva2ka] does not test the result of [walkpgdir]: without a table it reads through a null pointer. *)
Lemma uva2ka_null_pte p va s l M :
  uspace p s l M → 0 ≤ va < 2 ^ 32 → present (pde (phys s) p (PDX va)) = false →
  uva2ka p va s = Ub "null pte".
Proof. intros U Hva Hp. unfold uva2ka. by rewrite (bind_ok _ _ _ _ _ (walk_find p va s l M U Hva)), Hp. Qed.
