(* ===== verification/UvmCopy.v ===== *)
(** * Copying a process

    [freevm], [setupkvm] and [copyuvm] of [src/vm.c]: a new address space [beside] that of a process, from pages
    that were free.  Two address spaces are [apart] when no page belongs to both.

    Theorem: [fork]'s copy has the parent's bytes in pages of its own, or nothing is left of it. *)
From S2P Require Import Prelude CString Bytes Kalloc Vm Uvm.

Lemma owned_page p s l M w : uspace p s l M → owned p s M w → page (kend s) w ∧ w ∉ l.
Proof.
  intros [Hok Ht Hd Hin _ _] [Hw|(i & Hi & Hm & ->)].
  - split; [|intros Hl; by apply (Hd w)]. destruct Hw as [->|(k & Hk & Hp & ->)]; [apply Ht|by apply (tr_tab _ _ _ Ht)].
  - destruct (Hin i Hi Hm) as (_ & ? & _ & ?). done.
Qed.

(** A change elsewhere. *)
Lemma owned_frame p s l M s' l' :
  uspace p s l M → kmem_ok s' l' → kend s' = kend s →
  (∀ w x, owned p s M w → in_page w x → phys s' x = phys s x) → (∀ w, w ∈ l' → ¬ owned p s M w) →
  uspace p s' l' M ∧ same_user p M s s' ∧ (∀ w, owned p s' M w ↔ owned p s M w).
Proof.
  intros [Hok Ht Hd Hin Hinj Hout] Hok' Ee Hx Hl.
  assert (Hs : ∀ w x, tpage (phys s) p w → in_page w x → phys s' x = phys s x) by (intros w x Hw; apply Hx; by left).
  assert (Hent : ∀ j, 0 ≤ j < NUSER → entry s' p j = entry s p j).
  { intros j Hj. destruct (user_va j Hj). by apply (xlate_same _ _ _ Hs). }
  assert (Hup : ∀ j, 0 ≤ j < NUSER → upage s' p j = upage s p j) by (intros; unfold upage; by rewrite Hent).
  assert (Htp : ∀ w, tpage (phys s') p w ↔ tpage (phys s) p w) by (by apply tpage_same).
  split_and!; [split; try done|split|].
  - rewrite Ee. by eapply tree_same.
  - intros w Hw. rewrite Htp. intros Ht'. apply (Hl w Hw). by left.
  - intros j Hj Hm. rewrite Hent, Hup, Htp, Ee by done. destruct (Hin j Hj Hm) as (? & ? & ? & ?). split_and!; try done.
    intros Hw. apply (Hl _ Hw). right. eauto.
  - intros j k Hj Hk. rewrite !Hup by done. by apply Hinj.
  - intros j Hj. rewrite Hent by done. by apply Hout.
  - intros; by apply Hent.
  - intros j x Hj Hm. apply Hx. right. eauto.
  - intros w. unfold owned. rewrite Htp. split; (intros [?|(i & Hi & Hm & ->)]; [by left|right; exists i]); by rewrite Hup.
Qed.

Definition apart (p d : Z) (s : kmem) (M N : Z → bool) : Prop := ∀ w, owned p s M w → ¬ owned d s N w.

(** ** [freevm] *)

(** The tables, one after the other.  The directory stays readable. *)
Lemma freevm_loop_ok n : ∀ d i s l,
  0 ≤ i → i + Z.of_nat n = 1024 → kmem_ok s l → tree (kend s) (phys s) d → d ∉ l →
  (∀ k, i ≤ k < 1024 → present (pde (phys s) d k) = true → table (phys s) d k ∉ l) →
  ∃ s' l', freevm_loop n d i s = Ok tt s' ∧ kmem_ok s' l' ∧ kend s' = kend s ∧ (d ∉ l') ∧
    (∀ v, v ∈ l' ↔ v ∈ l ∨ ∃ k, i ≤ k < 1024 ∧ present (pde (phys s) d k) = true ∧ v = table (phys s) d k) ∧
    ∀ v x, page (kend s) v → (v = d ∨ ¬ tpage (phys s) d v) → in_page v x → phys s' x = phys s x.
Proof.
  induction n as [|n IH]; intros d i s l Hi Hn Hok Ht Hd Hk; cbn [freevm_loop].
  { exists s, l. split_and!; try done. intros v. split; [by left|]. intros [?|(k & ? & _)]; [done|lia]. }
  destruct (in_ram_off _ _ i (tr_dir _ _ _ Ht)) as [Hram Ev]; [lia|].
  assert (E1 : kload (d + 4 * i) s = Ok (pde (phys s) d i) s) by (unfold kload; by rewrite Hram, Ev).
  rewrite (bind_ok _ _ _ _ _ E1). destruct (present (pde (phys s) d i)) eqn:Ep.
  2: { rewrite bind_ret. destruct (IH d (i + 1) s l) as (s' & l' & E & H); try done; try lia.
       - intros k Hr. apply Hk. lia.
       - destruct H as (H1 & H2 & H3 & H4 & H5). exists s', l'. split_and!; try done. intros v. rewrite H4.
         split; (intros [?|(k & ? & Hpk & ?)]; [by left|right; exists k; split_and!; try done; try lia]).
         destruct (decide (k = i)) as [->|]; [congruence|lia]. }
  destruct (tr_tab _ _ _ Ht i ltac:(lia) Ep) as [Hp Hne]. fold (table (phys s) d i).
  destruct (kfree_ok s l (table (phys s) d i) Hok Hp (Hk i ltac:(lia) Ep)) as (s1 & E2 & Hok1 & Hx & Ee & _).
  rewrite (bind_ok _ _ _ _ _ E2).
  assert (Hdir : ∀ x, in_page d x → phys s1 x = phys s x).
  { intros x Hdx. apply Hx. by apply (pages_apart (kend s) d _ x (tr_dir _ _ _ Ht) Hp (not_eq_sym Hne)). }
  assert (Hpde : ∀ k, 0 ≤ k < 1024 → pde (phys s1) d k = pde (phys s) d k) by (intros k Hk'; by apply ldw_page).
  assert (Htab : ∀ k, 0 ≤ k < 1024 → table (phys s1) d k = table (phys s) d k) by (intros; unfold table; by rewrite Hpde).
  assert (Htp : ∀ v, tpage (phys s1) d v ↔ tpage (phys s) d v).
  { intros v. unfold tpage. split; (intros [->|(k & Hr & H1 & H2)]; [by left|right; exists k]);
      rewrite ?Hpde, ?Htab in * by done; done. }
  destruct (IH d (i + 1) s1 (table (phys s) d i :: l)) as (s' & l' & E & Hok' & Ee' & Hd' & Hl' & Hm'); try done; try lia.
  - destruct Ht as [T1 T2 T3]. rewrite Ee. split; [done|..].
    + intros k Hr. rewrite Hpde, Htab by done. by apply T2.
    + intros k k' Hr Hr'. rewrite !Hpde, !Htab by done. by apply T3.
  - apply not_elem_of_cons. done.
  - intros k Hr. rewrite Hpde, Htab by lia. intros Hpk. apply not_elem_of_cons. split; [|apply Hk; [lia|done]].
    intros Et. assert (k = i); [|lia]. apply (tr_inj _ _ _ Ht); try done; lia.
  - exists s', l'. split_and!; try done; [congruence| |].
    + intros v. rewrite Hl', elem_of_cons. split.
      * intros [[->|Hv]|(k & Hr & H1 & ->)]; [right|by left|right].
        -- exists i. split_and!; done || lia.
        -- exists k. rewrite Hpde in H1 by lia. rewrite Htab by lia. split_and!; done || lia.
      * intros [Hv|(k & Hr & H1 & ->)]; [by left; right|]. destruct (decide (k = i)) as [->|Hki]; [by left; left|].
        right. exists k. rewrite Hpde, Htab by lia. split_and!; done || lia.
    + intros v x Hv Hvt Hvx. rewrite (Hm' v), Hx; try done.
      * apply (pages_apart (kend s) v _ x Hv Hp); [|done]. intros ->. destruct Hvt as [?|Hvt]; [done|].
        apply Hvt. right. exists i. split; [lia|done].
      * by rewrite Ee.
      * destruct Hvt as [->|Hvt]; [by left|right]. by rewrite Htp.
Qed.

(** Every page of the address space is free again, and no other. *)
Lemma freevm_ok d s l N :
  uspace d s l N →
  ∃ s' l', freevm d s = Ok tt s' ∧ kmem_ok s' l' ∧ kend s' = kend s ∧ (∀ v, v ∈ l' ↔ v ∈ l ∨ owned d s N v) ∧
    ∀ v x, page (kend s) v → ¬ owned d s N v → in_page v x → phys s' x = phys s x.
Proof.
  intros U. pose proof U as [Hok Ht Hd Hin Hinj Hout]. unfold freevm.
  rewrite (proj2 (Z.eqb_neq d 0)) by (by eapply page_pos, Ht).
  destruct (deallocuvm_ok d KERNBASE 0 s l N U) as (s1 & l1 & E1 & [F1 F2 F3 F4 F5 F6]); [by vm_compute|done|].
  rewrite (bind_ok _ _ _ _ _ E1). change (pages 0) with 0 in *. change (pages KERNBASE) with NUSER in *.
  pose proof F1 as [K1 T1 D1 _ _ _].
  assert (Htt : ∀ k, 0 ≤ k < 1024 → present (pde (phys s1) d k) = true → tpage (phys s1) d (table (phys s1) d k)).
  { intros k Hk Hp. right. eauto. }
  destruct (freevm_loop_ok 1024 d 0 s1 l1) as (s2 & l2 & E2 & K2 & Ee2 & Hd2 & Hl2 & Hm2); try done.
  { intros Hdl. apply (D1 d Hdl). by left. }
  { intros k Hk Hp Hl. apply (D1 _ Hl). by apply Htt. }
  change (Z.to_nat NPDENTRIES) with 1024%nat. rewrite (bind_ok _ _ _ _ _ E2).
  destruct (kfree_ok s2 l2 d K2) as (s3 & E3 & K3 & Hx3 & Ee3 & _); [rewrite Ee2; apply T1|done|].
  exists s3, (d :: l2). split_and!; [done|done|congruence| |].
  - intros v. rewrite elem_of_cons, Hl2, F5. unfold owned. rewrite <- F4. split.
    + intros [->|[[?|(i & Hi & _ & Hm & ->)]|(k & Hk & Hp & ->)]]; [right; by left; left|by left|right; right; eauto|].
      right. left. by apply Htt.
    + intros [?|[[->|(k & Hk & Hp & ->)]|(i & Hi & Hm & ->)]]; [by right; left; left|by left|right; right; eauto|].
      right. left. right. exists i. done.
  - intros v x Hv Hvo Hx. assert (Hvt : ¬ tpage (phys s) d v) by (intros ?; apply Hvo; by left).
    rewrite Hx3, (Hm2 v), (F6 v); try done.
    + intros i Hi Hm E. apply Hvo. right. exists i. done.
    + by rewrite F3.
    + right. by rewrite F4.
    + apply (pages_apart (kend s) v d x Hv (tr_dir _ _ _ Ht)); [|done]. intros ->. apply Hvt. by left.
Qed.

(** ** How many pages an address space takes *)

Definition within (P : Z → Prop) (n : Z) : Prop := ∃ L, Z.of_nat (length L) ≤ n ∧ ∀ v, P v → v ∈ L.

Lemma tpage_within m d : within (tpage m d) 1025.
Proof.
  exists (d :: (table m d <$> seqZ 0 1024)). cbn [length]. rewrite length_fmap, length_seqZ. split; [lia|].
  intros v [->|(i & Hi & _ & ->)]; [left|right]. apply list_elem_of_fmap. exists i. split; [done|]. by apply elem_of_seqZ.
Qed.

Lemma within_length P l n : within P n → (∀ v, v ∈ l → P v) → NoDup l → Z.of_nat (length l) ≤ n.
Proof.
  intros (L & Hl & HL) Hs Hn. assert (l ⊆+ L) by (apply NoDup_submseteq; [done|]; intros v Hv; by apply HL, Hs).
  pose proof (submseteq_length l L ltac:(done)). lia.
Qed.

(** ** [setupkvm] *)

Definition no_pages : Z → bool := λ _, false.

Lemma owned_none d s w : owned d s no_pages w ↔ tpage (phys s) d w.
Proof. split; [intros [?|(i & _ & ? & _)]; done|by left]. Qed.

(** How many pages a range of [kmap] has. *)
Definition npages (virt size : Z) : Z := vpn (virt + size - 1) - vpn virt + 1.

(** Ranges from page [b] on, one above the other. *)
Fixpoint ascending (b : Z) (ks : list (Z * Z * Z * Z)) : Prop :=
  match ks with
  | [] => True
  | (virt, ps, pe, perm) :: ks' =>
      let size := u32 (pe - ps) in
      b ≤ vpn virt ∧ 0 ≤ virt ∧ 0 < size ∧ virt + size ≤ 2 ^ 32 ∧ ps mod PGSIZE = 0 ∧ 0 ≤ ps ∧
      ps + PGSIZE * npages virt size ≤ 2 ^ 32 ∧ 0 ≤ perm < PGSIZE ∧ ascending (vpn virt + npages virt size) ks'
  end.

(** [data] is the start of a page, as the linker script has it. *)
Lemma kmap_ascending data :
  data mod PGSIZE = 0 → KERNLINK < data < KERNBASE + PHYSTOP → ascending NUSER (kmap data).
Proof.
  intros Hm Hd. unfold KERNLINK, KERNBASE, EXTMEM, PHYSTOP, PGSIZE in *.
  assert (Ev : V2P data = data - 2 ^ 31) by (unfold V2P, u32, KERNBASE; rewrite Z.mod_small; lia).
  assert (E1 : u32 (V2P data - V2P KERNLINK) = data - 2 ^ 31 - 1048576).
  { rewrite Ev. change (V2P KERNLINK) with 1048576. rewrite u32_small; lia. }
  assert (E2 : u32 (PHYSTOP - V2P data) = 234881024 - (data - 2 ^ 31)) by (rewrite Ev; unfold PHYSTOP; rewrite u32_small; lia).
  cbn [kmap ascending]. rewrite E1, E2, Ev. change (u32 (EXTMEM - 0)) with 1048576. change (u32 (0 - DEVSPACE)) with 33554432.
  change (V2P KERNLINK) with 1048576. unfold npages, vpn, KERNBASE, KERNLINK, EXTMEM, KERNBASE, DEVSPACE, NUSER, PTE_W, PGSIZE.
  split_and!; try done; dlia.
Qed.

(** The pages free or in tables stay the same. *)
Record built (d : Z) (s : kmem) (l : list Z) (s' : kmem) (l' : list Z) : Prop := {
  bu_end : kend s' = kend s;
  bu_list v : v ∈ l' ∨ tpage (phys s') d v ↔ v ∈ l ∨ tpage (phys s) d v;
  bu_mem v x : page (kend s) v → ¬ tpage (phys s) d v → v ∉ l → in_page v x → phys s' x = phys s x
}.

Lemma kept_built d s l s' l' : kept d s l s' l' → built d s l s' l'.
Proof.
  intros [O E T F S P N A M]. split; [done| |done]. intros v. split.
  - intros [Hv|Hv]; [left; by apply S|]. apply N in Hv as [?|?]; [by right|by left].
  - intros [Hv|Hv]; [by apply A|right; by apply P].
Qed.

Lemma built_trans d s l s1 l1 s2 l2 : built d s l s1 l1 → built d s1 l1 s2 l2 → built d s l s2 l2.
Proof.
  intros [E1 L1 M1] [E2 L2 M2]. split; [congruence|intros v; by rewrite L2|].
  intros v x Hv Ht Hl Hx. assert (Hn : ¬ (v ∈ l1 ∨ tpage (phys s1) d v)) by (rewrite L1; tauto).
  rewrite (M2 v), (M1 v); try done; [by rewrite E1| |]; tauto.
Qed.

(** The directory given back with its tables. *)
Lemma built_freevm d s l :
  uspace d s l no_pages →
  ∃ s' l', freevm d s = Ok tt s' ∧ kmem_ok s' l' ∧ kend s' = kend s ∧
    (∀ v, v ∈ l' ↔ v ∈ l ∨ tpage (phys s) d v) ∧
    ∀ v x, page (kend s) v → ¬ tpage (phys s) d v → in_page v x → phys s' x = phys s x.
Proof.
  intros U. destruct (freevm_ok d s l no_pages U) as (s' & l' & E & K & Ee & Hl & Hm). exists s', l'.
  split_and!; try done; [intros v; by rewrite Hl, owned_none|]. intros v x Hv Hn. apply Hm; [done|]. by rewrite owned_none.
Qed.

Lemma setupkvm_loop_ok ks : ∀ d b s l,
  uspace d s l no_pages → NUSER ≤ b → ascending b ks →
  (∀ va, b ≤ vpn va → 0 ≤ va < 2 ^ 32 → present (xlate (phys s) d va) = false) →
  ∃ r s' l', setupkvm_loop d ks s = Ok r s' ∧
    ((r = d ∧ uspace d s' l' no_pages ∧ built d s l s' l') ∨
     (r = 0 ∧ kmem_ok s' l' ∧ kend s' = kend s ∧ (∀ v, v ∈ l' ↔ v ∈ l ∨ tpage (phys s) d v) ∧
      (∀ v x, page (kend s) v → ¬ tpage (phys s) d v → v ∉ l → in_page v x → phys s' x = phys s x) ∧
      within (λ v, v ∈ l ∨ tpage (phys s) d v) 1025)).
Proof.
  induction ks as [|[[[virt ps] pe] perm] ks IH]; intros d b s l U Hb Ha Hno; cbn [setupkvm_loop].
  { exists d, s, l. split; [done|]. left. by split_and!. }
  destruct Ha as (A1 & A2 & A3 & A4 & A5 & A6 & A7 & A8 & A9). set (size := u32 (pe - ps)) in *.
  pose proof U as [Hok Ht Hd _ _ Hout].
  destruct (mappages_ok d virt size ps perm s l Hok Ht Hd A2 A3 A4 A5 A6 A7 A8) as (r & s1 & l1 & j & E1 & K & Hr & X).
  { intros va Hva. apply Hno. lia. }
  rewrite (bind_ok _ _ _ _ _ E1). pose proof (kept_built _ _ _ _ _ K) as B. pose proof B as [Be Bl Bm]. pose proof K as [O1 Ee1 T1 F1 _ _ _ _ _].
  assert (Hj : 0 ≤ j ≤ npages virt size) by (unfold npages in *; destruct Hr as [[_ ->]|(_ & ? & _)]; unfold vpn, PGSIZE in *; dlia).
  assert (U1 : uspace d s1 l1 no_pages).
  { split; try done; [by rewrite Ee1|]. intros i Hi _. destruct (user_va i Hi) as [Hva Hvp]. unfold entry. rewrite X by done.
    unfold remap. rewrite Hvp, (proj2 (Z.leb_gt (vpn virt) i)) by lia. by apply Hout. }
  destruct Hr as [[-> ->]|(-> & _ & ->)]; cbn [Z.ltb Z.compare].
  - destruct (IH d (vpn virt + npages virt size) s1 l1 U1) as (r & s' & l' & E & Hr); try done; [lia| |].
    { intros va Hva Hv. rewrite X by done. unfold remap. rewrite (proj2 (Z.ltb_ge (vpn va) _)), andb_false_r by (unfold npages in *; lia).
      apply Hno; lia. }
    exists r, s', l'. split; [done|]. destruct Hr as [(-> & U' & B')|(-> & K' & Ee' & Hl' & Hm' & L & HL & Hin)]; [left|right].
    + split_and!; try done. by eapply built_trans.
    + split_and!; try done; [congruence|intros v; by rewrite Hl', Bl| |].
      * intros v x Hv Hvt Hvl Hx. assert (Hn : ¬ (v ∈ l1 ∨ tpage (phys s1) d v)) by (rewrite Bl; tauto).
        rewrite (Hm' v), (Bm v); try done; [by rewrite Ee1| |]; tauto.
      * exists L. split; [done|]. intros v Hv%Bl. by apply Hin.
  - destruct (built_freevm d s1 [] U1) as (s' & l' & E & K' & Ee' & Hl' & Hm').
    exists 0, s', l'. rewrite (bind_ok _ _ _ _ _ E). split; [done|]. right.
    split_and!; try done; [congruence|intros v; by rewrite Hl', Bl| |].
    + intros v x Hv Hvt Hvl Hx. assert (Hn : ¬ (v ∈ [] ∨ tpage (phys s1) d v)) by (rewrite Bl; tauto).
      rewrite (Hm' v), (Bm v); try done; [by rewrite Ee1|]; tauto.
    + destruct (tpage_within (phys s1) d) as (L & HL & Hin). exists L. split; [done|].
      intros v [?%not_elem_of_nil|?]%Bl; [done|by apply Hin].
Qed.

(** A zeroed page is the directory of an empty address space. *)
Lemma zero_dir d s l :
  kmem_ok s l → page (kend s) d → d ∉ l → (∀ x, in_page d x → phys s x = 0) →
  uspace d s l no_pages ∧ (∀ v, tpage (phys s) d v ↔ v = d) ∧
  ∀ va, 0 ≤ va < 2 ^ 32 → present (xlate (phys s) d va) = false.
Proof.
  intros Hok Hd Hl Hz.
  assert (Hpde : ∀ i, 0 ≤ i < 1024 → pde (phys s) d i = 0).
  { intros i Hi. unfold pde. transitivity (ldw (λ _, 0) (V2P d + 4 * i)); [|done]. apply ldw_ext. intros x Hx. apply Hz.
    unfold in_page, PGSIZE. lia. }
  assert (Ht : ∀ v, tpage (phys s) d v ↔ v = d).
  { intros v. split; [|by left]. intros [?|(i & Hi & Hp & _)]; [done|]. by rewrite Hpde in Hp. }
  assert (Hx : ∀ va, 0 ≤ va < 2 ^ 32 → present (xlate (phys s) d va) = false).
  { intros va Hva. destruct (index_range va Hva). unfold xlate. by rewrite Hpde. }
  split_and!; try done. split; try done.
  - split; [done|..]; intros i; [intros Hi|intros j Hi Hj]; by rewrite Hpde.
  - intros v Hv. rewrite Ht. intros ->. done.
  - intros i Hi _. apply Hx. by apply user_va.
Qed.

Section kernel.
Context (data : Z) (Hdata : data mod PGSIZE = 0) (Hrange : KERNLINK < data < KERNBASE + PHYSTOP).

Lemma setupkvm_ok s l :
  kmem_ok s l →
  ∃ r s' l', setupkvm data s = Ok r s' ∧ kend s' = kend s ∧
    (∀ v x, page (kend s) v → v ∉ l → in_page v x → phys s' x = phys s x) ∧
    ((page (kend s) r ∧ uspace r s' l' no_pages ∧ (∀ v, v ∈ l' ∨ tpage (phys s') r v ↔ v ∈ l)) ∨
     (r = 0 ∧ kmem_ok s' l' ∧ (∀ v, v ∈ l' ↔ v ∈ l) ∧ Z.of_nat (length l) ≤ 1025)).
Proof.
  intros Hok. destruct (kalloc_ok s l Hok) as (s1 & E1 & K1 & Em & Ee & _). unfold setupkvm. rewrite (bind_ok _ _ _ _ _ E1).
  destruct l as [|d l]; cbn [hd tail] in *.
  { exists 0, s1, []. split_and!; try done; [intros; by rewrite Em|]. right. by split_and!. }
  pose proof (km_pages _ _ Hok) as Hp. apply Forall_cons in Hp as [Hd _].
  pose proof (km_nodup _ _ Hok) as Hn. apply NoDup_cons in Hn as [Hdl _].
  rewrite (proj2 (Z.eqb_neq d 0)) by (by eapply page_pos).
  set (s2 := set_phys (memset (phys s1) (V2P d) 0 PGSIZE) s1).
  assert (E2 : fill_page d 0 s1 = Ok tt s2) by (unfold fill_page; by rewrite (page_ram _ _ Hd)).
  rewrite (bind_ok _ _ _ _ _ E2). change (DEVSPACE <? P2V PHYSTOP) with false. cbn match.
  assert (Hx : ∀ x, phys s2 x = if bool_decide (in_page d x) then 0 else phys s x).
  { intros x. simpl. rewrite memset_spec, Em by (unfold PGSIZE; lia). unfold in_page.
    destruct (bool_decide _) eqn:E; [apply bool_decide_eq_true in E|apply bool_decide_eq_false in E]; case_b; done || lia. }
  assert (Hfr : ∀ w x, page (kend s) w → w ≠ d → in_page w x → phys s2 x = phys s x).
  { intros w x Hw Hne Hwx. rewrite Hx, bool_decide_eq_false_2; [done|]. by apply (pages_apart (kend s) w d x). }
  assert (K2 : kmem_ok s2 l).
  { destruct K1 as [A1 A2 A3 A4 A5]. split; try done. apply (free_list_ext (kend s1) (phys s1)); [done| |done].
    intros w x Hw Hwx. transitivity (phys s x); [|by rewrite Em]. apply (Hfr w); [|congruence|done].
    rewrite <- Ee. by eapply Forall_forall in A5. }
  destruct (zero_dir d s2 l K2) as (U2 & T2 & X2); [by rewrite <- Ee in Hd|done|intros x Hdx; by rewrite Hx, bool_decide_eq_true_2|].
  destruct (setupkvm_loop_ok (kmap data) d NUSER s2 l U2) as (r & s' & l' & E & Hr); [done|by apply kmap_ascending|intros; by apply X2|].
  exists r, s', l'. split; [done|].
  assert (Hset : ∀ v, v ∈ l ∨ tpage (phys s2) d v ↔ v ∈ d :: l) by (intros v; rewrite T2, elem_of_cons; tauto).
  change (kend s2) with (kend s1) in *.
  destruct Hr as [(-> & U' & [Be Bl Bm])|(-> & K' & Ee' & Hl' & Hm' & Hw)].
  - split_and!; [exact (eq_trans Be Ee)| |left; split_and!; [done|done|intros v; by rewrite Bl]].
    intros v x Hv [Hvd Hvl]%not_elem_of_cons Hvx. rewrite (Bm v); try done; [by apply (Hfr v)|by rewrite <- Ee in Hv|by rewrite T2].
  - split_and!; [exact (eq_trans Ee' Ee)| |right; split_and!; [done|done|intros v; by rewrite Hl'|]].
    + intros v x Hv [Hvd Hvl]%not_elem_of_cons Hvx. rewrite (Hm' v); try done; [by apply (Hfr v)|by rewrite <- Ee in Hv|by rewrite T2].
    + apply (within_length _ (d :: l) _ Hw); [intros v Hv; by apply Hset|apply Hok].
Qed.

Definition upto (i : Z) : Z → bool := λ j, (0 <=? j) && (j <? i).

Lemma upto_true i j : upto i j = true ↔ 0 ≤ j < i.
Proof. unfold upto. rewrite andb_true_iff, Z.leb_le, Z.ltb_lt. lia. Qed.

Lemma upto_S i j : 0 ≤ i → upto (i + 1) j = join (upto i) i (i + 1) j.
Proof.
  intros Hi. apply eq_true_iff_eq. unfold join. rewrite orb_true_iff, !upto_true, andb_true_iff, Z.leb_le, Z.ltb_lt. lia.
Qed.

(** Page [j] of [d] has the bytes and the permissions of page [j] of [p]. *)
Definition copied (s : kmem) (p d j : Z) : Prop :=
  (∀ k, 0 ≤ k < PGSIZE → phys s (V2P (upage s d j) + k) = phys s (V2P (upage s p j) + k)) ∧
  PTE_FLAGS (entry s d j) = PTE_FLAGS (entry s p j).

Lemma copied_same p d M N s s' j :
  same_user p M s s' → same_user d N s s' → 0 ≤ j < NUSER → M j = true → N j = true → copied s p d j → copied s' p d j.
Proof.
  intros [Ep Mp] [Ed Md] Hj HM HN [Hb Hf]. unfold copied, upage. rewrite Ep, Ed by done. split; [|done].
  intros k Hk. rewrite (Md j), (Mp j); try done; [by apply Hb|..]; unfold in_page, upage; lia.
Qed.

Lemma same_user_from p M s s1 s2 : same_user p M s s1 → same_user p M s s2 → same_user p M s1 s2.
Proof.
  intros [E1 M1] [E2 M2]. split.
  - intros i Hi Hm. by rewrite E1, E2.
  - intros i x Hi Hm. unfold upage. rewrite E1 by done. intros Hx. by rewrite (M1 i), (M2 i).
Qed.

Lemma lor_odd x : x mod 2 = 1 → Z.lor x 1 = x.
Proof.
  intros Hx. apply Z.bits_inj'. intros n Hn. rewrite Z.lor_spec. destruct (decide (n = 0)) as [->|Hne].
  - rewrite Z.bit0_eqb, Hx. done.
  - change 1 with (2 ^ 0). rewrite Z.pow2_bits_false by lia. apply orb_false_r.
Qed.

Lemma flags_present e : present e = true → Z.lor (PTE_FLAGS e) PTE_P = PTE_FLAGS e.
Proof.
  rewrite present_odd. intros Hp. zbool. apply lor_odd. rewrite PTE_FLAGS_eq. unfold PGSIZE. dlia.
Qed.

(** ** A new address space beside a process *)

Section beside.
(** The process, before. *)
Context (p : Z) (s0 : kmem) (l0 : list Z) (M : Z → bool) (Up : uspace p s0 l0 M).

(** [d] has taken its pages from those that were free; the rest of memory is as it was. *)
Record beside (d : Z) (s : kmem) (l : list Z) (N : Z → bool) : Prop := {
  bs_space : uspace d s l N;
  bs_pool v : v ∈ l ∨ owned d s N v ↔ v ∈ l0;
  bs_mem w x : page (kend s0) w → w ∉ l0 → in_page w x → phys s x = phys s0 x;
  bs_end : kend s = kend s0
}.

(** It is gone again. *)
Record restored (s : kmem) (l : list Z) : Prop := {
  rs_ok : kmem_ok s l;
  rs_end : kend s = kend s0;
  rs_free v : v ∈ l ↔ v ∈ l0;
  rs_mem w x : page (kend s0) w → w ∉ l0 → in_page w x → phys s x = phys s0 x
}.

(** Changes of the pages that were free leave the process as it was. *)
Lemma parent_kept s l :
  kmem_ok s l → kend s = kend s0 → (∀ v, v ∈ l → v ∈ l0) →
  (∀ w x, page (kend s0) w → w ∉ l0 → in_page w x → phys s x = phys s0 x) →
  uspace p s l M ∧ same_user p M s0 s ∧ ∀ w, owned p s M w → w ∉ l0.
Proof.
  intros Hok Ee Hl Hm. assert (Hno : ∀ w, owned p s0 M w → page (kend s0) w ∧ w ∉ l0) by (intros w; by apply owned_page).
  destruct (owned_frame p s0 l0 M s l Up Hok Ee) as (U & S & O).
  - intros w x Hw. apply Hm; by apply Hno.
  - intros w Hw%Hl Ho. by apply (Hno w).
  - split_and!; try done. intros w Hw%O. by apply Hno.
Qed.

Lemma beside_parent d s l N :
  beside d s l N → uspace p s l M ∧ same_user p M s0 s ∧ ∀ w, owned p s M w → w ∉ l0.
Proof.
  intros [Uc Hp Hm Ee]. apply parent_kept; [apply Uc|done| |done]. intros v Hv. apply Hp. by left.
Qed.

Lemma beside_apart d s l N : beside d s l N → apart p d s M N.
Proof. intros H w Hw Hw'. destruct (beside_parent _ _ _ _ H) as (_ & _ & Ho). apply (Ho w Hw), (bs_pool _ _ _ _ H). by right. Qed.

Lemma restored_parent s l : restored s l → uspace p s l M ∧ same_user p M s0 s.
Proof. intros [K Ee Hl Hm]. destruct (parent_kept s l K Ee) as (U & S & _); [by intros v ?%Hl|done|]. done. Qed.

Lemma beside_step d s l N s' l' N' :
  beside d s l N → uspace d s' l' N' → confined d s l N s' l' N' → beside d s' l' N'.
Proof.
  clear Hrange. intros [U P X E] U' [E' P' X']. split; [done|intros v; by rewrite P'| |congruence].
  intros w x Hw Hl Hx. assert (¬ (w ∈ l ∨ owned d s N w)) by (by rewrite P).
  rewrite (X' w), (X w); try done; try tauto. by rewrite E.
Qed.

Lemma beside_free d s l N : beside d s l N → ∃ s' l', freevm d s = Ok tt s' ∧ restored s' l'.
Proof.
  intros [Uc Hp Hm Ee]. destruct (freevm_ok d s l _ Uc) as (s' & l' & E & K & Ee' & Hl & Hx). exists s', l'.
  split; [done|]. split; [done|congruence|intros v; by rewrite Hl|]. intros w x Hw Hwl Hwx. rewrite (Hx w), (Hm w); try done.
  - by rewrite Ee.
  - intros Ho. apply Hwl, Hp. by right.
Qed.

Lemma beside_new :
  ∃ r s' l', setupkvm data s0 = Ok r s' ∧
    (beside r s' l' no_pages ∨ (r = 0 ∧ restored s' l' ∧ Z.of_nat (length l0) ≤ 1025)).
Proof.
  destruct (setupkvm_ok s0 l0 (us_km _ _ _ _ Up)) as (d & s1 & l1 & E1 & Ee1 & Hm1 & Hr). exists d, s1, l1. split; [done|].
  destruct Hr as [(Hd & Ud & Hp1)|(-> & K1 & Hl1 & Hsh)]; [left; split; try done; intros v; by rewrite owned_none|by right].
Qed.

Lemma beside_nonzero d s l N : beside d s l N → d ≠ 0.
Proof. intros [U _ _ _]. by eapply page_pos, U. Qed.

Lemma beside_ext d s l N N' : (∀ i, 0 ≤ i < NUSER → N' i = N i) → beside d s l N → beside d s l N'.
Proof.
  intros HN [U P X E]. split; [by eapply uspace_ext|intros v; by rewrite <- (owned_ext d s N N' v HN)|done|done].
Qed.

(** ** [copyuvm] *)

Section copy.
(** Its pages. *)
Context (n : Z) (Hn : n ≤ NUSER) (Hall : ∀ j, 0 ≤ j < n → M j = true).

(** The first [i] pages are copied. *)
Record copying (d i : Z) (s : kmem) (l : list Z) : Prop := {
  cp_beside : beside d s l (upto i);
  cp_done j : 0 ≤ j < i → copied s p d j
}.

(** A new page with the contents of page [i] of the parent. *)
Record page_copy (d i v : Z) (s : kmem) (l : list Z) (s2 : kmem) : Prop := {
  pc_child : uspace d s2 l (upto i);
  pc_same : same_user d (upto i) s s2;
  pc_fresh : fresh d s2 l (upto i) v;
  pc_conf : confined d s (v :: l) (upto i) s2 (v :: l) (upto i);
  pc_bytes k : 0 ≤ k < PGSIZE → phys s2 (V2P v + k) = phys s (V2P (upage s p i) + k)
}.

Lemma copy_page_ok d i v s l :
  copying d i s (v :: l) → 0 ≤ i < n →
  ∃ s1 s2, kalloc s = Ok v s1 ∧ copy_page v (upage s p i) s1 = Ok tt s2 ∧ page_copy d i v s l s2.
Proof.
  intros Hc Hin. assert (HM : M i = true) by by apply Hall. assert (Hi : 0 ≤ i < NUSER) by lia.
  destruct Hc as [B _]. destruct (beside_parent _ _ _ _ B) as (U & _ & _). pose proof (bs_space _ _ _ _ B) as Uc.
  pose proof (us_km _ _ _ _ Uc) as Hok. destruct (kalloc_ok s (v :: l) Hok) as (s1 & E1 & K1 & Em & Ee & _). cbn [hd tail] in *.
  pose proof (km_pages _ _ Hok) as Hp. apply Forall_cons in Hp as [Hv _].
  pose proof (km_nodup _ _ Hok) as Hnd. apply NoDup_cons in Hnd as [Hvl _].
  destruct (us_in _ _ _ _ U i Hi HM) as (_ & Hu & _ & Hul). apply not_elem_of_cons in Hul as [Huv _].
  set (u := upage s p i) in *. set (s2 := set_phys (memmove (phys s1) (V2P v) (V2P u) PGSIZE) s1).
  assert (E2 : copy_page v u s1 = Ok tt s2) by (unfold copy_page; by rewrite (page_ram _ _ Hv), (page_ram _ _ Hu)).
  assert (Hx : ∀ x, phys s2 x = if (V2P v <=? x) && (x <? V2P v + PGSIZE) then phys s (V2P u + (x - V2P v)) else phys s x).
  { intros x. simpl. by rewrite memmove_spec, Em by (unfold PGSIZE; lia). }
  assert (Hfr : ∀ w x, page (kend s) w → w ≠ v → in_page w x → phys s2 x = phys s x).
  { intros w x Hw Hne Hwx. pose proof (pages_apart (kend s) w v x Hw Hv Hne Hwx) as Hnv. unfold in_page in Hnv. rewrite Hx.
    case_b; [lia|done]. }
  assert (K2 : kmem_ok s2 l).
  { destruct K1 as [A1 A2 A3 A4 A5]. split; try done. apply (free_list_ext (kend s1) (phys s1)); [done| |done].
    intros w x Hw Hwx. transitivity (phys s x); [|by rewrite Em]. apply (Hfr w); [|congruence|done].
    rewrite <- Ee. by eapply Forall_forall in A5. }
  assert (Hvt : ¬ tpage (phys s) d v) by (apply (us_free _ _ _ _ Uc); left).
  assert (Hvu : ∀ j, 0 ≤ j < NUSER → upto i j = true → upage s d j ≠ v).
  { intros j Hj Hm E. destruct (us_in _ _ _ _ Uc j Hj Hm) as (_ & _ & _ & Hnl). apply Hnl. rewrite E. left. }
  destruct (same_space d s (v :: l) s2 l (upto i) v Uc K2 Ee Hfr Hvt Hvu) as (U2 & S2 & T2 & P2); [intros w; rewrite elem_of_cons; auto|].
  exists s1, s2. split_and!; try done. split; try done.
  - split; [change (kend s2) with (kend s1); by rewrite Ee|by rewrite T2|done|]. intros j Hj. rewrite P2 by done. by apply Hvu.
  - by apply confined_hand.
  - intros k Hk. rewrite Hx, (proj2 (Z.leb_le _ _)), (proj2 (Z.ltb_lt _ _)) by lia. cbn [andb].
    by replace (V2P u + (V2P v + k - V2P v)) with (V2P u + k) by lia.
Qed.

(** The page mapped. *)
Section step.
Context (d i v : Z) (s : kmem) (l : list Z) (s2 s3 : kmem) (l3 : list Z).
Context (Hc : copying d i s (v :: l)) (Hin : 0 ≤ i < n) (PC : page_copy d i v s l s2).
Context (U3 : uspace d s3 l3 (join (upto i) i (i + 1))) (S3 : same_user d (upto i) s2 s3) (K3 : kept d s2 l s3 l3).
Context (E3 : entry s3 d i = V2P v + Z.lor (PTE_FLAGS (entry s p i)) PTE_P).

Lemma step_i : 0 ≤ i < NUSER ∧ M i = true.
Proof. split; [lia|by apply Hall]. Qed.

Lemma step_entry : upage s3 d i = v ∧ PTE_FLAGS (entry s3 d i) = PTE_FLAGS (entry s p i).
Proof.
  destruct step_i as [Hi HM]. destruct (beside_parent _ _ _ _ (cp_beside _ _ _ _ Hc)) as (U & _ & _).
  destruct (us_in _ _ _ _ U i Hi HM) as (Hp & _). set (fl := PTE_FLAGS (entry s p i)) in *.
  assert (Hfl : 0 ≤ fl < PGSIZE) by (unfold fl; rewrite PTE_FLAGS_eq; unfold PGSIZE; dlia).
  destruct (perm_entry _ _ _ (fs_page _ _ _ _ _ (pc_fresh _ _ _ _ _ _ PC)) Hfl) as (_ & He2 & He3). unfold upage.
  rewrite E3. split; [done|]. rewrite He3. by apply flags_present.
Qed.

Lemma step_beside : beside d s3 l3 (upto (i + 1)).
Proof.
  destruct step_entry as [Hv3 _], step_i as [Hi _]. assert (Hm : upto i i = false) by (unfold upto; by rewrite Z.ltb_irrefl, andb_false_r).
  apply (beside_ext _ _ _ (join (upto i) i (i + 1))); [intros; apply upto_S; lia|].
  eapply beside_step; [exact (cp_beside _ _ _ _ Hc)|exact U3|].
  eapply confined_trans; [exact (pc_conf _ _ _ _ _ _ PC)|]. by apply kept_confined.
Qed.

Lemma copying_step : copying d (i + 1) s3 l3.
Proof.
  destruct (beside_parent _ _ _ _ (cp_beside _ _ _ _ Hc)) as (U & S & Ho). destruct step_entry as [Hv3 Hf3], step_i as [Hi HM].
  destruct (beside_parent _ _ _ _ step_beside) as (U3' & S3' & _).
  pose proof (same_user_from _ _ _ _ _ S S3') as Sp.
  pose proof (same_user_trans _ _ _ _ _ (pc_same _ _ _ _ _ _ PC) S3) as Sd.
  split; [exact step_beside|intros j Hj]. destruct (decide (j = i)) as [->|Hne].
  - unfold copied. rewrite Hv3, Hf3. unfold upage. rewrite (su_entry _ _ _ _ Sp i) by done. split; [|done].
    intros k Hk. fold (upage s p i). pose proof (pc_fresh _ _ _ _ _ _ PC) as [Fv Ft Fl _].
    rewrite (wk_mem _ _ _ _ _ K3 v), (pc_bytes _ _ _ _ _ _ PC) by (done || unfold in_page; lia).
    symmetry. apply (su_mem _ _ _ _ Sp i); try done. unfold in_page. lia.
  - eapply (copied_same p d M (upto i)); try done; [lia|apply Hall; lia|apply upto_true; lia|].
    apply (cp_done _ _ _ _ Hc). lia.
Qed.
End step.

(** ** Giving up *)

Definition undone (s : kmem) (l : list Z) : Prop := restored s l ∧ Z.of_nat (length l0) ≤ 1026 + n.

Lemma beside_short d i s l : beside d s l (upto i) → 0 ≤ i ≤ n → (length l ≤ 1)%nat → Z.of_nat (length l0) ≤ 1026 + n.
Proof.
  intros [_ Hp _ _] Hi Hl. destruct (tpage_within (phys s) d) as (L & HL & Hin).
  apply (within_length (λ v, v ∈ l0) l0); [|done|apply Up].
  exists (l ++ L ++ (upage s d <$> seqZ 0 i)). rewrite !length_app, length_fmap, length_seqZ. split; [lia|].
  intros v Hv%Hp. rewrite !elem_of_app. destruct Hv as [?|[?|(j & _ & Hm%upto_true & ->)]]; [by left|right; left; by apply Hin|].
  right. right. apply list_elem_of_fmap. exists j. split; [done|]. apply elem_of_seqZ. lia.
Qed.

Lemma beside_undo d i s l :
  beside d s l (upto i) → 0 ≤ i ≤ n → (length l ≤ 1)%nat → ∃ s' l', freevm d s = Ok tt s' ∧ undone s' l'.
Proof.
  intros B Hi Hl. pose proof (beside_short _ _ _ _ B Hi Hl). destruct (beside_free _ _ _ _ B) as (s' & l' & E & R).
  exists s', l'. done.
Qed.

(** No page for a table: the copy of the page is given back. *)
Lemma copying_back d i v s s2 s3 :
  copying d i s [v] → 0 ≤ i < n → page_copy d i v s [] s2 → uspace d s3 [] (upto i) → same_user d (upto i) s2 s3 →
  kept d s2 [] s3 [] → fresh d s3 [] (upto i) v →
  ∃ s4 s5 l5, kfree v s3 = Ok tt s4 ∧ freevm d s4 = Ok tt s5 ∧ undone s5 l5.
Proof.
  intros Hc Hi PC U3 S3 K3 F3. destruct (give_page d s3 v [] (upto i) U3 F3) as (s4 & E4 & U4 & S4 & Ee4 & T4 & X4).
  assert (B : beside d s4 [v] (upto i)).
  { eapply beside_step; [exact (cp_beside _ _ _ _ Hc)|exact U4|]. eapply confined_trans; [exact (pc_conf _ _ _ _ _ _ PC)|].
    eapply confined_trans; [exact (confined_more _ _ _ _ _ _ _ v (kept_none_confined _ _ _ _ K3 S3))|]. by apply confined_hand. }
  destruct (beside_undo _ _ _ _ B) as (s5 & l5 & E5 & H5); [lia|done|]. exists s4, s5, l5. done.
Qed.

(** ** The loop *)

Lemma copyuvm_loop_ok fuel d sz : n = pages sz → 0 ≤ sz < KERNBASE → ∀ i s l,
  copying d i s l → 0 ≤ i ≤ n → n - i ≤ Z.of_nat fuel →
  ∃ r s' l', copyuvm_loop fuel p d (PGSIZE * i) sz s = Ok r s' ∧ ((r = d ∧ copying d n s' l') ∨ (r = 0 ∧ undone s' l')).
Proof.
  intros En Hsz. induction fuel as [|fuel IH]; intros i s l Hc Hi Hf; cbn [copyuvm_loop];
    (destruct (PGSIZE * i <? sz) eqn:E; zbool;
      [|assert (i = n) as -> by (rewrite En in *; unfold pages, PGSIZE in *; dlia); exists d, s, l; split; [done|by left]]).
  { rewrite En in *. unfold pages, PGSIZE in *. dlia. }
  assert (Hlt : 0 ≤ i < n) by (rewrite En in *; unfold pages, PGSIZE in *; dlia). assert (Hi' : 0 ≤ i < NUSER) by lia.
  assert (HM : M i = true) by by apply Hall.
  assert (Hnext : u32 (PGSIZE * i + PGSIZE) = PGSIZE * (i + 1)) by (rewrite u32_small; unfold NUSER, PGSIZE in *; lia).
  destruct (beside_parent _ _ _ _ (cp_beside _ _ _ _ Hc)) as (U & _ & _). destruct (user_va i Hi') as [Hva _].
  pose proof (present_table p s l M i U Hi' HM) as Hpt. destruct (us_in _ _ _ _ U i Hi' HM) as (Hp & _).
  rewrite (bind_ok _ _ _ _ _ (walk_find p (PGSIZE * i) s l M U Hva)), Hpt.
  rewrite (bind_ok _ _ _ _ _ (kload_entry p (PGSIZE * i) s l M U Hva Hpt)). fold (entry s p i). rewrite Hp. cbn [negb].
  fold (upage s p i). destruct l as [|v l].
  { destruct (take_none d s (upto i)) as (s1 & E1 & U1 & _ & C1); [apply (cp_beside _ _ _ _ Hc)|].
    rewrite (bind_ok _ _ _ _ _ E1). cbn [Z.eqb].
    destruct (beside_undo d i s1 []) as (s2 & l2 & E2 & H2); [|lia|cbn; lia|].
    { eapply beside_step; [exact (cp_beside _ _ _ _ Hc)|exact U1|exact C1]. }
    exists 0, s2, l2. rewrite (bind_ok _ _ _ _ _ E2). split; [done|by right]. }
  destruct (copy_page_ok d i v s l Hc Hlt) as (s1 & s2 & E1 & E2 & PC).
  pose proof (pc_fresh _ _ _ _ _ _ PC) as Fr.
  rewrite (bind_ok _ _ _ _ _ E1), (proj2 (Z.eqb_neq v 0)) by (by eapply page_pos, Fr). rewrite (bind_ok _ _ _ _ _ E2).
  assert (Hfl : 0 ≤ PTE_FLAGS (entry s p i) < PGSIZE) by (rewrite PTE_FLAGS_eq; unfold PGSIZE; dlia).
  assert (HN : upto i i = false) by (unfold upto; by rewrite Z.ltb_irrefl, andb_false_r).
  destruct (map_user d s2 l (upto i) i v _ (pc_child _ _ _ _ _ _ PC) Fr Hi' HN Hfl) as
    [(s3 & l3 & E3 & U3 & S3 & K3 & En3 & _)|(-> & s3 & E3 & U3 & S3 & K3 & Fr3)];
    rewrite (bind_ok _ _ _ _ _ E3); cbn [Z.ltb Z.compare].
  - pose proof (copying_step d i v s l s2 s3 l3 Hc Hlt PC U3 S3 K3 En3) as Hc3. rewrite Hnext. apply (IH (i + 1) s3 l3 Hc3); lia.
  - destruct (copying_back d i v s s2 s3 Hc Hlt PC U3 S3 K3 Fr3) as (s4 & s5 & l5 & E4 & E5 & H5). exists 0, s5, l5.
    rewrite (bind_ok _ _ _ _ _ E4), (bind_ok _ _ _ _ _ E5). split; [done|by right].
Qed.
End copy.
End beside.

(** What [copyuvm] returns: an address space beside the others, or nothing is left of it. *)
Lemma copyuvm_ok p sz s l M :
  uspace p s l M → 0 ≤ sz < KERNBASE → (∀ j, 0 ≤ j < pages sz → M j = true) →
  ∃ r s' l', copyuvm data p sz s = Ok r s' ∧
    ((r ≠ 0 ∧ beside s l r s' l' (upto (pages sz)) ∧ ∀ j, 0 ≤ j < pages sz → copied s' p r j) ∨
     (r = 0 ∧ restored s l s' l' ∧ Z.of_nat (length l) ≤ 1026 + pages sz)).
Proof.
  intros U Hsz Hall. destruct (pages_eq sz) as [_ Hn]; [lia|]. unfold copyuvm.
  destruct (beside_new p s l M U) as (d & s1 & l1 & E1 & Hr). rewrite (bind_ok _ _ _ _ _ E1).
  destruct Hr as [B|(-> & R & Hsh)]; [|cbn; exists 0, s1, l1; split; [done|right; split_and!; done || lia]].
  rewrite (proj2 (Z.eqb_neq d 0)) by (by eapply beside_nonzero).
  assert (Hc : copying p s l d 0 s1 l1).
  { split; [|intros; lia]. eapply beside_ext; [|exact B]. intros i _. unfold upto, no_pages.
    destruct (Z.leb_spec 0 i), (Z.ltb_spec i 0); done || lia. }
  destruct (copyuvm_loop_ok p s l M U (pages sz) ltac:(lia) Hall (Z.to_nat (sz / PGSIZE + 1)) d sz eq_refl Hsz 0 s1 l1 Hc)
    as (r & s' & l' & E & Hr); [lia|unfold pages, PGSIZE; dlia|].
  rewrite Z.mul_0_r in E. exists r, s', l'. split; [exact E|]. destruct Hr as [[-> [B' Hd]]|[-> [R Hsh]]]; [left|by right].
  split_and!; [by eapply beside_nonzero|done|done].
Qed.

(** C21: [fork] copies the memory.  [copyuvm] returns a page table whose pages below [sz] have the bytes and the
    permissions of the parent's pages, in physical pages of its own; or 0, with the free pages it took given
    back.  It does not fail while 1027 pages and one for each page of the process are free.  The parent,
    and every page that was not free, is as before. *)
Theorem copyuvm_copies p sz s l M :
  uspace p s l M → 0 ≤ sz < KERNBASE → (∀ j, 0 ≤ j < pages sz → M j = true) →
  returns (copyuvm data p sz s) (λ r s', ∃ l',
    uspace p s' l' M ∧ same_user p M s s' ∧
    (∀ w x, page (kend s) w → w ∉ l → in_page w x → phys s' x = phys s x) ∧
    ((r ≠ 0 ∧ uspace r s' l' (upto (pages sz)) ∧ apart p r s' M (upto (pages sz)) ∧
      ∀ j, 0 ≤ j < pages sz → copied s' p r j) ∨
     (r = 0 ∧ (∀ v, v ∈ l' ↔ v ∈ l) ∧ Z.of_nat (length l) ≤ 1026 + pages sz))).
Proof.
  intros U Hsz Hall. destruct (copyuvm_ok p sz s l M U Hsz Hall) as (r & s' & l' & E & Hr). rewrite E. exists l'.
  destruct Hr as [(Hr & B & Hd)|(-> & R & Hsh)].
  - destruct (beside_parent _ _ _ _ U _ _ _ _ B) as (U' & S' & _). split_and!; try done; [apply B|]. left.
    split_and!; [done|apply B|eapply beside_apart; [exact U|exact B]|done].
  - destruct (restored_parent _ _ _ _ U _ _ R). split_and!; try done; [apply R|]. right. split_and!; [done|apply R|done].
Qed.
End kernel.

(** ** The copy of a process of one page *)

Module CopyExample.

(** Memory with 4000 free pages, and a process in it. *)
Definition kdata : Z := 0x80108000.
Definition stack_page : Z := ex_base + PGSIZE * 5000.

Lemma some_memory : ∃ s l, kmem_ok s l ∧ kend s = ex_base ∧ Z.of_nat (length l) = 4000 ∧ stack_page ∉ l.
Proof.
  destruct (freerange_loop_ok 4000 4000 ex_base (ex_base + PGSIZE * 4000) (Kmem (λ _, 0) ex_base true false 0) []) as (s & _ & H & He & _).
  - split; [by vm_compute|done|done|apply NoDup_nil_2|by constructor].
  - done.
  - unfold PGSIZE. lia.
  - intros i Hi. split; [|apply not_elem_of_nil]. unfold page, ex_base, KERNBASE, EXTMEM, PHYSTOP, PGSIZE. cbn [kend]. dlia.
  - eexists s, _. split_and!; [exact H|exact He|..].
    + unfold range_pages. by rewrite app_nil_r, length_rev, length_fmap, length_seq.
    + rewrite app_nil_r, elem_of_range_pages. intros (i & Hi & E). unfold stack_page, PGSIZE in E. lia.
Qed.

Lemma some_process : ∃ d s l, uspace d s l no_pages ∧ kend s = ex_base ∧ 2974 < Z.of_nat (length l) ∧
  (stack_page ∉ l) ∧ ¬ owned d s no_pages stack_page.
Proof.
  destruct some_memory as (s & l0 & Hok & He & Hlen & Hst).
  destruct (setupkvm_ok kdata eq_refl (conj eq_refl eq_refl) s l0 Hok) as (d & s' & l & _ & Ee & _ & [(_ & U & Hp)|(_ & _ & _ & Hs)]); [|lia].
  exists d, s', l. split_and!; [done|congruence| |intros ?; apply Hst, Hp; by left|rewrite owned_none; intros ?; apply Hst, Hp; by right].
  assert (Z.of_nat (length l0) ≤ Z.of_nat (length l) + 1025); [|lia].
  destruct (tpage_within (phys s') d) as (L & HL & Hin). apply (within_length (λ v, v ∈ l0) l0); [|done|apply Hok].
  exists (l ++ L). rewrite length_app. split; [lia|]. intros v [?|?]%Hp; apply elem_of_app; [by left|right; by apply Hin].
Qed.

(** It gets a page. *)
Lemma some_page : ∃ d s s1 l1, allocuvm d 0 100 s = Ok 100 s1 ∧ uspace d s1 l1 (join no_pages 0 1) ∧ 1027 < Z.of_nat (length l1).
Proof.
  destruct some_process as (d & s & l & U & _ & Hl & _).
  destruct (allocuvm_ok d 0 100 s l no_pages U) as (r & s1 & l1 & E & [(-> & U1 & _ & [_ Hp _] & _)|(_ & _ & _ & _ & Hn)]);
    [lia|done|done| |change (pages 100) with 1 in Hn; change (pages 0) with 0 in Hn; lia].
  exists d, s, s1, l1. split_and!; [done|done|]. assert (Z.of_nat (length l) ≤ Z.of_nat (length l1) + 1026); [|lia].
  destruct (tpage_within (phys s1) d) as (L & HL & Hin). apply (within_length (λ v, v ∈ l) l); [|done|apply U].
  exists (l1 ++ upage s1 d 0 :: L). rewrite length_app. cbn [length]. split; [lia|]. intros v Hv.
  destruct (proj2 (Hp v) (or_introl Hv)) as [?|[?|(i & Hi & Hj & ->)]]; apply elem_of_app; [by left|right; right; by apply Hin|].
  right. assert (i = 0) as ->; [|left]. unfold join, no_pages in Hj. apply andb_true_iff in Hj as [Hj1%Z.leb_le Hj2%Z.ltb_lt].
  change (pages 100) with 1 in Hj2. lia.
Qed.

Lemma copyuvm_copies_witness :
  ∃ d s s1, allocuvm d 0 100 s = Ok 100 s1 ∧
    returns (copyuvm kdata d 100 s1) (λ r s2, r ≠ 0 ∧ present (entry s2 r 0) = true ∧ upage s2 d 0 ≠ upage s2 r 0 ∧
      phys s2 (V2P (upage s2 r 0) + 99) = phys s2 (V2P (upage s2 d 0) + 99)).
Proof.
  destruct some_page as (d & s & s1 & l1 & E & U & Hl). exists d, s, s1. split; [exact E|]. clear E.
  assert (H0 : 0 ≤ 0 < NUSER) by (unfold NUSER; lia).
  eapply returns_mono; [apply (copyuvm_copies kdata eq_refl (conj eq_refl eq_refl) d 100 s1 l1 _ U)|].
  - by vm_compute.
  - change (pages 100) with 1. intros j Hj. assert (j = 0) as -> by lia. reflexivity.
  - change (pages 100) with 1. intros r s2 (l2 & U2 & _ & _ & [(Hr & Uc & Ha & Hc)|(_ & _ & Hs)]); [|lia].
    split_and!; [exact Hr|apply (us_in _ _ _ _ Uc 0 H0 eq_refl)| |].
    + intros Eq. apply (Ha (upage s2 r 0)); right; exists 0.
      * split_and!; [lia|exact (proj2 H0)|reflexivity|symmetry; exact Eq].
      * split_and!; [lia|exact (proj2 H0)|reflexivity|reflexivity].
    + apply (Hc 0); [lia|]. unfold PGSIZE. lia.
Defined.
End CopyExample.
