(* ===== verification/UvmWrite.v ===== *)
(** * Writing into an address space

    [clearpteu], [uva2ka] and [copyout] of [src/vm.c], and the stores of [loaduvm], on a page table that need not be the
    current one.  [ubyte s d va] is the byte the process sees at [va].

    Theorem: [copyout] stores the bytes at [va] and nothing else, unless it meets a page the process may not access. *)
From S2P Require Import Prelude CString Bytes Kalloc Vm Uvm.

Definition ubyte (s : kmem) (d va : Z) : Z := phys s (V2P (upage s d (vpn va)) + va mod PGSIZE).

(** The process may access page [j]. *)
Definition user_page (s : kmem) (d j : Z) : bool := negb (Z.land (entry s d j) PTE_U =? 0).

(** The [n] bytes of [f] at [va] replaced. *)
Definition put (f : Z → Z) (va : Z) (b : list Z) : Z → Z := λ x,
  if (va <=? x) && (x <? va + Z.of_nat (length b)) then nth (Z.to_nat (x - va)) b 0 else f x.

Lemma put_app f va b c x : put (put f va b) (va + Z.of_nat (length b)) c x = put f va (b ++ c) x.
Proof.
  unfold put. rewrite length_app. repeat (case_b; try lia).
  - rewrite app_nth2 by lia. f_equal. lia.
  - by rewrite app_nth1 by lia.
Qed.

Lemma put_ext f g va b x : f x = g x → put f va b x = put g va b x.
Proof. unfold put. by intros ->. Qed.

Lemma put_nil f va x : put f va [] x = f x.
Proof. unfold put. cbn [length]. case_b; [lia|done]. Qed.

(** A step that changes no table entry.  What the process sees is [f] afterwards. *)
Record filled (d : Z) (s : kmem) (l : list Z) (N : Z → bool) (s' : kmem) (f : Z → Z) : Prop := {
  fi_space : uspace d s' l N;
  fi_conf : confined d s l N s' l N;
  fi_entry j : 0 ≤ j < NUSER → entry s' d j = entry s d j;
  fi_byte va : 0 ≤ va < KERNBASE → N (vpn va) = true → ubyte s' d va = f va
}.

Lemma filled_none d s l N : uspace d s l N → filled d s l N s (ubyte s d).
Proof. intros U. split; [done|apply confined_refl|done|done]. Qed.

Lemma filled_trans d s l N s1 f1 s2 f2 f :
  filled d s l N s1 f1 → filled d s1 l N s2 f2 → (∀ va, 0 ≤ va < KERNBASE → N (vpn va) = true → f2 va = f va) →
  filled d s l N s2 f.
Proof.
  intros [U1 C1 E1 B1] [U2 C2 E2 B2] Hf. split; [done|by eapply confined_trans|intros; by rewrite E2, E1|].
  intros va Hva Hn. by rewrite B2, Hf.
Qed.

Lemma vpn_range va : 0 ≤ va < KERNBASE → 0 ≤ vpn va < NUSER ∧ va = PGSIZE * vpn va + va mod PGSIZE ∧ 0 ≤ va mod PGSIZE < PGSIZE.
Proof. unfold vpn, KERNBASE, NUSER, PGSIZE. dlia. Qed.

(** Stores into user pages. *)
Lemma fill_user d s l N m :
  uspace d s l N →
  (∀ w x, page (kend s) w → (∀ j, 0 ≤ j < NUSER → N j = true → upage s d j ≠ w) → in_page w x → m x = phys s x) →
  uspace d (set_phys m s) l N ∧ confined d s l N (set_phys m s) l N ∧
  ∀ j, 0 ≤ j < NUSER → entry (set_phys m s) d j = entry s d j.
Proof.
  intros [Hok Ht Hd Hin Hinj Hout] Hm. set (s' := set_phys m s).
  assert (Hpt : ∀ w, tpage (phys s) d w → page (kend s) w).
  { intros w [->|(k & Hk & Hk1 & ->)]; [apply Ht|by apply (tr_tab _ _ _ Ht)]. }
  assert (Hs : ∀ w x, tpage (phys s) d w → in_page w x → phys s' x = phys s x).
  { intros w x Hw. apply Hm; [by apply Hpt|]. intros j Hj HN <-. by destruct (Hin j Hj HN) as (_ & _ & ? & _). }
  assert (Hent : ∀ j, 0 ≤ j < NUSER → entry s' d j = entry s d j).
  { intros j Hj. destruct (user_va j Hj). by apply (xlate_same _ _ _ Hs). }
  assert (Hup : ∀ j, 0 ≤ j < NUSER → upage s' d j = upage s d j) by (intros; unfold upage; by rewrite Hent).
  assert (Htp : ∀ w, tpage (phys s') d w ↔ tpage (phys s) d w) by (by apply tpage_same).
  split_and!; [split; try done|split; [done|..]|done].
  - destruct Hok as [K1 K2 K3 K4 K5]. split; try done. apply (free_list_ext (kend s) (phys s)); [done| |done].
    intros w x Hw. apply Hm; [by eapply Forall_forall in K5|]. intros j Hj HN <-. by destruct (Hin j Hj HN) as (_ & _ & _ & ?).
  - by eapply tree_same.
  - intros w Hw. rewrite Htp. by apply Hd.
  - intros j Hj HN. rewrite Hent, Hup, Htp by done. by apply Hin.
  - intros j k Hj Hk. rewrite !Hup by done. by apply Hinj.
  - intros j Hj. rewrite Hent by done. by apply Hout.
  - intros w. unfold owned. rewrite Htp. split; (intros [?|[?|(j & Hj & HN & ->)]]; [by left|by right; left|right; right; exists j]); by rewrite Hup.
  - intros w x Hw _ Ho. apply Hm; [done|]. intros j Hj HN <-. apply Ho. right. eauto.
Qed.

(** [copy_bytes] within page [i]. *)
Lemma write_user d s l N i off b :
  uspace d s l N → 0 ≤ i < NUSER → N i = true → 0 ≤ off < PGSIZE → off + Z.of_nat (length b) ≤ PGSIZE →
  ∃ s', copy_bytes (upage s d i + off) b s = Ok tt s' ∧ filled d s l N s' (put (ubyte s d) (PGSIZE * i + off) b).
Proof.
  intros U Hi HN Ho Hb. pose proof U as [Hok Ht Hd Hin Hinj Hout]. destruct (Hin i Hi HN) as (_ & Hp & _).
  set (v := upage s d i) in *. destruct (page_V2P _ _ Hp) as (Ev & Hv0 & Hv1 & Hvm).
  assert (Eo : V2P (v + off) = V2P v + off) by (rewrite Ev; unfold V2P, u32, KERNBASE, PHYSTOP, PGSIZE in *; rewrite Z.mod_small; lia).
  assert (Hr : in_ram (v + off) = true).
  { pose proof Hp as (_ & _ & Hr). unfold in_ram. apply andb_true_iff. rewrite Z.leb_le, Z.ltb_lt.
    rewrite Ev in *. unfold KERNBASE, PHYSTOP, PGSIZE in *. lia. }
  set (m := λ x, if (V2P (v + off) <=? x) && (x <? V2P (v + off) + Z.of_nat (length b)) then nth (Z.to_nat (x - V2P (v + off))) b 0 else phys s x).
  assert (E : copy_bytes (v + off) b s = Ok tt (set_phys m s)) by (unfold copy_bytes; by rewrite Hr).
  exists (set_phys m s). split; [done|].
  assert (Hm : ∀ w x, page (kend s) w → w ≠ v → in_page w x → m x = phys s x).
  { intros w x Hw Hne Hx. pose proof (pages_apart (kend s) w v x Hw Hp Hne Hx) as Hn. unfold m. rewrite Eo.
    unfold in_page, PGSIZE in *. case_b; [lia|done]. }
  destruct (fill_user d s l N m U) as (U' & C' & E').
  { intros w x Hw Hu. apply Hm; [done|]. intros ->. by apply (Hu i). }
  split; try done. intros va Hva Hnv. destruct (vpn_range va Hva) as (Hvr & Eva & Hvo).
  unfold ubyte, upage. rewrite E' by done. fold (upage s d (vpn va)). unfold put.
  destruct (decide (vpn va = i)) as [Hvi|Hvi].
  - rewrite Hvi in *. fold v. cbn [phys set_phys]. unfold m. rewrite Eo. repeat (case_b; try lia).
    + f_equal. lia.
    + done.
  - rewrite (proj2 (andb_false_iff _ _)).
    + apply (Hm (upage s d (vpn va))).
      * by apply Hin.
      * intros Ev'. apply Hvi. by apply Hinj.
      * unfold in_page, upage. lia.
    + rewrite Z.leb_gt, Z.ltb_ge. unfold PGSIZE in *. lia.
Qed.

(** ** [copyout] *)

Lemma uva2ka_ok d s l N j :
  uspace d s l N → 0 ≤ j < NUSER → N j = true →
  uva2ka d (PGSIZE * j) s = Ok (if user_page s d j then upage s d j else 0) s.
Proof.
  intros U Hj HN. destruct (user_va j Hj) as [Hva _]. pose proof (present_table d s l N j U Hj HN) as Hpt.
  destruct (us_in _ _ _ _ U j Hj HN) as (Hp & _). unfold uva2ka.
  rewrite (bind_ok _ _ _ _ _ (walk_find d (PGSIZE * j) s l N U Hva)), Hpt.
  rewrite (bind_ok _ _ _ _ _ (kload_entry d (PGSIZE * j) s l N U Hva Hpt)). fold (entry s d j).
  unfold present in Hp. apply negb_true_iff in Hp. rewrite Hp. unfold user_page. by destruct (Z.land _ PTE_U =? 0).
Qed.

Lemma user_page_entry s s' d j : entry s' d j = entry s d j → user_page s' d j = user_page s d j.
Proof. unfold user_page. by intros ->. Qed.

(** What [copyout] comes to. *)
Definition copied_out (d va : Z) (b : list Z) (s : kmem) (l : list Z) (N : Z → bool) (r : Z) (s' : kmem) : Prop :=
  (r = 0 ∧ (∀ x, va ≤ x < va + Z.of_nat (length b) → user_page s d (vpn x) = true) ∧ filled d s l N s' (put (ubyte s d) va b)) ∨
  (r = -1 ∧ (∃ x, va ≤ x < va + Z.of_nat (length b) ∧ user_page s d (vpn x) = false) ∧ ∃ f, filled d s l N s' f).

(** The bytes of the first page, and the rest. *)
Lemma copied_out_app d va b c s l N r s1 s' :
  b ≠ [] → (∀ x, va ≤ x < va + Z.of_nat (length b) → user_page s d (vpn x) = true) → 0 ≤ va → va + Z.of_nat (length (b ++ c)) ≤ KERNBASE →
  filled d s l N s1 (put (ubyte s d) va b) → copied_out d (va + Z.of_nat (length b)) c s1 l N r s' →
  copied_out d va (b ++ c) s l N r s'.
Proof.
  intros Hb Hu Hva Hl F1 Hc. rewrite length_app in Hl.
  assert (Hup : ∀ x, va ≤ x < va + Z.of_nat (length b + length c) → user_page s1 d (vpn x) = user_page s d (vpn x)).
  { intros x Hx. apply user_page_entry, (fi_entry _ _ _ _ _ _ F1). apply vpn_range. lia. }
  unfold copied_out. rewrite length_app. destruct Hc as [(-> & Hc & F2)|(-> & (x & Hx & Hxu) & f & F2)].
  - left. split_and!; [done| |].
    + intros x Hx. destruct (decide (x < va + Z.of_nat (length b))); [apply Hu; lia|]. rewrite <- Hup by lia. apply Hc. lia.
    + eapply filled_trans; [exact F1|exact F2|]. intros x Hx Hn. rewrite <- put_app. by apply put_ext, (fi_byte _ _ _ _ _ _ F1).
  - right. split_and!; [done| |].
    + exists x. split; [lia|]. rewrite <- Hup by lia. done.
    + exists f. by eapply filled_trans.
Qed.

Lemma copyout_loop_ok d l N fuel : ∀ va b s,
  uspace d s l N → (length b ≤ fuel)%nat → 0 ≤ va → va + Z.of_nat (length b) ≤ KERNBASE →
  (∀ x, va ≤ x < va + Z.of_nat (length b) → N (vpn x) = true) →
  ∃ r s', copyout_loop fuel d va b s = Ok r s' ∧ copied_out d va b s l N r s'.
Proof.
  induction fuel as [|fuel IH]; intros va b s U Hf Hva Hl HN; (destruct (decide (b = [])) as [->|Hb];
    [exists 0, s; split; [done|]; left; cbn [length]; split_and!; [done|intros; lia|];
     eapply filled_trans; [by apply filled_none..|]; intros x _ _; by rewrite put_nil|]).
  { by destruct b; cbn in Hf; [|lia]. }
  assert (Hlen : 0 < Z.of_nat (length b)) by (destruct b; [done|cbn; lia]).
  cbn [copyout_loop]. rewrite (proj2 (Z.ltb_lt _ _) Hlen), pgrounddown_eq.
  destruct (vpn_range va) as (Hr & Ev & Ho); [lia|]. set (i := vpn va) in *. set (o := va mod PGSIZE) in *.
  assert (Hi : N i = true) by (apply HN; lia).
  rewrite (bind_ok _ _ _ _ _ (uva2ka_ok d s l N i U Hr Hi)). destruct (user_page s d i) eqn:Eu.
  2: { cbn. exists (-1), s. split; [done|]. right. split_and!; [done| |eexists; by apply filled_none]. exists va. split; [lia|done]. }
  destruct (us_in _ _ _ _ U i Hr Hi) as (_ & Hp & _). rewrite (proj2 (Z.eqb_neq _ 0)) by (by eapply page_pos).
  replace (va - PGSIZE * i) with o by lia. set (n := Z.min (PGSIZE - o) (Z.of_nat (length b))).
  assert (Hn : 0 < n ≤ Z.of_nat (length b)) by lia.
  assert (Hlt : Z.of_nat (length (take (Z.to_nat n) b)) = n) by (rewrite length_take; lia).
  destruct (write_user d s l N i o (take (Z.to_nat n) b) U Hr Hi Ho) as (s1 & E1 & F1); [lia|].
  rewrite (bind_ok _ _ _ _ _ E1). rewrite <- Ev in F1.
  assert (Hu : ∀ x, va ≤ x < va + n → user_page s d (vpn x) = true).
  { intros x Hx. replace (vpn x) with i; [done|]. unfold i, o, vpn, PGSIZE in *. dlia. }
  rewrite u32_small by (unfold NUSER, PGSIZE in *; lia).
  destruct (IH (PGSIZE * i + PGSIZE) (drop (Z.to_nat n) b) s1) as (r & s' & E & Hc).
  - apply F1.
  - rewrite length_drop. lia.
  - lia.
  - rewrite length_drop. unfold KERNBASE, NUSER, PGSIZE in *. lia.
  - rewrite length_drop. intros x Hx. apply HN. lia.
  - exists r, s'. split; [done|]. rewrite <- (take_drop (Z.to_nat n) b).
    apply (copied_out_app d va _ _ s l N r s1); [by intros E'; rewrite E' in Hlt; cbn in Hlt; lia|rewrite Hlt; done|done|by rewrite take_drop|done|].
    rewrite Hlt. destruct (decide (n = PGSIZE - o)) as [En|En]; [by replace (va + n) with (PGSIZE * i + PGSIZE) by lia|].
    assert (drop (Z.to_nat n) b = []) as Ed by (apply drop_ge; lia). rewrite Ed in *.
    destruct Hc as [(-> & _ & F)|(_ & (x & Hx & _) & _)]; [|cbn in Hx; lia]. left. cbn [length]. split_and!; [done|intros; lia|].
    eapply filled_trans; [|exact F|]; [apply filled_none, F1|]. intros x _ _. by rewrite !put_nil.
Qed.

Lemma copyout_ok d va b s l N :
  uspace d s l N → 0 ≤ va → va + Z.of_nat (length b) ≤ KERNBASE →
  (∀ x, va ≤ x < va + Z.of_nat (length b) → N (vpn x) = true) →
  ∃ r s', copyout d va b s = Ok r s' ∧ copied_out d va b s l N r s'.
Proof. intros U. by apply copyout_loop_ok. Qed.

(** ** [clearpteu] *)

(** The entry of a page without [PTE_U]. *)
Lemma clear_flag e v :
  page e v → let a := V2P v + Z.lor (Z.lor PTE_W PTE_U) PTE_P in
  Z.land a (Z.lnot PTE_U) = V2P v + Z.lor PTE_W PTE_P ∧ Z.land (V2P v + Z.lor PTE_W PTE_P) PTE_U = 0.
Proof.
  intros Hv a. destruct (page_V2P _ _ Hv) as (_ & Hv0 & _ & Hm). unfold PGSIZE in Hm.
  assert (Hq : ∃ q, V2P v = q * 2 ^ 12) by (exists (V2P v / 4096); change (2 ^ 12) with 4096; dlia). destruct Hq as [q Eq].
  assert (Hor : ∀ f, 0 ≤ f < 8 → V2P v + f = Z.lor (Z.shiftl q 12) f).
  { intros f Hf. rewrite Z.shiftl_mul_pow2, lor_shiftl_add by lia. lia. }
  unfold a. rewrite !Hor by (vm_compute; done).
  assert (Hsh : ∀ n, n < 12 → Z.testbit (Z.shiftl q 12) n = false).
  { intros n Hn. destruct (Z.lt_ge_cases n 0); [by apply Z.testbit_neg_r|]. by rewrite Z.shiftl_spec_low. }
  change PTE_U with (2 ^ 2). split; apply Z.bits_inj'; intros n Hn.
  - rewrite Z.land_spec, Z.lnot_spec, !Z.lor_spec by lia. destruct (Z.lt_ge_cases n 12) as [Hlt|Hge].
    + rewrite Hsh by done. cbn [orb]. assert (n = 0 ∨ n = 1 ∨ n = 2 ∨ 3 ≤ n) as [->|[->|[->|Hn3]]] by lia; try done.
      rewrite (Z.pow2_bits_false 2 n), !andb_true_r by lia. unfold PTE_W, PTE_P.
      change 2 with (2 ^ 1). change 1 with (2 ^ 0) at 2 4. rewrite !Z.pow2_bits_false by lia. done.
    + rewrite Z.pow2_bits_false, andb_true_r by lia. unfold PTE_W, PTE_P. change 2 with (2 ^ 1). change 1 with (2 ^ 0) at 2 4.
      rewrite !Z.pow2_bits_false by lia. by rewrite !orb_false_r.
  - rewrite Z.land_spec, Z.bits_0, !Z.lor_spec. destruct (decide (n = 2)) as [->|]; [by rewrite Hsh by lia|].
    rewrite Z.pow2_bits_false by lia. apply andb_false_r.
Qed.

(** The page is still there, but the process may not access it. *)
Record cleared (d i : Z) (s : kmem) (l : list Z) (N : Z → bool) (s' : kmem) : Prop := {
  cl_space : uspace d s' l N;
  cl_conf : confined d s l N s' l N;
  cl_entry j : 0 ≤ j < NUSER → j ≠ i → entry s' d j = entry s d j;
  cl_user : user_page s' d i = false;
  cl_byte va : 0 ≤ va < KERNBASE → N (vpn va) = true → ubyte s' d va = ubyte s d va
}.

Lemma clearpteu_ok d i s l N :
  uspace d s l N → 0 ≤ i < NUSER → N i = true → entry s d i = V2P (upage s d i) + Z.lor (Z.lor PTE_W PTE_U) PTE_P →
  ∃ s', clearpteu d (PGSIZE * i) s = Ok tt s' ∧ cleared d i s l N s'.
Proof.
  intros U Hi HN He. pose proof U as [Hok Ht Hd Hin Hinj Hout]. destruct (user_va i Hi) as [Hva Hvp].
  pose proof (present_table d s l N i U Hi HN) as Hpt. destruct (Hin i Hi HN) as (_ & Hp & _). set (v := upage s d i) in *.
  destruct (clear_flag _ _ Hp) as [Ec Eu]. destruct (page_V2P _ _ Hp) as (_ & Hv0 & Hv1 & _).
  destruct (perm_entry _ _ PTE_W Hp) as (He1 & He2 & _); [by vm_compute|].
  assert (Hr : 0 ≤ V2P v + Z.lor PTE_W PTE_P < 2 ^ 32).
  { change (Z.lor PTE_W PTE_P) with 3. unfold PHYSTOP, PGSIZE in *. lia. }
  unfold clearpteu. rewrite (bind_ok _ _ _ _ _ (walk_find d (PGSIZE * i) s l N U Hva)), Hpt.
  rewrite (bind_ok _ _ _ _ _ (kload_entry d (PGSIZE * i) s l N U Hva Hpt)). fold (entry s d i). rewrite He, Ec.
  destruct (set_entry_kept d s l (PGSIZE * i) (V2P v + Z.lor PTE_W PTE_P) Hok Ht Hd Hva Hpt) as (E & Hok' & Ee & T' & P' & M');
    [done|].
  set (s' := set_phys _ s) in *. exists s'. split; [done|].
  assert (Hent : ∀ j, 0 ≤ j < NUSER → entry s' d j = if j =? i then V2P v + Z.lor PTE_W PTE_P else entry s d j).
  { intros j Hj. destruct (user_va j Hj) as [Hvj Hpj]. unfold entry. change (phys s') with (with_entry (phys s) d (PGSIZE * i) (V2P v + Z.lor PTE_W PTE_P)).
    rewrite (with_entry_xlate (kend s)), Hvp, Hpj; done. }
  assert (Hup : ∀ j, 0 ≤ j < NUSER → upage s' d j = upage s d j ∧ present (entry s' d j) = present (entry s d j)).
  { intros j Hj. unfold upage. rewrite Hent by done. case_b; [|done]. subst j. destruct (Hin i Hi HN) as [-> _]. done. }
  split; [split; try done|split; try done| | |].
  - intros w Hw. rewrite P'. by apply Hd.
  - intros j Hj Hm. destruct (Hup j Hj) as [-> ->]. rewrite P'. by apply Hin.
  - intros j k Hj Hk. rewrite (proj1 (Hup j Hj)), (proj1 (Hup k Hk)). by apply Hinj.
  - intros j Hj. rewrite (proj2 (Hup j Hj)). by apply Hout.
  - intros w. unfold owned. rewrite P'.
    split; (intros [?|[?|(j & Hj & Hm & ->)]]; [by left|by right; left|right; right; exists j]); by rewrite (proj1 (Hup j Hj)).
  - intros w x Hw _ Ho. apply (M' w); [done|]. intros ?. apply Ho. by left.
  - intros j Hj Hne. by rewrite Hent, (proj2 (Z.eqb_neq j i)).
  - unfold user_page. rewrite Hent, Z.eqb_refl by done. by rewrite Eu.
  - intros va Hvar Hn. destruct (vpn_range va Hvar) as (Hvr & _ & Hvo). unfold ubyte. rewrite (proj1 (Hup _ Hvr)).
    destruct (Hin _ Hvr Hn) as (_ & A2 & A3 & _). apply (M' (upage s d (vpn va))); try done. unfold in_page. lia.
Qed.
