(* ===== verification/Proc.v ===== *)
(** * Processes

    [src/proc.c] over the memory of [Kalloc] and [Vm] and an interface of the files.
    A process is a slot of the table, a [struct proc *] its address; trap frames and
    contexts are bytes of the kernel stacks.

    [swtch] cuts the code: a call that gives up the CPU ends in [Switch] with the table
    lock held, and what it does when it is scheduled again is a definition of its own
    ([sleep_resume], [yield_resume], the next round of [wait_scan]). *)
From S2P Require Import Prelude CString Bytes Kalloc Vm.

Inductive procstate : Type := UNUSED | EMBRYO | SLEEPING | RUNNABLE | RUNNING | ZOMBIE.
Global Instance procstate_eq_dec : EqDecision procstate.
Proof. solve_decision. Defined.

Record proc : Type := Proc {
  p_sz : Z;
  p_pgdir : Z;
  p_kstack : Z;
  p_state : procstate;
  p_pid : Z;
  p_parent : Z;
  p_tf : Z;
  p_context : Z;
  p_chan : Z;
  p_killed : Z;
  p_ofile : list Z;
  p_cwd : Z;
  p_name : list Z
}.

Definition set_sz (v : Z) (p : proc) : proc := Proc v (p_pgdir p) (p_kstack p) (p_state p) (p_pid p) (p_parent p) (p_tf p) (p_context p) (p_chan p) (p_killed p) (p_ofile p) (p_cwd p) (p_name p).
Definition set_pgdir (v : Z) (p : proc) : proc := Proc (p_sz p) v (p_kstack p) (p_state p) (p_pid p) (p_parent p) (p_tf p) (p_context p) (p_chan p) (p_killed p) (p_ofile p) (p_cwd p) (p_name p).
Definition set_kstack (v : Z) (p : proc) : proc := Proc (p_sz p) (p_pgdir p) v (p_state p) (p_pid p) (p_parent p) (p_tf p) (p_context p) (p_chan p) (p_killed p) (p_ofile p) (p_cwd p) (p_name p).
Definition set_state (v : procstate) (p : proc) : proc := Proc (p_sz p) (p_pgdir p) (p_kstack p) v (p_pid p) (p_parent p) (p_tf p) (p_context p) (p_chan p) (p_killed p) (p_ofile p) (p_cwd p) (p_name p).
Definition set_pid (v : Z) (p : proc) : proc := Proc (p_sz p) (p_pgdir p) (p_kstack p) (p_state p) v (p_parent p) (p_tf p) (p_context p) (p_chan p) (p_killed p) (p_ofile p) (p_cwd p) (p_name p).
Definition set_parent (v : Z) (p : proc) : proc := Proc (p_sz p) (p_pgdir p) (p_kstack p) (p_state p) (p_pid p) v (p_tf p) (p_context p) (p_chan p) (p_killed p) (p_ofile p) (p_cwd p) (p_name p).
Definition set_tf (v : Z) (p : proc) : proc := Proc (p_sz p) (p_pgdir p) (p_kstack p) (p_state p) (p_pid p) (p_parent p) v (p_context p) (p_chan p) (p_killed p) (p_ofile p) (p_cwd p) (p_name p).
Definition set_context (v : Z) (p : proc) : proc := Proc (p_sz p) (p_pgdir p) (p_kstack p) (p_state p) (p_pid p) (p_parent p) (p_tf p) v (p_chan p) (p_killed p) (p_ofile p) (p_cwd p) (p_name p).
Definition set_chan (v : Z) (p : proc) : proc := Proc (p_sz p) (p_pgdir p) (p_kstack p) (p_state p) (p_pid p) (p_parent p) (p_tf p) (p_context p) v (p_killed p) (p_ofile p) (p_cwd p) (p_name p).
Definition set_killed (v : Z) (p : proc) : proc := Proc (p_sz p) (p_pgdir p) (p_kstack p) (p_state p) (p_pid p) (p_parent p) (p_tf p) (p_context p) (p_chan p) v (p_ofile p) (p_cwd p) (p_name p).
Definition set_ofile (v : list Z) (p : proc) : proc := Proc (p_sz p) (p_pgdir p) (p_kstack p) (p_state p) (p_pid p) (p_parent p) (p_tf p) (p_context p) (p_chan p) (p_killed p) v (p_cwd p) (p_name p).
Definition set_cwd (v : Z) (p : proc) : proc := Proc (p_sz p) (p_pgdir p) (p_kstack p) (p_state p) (p_pid p) (p_parent p) (p_tf p) (p_context p) (p_chan p) (p_killed p) (p_ofile p) v (p_name p).
Definition set_name (v : list Z) (p : proc) : proc := Proc (p_sz p) (p_pgdir p) (p_kstack p) (p_state p) (p_pid p) (p_parent p) (p_tf p) (p_context p) (p_chan p) (p_killed p) (p_ofile p) (p_cwd p) v.

(** What the processes ask of the files: references to [struct file] and
    [struct inode], and the transactions around them. *)
Class FileRefs (F : Type) : Type := {
  fr_filedup : Z → cm F Z;
  fr_fileclose : Z → cm F unit;
  fr_idup : Z → cm F Z;
  fr_iput : Z → cm F unit;
  fr_begin_op : cm F unit;
  fr_end_op : cm F unit;
  fr_namei : list Z → cm F Z
}.

(** The kernel as one CPU sees it.  [held]: the spinlocks it holds, whose number is
    [ncli]; [cpu_proc], [cr3], [esp0]: what [switchuvm] and the scheduler load. *)
Record kern (F : Type) : Type := Kern {
  k_mem : kmem;
  k_files : F;
  k_procs : list proc;
  k_nextpid : Z;
  k_initproc : Z;
  k_held : list Z;
  k_cpu_proc : Z;
  k_cr3 : Z;
  k_esp0 : Z
}.
Arguments Kern {F}. Arguments k_mem {F}. Arguments k_files {F}. Arguments k_procs {F}. Arguments k_nextpid {F}.
Arguments k_initproc {F}. Arguments k_held {F}. Arguments k_cpu_proc {F}. Arguments k_cr3 {F}. Arguments k_esp0 {F}.

Definition set_mem {F} (v : kmem) (s : kern F) : kern F := Kern v (k_files s) (k_procs s) (k_nextpid s) (k_initproc s) (k_held s) (k_cpu_proc s) (k_cr3 s) (k_esp0 s).
Definition set_files {F} (v : F) (s : kern F) : kern F := Kern (k_mem s) v (k_procs s) (k_nextpid s) (k_initproc s) (k_held s) (k_cpu_proc s) (k_cr3 s) (k_esp0 s).
Definition set_procs {F} (v : list proc) (s : kern F) : kern F := Kern (k_mem s) (k_files s) v (k_nextpid s) (k_initproc s) (k_held s) (k_cpu_proc s) (k_cr3 s) (k_esp0 s).
Definition set_nextpid {F} (v : Z) (s : kern F) : kern F := Kern (k_mem s) (k_files s) (k_procs s) v (k_initproc s) (k_held s) (k_cpu_proc s) (k_cr3 s) (k_esp0 s).
Definition set_initproc {F} (v : Z) (s : kern F) : kern F := Kern (k_mem s) (k_files s) (k_procs s) (k_nextpid s) v (k_held s) (k_cpu_proc s) (k_cr3 s) (k_esp0 s).
Definition set_held {F} (v : list Z) (s : kern F) : kern F := Kern (k_mem s) (k_files s) (k_procs s) (k_nextpid s) (k_initproc s) v (k_cpu_proc s) (k_cr3 s) (k_esp0 s).
Definition set_cpu {F} (c pgdir sp : Z) (s : kern F) : kern F := Kern (k_mem s) (k_files s) (k_procs s) (k_nextpid s) (k_initproc s) (k_held s) c pgdir sp.

(** A call that comes back with a value, or gives the CPU up. *)
Inductive after (A : Type) : Type := Ret (a : A) | Switch.
Arguments Ret {A} a.
Arguments Switch {A}.

Definition NPROC : nat := 64.
Definition KSTACKSIZE : Z := 4096.
Definition NOFILE : nat := 16.

Section proc.
(** The address of the table and of its lock, of the routines a new process starts in,
    of the kernel's data, and of its initial page table. *)
Context {F : Type} {files : FileRefs F} (ptable plock forkret_addr trapret_addr data kpgdir : Z).

(** [&ptable.proc[i]], with [sizeof(struct proc)]. *)
Definition ptr (i : nat) : Z := ptable + 124 * Z.of_nat i.

Definition inmem {A} (m : cm kmem A) : cm (kern F) A := λ s,
  match m (k_mem s) with Ok a k => Ok a (set_mem k s) | Panic e => Panic e | Ub e => Ub e end.
Definition infiles {A} (m : cm F A) : cm (kern F) A := λ s,
  match m (k_files s) with Ok a f => Ok a (set_files f s) | Panic e => Panic e | Ub e => Ub e end.

Definition lock (lk : Z) : cm (kern F) unit := λ s,
  if bool_decide (lk ∈ k_held s) then Panic "acquire" else Ok tt (set_held (lk :: k_held s) s).
Definition unlock (lk : Z) : cm (kern F) unit := λ s,
  if bool_decide (lk ∈ k_held s) then Ok tt (set_held (list_difference (k_held s) [lk]) s) else Panic "release".

Definition getp (i : nat) : cm (kern F) proc := λ s,
  match k_procs s !! i with Some p => Ok p s | None => Ub "proc" end.
Definition setp (i : nat) (f : proc → proc) : cm (kern F) unit := modify (λ s, set_procs (alter f i (k_procs s)) s).

(** [memset] on the kernel stack. *)
Definition fill_bytes (v c n : Z) : cm kmem unit := λ s,
  if in_ram v then Ok tt (set_phys (memset (phys s) (V2P v) c n) s) else Ub "pointer".
Definition copy_frame (dst src : Z) : cm kmem unit := λ s,
  if in_ram dst && in_ram src then Ok tt (set_phys (memmove (phys s) (V2P dst) (V2P src) 76) s) else Ub "pointer".

(** The scan for a slot. *)
Fixpoint find_proc (f : proc → bool) (ps : list proc) (i : nat) : option nat :=
  match ps with
  | [] => None
  | p :: ps' => if f p then Some i else find_proc f ps' (S i)
  end.
Definition is_state (st : procstate) (p : proc) : bool := bool_decide (p_state p = st).

Definition allocproc : cm (kern F) (option nat) :=
  lock plock ;;
  ps ← gets k_procs;
  match find_proc (is_state UNUSED) ps 0 with
  | None => unlock plock ;; mret None
  | Some i =>
      setp i (set_state EMBRYO) ;;
      pid ← gets k_nextpid;
      setp i (set_pid pid) ;;
      modify (set_nextpid (i32 (pid + 1))) ;;
      unlock plock ;;
      ks ← inmem kalloc;
      setp i (set_kstack ks) ;;
      if ks =? 0 then setp i (set_state UNUSED) ;; mret None else
      let sp := ks + KSTACKSIZE - 76 in
      setp i (set_tf sp) ;;
      let sp := sp - 4 in
      inmem (kstore sp trapret_addr) ;;
      let sp := sp - 20 in
      setp i (set_context sp) ;;
      inmem (fill_bytes sp 0 20) ;;
      inmem (kstore (sp + 16) forkret_addr) ;;
      mret (Some i)
  end.

(** [safestrcpy(p->name, t, sizeof(p->name))]. *)
Definition name_proc (i : nat) (t : list Z) : cm (kern F) unit :=
  p ← getp i;
  match safestrcpy (p_name p) t 16 with
  | Some n => setp i (set_name n)
  | None => ub "safestrcpy"
  end.

(** The segment selectors and offsets of [struct trapframe]. *)
Definition UCODE : Z := Z.lor (Z.shiftl 3 3) 3.
Definition UDATA : Z := Z.lor (Z.shiftl 4 3) 3.
Definition FL_IF : Z := 512.

Definition userinit (initcode : list Z) : cm (kern F) unit :=
  r ← allocproc;
  match r with
  | None => ub "userinit: null process"
  | Some i =>
      modify (set_initproc (ptr i)) ;;
      pg ← inmem (setupkvm data);
      setp i (set_pgdir pg) ;;
      if pg =? 0 then panic "userinit: out of memory?" else
      inmem (inituvm pg initcode) ;;
      setp i (set_sz PGSIZE) ;;
      p ← getp i;
      inmem (fill_bytes (p_tf p) 0 76 ;;
             kstore (p_tf p + 60) UCODE ;; kstore (p_tf p + 44) UDATA ;; kstore (p_tf p + 40) UDATA ;;
             kstore (p_tf p + 72) UDATA ;; kstore (p_tf p + 64) FL_IF ;; kstore (p_tf p + 68) PGSIZE ;;
             kstore (p_tf p + 56) 0) ;;
      name_proc i [105; 110; 105; 116; 99; 111; 100; 101; 0] ;;
      cwd ← infiles (fr_namei [47; 0]);
      setp i (set_cwd cwd) ;;
      lock plock ;;
      setp i (set_state RUNNABLE) ;;
      unlock plock
  end.

(** [switchuvm]: its tests, and the page table and kernel stack it loads. *)
Definition switchuvm (i : nat) : cm (kern F) unit :=
  p ← getp i;
  if p_kstack p =? 0 then panic "switchuvm: no kstack" else
  if p_pgdir p =? 0 then panic "switchuvm: no pgdir" else
  c ← gets k_cpu_proc;
  modify (set_cpu c (V2P (p_pgdir p)) (p_kstack p + KSTACKSIZE)).

(** [switchkvm]: back to the kernel's page table. *)
Definition switchkvm : cm (kern F) unit := modify (λ s, set_cpu (k_cpu_proc s) (V2P kpgdir) (k_esp0 s) s).

Definition growproc (cur : nat) (n : Z) : cm (kern F) Z :=
  p ← getp cur;
  let sz := p_sz p in
  if 0 <? n then
    r ← inmem (allocuvm (p_pgdir p) sz (u32 (sz + n)));
    if r =? 0 then mret (-1) else setp cur (set_sz r) ;; switchuvm cur ;; mret 0
  else if n <? 0 then
    r ← inmem (deallocuvm (p_pgdir p) sz (u32 (sz + n)));
    if r =? 0 then mret (-1) else setp cur (set_sz r) ;; switchuvm cur ;; mret 0
  else setp cur (set_sz sz) ;; switchuvm cur ;; mret 0.

(** The loop over the open files in [fork]. *)
Fixpoint fork_files (fs nf : list Z) : cm (kern F) (list Z) :=
  match fs, nf with
  | f :: fs', g :: nf' =>
      g' ← (if negb (f =? 0) then infiles (fr_filedup f) else mret g);
      r ← fork_files fs' nf';
      mret (g' :: r)
  | _, _ => mret nf
  end.

(** [fork] after [allocproc] found the slot [np]. *)
Definition fork_into (cur np : nat) : cm (kern F) Z :=
  c ← getp cur;
  pg ← inmem (copyuvm data (p_pgdir c) (p_sz c));
  setp np (set_pgdir pg) ;;
  if pg =? 0 then
    n ← getp np;
    inmem (kfree (p_kstack n)) ;;
    setp np (set_kstack 0) ;;
    setp np (set_state UNUSED) ;;
    mret (-1)
  else
    setp np (set_sz (p_sz c)) ;;
    setp np (set_parent (ptr cur)) ;;
    n ← getp np;
    inmem (copy_frame (p_tf n) (p_tf c)) ;;
    inmem (kstore (p_tf n + 28) 0) ;;
    fs ← fork_files (p_ofile c) (p_ofile n);
    setp np (set_ofile fs) ;;
    cwd ← infiles (fr_idup (p_cwd c));
    setp np (set_cwd cwd) ;;
    name_proc np (p_name c) ;;
    n ← getp np;
    lock plock ;;
    setp np (set_state RUNNABLE) ;;
    unlock plock ;;
    mret (p_pid n).

Definition fork (cur : nat) : cm (kern F) Z :=
  r ← allocproc;
  match r with
  | None => mret (-1)
  | Some np => fork_into cur np
  end.

Definition wakeup1 (chan : Z) : cm (kern F) unit :=
  modify (λ s, set_procs ((λ p, if is_state SLEEPING p && (p_chan p =? chan) then set_state RUNNABLE p else p)
                            <$> k_procs s) s).

Definition wakeup (chan : Z) : cm (kern F) unit := lock plock ;; wakeup1 chan ;; unlock plock.

(** [readeflags()&FL_IF]: [acquire] turns interrupts off, and they are on again when no lock is held. *)
Definition interruptible (held : list Z) : bool := Nat.eqb (length held) 0.

(** [sched]: its tests; the switch to the scheduler is the end of the slice. *)
Definition sched (cur : nat) : cm (kern F) unit :=
  h ← gets k_held;
  if negb (bool_decide (plock ∈ h)) then panic "sched ptable.lock" else
  if negb (Nat.eqb (length h) 1) then panic "sched locks" else
  p ← getp cur;
  if is_state RUNNING p then panic "sched running" else
  if interruptible h then panic "sched interruptible" else mret tt.

(** The loop over the open files in [exit]. *)
Fixpoint exit_files (cur : nat) (fd : nat) (n : nat) : cm (kern F) unit :=
  match n with
  | O => mret tt
  | S n' =>
      p ← getp cur;
      match p_ofile p !! fd with
      | None => ub "ofile"
      | Some f =>
          (if negb (f =? 0) then infiles (fr_fileclose f) ;; setp cur (λ p, set_ofile (<[fd := 0]> (p_ofile p)) p)
           else mret tt) ;;
          exit_files cur (S fd) n'
      end
  end.

(** The loop that passes abandoned children to init. *)
Fixpoint exit_children (cur i n : nat) : cm (kern F) unit :=
  match n with
  | O => mret tt
  | S n' =>
      p ← getp i;
      (if p_parent p =? ptr cur then
         init ← gets k_initproc;
         setp i (set_parent init) ;;
         if is_state ZOMBIE p then wakeup1 init else mret tt
       else mret tt) ;;
      exit_children cur (S i) n'
  end.

(** [exit] up to the lock, and with it. *)
Definition exit_close (cur : nat) : cm (kern F) unit :=
  exit_files cur 0 NOFILE ;;
  infiles fr_begin_op ;;
  p ← getp cur;
  infiles (fr_iput (p_cwd p)) ;;
  infiles fr_end_op ;;
  setp cur (set_cwd 0).

Definition exit_leave (cur : nat) : cm (kern F) (after unit) :=
  lock plock ;;
  p ← getp cur;
  wakeup1 (p_parent p) ;;
  exit_children cur 0 NPROC ;;
  setp cur (set_state ZOMBIE) ;;
  sched cur ;;
  mret Switch.

Definition exit (cur : nat) : cm (kern F) (after unit) :=
  init ← gets k_initproc;
  if ptr cur =? init then panic "init exiting" else
  exit_close cur ;;
  exit_leave cur.

Definition sleep (cur : nat) (chan lk : Z) : cm (kern F) (after unit) :=
  if lk =? 0 then panic "sleep without lk" else
  (if negb (lk =? plock) then lock plock ;; unlock lk else mret tt) ;;
  setp cur (set_chan chan) ;;
  setp cur (set_state SLEEPING) ;;
  sched cur ;;
  mret Switch.

(** [sleep] after [sched] returns. *)
Definition sleep_resume (cur : nat) (lk : Z) : cm (kern F) unit :=
  setp cur (set_chan 0) ;;
  if negb (lk =? plock) then unlock plock ;; lock lk else mret tt.

(** The scan of [wait]: the first exited child, and whether there are children. *)
Fixpoint wait_find (cur : nat) (ps : list proc) (i : nat) (havekids : bool) : option nat * bool :=
  match ps with
  | [] => (None, havekids)
  | p :: ps' =>
      if negb (p_parent p =? ptr cur) then wait_find cur ps' (S i) havekids
      else if is_state ZOMBIE p then (Some i, true)
      else wait_find cur ps' (S i) true
  end.

(** One round of the loop of [wait], with the lock held. *)
Definition wait_scan (cur : nat) : cm (kern F) (after Z) :=
  ps ← gets k_procs;
  match wait_find cur ps 0 false with
  | (Some i, _) =>
      p ← getp i;
      inmem (kfree (p_kstack p)) ;;
      setp i (set_kstack 0) ;;
      inmem (freevm (p_pgdir p)) ;;
      setp i (set_pid 0) ;;
      setp i (set_parent 0) ;;
      setp i (λ p, set_name (<[0%nat := 0]> (p_name p)) p) ;;
      setp i (set_killed 0) ;;
      setp i (set_state UNUSED) ;;
      unlock plock ;;
      mret (Ret (p_pid p))
  | (None, havekids) =>
      c ← getp cur;
      if negb havekids || negb (p_killed c =? 0) then unlock plock ;; mret (Ret (-1)) else
      sleep cur (ptr cur) plock ;; mret Switch
  end.

Definition wait (cur : nat) : cm (kern F) (after Z) := lock plock ;; wait_scan cur.
(** [wait] when it is scheduled again. *)
Definition wait_resume (cur : nat) : cm (kern F) (after Z) := sleep_resume cur plock ;; wait_scan cur.

Definition yield (cur : nat) : cm (kern F) (after unit) :=
  lock plock ;; setp cur (set_state RUNNABLE) ;; sched cur ;; mret Switch.
Definition yield_resume : cm (kern F) unit := unlock plock.

Definition kill (pid : Z) : cm (kern F) Z :=
  lock plock ;;
  ps ← gets k_procs;
  match find_proc (λ p, p_pid p =? pid) ps 0 with
  | Some i =>
      setp i (set_killed 1) ;;
      p ← getp i;
      (if is_state SLEEPING p then setp i (set_state RUNNABLE) else mret tt) ;;
      unlock plock ;;
      mret 0
  | None => unlock plock ;; mret (-1)
  end.

(** One round of the endless loop of [scheduler].  [run i] is what process [i] does
    from the switch to it until it switches back. *)
Fixpoint scheduler_pass (run : nat → cm (kern F) unit) (i n : nat) : cm (kern F) unit :=
  match n with
  | O => mret tt
  | S n' =>
      p ← getp i;
      (if is_state RUNNABLE p then
         modify (λ s, set_cpu (ptr i) (k_cr3 s) (k_esp0 s) s) ;;
         switchuvm i ;;
         setp i (set_state RUNNING) ;;
         run i ;;
         switchkvm ;;
         modify (λ s, set_cpu 0 (k_cr3 s) (k_esp0 s) s)
       else mret tt) ;;
      scheduler_pass run (S i) n'
  end.

Definition scheduler (run : nat → cm (kern F) unit) : cm (kern F) unit :=
  lock plock ;; scheduler_pass run 0 NPROC ;; unlock plock.

(** [forkret], where a new process starts: [first] is its static flag. *)
Definition forkret (first : bool) (iinit initlog : cm F unit) : cm (kern F) bool :=
  unlock plock ;;
  (if first then infiles iinit ;; infiles initlog else mret tt) ;;
  mret false.
End proc.
