(* ===== verification/ProcTheorems.v ===== *)
(** * The process table

    Theorems on [Proc]: the invariant of the table under any interleaving of the
    calls of [src/proc.c], that no wakeup of a parent is lost, what [wait], [kill]
    and [exit] do, and that a round of the scheduler runs every process that is ready. *)
From S2P Require Import Prelude CString Bytes Kalloc Vm Proc.

(** Partial runs: what holds of the table when a call comes back. *)
Definition wpp {S A} (m : cm S A) (s : S) (Q : A → S → Prop) : Prop :=
  match m s with Ok a s' => Q a s' | _ => True end.

Lemma wpp_bind {S A B} (m : cm S A) (k : A → cm S B) s Q :
  wpp m s (λ a s', wpp (k a) s' Q) → wpp (m ≫= k) s Q.
Proof. unfold wpp, mbind, cm_bind. by destruct (m s). Qed.

Lemma wpp_mono {S A} (m : cm S A) s (Q Q' : A → S → Prop) :
  wpp m s Q → (∀ a s', Q a s' → Q' a s') → wpp m s Q'.
Proof. unfold wpp. destruct (m s); auto. Qed.

Lemma wpp_void {S A} (m : cm S A) s (P : S → Prop) : wpp m s (λ _, P) → wpp (m ;; mret tt) s (λ _, P).
Proof. intros H. apply wpp_bind. eapply wpp_mono; [exact H|]. done. Qed.

(** ** The invariant *)

(** Created, and neither exited nor reaped. *)
Definition live (st : procstate) : bool :=
  match st with SLEEPING | RUNNABLE | RUNNING => true | _ => false end.

Lemma alter_alter (f g : proc → proc) (i : nat) (ps : list proc) : alter f i (alter g i ps) = alter (λ p, f (g p)) i ps.
Proof. revert i. induction ps as [|p ps IH]; intros [|i]; [done..|]. cbn. f_equal. apply IH. Qed.

Lemma alter_as_insert (f : proc → proc) (i : nat) p (ps : list proc) : ps !! i = Some p → alter f i ps = <[i := f p]> ps.
Proof. revert i. induction ps as [|q ps IH]; intros [|i] Hp; simplify_eq/=; [done|]. f_equal. by apply IH. Qed.

Section table.
Context {F : Type} {files : FileRefs F} (ptable plock forkret_addr trapret_addr data kpgdir : Z).
Context (Hptable : 0 < ptable).

Local Abbreviation ptr := (ptr ptable).

Lemma ptr_inj i j : ptr i = ptr j → i = j.
Proof. unfold Proc.ptr. lia. Qed.
Lemma ptr_pos i : ptr i ≠ 0.
Proof. unfold Proc.ptr. lia. Qed.

(** Process [i] has reason to sleep in [wait]. *)
Definition waits (ps : list proc) (i : nat) (p : proc) : Prop :=
  p_killed p = 0 ∧ (∃ j q, ps !! j = Some q ∧ p_parent q = ptr i) ∧
  ∀ j q, ps !! j = Some q → p_parent q = ptr i → p_state q ≠ ZOMBIE.

Record ptab_ok (init : nat) (ps : list proc) (next : Z) : Prop := {
  pt_len : length ps = NPROC;
  pt_pid i p : ps !! i = Some p → 0 ≤ p_pid p < next ∧ (p_state p ≠ UNUSED → 0 < p_pid p);
  pt_uniq i j p q : ps !! i = Some p → ps !! j = Some q → p_pid p = p_pid q → p_pid p ≠ 0 → i = j;
  pt_init : ∃ p, ps !! init = Some p ∧ live (p_state p) = true ∧ p_parent p = 0;
  pt_parent i p : ps !! i = Some p → i ≠ init →
    if live (p_state p) || bool_decide (p_state p = ZOMBIE)
    then ∃ j q, p_parent p = ptr j ∧ j ≠ i ∧ ps !! j = Some q ∧ live (p_state q) = true
    else p_parent p = 0;
  pt_wait i p : ps !! i = Some p → p_state p = SLEEPING → p_chan p = ptr i → waits ps i p
}.

(** A change of a process that the others do not see. *)
Record sim (ps : list proc) (i : nat) (p p' : proc) : Prop := {
  sim_pid : p_pid p' = p_pid p;
  sim_parent : p_parent p' = p_parent p;
  sim_live : live (p_state p') = live (p_state p);
  sim_state : live (p_state p) = false → p_state p' = p_state p;
  sim_wait : p_state p' = SLEEPING → p_chan p' = ptr i →
    (p_state p = SLEEPING ∧ p_chan p = ptr i ∧ p_killed p' = p_killed p) ∨ waits ps i p'
}.

Lemma ptab_sim init ps ps' next :
  ptab_ok init ps next → length ps' = length ps →
  (∀ i p p', ps !! i = Some p → ps' !! i = Some p' → sim ps i p p') → ptab_ok init ps' next.
Proof.
  intros [Hl Hpid Hu Hi Hpar Hw] Hlen Hsim.
  assert (Hback : ∀ i p', ps' !! i = Some p' → ∃ p, ps !! i = Some p ∧ sim ps i p p').
  { intros i p' Hp'. destruct (lookup_lt_is_Some_2 ps i) as [p Hp]; [|eauto].
    rewrite <- Hlen. by eapply lookup_lt_Some. }
  assert (Hfwd : ∀ i p, ps !! i = Some p → ∃ p', ps' !! i = Some p' ∧ sim ps i p p').
  { intros i p Hp. destruct (lookup_lt_is_Some_2 ps' i) as [p' Hp']; [|eauto].
    rewrite Hlen. by eapply lookup_lt_Some. }
  split.
  - lia.
  - intros i p' (p & Hp & [S1 S2 S3 S4 S5])%Hback. rewrite S1. destruct (Hpid i p Hp) as [? Hs]. split; [done|].
    intros Hn. apply Hs. intros E. apply Hn. rewrite S4; [done|by rewrite E].
  - intros i j p' q' (p & Hp & [S1 _ _ _ _])%Hback (q & Hq & [T1 _ _ _ _])%Hback. rewrite S1, T1. by apply Hu.
  - destruct Hi as (p & Hp & ? & ?). destruct (Hfwd _ _ Hp) as (p' & Hp' & [S1 S2 S3 S4 S5]). exists p'. by rewrite S2, S3.
  - intros i p' (p & Hp & [S1 S2 S3 S4 S5])%Hback Hne. specialize (Hpar i p Hp Hne).
    rewrite S2, S3. replace (bool_decide (p_state p' = ZOMBIE)) with (bool_decide (p_state p = ZOMBIE)).
    + case_b; [|done]. destruct Hpar as (j & q & ? & ? & Hq & ?). destruct (Hfwd _ _ Hq) as (q' & Hq' & [_ _ T3 _ _]).
      exists j, q'. by rewrite T3.
    + apply bool_decide_ext. destruct (live (p_state p)) eqn:El; [|by rewrite S4].
      split; intros E; rewrite E in *; done.
  - intros i p' (p & Hp & [S1 S2 S3 S4 S5])%Hback Hs Hc.
    assert (Hwt : waits ps i p').
    { destruct (S5 Hs Hc) as [(E1 & E2 & E3)|?]; [|done]. unfold waits. rewrite E3. by apply Hw. }
    destruct Hwt as (K1 & (j & q & Hq & Hqp) & K3). split_and!; [done| |].
    + destruct (Hfwd _ _ Hq) as (q' & Hq' & [_ T2 _ _ _]). exists j, q'. by rewrite T2.
    + intros k r' (r & Hr & [T1 T2 T3 T4 T5])%Hback. rewrite T2. intros Hrp Hz. apply (K3 k r Hr Hrp).
      destruct (live (p_state r)) eqn:El; [by rewrite Hz in T3|]. by rewrite <- T4.
Qed.

Lemma sim_refl ps i p : sim ps i p p.
Proof. split; auto. Qed.

(** One process changed. *)
Lemma ptab_sim_one init ps next i f :
  ptab_ok init ps next → (∀ p, ps !! i = Some p → sim ps i p (f p)) → ptab_ok init (alter f i ps) next.
Proof.
  intros Hok Hf. eapply ptab_sim; [done|by rewrite length_alter|]. intros j p p' Hp Hp'.
  destruct (decide (j = i)) as [->|Hne].
  - rewrite list_lookup_alter_eq, Hp in Hp'. simplify_eq/=. by apply Hf.
  - rewrite list_lookup_alter_ne in Hp' by done. simplify_eq. apply sim_refl.
Qed.

(** Nobody's parent is a slot that is not live. *)
Lemma ptab_no_child init ps next i p j q :
  ptab_ok init ps next → ps !! i = Some p → live (p_state p) = false → ps !! j = Some q → p_parent q ≠ ptr i.
Proof.
  intros [Hl _ _ (r & Hr & Hr1 & Hr2) Hpar _] Hp Hlive Hq E.
  destruct (decide (j = init)) as [->|Hne]; [rewrite Hq in Hr; simplify_eq; rewrite E in Hr2; by apply ptr_pos in Hr2|].
  specialize (Hpar j q Hq Hne). destruct (live (p_state q) || _); [|rewrite E in Hpar; by apply ptr_pos in Hpar].
  destruct Hpar as (k & r' & E2 & _ & Hk & Hk2). rewrite E in E2. apply ptr_inj in E2 as <-.
  rewrite Hp in Hk. simplify_eq. congruence.
Qed.

Lemma ptab_not_init init ps next i p :
  ptab_ok init ps next → ps !! i = Some p → live (p_state p) = false → i ≠ init.
Proof. intros [_ _ _ (r & Hr & Hr1 & _) _ _] Hp Hlive ->. rewrite Hp in Hr. simplify_eq. congruence. Qed.

Ltac ins H := rewrite list_lookup_insert_Some in H; destruct H as [(-> & <- & _)|(? & H)].

(** A slot that is not live taken, given up or reaped; its parent, if it had one, is
    not asleep. *)
Lemma ptab_slot init ps next next' i p p' :
  ptab_ok init ps next → next ≤ next' → ps !! i = Some p → live (p_state p) = false →
  (p_parent p = 0 ∨ ∃ cur c, p_parent p = ptr cur ∧ ps !! cur = Some c ∧ p_state c ≠ SLEEPING) →
  (p_state p' = UNUSED ∨ p_state p' = EMBRYO) → p_parent p' = 0 →
  0 ≤ p_pid p' < next' → (p_state p' ≠ UNUSED → 0 < p_pid p') →
  (∀ j q, ps !! j = Some q → j ≠ i → p_pid q = p_pid p' → p_pid p' = 0) →
  ptab_ok init (<[i := p']> ps) next'.
Proof.
  intros Hok Hnext Hp Hlive Hpp Hs Hpar' Hpid' Hpos' Hfresh.
  pose proof (ptab_not_init _ _ _ _ _ Hok Hp Hlive) as Hni.
  pose proof (λ j q, ptab_no_child _ _ _ _ _ j q Hok Hp Hlive) as Hnc.
  pose proof Hok as [Hl Hpid Hu Hi Hpar Hw].
  assert (Hlive' : live (p_state p') || bool_decide (p_state p' = ZOMBIE) = false) by (by destruct Hs as [-> | ->]).
  split.
  - by rewrite length_insert.
  - intros j q Hq. ins Hq; [done|]. destruct (Hpid j q Hq). split; [lia|done].
  - intros j k q r Hq Hr E Hz. ins Hq; ins Hr; [done|..]; [| |by eapply Hu].
    + destruct Hz. by eapply (Hfresh k r).
    + destruct Hz. rewrite E. by eapply (Hfresh j q).
  - destruct Hi as (r & Hr & Hr2). exists r. by rewrite list_lookup_insert_ne.
  - intros j q Hq Hne. ins Hq; [by rewrite Hlive'|]. specialize (Hpar j q Hq Hne). case_b; [|done].
    destruct Hpar as (k & r & E2 & ? & Hr & Hr2). exists k, r. split_and!; try done.
    rewrite list_lookup_insert_ne; [done|]. intros ->. by apply (Hnc j q).
  - intros j q Hq Hsl Hch. ins Hq; [by destruct Hs; congruence|].
    assert (Hji : p_parent p ≠ ptr j).
    { destruct Hpp as [-> | (cur & c & -> & Hc & Hcs)]; [intros E; symmetry in E; by apply ptr_pos in E|].
      intros E. apply ptr_inj in E as ->. rewrite Hc in Hq. simplify_eq. }
    destruct (Hw j q Hq Hsl Hch) as (K1 & (k & r & Hk & Hkp) & K3). split_and!; [done| |].
    + exists k, r. split; [|done]. rewrite list_lookup_insert_ne; [done|]. intros ->. congruence.
    + intros k' r' Hk' Hkp' Hz. ins Hk'; [by destruct Hs; congruence|]. by apply (K3 k' r').
Qed.

(** A new child. *)
Lemma ptab_fork init ps next np p p' cur c :
  ptab_ok init ps next → ps !! np = Some p → p_state p = EMBRYO → ps !! cur = Some c → p_state c = RUNNING →
  p_pid p' = p_pid p → p_parent p' = ptr cur → p_state p' = RUNNABLE → ptab_ok init (<[np := p']> ps) next.
Proof.
  intros Hok Hp Hs Hc Hcs Epid Epar Es.
  assert (Hlive : live (p_state p) = false) by (by rewrite Hs).
  pose proof (ptab_not_init _ _ _ _ _ Hok Hp Hlive) as Hni.
  pose proof (λ j q, ptab_no_child _ _ _ _ _ j q Hok Hp Hlive) as Hnc.
  pose proof Hok as [Hl Hpid Hu Hi Hpar Hw]. destruct (Hpid np p Hp) as [Hp1 Hp2].
  assert (Hcn : cur ≠ np) by (intros ->; congruence).
  split.
  - by rewrite length_insert.
  - intros j q Hq. ins Hq; [|by apply (Hpid j q)]. rewrite Epid. split; [done|]. intros _. apply Hp2. by rewrite Hs.
  - intros j k q r Hq Hr E Hz. ins Hq; ins Hr; [done|..].
    + rewrite Epid in *. by eapply (Hu _ k p r).
    + rewrite Epid in *. by eapply (Hu j _ q p).
    + by eapply Hu.
  - destruct Hi as (r & Hr & Hr2). exists r. by rewrite list_lookup_insert_ne.
  - intros j q Hq Hne. ins Hq.
    + rewrite Es. simpl. exists cur, c. rewrite list_lookup_insert_ne, Hcs by done. done.
    + specialize (Hpar j q Hq Hne). case_b; [|done]. destruct Hpar as (k & r & E2 & ? & Hr & Hr2).
      exists k, r. split_and!; try done. rewrite list_lookup_insert_ne; [done|]. intros ->. by apply (Hnc j q).
  - intros j q Hq Hsl Hch. ins Hq; [congruence|]. destruct (Hw j q Hq Hsl Hch) as (K1 & (k & r & Hk & Hkp) & K3).
    split_and!; [done| |].
    + exists k, r. split; [|done]. rewrite list_lookup_insert_ne; [done|]. intros ->. rewrite Hp in Hk. simplify_eq.
      specialize (Hpar _ _ Hp Hni). rewrite Hs in Hpar. simpl in Hpar. rewrite Hpar in Hkp. symmetry in Hkp.
      by apply ptr_pos in Hkp.
    + intros k' r' Hk' Hkp' Hz. ins Hk'; [congruence|]. by apply (K3 k' r').
Qed.

(** What the exit of [cur] with entry [c] makes of process [j]: its children go to
    init, its parent is woken, and so is init if it inherits an exited child ([w]). *)
Record left (init cur : nat) (c : proc) (w : bool) (j : nat) (q q' : proc) : Prop := {
  lf_pid : p_pid q' = p_pid q;
  lf_parent : p_parent q' = if p_parent q =? ptr cur then ptr init else p_parent q;
  lf_live : j ≠ cur → live (p_state q') = live (p_state q);
  lf_state : j ≠ cur → live (p_state q) = false → p_state q' = p_state q;
  lf_zombie : j = cur → p_state q' = ZOMBIE;
  lf_wait : p_state q' = SLEEPING →
    p_state q = SLEEPING ∧ p_chan q' = p_chan q ∧ p_killed q' = p_killed q ∧
    p_chan q ≠ p_parent c ∧ (w = true → p_chan q ≠ ptr init)
}.

Lemma ptab_exit init ps ps' next cur c w :
  ptab_ok init ps next → ps !! cur = Some c → p_state c = RUNNING → cur ≠ init → length ps' = length ps →
  (∀ j q q', ps !! j = Some q → ps' !! j = Some q' → left init cur c w j q q') →
  (∀ j q, ps !! j = Some q → p_parent q = ptr cur → p_state q = ZOMBIE → w = true) → ptab_ok init ps' next.
Proof.
  intros [Hl Hpid Hu Hi Hpar Hw] Hc Hcs Hci Hlen Hlf Hz.
  assert (Hback : ∀ j q', ps' !! j = Some q' → ∃ q, ps !! j = Some q ∧ left init cur c w j q q').
  { intros j q' Hq'. destruct (lookup_lt_is_Some_2 ps j) as [q Hq]; [|eauto]. rewrite <- Hlen. by eapply lookup_lt_Some. }
  assert (Hfwd : ∀ j q, ps !! j = Some q → ∃ q', ps' !! j = Some q' ∧ left init cur c w j q q').
  { intros j q Hq. destruct (lookup_lt_is_Some_2 ps' j) as [q' Hq']; [|eauto]. rewrite Hlen. by eapply lookup_lt_Some. }
  destruct Hi as (r & Hr & Hr1 & Hr2). destruct (Hfwd _ _ Hr) as (r' & Hr' & [_ R2 R3 _ _ _]).
  specialize (R3 (not_eq_sym Hci)). rewrite Hr1 in R3.
  split.
  - lia.
  - intros j q' (q & Hq & [L1 L2 L3 L4 L5 L6])%Hback. rewrite L1. destruct (Hpid j q Hq) as [? Hs]. split; [done|].
    intros Hn. apply Hs. intros E. apply Hn. destruct (decide (j = cur)) as [->|Hne]; [congruence|]. by rewrite L4; [|done|rewrite E].
  - intros i j p' q' (p & Hp & [L1 _ _ _ _ _])%Hback (q & Hq & [L1' _ _ _ _ _])%Hback. rewrite L1, L1'. by apply Hu.
  - exists r'. split_and!; try done. rewrite R2, Hr2. case_b; [|done]. exfalso. symmetry in E. by apply ptr_pos in E.
  - intros j q' (q & Hq & [L1 L2 L3 L4 L5 L6])%Hback Hne. specialize (Hpar j q Hq Hne).
    destruct (live (p_state q') || bool_decide (p_state q' = ZOMBIE)) eqn:Eb.
    + rewrite L2. case_b; [by exists init, r'|].
      assert (Eq : live (p_state q) || bool_decide (p_state q = ZOMBIE) = true).
      { destruct (decide (j = cur)) as [->|Hjc]; [rewrite Hc in Hq; simplify_eq; by rewrite Hcs|].
        rewrite L3 in Eb by done. destruct (live (p_state q)) eqn:El; [done|]. by rewrite L4 in Eb. }
      rewrite Eq in Hpar. destruct Hpar as (k & t & E1 & ? & Ht & Ht2). destruct (Hfwd _ _ Ht) as (t' & Ht' & [_ _ T3 _ _ _]).
      exists k, t'. split_and!; try done. rewrite T3; [done|]. intros ->. congruence.
    + assert (Hjc : j ≠ cur) by (intros ->; rewrite L5, bool_decide_eq_true_2, orb_true_r in Eb; done).
      apply orb_false_iff in Eb as [Eb1 Eb2]. rewrite L3 in Eb1 by done. rewrite L4 in Eb2 by done.
      rewrite Eb1, Eb2 in Hpar. simpl in Hpar. rewrite L2, Hpar. case_b; [|done]. exfalso. symmetry in E. by apply ptr_pos in E.
  - intros i p' Hp' Hs Hch. destruct (Hback i p' Hp') as (p & Hp & [L1 L2 L3 L4 L5 L6]).
    destruct (L6 Hs) as (E1 & E2 & E3 & E4 & E5). rewrite E2 in Hch.
    assert (Hic : i ≠ cur) by (intros ->; congruence).
    destruct (Hw i p Hp E1 Hch) as (K1 & (j & q & Hq & Hqp) & K3). split_and!.
    + by rewrite E3.
    + destruct (Hfwd _ _ Hq) as (q' & Hq' & [_ T2 _ _ _ _]). exists j, q'. rewrite T2, Hqp.
      case_b; [|done]. by apply ptr_inj in E.
    + intros k t' Ht' Htp Htz. destruct (Hback k t' Ht') as (t & Ht & [T1 T2 T3 T4 T5 T6]).
      assert (Hkz : k = cur ∨ p_state t = ZOMBIE).
      { destruct (decide (k = cur)) as [?|Hkc]; [by left|right]. specialize (T3 Hkc). rewrite Htz in T3.
        rewrite <- T4; done. }
      rewrite T2 in Htp. revert Htp. case_b; intros Htp.
      * apply ptr_inj in Htp as <-. destruct Hkz as [->|Hkz].
        -- specialize (Hpar cur t Ht Hci). rewrite Hc in Ht. simplify_eq. rewrite Hcs in Hpar. simpl in Hpar.
           destruct Hpar as (k & _ & Ek & Hk & _). rewrite E in Ek. by apply ptr_inj in Ek.
        -- by apply (E5 (Hz k t Ht E Hkz)).
      * destruct Hkz as [->|Hkz]; [rewrite Hc in Ht; simplify_eq; congruence|]. by apply (K3 k t).
Qed.

(** ** The calls *)

Local Abbreviation K := (kern F).

Definition inv (init : nat) (s : K) : Prop :=
  ptab_ok init (k_procs s) (k_nextpid s) ∧ k_initproc s = ptr init.

Lemma wpp_inmem {A} (m : cm kmem A) (s : K) Q : (∀ a k, Q a (set_mem k s)) → wpp (inmem m) s Q.
Proof. intros HQ. unfold wpp, inmem. by destruct (m (k_mem s)). Qed.
Lemma wpp_infiles {A} (m : cm F A) (s : K) Q : (∀ a f, Q a (set_files f s)) → wpp (infiles m) s Q.
Proof. intros HQ. unfold wpp, infiles. by destruct (m (k_files s)). Qed.
Lemma wpp_lock lk (s : K) Q : (∀ h, Q tt (set_held h s)) → wpp (lock lk) s Q.
Proof. intros HQ. unfold wpp, lock. by case_bool_decide. Qed.
Lemma wpp_unlock lk (s : K) Q : (∀ h, Q tt (set_held h s)) → wpp (unlock lk) s Q.
Proof. intros HQ. unfold wpp, unlock. by case_bool_decide. Qed.
Lemma wpp_getp i (s : K) Q : (∀ p, k_procs s !! i = Some p → Q p s) → wpp (getp i) s Q.
Proof. intros HQ. unfold wpp, getp. destruct (k_procs s !! i) eqn:E; auto. Qed.
Lemma wpp_setp i f (s : K) (Q : unit → K → Prop) : Q tt (set_procs (alter f i (k_procs s)) s) → wpp (setp i f) s Q.
Proof. done. Qed.
Lemma wpp_modify f (s : K) (Q : unit → K → Prop) : Q tt (f s) → wpp (modify f) s Q.
Proof. done. Qed.
Lemma wpp_gets {A} (f : K → A) (s : K) Q : Q (f s) s → wpp (gets f) s Q.
Proof. done. Qed.
Lemma wpp_ret {A} (a : A) (s : K) (Q : A → K → Prop) : Q a s → wpp (mret a) s Q.
Proof. done. Qed.
Lemma wpp_panic {A} e (s : K) (Q : A → K → Prop) : wpp (panic e) s Q.
Proof. done. Qed.
Lemma wpp_ub {A} e (s : K) (Q : A → K → Prop) : wpp (ub e) s Q.
Proof. done. Qed.

Ltac wstep :=
  lazymatch goal with
  | |- wpp (_ ≫= _) _ _ => apply wpp_bind
  | |- wpp (inmem _) _ _ => apply wpp_inmem; intros ? ?
  | |- wpp (infiles _) _ _ => apply wpp_infiles; intros ? ?
  | |- wpp (lock _) _ _ => apply wpp_lock; intros ?
  | |- wpp (unlock _) _ _ => apply wpp_unlock; intros ?
  | |- wpp (getp _) _ _ => apply wpp_getp; intros ? ?
  | |- wpp (setp _ _) _ _ => apply wpp_setp
  | |- wpp (modify _) _ _ => apply wpp_modify
  | |- wpp (gets _) _ _ => apply wpp_gets
  | |- wpp (mret _) _ _ => apply wpp_ret
  | |- wpp (panic _) _ _ => apply wpp_panic
  | |- wpp (ub _) _ _ => apply wpp_ub
  end.
Ltac wsteps := repeat (wstep; cbv beta).

(** [wakeup1] *)
Definition wake (chan : Z) (p : proc) : proc :=
  if is_state SLEEPING p && (p_chan p =? chan) then set_state RUNNABLE p else p.

Lemma sim_wake ps chan i p : sim ps i p (wake chan p).
Proof.
  unfold wake, is_state. case_bool_decide as Hs; [|apply sim_refl]. destruct (p_chan p =? chan); [|apply sim_refl].
  split; simpl; rewrite ?Hs; try done.
Qed.

Lemma ptab_wake init ps next chan : ptab_ok init ps next → ptab_ok init (wake chan <$> ps) next.
Proof.
  intros Hok. eapply ptab_sim; [done|by rewrite length_fmap|]. intros i p p' Hp Hp'.
  rewrite list_lookup_fmap, Hp in Hp'. simplify_eq/=. apply sim_wake.
Qed.

Lemma sched_inv cur s (Q : unit → K → Prop) : Q tt s → wpp (sched plock cur) s Q.
Proof. intros HQ. unfold sched. wsteps. case_b; wsteps. case_b; wsteps. case_b; wsteps. by case_b; wsteps. Qed.

(** A state that differs in what the invariant does not speak of. *)
Lemma inv_one init (s s' : K) i f :
  inv init s → k_nextpid s' = k_nextpid s → k_initproc s' = k_initproc s →
  k_procs s' = alter f i (k_procs s) → (∀ p, k_procs s !! i = Some p → sim (k_procs s) i p (f p)) → inv init s'.
Proof. intros [Hok Hi] En Ei Ep Hf. unfold inv. rewrite En, Ei, Ep. split; [|done]. by apply ptab_sim_one. Qed.

Definition running (cur : nat) (s : K) : Prop := ∃ p, k_procs s !! cur = Some p ∧ p_state p = RUNNING.

(** [allocproc] *)
Lemma find_proc_Some f : ∀ ps n i, find_proc f ps n = Some i → ∃ p, (n ≤ i)%nat ∧ ps !! (i - n)%nat = Some p ∧ f p = true.
Proof.
  induction ps as [|p ps IH]; intros n i; cbn [find_proc]; [done|]. destruct (f p) eqn:E.
  - intros [= <-]. exists p. by rewrite Nat.sub_diag.
  - intros (q & Hi & Hq & Hf)%IH. exists q. split_and!; [lia| |done].
    by replace (i - n)%nat with (S (i - S n)) by lia.
Qed.

Lemma find_proc_0 f ps i : find_proc f ps 0 = Some i → ∃ p, ps !! i = Some p ∧ f p = true.
Proof. intros (p & _ & Hp & Hf)%find_proc_Some. rewrite Nat.sub_0_r in Hp. eauto. Qed.

Lemma alloc_inv init s :
  inv init s → k_nextpid s < 2 ^ 31 - 1 → wpp (allocproc plock forkret_addr trapret_addr) s (λ _, inv init).
Proof.
  intros [Hok Hi] Hnext. pose proof Hok as [Hl Hpid Hu (r & Hr & Hr1 & Hr2) Hpar Hw].
  destruct (Hpid _ _ Hr) as [Hrp Hrp']. assert (Hn : 0 < k_nextpid s) by lia.
  assert (Hnew : ∀ i p p', k_procs s !! i = Some p → p_state p = UNUSED → p_parent p' = p_parent p →
    p_pid p' = k_nextpid s → p_state p' = UNUSED ∨ p_state p' = EMBRYO →
    ptab_ok init (<[i := p']> (k_procs s)) (i32 (k_nextpid s + 1))).
  { intros i p p' Hp Hs Epar Epid Est. rewrite i32_small by lia.
    assert (Hni : i ≠ init) by (eapply ptab_not_init; [done|exact Hp|by rewrite Hs]).
    assert (Hp0 : p_parent p = 0) by (specialize (Hpar i p Hp Hni); by rewrite Hs in Hpar).
    apply (ptab_slot init _ (k_nextpid s) _ i p); try done; try lia; [by rewrite Hs|].
    intros j q Hq _ E. destruct (Hpid j q Hq). lia. }
  unfold allocproc. wsteps. destruct (find_proc _ _ 0) as [i|] eqn:Ef; [|wsteps; by split].
  apply find_proc_0 in Ef as (p & Hp & Hs). cbn [k_procs set_held] in Hp. unfold is_state in Hs. apply bool_decide_eq_true in Hs.
  wsteps. case_b; wsteps; (split; [|done]); cbn; rewrite !alter_alter, (alter_as_insert _ _ _ _ Hp); eapply Hnew; try done; simpl; auto.
Qed.

(** [fork] *)
Lemma fork_files_inv fs : ∀ nf s, wpp (fork_files fs nf) s (λ _ (s' : K), ∃ f, s' = set_files f s).
Proof.
  assert (H0 : ∀ s : K, s = set_files (k_files s) s) by (by intros []).
  induction fs as [|f fs IH]; intros [|g nf] s; cbn [fork_files]; try (by apply wpp_ret; eauto).
  apply wpp_bind. case_b; wsteps; (eapply wpp_mono; [apply IH|]; intros ? s' (x & ->); apply wpp_ret; eauto).
Qed.

Lemma fork_inv init s cur np :
  inv init s → running cur s → (∃ p, k_procs s !! np = Some p ∧ p_state p = EMBRYO) →
  wpp (fork_into ptable plock data cur np) s (λ _, inv init).
Proof.
  intros [Hok Hi] (c & Hc & Hcs) (n & Hn & Hns). pose proof Hok as [Hl Hpid Hu _ Hpar Hw].
  assert (Hni : np ≠ init) by (eapply ptab_not_init; [done|exact Hn|by rewrite Hns]).
  destruct (Hpid _ _ Hn) as [Hn1 Hn2]. unfold fork_into. wsteps. case_b; wsteps.
  - split; [|done]. cbn. rewrite !alter_alter, (alter_as_insert _ _ _ _ Hn).
    apply (ptab_slot init _ (k_nextpid s) _ np n); try done; simpl.
    + by rewrite Hns.
    + left. specialize (Hpar np n Hn Hni). by rewrite Hns in Hpar.
    + by left.
    + specialize (Hpar np n Hn Hni). by rewrite Hns in Hpar.
    + intros j q Hq Hne E0. destruct (decide (p_pid n = 0)); [done|]. destruct Hne. eapply (Hu j np q n); congruence.
  - eapply wpp_mono; [apply fork_files_inv|]. intros fs s1 (f & ->). wsteps. unfold name_proc. wsteps.
    destruct (safestrcpy _ _ _); wsteps. split; [|done]. cbn. rewrite !alter_alter, (alter_as_insert _ _ _ _ Hn).
    by apply (ptab_fork init _ _ np n _ cur c).
Qed.

(** [exit] *)
Lemma exit_files_inv init cur n : ∀ fd s, inv init s → running cur s →
  wpp (exit_files cur fd n) s (λ _ s', inv init s' ∧ running cur s').
Proof.
  induction n as [|n IH]; intros fd s Hinv Hrun; cbn [exit_files]; [by wsteps|]. wsteps.
  destruct (p_ofile _ !! fd); [|by wsteps]. wsteps. case_b; wsteps; [|by apply IH]. apply IH.
  - eapply (inv_one init s); [done..|]. intros ? _. split; simpl; auto.
  - destruct Hrun as (p0 & Hp & Hs). eexists. cbn. by rewrite list_lookup_alter_eq, Hp.
Qed.

Lemma exit_close_inv init cur s : inv init s → running cur s → wpp (exit_close cur) s (λ _, inv init).
Proof.
  intros Hinv Hrun. unfold exit_close. wsteps. eapply wpp_mono; [by apply exit_files_inv|].
  intros _ s' [Hinv' _]. wsteps. eapply (inv_one init s'); [done..|]. intros ? _. split; simpl; auto.
Qed.

Definition adopt (init cur : nat) (b : bool) (p : proc) : proc :=
  if b && (p_parent p =? ptr cur) then set_parent (ptr init) p else p.
Definition wakeb (w : bool) (init : nat) (p : proc) : proc := if w then wake (ptr init) p else p.

(** The table after [k] turns of the loop over the children. *)
Definition adopted (init cur k : nat) (w : bool) (ps : list proc) : list proc :=
  imap (λ j p, wakeb w init (adopt init cur (bool_decide (j < k)%nat) p)) ps.

Lemma wake_wake c p : wake c (wake c p) = wake c p.
Proof.
  unfold wake at 2 3. destruct (is_state SLEEPING p && (p_chan p =? c)) eqn:E; [done|]. unfold wake. by rewrite E.
Qed.
Lemma wakeb_fields w init p :
  p_pid (wakeb w init p) = p_pid p ∧ p_parent (wakeb w init p) = p_parent p ∧
  is_state ZOMBIE (wakeb w init p) = is_state ZOMBIE p.
Proof.
  unfold wakeb, wake, is_state. destruct w; [|done]. case_bool_decide as Hs; [|done]. cbn [andb].
  destruct (p_chan p =? _); [|done]. simpl. by rewrite Hs.
Qed.

(** One turn. *)
Lemma adopted_turn init cur k w ps p :
  ps !! k = Some p →
  adopted init cur (S k) w ps =
    if p_parent p =? ptr cur then alter (set_parent (ptr init)) k (adopted init cur k w ps) else adopted init cur k w ps.
Proof.
  intros Hp. apply list_eq. intros j. unfold adopted. rewrite list_lookup_imap.
  assert (Ha : ∀ (f : proc → proc) (l : list proc), alter f k l !! j = if decide (j = k) then f <$> l !! j else l !! j).
  { intros f l. destruct (decide (j = k)) as [->|?]; [apply list_lookup_alter_eq|by apply list_lookup_alter_ne]. }
  case_b; rewrite ?Ha, list_lookup_imap; destruct (ps !! j) as [q|] eqn:Eq; cbn; try (by destruct (decide _)).
  - destruct (decide (j = k)) as [->|Hne].
    + simplify_eq. rewrite bool_decide_true, bool_decide_false by lia. unfold adopt at 2. cbn [andb].
      cbn. f_equal. unfold adopt. rewrite E, Z.eqb_refl. cbn [andb]. unfold wakeb, wake, is_state. destruct w; [|done]. cbn. by case_b.
    + by rewrite (bool_decide_ext (j < S k)%nat (j < k)%nat) by lia.
  - f_equal. f_equal. destruct (decide (j = k)) as [->|Hne].
    + simplify_eq. unfold adopt. rewrite (proj2 (Z.eqb_neq _ _) E), !andb_false_r. done.
    + by rewrite (bool_decide_ext (j < S k)%nat (j < k)%nat) by lia.
Qed.

Lemma adopted_0 init cur ps : adopted init cur 0 false ps = ps.
Proof.
  apply list_eq. intros j. unfold adopted. rewrite list_lookup_imap. destruct (ps !! j) as [p|]; [|done].
  cbn [fmap option_fmap option_map wakeb]. rewrite bool_decide_eq_false_2 by lia. done.
Qed.

Lemma adopted_wake init cur k w ps : wake (ptr init) <$> adopted init cur k w ps = adopted init cur k true ps.
Proof.
  apply list_eq. intros j. unfold adopted. rewrite list_lookup_fmap, !list_lookup_imap.
  destruct (ps !! j) as [q|]; [|done]. cbn. f_equal. destruct w; cbn; [apply wake_wake|done].
Qed.

Definition inherits (cur k : nat) (w : bool) (ps : list proc) : Prop :=
  ∀ z p, (z < k)%nat → ps !! z = Some p → p_parent p = ptr cur → p_state p = ZOMBIE → w = true.

Lemma exit_children_inv init cur ps n : ∀ k w (s : K),
  k_procs s = adopted init cur k w ps → k_initproc s = ptr init → inherits cur k w ps →
  wpp (exit_children ptable cur k n) s (λ _ s', ∃ w', k_procs s' = adopted init cur (k + n) w' ps ∧
    k_nextpid s' = k_nextpid s ∧ k_initproc s' = ptr init ∧ inherits cur (k + n) w' ps).
Proof.
  induction n as [|n IH]; intros k w s Hs Hi Hz; cbn [exit_children].
  { wsteps. exists w. by rewrite Nat.add_0_r. }
  wsteps. rename H into Hp. rewrite Hs in Hp. unfold adopted in Hp. rewrite list_lookup_imap in Hp.
  destruct (ps !! k) as [q|] eqn:Eq; [|done]. simplify_eq/=.
  rewrite bool_decide_eq_false_2 by lia. change (adopt init cur false q) with q.
  destruct (wakeb_fields w init q) as (_ & -> & ->). pose proof (adopted_turn init cur k w ps q Eq) as Ht.
  replace (k + S n)%nat with (S k + n)%nat by lia.
  destruct (p_parent q =? ptr cur) eqn:Ec; zbool.
  - wsteps. rewrite Hi. destruct (is_state ZOMBIE q) eqn:Ezq.
    + unfold wakeup1. wsteps. eapply wpp_mono; [apply (IH (S k) true)|].
      * cbn. fold (wake (ptr init)). rewrite Hs, <- Ht. apply adopted_wake.
      * done.
      * by intros ? ? ? ?.
      * intros _ s' (w' & E1 & E2 & E3 & E4). eauto.
    + wsteps. eapply wpp_mono; [apply (IH (S k) w)|].
      * cbn. by rewrite Hs, <- Ht.
      * done.
      * intros z p Hlt Hzp Hpp Hzz. destruct (decide (z = k)) as [->|]; [|apply (Hz z p); [lia|done..]].
        simplify_eq. unfold is_state in Ezq. by apply bool_decide_eq_false in Ezq.
      * intros _ s' (w' & E1 & E2 & E3 & E4). eauto.
  - wsteps. apply (IH (S k) w); [by rewrite Hs, Ht|done|].
    intros z p Hlt Hzp Hpp Hzz. destruct (decide (z = k)) as [->|]; [|apply (Hz z p); [lia|done..]]. congruence.
Qed.

Lemma wake_cases chan p :
  (wake chan p = p ∧ (p_state p = SLEEPING → p_chan p ≠ chan)) ∨
  (wake chan p = set_state RUNNABLE p ∧ p_state p = SLEEPING ∧ p_chan p = chan).
Proof.
  unfold wake, is_state. case_bool_decide as Hs; cbn [andb]; [|by left]. case_b; [by right|left]. split; [done|by intros].
Qed.

(** What the whole of [exit_leave] makes of a process. *)
Lemma left_ok init cur c w j q :
  p_state c = RUNNING → (j = cur → q = c) → left init cur c w j q
    ((if decide (j = cur) then set_state ZOMBIE else id) (wakeb w init (adopt init cur true (wake (p_parent c) q)))).
Proof.
  intros Hcs Hjc.
  assert (Ha : ∀ p, adopt init cur true p = set_parent (if p_parent p =? ptr cur then ptr init else p_parent p) p).
  { intros p. unfold adopt. cbn [andb]. case_b; [done|by destruct p]. }
  destruct (wake_cases (p_parent c) q) as [[-> H1]|(-> & H1 & H1')]; rewrite Ha;
    (destruct w; cbn [wakeb];
      [match goal with |- context [wake (ptr init) ?p] =>
         let H2 := fresh "H2" in let H3 := fresh "H3" in destruct (wake_cases (ptr init) p) as [[-> H2]|(-> & H2 & H3)] end|]);
    destruct (decide (j = cur)) as [->|Hne]; split; cbn in *; intros; try done; try congruence;
    try (rewrite Hjc in * by done; congruence); try (by rewrite H1 in *); try (by rewrite H2 in *);
    split_and!; try done; try (by apply H1); try (intros _; by apply H2); congruence.
Qed.

(** The table after [cur] with parent [par] has left it. *)
Definition left_table (init cur : nat) (par : Z) (w : bool) (ps : list proc) : list proc :=
  alter (set_state ZOMBIE) cur (adopted init cur NPROC w (wake par <$> ps)).

Lemma left_table_lookup init cur par w ps j :
  length ps = NPROC → left_table init cur par w ps !! j =
    (λ q, (if decide (j = cur) then set_state ZOMBIE else id) (wakeb w init (adopt init cur true (wake par q)))) <$> ps !! j.
Proof.
  intros Hl. unfold left_table.
  assert (Ha : adopted init cur NPROC w (wake par <$> ps) !! j = (λ q, wakeb w init (adopt init cur true (wake par q))) <$> ps !! j).
  { unfold adopted. rewrite list_lookup_imap, list_lookup_fmap. destruct (ps !! j) as [q|] eqn:Hq; [|done].
    cbn [fmap option_fmap option_map]. rewrite bool_decide_eq_true_2; [done|]. rewrite <- Hl. by eapply lookup_lt_Some. }
  destruct (decide (j = cur)) as [->|Hne].
  - rewrite list_lookup_alter_eq, Ha. by destruct (ps !! cur).
  - rewrite list_lookup_alter_ne, Ha by done. by destruct (ps !! j).
Qed.

Lemma exit_leave_inv init cur s :
  inv init s → running cur s → cur ≠ init → wpp (exit_leave ptable plock cur) s (λ _, inv init).
Proof.
  intros [Hok Hi] (c & Hc & Hcs) Hne. unfold exit_leave. wsteps. cbn [k_procs set_held] in *. simplify_eq.
  unfold wakeup1. wsteps.
  eapply wpp_mono; [apply (exit_children_inv init cur (wake (p_parent c) <$> k_procs s) NPROC 0 false)|].
  - by rewrite adopted_0.
  - done.
  - intros z q Hlt. lia.
  - intros _ s1 (w & E1 & E2 & E3 & E4). wsteps. apply sched_inv. wsteps. split; [|done]. cbn. rewrite E1, E2.
    pose proof (pt_len _ _ _ Hok) as Hl.
    eapply (ptab_exit init (k_procs s) _ _ cur c w); try done.
    + unfold adopted. by rewrite length_alter, length_imap, length_fmap.
    + intros j q q' Hq Hq'. change (left_table init cur (p_parent c) w (k_procs s) !! j = Some q') in Hq'.
      rewrite left_table_lookup, Hq in Hq' by done. simplify_eq/=. apply left_ok; [done|]. intros ->. congruence.
    + intros j q Hq Hqp Hqz. apply (E4 j (wake (p_parent c) q)).
      * rewrite <- Hl. by eapply lookup_lt_Some.
      * by rewrite list_lookup_fmap, Hq.
      * by destruct (sim_wake [] (p_parent c) j q) as [_ -> _ _ _].
      * destruct (sim_wake [] (p_parent c) j q) as [_ _ _ Hst _]. rewrite Hst; [done|by rewrite Hqz].
Qed.

(** [wait] *)
Lemma wait_find_spec cur : ∀ ps n h r b, wait_find ptable cur ps n h = (r, b) →
  match r with
  | Some i => ∃ p, (n ≤ i)%nat ∧ ps !! (i - n)%nat = Some p ∧ p_parent p = ptr cur ∧ p_state p = ZOMBIE
  | None => (∀ j p, ps !! j = Some p → p_parent p = ptr cur → p_state p ≠ ZOMBIE) ∧
      (b = true ↔ h = true ∨ ∃ j p, ps !! j = Some p ∧ p_parent p = ptr cur)
  end.
Proof.
  induction ps as [|p ps IH]; intros n h r b; cbn [wait_find].
  { intros [= <- <-]. split; [done|]. split; [by left|]. intros [?|(? & ? & ? & _)]; done. }
  destruct (p_parent p =? ptr cur) eqn:Ep; zbool; cbn [negb].
  - destruct (is_state ZOMBIE p) eqn:Ez; unfold is_state in Ez.
    + apply bool_decide_eq_true in Ez. intros [= <- <-]. exists p. by rewrite Nat.sub_diag.
    + apply bool_decide_eq_false in Ez. intros E. specialize (IH _ _ _ _ E). destruct r as [i|].
      * destruct IH as (q & ? & Hq & ?). exists q. split; [lia|]. by replace (i - n)%nat with (S (i - S n)) by lia.
      * destruct IH as [H1 H2]. split; [intros [|j] q Hq; [by simplify_eq/=|by apply (H1 j)]|].
        split; intros _; [|by apply H2; left]. right. by exists 0%nat, p.
  - intros E. specialize (IH _ _ _ _ E). destruct r as [i|].
    + destruct IH as (q & ? & Hq & ?). exists q. split; [lia|]. by replace (i - n)%nat with (S (i - S n)) by lia.
    + destruct IH as [H1 H2]. split; [intros [|j] q Hq; [by simplify_eq/=|by apply (H1 j)]|].
      rewrite H2. split; (intros [?|(j & q & Hq & ?)]; [by left|right]).
      * by exists (S j), q.
      * destruct j as [|j]; [by simplify_eq/=|]. by exists j, q.
Qed.


(** A process that runs, changed in a way the others do not see. *)
Lemma sim_running ps i p p' :
  p_state p = RUNNING → p_pid p' = p_pid p → p_parent p' = p_parent p → live (p_state p') = true →
  (p_state p' = SLEEPING → p_chan p' = ptr i → waits ps i p') → sim ps i p p'.
Proof. intros Hs E1 E2 E3 Hw. split; rewrite ?Hs; auto. done. Qed.

Lemma inv_running init s s' cur f :
  inv init s → running cur s → k_nextpid s' = k_nextpid s → k_initproc s' = k_initproc s →
  k_procs s' = alter f cur (k_procs s) →
  (∀ p, k_procs s !! cur = Some p → p_pid (f p) = p_pid p ∧ p_parent (f p) = p_parent p ∧ live (p_state (f p)) = true ∧
     (p_state (f p) = SLEEPING → p_chan (f p) = ptr cur → waits (k_procs s) cur (f p))) → inv init s'.
Proof.
  intros Hinv (c & Hc & Hcs) En Ei Ep Hf. eapply inv_one; [done..|]. intros p Hp. rewrite Hc in Hp. simplify_eq.
  destruct (Hf _ Hc) as (? & ? & ? & ?). by apply sim_running.
Qed.

Lemma sleep_inv init cur chan lk s :
  inv init s → running cur s →
  (chan = ptr cur → ∃ c, k_procs s !! cur = Some c ∧ waits (k_procs s) cur c) →
  wpp (sleep plock cur chan lk) s (λ _, inv init).
Proof.
  intros Hinv Hrun Hw. unfold sleep. case_b; wsteps. case_b; wsteps; apply sched_inv; wsteps;
    (eapply (inv_running init s); [done|done|done|done|cbn; by rewrite alter_alter|]; intros p Hp; cbn; split_and!; try done;
     intros _ E2; destruct (Hw E2) as (c & Hc & Hwt); by simplify_eq).
Qed.

Lemma wait_scan_inv init cur s : inv init s → running cur s → wpp (wait_scan ptable plock cur) s (λ _, inv init).
Proof.
  intros Hinv Hrun. unfold wait_scan. wsteps. destruct (wait_find _ _ _ _ _) as [[i|] h] eqn:Ef; apply wait_find_spec in Ef.
  - destruct Ef as (p & _ & Hp & Hpp & Hz). rewrite Nat.sub_0_r in Hp. wsteps. destruct Hinv as [Hok Hi]. split; [|done]. cbn.
    rewrite !alter_alter, (alter_as_insert _ _ _ _ Hp). destruct Hrun as (c & Hc & Hcs).
    destruct (pt_pid _ _ _ Hok _ _ Hp) as [? _].
    apply (ptab_slot init _ (k_nextpid s) _ i p); cbn; try done; [by rewrite Hz| |by left|lia].
    right. exists cur, c. by rewrite Hcs.
  - destruct Ef as [Hnz Hh]. wsteps. case_b; wsteps; [done|]. apply sleep_inv; [done..|].
    intros _. eexists. split; [done|]. split_and!; [done| |done]. destruct (proj1 Hh H0) as [?|?]; done.
Qed.

Lemma wait_inv init cur s : inv init s → running cur s → wpp (wait ptable plock cur) s (λ _, inv init).
Proof. intros Hinv Hrun. unfold wait. wsteps. by apply wait_scan_inv. Qed.

Lemma resume_inv init cur s : inv init s → running cur s →
  let s' := set_procs (alter (set_chan 0) cur (k_procs s)) s in inv init s' ∧ running cur s'.
Proof.
  intros Hinv Hrun s'. split.
  - eapply (inv_running init s); [done..|]. intros p Hp. destruct Hrun as (c & Hc & Hcs). simplify_eq. cbn.
    by rewrite Hcs.
  - destruct Hrun as (c & Hc & Hcs). exists (set_chan 0 c). cbn. by rewrite list_lookup_alter_eq, Hc.
Qed.

Lemma sleep_resume_inv init cur lk s : inv init s → running cur s → wpp (sleep_resume plock cur lk) s (λ _, inv init).
Proof. intros Hinv Hrun. destruct (resume_inv _ _ _ Hinv Hrun). unfold sleep_resume. wsteps. case_b; wsteps; done. Qed.

Lemma wait_resume_inv init cur s : inv init s → running cur s → wpp (wait_resume ptable plock cur) s (λ _, inv init).
Proof.
  intros Hinv Hrun. destruct (resume_inv _ _ _ Hinv Hrun). unfold wait_resume, sleep_resume. wsteps.
  case_b; wsteps; by apply wait_scan_inv.
Qed.

Lemma yield_inv init cur s : inv init s → running cur s → wpp (yield plock cur) s (λ _, inv init).
Proof.
  intros Hinv Hrun. unfold yield. wsteps. apply sched_inv. wsteps.
  eapply (inv_running init s); [done..|]. intros p Hp. by split_and!.
Qed.

Lemma wakeup_inv init chan s : inv init s → wpp (wakeup plock chan) s (λ _, inv init).
Proof. intros [Hok Hi]. unfold wakeup, wakeup1. wsteps. split; [|done]. by apply ptab_wake. Qed.

Lemma kill_inv init pid s : inv init s → wpp (kill plock pid) s (λ _, inv init).
Proof.
  intros Hinv. unfold kill. wsteps. destruct (find_proc _ _ _) as [i|] eqn:Ef; wsteps; [|done].
  case_b; wsteps.
  - eapply (inv_one init s); [done|done|done|cbn; by rewrite alter_alter|]. intros q Hq. cbn in H.
    rewrite list_lookup_alter_eq, Hq in H. simplify_eq/=. unfold is_state in E. apply bool_decide_eq_true in E. cbn in E.
    split; cbn; rewrite ?E; done.
  - eapply (inv_one init s); [done..|]. intros q Hq. cbn in H.
    rewrite list_lookup_alter_eq, Hq in H. simplify_eq/=. unfold is_state in E. apply bool_decide_eq_false in E. cbn in E.
    split; cbn; done.
Qed.

Lemma growproc_inv init cur n s : inv init s → running cur s → wpp (growproc cur n) s (λ _, inv init).
Proof.
  intros Hinv Hrun. unfold growproc, switchuvm. wsteps.
  repeat (case_b; wsteps); try done; (eapply (inv_running init s); [done..|]; intros q Hq; destruct Hrun as (c & Hc & Hcs);
    simplify_eq; cbn; by rewrite Hcs).
Qed.

(** The scheduler's choice. *)
Lemma run_inv init i s :
  inv init s → (∃ p, k_procs s !! i = Some p ∧ p_state p = RUNNABLE) → wpp (setp i (set_state RUNNING)) s (λ _, inv init).
Proof.
  intros Hinv (p & Hp & Hs). wsteps. eapply (inv_one init s); [done..|]. intros q Hq. simplify_eq.
  split; cbn; rewrite ?Hs; done.
Qed.

(** ** Interleavings

    The calls of [proc.c] as the processors interleave them: each holds the table lock
    while it reads or changes what others may see, so a call, or the part of it between
    two switches, is one step.  [CAlloc] and [CFork] are the two parts of [fork],
    [CClose] and [CLeave] those of [exit]; [CRun] is the scheduler's choice. *)
Inductive call : Type :=
| CAlloc | CFork (cur np : nat) | CClose (cur : nat) | CLeave (cur : nat)
| CWait (cur : nat) | CWaitResume (cur : nat) | CSleep (cur : nat) (chan lk : Z) | CSleepResume (cur : nat) (lk : Z)
| CYield (cur : nat) | CWakeup (chan : Z) | CKill (pid : Z) | CGrow (cur : nat) (n : Z) | CRun (i : nat).

Definition perform (c : call) : cm K unit :=
  match c with
  | CAlloc => allocproc plock forkret_addr trapret_addr ;; mret tt
  | CFork cur np => fork_into ptable plock data cur np ;; mret tt
  | CClose cur => exit_close cur
  | CLeave cur => exit_leave ptable plock cur ;; mret tt
  | CWait cur => wait ptable plock cur ;; mret tt
  | CWaitResume cur => wait_resume ptable plock cur ;; mret tt
  | CSleep cur chan lk => sleep plock cur chan lk ;; mret tt
  | CSleepResume cur lk => sleep_resume plock cur lk
  | CYield cur => yield plock cur ;; mret tt
  | CWakeup chan => wakeup plock chan
  | CKill pid => kill plock pid ;; mret tt
  | CGrow cur n => growproc cur n ;; mret tt
  | CRun i => setp i (set_state RUNNING)
  end.

(** Who may make it: a process that runs; [CFork] into a slot that was allocated;
    [exit] by any process but init; [sleep] on a channel that is no process, which is
    what [wait] alone sleeps on; and process identifiers below the largest [int]. *)
Definition may (c : call) (s : K) : Prop :=
  match c with
  | CAlloc => k_nextpid s < 2 ^ 31 - 1
  | CFork cur np => running cur s ∧ ∃ p, k_procs s !! np = Some p ∧ p_state p = EMBRYO
  | CLeave cur => running cur s ∧ ptr cur ≠ k_initproc s
  | CSleep cur chan lk => running cur s ∧ ∀ i, chan ≠ ptr i
  | CClose cur | CWait cur | CWaitResume cur | CSleepResume cur _ | CYield cur | CGrow cur _ => running cur s
  | CWakeup _ | CKill _ => True
  | CRun i => ∃ p, k_procs s !! i = Some p ∧ p_state p = RUNNABLE
  end.

(** One step, on a processor that holds the locks [h]. *)
Inductive pstep : K → K → Prop :=
| pstep_call c h s s' : may c s → perform c (set_held h s) = Ok tt s' → pstep s s'.

Lemma perform_inv init c s : inv init s → may c s → wpp (perform c) s (λ _, inv init).
Proof.
  intros Hinv Hm. destruct c; cbn [perform may] in *;
    try apply wpp_void.
  - by apply alloc_inv.
  - destruct Hm. by apply fork_inv.
  - by apply exit_close_inv.
  - destruct Hm as [? Hne]. apply exit_leave_inv; [done..|]. intros ->. destruct Hinv as [_ Hi]. congruence.
  - by apply wait_inv.
  - by apply wait_resume_inv.
  - destruct Hm as [? Hc]. apply sleep_inv; [done..|]. intros E. by destruct (Hc cur).
  - by apply sleep_resume_inv.
  - by apply yield_inv.
  - by apply wakeup_inv.
  - by apply kill_inv.
  - by apply growproc_inv.
  - by apply run_inv.
Qed.

Lemma reach_inv init s s' : rtc pstep s s' → inv init s → inv init s'.
Proof.
  induction 1 as [|s s1 s' [c h s2 s3 Hm Hp] _ IH]; [done|]. intros Hinv. apply IH.
  assert (Hinv' : inv init (set_held h s2)) by done. assert (Hm' : may c (set_held h s2)) by (by destruct c).
  pose proof (perform_inv init c _ Hinv' Hm') as Hw. unfold wpp in Hw. by rewrite Hp in Hw.
Qed.

(** The table when the first process is ready to run. *)
Record booted (s : K) : Prop := {
  bt_len : length (k_procs s) = NPROC;
  bt_init p : k_procs s !! 0%nat = Some p → p_state p = RUNNABLE ∧ p_pid p = 1 ∧ p_parent p = 0;
  bt_rest i p : k_procs s !! S i = Some p → p_state p = UNUSED ∧ p_pid p = 0 ∧ p_parent p = 0;
  bt_next : k_nextpid s = 2;
  bt_initproc : k_initproc s = ptr 0
}.

Lemma booted_inv s : booted s → inv 0 s.
Proof.
  intros [Hl Hi Hr Hn Hp]. split; [|done]. rewrite Hn.
  destruct (lookup_lt_is_Some_2 (k_procs s) 0) as [p0 Hp0]; [rewrite Hl; unfold NPROC; lia|]. destruct (Hi _ Hp0) as (S0 & P0 & A0).
  assert (Hcase : ∀ i p, k_procs s !! i = Some p → i = 0%nat ∧ p = p0 ∨ i ≠ 0%nat ∧ p_state p = UNUSED ∧ p_pid p = 0 ∧ p_parent p = 0).
  { intros [|i] p Hip; [left; by simplify_eq|right; by apply Hr in Hip]. }
  split; [done|..].
  - intros i p [[_ ->]|(_ & -> & -> & _)]%Hcase; [rewrite P0; by split|]. split; [lia|done].
  - intros i j p q [[-> ->]|(_ & _ & E & _)]%Hcase [[-> ->]|(_ & _ & E' & _)]%Hcase E2 Hz; congruence.
  - exists p0. by rewrite S0, A0.
  - intros i p [[-> ->]|(_ & -> & _ & ->)]%Hcase Hne; done.
  - intros i p [[-> ->]|(_ & Hs & _)]%Hcase; congruence.
Qed.
End table.

(** C4: the process table.  However the processors interleave the calls of [proc.c],
    process identifiers stay distinct, init stays alive, every created or exited
    process but init has a parent that is alive and not itself, a free slot has none,
    and a process asleep in [wait] is not killed, has a child, and has no exited child:
    the wakeup of an exiting child is never lost. *)
Theorem process_table_invariant {F : Type} {files : FileRefs F} (ptable plock forkret_addr trapret_addr data : Z)
    (s0 s : kern F) :
  0 < ptable → booted ptable s0 → rtc (pstep ptable plock forkret_addr trapret_addr data) s0 s →
  ptab_ok ptable 0 (k_procs s) (k_nextpid s).
Proof.
  intros Hp Hb Hr. apply (reach_inv ptable plock forkret_addr trapret_addr data Hp 0 _ _ Hr).
  by apply booted_inv.
Qed.

(** ** Witnesses *)

(** Files that are only counted. *)
Definition ex_files : FileRefs Z := {|
  fr_filedup f n := Ok f (n + 1); fr_fileclose _ n := Ok tt (n - 1); fr_idup i n := Ok i n; fr_iput _ n := Ok tt n;
  fr_begin_op n := Ok tt n; fr_end_op n := Ok tt n; fr_namei _ n := Ok 1 n
|}.

Definition ex_unused : proc := Proc 0 0 0 UNUSED 0 0 0 0 0 0 (replicate 16 0) 0 (replicate 16 0).
Definition ex_init : proc := Proc 4096 ex_dir (ex_base + 16384) RUNNABLE 1 0 0 0 0 0 (replicate 16 0) 1 (replicate 16 0).
Definition ex_kern : kern Z := Kern ex_kmem 0 (ex_init :: replicate 63 ex_unused) 2 1000 [] 0 0 0.

Definition ex_perform (c : call) (s : kern Z) : outcome (kern Z) unit := perform (files := ex_files) 1000 7 11 12 0 c (set_held [] s).
Definition ex_after (c : call) (s : kern Z) : kern Z := match ex_perform c s with Ok _ s' => s' | _ => s end.

(** The process that runs, if it is [cur]. *)
Definition ex_state (s : kern Z) (i : nat) : procstate := match k_procs s !! i with Some p => p_state p | None => UNUSED end.

Lemma ex_step (c : call) s : (match ex_perform c s with Ok _ _ => true | _ => false end) = true →
  may 1000 c s → pstep (files := ex_files) 1000 7 11 12 0 s (ex_after c s).
Proof.
  intros E Hm. apply (pstep_call _ _ _ _ _ c []); [exact Hm|]. unfold ex_after. fold (ex_perform c s).
  destruct (ex_perform c s) as [[] s'| |]; done.
Qed.

Lemma ex_in_state s i st : ex_state s i = st → st ≠ UNUSED → ∃ p, k_procs s !! i = Some p ∧ p_state p = st.
Proof. unfold ex_state. intros <- H. destruct (k_procs s !! i) as [p|]; [by exists p|done]. Qed.

Definition ex_1 : kern Z := ex_after (CRun 0) ex_kern.
Definition ex_2 : kern Z := ex_after CAlloc ex_1.
Definition ex_3 : kern Z := ex_after (CYield 0) ex_2.
Definition ex_4 : kern Z := ex_after (CKill 1) ex_3.

Lemma ex_booted : booted 1000 ex_kern.
Proof.
  split; try reflexivity.
  - by intros p [= <-].
  - intros i p Hp. apply (lookup_replicate_1 63 ex_unused p i) in Hp as [-> _]. done.
Qed.

Lemma ex_reach : rtc (pstep (files := ex_files) 1000 7 11 12 0) ex_kern ex_4.
Proof.
  apply (rtc_l _ ex_kern ex_1); [apply (ex_step (CRun 0)); [by vm_compute|by apply (ex_in_state _ 0 RUNNABLE)]|].
  apply (rtc_l _ ex_1 ex_2); [apply (ex_step CAlloc); by vm_compute|].
  apply (rtc_l _ ex_2 ex_3); [apply (ex_step (CYield 0)); [by vm_compute|by apply (ex_in_state _ 0 RUNNING); [vm_compute|]]|].
  apply (rtc_l _ ex_3 ex_4); [apply (ex_step (CKill 1)); [by vm_compute|exact I]|]. apply rtc_refl.
Qed.

(** Init runs, a process is allocated, init yields, and is killed. *)
Lemma process_table_invariant_witness :
  ptab_ok 1000 0 (k_procs ex_4) (k_nextpid ex_4) ∧ ex_state ex_4 1 = EMBRYO.
Proof.
  split; [|by vm_compute]. apply (process_table_invariant (files := ex_files) 1000 7 11 12 0 ex_kern ex_4).
  - lia.
  - exact ex_booted.
  - exact ex_reach.
Defined.
