(* ===== verification/ProcSched.v ===== *)
(** * What the process calls do

    Total theorems on [Proc]: the outcomes of [wait], that the exit of a child is
    noticed by a parent asleep in [wait], and what [growproc] makes of a process's memory. *)
From S2P Require Import Prelude CString Bytes Kalloc Vm Uvm Proc ProcTheorems.

Section calls.
Context {F : Type} {files : FileRefs F} (ptable plock forkret_addr trapret_addr data kpgdir : Z).
Context (Hptable : 0 < ptable).

Local Abbreviation ptr := (ptr ptable).
Local Abbreviation K := (kern F).

(** ** Locks and slots *)

Lemma lock_ok lk (s : K) : lk ∉ k_held s → lock lk s = Ok tt (set_held (lk :: k_held s) s).
Proof. intros H. unfold lock. by rewrite bool_decide_eq_false_2. Qed.

Lemma unlock_ok lk h (s : K) : k_held s = lk :: h → lk ∉ h → unlock lk s = Ok tt (set_held h s).
Proof.
  intros E H. unfold unlock. rewrite E, bool_decide_eq_true_2 by left. do 2 f_equal. cbn.
  case_decide as Hd; [|by destruct Hd; left]. clear E Hd. induction h as [|x h IH]; [done|]. cbn.
  apply not_elem_of_cons in H as [Hx H]. case_decide as Hd; [by apply list_elem_of_singleton in Hd|]. by rewrite IH.
Qed.

Lemma unlock_bind {A} lk h (s : K) (k : unit → cm K A) :
  k_held s = lk :: h → lk ∉ h → (unlock lk ≫= k) s = k tt (set_held h s).
Proof. intros E H. by rewrite (bind_ok _ _ _ _ _ (unlock_ok _ _ _ E H)). Qed.

Lemma getp_ok i p (s : K) : k_procs s !! i = Some p → getp i s = Ok p s.
Proof. intros E. unfold getp. by rewrite E. Qed.

Lemma sched_ok cur p (s : K) :
  k_held s = [plock] → k_procs s !! cur = Some p → p_state p ≠ RUNNING → sched plock cur s = Ok tt s.
Proof.
  intros Hh Hp Hs. unfold sched. rewrite bind_gets, Hh, bool_decide_eq_true_2 by left. cbn [negb length Nat.eqb].
  rewrite (bind_ok _ _ _ _ _ (getp_ok _ _ _ Hp)). unfold is_state. by rewrite bool_decide_eq_false_2.
Qed.

Lemma sched_bind {A} cur p (s : K) (k : unit → cm K A) :
  k_held s = [plock] → k_procs s !! cur = Some p → p_state p ≠ RUNNING → (sched plock cur ≫= k) s = k tt s.
Proof. intros H1 H2 H3. by rewrite (bind_ok _ _ _ _ _ (sched_ok _ _ _ H1 H2 H3)). Qed.

(** ** [wait] *)

Definition zombie_child (cur : nat) (p : proc) : Prop := p_parent p = ptr cur ∧ p_state p = ZOMBIE.
Definition is_child (cur : nat) (p : proc) : Prop := p_parent p = ptr cur.
Global Instance zombie_child_dec cur p : Decision (zombie_child cur p).
Proof. unfold zombie_child. apply _. Defined.
Global Instance is_child_dec cur p : Decision (is_child cur p).
Proof. unfold is_child. apply _. Defined.

Lemma wait_find_eq cur : ∀ ps n h,
  wait_find ptable cur ps n h =
    match list_find (zombie_child cur) ps with
    | Some (i, _) => (Some (n + i)%nat, true)
    | None => (None, h || bool_decide (Exists (is_child cur) ps))
    end.
Proof.
  induction ps as [|p ps IH]; intros n h; cbn [wait_find list_find].
  { rewrite bool_decide_eq_false_2 by (by intros ?%Exists_nil). by rewrite orb_false_r. }
  unfold is_state. destruct (p_parent p =? ptr cur) eqn:E; zbool; cbn [negb].
  - destruct (decide (p_state p = ZOMBIE)) as [Hz|Hz]; [rewrite bool_decide_eq_true_2 by done|rewrite (bool_decide_eq_false_2 (p_state p = ZOMBIE)) by done].
    + rewrite decide_True by (by split). by rewrite Nat.add_0_r.
    + rewrite decide_False by (by intros [_ ?]). rewrite IH. destruct (list_find _ ps) as [[i q]|]; cbn.
      * by rewrite Nat.add_succ_r.
      * rewrite (bool_decide_eq_true_2 (Exists _ (p :: ps))) by (by left). by rewrite orb_true_r.
  - rewrite decide_False by (by intros [? _]). rewrite IH. destruct (list_find _ ps) as [[i q]|]; cbn.
    + by rewrite Nat.add_succ_r.
    + do 2 f_equal. apply bool_decide_ext. rewrite Exists_cons. unfold is_child. naive_solver.
Qed.

(** An exited process after [wait] has taken it off the table. *)
Definition reaped (p : proc) : proc :=
  set_state UNUSED (set_killed 0 (set_name (<[0%nat := 0]> (p_name p)) (set_parent 0 (set_pid 0 (set_kstack 0 p))))).

Lemma wait_scan_ok cur c (s : K) :
  k_held s = [plock] → k_procs s !! cur = Some c → plock ≠ 0 →
  match list_find (zombie_child cur) (k_procs s) with
  | Some (i, p) => ∀ k1 k2, kfree (p_kstack p) (k_mem s) = Ok tt k1 → freevm (p_pgdir p) k1 = Ok tt k2 →
      wait_scan ptable plock cur s =
        Ok (Ret (p_pid p)) (set_held [] (set_mem k2 (set_procs (<[i := reaped p]> (k_procs s)) s)))
  | None =>
      if bool_decide (Exists (is_child cur) (k_procs s)) && (p_killed c =? 0)
      then wait_scan ptable plock cur s =
             Ok Switch (set_procs (<[cur := set_state SLEEPING (set_chan (ptr cur) c)]> (k_procs s)) s)
      else wait_scan ptable plock cur s = Ok (Ret (-1)) (set_held [] s)
  end.
Proof.
  intros Hh Hc Hpl. unfold wait_scan. rewrite bind_gets, wait_find_eq.
  destruct (list_find (zombie_child cur) (k_procs s)) as [[i p]|] eqn:Ef.
  - apply list_find_Some in Ef as (Hp & _ & _). intros k1 k2 E1 E2. cbn [Nat.add].
    rewrite (bind_ok _ _ _ _ _ (getp_ok _ _ _ Hp)).
    assert (H1 : inmem (kfree (p_kstack p)) s = Ok tt (set_mem k1 s)) by (unfold inmem; by rewrite E1).
    rewrite (bind_ok _ _ _ _ _ H1). unfold setp. rewrite bind_modify.
    assert (H2 : ∀ ps, inmem (freevm (p_pgdir p)) (set_procs ps (set_mem k1 s)) = Ok tt (set_mem k2 (set_procs ps s))).
    { intros ps. unfold inmem. cbn. by rewrite E2. }
    rewrite (bind_ok _ _ _ _ _ (H2 _)). rewrite !bind_modify. cbn -[alter].
    rewrite (unlock_bind plock []) by (done || set_solver).
    cbn -[alter]. rewrite !alter_alter, (alter_as_insert _ _ _ _ Hp). done.
  - cbn [orb]. rewrite (bind_ok _ _ _ _ _ (getp_ok _ _ _ Hc)).
    destruct (bool_decide (Exists _ _)) eqn:Ex; cbn [negb orb andb].
    + destruct (p_killed c =? 0); cbn [negb].
      * unfold sleep. rewrite (proj2 (Z.eqb_neq plock 0)), Z.eqb_refl by done. cbn [negb].
        unfold setp. unfold mbind at 1. unfold cm_bind at 1. rewrite bind_ret, !bind_modify. cbn -[alter].
        rewrite alter_alter, (alter_as_insert _ _ _ _ Hc).
        assert (Hlt : (cur < length (k_procs s))%nat) by (by eapply lookup_lt_Some).
        by rewrite (sched_bind cur (set_state SLEEPING (set_chan (ptr cur) c)))
          by (done || cbn; by rewrite list_lookup_insert_eq).
      * by rewrite (unlock_bind plock []) by (done || set_solver).
    + by rewrite (unlock_bind plock []) by (done || set_solver).
Qed.

(** ** [exit] *)

Lemma exit_children_total cur n : ∀ k (s : K), (k + n ≤ length (k_procs s))%nat →
  ∃ s', exit_children ptable cur k n s = Ok tt s' ∧ k_held s' = k_held s ∧ k_mem s' = k_mem s ∧ k_files s' = k_files s.
Proof.
  induction n as [|n IH]; intros k s Hl; cbn [exit_children]; [by exists s|].
  destruct (lookup_lt_is_Some_2 (k_procs s) k) as [p Hp]; [lia|]. rewrite (bind_ok _ _ _ _ _ (getp_ok _ _ _ Hp)).
  destruct (p_parent p =? ptr cur).
  - unfold mbind at 1, cm_bind at 1. rewrite bind_gets. unfold setp. rewrite bind_modify.
    destruct (is_state ZOMBIE p); [unfold wakeup1|]; cbn -[alter exit_children];
      match goal with |- ∃ _, exit_children _ _ _ _ ?t = _ ∧ _ => destruct (IH (S k) t) as (s' & -> & Hs') end;
      try (cbn -[alter]; rewrite ?length_fmap, length_alter; lia); by exists s'.
  - rewrite bind_ret. apply IH. lia.
Qed.

Lemma exit_leave_ok init cur c (s : K) :
  k_held s = [] → length (k_procs s) = NPROC → k_initproc s = ptr init → k_procs s !! cur = Some c →
  ∃ w s', exit_leave ptable plock cur s = Ok Switch s' ∧ k_held s' = [plock] ∧ k_mem s' = k_mem s ∧
    k_files s' = k_files s ∧ k_initproc s' = k_initproc s ∧ k_procs s' = left_table ptable init cur (p_parent c) w (k_procs s).
Proof.
  intros Hh Hl Hi Hc. unfold exit_leave.
  assert (Hin : plock ∉ k_held s) by (rewrite Hh; set_solver). rewrite (bind_ok _ _ _ _ _ (lock_ok _ _ Hin)), Hh.
  set (s1 := set_held [plock] s). rewrite (bind_ok _ _ _ _ _ (getp_ok cur c s1 Hc)). unfold wakeup1. rewrite bind_modify.
  set (s2 := set_procs _ s1).
  assert (Es2 : k_procs s2 = wake (p_parent c) <$> k_procs s) by done.
  destruct (exit_children_total cur NPROC 0 s2) as (s3 & E3 & Hh3 & Hm3 & Hf3); [rewrite Es2, length_fmap; lia|].
  assert (Hz : inherits ptable cur 0 false (wake (p_parent c) <$> k_procs s)) by (intros ? ? ?; lia).
  assert (H0 : k_procs s2 = adopted ptable init cur 0 false (wake (p_parent c) <$> k_procs s)) by (by rewrite adopted_0).
  pose proof (exit_children_inv ptable init cur _ NPROC 0 false s2 H0 Hi Hz) as Hw.
  unfold wpp in Hw. rewrite E3 in Hw. destruct Hw as (w & Ew & _ & Ei3 & _).
  rewrite (bind_ok _ _ _ _ _ E3). unfold setp. rewrite bind_modify.
  exists w, (set_procs (left_table ptable init cur (p_parent c) w (k_procs s)) s3). rewrite Ew.
  assert (Hcur : ∃ c3, adopted ptable init cur NPROC w (wake (p_parent c) <$> k_procs s) !! cur = Some c3).
  { apply lookup_lt_is_Some_2. unfold adopted. rewrite length_imap, length_fmap. by eapply lookup_lt_Some. }
  destruct Hcur as (c3 & Hc3).
  rewrite (sched_bind cur (set_state ZOMBIE c3)); [split_and!; try done; cbn; by rewrite ?Hh3, ?Hm3, ?Hf3, ?Ei3|cbn; by rewrite Hh3| |done].
  cbn. by rewrite list_lookup_alter_eq, Hc3.
Qed.

(** The one exited child of a parent that slept. *)
Lemma left_find init cur j c q w ps next :
  ptab_ok ptable init ps next → ps !! cur = Some c → p_state c = RUNNING → p_parent c = ptr j → j ≠ init →
  ps !! j = Some q → p_state q = SLEEPING → p_chan q = ptr j →
  ∀ f, (∀ p, p_parent (f p) = p_parent p ∧ (p_state p ≠ ZOMBIE → p_state (f p) ≠ ZOMBIE)) →
  list_find (zombie_child j) (alter f j (left_table ptable init cur (p_parent c) w ps)) = Some (cur, set_state ZOMBIE c).
Proof.
  intros Hok Hc Hcs Hcp Hji Hq Hqs Hqc f Hf. pose proof (pt_len _ _ _ _ Hok) as Hl.
  assert (Hjc : j ≠ cur) by (intros ->; congruence).
  destruct (pt_wait _ _ _ _ Hok j q Hq Hqs Hqc) as (_ & _ & Hnz).
  assert (Hent : wakeb ptable w init (adopt ptable init cur true (wake (p_parent c) c)) = c).
  { destruct (wake_cases (p_parent c) c) as [[-> _]|(_ & ? & _)]; [|congruence].
    unfold adopt. rewrite (proj2 (Z.eqb_neq (p_parent c) (ptr cur))); cbn [andb].
    - unfold wakeb. destruct w; [|done]. destruct (wake_cases (ptr init) c) as [[-> _]|(_ & ? & _)]; [done|congruence].
    - rewrite Hcp. intros E. by apply ptr_inj in E. }
  apply list_find_Some. split_and!.
  - rewrite list_lookup_alter_ne, left_table_lookup, Hc by done. cbn. rewrite decide_True by done. by rewrite Hent.
  - done.
  - intros k t Ht Hlt [Htp Htz].
    assert (Hk : ∃ t0, left_table ptable init cur (p_parent c) w ps !! k = Some t0 ∧ p_parent t0 = ptr j ∧ p_state t0 = ZOMBIE).
    { destruct (decide (k = j)) as [->|Hne].
      - rewrite list_lookup_alter_eq in Ht. destruct (left_table _ _ _ _ _ _ !! j) as [t0|]; [|done]. simplify_eq/=.
        destruct (Hf t0) as [E1 E2]. exists t0. split_and!; [done|congruence|]. destruct (decide (p_state t0 = ZOMBIE)); [done|].
        by destruct E2.
      - rewrite list_lookup_alter_ne in Ht by done. eauto. }
    destruct Hk as (t0 & Ht0 & Hp0 & Hz0). rewrite left_table_lookup in Ht0 by done.
    destruct (ps !! k) as [r|] eqn:Hr; [|done]. rewrite decide_False in Ht0 by lia. cbn in Ht0. simplify_eq.
    pose proof (left_ok ptable init cur c w k r Hcs) as L. rewrite decide_False in L by lia.
    destruct L as [_ L2 L3 L4 _ _]; [lia|]. cbn in L2, L3, L4.
    assert (Hrz : p_state r = ZOMBIE).
    { specialize (L3 ltac:(lia)). rewrite Hz0 in L3. rewrite <- L4; [done|lia|done]. }
    rewrite Hp0 in L2. revert L2. case_b; intros L2; [by apply ptr_inj in L2|]. by apply (Hnz k r).
Qed.

(** [wait].  With an exited child it frees the stack and the page table of the first
    one, clears its slot and returns its identifier; with neither an exited child nor a
    reason to wait, no children or the process being killed, it returns -1 and changes
    nothing; otherwise the process goes to sleep on its own address. *)
Theorem wait_outcomes cur c (s : K) :
  k_held s = [] → k_procs s !! cur = Some c → plock ≠ 0 →
  match list_find (zombie_child cur) (k_procs s) with
  | Some (i, p) => ∀ k1 k2, kfree (p_kstack p) (k_mem s) = Ok tt k1 → freevm (p_pgdir p) k1 = Ok tt k2 →
      wait ptable plock cur s = Ok (Ret (p_pid p)) (set_mem k2 (set_procs (<[i := reaped p]> (k_procs s)) s))
  | None =>
      if bool_decide (Exists (is_child cur) (k_procs s)) && (p_killed c =? 0)
      then wait ptable plock cur s =
             Ok Switch (set_held [plock] (set_procs (<[cur := set_state SLEEPING (set_chan (ptr cur) c)]> (k_procs s)) s))
      else wait ptable plock cur s = Ok (Ret (-1)) s
  end.
Proof.
  intros Hh Hc Hpl. assert (Hin : plock ∉ k_held s) by (rewrite Hh; set_solver). unfold wait.
  rewrite (bind_ok _ _ _ _ _ (lock_ok _ _ Hin)), Hh.
  pose proof (wait_scan_ok cur c (set_held [plock] s) eq_refl Hc Hpl) as Hw. cbn [k_procs k_mem set_held] in Hw.
  assert (Es : ∀ s' : K, k_held s' = [] → set_held [] (set_held [plock] s') = s') by (intros []; cbn; by intros ->).
  destruct (list_find _ _) as [[i p]|].
  - intros k1 k2 E1 E2. rewrite (Hw k1 k2 E1 E2). f_equal. destruct s. cbn in *. by rewrite Hh.
  - destruct (_ && _); rewrite Hw; [done|]. by rewrite Es.
Qed.

(** C30: a parent asleep in [wait] is told.  When a child exits, its parent, if that is not [init], becomes ready
    to run, and once it runs, the call it slept in returns the identifier of that child
    and frees its slot. *)
Theorem exit_wakes_wait init cur j c q (s : K) k1 k2 :
  inv ptable init s → k_held s = [] → plock ≠ 0 →
  k_procs s !! cur = Some c → p_state c = RUNNING → p_parent c = ptr j → j ≠ init →
  k_procs s !! j = Some q → p_state q = SLEEPING → p_chan q = ptr j →
  kfree (p_kstack c) (k_mem s) = Ok tt k1 → freevm (p_pgdir c) k1 = Ok tt k2 →
  ∃ s1, exit_leave ptable plock cur s = Ok Switch s1 ∧ (p_state <$> k_procs s1 !! j) = Some RUNNABLE ∧
    ∃ s2, setp j (set_state RUNNING) s1 = Ok tt s2 ∧
      returns (wait_resume ptable plock j s2) (λ r s3, r = Ret (p_pid c) ∧
        (p_state <$> k_procs s3 !! cur) = Some UNUSED ∧ k_mem s3 = k2).
Proof.
  intros [Hok Hi] Hh Hpl Hc Hcs Hcp Hji Hq Hqs Hqc E1 E2. pose proof (pt_len _ _ _ _ Hok) as Hl.
  destruct (exit_leave_ok init cur c s Hh Hl Hi Hc) as (w & s1 & Ex & Hh1 & Hm1 & _ & _ & Hp1).
  exists s1. split; [done|].
  assert (Hjc : j ≠ cur) by (intros ->; congruence).
  assert (Hq1 : ∃ q1, k_procs s1 !! j = Some q1 ∧ p_state q1 = RUNNABLE).
  { rewrite Hp1, left_table_lookup, Hq by done. cbn. rewrite decide_False by done. eexists. split; [done|]. cbn.
    destruct (wake_cases (p_parent c) q) as [[_ H]|(-> & _ & _)]; [specialize (H Hqs); congruence|].
    unfold wakeb, adopt. destruct w; [|by case_b].
    match goal with |- p_state (wake _ ?p) = _ => destruct (wake_cases (ptr init) p) as [[-> _]|(-> & _ & _)] end; by case_b. }
  destruct Hq1 as (q1 & Hq1 & Hq1s). split; [by rewrite Hq1; cbn; rewrite Hq1s|].
  eexists. split; [reflexivity|]. unfold wait_resume, sleep_resume. rewrite Z.eqb_refl. cbn [negb].
  unfold setp. unfold mbind at 1, cm_bind at 1. rewrite bind_modify. unfold mret, cm_ret. cbn -[alter wait_scan].
  rewrite alter_alter. set (s2 := set_procs _ _).
  assert (Hc2 : k_procs s2 !! j = Some (set_chan 0 (set_state RUNNING q1))).
  { cbn. by rewrite list_lookup_alter_eq, Hq1. }
  pose proof (wait_scan_ok j _ s2 Hh1 Hc2 Hpl) as Hw.
  replace (list_find (zombie_child j) (k_procs s2)) with (Some (cur, set_state ZOMBIE c)) in Hw.
  2: { symmetry. cbn -[alter]. rewrite Hp1. by eapply left_find. }
  rewrite (Hw k1 k2); [|by rewrite <- E1; cbn; rewrite Hm1|done]. cbn. split_and!; try done.
  rewrite list_lookup_insert_eq; [done|]. rewrite length_alter, Hp1. unfold left_table, adopted.
  rewrite length_alter, length_imap, length_fmap. by eapply lookup_lt_Some.
Qed.
End calls.

(** ** [growproc] *)

Section grow.
Context {F : Type}.

(** The pages of a process of [sz] bytes. *)
Definition below (sz : Z) : Z → bool := λ i, i <? pages sz.

Lemma join_below sz sz' i : sz ≤ sz' → join (below sz) (pages sz) (pages sz') i = below sz' i.
Proof.
  intros Hs. assert (pages sz ≤ pages sz') by (unfold pages, PGSIZE; dlia). unfold join, below.
  apply eq_true_iff_eq. rewrite orb_true_iff, andb_true_iff, Z.leb_le, !Z.ltb_lt. lia.
Qed.

Lemma cut_below sz sz' i : sz' ≤ sz → cut (below sz) (pages sz') (pages sz) i = below sz' i.
Proof.
  intros Hs. assert (pages sz' ≤ pages sz) by (unfold pages, PGSIZE; dlia). unfold cut, below.
  apply eq_true_iff_eq. rewrite andb_true_iff, negb_true_iff, andb_false_iff, Z.leb_gt, Z.ltb_ge, !Z.ltb_lt. lia.
Qed.

Lemma grow_done cur c sz (s : kern F) :
  k_procs s !! cur = Some c → p_kstack c ≠ 0 → p_pgdir c ≠ 0 →
  ∃ s', (setp cur (set_sz sz) ;; switchuvm cur ;; mret 0) s = Ok 0 s' ∧
    (p_sz <$> k_procs s' !! cur) = Some sz ∧ k_mem s' = k_mem s.
Proof.
  intros Hc Hk Hp. unfold setp. rewrite bind_modify. set (s1 := set_procs _ s).
  assert (Hc1 : k_procs s1 !! cur = Some (set_sz sz c)) by (cbn; by rewrite list_lookup_alter_eq, Hc).
  unfold switchuvm. unfold mbind at 1, cm_bind at 1. rewrite (bind_ok _ _ _ _ _ (getp_ok _ _ _ Hc1)). cbn [p_kstack p_pgdir set_sz].
  rewrite (proj2 (Z.eqb_neq _ _) Hk), (proj2 (Z.eqb_neq _ _) Hp). rewrite bind_gets. eexists. split; [done|].
  split; [|done]. change (p_sz <$> k_procs s1 !! cur = Some sz). by rewrite Hc1.
Qed.

(** [growproc].  The process of [sz] bytes becomes one of [sz + n] bytes, with the
    bytes below both sizes kept and the new pages zero and its own; or, only when memory
    is short, the call returns -1 and the process is as it was. *)
Theorem growproc_resizes cur c n (s : kern F) l :
  k_procs s !! cur = Some c → p_kstack c ≠ 0 → p_pgdir c ≠ 0 →
  let sz := p_sz c in let pg := p_pgdir c in
  uspace pg (k_mem s) l (below sz) → 0 ≤ sz < KERNBASE → - sz < n → sz + n < KERNBASE →
  returns (growproc cur n s) (λ r s',
    (r = 0 ∧ (p_sz <$> k_procs s' !! cur) = Some (sz + n) ∧
     (∃ l', uspace pg (k_mem s') l' (below (sz + n))) ∧ same_user pg (below (Z.min sz (sz + n))) (k_mem s) (k_mem s') ∧
     ∀ j x, pages sz ≤ j < pages (sz + n) → in_page (upage (k_mem s') pg j) x → phys (k_mem s') x = 0) ∨
    (r = -1 ∧ k_procs s' = k_procs s ∧ (∃ l', uspace pg (k_mem s') l' (below sz)) ∧
     same_user pg (below sz) (k_mem s) (k_mem s') ∧ Z.of_nat (length l) < 2 * (pages (sz + n) - pages sz))).
Proof.
  intros Hc Hk Hp sz pg U Hsz Hn Hend. unfold growproc. rewrite (bind_ok _ _ _ _ _ (getp_ok _ _ _ Hc)). fold sz pg.
  rewrite (u32_small (sz + n)) by (unfold KERNBASE in *; lia).
  destruct (0 <? n) eqn:E1; [|destruct (n <? 0) eqn:E2]; zbool.
  - destruct (allocuvm_ok pg sz (sz + n) (k_mem s) l (below sz) U) as (r & k' & l' & E & Hr); [lia|done| |].
    { intros i Hi. unfold below. apply Z.ltb_ge. lia. }
    assert (Em : inmem (allocuvm pg sz (sz + n)) s = Ok r (set_mem k' s)) by (unfold inmem; by rewrite E).
    rewrite (bind_ok _ _ _ _ _ Em). destruct Hr as [(-> & U' & S' & _ & Z')|(-> & U' & S' & _ & Hl)].
    + rewrite (proj2 (Z.eqb_neq (sz + n) 0)) by lia.
      destruct (grow_done cur c (sz + n) (set_mem k' s) Hc Hk Hp) as (s' & -> & Es & Em'). cbn. rewrite Em'. left.
      split_and!; try done; [|by rewrite Z.min_l by lia|intros j x Hj; by apply Z']. exists l'. eapply uspace_ext; [|exact U']. intros i _. symmetry. apply join_below. lia.
    + cbn. right. split_and!; try done. by exists l'.
  - destruct (deallocuvm_ok pg sz (sz + n) (k_mem s) l (below sz) U) as (k' & l' & E & [F1 F2 F3 _ _]); [lia|lia|].
    assert (Em : inmem (deallocuvm pg sz (sz + n)) s = Ok (sz + n) (set_mem k' s)) by (unfold inmem; by rewrite E).
    rewrite (bind_ok _ _ _ _ _ Em), (proj2 (Z.eqb_neq (sz + n) 0)) by lia.
    destruct (grow_done cur c (sz + n) (set_mem k' s) Hc Hk Hp) as (s' & -> & Es & Em'). cbn. rewrite Em'. left.
    assert (Hc' : ∀ i, cut (below sz) (pages (sz + n)) (pages sz) i = below (sz + n) i) by (intros i; apply cut_below; lia).
    split_and!; try done.
    + exists l'. eapply uspace_ext; [|exact F1]. intros i _. by rewrite Hc'.
    + rewrite Z.min_r by lia. eapply same_user_sub; [|exact F2]. intros i _. by rewrite Hc'.
    + intros j x Hj. assert (pages (sz + n) ≤ pages sz) by (unfold pages, PGSIZE; dlia). lia.
  - assert (n = 0) as -> by lia. rewrite Z.add_0_r.
    destruct (grow_done cur c sz s Hc Hk Hp) as (s' & -> & Es & Em'). cbn. rewrite Em'. left.
    split_and!; try done; [by exists l|intros; lia].
Qed.

(** Shrinking to nothing: [deallocuvm] returns the new size 0, which [growproc] takes for
    a failure.  The pages are gone, and the recorded size is not changed. *)
Lemma growproc_to_zero cur c (s : kern F) l :
  k_procs s !! cur = Some c → let sz := p_sz c in let pg := p_pgdir c in
  uspace pg (k_mem s) l (below sz) → 0 < sz < 2 ^ 31 →
  ∃ s' l', growproc cur (- sz) s = Ok (-1) s' ∧ uspace pg (k_mem s') l' (below 0) ∧ k_procs s' = k_procs s.
Proof.
  intros Hc sz pg U Hsz. unfold growproc. rewrite (bind_ok _ _ _ _ _ (getp_ok _ _ _ Hc)). fold sz pg.
  rewrite (proj2 (Z.ltb_ge 0 (- sz))), (proj2 (Z.ltb_lt (- sz) 0)), Z.add_opp_diag_r by lia. change (u32 0) with 0.
  destruct (deallocuvm_ok pg sz 0 (k_mem s) l (below sz) U) as (k' & l' & E & [F1 F2 F3 _ _]); [lia|unfold KERNBASE; lia|].
  assert (Em : inmem (deallocuvm pg sz 0) s = Ok 0 (set_mem k' s)) by (unfold inmem; by rewrite E).
  rewrite (bind_ok _ _ _ _ _ Em). exists (set_mem k' s), l'. split_and!; [done| |done].
  eapply uspace_ext; [|exact F1]. intros i _. symmetry. apply (cut_below sz 0). lia.
Qed.
End grow.

(** ** Witnesses *)

Definition ex_out (r : outcome kmem unit) : kmem := match r with Ok _ k => k | _ => ex_kmem end.
Definition ex_ok (r : outcome kmem unit) : bool := match r with Ok _ _ => true | _ => false end.
Lemma ex_out_ok r : ex_ok r = true → r = Ok tt (ex_out r).
Proof. by destruct r as [[] k| |]. Qed.

(** A process of identifier 2 in slot 1 with a child in slot 2. *)
Definition ex_stack : Z := ex_base + 16384.
Definition ex_parent (st : procstate) (chan : Z) : proc :=
  Proc 4096 ex_dir ex_stack st 2 1000 0 0 chan 0 (replicate 16 0) 1 (replicate 16 0).
Definition ex_child (st : procstate) : proc := Proc 0 ex_dir ex_stack st 3 1124 0 0 0 0 (replicate 16 0) 1 (replicate 16 0).
Definition ex_table {F} (f : F) (p c : proc) : kern F :=
  Kern ex_kmem f (ex_init :: p :: c :: replicate 61 ex_unused) 4 1000 [] 0 0 0.

Definition ex_k1 : kmem := ex_out (kfree ex_stack ex_kmem).
Definition ex_k2 : kmem := ex_out (freevm ex_dir ex_k1).
Lemma ex_kfree : kfree ex_stack ex_kmem = Ok tt ex_k1.
Proof. apply ex_out_ok. vm_compute. reflexivity. Qed.
Lemma ex_freevm : freevm ex_dir ex_k1 = Ok tt ex_k2.
Proof. apply ex_out_ok. vm_compute. reflexivity. Qed.

Lemma ex_lookup {F} (f : F) p c i q : k_procs (ex_table f p c) !! i = Some q →
  i = 0%nat ∧ q = ex_init ∨ i = 1%nat ∧ q = p ∨ i = 2%nat ∧ q = c ∨ (3 ≤ i)%nat ∧ q = ex_unused.
Proof.
  destruct i as [|[|[|i]]]; [intros [= <-]; auto..|]. intros Hq. apply (lookup_replicate_1 61 ex_unused q i) in Hq as [-> _].
  right. right. right. split; [lia|done].
Qed.

Lemma ex_asleep_inv : inv 1000 0 (ex_table tt (ex_parent SLEEPING 1124) (ex_child RUNNING)).
Proof.
  split; [|done]. split; [done|..].
  - intros i p [[-> ->]|[[-> ->]|[[-> ->]|[? ->]]]]%ex_lookup; cbn; split; done || lia.
  - intros i j p q [[-> ->]|[[-> ->]|[[-> ->]|[? ->]]]]%ex_lookup [[-> ->]|[[-> ->]|[[-> ->]|[? ->]]]]%ex_lookup; done.
  - by exists ex_init.
  - intros i p [[-> ->]|[[-> ->]|[[-> ->]|[? ->]]]]%ex_lookup Hne; cbn; try done.
    + by exists 0%nat, ex_init.
    + by exists 1%nat, (ex_parent SLEEPING 1124).
  - intros i p [[-> ->]|[[-> ->]|[[-> ->]|[? ->]]]]%ex_lookup Hs Hc; try done. split_and!; [done| |].
    + by exists 2%nat, (ex_child RUNNING).
    + intros j q [[-> ->]|[[-> ->]|[[-> ->]|[? ->]]]]%ex_lookup; done.
Qed.

Lemma exit_wakes_wait_witness :
  ∃ s1, exit_leave 1000 7 2 (ex_table tt (ex_parent SLEEPING 1124) (ex_child RUNNING)) = Ok Switch s1 ∧
    ∃ s2, setp 1 (set_state RUNNING) s1 = Ok tt s2 ∧ returns (wait_resume 1000 7 1 s2) (λ r _, r = Ret 3).
Proof.
  destruct (exit_wakes_wait 1000 7 ltac:(lia) 0 2 1 (ex_child RUNNING) (ex_parent SLEEPING 1124)
    (ex_table tt (ex_parent SLEEPING 1124) (ex_child RUNNING)) ex_k1 ex_k2) as (s1 & E1 & _ & s2 & E2 & Hr).
  - exact ex_asleep_inv.
  - reflexivity.
  - lia.
  - reflexivity.
  - reflexivity.
  - reflexivity.
  - lia.
  - reflexivity.
  - reflexivity.
  - reflexivity.
  - exact ex_kfree.
  - exact ex_freevm.
  - exists s1. split; [exact E1|]. exists s2. split; [exact E2|]. eapply returns_mono; [exact Hr|]. by intros r s3 (-> & _).
Defined.

(** A slot that [allocproc] gives back because there is no page for the stack keeps the
    identifier, and [kill] does not look at the state: it succeeds on the free slot, and
    the process created there next starts killed. *)
Lemma kill_reaches_free_slot :
  let s := set_mem (set_freelist 0 ex_kmem) (ex_table tt (ex_parent RUNNING 0) ex_unused) in
  let m := (r1 ← allocproc 7 11 12;
            r2 ← kill 7 4;
            modify (set_mem ex_kmem) ;;
            r3 ← allocproc 7 11 12;
            mret (r1, r2, r3)) in
  match m s with
  | Ok r s' => r = (None, 0, Some 2%nat) ∧ p_killed <$> k_procs s' !! 2%nat = Some 1
  | _ => False
  end.
Proof. vm_compute. by split. Qed.
