(* ===== verification/ProcMem.v ===== *)
(** * The memory of all processes

    Every process of [src/proc.c] has a kernel stack and an address space.  [mem_ok]: these are pages of
    their own, no page belongs to two processes, and none of them is free.  [fork] ([allocproc], [copyuvm]),
    [growproc] and [wait] ([kfree], [freevm]) keep this, and so come back whatever the other processes did. *)
From S2P Require Import Prelude CString Bytes Kalloc Vm Uvm UvmCopy Proc ProcTheorems ProcSched.

(** A slot whose process has its memory. *)
Definition used (p : proc) : bool := match p_state p with UNUSED | EMBRYO => false | _ => true end.

(** The pages of a process: its kernel stack, its tables and its user pages. *)
Definition holds (m : kmem) (p : proc) (w : Z) : Prop := w = p_kstack p ∨ owned (p_pgdir p) m (below (p_sz p)) w.

Record proc_mem (m : kmem) (l : list Z) (p : proc) : Prop := {
  pm_space : uspace (p_pgdir p) m l (below (p_sz p));
  pm_size : 0 ≤ p_sz p < KERNBASE;
  pm_stack : page (kend m) (p_kstack p);
  pm_unfree : p_kstack p ∉ l;
  pm_unowned : ¬ owned (p_pgdir p) m (below (p_sz p)) (p_kstack p);
  pm_tf : p_tf p = p_kstack p + KSTACKSIZE - 76
}.

(** The free pages are [l], and every process has its own. *)
Record mem_ok (ps : list proc) (m : kmem) (l : list Z) : Prop := {
  mo_km : kmem_ok m l;
  mo_proc j p : ps !! j = Some p → used p = true → proc_mem m l p;
  mo_apart j k p q w : ps !! j = Some p → ps !! k = Some q → used p = true → used q = true →
    holds m p w → holds m q w → j = k
}.

Lemma proc_mem_holds m l p w : proc_mem m l p → holds m p w → page (kend m) w ∧ w ∉ l.
Proof. intros [U _ Hs Hf _ _] [->|Ho]; [done|]. by eapply owned_page. Qed.

Lemma proc_mem_nonzero m l p : proc_mem m l p → p_kstack p ≠ 0 ∧ p_pgdir p ≠ 0.
Proof. intros [U _ Hs _ _ _]. split; eapply page_pos; [exact Hs|]. apply (tr_dir _ _ _ (us_tree _ _ _ _ U)). Qed.

(** A change elsewhere. *)
Lemma proc_mem_frame m l p m' l' :
  proc_mem m l p → kmem_ok m' l' → kend m' = kend m →
  (∀ w, holds m p w → (w ∉ l') ∧ ∀ x, in_page w x → phys m' x = phys m x) →
  proc_mem m' l' p ∧ ∀ w, holds m' p w ↔ holds m p w.
Proof.
  intros [U Hsz Hs Hf Ho Ht] Hok Ee Hw.
  destruct (owned_frame _ _ _ _ m' l' U Hok Ee) as (U' & _ & O').
  - intros w x Hwo. apply Hw. by right.
  - intros w Hl Hwo. by apply (Hw w (or_intror Hwo)).
  - split; [|intros w; unfold holds; by rewrite O']. split; try done; [by rewrite Ee|apply Hw; by left|by rewrite O'].
Qed.

(** The fields that say where the memory is. *)
Definition same_mem (p p' : proc) : Prop :=
  p_sz p' = p_sz p ∧ p_pgdir p' = p_pgdir p ∧ p_kstack p' = p_kstack p ∧ p_tf p' = p_tf p.

Lemma same_mem_refl p : same_mem p p.
Proof. done. Qed.

Lemma holds_same m p p' w : same_mem p p' → holds m p' w ↔ holds m p w.
Proof. intros (E1 & E2 & E3 & _). unfold holds. by rewrite E1, E2, E3. Qed.

Lemma proc_mem_same m l p p' : same_mem p p' → proc_mem m l p → proc_mem m l p'.
Proof. intros (E1 & E2 & E3 & E4) []. split; by rewrite ?E1, ?E2, ?E3, ?E4. Qed.

(** No process gets memory. *)
Lemma mem_ok_table ps ps' m l :
  mem_ok ps m l →
  (∀ j p', ps' !! j = Some p' → used p' = true → ∃ p, ps !! j = Some p ∧ used p = true ∧ same_mem p p') →
  mem_ok ps' m l.
Proof.
  intros [K P A] Hps. split; [done|..].
  - intros j p' Hp Hu. destruct (Hps j p' Hp Hu) as (p & ? & ? & Hs). eapply proc_mem_same; [exact Hs|eauto].
  - intros j k p' q' w Hp Hq Hup Huq. destruct (Hps j p' Hp Hup) as (p & ? & ? & Hsp), (Hps k q' Hq Huq) as (q & ? & ? & Hsq).
    rewrite (holds_same _ _ _ _ Hsp), (holds_same _ _ _ _ Hsq). eauto.
Qed.

(** Process [i] changes memory, and the pages of the others are left alone. *)
Lemma mem_ok_change ps m l i p' m' l' :
  mem_ok ps m l → kmem_ok m' l' → kend m' = kend m →
  (∀ j p w, j ≠ i → ps !! j = Some p → used p = true → holds m p w →
     (w ∉ l') ∧ (∀ x, in_page w x → phys m' x = phys m x) ∧ (used p' = true → ¬ holds m' p' w)) →
  (used p' = true → proc_mem m' l' p') →
  mem_ok (<[i := p']> ps) m' l'.
Proof.
  intros [K P A] K' Ee Hoth Hp'.
  assert (Hfr : ∀ j p, j ≠ i → ps !! j = Some p → used p = true → proc_mem m' l' p ∧ ∀ w, holds m' p w ↔ holds m p w).
  { intros j p Hne Hp Hu. apply (proc_mem_frame m l); [eauto|done|done|]. intros w Hw.
    destruct (Hoth j p w Hne Hp Hu Hw) as (? & ? & _). done. }
  split; [done|..].
  - intros j p [(<- & <- & _)|[Hne Hp]]%list_lookup_insert_Some Hu; [by apply Hp'|]. by eapply Hfr.
  - intros j k p q w [(<- & <- & _)|[Hne Hp]]%list_lookup_insert_Some [(<- & <- & _)|[Hne' Hq]]%list_lookup_insert_Some Hu Hu' Hw Hw';
      [done|..].
    + destruct (Hfr k q ltac:(done) Hq Hu') as [_ Hf]. apply Hf in Hw'. by destruct (Hoth k q w ltac:(done) Hq Hu' Hw') as (_ & _ & []).
    + destruct (Hfr j p ltac:(done) Hp Hu) as [_ Hf]. apply Hf in Hw. by destruct (Hoth j p w ltac:(done) Hp Hu Hw) as (_ & _ & []).
    + apply (A j k p q w); try done; [by apply (Hfr j)|by apply (Hfr k)].
Qed.

(** A process makes its address space larger or smaller. *)
Lemma mem_ok_resize ps m l i c sz m' l' :
  mem_ok ps m l → ps !! i = Some c → used c = true → 0 ≤ sz < KERNBASE →
  uspace (p_pgdir c) m' l' (below sz) → confined (p_pgdir c) m l (below (p_sz c)) m' l' (below sz) →
  mem_ok (<[i := set_sz sz c]> ps) m' l'.
Proof.
  intros Hm Hc Hu Hsz U [Ee Hpool Hmem]. pose proof Hm as [K P A]. pose proof (P i c Hc Hu) as [_ _ Hs Hf Ho Ht].
  assert (Hout : ∀ w, w ∉ l → ¬ owned (p_pgdir c) m (below (p_sz c)) w → (w ∉ l') ∧ ¬ owned (p_pgdir c) m' (below sz) w).
  { intros w Hl Hw. assert (¬ (w ∈ l' ∨ owned (p_pgdir c) m' (below sz) w)) by (rewrite Hpool; tauto). tauto. }
  apply (mem_ok_change _ m l); [done|apply U|done| |].
  - intros j p w Hne Hp Hup Hw. destruct (proc_mem_holds _ _ _ _ (P j p Hp Hup) Hw) as [Hpg Hwl].
    assert (Hnc : ¬ holds m c w) by (intros Hwc; apply Hne; by eapply A).
    assert (Hwo : ¬ owned (p_pgdir c) m (below (p_sz c)) w) by (intros ?; apply Hnc; by right).
    destruct (Hout w Hwl Hwo) as [H1 H2]. split_and!; [done|intros x; by apply (Hmem w)|].
    intros _ [->|?]; [apply Hnc; by left|done].
  - intros _. destruct (Hout _ Hf Ho) as [H1 H2]. split; try done. cbn. by rewrite Ee.
Qed.

(** An exited process: its stack and its address space are freed. *)
Lemma mem_ok_reap ps m l i z :
  mem_ok ps m l → ps !! i = Some z → used z = true →
  ∃ m1 m2 l2, kfree (p_kstack z) m = Ok tt m1 ∧ freevm (p_pgdir z) m1 = Ok tt m2 ∧ mem_ok (<[i := reaped z]> ps) m2 l2.
Proof.
  intros Hm Hz Hu. pose proof Hm as [K P A]. pose proof (P i z Hz Hu) as [U _ Hs Hf Ho _].
  destruct (kfree_ok m l (p_kstack z) K Hs Hf) as (m1 & E1 & K1 & X1 & Ee1 & _).
  assert (Hoth : ∀ w x, page (kend m) w → w ≠ p_kstack z → in_page w x → phys m1 x = phys m x).
  { intros w x Hw Hne Hx. apply X1. by apply (pages_apart (kend m) w). }
  destruct (owned_frame _ _ _ _ m1 (p_kstack z :: l) U K1 Ee1) as (U1 & _ & O1).
  { intros w x Hw. apply Hoth; [by apply (owned_page _ _ _ _ _ U)|]. intros ->. done. }
  { intros w [->|Hl]%elem_of_cons Hw; [done|]. by apply (owned_page _ _ _ _ _ U) in Hw as [_ ?]. }
  destruct (freevm_ok _ _ _ _ U1) as (m2 & l2 & E2 & K2 & Ee2 & L2 & X2). exists m1, m2, l2. split_and!; [done|done|].
  apply (mem_ok_change _ m l); [done|done|congruence| |done].
  intros j p w Hne Hp Hup Hw. destruct (proc_mem_holds _ _ _ _ (P j p Hp Hup) Hw) as [Hpg Hwl].
  assert (Hnz : ¬ holds m z w) by (intros Hwz; apply Hne; by eapply A).
  assert (Hwo : ¬ owned (p_pgdir z) m1 (below (p_sz z)) w) by (rewrite O1; intros ?; apply Hnz; by right).
  assert (Hwk : w ≠ p_kstack z) by (intros ->; apply Hnz; by left).
  split_and!; [|intros x Hx|done].
  - rewrite L2, elem_of_cons. tauto.
  - rewrite (X2 w), (Hoth w); try done. by rewrite Ee1.
Qed.

(** ** A new process *)

(** Bytes of the page [v] are stored. *)
Record scribbled (v : Z) (m m' : kmem) : Prop := {
  sc_end : kend m' = kend m;
  sc_lock : klock m' = klock m;
  sc_list : freelist m' = freelist m;
  sc_mem x : ¬ in_page v x → phys m' x = phys m x
}.

Lemma scribbled_trans v m m1 m2 : scribbled v m m1 → scribbled v m1 m2 → scribbled v m m2.
Proof. intros [A1 A2 A3 A4] [B1 B2 B3 B4]. split; [congruence..|]. intros x Hx. by rewrite B4, A4. Qed.

Lemma scribbled_page v m m' w x :
  scribbled v m m' → page (kend m) v → page (kend m) w → w ≠ v → in_page w x → phys m' x = phys m x.
Proof. intros H Hv Hw Hne Hx. apply (sc_mem _ _ _ H). by apply (pages_apart (kend m) w). Qed.

Lemma scribbled_ok v m m' l : scribbled v m m' → page (kend m) v → v ∉ l → kmem_ok m l → kmem_ok m' l.
Proof.
  intros H Hv Hl [A1 A2 A3 A4 A5]. pose proof H as [B1 B2 B3 _]. split; rewrite ?B1, ?B2, ?B3; try done.
  apply (free_list_ext (kend m) (phys m)); [done| |done]. intros w x Hw. apply (scribbled_page v); [done|done| |congruence].
  by eapply Forall_forall in A5.
Qed.

(** Addresses in a page. *)
Lemma page_off e v o : page e v → 0 ≤ o < PGSIZE → in_ram (v + o) = true ∧ V2P (v + o) = V2P v + o.
Proof.
  intros Hv Ho. pose proof Hv as (Hm & _ & Hr). destruct (page_V2P e v Hv) as (-> & _).
  unfold in_ram, V2P, u32, KERNBASE, PHYSTOP, PGSIZE in *.
  split; [apply andb_true_iff; rewrite Z.leb_le, Z.ltb_lt; dlia|]. rewrite Z.mod_small; dlia.
Qed.

Lemma kstore_scribbles v o x m :
  page (kend m) v → 0 ≤ o → o + 4 ≤ PGSIZE → ∃ m', kstore (v + o) x m = Ok tt m' ∧ scribbled v m m'.
Proof.
  intros Hv Ho Ho4. destruct (page_off _ _ o Hv) as [E1 E2]; [lia|]. unfold kstore. rewrite E1, E2. eexists. split; [done|].
  split; try done. intros a Ha. apply stw_other. unfold in_page in Ha. lia.
Qed.

Lemma fill_scribbles v o c n m :
  page (kend m) v → 0 ≤ o < PGSIZE → 0 ≤ n → o + n ≤ PGSIZE → ∃ m', fill_bytes (v + o) c n m = Ok tt m' ∧ scribbled v m m'.
Proof.
  intros Hv Ho Hn Hon. destruct (page_off _ _ o Hv Ho) as [E1 E2]. unfold fill_bytes. rewrite E1, E2. eexists. split; [done|].
  split; try done. intros a Ha. cbn. rewrite memset_spec by done. unfold in_page in Ha. case_b; [lia|done].
Qed.

Lemma copy_frame_scribbles v o src m :
  page (kend m) v → 0 ≤ o → o + 76 ≤ PGSIZE → in_ram src = true →
  ∃ m', copy_frame (v + o) src m = Ok tt m' ∧ scribbled v m m'.
Proof.
  intros Hv Ho Hon Hs. destruct (page_off _ _ o Hv) as [E1 E2]; [lia|]. unfold copy_frame. rewrite E1, E2, Hs. eexists. split; [done|].
  split; try done. intros a Ha. cbn. rewrite memmove_spec by lia. unfold in_page in Ha. case_b; [lia|done].
Qed.

(** The stack of a slot that is being set up: a page that is neither free nor of a process. *)
Record nascent (ps : list proc) (m : kmem) (l : list Z) (np : nat) (v : Z) : Prop := {
  na_page : page (kend m) v;
  na_unfree : v ∉ l;
  na_apart j p : j ≠ np → ps !! j = Some p → used p = true → ¬ holds m p v
}.

(** [allocproc]'s stack, with what it stores there. *)
Lemma mem_ok_stack ps m v l m1 m2 np q :
  mem_ok ps m (v :: l) → kmem_ok m1 l → phys m1 = phys m → kend m1 = kend m → scribbled v m1 m2 → used q = false →
  mem_ok (<[np := q]> ps) m2 l ∧ nascent (<[np := q]> ps) m2 l np v.
Proof.
  intros Hm K1 Ep Ee Hsc Hq. pose proof Hm as [K P A].
  pose proof (km_nodup _ _ K) as Hnd. apply NoDup_cons in Hnd as [Hvl _].
  pose proof (km_pages _ _ K) as Hpg. apply Forall_cons in Hpg as [Hv _]. pose proof Hv as Hv1. rewrite <- Ee in Hv1.
  assert (Ee2 : kend m2 = kend m) by (by rewrite (sc_end _ _ _ Hsc)).
  assert (Hoth : ∀ j p w, ps !! j = Some p → used p = true → holds m p w →
    w ≠ v ∧ (w ∉ l) ∧ ∀ x, in_page w x → phys m2 x = phys m x).
  { intros j p w Hp Hu Hw. destruct (proc_mem_holds _ _ _ _ (P j p Hp Hu) Hw) as [Hwp [Hwv Hwl]%not_elem_of_cons].
    split_and!; [done|done|]. intros x Hx. rewrite (scribbled_page v m1 m2 w), Ep; try done. by rewrite Ee. }
  split.
  - apply (mem_ok_change _ m (v :: l)); [done|by apply (scribbled_ok v m1)|done| |congruence].
    intros j p w _ Hp Hu Hw. destruct (Hoth j p w Hp Hu Hw) as (_ & ? & ?). split_and!; [done|done|congruence].
  - split; [by rewrite Ee2|done|]. intros j p Hne. rewrite list_lookup_insert_ne by done. intros Hp Hu Hh.
    destruct (proc_mem_frame m (v :: l) p m2 l) as [_ Hf]; [by eapply P|by apply (scribbled_ok v m1)|done| |].
    + intros w Hw. by destruct (Hoth j p w Hp Hu Hw) as (_ & ? & ?).
    + apply Hf in Hh. by destruct (Hoth j p v Hp Hu Hh).
Qed.

Lemma below_upto sz i : 0 ≤ i < NUSER → below sz i = upto (pages sz) i.
Proof. intros Hi. unfold below, upto. by rewrite (proj2 (Z.leb_le 0 i)) by lia. Qed.

Section copy.
Context (ps : list proc) (m : kmem) (l : list Z) (cur np : nat) (c : proc) (v : Z).
Context (Hm : mem_ok ps m l) (Hna : nascent ps m l np v) (Hc : ps !! cur = Some c) (Hu : used c = true).

(** No copy: the stack is free again. *)
Lemma fork_undone m2 l2 q :
  restored m l m2 l2 → used q = false → ∃ m3, kfree v m2 = Ok tt m3 ∧ mem_ok (<[np := q]> ps) m3 (v :: l2).
Proof.
  intros [K2 Ee Hl Hx] Hq. destruct Hna as [Hv Hvl Hva].
  destruct (kfree_ok m2 l2 v K2) as (m3 & E3 & K3 & X3 & Ee3 & _); [by rewrite Ee|by rewrite Hl|].
  exists m3. split; [done|]. apply (mem_ok_change _ m l); [done|done|congruence| |congruence].
  intros j p w Hne Hp Hup Hw. destruct (proc_mem_holds _ _ _ _ (mo_proc _ _ _ Hm j p Hp Hup) Hw) as [Hpg Hwl].
  assert (Hwv : w ≠ v) by (intros ->; by apply (Hva j p)). split_and!; [|intros x Hwx|congruence].
  - rewrite elem_of_cons, Hl. tauto.
  - rewrite X3; [by apply (Hx w)|]. by apply (pages_apart (kend m) w).
Qed.

(** A copy, and bytes stored on the stack. *)
Lemma fork_done r m2 l2 m3 q :
  beside m l r m2 l2 (upto (pages (p_sz c))) → scribbled v m2 m3 →
  p_pgdir q = r → p_sz q = p_sz c → p_kstack q = v → p_tf q = v + KSTACKSIZE - 76 → mem_ok (<[np := q]> ps) m3 l2.
Proof.
  intros B Hsc Hqd Hqs Hqk Hqt. apply (beside_ext _ _ _ _ _ _ _ (λ i Hi, below_upto (p_sz c) i Hi)) in B.
  destruct B as [U Hp Hx Ee]. pose proof Hna as [Hv Hvl Hva].
  assert (Hl2 : v ∉ l2) by (intros ?; apply Hvl, Hp; by left).
  assert (Hvo : ¬ owned r m2 (below (p_sz c)) v) by (intros ?; apply Hvl, Hp; by right).
  assert (Hv2 : page (kend m2) v) by (by rewrite Ee).
  assert (K3 : kmem_ok m3 l2) by (apply (scribbled_ok v m2); [done|done|done|apply U]).
  destruct (owned_frame _ _ _ _ m3 l2 U K3 (sc_end _ _ _ Hsc)) as (U3 & _ & O3).
  { intros w x Hw. apply (scribbled_page v); [done|done|by apply (owned_page _ _ _ _ _ U)|]. by intros ->. }
  { intros w Hw Ho. by apply (owned_page _ _ _ _ _ U) in Ho as [_ ?]. }
  apply (mem_ok_change _ m l); [done|done|by rewrite (sc_end _ _ _ Hsc)| |].
  - intros j p w Hne Hpj Hup Hw. destruct (proc_mem_holds _ _ _ _ (mo_proc _ _ _ Hm j p Hpj Hup) Hw) as [Hpg Hwl].
    assert (Hwv : w ≠ v) by (intros ->; by apply (Hva j p)).
    assert (Hno : ¬ (w ∈ l2 ∨ owned r m2 (below (p_sz c)) w)) by (by rewrite Hp). split_and!; [tauto|intros x Hwx|].
    + rewrite (scribbled_page v m2 m3 w); try done; [by apply (Hx w)|by rewrite Ee].
    + intros _ [->|Ho]; [done|]. rewrite Hqd, Hqs, O3 in Ho. tauto.
  - intros _. split; rewrite ?Hqd, ?Hqs, ?Hqk; try done; [apply (mo_proc _ _ _ Hm cur c Hc Hu)| |by rewrite O3].
    by rewrite (sc_end _ _ _ Hsc).
Qed.

Lemma fork_copies data :
  data mod PGSIZE = 0 → KERNLINK < data < KERNBASE + PHYSTOP →
  ∃ r m2 l2, copyuvm data (p_pgdir c) (p_sz c) m = Ok r m2 ∧
    ((r ≠ 0 ∧ beside m l r m2 l2 (upto (pages (p_sz c)))) ∨ (r = 0 ∧ restored m l m2 l2)).
Proof.
  intros Hdata Hrange. pose proof (mo_proc _ _ _ Hm cur c Hc Hu) as [U Hsz _ _ _ _].
  destruct (copyuvm_ok data Hdata Hrange (p_pgdir c) (p_sz c) m l _ U Hsz) as (r & m2 & l2 & E & Hr).
  - intros j Hj. unfold below. apply Z.ltb_lt. lia.
  - exists r, m2, l2. split; [done|]. destruct Hr as [(? & ? & _)|(? & ? & _)]; [by left|by right].
Qed.
End copy.
