(* ===== verification/ProcFair.v ===== *)
(** * The scheduler is fair

    What a process does between two switches is a slice: it resumes, makes calls of [src/proc.c], each
    of which may depend on the results of those before, and gives the CPU up.  Each call
    comes back, leaves every other ready process ready, and keeps the memory of all processes ([ProcMem]) and
    their references to files in order.  Theorem: a round of [scheduler] runs every process that was ready. *)
From Stdlib Require Import Sorting.Sorted.
From S2P Require Import Prelude CString Bytes Kalloc Vm Uvm UvmCopy Proc ProcTheorems ProcSched ProcMem.

(** ** Slices *)

(** Where a process goes on: in [forkret], after the [sched] of [yield], of a [sleep] with the lock [lk], or of
    the [sleep] in [wait]. *)
Inductive resume : Type := RNew | RYield | RSleep (lk : Z) | RWait.

(** The calls: [OSbrk f] asks for [f sz] more bytes, where [sz] is the size of the process. *)
Inductive call1 : Type := OWakeup (chan : Z) | OKill (pid : Z) | OFork | OSbrk (f : Z → Z) | OWait.

(** The end: [yield], [sleep] with a lock just taken, or [exit]. *)
Inductive stop : Type := SYield | SSleep (chan lk : Z) | SExit.
Inductive code : Type := Stop (e : stop) | Call (c : call1) (k : Z → code).
Record slice : Type := Slice { sl_resume : resume; sl_code : code }.

(** References to files and inodes are counted: [fro tx fs ns g] says that in [g] the references [fs] to files and [ns] to
    inodes are held, in a transaction or not.  A reference can be copied by who holds it, and given back once. *)
Class FileRefsOk (G : Type) {files : FileRefs G} : Type := {
  fro : bool → list Z → list Z → G → Prop;
  fro_perm tx fs fs' ns ns' g : fs ≡ₚ fs' → ns ≡ₚ ns' → fro tx fs ns g → fro tx fs' ns' g;
  fro_filedup f fs ns g : fro false fs ns g → f ∈ fs → ∃ g', fr_filedup f g = Ok f g' ∧ fro false (f :: fs) ns g';
  fro_fileclose f fs ns g : fro false (f :: fs) ns g → ∃ g', fr_fileclose f g = Ok tt g' ∧ fro false fs ns g';
  fro_idup i fs ns g : fro false fs ns g → i ∈ ns → ∃ g', fr_idup i g = Ok i g' ∧ fro false fs (i :: ns) g';
  fro_iput i fs ns g : fro true fs (i :: ns) g → ∃ g', fr_iput i g = Ok tt g' ∧ fro true fs ns g';
  fro_begin_op fs ns g : fro false fs ns g → ∃ g', fr_begin_op g = Ok tt g' ∧ fro true fs ns g';
  fro_end_op fs ns g : fro true fs ns g → ∃ g', fr_end_op g = Ok tt g' ∧ fro false fs ns g'
}.

(** The files with a log of the processes that ran. *)
Definition logged {G A} (m : cm G A) : cm (G * list nat) A := λ s,
  match m s.1 with Ok a g => Ok a (g, s.2) | Panic e => Panic e | Ub e => Ub e end.
#[local] Instance log_files {G} {files : FileRefs G} : FileRefs (G * list nat) := {|
  fr_filedup f := logged (fr_filedup f);
  fr_fileclose f := logged (fr_fileclose f);
  fr_idup i := logged (fr_idup i);
  fr_iput i := logged (fr_iput i);
  fr_begin_op := logged fr_begin_op;
  fr_end_op := logged fr_end_op;
  fr_namei path := logged (fr_namei path)
|}.

Section fair.
Context {G : Type} {files : FileRefs G} {filesok : FileRefsOk G}.
Context (ptable plock forkret_addr trapret_addr data kpgdir : Z) (Hptable : 0 < ptable) (Hplock : plock ≠ 0).
Context (Hdata : data mod PGSIZE = 0) (Hrange : KERNLINK < data < KERNBASE + PHYSTOP).

Local Abbreviation ptr := (ptr ptable).
Local Abbreviation K := (kern (G * list nat)).

Definition run_resume (i : nat) (r : resume) : cm K (after Z) :=
  match r with
  | RNew => forkret plock false (mret tt) (mret tt) ;; mret (Ret 0)
  | RYield => yield_resume plock ;; mret (Ret 0)
  | RSleep lk => sleep_resume plock i lk ;; unlock lk ;; mret (Ret 0)
  | RWait => wait_resume ptable plock i
  end.
Definition run_call (i : nat) (c : call1) : cm K (after Z) :=
  match c with
  | OWakeup chan => wakeup plock chan ;; mret (Ret 0)
  | OKill pid => r ← kill plock pid; mret (Ret r)
  | OFork => r ← fork ptable plock forkret_addr trapret_addr data i; mret (Ret r)
  | OSbrk f => p ← getp i; r ← growproc i (f (p_sz p)); mret (Ret r)
  | OWait => wait ptable plock i
  end.
Definition run_stop (i : nat) (e : stop) : cm K unit :=
  match e with
  | SYield => yield plock i ;; mret tt
  | SSleep chan lk => lock lk ;; sleep plock i chan lk ;; mret tt
  | SExit => exit ptable plock i ;; mret tt
  end.
Fixpoint run_code (i : nat) (c : code) : cm K unit :=
  match c with
  | Stop e => run_stop i e
  | Call c k => r ← run_call i c; match r with Ret a => run_code i (k a) | Switch => mret tt end
  end.
Definition run_slice (prog : nat → slice) (i : nat) : cm K unit :=
  modify (λ s, set_files ((k_files s).1, (k_files s).2 ++ [i]) s) ;;
  r ← run_resume i (sl_resume (prog i));
  match r with Ret _ => run_code i (sl_code (prog i)) | Switch => mret tt end.

(** The locks a slice uses itself are not the table's.  [n] is an [int], and no process gives all of its memory
    back ([growproc_to_zero]).  [init] does not exit. *)
Definition call_ok (c : call1) : Prop :=
  match c with OSbrk f => ∀ sz, - 2 ^ 31 ≤ f sz < 2 ^ 31 ∧ (0 < sz → f sz ≠ - sz) | _ => True end.
Definition stop_ok (init i : nat) (e : stop) : Prop :=
  match e with SYield => True | SSleep _ lk => lk ≠ plock ∧ lk ≠ 0 | SExit => i ≠ init end.
Fixpoint code_ok (init i : nat) (c : code) : Prop :=
  match c with Stop e => stop_ok init i e | Call c k => call_ok c ∧ ∀ r, code_ok init i (k r) end.
Definition slice_ok (init i : nat) (sl : slice) : Prop :=
  (∀ lk, sl_resume sl = RSleep lk → lk ≠ plock) ∧ code_ok init i (sl_code sl).

(** ** What a call does to the table

    Slot [j] afterwards: but for process [i], what is ready stays ready, and nothing starts or stops running. *)
Record slot (i j : nat) (p p' : proc) : Prop := {
  so_ofile : length (p_ofile p') = length (p_ofile p);
  so_name : length (p_name p') = length (p_name p);
  so_ready : j ≠ i → p_state p = RUNNABLE → p_state p' = RUNNABLE;
  so_running : j ≠ i → p_state p = RUNNING ↔ p_state p' = RUNNING
}.
Definition tab (i : nat) (ps ps' : list proc) : Prop :=
  length ps' = length ps ∧ ∀ j p, ps !! j = Some p → ∃ p', ps' !! j = Some p' ∧ slot i j p p'.

Lemma slot_refl i j p : slot i j p p.
Proof. by split. Qed.

Lemma tab_refl i ps : tab i ps ps.
Proof. split; [done|]. intros j p Hp. exists p. split; [done|apply slot_refl]. Qed.

Lemma tab_trans i ps ps1 ps2 : tab i ps ps1 → tab i ps1 ps2 → tab i ps ps2.
Proof.
  intros [L1 S1] [L2 S2]. split; [congruence|]. intros j p Hp. destruct (S1 j p Hp) as (p1 & Hp1 & [A1 A2 A3 A4]).
  destruct (S2 j p1 Hp1) as (p2 & Hp2 & [B1 B2 B3 B4]). exists p2. split; [done|]. split; [congruence..|auto|].
  intros Hj. by rewrite A4, B4.
Qed.

Lemma tab_imap i (f : nat → proc → proc) ps ps' :
  (∀ j, ps' !! j = f j <$> ps !! j) → (∀ j p, ps !! j = Some p → slot i j p (f j p)) → tab i ps ps'.
Proof.
  intros Hf Hs. split.
  - apply Nat.le_antisymm; apply Nat.nlt_ge; intros Hlt; apply lookup_lt_is_Some_2 in Hlt as [p Hlt].
    + rewrite Hf, fmap_Some in Hlt. destruct Hlt as (q & Hq & _). apply lookup_lt_Some in Hq. lia.
    + specialize (Hf (length ps')). rewrite Hlt, lookup_ge_None_2 in Hf by lia. done.
  - intros j p Hj. exists (f j p). split; [by rewrite Hf, Hj|]. by apply Hs.
Qed.

Lemma tab_insert i k q q' ps : ps !! k = Some q → slot i k q q' → tab i ps (<[k := q']> ps).
Proof.
  intros Hk Hs. apply (tab_imap i (λ j p, if decide (j = k) then q' else p)).
  - intros j. destruct (decide (j = k)) as [->|Hne].
    + rewrite Hk, list_lookup_insert_eq; [done|by eapply lookup_lt_Some].
    + rewrite list_lookup_insert_ne by done. by destruct (ps !! j).
  - intros j p Hp. destruct (decide (j = k)) as [->|Hne]; [by simplify_eq|apply slot_refl].
Qed.

Lemma tab_weaken i n ps ps' : (length ps ≤ n)%nat → tab n ps ps' → tab i ps ps'.
Proof.
  intros Hn [L S]. split; [done|]. intros j p Hp. destruct (S j p Hp) as (p' & ? & [A1 A2 A3 A4]).
  apply lookup_lt_Some in Hp. exists p'. split; [done|]. split; [done..| |]; intros _; [apply A3|apply A4]; lia.
Qed.

(** ** References to files

    Those of the table: the open files and the current directories. *)
Definition nz : list Z → list Z := filter (λ f, f ≠ 0).
Definition open_files (ps : list proc) : list Z := mjoin ((λ p, nz (p_ofile p)) <$> ps).
Definition cwds (ps : list proc) : list Z := mjoin ((λ p, nz [p_cwd p]) <$> ps).

(** The table holds the references that the files count.  A process that has not exited has a directory; a slot without one has
    neither a directory nor open files. *)
Definition has_refs (p : proc) : Prop :=
  if live (p_state p) then p_cwd p ≠ 0 else p_cwd p = 0 ∧ p_ofile p = replicate NOFILE 0.
Definition refs (ps : list proc) (g : G) : Prop :=
  fro false (open_files ps) (cwds ps) g ∧ ∀ j p, ps !! j = Some p → has_refs p.

Definition same_refs (p p' : proc) : Prop :=
  p_ofile p' = p_ofile p ∧ p_cwd p' = p_cwd p ∧ live (p_state p') = live (p_state p).

Definition counted (ps : list proc) (g : G) : Prop := fro false (open_files ps) (cwds ps) g.

Lemma counted_imap (f : nat → proc → proc) ps ps' g :
  (∀ j, ps' !! j = f j <$> ps !! j) → (∀ j p, ps !! j = Some p → p_ofile (f j p) = p_ofile p ∧ p_cwd (f j p) = p_cwd p) →
  counted ps g → counted ps' g.
Proof.
  intros Hf Hs. assert (Hmap : ∀ A (h : proc → A), (∀ j p, ps !! j = Some p → h (f j p) = h p) → h <$> ps' = h <$> ps).
  { intros A h Hh. apply list_eq. intros j. rewrite !list_lookup_fmap, Hf. destruct (ps !! j) as [p|] eqn:E; [|done]. cbn. by rewrite (Hh j). }
  unfold counted, open_files, cwds. rewrite !(Hmap (list Z)); [done|..]; intros j p Hp; destruct (Hs j p Hp) as (E1 & E2); congruence.
Qed.

Lemma refs_imap (f : nat → proc → proc) ps ps' g :
  (∀ j, ps' !! j = f j <$> ps !! j) → (∀ j p, ps !! j = Some p → same_refs p (f j p)) → refs ps g → refs ps' g.
Proof.
  intros Hf Hs [R S]. split.
  - eapply counted_imap; [exact Hf| |exact R]. intros j p Hp. by destruct (Hs j p Hp) as (? & ? & _).
  - intros j p'. rewrite Hf, fmap_Some. intros (p & Hp & ->). specialize (S j p Hp). destruct (Hs j p Hp) as (E1 & E2 & E3).
    unfold has_refs in *. by rewrite E1, E2, E3.
Qed.

(** One slot changes. *)
Lemma join_insert (h : proc → list Z) ps k p p' :
  ps !! k = Some p → mjoin (h <$> <[k := p']> ps) ++ h p ≡ₚ h p' ++ mjoin (h <$> ps).
Proof.
  intros Hk. assert (Hlt : (k < length ps)%nat) by (by eapply lookup_lt_Some).
  rewrite insert_take_drop by done. rewrite <- (take_drop_middle ps k p Hk) at 3. rewrite !fmap_app, !fmap_cons, !join_app. cbn [mjoin list_join].
  solve_Permutation.
Qed.

Lemma refs_kept ps k p p' g : ps !! k = Some p → same_refs p p' → refs ps g → refs (<[k := p']> ps) g.
Proof.
  intros Hk Hs. apply (refs_imap (λ j q, if decide (j = k) then p' else q)).
  - intros j. destruct (decide (j = k)) as [->|Hne].
    + rewrite Hk, list_lookup_insert_eq; [done|by eapply lookup_lt_Some].
    + rewrite list_lookup_insert_ne by done. by destruct (ps !! j).
  - intros j q Hq. destruct (decide (j = k)) as [->|Hne]; [by simplify_eq|]. by repeat split.
Qed.

(** ** What a call does *)
Record does (i : nat) (s s' : K) : Prop := {
  do_tab : tab i (k_procs s) (k_procs s');
  do_log : (k_files s').2 = (k_files s).2;
  do_init : k_initproc s' = k_initproc s;
  do_mem l : mem_ok (k_procs s) (k_mem s) l → ∃ l', mem_ok (k_procs s') (k_mem s') l';
  do_refs : refs (k_procs s) (k_files s).1 → refs (k_procs s') (k_files s').1
}.

Lemma does_trans i s s1 s2 : does i s s1 → does i s1 s2 → does i s s2.
Proof.
  intros [A1 A2 A3 A4 A5] [B1 B2 B3 B4 B5]. split; [by eapply tab_trans|congruence..| |auto].
  intros l Hl. destruct (A4 l Hl) as [l1 Hl1]. by apply (B4 l1).
Qed.

(** What does not touch the table, the memory and the files. *)
Lemma does_aside i s s' :
  k_procs s' = k_procs s → k_mem s' = k_mem s → k_files s' = k_files s → k_initproc s' = k_initproc s → does i s s'.
Proof. intros E1 E2 E3 E4. split; [rewrite E1; apply tab_refl|by rewrite E3|done|rewrite E1, E2; eauto|by rewrite E1, E3]. Qed.

(** A change of one slot that gives its process neither memory nor files. *)
Definition calm (i j : nat) (p p' : proc) : Prop :=
  slot i j p p' ∧ (used p' = true → used p = true ∧ same_mem p p') ∧ same_refs p p'.

Lemma does_table i (f : nat → proc → proc) s s' :
  (∀ j, k_procs s' !! j = f j <$> k_procs s !! j) → k_mem s' = k_mem s → k_files s' = k_files s →
  k_initproc s' = k_initproc s → (∀ j p, k_procs s !! j = Some p → calm i j p (f j p)) → does i s s'.
Proof.
  intros Hf Em Ef Ei Hp. split; [|by rewrite Ef|done| |].
  - eapply tab_imap; [exact Hf|]. intros j p Hj. by apply Hp.
  - intros l Hm. exists l. rewrite Em. eapply mem_ok_table; [exact Hm|]. intros j p'. rewrite Hf, fmap_Some.
    intros (p & Hj & ->) Hu. destruct (Hp j p Hj) as (_ & H & _). destruct (H Hu). eauto.
  - rewrite Ef. eapply refs_imap; [exact Hf|]. intros j p Hj. by apply Hp.
Qed.

Lemma calm_refl i j p : calm i j p p.
Proof. split_and!; [apply slot_refl|done|by repeat split]. Qed.

Lemma does_alter i k f s :
  (∀ p, k_procs s !! k = Some p → calm i k p (f p)) → does i s (set_procs (alter f k (k_procs s)) s).
Proof.
  intros Hf. apply (does_table i (λ j p, if decide (j = k) then f p else p)); [|done..|].
  - intros j. cbn. destruct (decide (j = k)) as [->|Hne]; [by rewrite list_lookup_alter_eq|].
    rewrite list_lookup_alter_ne by done. by destruct (k_procs s !! j).
  - intros j p Hp. destruct (decide (j = k)) as [->|Hne]; [by apply Hf|apply calm_refl].
Qed.

Lemma does_weaken i n s s' : (length (k_procs s) ≤ n)%nat → does n s s' → does i s s'.
Proof. intros Hn [A1 A2 A3 A4 A5]. split; [by eapply tab_weaken|done..]. Qed.

(** A process that stays as it is, or that is woken. *)
Lemma slot_wakes i j p p' :
  p_ofile p' = p_ofile p → p_cwd p' = p_cwd p → p_name p' = p_name p → same_mem p p' →
  p_state p' = p_state p ∨ p_state p = SLEEPING ∧ p_state p' = RUNNABLE → calm i j p p'.
Proof.
  intros Ho Hc Hn Hm Hs. unfold calm, same_refs, used. split; [split; try congruence; destruct Hs as [->|[-> ->]]; done|].
  destruct Hs as [->|[-> ->]]; (split; [done|by split_and!]).
Qed.

Local Ltac woken := apply slot_wakes; [done|done|done|by repeat split|first [by left|by right]].

Lemma wake_slot i j chan p : calm i j p (wake chan p).
Proof. destruct (wake_cases chan p) as [[-> _]|(-> & Hs & _)]; woken. Qed.

(** What holds between any two calls: the table has its size, every process its memory and its references. *)
Record world (init : nat) (s : K) : Prop := {
  wo_len : length (k_procs s) = NPROC;
  wo_init : k_initproc s = ptr init;
  wo_mem : ∃ l, mem_ok (k_procs s) (k_mem s) l;
  wo_refs : refs (k_procs s) (k_files s).1;
  wo_slot j p : k_procs s !! j = Some p → length (p_ofile p) = NOFILE ∧ length (p_name p) = 16%nat
}.

Lemma world_does i init s s' : world init s → does i s s' → world init s'.
Proof.
  intros [W1 W2 [l W3] W5 W4] [[D1 D2] _ D3 D4 D5]. split; [congruence..|by apply (D4 l)|auto|].
  intros j p' Hp'. destruct (lookup_lt_is_Some_2 (k_procs s) j) as [p Hp]; [apply lookup_lt_Some in Hp'; lia|].
  destruct (D2 j p Hp) as (p1 & Hp1 & [S1 S2 _ _]). simplify_eq. rewrite S1, S2. by apply (W4 j).
Qed.

Definition runs (i : nat) (s : K) : Prop := ∃ c, k_procs s !! i = Some c ∧ p_state c = RUNNING.

Lemma runs_does i n s s' : i ≠ n → runs i s → does n s s' → runs i s'.
Proof.
  intros Hi (c & Hc & Hr) [[_ D] _ _ _ _]. destruct (D i c Hc) as (c' & Hc' & S). exists c'. split; [done|].
  by apply (so_running _ _ _ _ S Hi).
Qed.

(** Process [i] runs, with the locks [h] held. *)
Record acts (init i : nat) (h : list Z) (s : K) : Prop := {
  ac_world : world init s;
  ac_held : k_held s = h;
  ac_runs : runs i s
}.

Lemma acts_does init i h h' s s' : acts init i h s → does NPROC s s' → k_held s' = h' → acts init i h' s'.
Proof.
  intros [W _ R] D H. split; [by eapply world_does|done|]. eapply runs_does; [|exact R|exact D].
  destruct R as (c & Hc & _), W as [Hl _ _ _ _]. apply lookup_lt_Some in Hc. lia.
Qed.

(** ** [wakeup] and [kill] *)

Lemma wakeup_does i chan s : k_held s = [] → ∃ s', wakeup plock chan s = Ok tt s' ∧ does i s s' ∧ k_held s' = [].
Proof.
  intros Hh. unfold wakeup. rewrite (bind_ok _ _ _ _ _ (lock_ok plock s ltac:(rewrite Hh; set_solver))).
  unfold wakeup1. rewrite bind_modify, Hh. eexists. split; [by apply (unlock_ok plock []); [|set_solver]|].
  split; [|done]. apply (does_table i (λ _, wake chan)); [intros j; cbn; by rewrite list_lookup_fmap|done..|].
  intros j p Hp. apply wake_slot.
Qed.

Lemma kill_does i pid s : k_held s = [] → ∃ r s', kill plock pid s = Ok r s' ∧ does i s s' ∧ k_held s' = [].
Proof.
  intros Hh. unfold kill. rewrite (bind_ok _ _ _ _ _ (lock_ok plock s ltac:(rewrite Hh; set_solver))), bind_gets, Hh.
  cbn [k_procs set_held]. destruct (find_proc _ _ 0) as [k|] eqn:Ef.
  2: { rewrite (unlock_bind plock []) by (done || set_solver). do 2 eexists. split; [done|]. by split; [apply does_aside|]. }
  apply find_proc_0 in Ef as (p & Hp & _). unfold setp. rewrite bind_modify.
  set (s1 := set_procs _ _). assert (Hp1 : k_procs s1 !! k = Some (set_killed 1 p)) by (cbn; by rewrite list_lookup_alter_eq, Hp).
  rewrite (bind_ok _ _ _ _ _ (getp_ok _ _ _ Hp1)).
  assert (D1 : does i s s1).
  { eapply does_trans; [apply (does_aside i s (set_held [plock] s)); done|]. apply does_alter. intros q Hq. woken. }
  case_b.
  - rewrite bind_modify. unfold is_state in E. apply bool_decide_eq_true in E.
    rewrite (unlock_bind plock []) by (done || set_solver). do 2 eexists. split; [done|]. split; [|done].
    eapply does_trans; [exact D1|].
    apply (does_trans i s1 (set_procs (alter (set_state RUNNABLE) k (k_procs s1)) s1)); [|by apply does_aside].
    apply does_alter. intros q Hq. rewrite Hp1 in Hq. simplify_eq. woken.
  - rewrite bind_ret, (unlock_bind plock []) by (done || set_solver). do 2 eexists. split; [done|]. split; [|done].
    eapply does_trans; [exact D1|]. by apply does_aside.
Qed.

(** ** [growproc] *)

Lemma grow_mem i c sz m l m' l' (s : K) :
  k_procs s !! i = Some c → p_state c = RUNNING → k_mem s = m → mem_ok (k_procs s) m l →
  mem_ok (<[i := set_sz sz c]> (k_procs s)) m' l' →
  ∃ s', (setp i (set_sz sz) ;; switchuvm i ;; mret 0) (set_mem m' s) = Ok 0 s' ∧ does NPROC s s' ∧ k_held s' = k_held s.
Proof.
  intros Hc Hr Em Hm Hm'. assert (Hu : used c = true) by (unfold used; by rewrite Hr).
  destruct (proc_mem_nonzero _ _ _ (mo_proc _ _ _ Hm i c Hc Hu)) as [Hk Hp].
  unfold setp. rewrite bind_modify. set (s1 := set_procs _ _).
  assert (Hc1 : k_procs s1 !! i = Some (set_sz sz c)) by (cbn; by rewrite list_lookup_alter_eq, Hc).
  unfold switchuvm. unfold mbind at 1, cm_bind at 1. rewrite (bind_ok _ _ _ _ _ (getp_ok _ _ _ Hc1)). cbn [p_kstack p_pgdir set_sz].
  rewrite (proj2 (Z.eqb_neq _ _) Hk), (proj2 (Z.eqb_neq _ _) Hp), bind_gets. eexists. split; [done|]. split; [|done].
  assert (Es1 : k_procs s1 = <[i := set_sz sz c]> (k_procs s)) by (cbn; by rewrite (alter_as_insert _ _ _ _ Hc)).
  split; [|done|done| |].
  - change (tab NPROC (k_procs s) (k_procs s1)). rewrite Es1. eapply tab_insert; [exact Hc|]. by split.
  - intros l0 _. exists l'. change (mem_ok (k_procs s1) m' l'). by rewrite Es1.
  - change (refs (k_procs s) (k_files s).1 → refs (k_procs s1) (k_files s).1). rewrite Es1. by apply (refs_kept _ _ c).
Qed.

Lemma grow_fails i c m' l' (s : K) :
  k_procs s !! i = Some c → mem_ok (<[i := set_sz (p_sz c) c]> (k_procs s)) m' l' → does NPROC s (set_mem m' s).
Proof.
  intros Hc Hm. split; [apply tab_refl|done|done| |done]. intros l _. exists l'.
  rewrite (list_insert_id (k_procs s) i) in Hm; [done|]. by destruct c.
Qed.

(** [growproc] on a process [c] that runs, with the free pages [l]. *)
Section grow.
Context (i : nat) (c : proc) (s : K) (l : list Z).
Context (Hc : k_procs s !! i = Some c) (Hr : p_state c = RUNNING) (Hm : mem_ok (k_procs s) (k_mem s) l).
Let sz : Z := p_sz c.
Let pg : Z := p_pgdir c.

Lemma grow_space : used c = true ∧ uspace pg (k_mem s) l (below sz) ∧ 0 ≤ sz < KERNBASE.
Proof.
  assert (Hu : used c = true) by (unfold used; by rewrite Hr). by destruct (mo_proc _ _ _ Hm i c Hc Hu) as [U Hsz _ _ _ _].
Qed.

(** The call comes back. *)
Definition grown (o : outcome K Z) : Prop := ∃ r s', o = Ok r s' ∧ does NPROC s s' ∧ k_held s' = k_held s.

Lemma grown_done sz' m' l' :
  mem_ok (<[i := set_sz sz' c]> (k_procs s)) m' l' → grown ((setp i (set_sz sz') ;; switchuvm i ;; mret 0) (set_mem m' s)).
Proof. intros Hm'. destruct (grow_mem i c sz' _ l m' l' s Hc Hr eq_refl Hm Hm') as (s' & E & D & Eh). by exists 0, s'. Qed.

Lemma grown_fails m' l' : mem_ok (<[i := set_sz sz c]> (k_procs s)) m' l' → grown (Ok (-1) (set_mem m' s)).
Proof. intros Hm'. do 2 eexists. split; [done|]. split; [by eapply grow_fails|done]. Qed.

Lemma grow_self : mem_ok (<[i := set_sz sz c]> (k_procs s)) (k_mem s) l.
Proof. rewrite list_insert_id; [done|]. by destruct c. Qed.

(** The result [r] of [allocuvm] or [deallocuvm], and what [growproc] makes of it. *)
Definition grow_end (r : Z) : cm K Z := if r =? 0 then mret (-1) else setp i (set_sz r) ;; switchuvm i ;; mret 0.

Lemma grow_up n : 0 < n < 2 ^ 31 → grown ((inmem (allocuvm pg sz (u32 (sz + n))) ≫= grow_end) s).
Proof.
  intros Hn. destruct grow_space as (Hu & U & Hsz). rewrite (u32_small (sz + n)) by (unfold KERNBASE in *; lia).
  assert (Hrun : ∀ r m', allocuvm pg sz (sz + n) (k_mem s) = Ok r m' →
    (inmem (allocuvm pg sz (sz + n)) ≫= grow_end) s = grow_end r (set_mem m' s)).
  { intros r m' E. apply bind_ok. unfold inmem. by rewrite E. }
  destruct (decide (sz + n < KERNBASE)) as [Hlt|Hge].
  2: { rewrite (Hrun 0 (k_mem s)) by (unfold allocuvm; by rewrite (proj2 (Z.leb_le KERNBASE _)) by lia).
       eapply grown_fails, grow_self. }
  destruct (allocuvm_ok pg sz (sz + n) (k_mem s) l _ U) as (r & m' & l' & E & Hr'); [lia|done| |].
  { intros j Hj. unfold below. apply Z.ltb_ge. lia. }
  rewrite (Hrun _ _ E). unfold grow_end. destruct Hr' as [(-> & U' & _ & C' & _)|(-> & U' & _ & C' & _)].
  - rewrite (proj2 (Z.eqb_neq (sz + n) 0)) by lia. apply (grown_done _ _ l').
    assert (HJ : ∀ j, 0 ≤ j < NUSER → below (sz + n) j = join (below sz) (pages sz) (pages (sz + n)) j)
      by (intros j _; symmetry; apply join_below; lia).
    apply (mem_ok_resize _ (k_mem s) l); try done; [lia|by eapply uspace_ext|]. by eapply confined_ext; [| |exact C'].
  - cbn [Z.eqb]. apply (grown_fails _ l'). by apply (mem_ok_resize _ (k_mem s) l).
Qed.

(** A size below zero wraps, and [deallocuvm] does nothing. *)
Lemma grow_down n : - 2 ^ 31 ≤ n < 0 → (0 < sz → n ≠ - sz) → grown ((inmem (deallocuvm pg sz (u32 (sz + n))) ≫= grow_end) s).
Proof.
  intros Hn Hz. destruct grow_space as (Hu & U & Hsz).
  assert (Hrun : ∀ r m', deallocuvm pg sz (u32 (sz + n)) (k_mem s) = Ok r m' →
    (inmem (deallocuvm pg sz (u32 (sz + n))) ≫= grow_end) s = grow_end r (set_mem m' s)).
  { intros r m' E. apply bind_ok. unfold inmem. by rewrite E. }
  destruct (decide (0 < sz + n)) as [Hpos|Hneg].
  - assert (Eu : u32 (sz + n) = sz + n) by (rewrite u32_small; unfold KERNBASE in *; lia).
    destruct (deallocuvm_ok pg sz (sz + n) (k_mem s) l _ U) as (m' & l' & E & Hf); [lia|lia|].
    rewrite (Hrun (sz + n) m') by (by rewrite Eu). unfold grow_end. rewrite (proj2 (Z.eqb_neq (sz + n) 0)) by lia.
    apply (grown_done _ _ l').
    assert (HJ : ∀ j, 0 ≤ j < NUSER → below (sz + n) j = cut (below sz) (pages (sz + n)) (pages sz) j)
      by (intros j _; symmetry; apply cut_below; lia).
    apply (mem_ok_resize _ (k_mem s) l); try done; [lia|eapply uspace_ext; [exact HJ|apply Hf]|].
    eapply confined_ext; [| |by apply freed_confined]; done.
  - assert (Ew : u32 (sz + n) = sz + n + 2 ^ 32).
    { unfold u32. replace (sz + n) with ((sz + n + 2 ^ 32) + -1 * 2 ^ 32) at 1 by lia.
      rewrite Z.mod_add, Z.mod_small by (unfold KERNBASE in *; lia). done. }
    rewrite (Hrun sz (k_mem s)).
    + unfold grow_end. case_b; [eapply grown_fails, grow_self|eapply grown_done, grow_self].
    + unfold deallocuvm. rewrite Ew. by rewrite (proj2 (Z.leb_le sz _)) by (unfold KERNBASE in *; lia).
Qed.
End grow.

Lemma sbrk_does init i c n s :
  acts init i [] s → k_procs s !! i = Some c → - 2 ^ 31 ≤ n < 2 ^ 31 → (0 < p_sz c → n ≠ - p_sz c) →
  ∃ r s', growproc i n s = Ok r s' ∧ does NPROC s s' ∧ k_held s' = [].
Proof.
  intros [[_ _ [l Hm] _ _] Hh (c' & Hc' & Hr)] Hc Hn Hz. rewrite Hc in Hc'. injection Hc' as <-. rewrite <- Hh.
  change (grown s (growproc i n s)). unfold growproc. rewrite (bind_ok _ _ _ _ _ (getp_ok _ _ _ Hc)).
  destruct (0 <? n) eqn:E1; [|destruct (n <? 0) eqn:E2]; zbool.
  - apply (grow_up i c s l); try done. lia.
  - apply (grow_down i c s l); try done. lia.
  - replace s with (set_mem (k_mem s) s) at 2 by (by destruct s). eapply grown_done; try done. by eapply grow_self.
Qed.

(** ** [fork] *)

(** A slot that no process has yet gets new contents, and memory changes. *)
Lemma does_slot np n n' m' l' (s s' : K) :
  k_procs s !! np = Some n → used n = false → p_state n' ≠ RUNNING → length (p_ofile n') = length (p_ofile n) →
  length (p_name n') = length (p_name n) → k_procs s' = <[np := n']> (k_procs s) → (k_files s').2 = (k_files s).2 →
  k_initproc s' = k_initproc s → k_mem s' = m' → mem_ok (<[np := n']> (k_procs s)) m' l' →
  (refs (k_procs s) (k_files s).1 → refs (<[np := n']> (k_procs s)) (k_files s').1) → does NPROC s s'.
Proof.
  intros Hn Hu Hr Ho Hl Ep Ef Ei Em Hm Hrf. split; [|done|done| |by rewrite Ep].
  - rewrite Ep. eapply tab_insert; [exact Hn|]. unfold used in Hu.
    split; [done|done|..]; intros _; [by intros E; rewrite E in Hu|]. split; intros E; [by rewrite E in Hu|done].
  - intros l _. exists l'. by rewrite Ep, Em.
Qed.

(** A change of memory in a call. *)
Lemma inmem_bind {A B} (m : cm kmem A) (k : A → cm K B) (s : K) a m' :
  m (k_mem s) = Ok a m' → (inmem m ≫= k) s = k a (set_mem m' s).
Proof. intros E. apply bind_ok. unfold inmem. by rewrite E. Qed.

Lemma setp_bind {A} i f (k : unit → cm K A) s : (setp i f ≫= k) s = k tt (set_procs (alter f i (k_procs s)) s).
Proof. unfold setp. by rewrite bind_modify. Qed.

(** What [allocproc] stores on the new stack. *)
Lemma stack_scribbles v m :
  page (kend m) v →
  ∃ m1 m2 m3, kstore (v + KSTACKSIZE - 76 - 4) trapret_addr m = Ok tt m1 ∧
    fill_bytes (v + KSTACKSIZE - 76 - 4 - 20) 0 20 m1 = Ok tt m2 ∧
    kstore (v + KSTACKSIZE - 76 - 4 - 20 + 16) forkret_addr m2 = Ok tt m3 ∧ scribbled v m m3.
Proof.
  intros Hv. unfold KSTACKSIZE.
  replace (v + 4096 - 76 - 4) with (v + 4016) by lia. replace (v + 4016 - 20) with (v + 3996) by lia.
  replace (v + 3996 + 16) with (v + 4012) by lia.
  destruct (kstore_scribbles v 4016 trapret_addr m Hv) as (m1 & E1 & S1); [unfold PGSIZE; lia..|].
  destruct (fill_scribbles v 3996 0 20 m1) as (m2 & E2 & S2); [by rewrite (sc_end _ _ _ S1)|unfold PGSIZE; lia..|].
  destruct (kstore_scribbles v 4012 forkret_addr m2) as (m3 & E3 & S3);
    [by rewrite (sc_end _ _ _ S2), (sc_end _ _ _ S1)|unfold PGSIZE; lia..|].
  exists m1, m2, m3. split_and!; [done..|]. eapply scribbled_trans; [exact S1|]. by eapply scribbled_trans.
Qed.

(** The process that [allocproc] sets up in the slot. *)
Definition allotted (n : proc) (pid v : Z) : proc :=
  set_context (v + KSTACKSIZE - 76 - 4 - 20) (set_tf (v + KSTACKSIZE - 76) (set_kstack v (set_pid pid (set_state EMBRYO n)))).

Lemma alloc_does init i s :
  acts init i [] s →
  ∃ r s', allocproc plock forkret_addr trapret_addr s = Ok r s' ∧ does NPROC s s' ∧ k_held s' = [] ∧
    match r with
    | None => True
    | Some np => ∃ n l', k_procs s' !! np = Some n ∧ p_state n = EMBRYO ∧ p_tf n = p_kstack n + KSTACKSIZE - 76 ∧
        mem_ok (k_procs s') (k_mem s') l' ∧ nascent (k_procs s') (k_mem s') l' np (p_kstack n)
    end.
Proof.
  intros [[_ _ [l Hm] _ _] Hh _]. unfold allocproc.
  rewrite (bind_ok _ _ _ _ _ (lock_ok plock s ltac:(rewrite Hh; set_solver))), bind_gets, Hh. cbn [k_procs set_held].
  destruct (find_proc _ _ 0) as [np|] eqn:Ef.
  2: { rewrite (unlock_bind plock []) by (done || set_solver). do 2 eexists. split; [done|]. by split_and!; [apply does_aside|..]. }
  apply find_proc_0 in Ef as (n & Hn & Hst). unfold is_state in Hst. apply bool_decide_eq_true in Hst.
  assert (Hu : used n = false) by (unfold used; by rewrite Hst).
  unfold setp. rewrite bind_modify, bind_gets, !bind_modify. rewrite (unlock_bind plock []) by (done || set_solver).
  cbn -[alter kalloc]. rewrite alter_alter, (alter_as_insert _ _ _ _ Hn). set (n1 := set_pid _ _).
  set (s1 := set_held [] _). assert (Hn1 : k_procs s1 !! np = Some n1).
  { cbn. rewrite list_lookup_insert_eq; [done|]. by eapply lookup_lt_Some. }
  destruct (kalloc_ok (k_mem s) l (mo_km _ _ _ Hm)) as (m1 & E1 & K1 & Ep1 & Ee1 & _).
  rewrite (inmem_bind kalloc _ s1 _ _ E1), bind_modify. destruct l as [|v l]; cbn [hd tail] in *.
  - cbn [Z.eqb]. rewrite bind_modify. do 2 eexists. split; [done|]. split_and!; [|done|done]. cbn -[alter].
    rewrite alter_alter, (alter_as_insert _ _ _ _ Hn1). unfold s1. cbn. rewrite list_insert_insert_eq.
    apply (does_slot np n (set_state UNUSED (set_kstack 0 n1)) m1 []); try done;
      [|apply refs_kept with n; [done|]; by repeat split; cbn; rewrite ?Hst]. apply (mem_ok_change _ (k_mem s) []); try done.
    intros j p w _ _ _ _. split_and!; [set_solver|by rewrite Ep1|done].
  - pose proof (km_pages _ _ (mo_km _ _ _ Hm)) as Hpg. apply Forall_cons in Hpg as [Hv _].
    rewrite (proj2 (Z.eqb_neq v 0)) by (by eapply page_pos). rewrite bind_modify.
    destruct (stack_scribbles v m1) as (m2 & m3 & m4 & E2 & E3 & E4 & Hsc); [by rewrite Ee1|].
    erewrite inmem_bind by exact E2. rewrite bind_modify. erewrite inmem_bind by exact E3. erewrite inmem_bind by exact E4.
    destruct (mem_ok_stack (k_procs s) (k_mem s) v l m1 m4 np (allotted n (k_nextpid s) v) Hm K1 Ep1 Ee1 Hsc eq_refl) as [Hm4 Hna].
    do 2 eexists. split; [done|]. cbn -[alter]. rewrite !alter_alter, (alter_as_insert _ _ _ _ Hn1).
    unfold s1. cbn. rewrite list_insert_insert_eq.
    assert (Hlt : (np < length (k_procs s))%nat) by (by eapply lookup_lt_Some).
    split_and!; [|done|].
    + eapply (does_slot np n (allotted n (k_nextpid s) v) m4 l); try done.
      apply refs_kept with n; [done|]. by repeat split; cbn; rewrite ?Hst.
    + exists (allotted n (k_nextpid s) v), l. split_and!; try done. by rewrite list_lookup_insert_eq.
Qed.

(** A call on the files. *)
Lemma logged_bind {A B} (m : cm G A) (k : A → cm K B) (s : K) a g :
  m (k_files s).1 = Ok a g → (infiles (logged m) ≫= k) s = k a (set_files (g, (k_files s).2) s).
Proof. intros E. apply bind_ok. unfold infiles, logged. by rewrite E. Qed.

Lemma nz_zeros n : nz (replicate n 0) = [].
Proof. induction n; [done|]. unfold nz in *. cbn [replicate]. by rewrite filter_cons_False by lia. Qed.

(** The open files of the parent, each copied. *)
Lemma fork_files_ok fs : ∀ s os ns,
  fro false os ns (k_files s).1 → (∀ f, f ∈ nz fs → f ∈ os) →
  ∃ g, fork_files fs (replicate (length fs) 0) s = Ok fs (set_files (g, (k_files s).2) s) ∧ fro false (nz fs ++ os) ns g.
Proof.
  assert (Hid : ∀ s : K, set_files ((k_files s).1, (k_files s).2) s = s) by (by intros [? [] ? ? ? ? ? ? ?]).
  induction fs as [|f fs IH]; intros s os ns Hr Hin; cbn [fork_files length replicate]; [exists (k_files s).1; by rewrite Hid|].
  assert (Hf : ∃ g, (if negb (f =? 0) then infiles (fr_filedup f) else mret 0) s = Ok f (set_files (g, (k_files s).2) s) ∧
    fro false (nz [f] ++ os) ns g).
  { case_b.
    - destruct (fro_filedup f os ns _ Hr) as (g & Ed & Hr'); [apply Hin; unfold nz; rewrite filter_cons_True by done; left|].
      exists g. unfold nz. rewrite filter_cons_True by done. split; [|done].
      change (fr_filedup f) with (logged (fr_filedup f)). unfold infiles, logged. by rewrite Ed.
    - subst f. exists (k_files s).1. by rewrite Hid. }
  destruct Hf as (g & E & Hr'). rewrite (bind_ok _ _ _ _ _ E).
  assert (Hnz : nz (f :: fs) = nz [f] ++ nz fs) by (unfold nz; by rewrite <- filter_app).
  destruct (IH (set_files (g, (k_files s).2) s) (nz [f] ++ os) ns Hr') as (g' & E' & Hr2).
  { intros h Hh. apply elem_of_app. right. apply Hin. rewrite Hnz. apply elem_of_app. by right. }
  rewrite (bind_ok _ _ _ _ _ E'). exists g'. split; [done|]. eapply fro_perm; [|reflexivity|exact Hr2]. rewrite Hnz. solve_Permutation.
Qed.

Lemma join_elem (h : proc → list Z) ps k p x : ps !! k = Some p → x ∈ h p → x ∈ mjoin (h <$> ps).
Proof. intros Hk Hx. apply list_elem_of_join. exists (h p). split; [done|]. apply list_elem_of_fmap_2. by eapply list_elem_of_lookup_2. Qed.

(** The references of the table with a copy of process [c] in a slot that has none. *)
Lemma refs_fork ps np n n' c g g' :
  ps !! np = Some n → has_refs n → live (p_state n) = false → live (p_state n') = true → p_cwd c ≠ 0 →
  p_ofile n' = p_ofile c → p_cwd n' = p_cwd c →
  refs ps g → fro false (nz (p_ofile c) ++ open_files ps) (p_cwd c :: cwds ps) g' → refs (<[np := n']> ps) g'.
Proof.
  intros Hn Hh Hl Hl' Hc Eo Ec [_ S] Hr. unfold has_refs in Hh. rewrite Hl in Hh. destruct Hh as [Hcn Hon]. split.
  - eapply fro_perm; [| |exact Hr]; symmetry.
    + pose proof (join_insert (λ p, nz (p_ofile p)) ps np n n' Hn) as Hj. cbn beta in Hj.
      by rewrite Eo, Hon, nz_zeros, app_nil_r in Hj.
    + pose proof (join_insert (λ p, nz [p_cwd p]) ps np n n' Hn) as Hj. cbn beta in Hj. rewrite Ec, Hcn in Hj.
      change (nz [0]) with ([] : list Z) in Hj. rewrite app_nil_r in Hj. unfold cwds. rewrite Hj. unfold nz at 1.
      by rewrite filter_cons_True.
  - intros j p [(<- & <- & _)|[_ Hp]]%list_lookup_insert_Some; [|eauto]. unfold has_refs. by rewrite Hl', Ec.
Qed.

Lemma name_child_ok i p t (s : K) :
  k_procs s !! i = Some p → length (p_name p) = 16%nat → length t = 16%nat →
  ∃ nm, name_proc i t s = Ok tt (set_procs (<[i := set_name nm p]> (k_procs s)) s) ∧ length nm = 16%nat.
Proof.
  intros Hp Hl Ht. unfold name_proc. rewrite (bind_ok _ _ _ _ _ (getp_ok _ _ _ Hp)). unfold safestrcpy. cbn [Z.leb Z.compare].
  destruct (safestrcpy_loop_spec (p_name p) t (Z.to_nat (16 - 1))) as (r & E & Hr); [lia|left; lia|]. rewrite E.
  exists (take (Z.to_nat (16 - 1)) (cstr t) ++ 0 :: r). split; [|by rewrite Hr]. unfold setp, modify.
  by rewrite (alter_as_insert _ _ _ _ Hp).
Qed.

(** The frame of the child. *)
Lemma frame_scribbles v c m l m2 :
  page (kend m2) v → proc_mem m l c →
  ∃ m3 m4, copy_frame (v + KSTACKSIZE - 76) (p_tf c) m2 = Ok tt m3 ∧
    kstore (v + KSTACKSIZE - 76 + 28) 0 m3 = Ok tt m4 ∧ scribbled v m2 m4.
Proof.
  intros Hv [_ _ Hs _ _ Ht]. unfold KSTACKSIZE in *.
  replace (v + 4096 - 76) with (v + 4020) by lia. replace (v + 4020 + 28) with (v + 4048) by lia.
  assert (Hram : in_ram (p_tf c) = true).
  { rewrite Ht. replace (p_kstack c + 4096 - 76) with (p_kstack c + 4020) by lia. apply (page_off _ _ _ Hs). unfold PGSIZE. lia. }
  destruct (copy_frame_scribbles v 4020 (p_tf c) m2 Hv) as (m3 & E3 & S3); [unfold PGSIZE; lia..|done|].
  destruct (kstore_scribbles v 4048 0 m3) as (m4 & E4 & S4); [by rewrite (sc_end _ _ _ S3)|unfold PGSIZE; lia..|].
  exists m3, m4. split_and!; [done..|]. by eapply scribbled_trans.
Qed.

(** The end of [fork]: the child gets its name, and is ready. *)
Lemma fork_ready np n t ps (s : K) :
  k_procs s = <[np := n]> ps → (np < length ps)%nat → length (p_name n) = 16%nat → length t = 16%nat → k_held s = [] →
  ∃ nm s', (name_proc np t ;; n ← getp np; lock plock ;; setp np (set_state RUNNABLE) ;; unlock plock ;; mret (p_pid n)) s =
      Ok (p_pid n) s' ∧ k_procs s' = <[np := set_state RUNNABLE (set_name nm n)]> ps ∧ length nm = 16%nat ∧ k_held s' = [] ∧
    k_mem s' = k_mem s ∧ k_files s' = k_files s ∧ k_initproc s' = k_initproc s.
Proof.
  intros Ep Hlt Hn Ht Hh. assert (Hnp : k_procs s !! np = Some n) by (rewrite Ep; by rewrite list_lookup_insert_eq).
  destruct (name_child_ok np n t s Hnp Hn Ht) as (nm & E & Hnm). rewrite (bind_ok _ _ _ _ _ E). clear E.
  set (s1 := set_procs _ s). assert (Es1 : k_procs s1 = <[np := set_name nm n]> ps) by (cbn; by rewrite Ep, list_insert_insert_eq).
  assert (Hn1 : k_procs s1 !! np = Some (set_name nm n)) by (rewrite Es1; by rewrite list_lookup_insert_eq).
  rewrite (bind_ok _ _ _ _ _ (getp_ok _ _ _ Hn1)).
  rewrite (bind_ok _ _ _ _ _ (lock_ok plock s1 ltac:(cbn; rewrite Hh; set_solver))).
  unfold setp. rewrite bind_modify. rewrite (unlock_bind plock []) by (cbn; rewrite ?Hh; done || set_solver).
  exists nm. eexists. split; [done|]. split_and!; try done. change (alter (set_state RUNNABLE) np (k_procs s1) = <[np := set_state RUNNABLE (set_name nm n)]> ps).
  by rewrite (alter_as_insert _ _ _ _ Hn1), Es1, list_insert_insert_eq.
Qed.

(** [fork] after [copyuvm] gave the address space [pg]: the process is set up and can run. *)
Lemma fork_rest cur np c n v pg l m m2 l2 (s : K) :
  mem_ok (k_procs s) m l → nascent (k_procs s) m l np v → k_procs s !! cur = Some c → used c = true → cur ≠ np →
  k_procs s !! np = Some n → p_state n = EMBRYO → p_kstack n = v → p_tf n = v + KSTACKSIZE - 76 →
  length (p_name n) = 16%nat → length (p_name c) = 16%nat → length (p_ofile c) = NOFILE → live (p_state c) = true →
  refs (k_procs s) (k_files s).1 → k_held s = [] → pg ≠ 0 →
  beside m l pg m2 l2 (upto (pages (p_sz c))) →
  ∃ r s', (setp np (set_sz (p_sz c)) ;;
    setp np (set_parent (ptr cur)) ;;
    n ← getp np;
    inmem (copy_frame (p_tf n) (p_tf c)) ;;
    inmem (kstore (p_tf n + 28) 0) ;;
    fs ← fork_files (p_ofile c) (p_ofile n);
    setp np (set_ofile fs) ;;
    cwd ← infiles (fr_idup (p_cwd c));
    setp np (set_cwd cwd) ;;
    name_proc np (p_name c) ;;
    n ← getp np;
    lock plock ;;
    setp np (set_state RUNNABLE) ;;
    unlock plock ;;
    mret (p_pid n)) (set_procs (<[np := set_pgdir pg n]> (k_procs s)) (set_mem m2 s)) = Ok r s' ∧ does NPROC s s' ∧ k_held s' = [].
Proof.
  intros Hm Hna Hc Hu Hne Hn Hst Hk Htf Hnn Hnc Hoc Hlc Hrf Hh Hpg B.
  assert (Hlt : (np < length (k_procs s))%nat) by (by eapply lookup_lt_Some).
  set (n1 := set_parent (ptr cur) (set_sz (p_sz c) (set_pgdir pg n))).
  set (s1 := set_procs (<[np := n1]> (k_procs s)) (set_mem m2 s)).
  assert (E1 : ∀ A (k : cm K A), (setp np (set_sz (p_sz c)) ;; setp np (set_parent (ptr cur)) ;; k)
    (set_procs (<[np := set_pgdir pg n]> (k_procs s)) (set_mem m2 s)) = k s1).
  { intros A k. unfold setp. rewrite !bind_modify. cbn -[alter].
    rewrite alter_alter. erewrite alter_as_insert by (by rewrite list_lookup_insert_eq). by rewrite list_insert_insert_eq. }
  rewrite E1. assert (Hn1 : k_procs s1 !! np = Some n1) by (cbn; by rewrite list_lookup_insert_eq).
  rewrite (bind_ok _ _ _ _ _ (getp_ok _ _ _ Hn1)).
  destruct (frame_scribbles v c m l m2) as (m3 & m4 & E3 & E4 & Hsc);
    [rewrite (bs_end _ _ _ _ _ _ B); apply Hna|apply (mo_proc _ _ _ Hm cur c Hc Hu)|].
  assert (Etf : p_tf n1 = v + KSTACKSIZE - 76) by done. rewrite Etf.
  rewrite (inmem_bind _ _ s1 _ _ E3). erewrite inmem_bind by exact E4.
  destruct Hrf as [Hfr Hsl]. pose proof (Hsl np n Hn) as Hrn. pose proof (Hsl cur c Hc) as Hrc.
  assert (Hln : live (p_state n) = false) by (by rewrite Hst).
  assert (Hon : p_ofile n1 = replicate (length (p_ofile c)) 0).
  { unfold has_refs in Hrn. rewrite Hln in Hrn. rewrite Hoc. by destruct Hrn. }
  assert (Hcc : p_cwd c ≠ 0) by (unfold has_refs in Hrc; by rewrite Hlc in Hrc). rewrite Hon.
  destruct (fork_files_ok (p_ofile c) (set_mem m4 (set_mem m3 s1)) _ _ Hfr) as (g & E5 & Hr5).
  { intros f Hf. by apply (join_elem (λ p, nz (p_ofile p)) _ cur c). }
  rewrite (bind_ok _ _ _ _ _ E5). clear E5.
  unfold setp. rewrite bind_modify. destruct (fro_idup (p_cwd c) _ _ g Hr5) as (g' & E6 & Hr6).
  { apply (join_elem (λ p, nz [p_cwd p]) _ cur c); [done|]. unfold nz. rewrite filter_cons_True by done. left. }
  change (fr_idup (p_cwd c)) with (logged (fr_idup (p_cwd c))) at 1. erewrite logged_bind by exact E6. rewrite bind_modify.
  set (n2 := set_cwd (p_cwd c) (set_ofile (p_ofile c) n1)). set (s5 := set_procs _ _).
  assert (Es5 : k_procs s5 = <[np := n2]> (k_procs s)).
  { unfold s5. cbn -[alter]. rewrite alter_alter. erewrite alter_as_insert by (by rewrite list_lookup_insert_eq).
    by rewrite list_insert_insert_eq. }
  destruct (fork_ready np n2 (p_name c) (k_procs s) s5 Es5 Hlt) as (nm & s6 & E & Ep & Hnm & Eh & Em & Ef & Ei); [done..|].
  exists (p_pid n2), s6. split_and!; [exact E| |done].
  eapply (does_slot np n (set_state RUNNABLE (set_name nm n2)) m4 l2); try done.
  - unfold used. by rewrite Hst.
  - cbn. change (p_ofile n1) with (p_ofile n) in Hon. by rewrite Hon, length_replicate.
  - by rewrite Hnn.
  - by rewrite Ef.
  - eapply (fork_done (k_procs s) m l cur np c v); try done.
  - intros _. rewrite Ef. by eapply (refs_fork _ np n _ c (k_files s).1).
Qed.

Lemma fork_into_does init cur np n l s :
  acts init cur [] s → k_procs s !! np = Some n → p_state n = EMBRYO → p_tf n = p_kstack n + KSTACKSIZE - 76 →
  mem_ok (k_procs s) (k_mem s) l → nascent (k_procs s) (k_mem s) l np (p_kstack n) →
  ∃ r s', fork_into ptable plock data cur np s = Ok r s' ∧ does NPROC s s' ∧ k_held s' = [].
Proof.
  intros [W Hh (c & Hc & Hr)] Hn Hst Htf Hm Hna. assert (Hu : used c = true) by (unfold used; by rewrite Hr).
  assert (Hne : cur ≠ np) by (intros ->; congruence). unfold fork_into. rewrite (bind_ok _ _ _ _ _ (getp_ok _ _ _ Hc)).
  destruct (fork_copies (k_procs s) (k_mem s) l cur c Hm Hc Hu data Hdata Hrange) as (pg & m2 & l2 & E2 & Hpg).
  rewrite (inmem_bind _ _ _ _ _ E2), setp_bind. cbn [k_procs set_mem].
  rewrite (alter_as_insert _ _ _ _ Hn). destruct Hpg as [[Hpg B]|[-> R]].
  - rewrite (proj2 (Z.eqb_neq pg 0)) by done.
    eapply (fork_rest cur np c n (p_kstack n) pg l (k_mem s) m2 l2 s); try done; first [by eapply W|by rewrite Hr].
  - cbn [Z.eqb]. destruct (fork_undone (k_procs s) (k_mem s) l np (p_kstack n) Hm Hna m2 l2
      (set_state UNUSED (set_kstack 0 (set_pgdir 0 n))) R eq_refl) as (m3 & E3 & Hm3).
    set (s1 := set_procs _ _). assert (Hlt : (np < length (k_procs s))%nat) by (by eapply lookup_lt_Some).
    assert (Hn1 : k_procs s1 !! np = Some (set_pgdir 0 n)) by (cbn; by rewrite list_lookup_insert_eq).
    rewrite (bind_ok _ _ _ _ _ (getp_ok _ _ _ Hn1)). change (p_kstack (set_pgdir 0 n)) with (p_kstack n).
    rewrite (inmem_bind _ _ s1 _ _ E3). unfold setp. rewrite !bind_modify. do 2 eexists. split; [done|]. split; [|done].
    apply (does_slot np n (set_state UNUSED (set_kstack 0 (set_pgdir 0 n))) m3 (p_kstack n :: l2)); try done.
    + unfold used. by rewrite Hst.
    + change (alter (set_state UNUSED) np (alter (set_kstack 0) np (k_procs s1)) =
        <[np := set_state UNUSED (set_kstack 0 (set_pgdir 0 n))]> (k_procs s)).
      rewrite alter_alter, (alter_as_insert _ _ _ _ Hn1). cbn. by rewrite list_insert_insert_eq.
    + apply refs_kept with n; [done|]. by repeat split; cbn; rewrite ?Hst.
Qed.

Lemma fork_does init i s :
  acts init i [] s →
  ∃ r s', fork ptable plock forkret_addr trapret_addr data i s = Ok r s' ∧ does NPROC s s' ∧ k_held s' = [].
Proof.
  intros Ha. unfold fork. destruct (alloc_does init i s Ha) as (r & s1 & E1 & D1 & Hh1 & Hr).
  rewrite (bind_ok _ _ _ _ _ E1). destruct r as [np|]; [|by exists (-1), s1].
  destruct Hr as (n & l & Hn & Hst & Htf & Hm & Hna).
  destruct (fork_into_does init i np n l s1) as (r & s2 & E2 & D2 & Hh2); try done; [by eapply acts_does|].
  exists r, s2. split_and!; [done|by eapply does_trans|done].
Qed.

(** ** [wait] *)

(** A call that may give up the CPU: process [i] then does not run, and the table lock is held. *)
Definition parks (i : nat) (s s' : K) : Prop :=
  does i s s' ∧ k_held s' = [plock] ∧ (∀ p, k_procs s' !! i = Some p → p_state p ≠ RUNNING).
Definition goes (i : nat) (s : K) (r : after Z) (s' : K) : Prop :=
  match r with Ret _ => does NPROC s s' ∧ k_held s' = [] | Switch => parks i s s' end.

(** Process [i] stops running. *)
Lemma parks_alter i c f s :
  k_procs s !! i = Some c → p_state c = RUNNING → k_held s = [plock] →
  p_state (f c) ≠ RUNNING → p_name (f c) = p_name c → same_mem c (f c) → same_refs c (f c) →
  parks i s (set_procs (alter f i (k_procs s)) s).
Proof.
  intros Hc Hr Hh Hs Hn Hm Hrf. pose proof Hrf as (Ho & _). split_and!; [|done|].
  - apply does_alter. intros p Hp. simplify_eq. split_and!; [split; congruence| |done].
    intros _. split; [unfold used; by rewrite Hr|done].
  - intros p. cbn. rewrite list_lookup_alter_eq, Hc. by intros [= <-].
Qed.

Lemma wait_scan_goes init i s :
  acts init i [plock] s → ∃ r s', wait_scan ptable plock i s = Ok r s' ∧ goes i s r s'.
Proof.
  intros [W Hh (c & Hc & Hr)]. pose proof (wait_scan_ok ptable plock Hptable i c s Hh Hc Hplock) as Hw.
  destruct (list_find _ _) as [[k z]|] eqn:Ef.
  - apply list_find_Some in Ef as (Hz & [_ Hzs] & _). destruct W as [Hl Hi [l Hm] _ Hsl].
    assert (Hu : used z = true) by (unfold used; by rewrite Hzs).
    destruct (mem_ok_reap _ _ _ k z Hm Hz Hu) as (m1 & m2 & l2 & E1 & E2 & Hm2). rewrite (Hw m1 m2 E1 E2).
    do 2 eexists. split; [done|]. split; [|done]. split; [|done|done| |].
    + eapply tab_insert; [exact Hz|]. split; try done; cbn; [by rewrite length_insert|by rewrite Hzs|by rewrite Hzs].
    + intros _ _. by exists l2.
    + apply refs_kept with z; [done|]. by repeat split; cbn; rewrite ?Hzs.
  - destruct (_ && _) eqn:Eb; rewrite Hw; do 2 eexists; (split; [done|]).
    + rewrite <- (alter_as_insert (λ c, set_state SLEEPING (set_chan (ptr i) c)) i c) by done. apply (parks_alter i c); try done; by repeat split; cbn; rewrite ?Hr.
    + split; [by apply does_aside|done].
Qed.

Lemma wait_goes init i s : acts init i [] s → ∃ r s', wait ptable plock i s = Ok r s' ∧ goes i s r s'.
Proof.
  intros Ha. pose proof Ha as [_ Hh _]. unfold wait.
  rewrite (bind_ok _ _ _ _ _ (lock_ok plock s ltac:(rewrite Hh; set_solver))), Hh.
  assert (D1 : does NPROC s (set_held [plock] s)) by (by apply does_aside).
  assert (D2 : does i s (set_held [plock] s)) by (by apply does_aside).
  destruct (wait_scan_goes init i (set_held [plock] s)) as (r & s' & E & Hg); [by eapply acts_does|].
  exists r, s'. split; [done|]. destruct r; destruct Hg as (D & Hg); (split; [by eapply does_trans|done]).
Qed.

Lemma call_goes init i c s : acts init i [] s → call_ok c → ∃ r s', run_call i c s = Ok r s' ∧ goes i s r s'.
Proof.
  intros Ha Hc. pose proof Ha as [_ Hh (p & Hp & _)]. destruct c as [chan|pid| |f|]; cbn [run_call].
  - destruct (wakeup_does NPROC chan s Hh) as (s' & E & D). rewrite (bind_ok _ _ _ _ _ E). by exists (Ret 0), s'.
  - destruct (kill_does NPROC pid s Hh) as (r & s' & E & D). rewrite (bind_ok _ _ _ _ _ E). by exists (Ret r), s'.
  - destruct (fork_does init i s Ha) as (r & s' & E & D). rewrite (bind_ok _ _ _ _ _ E). by exists (Ret r), s'.
  - rewrite (bind_ok _ _ _ _ _ (getp_ok _ _ _ Hp)). destruct (Hc (p_sz p)) as [H1 H2].
    destruct (sbrk_does init i p (f (p_sz p)) s Ha Hp H1 H2) as (r & s' & E & D). rewrite (bind_ok _ _ _ _ _ E). by exists (Ret r), s'.
  - by eapply wait_goes.
Qed.

Lemma resume_goes init i r s :
  acts init i [plock] s → (∀ lk, r = RSleep lk → lk ≠ plock) → ∃ a s', run_resume i r s = Ok a s' ∧ goes i s a s'.
Proof.
  intros Ha Hr. pose proof Ha as [_ Hh _]. assert (D0 : does NPROC s (set_held [] s)) by (by apply does_aside).
  assert (Hchan : ∀ n, does n s (set_procs (alter (set_chan 0) i (k_procs s)) s)) by (intros n; apply does_alter; intros p Hp; woken).
  destruct r as [| |lk|]; cbn [run_resume].
  - exists (Ret 0), (set_held [] s). split; [|done]. unfold forkret. unfold mbind at 1, cm_bind at 1.
    by rewrite (unlock_bind plock []) by (done || set_solver).
  - exists (Ret 0), (set_held [] s). split; [|done]. unfold yield_resume. by rewrite (unlock_bind plock []) by (done || set_solver).
  - specialize (Hr lk eq_refl). unfold sleep_resume. rewrite (proj2 (Z.eqb_neq lk plock)) by done. cbn [negb].
    unfold setp. unfold mbind at 1, cm_bind at 1. rewrite bind_modify. set (s1 := set_procs _ s).
    rewrite (unlock_bind plock []) by (done || set_solver).
    rewrite (lock_ok lk (set_held [] s1)) by set_solver.
    rewrite (unlock_bind lk []) by (done || set_solver). exists (Ret 0), (set_held [] s1). split; [done|]. split; [|done].
    eapply does_trans; [apply (Hchan NPROC)|]. by apply does_aside.
  - unfold wait_resume, sleep_resume. rewrite Z.eqb_refl. cbn [negb]. unfold setp. unfold mbind at 1, cm_bind at 1.
    rewrite bind_modify. set (s1 := set_procs _ s).
    destruct (wait_scan_goes init i s1) as (a & s' & E & Hg); [by eapply acts_does|]. exists a, s'. split; [done|].
    destruct a; destruct Hg as (D & Hg); (split; [|done]); (eapply does_trans; [apply Hchan|done]).
Qed.

(** ** The end of a slice *)

(** A file or the directory of process [i] is given back. *)
Lemma counted_close ps i p p' f g :
  ps !! i = Some p → nz (p_ofile p) ≡ₚ f :: nz (p_ofile p') → p_cwd p' = p_cwd p →
  counted ps g → fro false (f :: open_files (<[i := p']> ps)) (cwds (<[i := p']> ps)) g.
Proof.
  intros Hp Ho Hc Hr. eapply fro_perm; [| |exact Hr].
  - pose proof (join_insert (λ p, nz (p_ofile p)) ps i p p' Hp) as Hj. cbn beta in Hj. rewrite Ho in Hj.
    apply (Permutation_app_inv_l (nz (p_ofile p'))). unfold open_files. rewrite <- Hj. solve_Permutation.
  - pose proof (join_insert (λ p, nz [p_cwd p]) ps i p p' Hp) as Hj. cbn beta in Hj. rewrite Hc in Hj.
    apply (Permutation_app_inv_l (nz [p_cwd p])). unfold cwds. rewrite <- Hj. solve_Permutation.
Qed.

Lemma counted_leave ps i p p' :
  ps !! i = Some p → p_ofile p' = p_ofile p → p_cwd p ≠ 0 → p_cwd p' = 0 →
  open_files ps ≡ₚ open_files (<[i := p']> ps) ∧ cwds ps ≡ₚ p_cwd p :: cwds (<[i := p']> ps).
Proof.
  intros Hp Ho Hc Hc'. split.
  - pose proof (join_insert (λ p, nz (p_ofile p)) ps i p p' Hp) as Hj. cbn beta in Hj. rewrite Ho in Hj.
    apply (Permutation_app_inv_l (nz (p_ofile p))). unfold open_files. rewrite <- Hj. solve_Permutation.
  - pose proof (join_insert (λ p, nz [p_cwd p]) ps i p p' Hp) as Hj. cbn beta in Hj. rewrite Hc' in Hj.
    unfold nz at 2 3 in Hj. rewrite filter_cons_True in Hj by done. change (filter (λ f, f ≠ 0) [0]) with ([] : list Z) in Hj.
    cbn [app] in Hj. unfold cwds. rewrite <- Hj. change (filter (λ f, f ≠ 0) []) with ([] : list Z). solve_Permutation.
Qed.

Lemma nz_insert fs fd f : fs !! fd = Some f → f ≠ 0 → nz fs ≡ₚ f :: nz (<[fd := 0]> fs).
Proof.
  intros Hf Hn. assert (Hlt : (fd < length fs)%nat) by (by eapply lookup_lt_Some). rewrite insert_take_drop by done.
  rewrite <- (take_drop_middle fs fd f Hf) at 1. unfold nz. rewrite !filter_app, filter_cons_True, filter_cons_False by (done || lia).
  solve_Permutation.
Qed.

(** The files from [fd] on are closed. *)
Lemma exit_files_ok i n : ∀ fd p s,
  (fd + n = NOFILE)%nat → k_procs s !! i = Some p → length (p_ofile p) = NOFILE → counted (k_procs s) (k_files s).1 →
  ∃ g p', exit_files i fd n s = Ok tt (set_files (g, (k_files s).2) (set_procs (<[i := p']> (k_procs s)) s)) ∧
    p' = set_ofile (take fd (p_ofile p) ++ replicate n 0) p ∧ counted (<[i := p']> (k_procs s)) g.
Proof.
  induction n as [|n IH]; intros fd p s Hfd Hp Hl Hr; cbn [exit_files].
  { exists (k_files s).1, p. rewrite list_insert_id by done. split_and!; [by destruct s as [? [] ? ? ? ? ? ? ?]| |done].
    rewrite take_ge, app_nil_r by lia. by destruct p. }
  rewrite (bind_ok _ _ _ _ _ (getp_ok _ _ _ Hp)). destruct (lookup_lt_is_Some_2 (p_ofile p) fd) as [f Hf]; [lia|]. rewrite Hf.
  set (p1 := set_ofile (<[fd := 0]> (p_ofile p)) p).
  assert (H1 : ∃ g1, (if negb (f =? 0) then infiles (fr_fileclose f) ;; setp i (λ p, set_ofile (<[fd := 0]> (p_ofile p)) p)
    else mret tt) s = Ok tt (set_files (g1, (k_files s).2) (set_procs (<[i := p1]> (k_procs s)) s)) ∧ counted (<[i := p1]> (k_procs s)) g1).
  { case_b.
    - destruct (fro_fileclose f _ _ _ (counted_close _ i p p1 f _ Hp (nz_insert _ fd f Hf ltac:(done)) eq_refl Hr)) as (g1 & Ec & Hr1).
      change (fr_fileclose f) with (logged (fr_fileclose f)). rewrite (logged_bind _ _ _ _ _ Ec). exists g1. split; [|done].
      unfold setp, modify. cbn. by rewrite (alter_as_insert _ _ _ _ Hp).
    - subst f. assert (p1 = p) as -> by (unfold p1; rewrite list_insert_id by done; by destruct p).
      exists (k_files s).1. rewrite list_insert_id by done. split; [|done]. by destruct s as [? [] ? ? ? ? ? ? ?]. }
  destruct H1 as (g1 & E1 & Hr1). rewrite (bind_ok _ _ _ _ _ E1). assert (Hlt : (i < length (k_procs s))%nat) by (by eapply lookup_lt_Some).
  destruct (IH (S fd) p1 (set_files (g1, (k_files s).2) (set_procs (<[i := p1]> (k_procs s)) s))) as (g & p' & E & -> & Hr');
    [lia|cbn; by rewrite list_lookup_insert_eq|cbn; by rewrite length_insert|done|].
  cbn in E, Hr'. rewrite list_insert_insert_eq in E, Hr'. eexists g, _. split; [exact E|]. split; [|done].
  assert (Et : take (S fd) (<[fd := 0]> (p_ofile p)) = take fd (p_ofile p) ++ [0]).
  { rewrite (take_S_r _ _ 0) by (apply list_lookup_insert_eq; lia). by rewrite take_insert_ge by lia. }
  change (p_ofile p1) with (<[fd := 0]> (p_ofile p)). by rewrite Et, <- app_assoc.
Qed.

Lemma exit_close_ok init i c s :
  acts init i [] s → k_procs s !! i = Some c →
  let c' := set_cwd 0 (set_ofile (replicate NOFILE 0) c) in
  ∃ g, exit_close i s = Ok tt (set_files (g, (k_files s).2) (set_procs (<[i := c']> (k_procs s)) s)) ∧
    counted (<[i := c']> (k_procs s)) g.
Proof.
  intros [W Hh (c1 & Hc1 & Hrun)] Hc c'. rewrite Hc in Hc1. injection Hc1 as <-. destruct (wo_refs _ _ W) as [Hr Hsl].
  pose proof (Hsl i c Hc) as Hcw. unfold has_refs in Hcw. rewrite Hrun in Hcw. cbn [live] in Hcw.
  assert (Hlt : (i < length (k_procs s))%nat) by (by eapply lookup_lt_Some). unfold exit_close.
  destruct (exit_files_ok i NOFILE 0 c s eq_refl Hc) as (g1 & c1 & E1 & -> & Hr1); [by apply (wo_slot _ _ W i)|done|].
  rewrite (bind_ok _ _ _ _ _ E1). cbn [take app] in *. set (c1 := set_ofile _ c) in *. set (s1 := set_files _ _).
  assert (Hc1 : k_procs s1 !! i = Some c1) by (cbn; by rewrite list_lookup_insert_eq).
  destruct (counted_leave (k_procs s1) i c1 c' Hc1) as [Po Pc]; [done..|].
  destruct (fro_begin_op _ _ g1 Hr1) as (g2 & E2 & Hr2). change fr_begin_op with (logged fr_begin_op).
  rewrite (logged_bind _ _ s1 _ _ E2). set (s2 := set_files _ s1). rewrite (bind_ok _ _ _ _ _ (getp_ok i c1 s2 Hc1)).
  apply (fro_perm _ _ _ _ _ _ Po Pc) in Hr2. destruct (fro_iput _ _ _ _ Hr2) as (g3 & E3 & Hr3).
  change (fr_iput (p_cwd c1)) with (logged (fr_iput (p_cwd c1))). rewrite (logged_bind _ _ s2 _ _ E3).
  destruct (fro_end_op _ _ _ Hr3) as (g4 & E4 & Hr4). change fr_end_op with (logged fr_end_op).
  erewrite logged_bind by exact E4. change (k_procs s1) with (<[i := c1]> (k_procs s)) in Hr4. rewrite list_insert_insert_eq in Hr4.
  exists g4. split; [|exact Hr4].
  transitivity (Ok tt (set_files (g4, (k_files s).2) (set_procs (alter (set_cwd 0) i (k_procs s1)) s))); [reflexivity|].
  rewrite (alter_as_insert _ _ _ _ Hc1). change (k_procs s1) with (<[i := c1]> (k_procs s)). by rewrite list_insert_insert_eq.
Qed.

Lemma wake_state chan p : p_state (wake chan p) = p_state p ∨ p_state p = SLEEPING ∧ p_state (wake chan p) = RUNNABLE.
Proof. destruct (wake_cases chan p) as [[-> _]|(-> & ? & _)]; [by left|by right]. Qed.

Lemma left_state w init cur par q :
  let q' := wakeb ptable w init (adopt ptable init cur true (wake par q)) in
  p_state q' = p_state q ∨ p_state q = SLEEPING ∧ p_state q' = RUNNABLE.
Proof.
  assert (Ha : ∀ p, p_state (adopt ptable init cur true p) = p_state p) by (intros p; unfold adopt; by case_b).
  cbn zeta. unfold wakeb. destruct w; [|rewrite Ha; apply wake_state].
  destruct (wake_state (ptr init) (adopt ptable init cur true (wake par q))) as [E1|[E1 E2]], (wake_state par q) as [E3|[E3 E4]];
    rewrite Ha in *; [left|right|right|]; split_and?; congruence.
Qed.

Lemma left_same w init cur par q :
  let q' := wakeb ptable w init (adopt ptable init cur true (wake par q)) in
  p_ofile q' = p_ofile q ∧ p_cwd q' = p_cwd q ∧ p_name q' = p_name q ∧ same_mem q q'.
Proof. intros q'. unfold q', wakeb, adopt, wake. destruct w; repeat case_b; by repeat split. Qed.

Lemma exit_parks init i s : acts init i [] s → i ≠ init → ∃ s', exit ptable plock i s = Ok Switch s' ∧ parks i s s'.
Proof.
  intros Ha Hne. pose proof Ha as [W Hh (c & Hc & Hcs)]. pose proof W as [Hl Hi _ [_ Hsl] Hw].
  unfold exit. rewrite bind_gets, Hi, (proj2 (Z.eqb_neq (ptr i) (ptr init))) by (intros E%ptr_inj; done).
  destruct (exit_close_ok init i c s Ha Hc) as (g & E1 & Hr1). rewrite (bind_ok _ _ _ _ _ E1). clear E1.
  set (c1 := set_cwd 0 _) in *. set (s1 := set_files _ _). assert (Hlt : (i < length (k_procs s))%nat) by (by eapply lookup_lt_Some).
  assert (Hc1 : k_procs s1 !! i = Some c1) by (cbn; by rewrite list_lookup_insert_eq).
  assert (Hl1 : length (k_procs s1) = NPROC) by (cbn; by rewrite length_insert).
  destruct (exit_leave_ok ptable plock Hptable init i c1 s1 Hh Hl1 Hi Hc1) as (w & s2 & -> & Hh2 & Hm2 & Hf2 & Hi2 & Hp2).
  assert (Hlk : ∀ j, k_procs s2 !! j = (λ q, (if decide (j = i) then set_state ZOMBIE else id)
    (wakeb ptable w init (adopt ptable init i true (wake (p_parent c1) q)))) <$> k_procs s1 !! j)
    by (intros j; rewrite Hp2; by apply left_table_lookup).
  assert (Hslot : ∀ j q2, k_procs s2 !! j = Some q2 → ∃ q, k_procs s !! j = Some q ∧ slot i j q q2 ∧
    (used q2 = true → used q = true ∧ same_mem q q2) ∧ has_refs q2).
  { intros j q2. rewrite Hlk, fmap_Some. intros (q & Hq & ->). pose proof (left_state w init i (p_parent c1) q) as Ls.
    destruct (left_same w init i (p_parent c1) q) as (Ko & Kc & Kn & Km). cbn zeta in *. revert Ls Ko Kc Kn Km. generalize (wakeb ptable w init (adopt ptable init i true (wake (p_parent c1) q))).
    intros q' Ls Ko Kc Kn Km.
    cbn in Hq. apply list_lookup_insert_Some in Hq as [(<- & <- & _)|[Hji Hq]].
    - rewrite decide_True by done. exists c. split_and!; [done| |intros _; split; [unfold used; by rewrite Hcs|exact Km]|].
      + split; cbn; rewrite ?Ko, ?Kn; [|done..]. symmetry. by apply (Hw i).
      + unfold has_refs. cbn. by rewrite Ko, Kc.
    - rewrite decide_False by done. exists q. destruct (slot_wakes i j q _ Ko Kc Kn Km Ls) as (C1 & C2 & C3).
      split_and!; [done|done|done|]. destruct C3 as (R1 & R2 & R3). specialize (Hsl j q Hq). unfold has_refs in *. cbn [id].
      by rewrite R1, R2, R3. }
  exists s2. split; [done|]. split_and!; [|done|rewrite Hlk, Hc1; cbn; rewrite decide_True by done; by intros p [= <-]].
  assert (Hl2 : length (k_procs s2) = length (k_procs s)).
  { rewrite Hp2. unfold left_table, adopted. rewrite length_alter, length_imap, length_fmap. cbn. by rewrite length_insert. }
  split; [split; [done|]|by rewrite Hf2|done| |].
  - intros j q Hq. destruct (lookup_lt_is_Some_2 (k_procs s2) j) as [q2 Hq2]; [rewrite Hl2; by eapply lookup_lt_Some|].
    destruct (Hslot j q2 Hq2) as (q' & Hq' & S & _). simplify_eq. eauto.
  - intros l Hm. exists l. rewrite Hm2. eapply mem_ok_table; [exact Hm|]. intros j q2 Hq2 Hu.
    destruct (Hslot j q2 Hq2) as (q & Hq & _ & H & _). destruct (H Hu). eauto.
  - intros _. rewrite Hf2. split; [|intros j q2 Hq2; by destruct (Hslot j q2 Hq2) as (q & _ & _ & _ & ?)].
    eapply counted_imap; [exact Hlk| |exact Hr1]. intros j q Hq. destruct (left_same w init i (p_parent c1) q) as (Ko & Kc & _). cbn beta. by case_decide.
Qed.

(** The last step of a slice leaves the table lock held and the process stopped. *)
Lemma stop_parks init i e s :
  acts init i [] s → stop_ok init i e → ∃ s', run_stop i e s = Ok tt s' ∧ parks i s s'.
Proof.
  intros Ha He. pose proof Ha as [W Hh (c & Hc & Hcs)]. assert (Hin : plock ∉ k_held s) by (rewrite Hh; set_solver).
  assert (Haside : ∀ f, p_state (f c) ≠ RUNNING → p_name (f c) = p_name c → same_mem c (f c) → same_refs c (f c) →
    parks i s (set_procs (alter f i (k_procs s)) (set_held [plock] s))).
  { intros f H1 H2 H3 H4. destruct (parks_alter i c f (set_held [plock] s) Hc Hcs eq_refl H1 H2 H3 H4) as (D & Hr).
    split; [|done]. eapply does_trans; [|exact D]. by apply does_aside. }
  destruct e as [|chan lk|]; cbn [run_stop].
  - unfold yield. unfold mbind at 1, cm_bind at 1. rewrite (bind_ok _ _ _ _ _ (lock_ok _ _ Hin)), Hh, setp_bind.
    set (s1 := set_procs _ _).
    rewrite (sched_bind plock i (set_state RUNNABLE c)); [|done|cbn; by rewrite list_lookup_alter_eq, Hc|done].
    exists s1. split; [done|]. apply Haside; try done; by repeat split; cbn; rewrite ?Hcs.
  - destruct He as [Hlk Hlk0].
    rewrite (bind_ok _ _ _ _ _ (lock_ok lk s ltac:(rewrite Hh; set_solver))), Hh. unfold sleep.
    rewrite (proj2 (Z.eqb_neq lk 0)), (proj2 (Z.eqb_neq lk plock)) by done. cbn [negb].
    set (s1 := set_held [lk] s). unfold mbind at 1, cm_bind at 1. unfold mbind at 1, cm_bind at 1.
    rewrite (bind_ok _ _ _ _ _ (lock_ok plock s1 ltac:(set_solver))).
    assert (Eu : unlock lk (set_held (plock :: k_held s1) s1) = Ok tt (set_held [plock] s)).
    { unfold unlock. rewrite bool_decide_eq_true_2 by (cbn; set_solver). cbn.
      repeat case_decide; try done; set_solver. }
    rewrite Eu. unfold setp. rewrite !bind_modify. cbn -[alter sched]. rewrite alter_alter. set (s2 := set_procs _ _).
    rewrite (sched_bind plock i (set_state SLEEPING (set_chan chan c))); [|done|cbn; by rewrite list_lookup_alter_eq, Hc|done].
    exists s2. split; [done|]. apply (Haside (λ c, set_state SLEEPING (set_chan chan c))); try done; by repeat split; cbn; rewrite ?Hcs.
  - destruct (exit_parks init i s Ha He) as (s2 & E2 & P2). rewrite (bind_ok _ _ _ _ _ E2). by exists s2.
Qed.

Lemma parks_after init i h s s1 s2 : acts init i h s → does NPROC s s1 → parks i s1 s2 → parks i s s2.
Proof.
  intros [[Hl _ _ _] _ _] D (D2 & Hp). split; [|done]. eapply does_trans; [|exact D2]. apply (does_weaken i NPROC); [|done].
  by rewrite Hl.
Qed.

Lemma code_parks init i c : code_ok init i c → ∀ s, acts init i [] s → ∃ s', run_code i c s = Ok tt s' ∧ parks i s s'.
Proof.
  induction c as [e|c k IH]; cbn [code_ok run_code]; intros Hok s Ha; [by eapply stop_parks|]. destruct Hok as [Hc Hk].
  destruct (call_goes init i c s Ha Hc) as (r & s1 & E1 & Hg). rewrite (bind_ok _ _ _ _ _ E1). destruct r as [a|]; [|by exists s1].
  destruct Hg as [D1 Hh1]. destruct (IH a (Hk a) s1) as (s2 & E2 & P2); [by eapply acts_does|].
  exists s2. split; [done|]. by eapply parks_after.
Qed.

Lemma slice_parks init prog i s :
  slice_ok init i (prog i) → acts init i [plock] s →
  ∃ s', run_slice prog i s = Ok tt s' ∧ parks i (set_files ((k_files s).1, (k_files s).2 ++ [i]) s) s'.
Proof.
  intros [Hr He] Ha. unfold run_slice. rewrite bind_modify. set (s1 := set_files _ s).
  assert (Ha1 : acts init i [plock] s1) by (destruct Ha as [[] ? ?]; by split).
  destruct (resume_goes init i _ s1 Ha1 Hr) as (a & s2 & E2 & Hg). rewrite (bind_ok _ _ _ _ _ E2).
  destruct a as [a|]; [|by exists s2]. destruct Hg as [D2 Hh2].
  destruct (code_parks init i _ He s2) as (s3 & E3 & P3); [by eapply acts_does|]. exists s3. split; [done|]. by eapply parks_after.
Qed.

(** ** The scheduler *)

(** The state of the scheduler between two processes. *)
Record ready (init : nat) (s : K) : Prop := {
  rd_world : world init s;
  rd_held : k_held s = [plock];
  rd_stop j p : k_procs s !! j = Some p → p_state p ≠ RUNNING
}.

(** One process is run. *)
Lemma scheduler_runs init prog i p s :
  slice_ok init i (prog i) → ready init s → k_procs s !! i = Some p → p_state p = RUNNABLE →
  ∃ s', (modify (λ s, set_cpu (ptr i) (k_cr3 s) (k_esp0 s) s) ;; switchuvm i ;; setp i (set_state RUNNING) ;;
         run_slice prog i ;; switchkvm kpgdir ;; modify (λ s, set_cpu 0 (k_cr3 s) (k_esp0 s) s)) s = Ok tt s' ∧
    ready init s' ∧ (k_files s').2 = (k_files s).2 ++ [i] ∧ tab i (k_procs s) (k_procs s').
Proof.
  intros Hprog [W Hh Hst] Hp Hs. destruct (wo_mem _ _ W) as [l Hm]. assert (Hu : used p = true) by (unfold used; by rewrite Hs).
  destruct (proc_mem_nonzero _ _ _ (mo_proc _ _ _ Hm i p Hp Hu)) as [Hks Hpg].
  set (s1 := set_cpu (ptr i) (V2P (p_pgdir p)) (p_kstack p + KSTACKSIZE) s).
  assert (E1 : switchuvm i (set_cpu (ptr i) (k_cr3 s) (k_esp0 s) s) = Ok tt s1).
  { unfold switchuvm. rewrite (bind_ok _ _ _ _ _ (getp_ok i p (set_cpu (ptr i) (k_cr3 s) (k_esp0 s) s) Hp)).
    by rewrite (proj2 (Z.eqb_neq _ _) Hks), (proj2 (Z.eqb_neq _ _) Hpg). }
  set (s2 := set_procs (alter (set_state RUNNING) i (k_procs s)) s1).
  assert (D2 : does i s s2).
  { apply (does_trans i s s1); [by apply does_aside|]. apply (does_alter i i (set_state RUNNING) s1). intros q Hq.
    change (k_procs s !! i = Some q) in Hq. simplify_eq. split_and!; [by split|intros _; split; [done|by repeat split]|by repeat split; cbn; rewrite ?Hs]. }
  assert (Hp2 : k_procs s2 !! i = Some (set_state RUNNING p)) by (cbn; by rewrite list_lookup_alter_eq, Hp).
  assert (Ha2 : acts init i [plock] s2) by (split; [by eapply world_does|done|by eexists]).
  destruct (slice_parks init prog i s2 Hprog Ha2) as (s3 & E3 & D3 & Hh3 & Hn3).
  assert (D : does i (set_files ((k_files s).1, (k_files s).2 ++ [i]) s) s3).
  { eapply does_trans; [|exact D3]. destruct D2 as [A1 A2 A3 A4 A5]. by split. }
  exists (set_cpu 0 (V2P kpgdir) (k_esp0 s3) s3). split.
  { rewrite bind_modify, (bind_ok _ _ _ _ _ E1), setp_bind. rewrite (bind_ok _ _ _ _ _ E3). unfold switchkvm. by rewrite bind_modify. }
  split; [split|split; [apply (do_log _ _ _ D)|apply D]].
  - assert (W1 : world init (set_files ((k_files s).1, (k_files s).2 ++ [i]) s)) by (destruct W; by split).
    destruct (world_does i init _ _ W1 D). by split.
  - done.
  - intros j q Hq. change (k_procs s3 !! j = Some q) in Hq. destruct (decide (j = i)) as [->|Hne]; [by apply Hn3|].
    destruct (do_tab _ _ _ D) as [Hl T]. destruct (lookup_lt_is_Some_2 (k_procs s) j) as [q0 Hq0].
    { apply lookup_lt_Some in Hq. by rewrite Hl in Hq. }
    destruct (T j q0 Hq0) as (q1 & Hq1 & S). simplify_eq. rewrite <- (so_running _ _ _ _ S Hne). by apply (Hst j).
Qed.

Lemma pass_ok init prog n : ∀ i s,
  (∀ j, slice_ok init j (prog j)) → (i + n = NPROC)%nat → ready init s →
  ∃ s' tr, scheduler_pass ptable kpgdir (run_slice prog) i n s = Ok tt s' ∧ ready init s' ∧
    (k_files s').2 = (k_files s).2 ++ tr ∧ StronglySorted lt tr ∧ Forall (λ j, (i ≤ j < NPROC)%nat) tr ∧
    ∀ j p, (i ≤ j)%nat → k_procs s !! j = Some p → p_state p = RUNNABLE → j ∈ tr.
Proof.
  induction n as [|n IH]; intros i s Hprog Hin Hrd; cbn [scheduler_pass]; pose proof (wo_len _ _ (rd_world _ _ Hrd)) as Hl.
  { exists s, []. split_and!; [done|done|by rewrite app_nil_r|constructor|constructor|].
    intros j p Hij Hp%lookup_lt_Some. lia. }
  destruct (lookup_lt_is_Some_2 (k_procs s) i) as [p Hp]; [lia|]. rewrite (bind_ok _ _ _ _ _ (getp_ok _ _ _ Hp)).
  unfold is_state at 1. case_bool_decide as Hs.
  2: { rewrite bind_ret. destruct (IH (S i) s Hprog ltac:(lia) Hrd) as (s' & tr & E & Hrd' & Ef & Hsort & Hran & Hall).
    exists s', tr. split_and!; try done; [by eapply Forall_impl; [exact Hran|]; cbn; lia|].
    intros j q Hij Hq Hqs. destruct (decide (j = i)) as [->|]; [congruence|]. apply (Hall j q); [lia|done..]. }
  destruct (scheduler_runs init prog i p s (Hprog i) Hrd Hp Hs) as (s4 & Erun & Hrd4 & Ef4 & T4).
  rewrite (bind_ok _ _ _ _ _ Erun).
  destruct (IH (S i) s4 Hprog ltac:(lia) Hrd4) as (s' & tr & E & Hrd' & Ef & Hsort & Hran & Hall).
  exists s', (i :: tr). split_and!; [exact E|done| | | |].
  - rewrite Ef, Ef4. by rewrite <- app_assoc.
  - constructor; [done|]. eapply Forall_impl; [exact Hran|]. cbn. lia.
  - constructor; [lia|]. eapply Forall_impl; [exact Hran|]. cbn. lia.
  - intros j q Hij Hq Hqs. destruct (decide (j = i)) as [->|Hne]; [left|right].
    destruct T4 as [_ T]. destruct (T j q Hq) as (q' & Hq' & S). apply (Hall j q'); [lia|done|by apply (so_ready _ _ _ _ S)].
Qed.

(** C17: the scheduler is fair.  Let every process, when it is run, go on in [forkret], [yield], [sleep] or [wait],
    make any calls of [wakeup], [kill], [fork], [growproc] and [wait], in an order that may depend on their results, and
    give up the CPU in [wait], [yield], [sleep] or [exit] ([init] does not exit, no process gives all of its memory
    back, and the calls on files that [fork] and [exit] make come back when the references they use are held).  Then a round of [scheduler] comes back with no lock held and has run, in the order of the table
    and once each, every process that was ready at its start; and the table, the memory of the processes and their
    references to files are in order for the next round. *)
Theorem scheduler_fair init prog s :
  (∀ j, slice_ok init j (prog j)) → k_held s = [] → ready init (set_held [plock] s) →
  returns (scheduler ptable plock kpgdir (run_slice prog) s) (λ _ s', k_held s' = [] ∧ ready init (set_held [plock] s') ∧ ∃ tr,
    (k_files s').2 = (k_files s).2 ++ tr ∧ StronglySorted lt tr ∧
    ∀ j p, k_procs s !! j = Some p → p_state p = RUNNABLE → j ∈ tr).
Proof.
  intros Hprog Hh Hrd. unfold scheduler.
  rewrite (bind_ok _ _ _ _ _ (lock_ok plock s ltac:(rewrite Hh; set_solver))), Hh.
  destruct (pass_ok init prog NPROC 0 _ Hprog eq_refl Hrd) as (s' & tr & E & Hrd' & Ef & Hsort & _ & Hall).
  apply returns_bind. revert E. generalize (scheduler_pass ptable kpgdir (run_slice prog) 0 NPROC (set_held [plock] s)).
  intros r ->. unfold returns at 1. rewrite (unlock_ok plock [] s' (rd_held _ _ Hrd')) by set_solver. split; [done|].
  split; [by destruct Hrd' as [[] ? ?]; split|].
  exists tr. split_and!; [done|done|]. intros j p Hp Hs. apply (Hall j p); [lia|done..].
Qed.
End fair.

(** ** Three processes *)

Module FairExample.
(** Files that count the references to them, and panic when one is used that is not held. *)
Definition copy_ref (msg : string) (f : Z) (l : list Z) : outcome (list Z) Z := if decide (f ∈ l) then Ok f (f :: l) else Panic msg.
Fixpoint remove_one (f : Z) (l : list Z) : option (list Z) :=
  match l with
  | [] => None
  | x :: l' => if decide (x = f) then Some l' else (x ::.) <$> remove_one f l'
  end.
Definition drop_ref (msg : string) (f : Z) (l : list Z) : outcome (list Z) unit :=
  match remove_one f l with Some l' => Ok tt l' | None => Panic msg end.
Definition on_fst {A} (r : outcome (list Z) A) (g : list Z * list Z) : outcome (list Z * list Z) A :=
  match r with Ok a l => Ok a (l, g.2) | Panic e => Panic e | Ub e => Ub e end.
Definition on_snd {A} (r : outcome (list Z) A) (g : list Z * list Z) : outcome (list Z * list Z) A :=
  match r with Ok a l => Ok a (g.1, l) | Panic e => Panic e | Ub e => Ub e end.

#[local] Instance tallies : FileRefs (list Z * list Z) := {|
  fr_filedup f := λ g, on_fst (copy_ref "filedup" f g.1) g;
  fr_fileclose f := λ g, on_fst (drop_ref "fileclose" f g.1) g;
  fr_idup i := λ g, on_snd (copy_ref "idup" i g.2) g;
  fr_iput i := λ g, on_snd (drop_ref "iput" i g.2) g;
  fr_begin_op := mret tt;
  fr_end_op := mret tt;
  fr_namei _ := mret 1
|}.

Lemma copy_ref_ok msg f l k : k ≡ₚ l → f ∈ k → ∃ l', copy_ref msg f l = Ok f l' ∧ f :: k ≡ₚ l'.
Proof. intros Hk Hf. unfold copy_ref. rewrite decide_True by (by rewrite <- Hk). exists (f :: l). by rewrite Hk. Qed.

Lemma remove_one_ok f l : f ∈ l → ∃ l', remove_one f l = Some l' ∧ l ≡ₚ f :: l'.
Proof.
  induction l as [|x l IH]; [by intros ?%not_elem_of_nil|]. intros Hf. cbn. destruct (decide (x = f)) as [->|Hne]; [by exists l|].
  apply elem_of_cons in Hf as [?|Hf]; [done|]. destruct (IH Hf) as (l' & -> & P). exists (x :: l'). split; [done|]. rewrite P. apply Permutation_swap.
Qed.

Lemma drop_ref_ok msg f l k : f :: k ≡ₚ l → ∃ l', drop_ref msg f l = Ok tt l' ∧ k ≡ₚ l'.
Proof.
  intros Hk. unfold drop_ref. destruct (remove_one_ok f l) as (l' & -> & P); [rewrite <- Hk; left|].
  exists l'. split; [done|]. apply (Permutation_cons_inv (a := f)). by rewrite Hk.
Qed.

#[local] Instance tallies_ok : FileRefsOk (list Z * list Z).
Proof.
  refine {| fro _ fs ns g := fs ≡ₚ g.1 ∧ ns ≡ₚ g.2 |}.
  - intros _ fs fs' ns ns' g H1 H2 [? ?]. split; [by rewrite <- H1|by rewrite <- H2].
  - intros f fs ns g [H1 H2] Hf. destruct (copy_ref_ok "filedup" f g.1 fs H1 Hf) as (l & E & P). exists (l, g.2). cbn. by rewrite E.
  - intros f fs ns g [H1 H2]. destruct (drop_ref_ok "fileclose" f g.1 fs H1) as (l & E & P). exists (l, g.2). cbn. by rewrite E.
  - intros f fs ns g [H1 H2] Hf. destruct (copy_ref_ok "idup" f g.2 ns H2 Hf) as (l & E & P). exists (g.1, l). cbn. by rewrite E.
  - intros f fs ns g [H1 H2]. destruct (drop_ref_ok "iput" f g.2 ns H2) as (l & E & P). exists (g.1, l). cbn. by rewrite E.
  - intros fs ns g H. by exists g.
  - intros fs ns g H. by exists g.
Defined.

(** Pages that are in use, and hold zeros. *)
Definition fe_page (k : Z) : Z := ex_base + 4096 * k.

Lemma fe_page_ok k : 3 ≤ k < 1000 → page (kend ex_kmem) (fe_page k) ∧ V2P (fe_page k) = EXTMEM + 4096 * k ∧ fe_page k ∉ ex_free.
Proof.
  intros Hk. unfold fe_page, ex_base, ex_free, page, V2P, u32, KERNBASE, EXTMEM, PHYSTOP, PGSIZE in *.
  change (kend ex_kmem) with (2 ^ 31 + 1048576). split_and!; try lia; [dlia|rewrite Z.mod_small; lia|].
  rewrite !elem_of_cons, elem_of_nil. unfold ex_base, KERNBASE, EXTMEM. lia.
Qed.

Lemma fe_pde k i : 3 ≤ k < 1000 → 0 ≤ i < 1024 → pde (phys ex_kmem) (fe_page k) i = 0.
Proof.
  intros Hk Hi. unfold pde. destruct (fe_page_ok k Hk) as (_ & -> & _).
  transitivity (ldw (λ _, 0) (EXTMEM + 4096 * k + 4 * i)); [|done].
  apply ldw_ext. intros x Hx. unfold ex_kmem. cbn [phys]. rewrite !stw_other by (unfold EXTMEM in *; lia). done.
Qed.

Lemma fe_tpage k v : 3 ≤ k < 1000 → tpage (phys ex_kmem) (fe_page k) v ↔ v = fe_page k.
Proof. intros Hk. split; [|by left]. intros [?|(i & Hi & Hp & _)]; [done|]. by rewrite fe_pde in Hp. Qed.

Lemma fe_below i : 0 ≤ i < NUSER → below 0 i = false.
Proof. intros Hi. unfold below. apply Z.ltb_ge. change (pages 0) with 0. lia. Qed.

Lemma fe_owned k w : 3 ≤ k < 1000 → owned (fe_page k) ex_kmem (below 0) w ↔ w = fe_page k.
Proof.
  intros Hk. unfold owned. rewrite fe_tpage by done. split; [|by left].
  intros [?|(i & Hi & Hb & _)]; [done|]. by rewrite fe_below in Hb.
Qed.

Lemma fe_uspace k : 3 ≤ k < 1000 → uspace (fe_page k) ex_kmem ex_free (below 0).
Proof.
  intros Hk. destruct (fe_page_ok k Hk) as (Hp & _ & Hf).
  split; [apply ex_kmem_ok| | | | |].
  - split; [done|intros i Hi|intros i j Hi Hj]; by rewrite fe_pde.
  - intros v Hv. rewrite fe_tpage by done. by intros ->.
  - intros i Hi Hb. by rewrite fe_below in Hb.
  - intros i j Hi _ Hb. by rewrite fe_below in Hb.
  - intros i Hi _. destruct (user_va i Hi) as [Hva _]. destruct (index_range _ Hva). unfold entry, xlate. by rewrite fe_pde.
Qed.

(** The process of slot [j], with a page table and a stack of its own. *)
Definition fe_proc (j : Z) (st : procstate) (parent chan : Z) : proc :=
  Proc 0 (fe_page (3 + 2 * j)) (fe_page (4 + 2 * j)) st (j + 1) parent (fe_page (4 + 2 * j) + KSTACKSIZE - 76) 0 chan 0
    (5 :: replicate 15 0) 1 (replicate 16 0).

(** [init]; a process that is ready; and its parent, asleep in [wait]. *)
Definition fe_procs : list proc :=
  fe_proc 0 RUNNABLE 0 0 :: fe_proc 1 RUNNABLE 1248 0 :: fe_proc 2 SLEEPING 1000 1248 :: replicate 61 ex_unused.
Definition fe_kern : kern (list Z * list Z * list nat) := Kern ex_kmem ([5; 5; 5], [1; 1; 1], []) fe_procs 4 1000 [] 0 0 0.

Lemma fe_lookup i q : fe_procs !! i = Some q →
  (∃ j st a b, i = Z.to_nat j ∧ 0 ≤ j < 3 ∧ (st = RUNNABLE ∨ st = SLEEPING) ∧ q = fe_proc j st a b) ∨ q = ex_unused.
Proof.
  destruct i as [|[|[|i]]]; [intros [= <-]; left; do 4 eexists; (split_and!; [| | | |reflexivity]); [reflexivity|lia|lia|first [by left|by right]]..|].
  intros Hq. apply (lookup_replicate_1 61 ex_unused q i) in Hq as [-> _]. by right.
Qed.

Lemma fe_holds j st a b w :
  0 ≤ j < 3 → holds ex_kmem (fe_proc j st a b) w ↔ w = fe_page (4 + 2 * j) ∨ w = fe_page (3 + 2 * j).
Proof. intros Hj. unfold holds. cbn [fe_proc p_kstack p_pgdir p_sz]. by rewrite fe_owned by lia. Qed.

Lemma fe_page_inj a b : fe_page a = fe_page b → a = b.
Proof. unfold fe_page. lia. Qed.

Lemma fe_mem : mem_ok fe_procs ex_kmem ex_free.
Proof.
  split; [apply ex_kmem_ok|..].
  - intros i p [(j & st & a & b & _ & Hj & _ & ->)| ->]%fe_lookup Hu; [|done].
    destruct (fe_page_ok (4 + 2 * j)) as (H1 & _ & H2); [lia|]. split; cbn [fe_proc p_kstack p_pgdir p_sz p_tf]; try done.
    + apply fe_uspace. lia.
    + rewrite fe_owned by lia. intros E%fe_page_inj. lia.
  - intros i i' p q w [(j & st & a & b & -> & Hj & _ & ->)| ->]%fe_lookup [(j' & st' & a' & b' & -> & Hj' & _ & ->)| ->]%fe_lookup
      Hu Hu'; try done. rewrite !fe_holds by done.
    intros [->| ->] [E|E]; apply fe_page_inj in E; f_equal; lia.
Qed.

Lemma fe_refs : refs fe_procs ([5; 5; 5], [1; 1; 1]).
Proof.
  split; [by split; vm_compute|]. intros j p [(? & ? & ? & ? & _ & _ & [-> | ->] & ->)| ->]%fe_lookup; by vm_compute.
Qed.

(** [init] makes a process, for which there is no memory; the second exits; and its parent, which [wait] tells,
    takes a page, finds that it has no other child, and sleeps. *)
Definition fe_prog (i : nat) : slice :=
  match i with
  | O => Slice RNew (Call OFork (λ r, if r =? -1 then Stop SYield else Call OWait (λ _, Stop SYield)))
  | S O => Slice RYield (Stop SExit)
  | _ => Slice RWait (Call (OSbrk (λ _, 4096)) (λ _, Call OWait (λ _, Stop (SSleep 500 9))))
  end.

Lemma scheduler_fair_witness :
  returns (scheduler 1000 7 5 (run_slice 1000 7 11 12 0x80108000 fe_prog) fe_kern) (λ _ s',
    k_held s' = [] ∧ ∃ tr, (k_files s').2 = tr ∧ StronglySorted lt tr ∧ 0%nat ∈ tr ∧ 1%nat ∈ tr).
Proof.
  eapply returns_mono; [apply (scheduler_fair 1000 7 11 12 0x80108000 5 ltac:(lia) ltac:(lia) eq_refl (conj eq_refl eq_refl) 0 fe_prog)|].
  - intros [|[|j]]; (split; [intros lk [=]|]); cbn.
    + split; [done|]. intros r. case_b; [done|]. by split.
    + done.
    + split; [intros sz; lia|]. intros _. split; [done|]. intros _. lia.
  - reflexivity.
  - split; [split| |].
    + reflexivity.
    + reflexivity.
    + exists ex_free. exact fe_mem.
    + exact fe_refs.
    + intros j p [(? & ? & ? & ? & _ & _ & _ & ->)| ->]%fe_lookup; by split.
    + reflexivity.
    + intros j p [(? & ? & ? & ? & _ & _ & [-> | ->] & ->)| ->]%fe_lookup; discriminate.
  - intros _ s' (Hh & _ & tr & Ef & Hs & Hall). split; [exact Hh|]. exists tr. split_and!; [exact Ef|exact Hs| |].
    + by apply (Hall 0%nat (fe_proc 0 RUNNABLE 0 0)).
    + by apply (Hall 1%nat (fe_proc 1 RUNNABLE 1248 0)).
Defined.
End FairExample.
