(* ===== verification/Sleeplock.v ===== *)
(** * Sleep locks

    [src/sleeplock.c] over the processes of [Proc].  A [struct sleeplock *] is its address [lk]; the spinlock inside it is at
    [lk + 4], and [lk] is the channel its waiters sleep on.  A call that gives up the CPU ends in [Switch]; the round of
    [acquiresleep] after it is [acquiresleep_resume].

    Theorems: one process at a time has a sleep lock, and no wakeup is lost: whoever sleeps on a lock, it is locked, and
    [releasesleep] makes every sleeper runnable. *)
From S2P Require Import Prelude CString Bytes Kalloc Vm Proc.

Record sleeplock : Type := Sleeplock { sl_locked : Z; sl_pid : Z }.

Section sleeplock.
Context {F : Type} (ptable plock : Z).

(** The kernel and the sleep locks in its memory. *)
Record sstate : Type := Ss { ker : kern F; slocks : Z → sleeplock }.

Definition on_ker {A} (m : cm (kern F) A) : cm sstate A := λ s,
  match m (ker s) with Ok a k => Ok a (Ss k (slocks s)) | Panic e => Panic e | Ub e => Ub e end.
Definition put_lock (lk : Z) (l : sleeplock) : cm sstate unit := modify (λ s, Ss (ker s) (upd (slocks s) lk l)).

Definition initsleeplock (lk : Z) : cm sstate unit := put_lock lk (Sleeplock 0 0).

(** [myproc()->pid]. *)
Definition mypid (cur : nat) : cm sstate Z := p ← on_ker (getp cur); mret (p_pid p).

(** A round of the loop of [acquiresleep], with the spinlock held. *)
Definition acquiresleep_round (cur : nat) (lk : Z) : cm sstate (after unit) :=
  l ← gets (λ s, slocks s lk);
  if negb (sl_locked l =? 0) then on_ker (sleep plock cur lk (lk + 4)) else
  pid ← mypid cur;
  put_lock lk (Sleeplock 1 pid) ;;
  on_ker (unlock (lk + 4)) ;;
  mret (Ret tt).

Definition acquiresleep (cur : nat) (lk : Z) : cm sstate (after unit) :=
  on_ker (lock (lk + 4)) ;; acquiresleep_round cur lk.
Definition acquiresleep_resume (cur : nat) (lk : Z) : cm sstate (after unit) :=
  on_ker (sleep_resume plock cur (lk + 4)) ;; acquiresleep_round cur lk.

Definition releasesleep (lk : Z) : cm sstate unit :=
  on_ker (lock (lk + 4)) ;;
  put_lock lk (Sleeplock 0 0) ;;
  on_ker (wakeup plock lk) ;;
  on_ker (unlock (lk + 4)).

Definition holdingsleep (cur : nat) (lk : Z) : cm sstate bool :=
  on_ker (lock (lk + 4)) ;;
  l ← gets (λ s, slocks s lk);
  pid ← mypid cur;
  on_ker (unlock (lk + 4)) ;;
  mret (negb (sl_locked l =? 0) && (sl_pid l =? pid)).

(** ** Processes that share locks

    What the processes do with sleep locks, one slice after the other.  [Resume]: the scheduler switches to a process that was
    woken.  A slice that ends in [Switch] goes to the scheduler, which lets go of the table. *)
Inductive sop : Type := Acquire (cur : nat) (lk : Z) | Resume (cur : nat) (lk : Z) | Release (lk : Z) | Holding (cur : nat) (lk : Z).

Definition settle (a : after unit) : cm sstate bool :=
  match a with
  | Ret _ => mret true
  | Switch => on_ker (unlock plock) ;; mret false
  end.

(** Whether the process has the lock, or, for [Release], [true]. *)
Definition run_sop (o : sop) : cm sstate bool :=
  match o with
  | Acquire cur lk => a ← acquiresleep cur lk; settle a
  | Resume cur lk =>
      on_ker (lock plock) ;; on_ker (setp cur (set_state RUNNING)) ;;
      a ← acquiresleep_resume cur lk; settle a
  | Release lk => releasesleep lk ;; mret true
  | Holding cur lk => holdingsleep cur lk
  end.

Fixpoint run_sops (ops : list sop) : cm sstate (list bool) :=
  match ops with
  | [] => mret []
  | o :: ops' => b ← run_sop o; bs ← run_sops ops'; mret (b :: bs)
  end.

(** ** The specification

    The owner of each lock, and which processes wait. *)
Inductive pstatus : Type := Active | Asleep (lk : Z) | Woken (lk : Z).
Global Instance pstatus_eq_dec : EqDecision pstatus.
Proof. solve_decision. Defined.

Definition take (pid : nat → Z) (own : Z → option Z) (st : nat → pstatus) (cur : nat) (lk : Z) :
    bool * (Z → option Z) * (nat → pstatus) :=
  match own lk with
  | None => (true, upd own lk (Some (pid cur)), λ j, if decide (j = cur) then Active else st j)
  | Some _ => (false, own, λ j, if decide (j = cur) then Asleep lk else st j)
  end.

(** Every sleeper of the lock becomes runnable. *)
Definition woken (lk : Z) (q : pstatus) : pstatus :=
  match q with Asleep lk' => if lk' =? lk then Woken lk' else Asleep lk' | q => q end.

(** [None]: the process is not in a position to do this. *)
Definition spec_sop (pid : nat → Z) (o : sop) (own : Z → option Z) (st : nat → pstatus) :
    option (bool * (Z → option Z) * (nat → pstatus)) :=
  match o with
  | Acquire cur lk => match st cur with Active => Some (take pid own st cur lk) | _ => None end
  | Resume cur lk => match st cur with Woken lk' => if lk' =? lk then Some (take pid own st cur lk) else None | _ => None end
  | Release lk =>
      Some (true, upd own lk None, λ j, woken lk (st j))
  | Holding cur lk => Some (match own lk with Some p => p =? pid cur | None => false end, own, st)
  end.

Fixpoint spec_sops (pid : nat → Z) (ops : list sop) (own : Z → option Z) (st : nat → pstatus) :
    option (list bool * (Z → option Z) * (nat → pstatus)) :=
  match ops with
  | [] => Some ([], own, st)
  | o :: ops' =>
      match spec_sop pid o own st with
      | None => None
      | Some (b, own, st) =>
          match spec_sops pid ops' own st with
          | None => None
          | Some (bs, own, st) => Some (b :: bs, own, st)
          end
      end
  end.

Definition proc_status (q : pstatus) (p : proc) : Prop :=
  match q with
  | Active => p_state p = RUNNING
  | Asleep lk => p_state p = SLEEPING ∧ p_chan p = lk
  | Woken lk => p_state p = RUNNABLE ∧ p_chan p = lk
  end.

(** No spinlock is held between slices; nobody sleeps on a free lock. *)
Record shows (pid : nat → Z) (n : nat) (own : Z → option Z) (st : nat → pstatus) (s : sstate) : Prop := {
  sh_held : k_held (ker s) = [];
  sh_len : length (k_procs (ker s)) = n;
  sh_proc j p : k_procs (ker s) !! j = Some p → p_pid p = pid j ∧ proc_status (st j) p;
  sh_lock lk : match own lk with
               | None => sl_locked (slocks s lk) = 0
               | Some q => sl_locked (slocks s lk) ≠ 0 ∧ sl_pid (slocks s lk) = q
               end;
  sh_wait j lk : (j < n)%nat → st j = Asleep lk → own lk ≠ None
}.

(** ** Locks held *)

Lemma alter_twice {A} (f g : A → A) (l : list A) i : alter f i (alter g i l) = alter (f ∘ g) i l.
Proof. revert i. induction l as [|x l IH]; intros [|i]; [done..|]. cbn. f_equal. apply IH. Qed.

Lemma lock_free_ok a (k : kern F) : a ∉ k_held k → lock a k = Ok tt (set_held (a :: k_held k) k).
Proof. intros Ha. unfold lock. by rewrite bool_decide_eq_false_2. Qed.

Lemma unlock_only a (k : kern F) : k_held k = [a] → unlock a k = Ok tt (set_held [] k).
Proof.
  intros E. unfold unlock. rewrite E, bool_decide_eq_true_2 by left. do 2 f_equal. cbn. case_decide; [done|exfalso; set_solver].
Qed.

Lemma unlock_second a b (k : kern F) : k_held k = [b; a] → a ≠ b → unlock a k = Ok tt (set_held [b] k).
Proof.
  intros E Hne. unfold unlock. rewrite E, bool_decide_eq_true_2 by (right; left). do 2 f_equal. cbn.
  repeat case_decide; done || (exfalso; set_solver).
Qed.

Lemma unlock_first a b (k : kern F) : k_held k = [a; b] → a ≠ b → unlock a k = Ok tt (set_held [b] k).
Proof.
  intros E Hne. unfold unlock. rewrite E, bool_decide_eq_true_2 by left. do 2 f_equal. cbn.
  repeat case_decide; done || (exfalso; set_solver).
Qed.

Lemma on_ker_ok {A} (m : cm (kern F) A) s a k : m (ker s) = Ok a k → on_ker m s = Ok a (Ss k (slocks s)).
Proof. intros E. unfold on_ker. by rewrite E. Qed.

Lemma getp_at i p (k : kern F) : k_procs k !! i = Some p → getp i k = Ok p k.
Proof. intros E. unfold getp. by rewrite E. Qed.

(** [sleep] with a spinlock held, from it to the table lock. *)
Lemma sleep_ok cur chan a (k : kern F) p :
  k_held k = [a] → k_procs k !! cur = Some p → a ≠ 0 → a ≠ plock →
  sleep plock cur chan a k =
    Ok Switch (set_procs (alter (set_state SLEEPING) cur (alter (set_chan chan) cur (k_procs k))) (set_held [plock] k)).
Proof.
  intros Hh Hp H0 Hne. unfold sleep. rewrite (proj2 (Z.eqb_neq _ 0)), (proj2 (Z.eqb_neq _ plock)) by done. cbn [negb].
  set (k1 := set_held [plock; a] k). set (k2 := set_held [plock] k).
  assert (E1 : lock plock k = Ok tt k1).
  { unfold k1. rewrite <- Hh. apply lock_free_ok. rewrite Hh. by apply not_elem_of_cons; split; [congruence|apply not_elem_of_nil]. }
  assert (E2 : unlock a k1 = Ok tt k2) by exact (unlock_second a plock k1 eq_refl Hne).
  rewrite (bind_ok _ _ k tt k2); [|by rewrite (bind_ok _ _ _ _ _ E1)]. unfold setp. rewrite !bind_modify.
  set (k3 := set_procs _ (set_procs _ k2)).
  assert (E3 : sched plock cur k3 = Ok tt k3); [|by rewrite (bind_ok _ _ _ _ _ E3)].
  assert (Hc : k_procs k3 !! cur = Some (set_state SLEEPING (set_chan chan p))).
  { cbn. by rewrite !list_lookup_alter_eq, Hp. }
  unfold sched. rewrite bind_gets. change (k_held k3) with [plock]. rewrite bool_decide_eq_true_2 by left. cbn [negb length Nat.eqb].
  by rewrite (bind_ok _ _ _ _ _ (getp_at _ _ _ Hc)).
Qed.

Definition wake_one (chan : Z) (p : proc) : proc :=
  if is_state SLEEPING p && (p_chan p =? chan) then set_state RUNNABLE p else p.

(** [wakeup] with another spinlock held. *)
Lemma wakeup_held chan a (k : kern F) :
  k_held k = [a] → a ≠ plock → wakeup plock chan k = Ok tt (set_procs (wake_one chan <$> k_procs k) k).
Proof.
  intros Hh Ha. destruct k as [m f ps np ip h cp c3 e0]. cbn in Hh. subst h. unfold wakeup.
  rewrite (bind_ok _ _ _ _ _ (lock_free_ok plock (Kern m f ps np ip [a] cp c3 e0) ltac:(set_solver))). unfold wakeup1. rewrite bind_modify.
  apply (unlock_first plock a (set_procs _ (set_held _ (Kern m f ps np ip [a] cp c3 e0))) eq_refl). congruence.
Qed.

(** The end of [sleep], when the scheduler has switched to the process. *)
Lemma sleep_resume_ok cur a (k : kern F) :
  k_held k = [plock] → a ≠ plock → sleep_resume plock cur a k = Ok tt (set_held [a] (set_procs (alter (set_chan 0) cur (k_procs k)) k)).
Proof.
  intros Hh Ha. unfold sleep_resume, setp. rewrite bind_modify. rewrite (proj2 (Z.eqb_neq _ plock) Ha). cbn [negb].
  rewrite (bind_ok _ _ _ _ _ (unlock_only plock (set_procs _ k) Hh)). rewrite lock_free_ok by apply not_elem_of_nil. done.
Qed.

(** A round with the lock free, and with the lock taken. *)
Lemma round_free cur lk k sl p :
  k_held k = [lk + 4] → k_procs k !! cur = Some p → sl_locked (sl lk) = 0 →
  acquiresleep_round cur lk (Ss k sl) = Ok (Ret tt) (Ss (set_held [] k) (upd sl lk (Sleeplock 1 (p_pid p)))).
Proof.
  intros Hh Hp Hl. unfold acquiresleep_round. rewrite bind_gets. cbn [slocks]. rewrite Hl. cbn [Z.eqb negb].
  assert (E : mypid cur (Ss k sl) = Ok (p_pid p) (Ss k sl)).
  { unfold mypid. by rewrite (bind_ok _ _ _ _ _ (on_ker_ok _ (Ss k sl) _ _ (getp_at _ _ _ Hp))). }
  rewrite (bind_ok _ _ _ _ _ E). unfold put_lock. rewrite bind_modify.
  by rewrite (bind_ok _ _ _ _ _ (on_ker_ok _ (Ss k _) _ _ (unlock_only _ _ Hh))).
Qed.

Lemma round_taken cur lk k sl p :
  k_held k = [lk + 4] → k_procs k !! cur = Some p → sl_locked (sl lk) ≠ 0 → lk + 4 ≠ 0 → lk + 4 ≠ plock →
  acquiresleep_round cur lk (Ss k sl) =
    Ok Switch (Ss (set_procs (alter (set_state SLEEPING) cur (alter (set_chan lk) cur (k_procs k))) (set_held [plock] k)) sl).
Proof.
  intros Hh Hp Hl H0 Hne. unfold acquiresleep_round. rewrite bind_gets. cbn [slocks]. rewrite (proj2 (Z.eqb_neq _ 0) Hl). cbn [negb].
  apply on_ker_ok. by eapply sleep_ok.
Qed.

(** ** Each operation shows its specification *)

Definition with_status (st : nat → pstatus) (cur : nat) (q : pstatus) (j : nat) : pstatus := if decide (j = cur) then q else st j.

Lemma with_status_eq st cur q : with_status st cur q cur = q.
Proof. unfold with_status. by rewrite decide_True. Qed.

Lemma with_status_ne st cur q j : j ≠ cur → with_status st cur q j = st j.
Proof. intros H. unfold with_status. by rewrite decide_False. Qed.

(** What a change of the process [cur] alone keeps. *)
Lemma shows_proc pid n own st k sl q f cur :
  shows pid n own st (Ss k sl) →
  (∀ p, k_procs k !! cur = Some p → p_pid (f p) = p_pid p ∧ proc_status q (f p)) →
  (∀ lk, q = Asleep lk → own lk ≠ None) →
  shows pid n own (with_status st cur q) (Ss (set_procs (alter f cur (k_procs k)) (set_held [] k)) sl).
Proof.
  intros [Hh Hn Hp Hl Hw] Hf Hq. constructor; cbn in *; [done| | |done|].
  - by rewrite length_alter.
  - intros j p E. destruct (decide (j = cur)) as [->|Hj].
    + rewrite list_lookup_alter_eq in E. destruct (k_procs k !! cur) as [p0|] eqn:E0; [|done]. cbn in E. simplify_eq.
      destruct (Hf p0 eq_refl) as [-> ?]. rewrite with_status_eq. by destruct (Hp _ _ E0).
    + rewrite list_lookup_alter_ne in E by done. rewrite with_status_ne by done. by apply Hp.
  - intros j lk Hj E. destruct (decide (j = cur)) as [->|Hne].
    + rewrite with_status_eq in E. by apply Hq.
    + rewrite with_status_ne in E by done. by eapply Hw.
Qed.

(** The lock taken while its taker is active. *)
Lemma shows_take pid n own st k sl cur lk l :
  shows pid n own (with_status st cur Active) (Ss (set_held [] k) sl) → (cur < n)%nat → own lk = None → sl_locked l ≠ 0 → sl_pid l = pid cur →
  shows pid n (upd own lk (Some (pid cur))) (with_status st cur Active) (Ss (set_held [] k) (upd sl lk l)).
Proof.
  intros [Hh Hn Hp Hl Hw] Hc Ho Hl1 Hl2. constructor; cbn in *; try done.
  - intros a. destruct (decide (a = lk)) as [->|Ha]; [by rewrite !upd_eq|]. rewrite !upd_ne by done. apply Hl.
  - intros j a Hj E. destruct (decide (a = lk)) as [->|Ha]; [by rewrite upd_eq|]. rewrite upd_ne by done. by eapply Hw.
Qed.

(** Only what is known of each process matters. *)
Lemma shows_ext pid n own st st' s : (∀ j, st j = st' j) → shows pid n own st s → shows pid n own st' s.
Proof.
  intros E [Hh Hn Hp Hl Hw]. constructor; try done.
  - intros j p. rewrite <- E. apply Hp.
  - intros j lk. rewrite <- E. apply Hw.
Qed.

Definition lock_addr (lk : Z) : Prop := lk + 4 ≠ 0 ∧ lk + 4 ≠ plock.

Lemma round_taken_settled cur lk k sl p :
  k_held k = [lk + 4] → k_procs k !! cur = Some p → sl_locked (sl lk) ≠ 0 → lk + 4 ≠ 0 → lk + 4 ≠ plock →
  (a ← acquiresleep_round cur lk; settle a) (Ss k sl) =
    Ok false (Ss (set_procs (alter (set_state SLEEPING ∘ set_chan lk) cur (k_procs k)) (set_held [] k)) sl).
Proof.
  intros Hh Hp Hl H0 Hne. rewrite (bind_ok _ _ _ _ _ (round_taken _ _ _ _ _ Hh Hp Hl H0 Hne)). unfold settle.
  rewrite (bind_ok _ _ _ _ _ (on_ker_ok _ (Ss (set_procs _ (set_held [plock] k)) sl) _ _ (unlock_only plock (set_procs _ (set_held [plock] k)) eq_refl))).
  by rewrite alter_twice.
Qed.

Lemma round_shows pid n own st k sl cur lk :
  k_held k = [lk + 4] → shows pid n own (with_status st cur Active) (Ss (set_held [] k) sl) → (cur < n)%nat → lock_addr lk →
  let '(b, own', st') := take pid own st cur lk in
  ∃ s', (a ← acquiresleep_round cur lk; settle a) (Ss k sl) = Ok b s' ∧ shows pid n own' st' s'.
Proof.
  intros Hh Hs Hc [Ha Ha']. pose proof Hs as [_ Hn Hp Hl _]. cbn in Hn, Hp, Hl. rewrite <- Hn in Hc. destruct (lookup_lt_is_Some_2 _ _ Hc) as [p E].
  destruct (Hp _ _ E) as [Hpid Hst]. specialize (Hl lk). unfold take. destruct (own lk) as [q|] eqn:Ho.
  - destruct Hl as [Hl _]. rewrite (round_taken_settled _ _ _ _ _ Hh E Hl Ha Ha'). eexists. split; [reflexivity|].
    eapply (shows_ext pid n own (with_status (with_status st cur Active) cur (Asleep lk))).
    + intros j. unfold with_status. by case_decide.
    + apply (shows_proc pid n own (with_status st cur Active) (set_held [] k) sl (Asleep lk) (set_state SLEEPING ∘ set_chan lk) cur Hs); [done|].
      intros ? [= <-]. congruence.
  - rewrite (bind_ok _ _ _ _ _ (round_free _ _ _ _ _ Hh E Hl)). eexists. split; [reflexivity|].
    apply shows_take; try done; cbn; congruence.
Qed.

Lemma acquire_shows pid n own st s cur lk :
  shows pid n own st s → (cur < n)%nat → lock_addr lk → st cur = Active →
  let '(b, own', st') := take pid own st cur lk in ∃ s', run_sop (Acquire cur lk) s = Ok b s' ∧ shows pid n own' st' s'.
Proof.
  intros Hs Hc Ha Ea. destruct s as [k sl]. pose proof (sh_held _ _ _ _ _ Hs) as Hh. cbn in Hh.
  pose proof (round_shows pid n own st (set_held [lk + 4] k) sl cur lk eq_refl) as HR.
  destruct (take pid own st cur lk) as [[b own'] st']. destruct HR as (s' & E & Hs'); [|done|done|].
  - apply (shows_ext pid n own st); [intros j; unfold with_status; case_decide; congruence|]. by destruct k; cbn in *; subst.
  - exists s'. split; [|done]. rewrite <- E. unfold run_sop, acquiresleep. rewrite bind_assoc.
    rewrite (bind_ok _ _ _ _ _ (on_ker_ok _ (Ss k sl) _ _ (lock_free_ok (lk + 4) k ltac:(rewrite Hh; apply not_elem_of_nil)))). by rewrite Hh.
Qed.

(** From the switch to a woken process to the next round. *)
Lemma resume_ok cur lk k sl :
  k_held k = [] → lock_addr lk →
  run_sop (Resume cur lk) (Ss k sl) =
    (a ← acquiresleep_round cur lk; settle a)
      (Ss (set_held [lk + 4] (set_procs (alter (set_chan 0 ∘ set_state RUNNING) cur (k_procs k)) (set_held [] k))) sl).
Proof.
  intros Hh [Ha Ha']. unfold run_sop.
  rewrite (bind_ok _ _ _ _ _ (on_ker_ok _ (Ss k sl) _ _ (lock_free_ok plock k ltac:(rewrite Hh; apply not_elem_of_nil)))). rewrite Hh.
  set (k1 := set_held [plock] k). unfold acquiresleep_resume.
  rewrite (bind_ok _ _ _ _ _ (on_ker_ok (setp cur (set_state RUNNING)) (Ss k1 sl) _ _ eq_refl)), bind_assoc. cbn [slocks ker].
  erewrite bind_ok; [reflexivity|]. unfold on_ker at 1. cbn [slocks ker].
  rewrite sleep_resume_ok by done. cbn. by rewrite alter_twice.
Qed.

Lemma resume_shows pid n own st s cur lk :
  shows pid n own st s → (cur < n)%nat → lock_addr lk → st cur = Woken lk →
  let '(b, own', st') := take pid own st cur lk in ∃ s', run_sop (Resume cur lk) s = Ok b s' ∧ shows pid n own' st' s'.
Proof.
  intros Hs Hc Ha Ea. destruct s as [k sl]. rewrite resume_ok by (done || apply (sh_held _ _ _ _ _ Hs)).
  apply round_shows; try done.
  apply (shows_proc pid n own st k sl Active (set_chan 0 ∘ set_state RUNNING) cur Hs); done.
Qed.

Lemma wake_status lk q p : proc_status q p → proc_status (woken lk q) (wake_one lk p) ∧ p_pid (wake_one lk p) = p_pid p.
Proof.
  unfold wake_one, is_state. destruct q as [|a|a]; cbn [proc_status woken].
  - intros E. rewrite bool_decide_eq_false_2 by congruence. done.
  - intros [E <-]. rewrite bool_decide_eq_true_2 by done. cbn [andb]. by destruct (p_chan p =? lk).
  - intros [E ?]. rewrite bool_decide_eq_false_2 by congruence. done.
Qed.

Lemma release_ok lk k sl :
  k_held k = [] → lock_addr lk →
  releasesleep lk (Ss k sl) = Ok tt (Ss (set_procs (wake_one lk <$> k_procs k) (set_held [] k)) (upd sl lk (Sleeplock 0 0))).
Proof.
  intros Hh [Ha Ha']. unfold releasesleep.
  rewrite (bind_ok _ _ _ _ _ (on_ker_ok _ (Ss k sl) _ _ (lock_free_ok (lk + 4) k ltac:(rewrite Hh; apply not_elem_of_nil)))). rewrite Hh.
  unfold put_lock. rewrite bind_modify. cbn [slocks ker]. set (k1 := set_held [lk + 4] k). set (sl1 := upd sl lk _).
  pose proof (wakeup_held lk (lk + 4) k1 eq_refl Ha') as E.
  rewrite (bind_ok _ _ _ _ _ (on_ker_ok _ (Ss k1 sl1) _ _ E)).
  apply (on_ker_ok _ (Ss _ _) _ _ (unlock_only (lk + 4) (set_procs _ k1) eq_refl)).
Qed.

Lemma release_shows pid n own st s lk :
  shows pid n own st s → lock_addr lk →
  ∃ s', run_sop (Release lk) s = Ok true s' ∧ shows pid n (upd own lk None) (λ j, woken lk (st j)) s'.
Proof.
  intros Hs Ha. destruct s as [k sl]. destruct Hs as [Hh Hn Hp Hl Hw]. cbn in *. eexists.
  split; [unfold run_sop; by rewrite (bind_ok _ _ _ _ _ (release_ok _ _ _ Hh Ha))|]. constructor; cbn; [done|..].
  - by rewrite length_fmap.
  - intros j p E. rewrite list_lookup_fmap in E. destruct (k_procs k !! j) as [p0|] eqn:E0; [|done]. cbn in E. simplify_eq.
    destruct (Hp _ _ E0) as [Hpid Hq]. destruct (wake_status lk _ _ Hq) as [Hq' ->]. done.
  - intros a. destruct (decide (a = lk)) as [->|Hne]; [by rewrite !upd_eq|]. rewrite !upd_ne by done. apply Hl.
  - intros j a Hj E. destruct (decide (a = lk)) as [->|Hne].
    + exfalso. destruct (st j) as [|b|b]; cbn in E; try done. destruct (b =? lk) eqn:Eb; simplify_eq. lia.
    + rewrite upd_ne by done. apply (Hw j a Hj). destruct (st j) as [|b|b]; cbn in E; try done. by destruct (b =? lk).
Qed.

Lemma holdingsleep_ok cur lk k sl p :
  k_held k = [] → k_procs k !! cur = Some p →
  holdingsleep cur lk (Ss k sl) = Ok (negb (sl_locked (sl lk) =? 0) && (sl_pid (sl lk) =? p_pid p)) (Ss k sl).
Proof.
  intros Hh E. unfold holdingsleep.
  rewrite (bind_ok _ _ _ _ _ (on_ker_ok _ (Ss k sl) _ _ (lock_free_ok (lk + 4) k ltac:(rewrite Hh; apply not_elem_of_nil)))). rewrite Hh.
  rewrite bind_gets. cbn [slocks ker]. set (k1 := set_held _ k).
  assert (Ep : mypid cur (Ss k1 sl) = Ok (p_pid p) (Ss k1 sl)).
  { unfold mypid. by rewrite (bind_ok _ _ _ _ _ (on_ker_ok _ (Ss k1 sl) _ _ (getp_at cur p k1 E))). }
  rewrite (bind_ok _ _ _ _ _ Ep). rewrite (bind_ok _ _ _ _ _ (on_ker_ok _ (Ss k1 sl) _ _ (unlock_only _ k1 eq_refl))).
  unfold mret, cm_ret. f_equal. destruct k; cbn in *. by subst.
Qed.

Lemma holding_shows pid n own st s cur lk :
  shows pid n own st s → (cur < n)%nat →
  run_sop (Holding cur lk) s = Ok (match own lk with Some p => p =? pid cur | None => false end) s.
Proof.
  intros [Hh Hn Hp Hl Hw] Hc. destruct s as [k sl]. cbn in *. rewrite <- Hn in Hc.
  destruct (lookup_lt_is_Some_2 _ _ Hc) as [p E]. destruct (Hp _ _ E) as [Hpid _]. rewrite (holdingsleep_ok _ _ _ _ _ Hh E). f_equal.
  specialize (Hl lk). destruct (own lk) as [q|]; [|by rewrite Hl]. destruct Hl as [H1 ->]. by rewrite (proj2 (Z.eqb_neq _ 0) H1), Hpid.
Qed.

(** Taking a lock that is free. *)
Lemma acquiresleep_free cur lk k sl p :
  k_held k = [] → k_procs k !! cur = Some p → sl_locked (sl lk) = 0 →
  acquiresleep cur lk (Ss k sl) = Ok (Ret tt) (Ss (set_held [] k) (upd sl lk (Sleeplock 1 (p_pid p)))).
Proof.
  intros Hh E Hl. unfold acquiresleep.
  rewrite (bind_ok _ _ _ _ _ (on_ker_ok _ (Ss k sl) _ _ (lock_free_ok (lk + 4) k ltac:(rewrite Hh; apply not_elem_of_nil)))). rewrite Hh.
  exact (round_free cur lk (set_held [lk + 4] k) sl p eq_refl E Hl).
Qed.

Definition sop_ok (n : nat) (o : sop) : Prop :=
  match o with
  | Acquire cur lk | Resume cur lk => (cur < n)%nat ∧ lock_addr lk
  | Release lk => lock_addr lk
  | Holding cur _ => (cur < n)%nat
  end.

Lemma sop_shows pid n o own st s b own' st' :
  shows pid n own st s → sop_ok n o → spec_sop pid o own st = Some (b, own', st') →
  ∃ s', run_sop o s = Ok b s' ∧ shows pid n own' st' s'.
Proof.
  intros Hs Ho E. destruct o as [cur lk|cur lk|lk|cur lk]; cbn [spec_sop sop_ok] in *.
  - destruct Ho as [Hc Ha]. destruct (st cur) eqn:Eq; [|done..]. apply (inj Some) in E.
    pose proof (acquire_shows _ _ _ _ _ _ _ Hs Hc Ha Eq) as HA. by rewrite E in HA.
  - destruct Ho as [Hc Ha]. destruct (st cur) as [| |a] eqn:Eq; [done..|]. destruct (Z.eqb_spec a lk) as [->|]; [|done]. apply (inj Some) in E.
    pose proof (resume_shows _ _ _ _ _ _ _ Hs Hc Ha Eq) as HA. by rewrite E in HA.
  - injection E as <- <- <-. by apply release_shows.
  - injection E as <- <- <-. eauto using holding_shows.
Qed.
End sleeplock.

(** C14: sleep locks refine a table of owners.  For every sequence of [acquiresleep], [releasesleep] and [holdingsleep] calls
    by any processes, with the scheduler switching to woken processes in between, that a table with at most one owner for each
    lock allows, the calls do not panic, answer what the table answers ([false]: the caller sleeps), leave no spinlock held,
    and leave the processes and locks as the table says.  A process sleeps on a lock only while somebody owns it, so no wakeup
    is lost. *)
Theorem sleeplock_refines {F} (plock : Z) pid n ops own st (s : @sstate F) bs own' st' :
  shows pid n own st s → Forall (sop_ok plock n) ops → spec_sops pid ops own st = Some (bs, own', st') →
  ∃ s', run_sops plock ops s = Ok bs s' ∧ shows pid n own' st' s'.
Proof.
  revert own st s bs. induction ops as [|o ops IH]; cbn [spec_sops run_sops]; intros own st s bs Hs Ho E.
  - injection E as <- <- <-. by exists s.
  - apply Forall_cons in Ho as [Ho Hos].
    destruct (spec_sop pid o own st) as [[[b own1] st1]|] eqn:E1; [|done].
    destruct (spec_sops pid ops own1 st1) as [[[bs1 own2] st2]|] eqn:E2; [|done]. injection E as <- <- <-.
    destruct (sop_shows _ _ _ _ _ _ _ _ _ _ Hs Ho E1) as (s1 & R1 & Hs1).
    destruct (IH _ _ _ _ Hs1 Hos E2) as (s2 & R2 & Hs2). exists s2. split; [|done].
    by rewrite (bind_ok _ _ _ _ _ R1), (bind_ok _ _ _ _ _ R2).
Qed.

Module SleepExample.
Definition process (pid : Z) : proc := Proc 4096 0 0 RUNNING pid 0 0 0 0 0 [] 0 [].
Definition two : @sstate unit :=
  Ss (Kern (Kmem (λ _, 0) 0 true false 0) tt [process 1; process 2] 3 0 [] 0 0 0) (λ _, Sleeplock 0 0).
Definition pids (j : nat) : Z := Z.of_nat (S j).
Definition calls : list sop :=
  [Acquire 0 100; Acquire 1 100; Holding 1 100; Release 100; Resume 1 100; Holding 1 100; Holding 0 100].

(** The first process takes the lock, the second sleeps until it is released. *)
Lemma sleeplock_refines_witness : ∃ own' st' s',
  run_sops 8 calls two = Ok [true; false; false; true; true; true; false] s' ∧ shows pids 2 own' st' s' ∧ own' 100 = Some 2.
Proof.
  set (r := spec_sops pids calls (λ _, None) (λ _, Active)).
  assert (Hs : shows pids 2 (λ _, None) (λ _, Active) two).
  { constructor; try done. intros [|[|j]] p E; cbn in E; by simplify_eq. }
  assert (Ho : Forall (sop_ok 8 2) calls).
  { unfold calls, sop_ok, lock_addr. repeat (apply Forall_cons; split); [lia..|apply Forall_nil_2]. }
  destruct r as [[[bs own'] st']|] eqn:E; [|vm_compute in E; discriminate]. 
  assert (Eb : bs = [true; false; false; true; true; true; false]) by (vm_compute in E; by injection E).
  assert (Eo : own' 100 = Some 2) by (vm_compute in E; by injection E as <- <- <-).
  destruct (sleeplock_refines 8 pids 2 calls _ _ two _ _ _ Hs Ho E) as (s' & R & Hs'). exists own', st', s'.
  split; [rewrite <- Eb; exact R|]. split; [exact Hs'|exact Eo].
Defined.
End SleepExample.
