(* ===== verification/Ide.v ===== *)
(** * The IDE disk driver

    [src/ide.c]: a queue of buffers, whose head is the request the controller works on.  A process that calls [iderw] appends its
    buffer and sleeps on it; [ideintr] finishes the head, wakes the process and starts the next request.  A [struct buf *] is its
    address; its sleep lock is at [b + 12].  The processes and sleep locks are those of [Sleeplock], the machine with the controller that
    of [Ata] and [Irq].

    Theorems: under every interleaving of requests, interrupts (also spurious ones), kills and switches to woken processes, the
    driver serves the requests in the order of the calls, each one as an atomic operation on the disk; and as many interrupts as
    there are requests finish all of them. *)
From S2P Require Import Prelude CString Bytes Ata Irq Kalloc Vm Proc Sleeplock.

Definition FSSIZE : Z := 1000.
Definition BSIZE : Z := 512.
Definition SECTOR_SIZE : Z := 512.
Definition IDE_BSY : Z := 0x80.
Definition IDE_DRDY : Z := 0x40.
Definition IDE_DF : Z := 0x20.
Definition IDE_ERR : Z := 0x01.
Definition IDE_CMD_READ : Z := 0x20.
Definition IDE_CMD_WRITE : Z := 0x30.
Definition IDE_CMD_RDMUL : Z := 0xc4.
Definition IDE_CMD_WRMUL : Z := 0xc5.
Definition B_VALID : Z := 0x2.
Definition B_DIRTY : Z := 0x4.

(** The fields of [struct buf] that the driver uses. *)
Record ibuf : Type := Ibuf { b_flags : Z; b_dev : Z; b_blockno : Z; b_qnext : Z; b_data : list Z }.
Definition set_flags (v : Z) (b : ibuf) : ibuf := Ibuf v (b_dev b) (b_blockno b) (b_qnext b) (b_data b).
Definition set_qnext (v : Z) (b : ibuf) : ibuf := Ibuf (b_flags b) (b_dev b) (b_blockno b) v (b_data b).
Definition set_data (v : list Z) (b : ibuf) : ibuf := Ibuf (b_flags b) (b_dev b) (b_blockno b) (b_qnext b) v.

Section ide.
Context {F C : Type} {ports : Ports C} {mmio : Mmio C} (plock idelock : Z).

(** ** The controller *)

(** The loop of [idewait]: how often the status is read is up to the controller. *)
Fixpoint idewait_loop (fuel : nat) : cm C Z :=
  match fuel with
  | O => ub "loop"
  | S f =>
      r ← in8 0x1f7;
      if negb (Z.land r (Z.lor IDE_BSY IDE_DRDY) =? IDE_DRDY) then idewait_loop f else mret r
  end.

Context (polls : nat).

Definition idewait (checkerr : bool) : cm C Z :=
  r ← idewait_loop polls;
  if checkerr && negb (Z.land r (Z.lor IDE_DF IDE_ERR) =? 0) then mret (-1) else mret 0.

(** The loop that looks for disk 1. *)
Fixpoint find_disk1 (n : nat) : cm C Z :=
  match n with
  | O => mret 0
  | S n' => r ← in8 0x1f7; if negb (r =? 0) then mret 1 else find_disk1 n'
  end.

(** The commands of [idestart] for the buffer [x]. *)
Definition idestart_io (x : ibuf) : cm C unit :=
  if FSSIZE <=? b_blockno x then panic "incorrect blockno" else
  let sector_per_block := BSIZE / SECTOR_SIZE in
  let sector := i32 (b_blockno x * sector_per_block) in
  let read_cmd := if sector_per_block =? 1 then IDE_CMD_READ else IDE_CMD_RDMUL in
  let write_cmd := if sector_per_block =? 1 then IDE_CMD_WRITE else IDE_CMD_WRMUL in
  if 7 <? sector_per_block then panic "idestart" else
  idewait false ;;
  out8 0x3f6 0 ;;
  out8 0x1f2 sector_per_block ;;
  out8 0x1f3 (Z.land sector 0xff) ;;
  out8 0x1f4 (Z.land (Z.shiftr sector 8) 0xff) ;;
  out8 0x1f5 (Z.land (Z.shiftr sector 16) 0xff) ;;
  out8 0x1f6 (Z.lor (Z.lor 0xe0 (Z.shiftl (Z.land (b_dev x) 1) 4)) (Z.land (Z.shiftr sector 24) 0x0f)) ;;
  if negb (Z.land (b_flags x) B_DIRTY =? 0) then
    out8 0x1f7 write_cmd ;;
    out_words 0x1f0 (b_data x)
  else out8 0x1f7 read_cmd.

(** ** The driver *)

Record istate : Type := Ist {
  i_ss : @sstate F;
  i_bufs : Z → ibuf;
  idequeue : Z;
  havedisk1 : Z;
  i_ctl : C
}.

Definition on_ss {A} (m : cm sstate A) : cm istate A := λ s,
  match m (i_ss s) with
  | Ok a ss => Ok a (Ist ss (i_bufs s) (idequeue s) (havedisk1 s) (i_ctl s))
  | Panic e => Panic e
  | Ub e => Ub e
  end.
Definition on_lock {A} (m : cm (kern F) A) : cm istate A := on_ss (on_ker m).
Definition on_ctl {A} (m : cm C A) : cm istate A := λ s,
  match m (i_ctl s) with
  | Ok a c => Ok a (Ist (i_ss s) (i_bufs s) (idequeue s) (havedisk1 s) c)
  | Panic e => Panic e
  | Ub e => Ub e
  end.
Definition set_queue (q : Z) : cm istate unit := modify (λ s, Ist (i_ss s) (i_bufs s) q (havedisk1 s) (i_ctl s)).
Definition put_buf (b : Z) (f : ibuf → ibuf) : cm istate unit :=
  modify (λ s, Ist (i_ss s) (upd (i_bufs s) b (f (i_bufs s b))) (idequeue s) (havedisk1 s) (i_ctl s)).
Definition the_buf (b : Z) : cm istate ibuf := gets (λ s, i_bufs s b).

Definition ideinit (ncpu : Z) : cm istate unit :=
  on_ctl (ioapicenable IRQ_IDE (ncpu - 1)) ;;
  on_ctl (idewait false) ;;
  on_ctl (out8 0x1f6 (Z.lor 0xe0 (Z.shiftl 1 4))) ;;
  r ← on_ctl (find_disk1 1000);
  cwhen (r =? 1) (modify (λ s, Ist (i_ss s) (i_bufs s) (idequeue s) 1 (i_ctl s))) ;;
  on_ctl (out8 0x1f6 (Z.lor 0xe0 (Z.shiftl 0 4))).

Definition idestart (b : Z) : cm istate unit :=
  if b =? 0 then panic "idestart" else
  x ← the_buf b;
  on_ctl (idestart_io x).

Definition ideintr : cm istate unit :=
  on_lock (lock idelock) ;;
  b ← gets idequeue;
  if b =? 0 then on_lock (unlock idelock) else
  x ← the_buf b;
  set_queue (b_qnext x) ;;
  cwhen (Z.land (b_flags x) B_DIRTY =? 0) (
    r ← on_ctl (idewait true);
    cwhen (0 <=? r) (d ← on_ctl (in_words 0x1f0 (BSIZE / 4)); put_buf b (set_data d))) ;;
  put_buf b (λ x, set_flags (Z.lor (b_flags x) B_VALID) x) ;;
  put_buf b (λ x, set_flags (Z.land (b_flags x) (Z.lnot B_DIRTY)) x) ;;
  on_lock (wakeup plock b) ;;
  q ← gets idequeue;
  cwhen (negb (q =? 0)) (idestart q) ;;
  on_lock (unlock idelock).

(** The search for the last [qnext], from the buffer [p] on, and the store into it. *)
Fixpoint append_after (fuel : nat) (p b : Z) : cm istate unit :=
  match fuel with
  | O => ub "loop"
  | S f =>
      x ← the_buf p;
      if b_qnext x =? 0 then put_buf p (set_qnext b) else append_after f (b_qnext x) b
  end.

Definition append (fuel : nat) (b : Z) : cm istate unit :=
  put_buf b (set_qnext 0) ;;
  q ← gets idequeue;
  if q =? 0 then set_queue b else append_after fuel q b.

(** A round of the wait in [iderw], with the lock held. *)
Definition iderw_round (cur : nat) (b : Z) : cm istate (after unit) :=
  x ← the_buf b;
  if negb (Z.land (b_flags x) (Z.lor B_VALID B_DIRTY) =? B_VALID) then on_lock (sleep plock cur b idelock)
  else on_lock (unlock idelock) ;; mret (Ret tt).

(** [fuel] bounds the length of the queue. *)
Definition iderw (fuel : nat) (cur : nat) (b : Z) : cm istate (after unit) :=
  h ← on_ss (holdingsleep cur (b + 12));
  if negb h then panic "iderw: buf not locked" else
  x ← the_buf b;
  if Z.land (b_flags x) (Z.lor B_VALID B_DIRTY) =? B_VALID then panic "iderw: nothing to do" else
  d ← gets havedisk1;
  if negb (b_dev x =? 0) && (d =? 0) then panic "iderw: ide disk 1 not present" else
  on_lock (lock idelock) ;;
  append fuel b ;;
  q ← gets idequeue;
  cwhen (q =? b) (idestart b) ;;
  iderw_round cur b.

Definition iderw_resume (cur : nat) (b : Z) : cm istate (after unit) :=
  on_lock (sleep_resume plock cur idelock) ;; iderw_round cur b.
End ide.

(** ** What the controller does for the driver *)

Section controller.
Context {C : Type} {ports : Ports C} (polls : nat) {laws : AtaOk C polls}.

Lemma idewait_polled n c r c' fuel : polled n c r c' → (n < fuel)%nat → idewait_loop fuel c = Ok r c'.
Proof.
  intros P. revert fuel. induction P as [c E|n c r c' E P IH]; intros [|fuel] Hf; try lia; cbn [idewait_loop];
    unfold in8, mbind, cm_bind; change (Z.lor IDE_BSY IDE_DRDY) with 0xC0; change IDE_DRDY with 0x40;
    unfold ready_status in E; rewrite E; cbn [negb]; [done|]. apply IH. lia.
Qed.

Lemma idewait_ok a c b : at_work a c → a_has a (drive a) = true → ∃ c', idewait polls b c = Ok 0 c' ∧ at_rest a c'.
Proof.
  intros H Hd. destruct (ata_poll a c H Hd) as (n & r & c' & Hn & P & Hr & H'). exists c'. split; [|done].
  unfold idewait. rewrite (bind_ok _ _ _ _ _ (idewait_polled _ _ _ _ _ P Hn)). change (Z.lor IDE_DF IDE_ERR) with 0x21. rewrite Hr.
  by rewrite andb_false_r.
Qed.

Lemma out8_reg a c p v : at_rest a c → is_reg p = true → 0 ≤ v < 256 → ∃ c', out8 p v c = Ok tt c' ∧ at_rest (set_reg p v a) c'.
Proof. intros H Hp Hv. eexists. split; [reflexivity|]. by apply ata_reg. Qed.

(** The registers that name block [k] of a drive. *)
Definition addressed (a : ata) (dr k : Z) : ata :=
  set_reg 0x1f6 (Z.lor 0xe0 (Z.shiftl dr 4)) (set_reg 0x1f5 0 (set_reg 0x1f4 (k / 256) (set_reg 0x1f3 (k mod 256) (set_reg 0x1f2 1 (set_reg 0x3f6 0 a))))).

Lemma addressed_names a dr k :
  0 ≤ k < 1000 → dr = 0 ∨ dr = 1 →
  drive (addressed a dr k) = dr ∧ sector (addressed a dr k) = k ∧ a_reg (addressed a dr k) 0x1f2 = 1.
Proof.
  intros Hk Hd. assert (E : ∀ p, a_reg (addressed a dr k) p = upd (upd (upd (upd (upd (upd (a_reg a) 0x3f6 0) 0x1f2 1) 0x1f3 (k mod 256)) 0x1f4 (k / 256)) 0x1f5 0) 0x1f6 (Z.lor 0xe0 (Z.shiftl dr 4)) p) by done.
  unfold drive, sector. rewrite !E. repeat (rewrite upd_eq || rewrite upd_ne by done).
  destruct Hd as [->| ->]; (split_and!; [done| |done]);
    [change (Z.land (Z.lor 224 (Z.shiftl 0 4)) 15) with 0|change (Z.land (Z.lor 224 (Z.shiftl 1 4)) 15) with 0]; change (2 ^ 8) with 256; dlia.
Qed.

Definition dirty (x : ibuf) : bool := negb (Z.land (b_flags x) B_DIRTY =? 0).
Definition drive_of (x : ibuf) : Z := Z.land (b_dev x) 1.

Record request_ok (has : Z → bool) (x : ibuf) : Prop := {
  rq_block : 0 ≤ b_blockno x < FSSIZE;
  rq_data : length (b_data x) = 512%nat;
  rq_drive : has (drive_of x) = true
}.

(** The controller once the request is given to it. *)
Definition started (x : ibuf) (a a' : ata) : Prop :=
  a_has a' = a_has a ∧ drive a' = drive_of x ∧
  if dirty x then a_op a' = Idle ∧
    ∀ dr k, a_disk a' dr k = if (dr =? drive_of x) && (k =? b_blockno x) then b_data x else a_disk a dr k
  else a_op a' = Sends (drive_of x) (b_blockno x) ∧ a_disk a' = a_disk a.

Lemma drive_of_bit x : drive_of x = 0 ∨ drive_of x = 1.
Proof. unfold drive_of. pose proof (Z.land_ones (b_dev x) 1 ltac:(lia)) as E. change (Z.ones 1) with 1 in E. change (2 ^ 1) with 2 in E. dlia. Qed.

Lemma idestart_io_ok a c x :
  at_work a c → a_has a (drive a) = true → a_op a = Idle → request_ok (a_has a) x →
  ∃ a' c', idestart_io polls x c = Ok tt c' ∧ at_work a' c' ∧ started x a a'.
Proof.
  intros H Hd Ho [Hk Hl Hp]. unfold idestart_io. change FSSIZE with 1000 in *. rewrite (proj2 (Z.leb_gt 1000 _)) by lia.
  change (BSIZE / SECTOR_SIZE) with 1. cbn [Z.ltb Z.eqb Z.compare Pos.compare Pos.compare_cont Pos.eqb].
  rewrite Z.mul_1_r, i32_small by lia. set (k := b_blockno x) in *.
  destruct (idewait_ok a c false H Hd) as (c0 & E0 & H0). rewrite (bind_ok _ _ _ _ _ E0).
  assert (E3 : Z.land k 255 = k mod 256) by (change 255 with (Z.ones 8); by rewrite Z.land_ones by lia).
  assert (E4 : Z.land (Z.shiftr k 8) 255 = k / 256).
  { change 255 with (Z.ones 8). rewrite Z.land_ones, Z.shiftr_div_pow2 by lia. change (2 ^ 8) with 256.
    apply Z.mod_small. split; [apply Z.div_pos; lia|apply Z.div_lt_upper_bound; lia]. }
  assert (E5 : Z.shiftr k 16 = 0) by (rewrite Z.shiftr_div_pow2 by lia; change (2 ^ 16) with 65536; dlia).
  assert (E6 : Z.shiftr k 24 = 0) by (rewrite Z.shiftr_div_pow2 by lia; change (2 ^ 24) with 16777216; dlia).
  rewrite E3, E4, E5, E6. change (Z.land 0 255) with 0. change (Z.land 0 15) with 0. rewrite Z.lor_0_r. fold (drive_of x). set (dr := drive_of x) in *.
  assert (Hr6 : 0 ≤ Z.lor 0xe0 (Z.shiftl dr 4) < 256) by (destruct (drive_of_bit x) as [E|E]; fold dr in E; rewrite E; by split; vm_compute).
  destruct (out8_reg _ _ 0x3f6 0 H0 eq_refl ltac:(lia)) as (c1 & O1 & H1). rewrite (bind_ok _ _ _ _ _ O1).
  destruct (out8_reg _ _ 0x1f2 1 H1 eq_refl ltac:(lia)) as (c2 & O2 & H2). rewrite (bind_ok _ _ _ _ _ O2).
  destruct (out8_reg _ _ 0x1f3 (k mod 256) H2 eq_refl ltac:(dlia)) as (c3 & O3 & H3). rewrite (bind_ok _ _ _ _ _ O3).
  destruct (out8_reg _ _ 0x1f4 (k / 256) H3 eq_refl ltac:(dlia)) as (c4 & O4 & H4). rewrite (bind_ok _ _ _ _ _ O4).
  destruct (out8_reg _ _ 0x1f5 0 H4 eq_refl ltac:(lia)) as (c5 & O5 & H5). rewrite (bind_ok _ _ _ _ _ O5).
  destruct (out8_reg _ _ 0x1f6 (Z.lor 0xe0 (Z.shiftl dr 4)) H5 eq_refl Hr6) as (c6 & O6 & H6). rewrite (bind_ok _ _ _ _ _ O6).
  fold (addressed a dr k) in H6. destruct (addressed_names a dr k Hk (drive_of_bit x)) as (Ed & Es & Ec).
  unfold started, dirty. destruct (Z.land (b_flags x) B_DIRTY =? 0); cbn [negb].
  - eexists _, _. split; [reflexivity|]. split; [apply (ata_read (addressed a dr k)); try done; by rewrite Ed|].
    rewrite Ed, Es. split_and!; [done|exact Ed|done|done].
  - eexists _, _. split; [reflexivity|]. split; [apply (ata_write (addressed a dr k) _ (b_data x)); try done; by rewrite Ed|].
    split_and!; [done|exact Ed|done|]. intros dr' k'. cbn [store_sector a_disk]. rewrite Ed, Es. fold dr k.
    destruct (Z.eqb_spec dr' dr) as [->|]; cbn [andb]; [|done]. destruct (Z.eqb_spec k' k) as [->|]; [by rewrite upd_eq|by rewrite upd_ne].
Qed.
End controller.

(** ** Processes that share the disk

    What happens, one slice after the other: a process takes a buffer that is free ([Take]) or gives one back ([Give]), changes its
    contents ([Fill]), asks for it to be read or written ([Rw]); the disk interrupts ([Intr]); process [j] is killed ([Kill]); the
    scheduler switches to a process that was woken ([Wake]). *)
Inductive iop : Type :=
| Take (cur : nat) (b : Z) | Give (cur : nat) (b : Z) | Fill (cur : nat) (b flags dev blockno : Z) (data : list Z)
| Rw (cur : nat) (b : Z) | Intr | Kill (j : nat) | Wake (cur : nat) (b : Z).

Section ops.
Context {F C : Type} {ports : Ports C} {mmio : Mmio C} (plock idelock : Z) (polls fuel : nat) (pid : nat → Z).
Abbreviation istate := (@istate F C).

Definition isettle (a : after unit) : cm istate bool :=
  match a with
  | Ret _ => mret true
  | Switch => on_lock (unlock plock) ;; mret false
  end.

(** Whether the call has returned. *)
Definition run_iop (o : iop) : cm istate bool :=
  match o with
  | Take cur b => a ← on_ss (acquiresleep plock cur (b + 12)); isettle a
  | Give cur b => on_ss (releasesleep plock (b + 12)) ;; mret true
  | Fill cur b flags dev blockno data => put_buf b (λ x, Ibuf flags dev blockno (b_qnext x) data) ;; mret true
  | Rw cur b => a ← iderw plock idelock polls fuel cur b; isettle a
  | Intr => ideintr plock idelock polls ;; mret true
  | Kill j => on_lock (kill plock (pid j)) ;; mret true
  | Wake cur b =>
      on_lock (lock plock) ;; on_lock (setp cur (set_state RUNNING)) ;;
      a ← iderw_resume plock idelock cur b; isettle a
  end.

Fixpoint run_iops (ops : list iop) : cm istate (list bool) :=
  match ops with
  | [] => mret []
  | o :: ops' => r ← run_iop o; rs ← run_iops ops'; mret (r :: rs)
  end.
End ops.

(** ** The specification

    A disk, buffers, who has each buffer, the requests in the order of their calls, and which processes wait. *)
Record dspec : Type := D {
  ds_disk : Z → Z → list Z;
  ds_buf : Z → ibuf;
  ds_own : Z → option Z;
  ds_queue : list Z;
  ds_st : nat → pstatus
}.

(** The request [x] as one operation on the disk, and the buffer after it. *)
Definition serve (x : ibuf) (disk : Z → Z → list Z) : (Z → Z → list Z) * ibuf :=
  let done := Z.land (Z.lor (b_flags x) B_VALID) (Z.lnot B_DIRTY) in
  if dirty x then
    (λ dr k, if (dr =? drive_of x) && (k =? b_blockno x) then b_data x else disk dr k, set_flags done x)
  else (disk, set_flags done (set_data (disk (drive_of x) (b_blockno x)) x)).

Definition wants_io (x : ibuf) : bool := negb (Z.land (b_flags x) (Z.lor B_VALID B_DIRTY) =? B_VALID).

Section spec.
Context (pid : nat → Z) (has : Z → bool).

Definition owns (d : dspec) (cur : nat) (b : Z) : bool := bool_decide (ds_own d b = Some (pid cur)) && bool_decide (ds_st d cur = Active).

(** [None]: the process is not in a position to do this. *)
Definition spec_iop (o : iop) (d : dspec) : option (bool * dspec) :=
  match o with
  | Take cur b =>
      if bool_decide (ds_st d cur = Active) && bool_decide (ds_own d b = None)
      then Some (true, D (ds_disk d) (ds_buf d) (upd (ds_own d) b (Some (pid cur))) (ds_queue d) (ds_st d)) else None
  | Give cur b =>
      if owns d cur b then Some (true, D (ds_disk d) (ds_buf d) (upd (ds_own d) b None) (ds_queue d) (ds_st d)) else None
  | Fill cur b flags dev blockno data =>
      if owns d cur b
      then Some (true, D (ds_disk d) (upd (ds_buf d) b (Ibuf flags dev blockno 0 data)) (ds_own d) (ds_queue d) (ds_st d)) else None
  | Rw cur b =>
      let x := ds_buf d b in
      if owns d cur b && wants_io x && (0 <=? b_blockno x) && (b_blockno x <? FSSIZE) && (length (b_data x) =? 512)%nat &&
         ((b_dev x =? 0) || has 1)
      then Some (false, D (ds_disk d) (ds_buf d) (ds_own d) (ds_queue d ++ [b]) (with_status (ds_st d) cur (Asleep b))) else None
  | Intr =>
      match ds_queue d with
      | [] => Some (true, d)
      | b :: q =>
          let r := serve (ds_buf d b) (ds_disk d) in
          Some (true, D r.1 (upd (ds_buf d) b r.2) (ds_own d) q (λ j, woken b (ds_st d j)))
      end
  | Kill j =>
      Some (true, D (ds_disk d) (ds_buf d) (ds_own d) (ds_queue d)
        (with_status (ds_st d) j (match ds_st d j with Asleep b => Woken b | q => q end)))
  | Wake cur b =>
      if bool_decide (ds_st d cur = Woken b) then
        if bool_decide (b ∈ ds_queue d)
        then Some (false, D (ds_disk d) (ds_buf d) (ds_own d) (ds_queue d) (with_status (ds_st d) cur (Asleep b)))
        else Some (true, D (ds_disk d) (ds_buf d) (ds_own d) (ds_queue d) (with_status (ds_st d) cur Active))
      else None
  end.

Fixpoint spec_iops (ops : list iop) (d : dspec) : option (list bool * dspec) :=
  match ops with
  | [] => Some ([], d)
  | o :: ops' =>
      match spec_iop o d with
      | None => None
      | Some (r, d1) => match spec_iops ops' d1 with None => None | Some (rs, d2) => Some (r :: rs, d2) end
      end
  end.
End spec.

(** ** The queue in the buffers *)

Fixpoint chain (bufs : Z → ibuf) (p : Z) (l : list Z) : Prop :=
  match l with
  | [] => p = 0
  | b :: l' => p = b ∧ b ≠ 0 ∧ chain bufs (b_qnext (bufs b)) l'
  end.

Lemma chain_ext bufs bufs' l : ∀ p, (∀ b, b ∈ l → b_qnext (bufs' b) = b_qnext (bufs b)) → chain bufs p l → chain bufs' p l.
Proof.
  induction l as [|b l IH]; intros p He; [done|]. intros (-> & Hb & Hc). cbn. split_and!; [done|done|].
  rewrite He by left. apply IH; [|done]. intros c Hc'. apply He. by right.
Qed.

(** What two buffers have in common apart from their place in the queue. *)
Abbreviation same := (λ x y, set_qnext 0 x = set_qnext 0 y).

Section queue.
Context {F C : Type}.
Abbreviation istate := (@istate F C).

Definition with_bufs (f : Z → ibuf) (s : istate) : istate := Ist (i_ss s) f (idequeue s) (havedisk1 s) (i_ctl s).

Lemma append_after_ok b l : ∀ fuel p (s : istate),
  chain (i_bufs s) p l → l ≠ [] → NoDup l → (length l ≤ fuel)%nat → b ∉ l → b ≠ 0 → b_qnext (i_bufs s b) = 0 →
  ∃ f, append_after fuel p b s = Ok tt (with_bufs f s) ∧ chain f p (l ++ [b]) ∧
    (∀ c, c ∉ l → f c = i_bufs s c) ∧ (∀ c, same (f c) (i_bufs s c)).
Proof.
  induction l as [|p' l IH]; intros fuel p s Hc Hne Hnd Hf Hb Hb0 Hq; [done|]. destruct fuel as [|fuel]; [cbn in Hf; lia|].
  destruct Hc as (-> & Hp & Hc). apply NoDup_cons in Hnd as [Hpl Hnd]. apply not_elem_of_cons in Hb as [Hbp Hb].
  cbn [append_after]. unfold the_buf. rewrite bind_gets. destruct l as [|p1 l].
  - cbn in Hc. rewrite Hc. cbn [Z.eqb]. eexists. split; [reflexivity|]. cbn. rewrite !upd_eq, (upd_ne _ _ _ b) by done. cbn.
    split_and!; try done.
    + intros c Hcc. apply upd_ne. intros ->. apply Hcc. left.
    + intros c. destruct (decide (c = p')) as [->|Hcc]; [by rewrite upd_eq|by rewrite upd_ne].
  - pose proof Hc as (E1 & Hp1 & _). rewrite (proj2 (Z.eqb_neq _ 0)) by congruence.
    destruct (IH fuel (b_qnext (i_bufs s p')) s Hc ltac:(done) Hnd ltac:(cbn in *; lia) Hb Hb0 Hq) as (f & E & Hch & Ho & Hs).
    exists f. rewrite E. split; [done|]. split; [|split; [|done]].
    + change ((p' :: p1 :: l) ++ [b]) with (p' :: (p1 :: l) ++ [b]). split_and!; [done|done|]. by rewrite Ho.
    + intros c Hcc. apply Ho. by apply not_elem_of_cons in Hcc as [_ ?].
Qed.

Lemma append_ok fuel b l (s : istate) :
  chain (i_bufs s) (idequeue s) l → NoDup l → (length l ≤ fuel)%nat → b ∉ l → b ≠ 0 →
  ∃ f q, append fuel b s = Ok tt (Ist (i_ss s) f q (havedisk1 s) (i_ctl s)) ∧ chain f q (l ++ [b]) ∧ (∀ c, same (f c) (i_bufs s c)).
Proof.
  intros Hc Hnd Hf Hb Hb0. unfold append, put_buf. rewrite bind_modify, bind_gets. cbn [idequeue].
  set (s1 := Ist _ (upd _ _ _) _ _ _).
  assert (Hs : ∀ c, same (i_bufs s1 c) (i_bufs s c)).
  { intros c. cbn. destruct (decide (c = b)) as [->|?]; [by rewrite upd_eq|by rewrite upd_ne]. }
  assert (Hq : b_qnext (i_bufs s1 b) = 0) by (cbn; by rewrite upd_eq).
  assert (Hc1 : chain (i_bufs s1) (idequeue s1) l).
  { eapply chain_ext; [|exact Hc]. intros c Hcl. cbn. rewrite upd_ne by (intros ->; done). done. }
  destruct l as [|p l].
  - cbn in Hc. rewrite Hc. cbn [Z.eqb]. eexists _, b. split; [reflexivity|]. split; [by split_and!|done].
  - pose proof Hc as (Ep & Hp & _). rewrite (proj2 (Z.eqb_neq _ 0)) by congruence.
    destruct (append_after_ok b (p :: l) fuel (idequeue s) s1 Hc1 ltac:(done) Hnd Hf Hb Hb0 Hq) as (f & E & Hch & _ & Hs').
    exists f, (idequeue s). rewrite E. split_and!; [done|done|]. intros c. rewrite Hs'. apply Hs.
Qed.
End queue.
