(* ===== verification/IdeTheorems.v ===== *)
(** * The IDE driver refines a disk with a queue

    The relation between the driver of [Ide] and its specification, that every step keeps it, and the theorems: [ide_refines]
    and [ide_serves]. *)
From S2P Require Import Prelude CString Bytes Ata Irq Kalloc Vm Proc Sleeplock Ide.

(** ** Requests *)

Lemma same_fields x y : set_qnext 0 x = set_qnext 0 y →
  b_flags x = b_flags y ∧ b_dev x = b_dev y ∧ b_blockno x = b_blockno y ∧ b_data x = b_data y.
Proof. destruct x, y. cbn. intros [= -> -> -> ->]. done. Qed.

Lemma same_serve x y disk : set_qnext 0 x = set_qnext 0 y →
  wants_io x = wants_io y ∧ dirty x = dirty y ∧ drive_of x = drive_of y ∧ (serve x disk).1 = (serve y disk).1 ∧
  set_qnext 0 (serve x disk).2 = set_qnext 0 (serve y disk).2.
Proof.
  destruct x, y. cbn. intros [= -> -> -> ->]. unfold wants_io, serve, dirty, drive_of. cbn.
  by destruct (Z.land _ B_DIRTY =? 0).
Qed.

(** A request that was served is finished. *)
Lemma serve_done x disk : wants_io (serve x disk).2 = false.
Proof.
  assert (E : ∀ f, Z.land (Z.land (Z.lor f B_VALID) (Z.lnot B_DIRTY)) (Z.lor B_VALID B_DIRTY) = B_VALID).
  { intros f. rewrite <- Z.land_assoc. change (Z.land (Z.lnot B_DIRTY) (Z.lor B_VALID B_DIRTY)) with B_VALID.
    rewrite Z.land_comm. apply Z.bits_inj'. intros i _. rewrite Z.land_spec, Z.lor_spec. by destruct (Z.testbit B_VALID i), (Z.testbit f i). }
  unfold wants_io, serve. destruct (dirty x); cbn [b_flags set_flags snd]; by rewrite E.
Qed.

Lemma find_proc_first (f : proc → bool) ps : ∀ i j p,
  ps !! j = Some p → f p = true → (∀ j' p', (j' < j)%nat → ps !! j' = Some p' → f p' = false) → find_proc f ps i = Some (i + j)%nat.
Proof.
  induction ps as [|q ps IH]; intros i [|j] p E Hf Hn; [done..| |]; cbn in *.
  - injection E as ->. rewrite Hf. f_equal. lia.
  - rewrite (Hn 0%nat q ltac:(lia) eq_refl). rewrite (IH (S i) j p E Hf); [f_equal; lia|].
    intros j' p' Hj E'. exact (Hn (S j') p' ltac:(lia) E').
Qed.

Section shows.
Context {F C : Type} {ports : Ports C} {mmio : Mmio C} (plock idelock : Z) (polls : nat) {laws : AtaOk C polls}.
Context (pid : nat → Z) (n : nat) (bs : list Z) (has : Z → bool).
Abbreviation istate := (@istate F C).

(** The processes: no spinlock is held between slices. *)
Record procs_show (st : nat → pstatus) (k : kern F) : Prop := {
  ps_held : k_held k = [];
  ps_len : length (k_procs k) = n;
  ps_proc j p : k_procs k !! j = Some p → p_pid p = pid j ∧ proc_status (st j) p
}.

(** The controller works on the head of the queue; the data of a write is with it already. *)
Definition working (d : dspec) (a : ata) : Prop :=
  match ds_queue d with
  | [] => a_op a = Idle ∧ ∀ dr k, a_disk a dr k = ds_disk d dr k
  | b :: _ =>
      let x := ds_buf d b in
      if dirty x then a_op a = Idle ∧ ∀ dr k, a_disk a dr k = (serve x (ds_disk d)).1 dr k
      else a_op a = Sends (drive_of x) (b_blockno x) ∧ ∀ dr k, a_disk a dr k = ds_disk d dr k
  end.

Definition ctl_shows (d : dspec) (c : C) : Prop :=
  ∃ a, at_work a c ∧ a_has a = has ∧ has (drive a) = true ∧ working d a.

(** What the queue and the waiting processes know of each other. *)
Record queue_ok (d : dspec) : Prop := {
  qo_nodup : NoDup (ds_queue d);
  qo_pending b : b ∈ ds_queue d → b ∈ bs ∧ request_ok has (ds_buf d b) ∧ wants_io (ds_buf d b) = true ∧
    ∃ j, (j < n)%nat ∧ ds_own d b = Some (pid j) ∧ (ds_st d j = Asleep b ∨ ds_st d j = Woken b);
  qo_wait j b : (j < n)%nat → ds_st d j = Asleep b → b ∈ ds_queue d ∧ ds_own d b = Some (pid j);
  qo_woken j b : (j < n)%nat → ds_st d j = Woken b →
    b ∈ bs ∧ ds_own d b = Some (pid j) ∧ (b ∈ ds_queue d ∨ wants_io (ds_buf d b) = false)
}.

Definition lock_shows (d : dspec) (sl : Z → sleeplock) : Prop :=
  ∀ b, b ∈ bs → match ds_own d b with
                | None => sl_locked (sl (b + 12)) = 0
                | Some q => sl_locked (sl (b + 12)) ≠ 0 ∧ sl_pid (sl (b + 12)) = q
                end.

Record ide_shows (d : dspec) (s : istate) : Prop := {
  is_procs : procs_show (ds_st d) (ker (i_ss s));
  is_lock : lock_shows d (slocks (i_ss s));
  is_buf b : set_qnext 0 (i_bufs s b) = set_qnext 0 (ds_buf d b);
  is_chain : chain (i_bufs s) (idequeue s) (ds_queue d);
  is_disk1 : (havedisk1 s =? 0) = negb (has 1);
  is_queue : queue_ok d;
  is_ctl : ctl_shows d (i_ctl s)
}.

(** The buffers and locks are where the kernel has them. *)
Hypothesis (Hide : idelock ≠ 0 ∧ idelock ≠ plock).
Hypothesis (Hpid : ∀ i j, (i < n)%nat → (j < n)%nat → pid i = pid j → i = j).
Hypothesis (Hbs : ∀ b, b ∈ bs → b ≠ 0 ∧ lock_addr plock (b + 12) ∧ b + 12 ∉ bs).
Hypothesis (Hhas : has 0 = true).

(** ** Lifting to the state of the driver *)

Lemma on_lock_ok {A} (m : cm (kern F) A) k sl f q d1 (c : C) a k' :
  m k = Ok a k' → on_lock m (Ist (Ss k sl) f q d1 c) = Ok a (Ist (Ss k' sl) f q d1 c).
Proof. intros E. unfold on_lock, on_ss, on_ker. cbn. by rewrite E. Qed.

Lemma on_ctl_ok {A} (m : cm C A) ss f q d1 c a c' :
  m c = Ok a c' → on_ctl m (Ist (F := F) ss f q d1 c) = Ok a (Ist ss f q d1 c').
Proof. intros E. unfold on_ctl. cbn. by rewrite E. Qed.

Lemma procs_look st k cur : procs_show st k → (cur < n)%nat → ∃ p, k_procs k !! cur = Some p ∧ p_pid p = pid cur ∧ proc_status (st cur) p.
Proof. intros [_ Hn Hp] Hc. rewrite <- Hn in Hc. destruct (lookup_lt_is_Some_2 _ _ Hc) as [p E]. exists p. split; [done|]. by apply Hp. Qed.

(** One process changes. *)
Lemma procs_alter st k cur f q :
  procs_show st k → (∀ p, k_procs k !! cur = Some p → p_pid (f p) = p_pid p ∧ proc_status q (f p)) →
  procs_show (with_status st cur q) (set_procs (alter f cur (k_procs k)) (set_held [] k)).
Proof.
  intros [Hh Hn Hp] Hf. constructor; cbn; [done|by rewrite length_alter|]. intros j p E. destruct (decide (j = cur)) as [->|Hj].
  - rewrite list_lookup_alter_eq in E. destruct (k_procs k !! cur) as [p0|] eqn:E0; [|done]. cbn in E. simplify_eq.
    destruct (Hf p0 eq_refl) as [-> ?]. rewrite with_status_eq. by destruct (Hp _ _ E0).
  - rewrite list_lookup_alter_ne in E by done. rewrite with_status_ne by done. by apply Hp.
Qed.

(** The sleepers of a channel are woken. *)
Lemma procs_wake st k b : procs_show st k → procs_show (λ j, woken b (st j)) (set_procs (wake_one b <$> k_procs k) (set_held [] k)).
Proof.
  intros [Hh Hn Hp]. constructor; cbn; [done|by rewrite length_fmap|]. intros j p E. rewrite list_lookup_fmap in E.
  destruct (k_procs k !! j) as [p0|] eqn:E0; [|done]. cbn in E. simplify_eq. destruct (Hp _ _ E0) as [Hi Hq].
  destruct (wake_status b _ _ Hq) as [Hq' ->]. done.
Qed.

Lemma procs_ext st st' k : (∀ j, (j < n)%nat → st j = st' j) → procs_show st k → procs_show st' k.
Proof.
  intros E [Hh Hn Hp]. constructor; [done|done|]. intros j p El. rewrite <- E; [by apply Hp|]. rewrite <- Hn. by eapply lookup_lt_Some.
Qed.

Lemma held_nil (k : kern F) : k_held k = [] → set_held [] k = k.
Proof. destruct k. cbn. by intros ->. Qed.

Abbreviation run := (run_iop plock idelock polls (length bs) pid).

(** ** Buffers change hands *)

(** A buffer with an active owner is not asked for. *)
Lemma owner_idle d cur b :
  queue_ok d → (cur < n)%nat → owns pid d cur b = true →
  ds_own d b = Some (pid cur) ∧ ds_st d cur = Active ∧ (b ∉ ds_queue d) ∧ (∀ j, (j < n)%nat → ds_st d j ≠ Asleep b ∧ ds_st d j ≠ Woken b).
Proof.
  intros Q Hc H. apply andb_true_iff in H as [Ho%bool_decide_eq_true Ha%bool_decide_eq_true].
  assert (Hne : ∀ j, (j < n)%nat → ds_own d b = Some (pid j) → ds_st d j = Active).
  { intros j Hj E. assert (j = cur) as -> by (apply Hpid; [done|done|congruence]). done. }
  split_and!; [done|done| |].
  - intros Hb. destruct (qo_pending d Q b Hb) as (_ & _ & _ & j & Hj & E & Hw). rewrite (Hne j Hj E) in Hw. by destruct Hw.
  - intros j Hj. split; intros E; [destruct (qo_wait d Q j b Hj E) as [_ E']|destruct (qo_woken d Q j b Hj E) as (_ & E' & _)];
      rewrite (Hne j Hj E') in E; done.
Qed.

Lemma take_shows d s cur b r d' :
  ide_shows d s → (cur < n)%nat → b ∈ bs → spec_iop pid has (Take cur b) d = Some (r, d') →
  ∃ s', run (Take cur b) s = Ok r s' ∧ ide_shows d' s'.
Proof.
  intros [Hp Hl Hb Hc H1 Q Ht] Hcur Hbb E. cbn [spec_iop] in E.
  destruct (bool_decide_reflect (ds_st d cur = Active)) as [Ha|]; [|done]. destruct (bool_decide_reflect (ds_own d b = None)) as [Ho|]; [|done].
  cbn in E. injection E as <- <-. destruct s as [[k sl] f q d1 c]. cbn in *. destruct (procs_look _ _ _ Hp Hcur) as (p & Ep & Hpp & _).
  pose proof (Hl b Hbb) as Hlb. rewrite Ho in Hlb.
  assert (Ea : on_ss (acquiresleep plock cur (b + 12)) (Ist (Ss k sl) f q d1 c) =
               Ok (Ret tt) (Ist (Ss (set_held [] k) (upd sl (b + 12) (Sleeplock 1 (p_pid p)))) f q d1 c)).
  { unfold on_ss. cbn. by rewrite (acquiresleep_free plock cur (b + 12) k sl p (ps_held _ _ Hp) Ep Hlb). }
  rewrite (bind_ok _ _ _ _ _ Ea). rewrite (held_nil _ (ps_held _ _ Hp)). eexists. split; [reflexivity|].
  constructor; cbn; try done.
  - intros b' Hb'. cbn. destruct (decide (b' = b)) as [->|Hne]; [rewrite !upd_eq; cbn; split; [lia|congruence]|].
    rewrite !upd_ne by lia. by apply Hl.
  - destruct Q as [Qn Qp Qw Qk]. constructor; cbn; [done| | |].
    + intros b' Hb'. destruct (Qp b' Hb') as (?&?&?& j & ? & E & ?). split_and!; try done. exists j. split_and!; try done.
      rewrite upd_ne by (intros ->; congruence). done.
    + intros j b' Hj E. destruct (Qw j b' Hj E) as [? E']. split; [done|]. rewrite upd_ne by (intros ->; congruence). done.
    + intros j b' Hj E. destruct (Qk j b' Hj E) as (? & E' & ?). split_and!; try done. rewrite upd_ne by (intros ->; congruence). done.
Qed.

Lemma give_shows d s cur b r d' :
  ide_shows d s → (cur < n)%nat → b ∈ bs → spec_iop pid has (Give cur b) d = Some (r, d') →
  ∃ s', run (Give cur b) s = Ok r s' ∧ ide_shows d' s'.
Proof.
  intros [Hp Hl Hb Hc H1 Q Ht] Hcur Hbb E. cbn [spec_iop] in E. destruct (owns pid d cur b) eqn:Eo; [|done]. injection E as <- <-.
  destruct (owner_idle d cur b Q Hcur Eo) as (Ho & Ha & Hq & Hj). destruct s as [[k sl] f q d1 c]. cbn in *.
  destruct (Hbs b Hbb) as (_ & Hla & H12).
  assert (Er : on_ss (releasesleep plock (b + 12)) (Ist (Ss k sl) f q d1 c) =
    Ok tt (Ist (Ss (set_procs (wake_one (b + 12) <$> k_procs k) (set_held [] k)) (upd sl (b + 12) (Sleeplock 0 0))) f q d1 c)).
  { unfold on_ss. cbn. by rewrite (release_ok plock (b + 12) k sl (ps_held _ _ Hp) Hla). }
  cbn [run_iop]. rewrite (bind_ok _ _ _ _ _ Er). eexists. split; [reflexivity|]. constructor; cbn; try done.
  - apply (procs_ext (λ j, woken (b + 12) (ds_st d j))); [|by apply procs_wake]. intros j Hjn.
    destruct (ds_st d j) as [|b'|b'] eqn:Ej; cbn; try done. destruct (Z.eqb_spec b' (b + 12)) as [->|]; [|done].
    destruct (qo_wait d Q j _ Hjn Ej) as [Hin _]. by destruct (qo_pending d Q _ Hin).
  - intros b' Hb'. cbn. destruct (decide (b' = b)) as [->|Hne]; [by rewrite !upd_eq|]. rewrite !upd_ne by lia. by apply Hl.
  - destruct Q as [Qn Qp Qw Qk]. constructor; cbn; [done| | |].
    + intros b' Hb'. destruct (Qp b' Hb') as (?&?&?& j & ? & E & ?). split_and!; try done. exists j. split_and!; try done.
      rewrite upd_ne by (intros ->; done). done.
    + intros j b' Hjn E. destruct (Qw j b' Hjn E) as [? E']. split; [done|]. rewrite upd_ne by (intros ->; by destruct (Hj j Hjn)). done.
    + intros j b' Hjn E. destruct (Qk j b' Hjn E) as (? & E' & ?). split_and!; try done. rewrite upd_ne by (intros ->; by destruct (Hj j Hjn)). done.
Qed.

Lemma fill_shows d s cur b fl dv bn da r d' :
  ide_shows d s → (cur < n)%nat → b ∈ bs → spec_iop pid has (Fill cur b fl dv bn da) d = Some (r, d') →
  ∃ s', run (Fill cur b fl dv bn da) s = Ok r s' ∧ ide_shows d' s'.
Proof.
  intros [Hp Hl Hb Hc H1 Q Ht] Hcur Hbb E. cbn [spec_iop] in E. destruct (owns pid d cur b) eqn:Eo; [|done]. injection E as <- <-.
  destruct (owner_idle d cur b Q Hcur Eo) as (Ho & Ha & Hq & Hj). destruct s as [ss f q d1 c]. cbn in *.
  eexists. split; [reflexivity|]. constructor; cbn; try done.
  - intros b'. destruct (decide (b' = b)) as [->|Hne]; [by rewrite !upd_eq|by rewrite !upd_ne].
  - eapply chain_ext; [|exact Hc]. intros b' Hb'. by rewrite upd_ne by (intros ->; done).
  - destruct Q as [Qn Qp Qw Qk]. constructor; cbn; try done.
    + intros b' Hb'. rewrite upd_ne by (intros ->; done). by apply Qp.
    + intros j b' Hjn E. rewrite upd_ne by (intros ->; by destruct (Hj j Hjn)). by apply Qk.
  - destruct Ht as (a & Hw & Hh & Hd & Ha'). exists a. split_and!; try done. unfold working in *. cbn.
    destruct (ds_queue d) as [|b0 l]; [done|]. rewrite upd_ne; [done|]. intros ->. apply Hq. left.
Qed.

(** ** Requests and interrupts *)

(** The controller has no request, and its disk is [disk]. *)
Definition resting (disk : Z → Z → list Z) (c : C) : Prop :=
  ∃ a, at_work a c ∧ a_has a = has ∧ has (drive a) = true ∧ a_op a = Idle ∧ ∀ dr k, a_disk a dr k = disk dr k.

(** The controller is given the request of [b], the head of the queue. *)
Lemma idestart_shows ss f q d1 c b l y disk d :
  resting disk c → b ≠ 0 → set_qnext 0 (f b) = set_qnext 0 y → request_ok has y →
  ds_queue d = b :: l → ds_buf d b = y → ds_disk d = disk →
  ∃ c', idestart polls b (Ist (F := F) ss f q d1 c) = Ok tt (Ist ss f q d1 c') ∧ ctl_shows d c'.
Proof.
  intros (a & Hw & Hh & Hd & Ho & Hk) Hb Hs [R1 R2 R3] Eq Ey Ek. destruct (same_serve _ _ disk Hs) as (_ & Edi & Edr & Esv & _).
  destruct (same_fields _ _ Hs) as (_ & _ & Ebl & Eda).
  destruct (idestart_io_ok polls a c (f b)) as (a' & c' & E & Hw' & Hst); [done|by rewrite Hh|done| |].
  { constructor; rewrite ?Ebl, ?Eda, ?Edr, ?Hh; done. }
  exists c'. split.
  - unfold idestart, the_buf. rewrite (proj2 (Z.eqb_neq _ 0) Hb), bind_gets. cbn [i_bufs]. by rewrite (on_ctl_ok _ _ _ _ _ _ _ _ E).
  - destruct Hst as (Hh' & Hd' & Hst). exists a'. split_and!; [done|congruence|by rewrite Hd', Edr|]. unfold working. rewrite Eq, Ey, Ek.
    rewrite Edi, Edr, Ebl, Eda in Hst. destruct (dirty y) eqn:Dy; destruct Hst as [Ho' Hk']; (split; [done|]).
    + intros dr k. rewrite Hk', Hk. unfold serve. by rewrite Dy.
    + intros dr k. by rewrite Hk', Hk.
Qed.

(** The first part of [ideintr]: the data of a read comes from the controller. *)
Lemma intr_data d b l ss f q d1 c :
  ctl_shows d c → ds_queue d = b :: l → set_qnext 0 (f b) = set_qnext 0 (ds_buf d b) →
  ∃ f' c', cwhen (Z.land (b_flags (f b)) B_DIRTY =? 0) (
      r ← on_ctl (idewait polls true);
      cwhen (0 <=? r) (d ← on_ctl (in_words 0x1f0 (BSIZE / 4)); put_buf b (set_data d))) (Ist (F := F) ss f q d1 c) =
      Ok tt (Ist ss f' q d1 c') ∧ resting (serve (ds_buf d b) (ds_disk d)).1 c' ∧ (∀ b', b' ≠ b → f' b' = f b') ∧
      set_qnext 0 (set_flags (Z.land (Z.lor (b_flags (f' b)) B_VALID) (Z.lnot B_DIRTY)) (f' b)) = set_qnext 0 (serve (ds_buf d b) (ds_disk d)).2.
Proof.
  intros (a & Hw & Hh & Hd & Hk) Eq Hs. destruct (same_serve _ _ (ds_disk d) Hs) as (_ & Edi & Edr & Esv & Ese). destruct (same_fields _ _ Hs) as (_ & _ & Ebl & _).
  unfold working in Hk. rewrite Eq in Hk. rewrite <- Edi, <- Edr, <- Ebl, <- Esv in Hk. rewrite <- Ese, <- Esv. clear Edi Edr Ebl Ese Esv.
  unfold cwhen, serve, dirty in *. destruct (Z.land (b_flags (f b)) B_DIRTY =? 0) eqn:Ed; cbn [negb] in *.
  - destruct Hk as [Ho Hk]. destruct (idewait_ok polls a c true Hw ltac:(by rewrite Hh)) as (c1 & E1 & H1).
    destruct (ata_data a c1 _ _ H1 Ho) as [E2 H2].
    exists (upd f b (set_data (ds_disk d (drive_of (f b)) (b_blockno (f b))) (f b))), (insl 0x1f0 128 c1).2. split.
    + rewrite (bind_ok _ _ _ _ _ (on_ctl_ok _ _ _ _ _ _ _ _ E1)). cbn [Z.leb Z.compare]. change (BSIZE / 4) with 128.
      rewrite (bind_ok _ _ _ _ _ (on_ctl_ok (in_words 0x1f0 128) ss f q d1 c1 (insl 0x1f0 128 c1).1 _ eq_refl)). unfold put_buf, modify. cbn. by rewrite E2, Hk.
    + rewrite upd_eq. split; [exists (set_op Idle a); split_and!; try done; by apply ata_work|].
      split; [|done]. intros b' Hb'. by rewrite upd_ne.
  - destruct Hk as [Ho Hk]. exists f, c. split; [done|]. split; [|done]. by exists a.
Qed.

Lemma queue_served d b l :
  queue_ok d → ds_queue d = b :: l →
  queue_ok (D (serve (ds_buf d b) (ds_disk d)).1 (upd (ds_buf d) b (serve (ds_buf d b) (ds_disk d)).2) (ds_own d) l (λ j, woken b (ds_st d j))).
Proof.
  intros [Qn Qp Qw Qk] Eq. rewrite Eq in *. pose proof Qn as [Hb Hn]%NoDup_cons. constructor; cbn; [done| | |].
  - intros b' Hb'. assert (Hne : b' ≠ b) by (intros ->; done). rewrite upd_ne by done.
    destruct (Qp b' ltac:(by right)) as (?&?&?& j & Hj & Ho & Hs). split_and!; try done. exists j. split_and!; try done.
    destruct Hs as [-> | ->]; cbn; [|by right]. rewrite (proj2 (Z.eqb_neq b' b) Hne). by left.
  - intros j b' Hj E. assert (ds_st d j = Asleep b' ∧ b' ≠ b) as [E' Hne].
    { destruct (ds_st d j) as [|c|c]; cbn in E; try done. destruct (Z.eqb_spec c b); simplify_eq. done. }
    destruct (Qw j b' Hj E') as [Hin ?]. apply elem_of_cons in Hin as [?|?]; done.
  - intros j b' Hj E. destruct (decide (b' = b)) as [->|Hne].
    + rewrite upd_eq. destruct (Qp b ltac:(left)) as (? & _). split_and!; [done| |right; apply serve_done].
      destruct (ds_st d j) as [|c|c] eqn:Es; cbn in E; try done.
      * destruct (Z.eqb_spec c b); simplify_eq. by destruct (Qw j b Hj Es).
      * simplify_eq. by destruct (Qk j b Hj Es) as (_ & ? & _).
    + rewrite upd_ne by done. assert (E' : ds_st d j = Woken b').
      { destruct (ds_st d j) as [|c|c]; cbn in E; try done. destruct (Z.eqb_spec c b); simplify_eq. }
      destruct (Qk j b' Hj E') as (? & ? & Hio). split_and!; try done. destruct Hio as [Hin|?]; [|by right].
      apply elem_of_cons in Hin as [?|?]; [done|by left].
Qed.

Lemma intr_shows d s r d' :
  ide_shows d s → spec_iop pid has Intr d = Some (r, d') → ∃ s', run Intr s = Ok r s' ∧ ide_shows d' s'.
Proof.
  intros [Hp Hl Hb Hc H1 Q Ht] E. destruct s as [[k sl] f q d1 c]. cbn [i_ss ker slocks i_bufs idequeue havedisk1 i_ctl] in *. cbn [spec_iop] in E.
  pose proof (ps_held _ _ Hp) as Hh. cbn [run_iop]. unfold ideintr. rewrite bind_assoc.
  rewrite (bind_ok _ _ _ _ _ (on_lock_ok (lock idelock) k sl f q d1 c _ _ (lock_free_ok idelock k ltac:(rewrite Hh; apply not_elem_of_nil)))).
  rewrite Hh, bind_assoc, bind_gets. set (k1 := set_held [idelock] k). cbn [idequeue]. destruct (ds_queue d) as [|b l] eqn:Eq.
  - injection E as <- <-. cbn in Hc. rewrite Hc. cbn [Z.eqb].
    rewrite (bind_ok _ _ _ _ _ (on_lock_ok (unlock idelock) k1 sl f 0 d1 c _ _ (unlock_only idelock k1 eq_refl))).
    eexists. split; [reflexivity|]. change (set_held [] k1) with (set_held [] k). rewrite (held_nil _ Hh). constructor; cbn; rewrite ?Eq; done.
  - injection E as <- <-. pose proof Hc as (-> & Hb0 & Hc'). rewrite (proj2 (Z.eqb_neq b 0) Hb0). unfold the_buf. rewrite bind_assoc, bind_gets.
    cbn [i_bufs]. unfold set_queue. rewrite bind_assoc, bind_modify. cbn [i_ss i_bufs idequeue havedisk1 i_ctl]. set (q' := b_qnext (f b)) in *.
    destruct (intr_data d b l (Ss k1 sl) f q' d1 c Ht Eq (Hb b)) as (f' & c' & E1 & Hrest & Hf' & Hsv).
    rewrite bind_assoc, (bind_ok _ _ _ _ _ E1). unfold put_buf. rewrite bind_assoc, bind_modify, bind_assoc, bind_modify.
    cbn [i_ss i_bufs idequeue havedisk1 i_ctl]. set (f2 := upd (upd f' b _) b _).
    assert (F2b : f2 b = set_flags (Z.land (Z.lor (b_flags (f' b)) B_VALID) (Z.lnot B_DIRTY)) (f' b)) by (unfold f2; by rewrite !upd_eq).
    assert (F2o : ∀ b', b' ≠ b → f2 b' = f b') by (intros b' Hne; unfold f2; rewrite !upd_ne by done; by apply Hf').
    pose proof (wakeup_held plock b idelock k1 eq_refl (proj2 Hide)) as Ew.
    rewrite bind_assoc, (bind_ok _ _ _ _ _ (on_lock_ok _ k1 sl f2 q' d1 c' _ _ Ew)), bind_assoc, bind_gets. cbn [idequeue].
    set (k2 := set_procs _ k1). set (d' := D _ _ _ _ _).
    assert (Hnb : b ∉ l) by (pose proof (qo_nodup d Q) as N; rewrite Eq in N; by apply NoDup_cons in N as [? _]).
    assert (Hs2 : ∀ b', set_qnext 0 (f2 b') = set_qnext 0 (ds_buf d' b')).
    { intros b'. cbn. destruct (decide (b' = b)) as [->|Hne]; [by rewrite F2b, upd_eq|rewrite F2o, upd_ne by done; apply Hb]. }
    assert (Hc2 : chain f2 q' l) by (eapply chain_ext; [|exact Hc']; intros b' Hb'; rewrite F2o by (intros ->; done); done).
    assert (∃ c'', cwhen (negb (q' =? 0)) (idestart polls q') (Ist (Ss k2 sl) f2 q' d1 c') = Ok tt (Ist (Ss k2 sl) f2 q' d1 c'') ∧ ctl_shows d' c'')
      as (c'' & E2 & Ht').
    { destruct l as [|b1 l]; cbn in Hc2.
      - rewrite Hc2. cbn. exists c'. split; [done|]. destruct Hrest as (a & ? & ? & ? & ? & ?). by exists a.
      - destruct Hc2 as (-> & Hb1 & _). rewrite (proj2 (Z.eqb_neq b1 0) Hb1). cbn [negb cwhen].
        destruct (qo_pending d Q b1 ltac:(rewrite Eq; right; left)) as (_ & R & _).
        assert (Hne : b1 ≠ b) by (intros ->; apply Hnb; left).
        apply (idestart_shows (Ss k2 sl) f2 b1 d1 c' b1 l (ds_buf d b1) (ds_disk d') d' Hrest Hb1); try done; [rewrite F2o by done; apply Hb|].
        cbn. by rewrite upd_ne. }
    rewrite bind_assoc, (bind_ok _ _ _ _ _ E2).
    rewrite (bind_ok _ _ _ _ _ (on_lock_ok (unlock idelock) k2 sl f2 q' d1 c'' _ _ (unlock_only idelock k2 eq_refl))).
    eexists. split; [reflexivity|]. constructor; cbn [i_ss ker slocks i_bufs idequeue havedisk1 i_ctl]; try done.
    + exact (procs_wake _ _ b Hp).
    + by apply queue_served.
Qed.

(** The wait in [iderw], with the request not finished, up to the switch to the scheduler. *)
Lemma round_sleeps st k sl f q d1 (c : C) cur b :
  k_held k = [idelock] → procs_show st (set_held [] k) → (cur < n)%nat → wants_io (f b) = true →
  (a ← iderw_round plock idelock cur b; isettle plock a) (Ist (Ss k sl) f q d1 c) =
    Ok false (Ist (Ss (set_procs (alter (set_state SLEEPING ∘ set_chan b) cur (k_procs k)) (set_held [] k)) sl) f q d1 c).
Proof.
  intros Hh Hp Hc Hw. destruct (procs_look _ _ _ Hp Hc) as (p & Ep & _). cbn in Ep. unfold iderw_round, the_buf. rewrite bind_assoc, bind_gets. cbn [i_bufs].
  unfold wants_io in Hw. rewrite Hw.
  rewrite (bind_ok _ _ _ _ _ (on_lock_ok _ k sl f q d1 c _ _ (sleep_ok plock cur b idelock k p Hh Ep (proj1 Hide) (proj2 Hide)))). cbn [isettle].
  set (k1 := set_procs _ _).
  rewrite (bind_ok _ _ _ _ _ (on_lock_ok (unlock plock) k1 sl f q d1 c _ _ (unlock_only plock k1 eq_refl))). unfold k1. by rewrite alter_twice.
Qed.

Lemma round_returns (k : kern F) sl f q d1 (c : C) cur b :
  k_held k = [idelock] → wants_io (f b) = false →
  (a ← iderw_round plock idelock cur b; isettle plock a) (Ist (Ss k sl) f q d1 c) = Ok true (Ist (Ss (set_held [] k) sl) f q d1 c).
Proof.
  intros Hh Hw. unfold iderw_round, the_buf. rewrite bind_assoc, bind_gets. cbn [i_bufs]. unfold wants_io in Hw. rewrite Hw.
  by rewrite bind_assoc, (bind_ok _ _ _ _ _ (on_lock_ok (unlock idelock) k sl f q d1 c _ _ (unlock_only idelock k Hh))).
Qed.

Lemma wake_shows d s cur b r d' :
  ide_shows d s → (cur < n)%nat → spec_iop pid has (Wake cur b) d = Some (r, d') →
  ∃ s', run (Wake cur b) s = Ok r s' ∧ ide_shows d' s'.
Proof.
  intros [Hp Hl Hb Hc H1 Q Ht] Hcur E. destruct s as [[k sl] f q d1 c]. cbn [i_ss ker slocks i_bufs idequeue havedisk1 i_ctl] in *. cbn [spec_iop] in E.
  destruct (bool_decide_reflect (ds_st d cur = Woken b)) as [Hst|]; [|done]. destruct (qo_woken d Q cur b Hcur Hst) as (Hbb & Ho & Hio).
  pose proof (ps_held _ _ Hp) as Hh. cbn [run_iop].
  rewrite (bind_ok _ _ _ _ _ (on_lock_ok (lock plock) k sl f q d1 c _ _ (lock_free_ok plock k ltac:(rewrite Hh; apply not_elem_of_nil)))). rewrite Hh.
  set (k1 := set_held [plock] k).
  rewrite (bind_ok _ _ _ _ _ (on_lock_ok (setp cur (set_state RUNNING)) k1 sl f q d1 c _ _ eq_refl)). set (k2 := set_procs _ k1).
  unfold iderw_resume. rewrite bind_assoc. rewrite (bind_ok _ _ _ _ _ (on_lock_ok _ k2 sl f q d1 c _ _ (sleep_resume_ok plock cur idelock k2 eq_refl (proj2 Hide)))).
  set (k3 := set_held [idelock] _).
  assert (Hp3 : procs_show (with_status (ds_st d) cur Active) (set_held [] k3)).
  { change (set_held [] k3) with (set_procs (alter (set_chan 0) cur (alter (set_state RUNNING) cur (k_procs k))) (set_held [] k)). rewrite alter_twice.
    apply procs_alter; done. }
  destruct (bool_decide_reflect (b ∈ ds_queue d)) as [Hq|Hq]; injection E as <- <-.
  - destruct (qo_pending d Q b Hq) as (_ & _ & Hwio & _). destruct (same_serve _ _ (ds_disk d) (Hb b)) as (Ewio & _).
    rewrite (round_sleeps _ k3 sl f q d1 c cur b eq_refl Hp3 Hcur ltac:(by rewrite Ewio)). eexists. split; [reflexivity|].
    constructor; cbn [i_ss ker slocks i_bufs idequeue havedisk1 i_ctl]; try done.
    + apply (procs_ext (with_status (with_status (ds_st d) cur Active) cur (Asleep b))); [intros j _; unfold with_status; cbn; repeat case_decide; done|].
      exact (procs_alter _ (set_held [] k3) cur (set_state SLEEPING ∘ set_chan b) (Asleep b) Hp3 ltac:(done)).
    + destruct Q as [Qn Qp Qw Qk]. constructor; cbn; [done| | |].
      * intros b' Hb'. destruct (Qp b' Hb') as (?&?&?& j & Hj & Hoj & Hs). split_and!; try done. exists j. split_and!; try done.
        unfold with_status. case_decide; [|done]. subst j. left. f_equal. destruct Hs; congruence.
      * intros j b' Hj E. unfold with_status in E. case_decide; [|by apply Qw]. subst j. simplify_eq. done.
      * intros j b' Hj E. unfold with_status in E. case_decide; [done|]. by apply Qk.
  - assert (Hwio : wants_io (f b) = false).
    { destruct (same_serve _ _ (ds_disk d) (Hb b)) as (-> & _). by destruct Hio. }
    rewrite (round_returns k3 sl f q d1 c cur b eq_refl Hwio). eexists. split; [reflexivity|].
    constructor; cbn [i_ss ker slocks i_bufs idequeue havedisk1 i_ctl]; try done.
    destruct Q as [Qn Qp Qw Qk]. constructor; cbn; [done| | |].
    * intros b' Hb'. destruct (Qp b' Hb') as (?&?&?& j & Hj & Hoj & Hs). split_and!; try done. exists j. split_and!; try done.
      rewrite with_status_ne; [done|]. intros ->. assert (b' = b) by (destruct Hs; congruence). by subst.
    * intros j b' Hj E. unfold with_status in E. case_decide; [done|by apply Qw].
    * intros j b' Hj E. unfold with_status in E. case_decide; [done|by apply Qk].
Qed.

Lemma kill_shows d s j r d' :
  ide_shows d s → (j < n)%nat → spec_iop pid has (Kill j) d = Some (r, d') →
  ∃ s', run (Kill j) s = Ok r s' ∧ ide_shows d' s'.
Proof.
  intros [Hp Hl Hb Hc H1 Q Ht] Hj E. destruct s as [[k sl] f q d1 c]. cbn [i_ss ker slocks i_bufs idequeue havedisk1 i_ctl] in *. cbn [spec_iop] in E.
  injection E as <- <-. pose proof (ps_held _ _ Hp) as Hh. destruct (procs_look _ _ _ Hp Hj) as (p & Ep & Hpp & Hps). cbn [run_iop].
  set (g := λ p, (if is_state SLEEPING p then set_state RUNNABLE else id) (set_killed 1 p)).
  assert (Ek : kill plock (pid j) k = Ok 0 (set_procs (alter g j (k_procs k)) (set_held [] k))).
  { unfold kill. rewrite (bind_ok _ _ _ _ _ (lock_free_ok plock k ltac:(rewrite Hh; apply not_elem_of_nil))). rewrite Hh, bind_gets. cbn [k_procs set_held].
    rewrite (find_proc_first _ _ 0 j p Ep).
    - cbn [Nat.add]. unfold setp. rewrite bind_modify. set (k1 := set_procs _ _).
      assert (Ep1 : k_procs k1 !! j = Some (set_killed 1 p)) by (cbn; by rewrite list_lookup_alter_eq, Ep).
      rewrite (bind_ok _ _ _ _ _ (getp_at j _ k1 Ep1)).
      assert (Ea : alter g j (k_procs k) = alter (λ p0, if is_state SLEEPING p then set_state RUNNABLE p0 else p0) j (alter (set_killed 1) j (k_procs k))).
      { apply list_eq. intros i. destruct (decide (i = j)) as [->|]; [|by rewrite !list_lookup_alter_ne].
        rewrite !list_lookup_alter_eq, Ep. cbn. unfold g. by destruct (is_state SLEEPING p). }
      rewrite Ea. change (is_state SLEEPING (set_killed 1 p)) with (is_state SLEEPING p). destruct (is_state SLEEPING p).
      + rewrite bind_modify. rewrite (bind_ok _ _ _ _ _ (unlock_only plock (set_procs _ k1) eq_refl)). done.
      + rewrite (list_alter_id (λ p0, p0)) by done. rewrite bind_ret, (bind_ok _ _ _ _ _ (unlock_only plock k1 eq_refl)). done.
    - by apply Z.eqb_eq.
    - intros j' p' Hlt E'. destruct (ps_proc _ _ Hp _ _ E') as [-> _]. apply Z.eqb_neq. intros Heq. apply Hpid in Heq; lia. }
  rewrite (bind_ok _ _ _ _ _ (on_lock_ok _ k sl f q d1 c _ _ Ek)). eexists. split; [reflexivity|].
  assert (Hps' : ∀ p0, k_procs k !! j = Some p0 → p_pid (g p0) = p_pid p0 ∧ proc_status (match ds_st d j with Asleep b => Woken b | q => q end) (g p0)).
  { intros p0 E0. rewrite Ep in E0. injection E0 as <-. unfold g, is_state. destruct (ds_st d j) as [|b|b]; cbn [proc_status] in Hps |- *.
    - rewrite bool_decide_eq_false_2 by congruence. done.
    - destruct Hps as [Hs Hch]. rewrite bool_decide_eq_true_2 by done. done.
    - destruct Hps as [Hs Hch]. rewrite bool_decide_eq_false_2 by congruence. done. }
  constructor; cbn [i_ss ker slocks i_bufs idequeue havedisk1 i_ctl]; try done.
  - by apply procs_alter.
  - destruct Q as [Qn Qp Qw Qk]. constructor; cbn; [done| | |].
    + intros b' Hb'. destruct (Qp b' Hb') as (?&?&?& i & Hi & Hoi & Hs). split_and!; try done. exists i. split_and!; try done.
      unfold with_status. case_decide; [|done]. subst i. right. by destruct Hs as [-> | ->].
    + intros i b' Hi E. unfold with_status in E. case_decide; [subst i; by destruct (ds_st d j)|by apply Qw].
    + intros i b' Hi E. unfold with_status in E. case_decide; [|by apply Qk]. subst i. destruct (ds_st d j) as [|c'|c'] eqn:Es; simplify_eq.
      * destruct (Qw j b' Hi Es) as [Hq ?]. split_and!; [by destruct (Qp b' Hq)|done|by left].
      * by apply Qk.
Qed.

Lemma queue_asked d cur b :
  queue_ok d → (cur < n)%nat → b ∈ bs → owns pid d cur b = true → request_ok has (ds_buf d b) → wants_io (ds_buf d b) = true →
  queue_ok (D (ds_disk d) (ds_buf d) (ds_own d) (ds_queue d ++ [b]) (with_status (ds_st d) cur (Asleep b))).
Proof.
  intros Q Hc Hbb Hown R Hw. destruct (owner_idle d cur b Q Hc Hown) as (Ho & Ha & Hq & Hj). destruct Q as [Qn Qp Qw Qk]. constructor; cbn.
  - apply NoDup_app. split_and!; [done| |apply NoDup_singleton]. intros x Hx ->%list_elem_of_singleton. done.
  - intros b' [Hb'| ->%list_elem_of_singleton]%elem_of_app.
    + destruct (Qp b' Hb') as (?&?&?& j & Hjn & Hoj & Hs). split_and!; try done. exists j. split_and!; try done.
      rewrite with_status_ne; [done|]. intros ->. rewrite Ha in Hs. by destruct Hs.
    + split_and!; try done. exists cur. split_and!; [done|done|]. left. apply with_status_eq.
  - intros j b' Hjn E. unfold with_status in E. case_decide; [subst; simplify_eq; split; [apply elem_of_app; right; by left|done]|].
    destruct (Qw j b' Hjn E). split; [apply elem_of_app; by left|done].
  - intros j b' Hjn E. unfold with_status in E. case_decide; [done|]. destruct (Qk j b' Hjn E) as (? & ? & Hio). split_and!; try done.
    destruct Hio; [left; apply elem_of_app; by left|by right].
Qed.

Lemma rw_request d cur b :
  owns pid d cur b && wants_io (ds_buf d b) && (0 <=? b_blockno (ds_buf d b)) && (b_blockno (ds_buf d b) <? FSSIZE) &&
    (length (b_data (ds_buf d b)) =? 512)%nat && ((b_dev (ds_buf d b) =? 0) || has 1) = true →
  owns pid d cur b = true ∧ wants_io (ds_buf d b) = true ∧ (b_dev (ds_buf d b) = 0 ∨ has 1 = true) ∧ request_ok has (ds_buf d b).
Proof.
  intros H. apply andb_true_iff in H as [H H6]. apply andb_true_iff in H as [H H5%Nat.eqb_eq]. apply andb_true_iff in H as [H H4%Z.ltb_lt].
  apply andb_true_iff in H as [H H3%Z.leb_le]. apply andb_true_iff in H as [H1 H2].
  assert (Hd : b_dev (ds_buf d b) = 0 ∨ has 1 = true) by (apply orb_true_iff in H6 as [?%Z.eqb_eq|?]; auto).
  split_and!; try done. constructor; [lia|done|]. destruct Hd as [Hd|Hd]; [unfold drive_of; by rewrite Hd|].
  by destruct (drive_of_bit (ds_buf d b)) as [->| ->].
Qed.

Lemma rw_shows d s cur b r d' :
  ide_shows d s → (cur < n)%nat → b ∈ bs → spec_iop pid has (Rw cur b) d = Some (r, d') →
  ∃ s', run (Rw cur b) s = Ok r s' ∧ ide_shows d' s'.
Proof.
  intros [Hp Hl Hb Hc H1 Q Ht] Hcur Hbb E. destruct s as [[k sl] f q d1 c]. cbn [i_ss ker slocks i_bufs idequeue havedisk1 i_ctl] in *. cbn [spec_iop] in E.
  destruct (_ && _) eqn:Ec in E; [|done]. injection E as <- <-. destruct (rw_request d cur b Ec) as (Hown & Hw & Hdev & R). clear Ec.
  destruct (owner_idle d cur b Q Hcur Hown) as (Ho & Ha & Hq & Hj). pose proof (ps_held _ _ Hp) as Hh.
  destruct (procs_look _ _ _ Hp Hcur) as (p & Ep & Hpp & _). destruct (Hbs b Hbb) as (Hb0 & _). cbn [run_iop]. unfold iderw.
  assert (Eh : on_ss (holdingsleep cur (b + 12)) (Ist (Ss k sl) f q d1 c) = Ok true (Ist (Ss k sl) f q d1 c)).
  { unfold on_ss. cbn. rewrite (holdingsleep_ok cur (b + 12) k sl p Hh Ep). pose proof (Hl b Hbb) as Hlb. rewrite Ho in Hlb. destruct Hlb as [L1 L2].
    by rewrite (proj2 (Z.eqb_neq _ 0) L1), L2, Hpp, Z.eqb_refl. }
  rewrite bind_assoc, (bind_ok _ _ _ _ _ Eh). cbn [negb]. unfold the_buf. rewrite bind_assoc, bind_gets. cbn [i_bufs].
  destruct (same_serve _ _ (ds_disk d) (Hb b)) as (Ewio & _). destruct (same_fields _ _ (Hb b)) as (_ & Edv & _ & _).
  assert (Ew : (Z.land (b_flags (f b)) (Z.lor B_VALID B_DIRTY) =? B_VALID) = false) by (rewrite Hw in Ewio; unfold wants_io in Ewio; by destruct (_ =? B_VALID)).
  rewrite Ew, bind_assoc, bind_gets. cbn [havedisk1].
  assert (Edk : negb (b_dev (f b) =? 0) && (d1 =? 0) = false).
  { rewrite Edv, H1. destruct Hdev as [->| ->]; [done|]. by rewrite andb_false_r. }
  rewrite Edk, bind_assoc.
  rewrite (bind_ok _ _ _ _ _ (on_lock_ok (lock idelock) k sl f q d1 c _ _ (lock_free_ok idelock k ltac:(rewrite Hh; apply not_elem_of_nil)))). rewrite Hh.
  set (k1 := set_held [idelock] k).
  assert (Hlen : (length (ds_queue d) ≤ length bs)%nat).
  { apply submseteq_length, NoDup_submseteq; [apply (qo_nodup d Q)|]. intros x Hx. by destruct (qo_pending d Q x Hx). }
  destruct (append_ok (length bs) b (ds_queue d) (Ist (Ss k1 sl) f q d1 c) Hc (qo_nodup d Q) Hlen Hq Hb0) as (f' & q' & Ea & Hc' & Hs').
  cbn [i_ss i_bufs havedisk1 i_ctl] in *. rewrite bind_assoc, (bind_ok _ _ _ _ _ Ea), bind_assoc, bind_gets. cbn [idequeue].
  set (d' := D _ _ _ _ _). assert (Hb' : ∀ c, set_qnext 0 (f' c) = set_qnext 0 (ds_buf d' c)) by (intros x; rewrite Hs'; apply Hb).
  assert (∃ c', cwhen (q' =? b) (idestart polls b) (Ist (Ss k1 sl) f' q' d1 c) = Ok tt (Ist (Ss k1 sl) f' q' d1 c') ∧ ctl_shows d' c') as (c' & E2 & Ht').
  { destruct (ds_queue d) as [|h t] eqn:Eq.
    - destruct Hc' as (-> & _). rewrite Z.eqb_refl. cbn [cwhen]. destruct Ht as (a & ? & ? & ? & Hwk). unfold working in Hwk. rewrite Eq in Hwk.
      apply (idestart_shows (Ss k1 sl) f' b d1 c b [] (ds_buf d b) (ds_disk d) d'); try done; by exists a.
    - destruct Hc' as (-> & _). rewrite (proj2 (Z.eqb_neq h b)) by (intros ->; apply Hq; left). cbn [cwhen]. exists c. split; [done|].
      destruct Ht as (a & ? & ? & ? & Hwk). exists a. split_and!; try done. unfold working in *. rewrite Eq in Hwk. exact Hwk. }
  rewrite bind_assoc, (bind_ok _ _ _ _ _ E2).
  assert (Hp1 : procs_show (ds_st d) (set_held [] k1)) by (change (set_held [] k1) with (set_held [] k); by rewrite (held_nil _ Hh)).
  rewrite (round_sleeps _ k1 sl f' q' d1 c' cur b eq_refl Hp1 Hcur).
  2: { destruct (same_serve _ _ (ds_disk d) (Hb' b)) as (-> & _). exact Hw. }
  eexists. split; [reflexivity|]. constructor; cbn [i_ss ker slocks i_bufs idequeue havedisk1 i_ctl]; try done.
  - exact (procs_alter _ (set_held [] k1) cur (set_state SLEEPING ∘ set_chan b) (Asleep b) Hp1 ltac:(done)).
  - by apply queue_asked.
Qed.

(** What an operation needs: processes and buffers that exist. *)
Definition iop_ok (o : iop) : Prop :=
  match o with
  | Take cur b | Give cur b | Fill cur b _ _ _ _ | Rw cur b => (cur < n)%nat ∧ b ∈ bs
  | Wake cur _ | Kill cur => (cur < n)%nat
  | Intr => True
  end.

Lemma iop_shows d s o r d' :
  ide_shows d s → iop_ok o → spec_iop pid has o d = Some (r, d') → ∃ s', run o s = Ok r s' ∧ ide_shows d' s'.
Proof.
  intros Hs Ho E. destruct o; cbn [iop_ok] in Ho; try (match type of Ho with _ ∧ _ => destruct Ho end);
    eauto using take_shows, give_shows, fill_shows, rw_shows, intr_shows, kill_shows, wake_shows.
Qed.

Lemma iops_show ops : ∀ d s rs d',
  ide_shows d s → Forall iop_ok ops → spec_iops pid has ops d = Some (rs, d') →
  ∃ s', run_iops plock idelock polls (length bs) pid ops s = Ok rs s' ∧ ide_shows d' s'.
Proof.
  induction ops as [|o ops IH]; intros d s rs d' Hs Ho E; cbn [spec_iops run_iops] in *; [injection E as <- <-; by exists s|].
  apply Forall_cons in Ho as [Ho Hos]. destruct (spec_iop pid has o d) as [[r d1]|] eqn:E1; [|done].
  destruct (spec_iops pid has ops d1) as [[rs2 d2]|] eqn:E2; [|done]. injection E as <- <-.
  destruct (iop_shows _ _ _ _ _ Hs Ho E1) as (s1 & R1 & Hs1). destruct (IH _ _ _ _ Hs1 Hos E2) as (s2 & R2 & Hs2).
  exists s2. split; [|done]. by rewrite (bind_ok _ _ _ _ _ R1), (bind_ok _ _ _ _ _ R2).
Qed.
End shows.

(** ** The theorems *)

(** Where the kernel has its locks and buffers. *)
Record ide_layout (plock idelock : Z) (pid : nat → Z) (n : nat) (bs : list Z) (has : Z → bool) : Prop := {
  il_lock : idelock ≠ 0 ∧ idelock ≠ plock;
  il_pids i j : (i < n)%nat → (j < n)%nat → pid i = pid j → i = j;
  il_bufs b : b ∈ bs → b ≠ 0 ∧ lock_addr plock (b + 12) ∧ b + 12 ∉ bs;
  il_disk0 : has 0 = true
}.

(** C15: the IDE driver is a disk with a queue.  On a controller that reports no errors and takes the data of a write with the
    command ([AtaOk]), for every sequence of requests, interrupts, kills and switches to woken processes, in
    which a process asks only for buffers whose lock it has, the driver does not panic, and does what the specification does:
    the requests are served in the order of the calls, one for each interrupt, each as one read or write of a block of the disk; the
    process that asked sleeps until then, also when it is killed, and finds its buffer valid; no wakeup is lost; an interrupt without a
    request changes nothing. *)
Theorem ide_refines {F C} `{AtaOk C polls} `{!Mmio C} plock idelock pid n bs has ops d (s : @istate F C) rs d' :
  ide_layout plock idelock pid n bs has → ide_shows polls pid n bs has d s → Forall (iop_ok n bs) ops →
  spec_iops pid has ops d = Some (rs, d') →
  ∃ s', run_iops plock idelock polls (length bs) pid ops s = Ok rs s' ∧ ide_shows polls pid n bs has d' s'.
Proof. intros [L1 L2 L3 L4] Hs Ho E. exact (iops_show plock idelock polls pid n bs has L1 L2 L3 L4 ops d s rs d' Hs Ho E). Qed.

(** The requests of a queue, one after the other. *)
Fixpoint serve_all (l : list Z) (disk : Z → Z → list Z) (buf : Z → ibuf) : (Z → Z → list Z) * (Z → ibuf) :=
  match l with
  | [] => (disk, buf)
  | b :: l' => let r := serve (buf b) disk in serve_all l' r.1 (upd buf b r.2)
  end.

Lemma spec_serves pid has l : ∀ d, ds_queue d = l →
  ∃ d', spec_iops pid has (replicate (length l) Intr) d = Some (replicate (length l) true, d') ∧ ds_queue d' = [] ∧
    (ds_disk d', ds_buf d') = serve_all l (ds_disk d) (ds_buf d) ∧ ds_own d' = ds_own d ∧
    (∀ j, ds_st d' j = foldl (λ q b, woken b q) (ds_st d j) l).
Proof.
  induction l as [|b l IH]; intros d Eq; [by exists d|]. cbn [length replicate spec_iops spec_iop]. rewrite Eq. set (d1 := D _ _ _ l _).
  destruct (IH d1 eq_refl) as (d' & E & Eq' & Es & Eo & Hw). rewrite E. by exists d'.
Qed.

Lemma woken_all l : ∀ b, foldl (λ q b, woken b q) (Woken b) l = Woken b.
Proof. induction l as [|c l IH]; intros b; [done|]. apply IH. Qed.

Lemma asleep_all l : ∀ b, b ∈ l → foldl (λ q b, woken b q) (Asleep b) l = Woken b.
Proof.
  induction l as [|c l IH]; intros b Hb; [by apply not_elem_of_nil in Hb|]. cbn. destruct (Z.eqb_spec b c) as [->|Hne]; [apply woken_all|].
  apply IH. by apply elem_of_cons in Hb as [?|?].
Qed.

(** C31: the disk is served.  On such a controller, from any state that the driver can be in, as many interrupts as there are requests finish all of them: the queue is
    empty, every process that slept on its request is ready to run, and disk and buffers are as after the requests one by one,
    in the order of the calls. *)
Theorem ide_serves {F C} `{AtaOk C polls} `{!Mmio C} plock idelock pid n bs has d (s : @istate F C) :
  ide_layout plock idelock pid n bs has → ide_shows polls pid n bs has d s →
  let k := length (ds_queue d) in
  ∃ s' d', run_iops plock idelock polls (length bs) pid (replicate k Intr) s = Ok (replicate k true) s' ∧ ide_shows polls pid n bs has d' s' ∧
    ds_queue d' = [] ∧ (ds_disk d', ds_buf d') = serve_all (ds_queue d) (ds_disk d) (ds_buf d) ∧
    (∀ j b, (j < n)%nat → ds_st d j = Asleep b → ds_st d' j = Woken b) ∧ (∀ j b, (j < n)%nat → ds_st d' j ≠ Asleep b).
Proof.
  intros [L1 L2 L3 L4] Hs k. destruct (spec_serves pid has (ds_queue d) d eq_refl) as (d' & E & Eq & Es & Eo & Hw).
  destruct (iops_show plock idelock polls pid n bs has L1 L2 L3 L4 (replicate k Intr) d s _ d' Hs ltac:(by apply Forall_replicate) E) as (s' & R & Hs').
  exists s', d'. split_and!; try done.
  - intros j b Hj Ej. rewrite Hw, Ej. apply asleep_all. by destruct (qo_wait _ _ _ _ _ (is_queue _ _ _ _ _ _ _ Hs) j b Hj Ej).
  - intros j b Hj Ej. destruct (qo_wait _ _ _ _ _ (is_queue _ _ _ _ _ _ _ Hs') j b Hj Ej) as [Hin _]. rewrite Eq in Hin. by apply not_elem_of_nil in Hin.
Qed.

(** ** Starting up, and errors *)

Section init.
Context {F C : Type} {ports : Ports C} {mmio : Mmio C} (plock idelock : Z) (polls : nat) {laws : AtaOk C polls}.

Lemma find_disk1_ok n : ∀ a c, at_rest a c → (0 < n)%nat →
  ∃ c', find_disk1 n c = Ok (if a_has a (drive a) then 1 else 0) c' ∧ at_rest a c'.
Proof.
  induction n as [|n IH]; intros a c H Hn; [lia|]. cbn [find_disk1]. unfold in8, mbind, cm_bind. destruct (a_has a (drive a)) eqn:Eh.
  - destruct (ata_ready a c H Eh) as [Er H']. assert (Hr : (inb 0x1f7 c).1 ≠ 0) by (intros Hz; rewrite Hz in Er; done).
    rewrite (proj2 (Z.eqb_neq _ 0) Hr). cbn [negb]. by eexists.
  - destruct (ata_absent a c H Eh) as [Er H']. rewrite Er. cbn [Z.eqb negb]. destruct n as [|n]; [by eexists|].
    destruct (IH a _ H' ltac:(lia)) as (c' & E & H2). rewrite Eh in E. by exists c'.
Qed.

(** [ideinit] finds out whether there is a second drive, and leaves the controller ready for the first request.  The registers
    of the interrupt controller are not those of the disk. *)
Lemma ideinit_finds has disk ncpu (s : @istate F C) :
  (∀ a c p v, at_work a c → at_work a (mmio_write p v c)) → has 0 = true → havedisk1 s = 0 → resting polls has disk (i_ctl s) →
  ∃ s', ideinit polls ncpu s = Ok tt s' ∧ (havedisk1 s' =? 0) = negb (has 1) ∧ resting polls has disk (i_ctl s') ∧
    i_ss s' = i_ss s ∧ i_bufs s' = i_bufs s ∧ idequeue s' = idequeue s.
Proof.
  intros Hm H0 Hd1 (a & Hw & <- & Hd & Ho & Hk). destruct s as [ss f q d1 c]. cbn in Hd1, Hw. subst d1. unfold ideinit.
  rewrite (bind_ok _ _ _ _ _ (on_ctl_ok (ioapicenable IRQ_IDE (ncpu - 1)) ss f q 0 c _ _ eq_refl)). set (c1 := mmio_write _ _ _).
  assert (Hw1 : at_work a c1) by (unfold c1; by repeat apply Hm). destruct (idewait_ok polls a c1 false Hw1 Hd) as (c2 & E2 & H2).
  rewrite (bind_ok _ _ _ _ _ (on_ctl_ok _ ss f q 0 c1 _ _ E2)).
  destruct (out8_reg polls a c2 0x1f6 (Z.lor 0xe0 (Z.shiftl 1 4)) H2 eq_refl ltac:(by split)) as (c3 & E3 & H3).
  rewrite (bind_ok _ _ _ _ _ (on_ctl_ok _ ss f q 0 c2 _ _ E3)).
  destruct (find_disk1_ok 1000 _ c3 H3 ltac:(lia)) as (c4 & E4 & H4). rewrite (bind_ok _ _ _ _ _ (on_ctl_ok _ ss f q 0 c3 _ _ E4)).
  change (drive (set_reg _ _ a)) with 1. change (a_has (set_reg _ _ a)) with (a_has a).
  destruct (out8_reg polls _ c4 0x1f6 (Z.lor 0xe0 (Z.shiftl 0 4)) H4 eq_refl ltac:(by split)) as (c5 & E5 & H5).
  set (v := if a_has a 1 then 1 else 0).
  exists (Ist ss f q v c5). split.
  - unfold cwhen, v. destruct (a_has a 1); cbn [Z.eqb Pos.eqb]; [rewrite bind_modify|rewrite bind_ret]; exact (on_ctl_ok _ ss f q _ c4 _ _ E5).
  - split_and!; try done; [unfold v; cbn; by destruct (a_has a 1)|]. eexists. split; [apply ata_work; exact H5|]. by split_and!.
Qed.

(** When the controller reports an error, [ideintr] leaves the data as it was and marks it valid all the same. *)
Lemma intr_ignores_error (s : @istate F C) b c' :
  idelock ≠ plock → k_held (ker (i_ss s)) = [] → idequeue s = b → b ≠ 0 → b_qnext (i_bufs s b) = 0 → dirty (i_bufs s b) = false →
  idewait polls true (i_ctl s) = Ok (-1) c' →
  ∃ s', ideintr plock idelock polls s = Ok tt s' ∧ b_data (i_bufs s' b) = b_data (i_bufs s b) ∧ wants_io (i_bufs s' b) = false.
Proof.
  intros Hp Hh Hq Hb Hn Hd Ew. destruct s as [[k sl] f q d1 c]. cbn in *. subst q. unfold dirty in Hd. apply negb_false_iff in Hd. unfold ideintr.
  rewrite (bind_ok _ _ _ _ _ (on_lock_ok (lock idelock) k sl f b d1 c _ _ (lock_free_ok idelock k ltac:(rewrite Hh; apply not_elem_of_nil)))).
  rewrite Hh, bind_gets. set (k1 := set_held [idelock] k). cbn [idequeue]. rewrite (proj2 (Z.eqb_neq b 0) Hb). unfold the_buf. rewrite bind_gets. cbn [i_bufs].
  unfold set_queue. rewrite bind_modify. cbn [i_ss i_bufs idequeue havedisk1 i_ctl]. rewrite Hn, Hd. cbn [cwhen].
  rewrite (bind_ok _ _ _ tt (Ist (Ss k1 sl) f 0 d1 c')) by (by rewrite (bind_ok _ _ _ _ _ (on_ctl_ok _ (Ss k1 sl) f 0 d1 c _ _ Ew))).
  unfold put_buf. rewrite !bind_modify. cbn [i_ss i_bufs idequeue havedisk1 i_ctl]. set (f2 := upd (upd f b _) b _).
  rewrite (bind_ok _ _ _ _ _ (on_lock_ok _ k1 sl f2 0 d1 c' _ _ (wakeup_held plock b idelock k1 eq_refl Hp))), bind_gets. cbn [idequeue Z.eqb negb cwhen].
  rewrite bind_ret. set (k2 := set_procs _ k1). eexists. split; [exact (on_lock_ok (unlock idelock) k2 sl f2 0 d1 c' _ _ (unlock_only idelock k2 eq_refl))|].
  cbn [i_bufs]. unfold f2. rewrite !upd_eq. split; [done|].
  unfold wants_io. cbn [b_flags set_flags]. pose proof (serve_done (f b) (λ _ _, [])) as H. unfold serve, dirty in H. rewrite Hd in H. exact H.
Qed.
End init.

(** ** Two processes

    The first reads block 5 while the second writes it, and reads it again afterwards. *)
Module IdeExample.
Import AtaExample SleepExample.

Definition zeros : list Z := replicate 512 0.
Definition ones : list Z := replicate 512 1.
Definition drives (dr : Z) : bool := dr =? 0.
Definition machine : @istate unit chip :=
  Ist two (λ _, Ibuf 0 0 0 0 zeros) 0 0 (Chip (Ata drives (λ _ _, zeros) (λ _, 0) Idle) 0 false).
Definition blank : dspec := D (λ _ _, zeros) (λ _, Ibuf 0 0 0 0 zeros) (λ _, None) [] (λ _, Active).

#[export] Instance chip_mmio : Mmio chip := {| mmio_read _ c := (0, c); mmio_write _ _ c := c; mmio_write16 _ _ c := c |}.

Lemma layout : ide_layout 8 12 pids 2 [1000; 2000] drives.
Proof.
  constructor; [done| | |done].
  - unfold pids. lia.
  - intros b Hb. rewrite !elem_of_cons in Hb. unfold lock_addr. destruct Hb as [->|[->|Hb]]; [..|by apply not_elem_of_nil in Hb]; (split_and!; [lia..|]);
      rewrite !not_elem_of_cons; (split_and!; [lia|lia|apply not_elem_of_nil]).
Qed.

Lemma machine_shows : ide_shows 4 pids 2 [1000; 2000] drives blank machine.
Proof.
  constructor; try done.
  - constructor; [done|done|]. intros [|[|j]] p E; cbn in E; by simplify_eq.
  - constructor; [apply NoDup_nil_2| |done|done]. intros b Hb. by apply not_elem_of_nil in Hb.
  - exists (Ata drives (λ _ _, zeros) (λ _, 0) Idle). split_and!; try done. cbn. split_and!; [done|cbn; lia|done].
Qed.

Definition reads_writes : list iop :=
  [Take 0 1000; Fill 0 1000 0 0 5 zeros; Rw 0 1000;
   Take 1 2000; Fill 1 2000 6 0 5 ones; Rw 1 2000;
   Kill 0; Wake 0 1000; Intr; Wake 0 1000; Intr; Intr; Wake 1 2000;
   Fill 0 1000 0 0 5 zeros; Rw 0 1000; Intr; Wake 0 1000].
Definition answers : list bool :=
  [true; true; false; true; true; false; true; false; true; true; true; true; true; true; false; true; true].

Lemma ops_ok : Forall (iop_ok 2 [1000; 2000]) reads_writes.
Proof. unfold reads_writes, iop_ok. repeat (apply Forall_cons; split); try apply Forall_nil_2; try done; try lia; split; try lia; set_solver. Qed.

Lemma ide_refines_witness : ∃ s' d',
  run_iops 8 12 4 2 pids reads_writes machine = Ok answers s' ∧ ide_shows 4 pids 2 [1000; 2000] drives d' s' ∧
  ds_disk d' 0 5 = ones ∧ b_data (ds_buf d' 1000) = ones.
Proof.
  destruct (spec_iops pids drives reads_writes blank) as [[rs d']|] eqn:E; [|vm_compute in E; discriminate].
  assert (Er : rs = answers) by (vm_compute in E; injection E as <- _; reflexivity).
  assert (Ed : ds_disk d' 0 5 = ones ∧ b_data (ds_buf d' 1000) = ones) by (vm_compute in E; injection E as _ <-; split; vm_compute; reflexivity).
  destruct (ide_refines 8 12 pids 2 [1000; 2000] drives reads_writes blank machine rs d' layout machine_shows ops_ok E) as (s' & R & Hs').
  exists s', d'. split; [rewrite <- Er; exact R|]. split; [exact Hs'|exact Ed].
Defined.

(** Two requests, and two interrupts. *)
Lemma ide_serves_witness : ∃ (s s' : @istate unit chip) d',
  run_iops 8 12 4 2 pids [Intr; Intr] s = Ok [true; true] s' ∧ ide_shows 4 pids 2 [1000; 2000] drives d' s' ∧
  ds_queue d' = [] ∧ ds_st d' 0 = Woken 1000 ∧ ds_disk d' 0 5 = ones.
Proof.
  destruct (spec_iops pids drives (firstn 6 reads_writes) blank) as [[rs d]|] eqn:E; [|vm_compute in E; discriminate].
  assert (Ed : ds_queue d = [1000; 2000] ∧ ds_st d 0 = Asleep 1000 ∧ (serve_all [1000; 2000] (ds_disk d) (ds_buf d)).1 0 5 = ones)
    by (vm_compute in E; injection E as _ <-; split_and!; vm_compute; reflexivity).
  destruct (iops_show 8 12 4 pids 2 [1000; 2000] drives (il_lock _ _ _ _ _ _ layout) (il_pids _ _ _ _ _ _ layout) (il_bufs _ _ _ _ _ _ layout)
    (il_disk0 _ _ _ _ _ _ layout) (firstn 6 reads_writes) blank machine rs d machine_shows (Forall_take _ _ _ ops_ok) E) as (s & _ & Hs).
  destruct (ide_serves 8 12 pids 2 [1000; 2000] drives d s layout Hs) as (s' & d' & R & Hs' & Eq & Es & Hw & _). destruct Ed as (Eq0 & Est & Edk).
  rewrite Eq0 in R, Es. exists s, s', d'. split_and!; [exact R|exact Hs'|exact Eq|exact (Hw 0%nat 1000 ltac:(lia) Est)|].
  rewrite <- Edk, <- Es. reflexivity.
Defined.
End IdeExample.
