(* ===== verification/Exec.v ===== *)
(** * Executing a program

    [src/exec.c], with [loaduvm] of [src/vm.c], over the processes of [Proc], the page tables of [Vm] and an
    interface of the inodes.  A path and an argument are the bytes of the string with its null; [argv] is the list
    of the arguments before the null pointer.  The message of a path that is not found is left out. *)
From S2P Require Import Prelude CString Bytes Kalloc Vm Proc.

Definition MAXARG : Z := 32.
Definition ELF_MAGIC : Z := 0x464C457F.
Definition ELF_PROG_LOAD : Z := 1.

(** The fields [exec] uses of the headers, which are 52 and 32 bytes in the file. *)
Record elfhdr : Type := Elfhdr { e_magic : Z; e_entry : Z; e_phoff : Z; e_phnum : Z }.
Record proghdr : Type := Proghdr { ph_type : Z; ph_off : Z; ph_vaddr : Z; ph_filesz : Z; ph_memsz : Z }.
Definition elf_size : Z := 52.
Definition ph_size : Z := 32.

Definition read_elfhdr (b : list Z) : elfhdr := Elfhdr (load 4 b 0) (load 4 b 24) (load 4 b 28) (load 2 b 44).
Definition read_proghdr (b : list Z) : proghdr :=
  Proghdr (load 4 b 0) (load 4 b 4) (load 4 b 8) (load 4 b 16) (load 4 b 20).

(** The calls of [exec] on the file system: [in_readi ip off n] gives the result and the bytes. *)
Class Inodes (F : Type) : Type := {
  in_begin_op : cm F unit;
  in_end_op : cm F unit;
  in_namei : list Z → cm F Z;
  in_ilock : Z → cm F unit;
  in_readi : Z → Z → Z → cm F (Z * list Z);
  in_iunlockput : Z → cm F unit
}.

Section exec.
Context {F : Type} {inodes : Inodes F} (data : Z).
Abbreviation K := (kern F).

(** ** [loaduvm] *)

Fixpoint loaduvm_loop (fuel : nat) (pgdir addr ip offset sz i : Z) : cm K Z :=
  if i <? sz then
    match fuel with
    | O => ub "loop"
    | S fuel' =>
        pte ← inmem (walkpgdir pgdir (u32 (addr + i)) false);
        match pte with
        | None => panic "loaduvm: address should exist"
        | Some q =>
            e ← inmem (kload q);
            let pa := PTE_ADDR e in
            let n := if u32 (sz - i) <? PGSIZE then u32 (sz - i) else PGSIZE in
            r ← infiles (in_readi ip (u32 (offset + i)) n);
            inmem (copy_bytes (P2V pa) r.2) ;;
            if negb (u32 r.1 =? n) then mret (-1)
            else loaduvm_loop fuel' pgdir addr ip offset sz (u32 (i + PGSIZE))
        end
    end
  else mret 0.

Definition loaduvm (pgdir addr ip offset sz : Z) : cm K Z :=
  if negb (addr mod PGSIZE =? 0) then panic "loaduvm: addr must be page aligned" else
  loaduvm_loop (Z.to_nat (sz / PGSIZE + 1)) pgdir addr ip offset sz 0.

(** ** [exec] *)

(** The label [bad]. *)
Definition exec_bad (pgdir ip : Z) : cm K Z :=
  (if negb (pgdir =? 0) then inmem (freevm pgdir) else mret tt) ;;
  (if negb (ip =? 0) then infiles (in_iunlockput ip) ;; infiles in_end_op else mret tt) ;;
  mret (-1).

(** One program header: the new size, or [None] for [goto bad]. *)
Definition exec_segment (pgdir ip sz : Z) (ph : proghdr) : cm K (option Z) :=
  if negb (ph_type ph =? ELF_PROG_LOAD) then mret (Some sz) else
  if ph_memsz ph <? ph_filesz ph then mret None else
  if u32 (ph_vaddr ph + ph_memsz ph) <? ph_vaddr ph then mret None else
  sz ← inmem (allocuvm pgdir sz (u32 (ph_vaddr ph + ph_memsz ph)));
  if sz =? 0 then mret None else
  if negb (ph_vaddr ph mod PGSIZE =? 0) then mret None else
  r ← loaduvm pgdir (ph_vaddr ph) ip (ph_off ph) (ph_filesz ph);
  if r <? 0 then mret None else mret (Some sz).

(** The loop over the [n] headers that are left, the next one at [off]. *)
Fixpoint exec_segments (n : nat) (pgdir ip off sz : Z) : cm K (option Z) :=
  match n with
  | O => mret (Some sz)
  | S n' =>
      r ← infiles (in_readi ip (u32 off) ph_size);
      if negb (u32 r.1 =? ph_size) then mret None else
      sz' ← exec_segment pgdir ip sz (read_proghdr r.2);
      match sz' with
      | None => mret None
      | Some sz' => exec_segments n' pgdir ip (i32 (off + ph_size)) sz'
      end
  end.

(** The loop that pushes the strings: [ustack] from its fourth word on. *)
Fixpoint exec_strings (argv : list (list Z)) (pgdir argc sp : Z) (ustack : list Z) : cm K (option (Z * list Z)) :=
  match argv with
  | [] => mret (Some (sp, ustack))
  | a :: argv' =>
      if MAXARG <=? argc then mret None else
      match strlen a with
      | None => ub "strlen"
      | Some len =>
          let sp := Z.land (u32 (sp - (len + 1))) (Z.lnot 3) in
          r ← inmem (copyout pgdir sp (take (Z.to_nat (len + 1)) a));
          if r <? 0 then mret None else exec_strings argv' pgdir (u32 (argc + 1)) sp (ustack ++ [sp])
      end
  end.

(** The words of [ustack], and its bytes. *)
Definition ustack_words (argc sp : Z) (ptrs : list Z) : list Z :=
  [0xffffffff; argc; u32 (sp - (argc + 1) * 4)] ++ ptrs ++ [0].
Definition words_bytes (ws : list Z) : list Z := mjoin (le_bytes 4 <$> ws).

(** The stack: two pages above the program, the lower one inaccessible, and the arguments.
    [Some (sz, sp)], or [None] for [goto bad]. *)
Definition exec_stack (pgdir sz : Z) (argv : list (list Z)) : cm K (option (Z * Z)) :=
  let sz := PGROUNDUP sz in
  sz ← inmem (allocuvm pgdir sz (u32 (sz + 2 * PGSIZE)));
  if sz =? 0 then mret None else
  inmem (clearpteu pgdir (u32 (sz - 2 * PGSIZE))) ;;
  r ← exec_strings argv pgdir 0 sz [];
  match r with
  | None => mret None
  | Some (sp, ptrs) =>
      let argc := Z.of_nat (length argv) in
      let sp' := u32 (sp - (3 + argc + 1) * 4) in
      r ← inmem (copyout pgdir sp' (words_bytes (ustack_words argc sp ptrs)));
      if r <? 0 then mret None else mret (Some (sz, sp'))
  end.

(** The part of the path after the last slash. *)
Fixpoint last_elem (last s : list Z) : list Z :=
  match s with
  | [] => last
  | b :: s' => if b =? 0 then last else last_elem (if b =? 47 then s' else last) s'
  end.

(** The new image takes the place of the old one. *)
Definition exec_commit (cur : nat) (path : list Z) (pgdir sz sp entry : Z) : cm K Z :=
  name_proc cur (last_elem path path) ;;
  p ← getp cur;
  let oldpgdir := p_pgdir p in
  setp cur (set_pgdir pgdir) ;;
  setp cur (set_sz sz) ;;
  inmem (kstore (p_tf p + 56) entry) ;;
  inmem (kstore (p_tf p + 68) sp) ;;
  switchuvm cur ;;
  inmem (freevm oldpgdir) ;;
  mret 0.

(** [exec] from the page table on. *)
Definition exec_load (cur : nat) (path : list Z) (argv : list (list Z)) (ip : Z) (elf : elfhdr) : cm K Z :=
  pgdir ← inmem (setupkvm data);
  if pgdir =? 0 then exec_bad 0 ip else
  sz ← exec_segments (Z.to_nat (e_phnum elf)) pgdir ip (i32 (e_phoff elf)) 0;
  match sz with
  | None => exec_bad pgdir ip
  | Some sz =>
      infiles (in_iunlockput ip) ;;
      infiles in_end_op ;;
      r ← exec_stack pgdir sz argv;
      match r with
      | None => exec_bad pgdir 0
      | Some (sz, sp) => exec_commit cur path pgdir sz sp (e_entry elf)
      end
  end.

Definition exec (cur : nat) (path : list Z) (argv : list (list Z)) : cm K Z :=
  infiles in_begin_op ;;
  ip ← infiles (in_namei path);
  if ip =? 0 then infiles in_end_op ;; mret (-1) else
  infiles (in_ilock ip) ;;
  r ← infiles (in_readi ip 0 elf_size);
  if negb (u32 r.1 =? elf_size) then exec_bad 0 ip else
  let elf := read_elfhdr r.2 in
  if negb (e_magic elf =? ELF_MAGIC) then exec_bad 0 ip else
  exec_load cur path argv ip elf.
End exec.
