(* ===== verification/ExecTheorems.v ===== *)
(** * What [exec] makes of a file

    [image_of c argv]: the program the bytes [c] of a file describe, started with the arguments [argv]: its size, its
    memory, its entry point and its stack pointer.  [None]: the file is no program, or it does not fit.

    Theorems: [exec] gives the process that image, in pages that were free, and frees the old one; or the process keeps
    what it had.  The words and strings of the arguments are where [main] expects them. *)
From S2P Require Import Prelude CString Bytes Kalloc Vm Uvm UvmCopy UvmWrite Proc Exec.

(** ** The image *)

(** [readi] on a file with the bytes [c]. *)
Definition file_read (c : list Z) (off n : Z) : Z * list Z :=
  if (Z.of_nat (length c) <? off) || (2 ^ 32 <=? off + n) then (-1, []) else
  let b := take (Z.to_nat n) (drop (Z.to_nat off) c) in (Z.of_nat (length b), b).

Definition segment_image (c : list Z) (ph : proghdr) (sz : Z) (mem : Z → Z) : option (Z * (Z → Z)) :=
  if negb (ph_type ph =? ELF_PROG_LOAD) then Some (sz, mem) else
  let hi := ph_vaddr ph + ph_memsz ph in
  if (ph_memsz ph <? ph_filesz ph) || (KERNBASE <=? hi) || (Z.max sz hi =? 0) || negb (ph_vaddr ph mod PGSIZE =? 0) then None else
  if (0 <? ph_filesz ph) && (Z.of_nat (length c) <? ph_off ph + ph_filesz ph) then None else
  Some (Z.max sz hi, put mem (ph_vaddr ph) (take (Z.to_nat (ph_filesz ph)) (drop (Z.to_nat (ph_off ph)) c))).

Fixpoint segments_image (c : list Z) (n : nat) (off sz : Z) (mem : Z → Z) : option (Z * (Z → Z)) :=
  match n with
  | O => Some (sz, mem)
  | S n' =>
      if Z.of_nat (length c) <? u32 off + ph_size then None else
      match segment_image c (read_proghdr (take (Z.to_nat ph_size) (drop (Z.to_nat (u32 off)) c))) sz mem with
      | None => None
      | Some (sz, mem) => segments_image c n' (i32 (off + ph_size)) sz mem
      end
  end.

(** The strings, from the top of the stack at [sp] down: where each is, and the memory. *)
Definition push_string (sp : Z) (a : list Z) : Z := (sp - (Z.of_nat (length (cstr a)) + 1)) / 4 * 4.

Fixpoint push_strings (argv : list (list Z)) (sp : Z) (mem : Z → Z) : Z * list Z * (Z → Z) :=
  match argv with
  | [] => (sp, [], mem)
  | a :: argv' =>
      let p := push_string sp a in
      let '(sp', ps, mem') := push_strings argv' p (put mem p (cstr a ++ [0])) in (sp', p :: ps, mem')
  end.

Record image : Type := Image { im_entry : Z; im_size : Z; im_sp : Z; im_mem : Z → Z }.

Definition stack_image (entry sz : Z) (mem : Z → Z) (argv : list (list Z)) : option image :=
  let size := PGSIZE * pages sz + 2 * PGSIZE in
  let '(sp, ps, mem) := push_strings argv size mem in
  let argc := Z.of_nat (length argv) in
  let sp' := sp - (3 + argc + 1) * 4 in
  if (KERNBASE <=? size) || (MAXARG <? argc) || (sp' <? size - PGSIZE) then None else
  Some (Image entry size sp' (put mem sp' (words_bytes (ustack_words argc sp ps)))).

(** The image from the program headers on. *)
Definition load_image (b : list Z) (argv : list (list Z)) (elf : elfhdr) : option image :=
  match segments_image b (Z.to_nat (e_phnum elf)) (i32 (e_phoff elf)) 0 (λ _, 0) with
  | None => None
  | Some (sz, mem) => stack_image (e_entry elf) sz mem argv
  end.

Definition image_of (c : list Z) (argv : list (list Z)) : option image :=
  if Z.of_nat (length c) <? elf_size then None else
  let elf := read_elfhdr (take (Z.to_nat elf_size) c) in
  if negb (e_magic elf =? ELF_MAGIC) then None else load_image c argv elf.

(** ** Where the arguments are *)

Definition word (m : Z → Z) (a : Z) : Z := le_val [m a; m (a + 1); m (a + 2); m (a + 3)].

(** The stack of a new program: a return address, [argc] and [argv], as [main] expects them. *)
Definition args_at (m : Z → Z) (esp : Z) (argv : list (list Z)) : Prop :=
  word m esp = 0xffffffff ∧ word m (esp + 4) = Z.of_nat (length argv) ∧
  word m (word m (esp + 8) + 4 * Z.of_nat (length argv)) = 0 ∧
  ∀ n a, argv !! n = Some a →
    ∀ j b, (cstr a ++ [0]) !! j = Some b → m (word m (word m (esp + 8) + 4 * Z.of_nat n) + Z.of_nat j) = b.

Lemma put_at m va b (j : nat) x : b !! j = Some x → put m va b (va + Z.of_nat j) = x.
Proof.
  intros Hj. pose proof (lookup_lt_Some _ _ _ Hj). unfold put. case_b; [|lia].
  replace (Z.to_nat (va + Z.of_nat j - va)) with j by lia. by apply nth_lookup_Some.
Qed.

Lemma put_out m va b x : x < va ∨ va + Z.of_nat (length b) ≤ x → put m va b x = m x.
Proof. intros Hx. unfold put. case_b; [lia|done]. Qed.

Lemma words_bytes_lookup ws (n i : nat) w :
  ws !! n = Some w → (i < 4)%nat → words_bytes ws !! (4 * n + i)%nat = le_bytes 4 w !! i.
Proof.
  revert n. induction ws as [|v ws IH]; intros n Hn Hi; [done|]. change (words_bytes (v :: ws)) with (le_bytes 4 v ++ words_bytes ws).
  destruct n as [|n].
  - injection Hn as ->. rewrite lookup_app_l by (rewrite length_le_bytes; lia). f_equal.
  - rewrite lookup_app_r by (rewrite length_le_bytes; lia). rewrite length_le_bytes, <- (IH n) by done. f_equal. lia.
Qed.

Lemma word_put m va ws n w :
  ws !! n = Some w → 0 ≤ w < 2 ^ 32 → word (put m va (words_bytes ws)) (va + 4 * Z.of_nat n) = w.
Proof.
  intros Hn Hw. transitivity (le_val (le_bytes 4 w)); [|by apply le_val_bytes]. unfold word. f_equal.
  assert (Hi : ∀ i x, (i < 4)%nat → le_bytes 4 w !! i = Some x → put m va (words_bytes ws) (va + 4 * Z.of_nat n + Z.of_nat i) = x).
  { intros i x Hi Hx. replace (va + 4 * Z.of_nat n + Z.of_nat i) with (va + Z.of_nat (4 * n + i)) by lia. apply put_at.
    by rewrite (words_bytes_lookup _ _ _ w). }
  cbn [le_bytes]. f_equal; [|f_equal; [|f_equal; [|f_equal]]].
  - rewrite <- (Z.add_0_r (va + _)). by apply (Hi 0%nat); [lia|].
  - by apply (Hi 1%nat); [lia|].
  - by apply (Hi 2%nat); [lia|].
  - by apply (Hi 3%nat); [lia|].
Qed.

Lemma length_words_bytes ws : Z.of_nat (length (words_bytes ws)) = 4 * Z.of_nat (length ws).
Proof.
  induction ws as [|w ws IH]; [done|]. change (words_bytes (w :: ws)) with (le_bytes 4 w ++ words_bytes ws).
  rewrite length_app, length_le_bytes. cbn [length]. lia.
Qed.

(** The strings are apart, and below the old stack pointer. *)
Lemma push_strings_spec argv : ∀ sp mem sp' ps mem',
  push_strings argv sp mem = (sp', ps, mem') →
  sp' ≤ sp ∧ length ps = length argv ∧ (∀ x, sp ≤ x → mem' x = mem x) ∧
  ∀ n a, argv !! n = Some a → ∃ p, ps !! n = Some p ∧ sp' ≤ p ∧ p + Z.of_nat (length (cstr a)) < sp ∧
    ∀ j b, (cstr a ++ [0]) !! j = Some b → mem' (p + Z.of_nat j) = b.
Proof.
  induction argv as [|a argv IH]; intros sp mem sp' ps mem'; cbn [push_strings]; [by intros [= <- <- <-]; split_and!|].
  destruct (push_strings argv _ _) as [[sp1 ps1] mem1] eqn:E. intros [= <- <- <-]. apply IH in E as (H1 & H2 & H3 & H4). cbn [length].
  assert (Hq : sp - Z.of_nat (length (cstr a)) - 4 ≤ push_string sp a ≤ sp - (Z.of_nat (length (cstr a)) + 1)) by (unfold push_string; dlia).
  set (q := push_string sp a) in *. split_and!; [lia|by f_equal|..].
  - intros x Hx. rewrite H3 by lia. apply put_out. right. rewrite length_app. cbn [length]. lia.
  - intros [|n] a' Ha; cbn [lookup list_lookup] in *.
    + injection Ha as <-. exists q. split_and!; [done|lia|lia|]. intros j b Hb. rewrite H3 by lia. by apply put_at.
    + destruct (H4 n a' Ha) as (r & Hr & Hr1 & Hr2 & Hb). exists r. split_and!; [done|lia|lia|done].
Qed.

Lemma segment_image_size c ph sz mem sz' mem' : segment_image c ph sz mem = Some (sz', mem') → sz ≤ sz'.
Proof. unfold segment_image. repeat case_b; intros [= <- _]; lia. Qed.

Lemma segments_image_size c n : ∀ off sz mem sz' mem', segments_image c n off sz mem = Some (sz', mem') → sz ≤ sz'.
Proof.
  induction n as [|n IH]; intros off sz mem sz' mem'; cbn [segments_image]; [intros [= <- _]; lia|].
  case_b; [done|]. destruct (segment_image _ _ _ _) as [[sz1 mem1]|] eqn:E1; [|done]. intros Hr%IH.
  apply segment_image_size in E1. lia.
Qed.

(** In any memory that has the image. *)
Lemma stack_image_args entry sz mem argv im m :
  0 ≤ sz → stack_image entry sz mem argv = Some im → (∀ va, 0 ≤ va < im_size im → m va = im_mem im va) → args_at m (im_sp im) argv.
Proof.
  intros Hsz. unfold stack_image. destruct (push_strings argv _ mem) as [[sp ps] mem'] eqn:Ep.
  apply push_strings_spec in Ep as (H1 & H2 & _ & H4). set (size := PGSIZE * pages sz + 2 * PGSIZE) in *. case_b; [done|]. intros [= <-] Hm.
  cbn [im_mem im_sp im_size] in *. set (argc := Z.of_nat (length argv)) in *. set (sp' := sp - (3 + argc + 1) * 4) in *.
  assert (Hsz' : 0 ≤ pages sz) by (unfold pages, PGSIZE; dlia). unfold MAXARG, KERNBASE, PGSIZE in *.
  assert (Eav : u32 (sp - (argc + 1) * 4) = sp' + 4 * 3) by (rewrite u32_small; unfold sp'; lia).
  set (ws := ustack_words argc sp ps) in *.
  assert (Hlw : Z.of_nat (length ws) = argc + 4) by (unfold ws, ustack_words; rewrite !length_app; cbn [length]; unfold argc; lia).
  assert (Hw : ∀ n w, ws !! n = Some w → 0 ≤ w < 2 ^ 32 → word m (sp' + 4 * Z.of_nat n) = w).
  { intros n w Hn Hr. pose proof (lookup_lt_Some _ _ _ Hn). rewrite <- (word_put mem' sp' ws n w Hn Hr). unfold word.
    rewrite !Hm; [done|unfold sp' in *; lia..]. }
  assert (Hav : word m (sp' + 8) = sp' + 12).
  { change (sp' + 8) with (sp' + 4 * Z.of_nat 2). rewrite (Hw 2%nat (sp' + 12)); [done|unfold ws, ustack_words; cbn; by rewrite Eav|lia]. }
  assert (Hptr : ∀ n w, (ps ++ [0]) !! n = Some w → 0 ≤ w < 2 ^ 32 → word m (sp' + 12 + 4 * Z.of_nat n) = w).
  { intros n w Hn Hr. rewrite <- (Hw (3 + n)%nat w) by done. f_equal. lia. }
  unfold args_at. rewrite Hav. fold argc. split_and!.
  - rewrite <- (Z.add_0_r sp'). by apply (Hw 0%nat).
  - apply (Hw 1%nat); [done|lia].
  - apply Hptr; [|lia]. by rewrite lookup_app_r, H2, Nat.sub_diag by lia.
  - intros n a Ha j b Hb. destruct (H4 n a Ha) as (q & Hq & Hr & He & Hs). pose proof (lookup_lt_Some _ _ _ Hb) as Hj. rewrite length_app in Hj. cbn [length] in Hj.
    rewrite (Hptr n q) by (lia || by apply lookup_app_l_Some). rewrite Hm by lia. rewrite put_out; [by apply Hs|].
    right. rewrite length_words_bytes. unfold sp' in *. lia.
Qed.

Lemma image_of_args c argv im m :
  image_of c argv = Some im → (∀ va, 0 ≤ va < im_size im → m va = im_mem im va) → args_at m (im_sp im) argv.
Proof.
  unfold image_of, load_image. do 2 (case_b; [done|]). destruct (segments_image _ _ _ _ _) as [[sz mem]|] eqn:Es; [|done].
  apply segments_image_size in Es. by apply stack_image_args.
Qed.

(** ** What [exec] asks of the files *)

Class InodesOk (F : Type) {inodes : Inodes F} : Type := {
  (* between calls; [path] names a file with the bytes [c], or nothing *)
  if_ready : list Z → option (list Z) → F → Prop;
  (* the inode [i], with the bytes [c], is locked within a transaction *)
  if_open : Z → list Z → F → Prop;
  if_done : F → Prop;
  if_bytes i c f : if_open i c f → Forall (λ b, 0 ≤ b < 256) c ∧ Z.of_nat (length c) < 2 ^ 31;
  if_none path f : if_ready path None f →
    ∃ f1 f2 f3, in_begin_op f = Ok tt f1 ∧ in_namei path f1 = Ok 0 f2 ∧ in_end_op f2 = Ok tt f3 ∧ if_done f3;
  if_some path c f : if_ready path (Some c) f →
    ∃ i f1 f2 f3, in_begin_op f = Ok tt f1 ∧ in_namei path f1 = Ok i f2 ∧ i ≠ 0 ∧ in_ilock i f2 = Ok tt f3 ∧ if_open i c f3;
  if_read i c f off n : if_open i c f → 0 ≤ off < 2 ^ 32 → 0 ≤ n ≤ PGSIZE →
    ∃ f', in_readi i off n f = Ok (file_read c off n) f' ∧ if_open i c f';
  if_close i c f : if_open i c f → ∃ f1 f2, in_iunlockput i f = Ok tt f1 ∧ in_end_op f1 = Ok tt f2 ∧ if_done f2
}.

Lemma file_read_all c off n :
  Z.of_nat (length c) < 2 ^ 31 → 0 ≤ off → 0 ≤ n → off + n ≤ Z.of_nat (length c) →
  file_read c off n = (n, take (Z.to_nat n) (drop (Z.to_nat off) c)).
Proof.
  intros Hc Ho Hn Hl. unfold file_read. case_b; [lia|].
  f_equal. rewrite length_take, length_drop. lia.
Qed.

Lemma file_read_short c off n :
  0 ≤ off → 0 ≤ n ≤ PGSIZE → Z.of_nat (length c) < off + n →
  (u32 (file_read c off n).1 =? n) = false ∧ Z.of_nat (length (file_read c off n).2) ≤ n.
Proof.
  intros Ho Hn Hl. unfold file_read. case_b.
  - split; [|cbn; lia]. apply Z.eqb_neq. cbn [fst]. change (u32 (-1)) with 4294967295. unfold PGSIZE in *. lia.
  - cbn [fst snd]. rewrite length_take, length_drop.
    split; [|lia]. apply Z.eqb_neq. rewrite u32_small; unfold PGSIZE in *; lia.
Qed.

(** ** Loading *)

Lemma pages_max a b : 0 ≤ a → 0 ≤ b → pages (Z.max a b) = Z.max (pages a) (pages b).
Proof. unfold pages, PGSIZE. intros. destruct (Z.max_spec a b) as [[? ->]|[? ->]]; dlia. Qed.

Lemma upto_join a b i : 0 ≤ a ≤ b → upto b i = join (upto a) a b i.
Proof.
  intros Ha. apply eq_true_iff_eq. unfold join. rewrite orb_true_iff, !upto_true, andb_true_iff, Z.leb_le, Z.ltb_lt. lia.
Qed.

Section loading.
(** The process before, and the page table in the making. *)
Context (s0 : kmem) (l0 : list Z) (d : Z).
Abbreviation beside := (beside s0 l0 d).

(** [sz] bytes are in place, with the contents [mem]. *)
Record loading (k : kmem) (l : list Z) (sz : Z) (mem : Z → Z) : Prop := {
  ld_beside : beside k l (upto (pages sz));
  ld_size : 0 ≤ sz < KERNBASE;
  ld_byte va : 0 ≤ va < PGSIZE * pages sz → ubyte k d va = mem va;
  ld_above va : PGSIZE * pages sz ≤ va → mem va = 0
}.

(** Memory ran out while the process was to have [sz] bytes. *)
Definition short (sz : Z) : Prop := Z.of_nat (length l0) ≤ 1025 + 3 * pages sz.

Lemma beside_length k l n : beside k l (upto n) → 0 ≤ n → NoDup l0 → Z.of_nat (length l0) ≤ Z.of_nat (length l) + 1025 + n.
Proof.
  intros [_ Hp _ _] Hn Hd. destruct (tpage_within (phys k) d) as (L & HL & Hin).
  apply (within_length (λ v, v ∈ l0) l0); [|done|done].
  exists (l ++ L ++ (upage k d <$> seqZ 0 n)). rewrite !length_app, length_fmap, length_seqZ. split; [lia|].
  intros v Hv%Hp. rewrite !elem_of_app. destruct Hv as [?|[?|(j & _ & Hm%upto_true & ->)]]; [by left|right; left; by apply Hin|].
  right. right. apply list_elem_of_fmap. exists j. split; [done|]. apply elem_of_seqZ. lia.
Qed.

Lemma vpn_pages va n : 0 ≤ va < PGSIZE * n ↔ 0 ≤ va ∧ 0 ≤ vpn va < n.
Proof. unfold vpn, PGSIZE. split; intros; dlia. Qed.

Lemma loading_range k l sz mem va : loading k l sz mem → 0 ≤ va < PGSIZE * pages sz → 0 ≤ va < KERNBASE ∧ upto (pages sz) (vpn va) = true.
Proof.
  intros [_ Hs _ _] Hv. split; [unfold pages, KERNBASE, PGSIZE in *; dlia|]. apply upto_true. by apply vpn_pages.
Qed.

(** [allocuvm] to [new] bytes. *)
Lemma allocuvm_grow_ok k l sz mem new :
  loading k l sz mem → 0 ≤ new < KERNBASE → NoDup l0 →
  ∃ r k' l', allocuvm d sz new k = Ok r k' ∧
    ((r = Z.max sz new ∧ loading k' l' (Z.max sz new) mem ∧ ∀ j, pages sz ≤ j < pages new → zeroed k' d j) ∨
     (r = 0 ∧ beside k' l' (upto (pages sz)) ∧ short (Z.max sz new))).
Proof.
  intros L Hnew Hnd. pose proof L as [B Hs Hb Ha]. destruct (decide (new < sz)) as [Hlt|Hge].
  { exists sz, k, l. unfold allocuvm. rewrite (proj2 (Z.leb_gt _ new)), (proj2 (Z.ltb_lt new sz)) by lia. split; [done|left].
    rewrite Z.max_l by lia. split_and!; [done|done|]. intros j Hj. unfold pages, PGSIZE in *. dlia. }
  rewrite (Z.max_r sz new) by lia. assert (Hp : 0 ≤ pages sz ≤ pages new) by (unfold pages, PGSIZE; dlia).
  destruct (allocuvm_ok d sz new k l (upto (pages sz)) (bs_space _ _ _ _ _ _ B)) as (r & k' & l' & E & Hr); [lia|lia| |].
  { intros i Hi. unfold upto. rewrite (proj2 (Z.ltb_ge i _)), andb_false_r by lia. done. }
  exists r, k', l'. split; [done|].
  destruct Hr as [(-> & U & S & C & Hz)|(-> & U & S & C & Hn)]; [left|right]; split_and!; try done.
  - split; [|done| |].
    + apply (beside_ext _ _ _ _ _ (join (upto (pages sz)) (pages sz) (pages new))); [intros; by apply upto_join|].
      exact (beside_step _ _ _ _ _ _ _ _ _ B U C).
    + intros va Hva. destruct (decide (va < PGSIZE * pages sz)) as [Hold|Hnew'].
      * destruct (loading_range _ _ _ _ va L) as [Hr Hu]; [lia|]. destruct (vpn_range va Hr) as (Hv & _ & Ho).
        rewrite <- Hb by lia. unfold ubyte, upage. rewrite (su_entry _ _ _ _ S) by done.
        apply (su_mem _ _ _ _ S (vpn va)); [done|done|]. unfold in_page, upage. lia.
      * rewrite Ha by lia. apply (Hz (vpn va)); [unfold vpn, PGSIZE in *; dlia|]. unfold in_page.
        assert (0 ≤ va mod PGSIZE < PGSIZE) by (unfold PGSIZE; dlia). lia.
    + intros va Hva. apply Ha. unfold PGSIZE in *. lia.
  - exact (beside_step _ _ _ _ _ _ _ _ _ B U C).
  - unfold short. pose proof (beside_length _ _ _ B ltac:(lia) Hnd). lia.
Qed.

(** Bytes stored in the image. *)
Lemma loading_put k l sz mem k' va b :
  loading k l sz mem → filled d k l (upto (pages sz)) k' (put (ubyte k d) va b) → va + Z.of_nat (length b) ≤ PGSIZE * pages sz →
  loading k' l sz (put mem va b).
Proof.
  intros L [U C E By] Hl. pose proof L as [B Hs Hb Ha]. split; [exact (beside_step _ _ _ _ _ _ _ _ _ B U C)|done|..].
  - intros x Hx. destruct (loading_range _ _ _ _ x L Hx). rewrite By by done. apply put_ext. by apply Hb.
  - intros x Hx. unfold put. case_b; [lia|]. by apply Ha.
Qed.

Lemma filled_beside k l N k' f : beside k l N → filled d k l N k' f → beside k' l N.
Proof. intros B [U C _ _]. exact (beside_step _ _ _ _ _ _ _ _ _ B U C). Qed.
End loading.

(** ** [loaduvm] *)

Lemma put_more (mem : Z → Z) va c (o a b : Z) x :
  0 ≤ o → 0 ≤ a → 0 ≤ b → o + a + b ≤ Z.of_nat (length c) →
  put (put mem va (take (Z.to_nat a) (drop (Z.to_nat o) c))) (va + a) (take (Z.to_nat b) (drop (Z.to_nat (o + a)) c)) x =
  put mem va (take (Z.to_nat (a + b)) (drop (Z.to_nat o) c)) x.
Proof.
  intros Ho Ha Hb Hl. replace (Z.to_nat (a + b)) with (Z.to_nat a + Z.to_nat b)%nat by lia.
  rewrite <- take_take_drop, drop_drop, <- put_app, length_take, length_drop.
  replace (Z.of_nat (Z.to_nat a `min` (length c - Z.to_nat o))) with a by lia.
  by replace (Z.to_nat o + Z.to_nat a)%nat with (Z.to_nat (o + a)) by lia.
Qed.

(** ** The stack *)

Lemma land_not3 x : Z.land x (Z.lnot 3) = x / 4 * 4.
Proof.
  change 3 with (Z.ones 2). rewrite <- Z.ldiff_land, Z.ldiff_ones_r, Z.shiftl_mul_pow2, Z.shiftr_div_pow2 by lia. done.
Qed.

Lemma cstr_take a len : cstrlen a = Some len → take (Z.to_nat (len + 1)) a = cstr a ++ [0] ∧ len = Z.of_nat (length (cstr a)).
Proof.
  revert len. induction a as [|b a IH]; intros len; cbn [cstrlen cstr]; [done|]. destruct (b =? 0) eqn:E; zbool.
  { intros [= <-]. by subst. }
  destruct (cstrlen a) as [m|] eqn:Em; cbn; [|done]. intros [= <-]. destruct (IH m eq_refl) as [E1 E2].
  pose proof (cstrlen_bound _ _ Em). replace (Z.to_nat (Z.succ m + 1)) with (S (Z.to_nat (m + 1))) by lia. cbn. rewrite E1. split; [done|lia].
Qed.

Lemma zeroed_user e s d j : page e (upage s d j) → zeroed s d j → user_page s d j = true.
Proof.
  intros Hp [He _]. unfold user_page. rewrite He. destruct (page_V2P _ _ Hp) as (_ & Hv0 & _ & Hm). unfold PGSIZE in Hm.
  apply negb_true_iff, Z.eqb_neq. intros Hz. change (Z.lor (Z.lor PTE_W PTE_U) PTE_P) with 7 in Hz. change PTE_U with 4 in Hz.
  assert (Hb : Z.testbit (Z.land (V2P (upage s d j) + 7) 4) 2 = false) by (rewrite Hz; done).
  rewrite Z.land_spec in Hb. change (Z.testbit 4 2) with true in Hb. rewrite andb_true_r, Z.testbit_eqb in Hb by lia.
  apply Z.eqb_neq in Hb. apply Hb. change (2 ^ 2) with 4. dlia.
Qed.

(** An argument: a string, shorter than a page. *)
Definition arg_ok (a : list Z) : Prop := 0 ∈ a ∧ Z.of_nat (length (cstr a)) + 4 ≤ PGSIZE.

Section stack.
Context (s0 : kmem) (l0 : list Z) (d g : Z) (Hg : 0 ≤ g).
(** The top of the stack: [g] pages of program, the guard page, the stack page. *)
Definition top : Z := PGSIZE * (g + 2).

Record stacked (k : kmem) (l : list Z) (mem : Z → Z) : Prop := {
  sk_load : loading s0 l0 d k l top mem;
  sk_guard : user_page k d g = false;
  sk_stack : user_page k d (g + 1) = true
}.

Lemma top_pages : pages top = g + 2.
Proof. unfold top, pages, PGSIZE. dlia. Qed.

Lemma push_ok k l mem sp q b :
  stacked k l mem → b ≠ [] → top - 2 * PGSIZE ≤ q → top - PGSIZE ≤ sp ≤ top → sp - 4 < q + Z.of_nat (length b) ≤ sp →
  ∃ r k', copyout d q b k = Ok r k' ∧
    if q <? top - PGSIZE then r = -1 ∧ beside s0 l0 d k' l (upto (g + 2)) else r = 0 ∧ stacked k' l (put mem q b).
Proof.
  intros [L Gu Sk] Hb Hq Hsp He. pose proof L as [B Hs _ _]. rewrite top_pages in B. pose proof (bs_space _ _ _ _ _ _ B) as U.
  assert (Hlen : 0 < Z.of_nat (length b)) by (destruct b; [done|cbn; lia]).
  assert (Hpg : ∀ x, q ≤ x < q + Z.of_nat (length b) → vpn x = if x <? top - PGSIZE then g else g + 1).
  { intros x Hx. unfold top, vpn, PGSIZE in *. case_b; dlia. }
  destruct (copyout_ok d q b k l (upto (g + 2)) U) as (r & k' & E & Hc); [unfold top, PGSIZE in *; lia|lia|..].
  { intros x Hx. apply upto_true. rewrite Hpg by done. case_b; lia. }
  exists r, k'. split; [done|]. destruct (q <? top - PGSIZE) eqn:Eq; zbool.
  - destruct Hc as [(_ & Hu & _)|(-> & _ & fb & Fb)]; [|split; [done|exact (filled_beside _ _ _ _ _ _ _ _ B Fb)]]. exfalso.
    specialize (Hu q ltac:(lia)). by rewrite Hpg, (proj2 (Z.ltb_lt _ _)), Gu in Hu by lia.
  - destruct Hc as [(-> & _ & Fb)|(_ & (x & Hx & Hu) & _)].
    + split; [done|]. pose proof (fi_entry _ _ _ _ _ _ Fb) as Ee.
      assert (Hr : 0 ≤ g < NUSER ∧ 0 ≤ g + 1 < NUSER) by (unfold top, KERNBASE, NUSER, PGSIZE in *; lia). destruct Hr as [R1 R2].
      rewrite <- top_pages in Fb. split; [eapply loading_put; [exact L|exact Fb|rewrite top_pages; unfold top in *; lia]|..].
      * by rewrite (user_page_entry _ _ _ _ (Ee g R1)).
      * by rewrite (user_page_entry _ _ _ _ (Ee (g + 1) R2)).
    + exfalso. rewrite Hpg, (proj2 (Z.ltb_ge _ _)), Sk in Hu by lia. done.
Qed.
End stack.

Section run.
Context {F : Type} {inodes : Inodes F} {laws : InodesOk F}.

Lemma inmem_ok {A} (m : cm kmem A) (s : kern F) a k : m (k_mem s) = Ok a k → inmem m s = Ok a (set_mem k s).
Proof. unfold inmem. by intros ->. Qed.
Lemma infiles_ok {A} (m : cm F A) (s : kern F) a f : m (k_files s) = Ok a f → infiles m s = Ok a (set_files f s).
Proof. unfold infiles. by intros ->. Qed.

(** The kernel with its memory and its files replaced. *)
Definition at_mem (s : kern F) (k : kmem) (f : F) : kern F := set_files f (set_mem k s).

Section load.
Context (st : kern F) (s0 : kmem) (l0 : list Z) (d i : Z) (c : list Z).

Section segment.
Context (va off fsz sz : Z) (Hva : 0 ≤ va) (Hal : va mod PGSIZE = 0) (Hoff : 0 ≤ off < 2 ^ 32) (Hfs : 0 ≤ fsz) (Hfit : va + fsz ≤ sz).

(** The part of the segment below [j] is in place. *)
Definition loaded (mem : Z → Z) (j : Z) : Z → Z := put mem va (take (Z.to_nat (Z.min j fsz)) (drop (Z.to_nat off) c)).

(** What [loaduvm] comes to. *)
Definition loads (mem : Z → Z) (l : list Z) (r : Z) (k' : kmem) : Prop :=
  (r = 0 ∧ (0 < fsz → off + fsz ≤ Z.of_nat (length c)) ∧ loading s0 l0 d k' l sz (loaded mem fsz)) ∨
  (r = -1 ∧ 0 < fsz ∧ Z.of_nat (length c) < off + fsz ∧ beside s0 l0 d k' l (upto (pages sz))).

(** One page of the segment. *)
Lemma load_page k f l mem j :
  loading s0 l0 d k l sz (loaded mem j) → if_open i c f → 0 ≤ j < fsz → j mod PGSIZE = 0 → j = 0 ∨ off + j ≤ Z.of_nat (length c) →
  let q := vpn (va + j) in let n := Z.min (fsz - j) PGSIZE in
  ∃ b k' f', in_readi i (u32 (off + j)) n f = Ok b f' ∧ if_open i c f' ∧ copy_bytes (upage k d q) b.2 k = Ok tt k' ∧
    (((u32 b.1 =? n) = true ∧ off + j + n ≤ Z.of_nat (length c) ∧ loading s0 l0 d k' l sz (loaded mem (j + PGSIZE))) ∨
     ((u32 b.1 =? n) = false ∧ Z.of_nat (length c) < off + fsz ∧ beside s0 l0 d k' l (upto (pages sz)))).
Proof.
  intros L Ho Hj Hm Hr q n. pose proof L as [B Hs _ _]. destruct (if_bytes _ _ _ Ho) as [_ Hc].
  assert (Hn : 0 < n ≤ PGSIZE) by (unfold n, PGSIZE; lia).
  assert (Eq : PGSIZE * q + 0 = va + j ∧ 0 ≤ q < pages sz) by (unfold q, vpn, pages, PGSIZE in *; dlia). destruct Eq as [Eq Hq].
  assert (HN : upto (pages sz) q = true) by (by apply upto_true).
  assert (Hqu : 0 ≤ q < NUSER) by (unfold q, vpn, NUSER, KERNBASE, PGSIZE in *; dlia).
  assert (Hend : va + j + n ≤ PGSIZE * pages sz) by (unfold n, pages, PGSIZE in *; dlia).
  destruct (if_read i c f (u32 (off + j)) n Ho) as (f' & E & Ho'); [unfold u32; dlia|lia|].
  assert (Hz : 0 ≤ 0 < PGSIZE) by (by vm_compute). exists (file_read c (u32 (off + j)) n).
  destruct (decide (off + j + n ≤ Z.of_nat (length c))) as [Hall|Hshort].
  - rewrite u32_small in * by lia. rewrite file_read_all in * by lia. cbn [fst snd].
    destruct (write_user d k l _ q 0 (take (Z.to_nat n) (drop (Z.to_nat (off + j)) c)) (bs_space _ _ _ _ _ _ B) Hqu HN Hz) as (k' & Ew & Fw);
      [rewrite length_take; lia|]. rewrite Z.add_0_r in Ew. exists k', f'. split_and!; try done. left.
    rewrite u32_small by (unfold PGSIZE in *; lia). split_and!; [apply Z.eqb_refl|done|].
    rewrite Eq in Fw. apply (loading_put _ _ _ _ _ _ _ _ _ _ L) in Fw; [|rewrite length_take; lia].
    destruct Fw as [B' S' By Ab]. unfold loaded in *.
    assert (Hx : ∀ x, put (put mem va (take (Z.to_nat (Z.min j fsz)) (drop (Z.to_nat off) c))) (va + j) (take (Z.to_nat n) (drop (Z.to_nat (off + j)) c)) x =
                 put mem va (take (Z.to_nat (Z.min (j + PGSIZE) fsz)) (drop (Z.to_nat off) c)) x).
    { intros x. rewrite Z.min_l by lia. rewrite put_more by lia. do 3 f_equal. unfold n. lia. }
    split; [done|done|intros x Hx'; by rewrite By, Hx|intros x Hx'; by rewrite <- Hx, Ab].
  - assert (Eu : u32 (off + j) = off + j) by (apply u32_small; lia). rewrite Eu in *.
    destruct (file_read_short c (off + j) n) as [E1 E2]; [lia|lia|lia|].
    destruct (write_user d k l _ q 0 (file_read c (off + j) n).2 (bs_space _ _ _ _ _ _ B) Hqu HN Hz) as (k' & Ew & Fw); [lia|].
    rewrite Z.add_0_r in Ew. exists k', f'. split_and!; try done. right. split_and!; [done|lia|]. exact (filled_beside _ _ _ _ _ _ _ _ B Fw).
Qed.

Lemma loaduvm_loop_ok fuel mem : ∀ k f l j,
  loading s0 l0 d k l sz (loaded mem j) → if_open i c f →
  0 ≤ j < fsz + PGSIZE → j mod PGSIZE = 0 → (j = 0 ∨ off + Z.min j fsz ≤ Z.of_nat (length c)) → fsz - j < PGSIZE * Z.of_nat fuel →
  ∃ r k' f', loaduvm_loop fuel d va i off fsz j (at_mem st k f) = Ok r (at_mem st k' f') ∧ if_open i c f' ∧ loads mem l r k'.
Proof.
  induction fuel as [|fuel IH]; intros k f l j L Ho Hj Hm Hr Hf; cbn [loaduvm_loop].
  all: destruct (j <? fsz) eqn:E; zbool;
    [|exists 0, k, f; split_and!; [done|done|]; left; split_and!; [done|intros; destruct Hr; [lia|]; lia|];
      unfold loaded in *; by rewrite Z.min_r in * by lia].
  { lia. }
  pose proof L as [B Hs _ _]. pose proof (bs_space _ _ _ _ _ _ B) as U.
  destruct (load_page k f l mem j L Ho ltac:(lia) Hm) as (b & k' & f' & E1 & Ho' & E2 & Hp); [destruct Hr; lia|].
  set (q := vpn (va + j)) in *. set (n := Z.min (fsz - j) PGSIZE) in *.
  assert (Eq : PGSIZE * q = va + j ∧ 0 ≤ q < pages sz) by (unfold q, vpn, pages, PGSIZE in *; dlia). destruct Eq as [Eq Hq].
  assert (HN : upto (pages sz) q = true) by (by apply upto_true).
  assert (Hqu : 0 ≤ q < NUSER) by (unfold q, vpn, NUSER, KERNBASE, PGSIZE in *; dlia).
  destruct (user_va q Hqu) as [Hqv _]. pose proof (present_table d k l _ q U Hqu HN) as Hpt.
  rewrite (u32_small (va + j)), (u32_small (fsz - j)) by (unfold KERNBASE in *; lia). rewrite <- Eq.
  rewrite (bind_ok _ _ _ _ _ (inmem_ok _ (at_mem st k f) _ _ (walk_find d (PGSIZE * q) k l _ U Hqv))), Hpt.
  rewrite (bind_ok _ _ _ _ _ (inmem_ok _ (at_mem st k f) _ _ (kload_entry d (PGSIZE * q) k l _ U Hqv Hpt))).
  fold (entry k d q). fold (upage k d q).
  replace (if fsz - j <? PGSIZE then fsz - j else PGSIZE) with n by (unfold n; case_b; lia).
  rewrite (bind_ok _ _ _ _ _ (infiles_ok _ (at_mem st k f) _ _ E1)).
  rewrite (bind_ok _ _ _ _ _ (inmem_ok _ (at_mem st k f') _ _ E2)).
  destruct Hp as [(-> & Hl & L')|(-> & Hl & B')]; cbn [negb].
  - rewrite u32_small by (unfold KERNBASE, PGSIZE in *; lia). apply (IH k' f' l (j + PGSIZE) L' Ho'); unfold PGSIZE in *; try lia; dlia.
  - exists (-1), k', f'. split_and!; [done|done|]. right. split_and!; [done|lia|done|done].
Qed.

Lemma loaduvm_ok k f l mem :
  loading s0 l0 d k l sz mem → if_open i c f →
  ∃ r k' f', loaduvm d va i off fsz (at_mem st k f) = Ok r (at_mem st k' f') ∧ if_open i c f' ∧ loads mem l r k'.
Proof.
  intros L Ho. unfold loaduvm. rewrite Hal. apply (loaduvm_loop_ok _ _ k f l 0); try done; try (unfold PGSIZE; dlia).
  - destruct L as [B S By Ab]. unfold loaded. rewrite Z.min_l by lia.
    split; [done|done|intros; by rewrite put_nil, By|intros; by rewrite put_nil, Ab].
Qed.
End segment.

(** ** The program headers *)

Context (Hnd : NoDup l0).

Record ph_fits (ph : proghdr) : Prop := {
  pf_off : 0 ≤ ph_off ph < 2 ^ 32;
  pf_vaddr : 0 ≤ ph_vaddr ph < 2 ^ 32;
  pf_filesz : 0 ≤ ph_filesz ph < 2 ^ 32;
  pf_memsz : 0 ≤ ph_memsz ph < 2 ^ 32
}.

(** What a piece of the loading comes to, if [want] is the image. *)
Definition piece (want : option (Z * (Z → Z))) (r : option Z) (k : kmem) : Prop :=
  match want with
  | Some (sz, mem) => (r = Some sz ∧ ∃ l, loading s0 l0 d k l sz mem) ∨
                      (r = None ∧ (∃ l N, beside s0 l0 d k l N) ∧ short l0 sz)
  | None => r = None ∧ ∃ l N, beside s0 l0 d k l N
  end.

Lemma piece_none want k l N : (∀ sz mem, want = Some (sz, mem) → short l0 sz) → beside s0 l0 d k l N → piece want None k.
Proof. intros Hw B. unfold piece. destruct want as [[sz mem]|]; [right; split_and!; eauto|split; eauto]. Qed.

Lemma exec_segment_ok k f l sz mem ph :
  loading s0 l0 d k l sz mem → if_open i c f → ph_fits ph →
  ∃ r k' f', exec_segment d i sz ph (at_mem st k f) = Ok r (at_mem st k' f') ∧ if_open i c f' ∧ piece (segment_image c ph sz mem) r k'.
Proof.
  intros L Ho [H1 H2 H3 H4]. pose proof L as [B Hs _ _]. unfold exec_segment, segment_image.
  destruct (ph_type ph =? ELF_PROG_LOAD); cbn [negb]; [|exists (Some sz), k, f; split_and!; [done|done|left; eauto]].
  set (hi := ph_vaddr ph + ph_memsz ph). destruct (ph_memsz ph <? ph_filesz ph) eqn:E1; cbn [orb]; zbool.
  { exists None, k, f. split_and!; [done|done|]. split; eauto. }
  destruct (u32 hi <? ph_vaddr ph) eqn:E2; zbool.
  { exists None, k, f. split_and!; [done|done|]. rewrite (proj2 (Z.leb_le KERNBASE hi)); [split; eauto|].
    unfold u32, hi, KERNBASE in *. dlia. }
  assert (Eh : u32 hi = hi) by (unfold u32, hi in *; dlia). rewrite Eh in *.
  destruct (KERNBASE <=? hi) eqn:E3; cbn [orb]; zbool.
  { exists None, k, f. assert (E : allocuvm d sz hi k = Ok 0 k) by (unfold allocuvm; by rewrite (proj2 (Z.leb_le KERNBASE hi) E3)).
    rewrite (bind_ok _ _ _ _ _ (inmem_ok _ (at_mem st k f) _ _ E)). split_and!; [done|done|split; eauto]. }
  destruct (allocuvm_grow_ok s0 l0 d k l sz mem hi L) as (r & k1 & l1 & E & Hr); [lia|done|].
  rewrite (bind_ok _ _ _ _ _ (inmem_ok _ (at_mem st k f) _ _ E)). change (set_mem k1 (at_mem st k f)) with (at_mem st k1 f).
  destruct Hr as [(-> & L1 & _)|(-> & B1 & Hsh)].
  2: { exists None, k1, f. split_and!; [done|done|]. eapply piece_none; [|exact B1]. intros sz' mem'. repeat case_b; intros [= <- _]; done. }
  destruct (Z.max sz hi =? 0) eqn:E4; cbn [orb]; zbool.
  { exists None, k1, f. split_and!; [done|done|]. split; [done|]. destruct L1. eauto. }
  destruct (ph_vaddr ph mod PGSIZE =? 0) eqn:E5; cbn [negb]; zbool.
  2: { exists None, k1, f. split_and!; [done|done|]. split; [done|]. destruct L1. eauto. }
  destruct (loaduvm_ok (ph_vaddr ph) (ph_off ph) (ph_filesz ph) (Z.max sz hi) ltac:(lia) E5 ltac:(lia) ltac:(lia) ltac:(lia) k1 f l1 mem L1 Ho)
    as (r & k2 & f2 & Er & Ho2 & Hr). rewrite (bind_ok _ _ _ _ _ Er).
  destruct Hr as [(-> & Hl & L2)|(-> & Hf & Hl & B2)]; cbn [Z.ltb Z.compare].
  - exists (Some (Z.max sz hi)), k2, f2. split_and!; [done|done|].
    replace (_ && _) with false by (symmetry; apply andb_false_iff; rewrite !Z.ltb_ge; lia). left. split; [done|]. exists l1.
    unfold loaded in L2. by rewrite Z.min_id in L2.
  - exists None, k2, f2. split_and!; [done|done|]. rewrite (proj2 (Z.ltb_lt _ _) Hf), (proj2 (Z.ltb_lt _ _) Hl). split; eauto.
Qed.

Lemma read_header f off n :
  if_open i c f → 0 ≤ n ≤ PGSIZE →
  ∃ b f', in_readi i (u32 off) n f = Ok b f' ∧ if_open i c f' ∧
    if Z.of_nat (length c) <? u32 off + n then (u32 b.1 =? n) = false
    else (u32 b.1 =? n) = true ∧ b.2 = take (Z.to_nat n) (drop (Z.to_nat (u32 off)) c) ∧ Forall (λ x, 0 ≤ x < 256) b.2.
Proof.
  intros Ho Hn. destruct (if_bytes _ _ _ Ho) as [Hb Hc]. assert (Hu : 0 ≤ u32 off < 2 ^ 32) by (unfold u32; dlia).
  destruct (if_read i c f (u32 off) n Ho Hu Hn) as (f' & E & Ho'). exists (file_read c (u32 off) n), f'. split_and!; [done|done|].
  case_b; [by apply file_read_short; lia|]. rewrite file_read_all by lia. cbn [fst snd].
  rewrite u32_small by (unfold PGSIZE in *; lia). split_and!; [apply Z.eqb_refl|done|]. by apply Forall_take, Forall_drop.
Qed.

Lemma load_word_range b n o : Forall (λ x, 0 ≤ x < 256) b → (n ≤ 4)%nat → 0 ≤ load n b o < 2 ^ 32.
Proof.
  intros Hb Hn. unfold load. destruct (le_val_range (take n (drop o b))) as [H1 H2]; [by apply Forall_take, Forall_drop|].
  split; [done|]. eapply Z.lt_le_trans; [exact H2|]. change (2 ^ 32) with (256 ^ 4). apply Z.pow_le_mono_r; [lia|].
  rewrite length_take. lia.
Qed.

Lemma read_proghdr_fits b : Forall (λ x, 0 ≤ x < 256) b → ph_fits (read_proghdr b).
Proof. intros Hb. split; by apply load_word_range; [|lia]. Qed.

Lemma short_mono sz sz' : sz ≤ sz' → short l0 sz → short l0 sz'.
Proof. unfold short, pages, PGSIZE. intros. dlia. Qed.

Lemma exec_segments_ok n : ∀ k f l off sz mem,
  loading s0 l0 d k l sz mem → if_open i c f →
  ∃ r k' f', exec_segments n d i off sz (at_mem st k f) = Ok r (at_mem st k' f') ∧ if_open i c f' ∧
    piece (segments_image c n off sz mem) r k'.
Proof.
  induction n as [|n IH]; intros k f l off sz mem L Ho; cbn [exec_segments segments_image].
  { exists (Some sz), k, f. split_and!; [done|done|left; eauto]. }
  destruct (read_header f off ph_size Ho) as (b & f1 & E1 & Ho1 & Hb); [by vm_compute|].
  rewrite (bind_ok _ _ _ _ _ (infiles_ok _ (at_mem st k f) _ _ E1)). change (set_files f1 (at_mem st k f)) with (at_mem st k f1).
  destruct (Z.of_nat (length c) <? u32 off + ph_size).
  { rewrite Hb. cbn [negb]. exists None, k, f1. split_and!; [done|done|]. split; [done|]. destruct L. eauto. }
  destruct Hb as (-> & Eb & Hb). cbn [negb].
  destruct (exec_segment_ok k f1 l sz mem (read_proghdr b.2) L Ho1 (read_proghdr_fits _ Hb)) as (r & k2 & f2 & E2 & Ho2 & Hp).
  rewrite (bind_ok _ _ _ _ _ E2). rewrite Eb in Hp. unfold piece in Hp. destruct (segment_image _ _ _ _) as [[sz1 mem1]|].
  - destruct Hp as [(-> & l2 & L2)|(-> & (l2 & N2 & B2) & Hsh)]; [by apply (IH k2 f2 l2)|].
    exists None, k2, f2. split_and!; [done|done|]. eapply piece_none; [|exact B2]. intros sz2 mem2 Hs%segments_image_size.
    by eapply short_mono.
  - destruct Hp as (-> & l2 & N2 & B2). exists None, k2, f2. split_and!; [done|done|]. split; eauto.
Qed.
End load.

(** ** The arguments *)

Lemma push_string_range sp a : sp - Z.of_nat (length (cstr a)) - 4 ≤ push_string sp a ≤ sp - (Z.of_nat (length (cstr a)) + 1).
Proof. unfold push_string. dlia. Qed.

Section args.
Context (st : kern F) (s0 : kmem) (l0 : list Z) (d g : Z) (Hg : 0 ≤ g) (f : F).
Abbreviation top := (top g).

Lemma exec_strings_ok argv : ∀ k l mem argc sp us,
  stacked s0 l0 d g k l mem → Forall arg_ok argv → 0 ≤ argc ≤ MAXARG → top - PGSIZE ≤ sp ≤ top → sp mod 4 = 0 →
  ∃ r k', exec_strings argv d argc sp us (at_mem st k f) = Ok r (at_mem st k' f) ∧
    let '(sp', ps, mem') := push_strings argv sp mem in
    if (MAXARG <? argc + Z.of_nat (length argv)) || (sp' <? top - PGSIZE) then r = None ∧ ∃ l N, beside s0 l0 d k' l N
    else r = Some (sp', us ++ ps) ∧ stacked s0 l0 d g k' l mem' ∧ sp' mod 4 = 0 ∧ sp' ≤ top.
Proof.
  induction argv as [|a argv IH]; intros k l mem argc sp us S Ha Hargc Hsp Hm; cbn [exec_strings push_strings length].
  { exists (Some (sp, us)), k. split; [done|]. rewrite app_nil_r. case_b; [lia|]. split_and!; try done. lia. }
  apply Forall_cons in Ha as [[Ha0 Hal] Ha]. apply cstrlen_Some_iff in Ha0 as [len Elen]. destruct (cstr_take _ _ Elen) as [Et ->].
  destruct (push_strings argv _ _) as [[sp' ps] mem'] eqn:Ep. destruct (push_strings_spec _ _ _ _ _ _ Ep) as (Hd & _).
  pose proof (push_string_range sp a) as Hpr. pose proof (sk_load _ _ _ _ _ _ _ S) as [B Hs _ _].
  destruct (MAXARG <=? argc) eqn:Em; zbool.
  { exists None, k. split; [done|]. case_b; [split; eauto|lia]. }
  unfold strlen. rewrite Elen, Et. set (q := push_string sp a) in *.
  assert (Eq : Z.land (u32 (sp - (Z.of_nat (length (cstr a)) + 1))) (Z.lnot 3) = q).
  { rewrite land_not3, u32_small; [done|]. unfold ExecTheorems.top, KERNBASE, PGSIZE in *. lia. }
  rewrite Eq. destruct (push_ok s0 l0 d g Hg k l mem sp q (cstr a ++ [0]) S) as (r & k1 & E1 & Hr);
    [by destruct (cstr a)|lia|lia|rewrite length_app; cbn [length]; unfold q, push_string in *; dlia|].
  rewrite (bind_ok _ _ _ _ _ (inmem_ok _ (at_mem st k f) _ _ E1)). change (set_mem k1 (at_mem st k f)) with (at_mem st k1 f).
  destruct (q <? top - PGSIZE) eqn:Eqt; zbool.
  - destruct Hr as [-> B1]. cbn [Z.ltb Z.compare]. exists None, k1. split; [done|]. case_b; [split; eauto|lia].
  - destruct Hr as [-> S1]. cbn [Z.ltb Z.compare]. rewrite u32_small by (unfold MAXARG in *; lia).
    destruct (IH k1 l (put mem q (cstr a ++ [0])) (argc + 1) q (us ++ [q]) S1 Ha) as (r & k2 & E2 & Hr2);
      [lia|lia|unfold q, push_string; dlia|]. exists r, k2. split; [done|]. rewrite Ep in Hr2.
    replace (argc + Z.of_nat (Datatypes.S (length argv))) with (argc + 1 + Z.of_nat (length argv)) by lia.
    by rewrite <- app_assoc in Hr2.
Qed.

(** The two pages. *)
Lemma stack_pages k l sz mem :
  loading s0 l0 d k l sz mem → g = pages sz → top < KERNBASE → NoDup l0 →
  ∃ r k1, allocuvm d (PGSIZE * g) top k = Ok r k1 ∧
    ((r = top ∧ ∃ k2 l2, clearpteu d (PGSIZE * g) k1 = Ok tt k2 ∧ stacked s0 l0 d g k2 l2 mem) ∨
     (r = 0 ∧ (∃ l N, beside s0 l0 d k1 l N) ∧ short l0 top)).
Proof.
  intros L Eg Ht Hnd. assert (Hp : pages (PGSIZE * g) = g) by (unfold pages, PGSIZE; dlia).
  assert (Htop : PGSIZE * g < top) by (unfold ExecTheorems.top, PGSIZE; lia).
  assert (L' : loading s0 l0 d k l (PGSIZE * g) mem).
  { destruct L as [B Hs By Ab]. rewrite <- Eg in *. split; rewrite ?Hp; try done. unfold PGSIZE in *. lia. }
  destruct (allocuvm_grow_ok s0 l0 d k l _ mem top L') as (r & k1 & l1 & E & Hr); [unfold PGSIZE in *; lia|done|].
  exists r, k1. split; [done|]. rewrite Z.max_r in Hr by lia.
  destruct Hr as [(-> & L1 & Hz)|(-> & B1 & Hsh)]; [left|right; split_and!; eauto]. split; [done|].
  rewrite Hp, (top_pages g) in Hz. pose proof L1 as [B1 Hs1 By1 Ab1]. rewrite (top_pages g) in B1.
  pose proof (bs_space _ _ _ _ _ _ B1) as U1. assert (Hgn : 0 ≤ g < NUSER) by (unfold ExecTheorems.top, KERNBASE, NUSER, PGSIZE in *; lia).
  assert (Hgn1 : 0 ≤ g + 1 < NUSER) by (unfold ExecTheorems.top, KERNBASE, NUSER, PGSIZE in *; lia).
  assert (Hu0 : upto (g + 2) g = true) by (apply upto_true; lia). assert (Hu1 : upto (g + 2) (g + 1) = true) by (apply upto_true; lia).
  destruct (clearpteu_ok d g k1 l1 _ U1 Hgn Hu0) as (k2 & E2 & [U2 C2 Ee2 Us2 By2]); [apply Hz; lia|].
  exists k2, l1. split; [done|]. split; [|done|].
  - split; rewrite ?(top_pages g) in *; [exact (beside_step _ _ _ _ _ _ _ _ _ B1 U2 C2)|done| |done].
    intros va Hva. destruct (loading_range s0 l0 d k1 l1 top mem va L1) as [Hr Hu]; [by rewrite (top_pages g)|].
    rewrite (top_pages g) in Hu. rewrite By2 by done. by apply By1.
  - rewrite (user_page_entry k1 k2) by (apply Ee2; lia). eapply zeroed_user; [|apply Hz; lia]. by apply (us_in _ _ _ _ U1).
Qed.

Lemma exec_stack_ok k l sz mem entry argv :
  loading s0 l0 d k l sz mem → g = pages sz → Forall arg_ok argv → NoDup l0 →
  ∃ r k', exec_stack d sz argv (at_mem st k f) = Ok r (at_mem st k' f) ∧
    match stack_image entry sz mem argv with
    | Some im => (r = Some (im_size im, im_sp im) ∧ im_size im = top ∧ im_entry im = entry ∧ ∃ l', stacked s0 l0 d g k' l' (im_mem im)) ∨
                 (r = None ∧ (∃ l N, beside s0 l0 d k' l N) ∧ short l0 (im_size im))
    | None => r = None ∧ ∃ l N, beside s0 l0 d k' l N
    end.
Proof.
  intros L Eg Ha Hnd. pose proof L as [B Hs _ _]. unfold exec_stack, stack_image. destruct (pages_eq sz) as [-> Hpn]; [lia|].
  rewrite <- Eg in *. replace (PGSIZE * g + 2 * PGSIZE) with top by (unfold ExecTheorems.top; lia).
  assert (Ht32 : 0 ≤ top < 2 ^ 32) by (unfold ExecTheorems.top, NUSER, PGSIZE in *; lia). rewrite (u32_small top) by done.
  destruct (push_strings argv top mem) as [[sp ps] mem'] eqn:Ep.
  destruct (KERNBASE <=? top) eqn:Ek; cbn [orb]; zbool.
  { assert (E : allocuvm d (PGSIZE * g) top k = Ok 0 k) by (unfold allocuvm; by rewrite (proj2 (Z.leb_le KERNBASE top) Ek)).
    exists None, k. rewrite (bind_ok _ _ _ _ _ (inmem_ok _ (at_mem st k f) _ _ E)). split; [done|]. split; eauto. }
  destruct (stack_pages k l sz mem L Eg Ek Hnd) as (r & k1 & E1 & Hr).
  rewrite (bind_ok _ _ _ _ _ (inmem_ok _ (at_mem st k f) _ _ E1)). change (set_mem k1 (at_mem st k f)) with (at_mem st k1 f).
  destruct Hr as [(-> & k2 & l2 & E2 & S2)|(-> & B1 & Hsh)].
  2: { exists None, k1. split; [done|]. case_b; [by split|]. right. by split. }
  rewrite (proj2 (Z.eqb_neq top 0)), (u32_small (top - 2 * PGSIZE)) by (unfold ExecTheorems.top, PGSIZE in *; lia).
  replace (top - 2 * PGSIZE) with (PGSIZE * g) by (unfold ExecTheorems.top; lia).
  rewrite (bind_ok _ _ _ _ _ (inmem_ok _ (at_mem st k1 f) _ _ E2)). change (set_mem k2 (at_mem st k1 f)) with (at_mem st k2 f).
  destruct (exec_strings_ok argv k2 l2 mem 0 top [] S2 Ha) as (r & k3 & E3 & Hr3);
    [by vm_compute|unfold PGSIZE; lia|unfold ExecTheorems.top, PGSIZE; dlia|].
  rewrite (bind_ok _ _ _ _ _ E3). rewrite Ep, Z.add_0_l in Hr3. set (argc := Z.of_nat (length argv)) in *. cbn [app] in Hr3.
  destruct (push_strings_spec _ _ _ _ _ _ Ep) as (Hdn & Hlp & _).
  destruct (MAXARG <? argc) eqn:Em; cbn [orb] in *; zbool.
  { destruct Hr3 as [-> B3]. exists None, k3. split; [done|]. by split. }
  destruct (sp <? top - PGSIZE) eqn:Esp; zbool.
  { destruct Hr3 as [-> B3]. exists None, k3. split; [done|]. rewrite (proj2 (Z.ltb_lt _ (top - PGSIZE))) by lia. by split. }
  destruct Hr3 as (-> & S3 & Hm3 & _). set (sp' := sp - (3 + argc + 1) * 4).
  assert (Hsp' : top - 2 * PGSIZE ≤ sp' ∧ 0 ≤ sp') by (unfold sp', ExecTheorems.top, MAXARG, PGSIZE in *; lia).
  rewrite (u32_small sp') by lia. set (ws := ustack_words argc sp ps).
  assert (Hws : Z.of_nat (length (words_bytes ws)) = (3 + argc + 1) * 4).
  { rewrite length_words_bytes. unfold ws, ustack_words. rewrite !length_app. cbn [length]. unfold argc. lia. }
  destruct (push_ok s0 l0 d g Hg k3 l2 mem' sp sp' (words_bytes ws) S3) as (r & k4 & E4 & Hr4);
    [intros E0; by rewrite E0 in Hws; cbn in Hws; lia|lia|lia|unfold sp' in *; lia|].
  rewrite (bind_ok _ _ _ _ _ (inmem_ok _ (at_mem st k3 f) _ _ E4)). change (set_mem k4 (at_mem st k3 f)) with (at_mem st k4 f).
  destruct (sp' <? top - PGSIZE); destruct Hr4 as [-> H4]; cbn [Z.ltb Z.compare].
  - exists None, k4. split; [done|]. split; eauto.
  - exists (Some (top, sp')), k4. split; [done|]. left. cbn [im_size im_sp im_entry im_mem]. split_and!; eauto.
Qed.
End args.

(** ** The process *)

Record running (cur : nat) (c : proc) (st : kern F) (l : list Z) (M : Z → bool) : Prop := {
  rn_proc : k_procs st !! cur = Some c;
  rn_space : uspace (p_pgdir c) (k_mem st) l M;
  rn_kstack : page (kend (k_mem st)) (p_kstack c);
  rn_unfree : p_kstack c ∉ l;
  rn_unowned : ¬ owned (p_pgdir c) (k_mem st) M (p_kstack c);
  rn_tf : p_tf c = p_kstack c + KSTACKSIZE - 76;
  rn_name : length (p_name c) = 16%nat
}.

Lemma last_elem_nul s : ∀ last, 0 ∈ last → 0 ∈ s → 0 ∈ last_elem last s.
Proof.
  induction s as [|b s IH]; intros last Hl Hs; cbn [last_elem]; [done|]. case_b; [done|].
  apply elem_of_cons in Hs as [?|Hs]; [lia|]. apply IH; [|done]. by case_b.
Qed.

Lemma get_proc_ok i c (s : kern F) : k_procs s !! i = Some c → getp i s = Ok c s.
Proof. unfold getp. by intros ->. Qed.

Lemma name_proc_ok i c t name (s : kern F) :
  k_procs s !! i = Some c → safestrcpy (p_name c) t 16 = Some name →
  name_proc i t s = Ok tt (set_procs (alter (set_name name) i (k_procs s)) s).
Proof. intros Hc Hn. unfold name_proc. by rewrite (bind_ok _ _ _ _ _ (get_proc_ok i c s Hc)), Hn. Qed.

(** A word of the trap frame stored. *)
Lemma store_word ks o v (k : kmem) l :
  page (kend k) ks → kmem_ok k l → ks ∉ l → 0 ≤ o → o + 4 ≤ PGSIZE →
  kstore (ks + o) v k = Ok tt (set_phys (stw (phys k) (V2P ks + o) v) k) ∧ kmem_ok (set_phys (stw (phys k) (V2P ks + o) v) k) l ∧
  ∀ w x, page (kend k) w → w ≠ ks → in_page w x → stw (phys k) (V2P ks + o) v x = phys k x.
Proof.
  intros Hp Hok Hl Ho1 Ho2. destruct (page_V2P _ _ Hp) as (Ev & Hv0 & Hv1 & _). pose proof Hp as (_ & _ & Hr).
  assert (Hf : ∀ w x, page (kend k) w → w ≠ ks → in_page w x → stw (phys k) (V2P ks + o) v x = phys k x).
  { intros w x Hw Hne Hx. pose proof (pages_apart _ _ _ _ Hw Hp Hne Hx) as Hn. apply stw_other. unfold in_page in Hn. lia. }
  assert (Eo : V2P (ks + o) = V2P ks + o) by (rewrite Ev; unfold V2P, u32, KERNBASE, PHYSTOP, PGSIZE in *; rewrite Z.mod_small; lia).
  split_and!; [|destruct Hok as [K1 K2 K3 K4 K5]; split; try done|done].
  - unfold kstore, in_ram. rewrite Eo, (proj2 (Z.leb_le _ _)), (proj2 (Z.ltb_lt _ _)); [done|..];
      unfold KERNBASE, PHYSTOP, PGSIZE in *; rewrite Ev in *; lia.
  - apply (free_list_ext (kend k) (phys k)); [done| |done]. intros w x Hw. apply Hf; [by eapply Forall_forall in K5|congruence].
Qed.

Section commit.
Context (cur : nat) (c : proc) (st : kern F) (l0 : list Z) (M : Z → bool) (R : running cur c st l0 M).
Abbreviation s0 := (k_mem st).
Abbreviation tf := (V2P (p_kstack c) + (PGSIZE - 76)).

(** The memory once the trap frame is set and the old page table gone. *)
Record committed (d : Z) (k : kmem) (N : Z → bool) (eip esp : Z) (k' : kmem) (l' : list Z) : Prop := {
  cm_space : uspace d k' l' N;
  cm_same : same_user d N k k';
  cm_eip : ldw (phys k') (tf + 56) = eip;
  cm_esp : ldw (phys k') (tf + 68) = esp;
  cm_pool v : v ∈ l' ∨ owned d k' N v ↔ v ∈ l0 ∨ owned (p_pgdir c) s0 M v;
  cm_mem w x : page (kend s0) w → w ∉ l0 → ¬ owned (p_pgdir c) s0 M w → w ≠ p_kstack c → in_page w x → phys k' x = phys s0 x
}.

Lemma commit_mem d k l N eip esp :
  beside s0 l0 d k l N → 0 ≤ eip < 2 ^ 32 → 0 ≤ esp < 2 ^ 32 →
  ∃ k1 k2 k3 l3, kstore (p_tf c + 56) eip k = Ok tt k1 ∧ kstore (p_tf c + 68) esp k1 = Ok tt k2 ∧
    freevm (p_pgdir c) k2 = Ok tt k3 ∧ committed d k N eip esp k3 l3.
Proof.
  intros B He Hs. pose proof B as [U Hp Hm Ee]. destruct R as [_ Up Hks Hkl Hko Htf _]. rewrite Htf. unfold KSTACKSIZE.
  set (ks := p_kstack c) in *. set (p := p_pgdir c) in *.
  assert (Hnl : ks ∉ l) by (intros Hl; apply Hkl, Hp; by left).
  assert (Hks' : page (kend k) ks) by (by rewrite Ee).
  destruct (store_word ks (4096 - 76 + 56) eip k l Hks' (us_km _ _ _ _ U) Hnl) as (E1 & K1 & F1); [lia|unfold PGSIZE; lia|].
  set (k1 := set_phys _ k) in *. change (kend k) with (kend k1) in Hks'.
  destruct (store_word ks (4096 - 76 + 68) esp k1 l Hks' K1 Hnl) as (E2 & K2 & F2); [lia|unfold PGSIZE; lia|].
  set (k2 := set_phys _ k1) in *. change (kend k1) with (kend k) in *.
  assert (Fk : ∀ w x, page (kend s0) w → w ≠ ks → in_page w x → phys k2 x = phys k x).
  { intros w x Hw Hne Hx. rewrite <- Ee in Hw. transitivity (phys k1 x); [by apply (F2 w)|by apply (F1 w)]. }
  assert (Hown : ∀ w, owned p s0 M w → page (kend s0) w ∧ (w ∉ l0) ∧ w ≠ ks).
  { intros w Hw. destruct (owned_page _ _ _ _ _ Up Hw). split_and!; try done. by intros ->. }
  destruct (owned_frame p s0 l0 M k2 l Up K2) as (U2 & _ & O2); [done| | |].
  { intros w x Hw Hx. destruct (Hown w Hw) as (? & ? & ?). rewrite (Fk w) by done. by apply (Hm w). }
  { intros w Hw Ho. destruct (Hown w Ho) as (_ & Hn & _). apply Hn, Hp. by left. }
  destruct (freevm_ok p k2 l M U2) as (k3 & l3 & E3 & K3 & Ee3 & Hl3 & F3). change (kend k2) with (kend k) in *.
  assert (Hd : ∀ w, owned d k N w → page (kend s0) w ∧ w ∈ l0 ∧ w ≠ ks ∧ ¬ owned p s0 M w).
  { intros w Hw. assert (Hw0 : w ∈ l0) by (apply Hp; by right). destruct (owned_page _ _ _ _ _ U Hw) as [Hpw _]. rewrite Ee in Hpw.
    split_and!; try done; [by intros ->|]. intros Ho. by destruct (Hown w Ho) as (_ & ? & _). }
  destruct (owned_frame d k l N k3 l3 U K3) as (U3 & S3 & O3); [congruence| | |].
  { intros w x Hw Hx. destruct (Hd w Hw) as (A1 & _ & A3 & A4). rewrite (F3 w), (Fk w); try done; [by rewrite Ee|by rewrite O2]. }
  { intros w [Hw|Hw]%Hl3 Ho; [by destruct (owned_page _ _ _ _ _ U Ho)|]. apply O2 in Hw. by destruct (Hd w Ho) as (_ & _ & _ & ?). }
  assert (Hko2 : ¬ owned p k2 M ks) by (by rewrite O2).
  assert (Hk3 : ∀ o, 0 ≤ o → o + 4 ≤ PGSIZE → ldw (phys k3) (V2P ks + o) = ldw (phys k2) (V2P ks + o)).
  { intros o Ho1 Ho2. apply ldw_ext. intros x Hx. apply (F3 ks); [by rewrite Ee|done|]. unfold in_page. lia. }
  exists k1, k2, k3, l3. split_and!.
  - rewrite <- E1. f_equal. lia.
  - rewrite <- E2. f_equal. lia.
  - done.
  - split; try done.
    + rewrite <- Z.add_assoc, Hk3 by (unfold PGSIZE; lia). cbn [phys set_phys k2]. unfold PGSIZE. rewrite ldw_stw_ne by lia. by apply ldw_stw_eq.
    + rewrite <- Z.add_assoc, Hk3 by (unfold PGSIZE; lia). by apply ldw_stw_eq.
    + intros v. rewrite O3, Hl3, O2, <- Hp. tauto.
    + intros w x Hw Hwl Hwo Hwk Hx. rewrite (F3 w), (Fk w); try done; [by apply (Hm w)|by rewrite Ee|by rewrite O2].
Qed.

(** The process runs the image [im]. *)
Definition replaced (path : list Z) (im : image) (st' : kern F) : Prop :=
  ∃ d l' name, safestrcpy (p_name c) (last_elem path path) 16 = Some name ∧
    k_procs st' = <[cur := set_sz (im_size im) (set_pgdir d (set_name name c))]> (k_procs st) ∧ k_cr3 st' = V2P d ∧
    uspace d (k_mem st') l' (upto (pages (im_size im))) ∧
    (∀ va, 0 ≤ va < im_size im → ubyte (k_mem st') d va = im_mem im va) ∧
    user_page (k_mem st') d (pages (im_size im) - 2) = false ∧
    ldw (phys (k_mem st')) (V2P (p_kstack c) + (PGSIZE - 76) + 56) = im_entry im ∧
    ldw (phys (k_mem st')) (V2P (p_kstack c) + (PGSIZE - 76) + 68) = im_sp im ∧
    (∀ v, v ∈ l' ∨ owned d (k_mem st') (upto (pages (im_size im))) v ↔ v ∈ l0 ∨ owned (p_pgdir c) (k_mem st) M v) ∧
    (∀ w x, page (kend (k_mem st)) w → w ∉ l0 → ¬ owned (p_pgdir c) (k_mem st) M w → w ≠ p_kstack c → in_page w x →
       phys (k_mem st') x = phys (k_mem st) x).

(** The process has what it had. *)
Definition unchanged (st' : kern F) : Prop :=
  k_procs st' = k_procs st ∧ k_cr3 st' = k_cr3 st ∧
  ∃ l', uspace (p_pgdir c) (k_mem st') l' M ∧ same_user (p_pgdir c) M (k_mem st) (k_mem st') ∧ (∀ v, v ∈ l' ↔ v ∈ l0) ∧
    ∀ w x, page (kend (k_mem st)) w → w ∉ l0 → in_page w x → phys (k_mem st') x = phys (k_mem st) x.

Lemma unchanged_restored k l f : restored s0 l0 k l → unchanged (at_mem st k f).
Proof.
  intros Rs. destruct (restored_parent _ _ _ _ (rn_space _ _ _ _ _ R) _ _ Rs) as [U S].
  split_and!; [done|done|]. exists l. split_and!; [done|done|apply Rs|apply Rs].
Qed.

Lemma exec_commit_ok path d g k l f (im : image) :
  0 ≤ g → stacked s0 l0 d g k l (im_mem im) → 0 ∈ path → im_size im = top g → 0 ≤ im_entry im < 2 ^ 32 → 0 ≤ im_sp im < 2 ^ 32 →
  ∃ st', exec_commit cur path d (im_size im) (im_sp im) (im_entry im) (at_mem st k f) = Ok 0 st' ∧ k_files st' = f ∧ replaced path im st'.
Proof.
  intros Hg [L Gu _] Hpath Esz He Hs. destruct L as [B Hsz By _]. rewrite top_pages in *.
  destruct (commit_mem d k l _ (im_entry im) (im_sp im) B He Hs) as (k1 & k2 & k3 & l3 & E1 & E2 & E3 & [C1 C2 C3 C4 C5 C6]).
  pose proof R as [Hc _ Hks _ _ _ Hnm].
  destruct (safestrcpy_loop_spec (p_name c) (last_elem path path) 15) as (nm & En & _); [lia|right; by apply last_elem_nul|].
  set (name := take 15 (cstr (last_elem path path)) ++ 0 :: nm) in *.
  assert (En' : safestrcpy (p_name c) (last_elem path path) 16 = Some name) by done.
  set (c1 := set_name name c). set (c2 := set_pgdir d c1). set (c3 := set_sz (im_size im) c2).
  assert (Hlt : (cur < length (k_procs st))%nat) by (by eapply lookup_lt_Some).
  set (ps1 := alter (set_name name) cur (k_procs st)). set (ps2 := alter (set_pgdir d) cur ps1). set (ps3 := alter (set_sz (im_size im)) cur ps2).
  assert (L1 : ps1 !! cur = Some c1) by (unfold ps1; by rewrite list_lookup_alter_eq, Hc).
  assert (L2 : ps2 !! cur = Some c2) by (unfold ps2; by rewrite list_lookup_alter_eq, L1).
  assert (L3 : ps3 !! cur = Some c3) by (unfold ps3; by rewrite list_lookup_alter_eq, L2).
  assert (Eps : ps3 = <[cur := c3]> (k_procs st)).
  { apply list_eq. intros j. destruct (decide (j = cur)) as [->|Hne]; [by rewrite L3, list_lookup_insert_eq|].
    unfold ps3, ps2, ps1. by rewrite !list_lookup_alter_ne, list_lookup_insert_ne by done. }
  set (s1 := set_procs ps1 (at_mem st k f)). set (s3 := set_procs ps3 (at_mem st k f)).
  exists (set_mem k3 (set_cpu (k_cpu_proc st) (V2P d) (p_kstack c + KSTACKSIZE) (set_mem k2 s3))). split; [|split; [done|]].
  - unfold exec_commit. rewrite (bind_ok _ _ _ _ _ (name_proc_ok cur c _ name (at_mem st k f) Hc En')).
    rewrite (bind_ok _ _ _ _ _ (get_proc_ok cur c1 s1 L1)). unfold setp. rewrite !bind_modify.
    rewrite (bind_ok _ _ _ _ _ (inmem_ok _ s3 _ _ E1)), (bind_ok _ _ _ _ _ (inmem_ok _ (set_mem k1 s3) _ _ E2)).
    change (set_mem k2 (set_mem k1 s3)) with (set_mem k2 s3).
    assert (Es : switchuvm cur (set_mem k2 s3) = Ok tt (set_cpu (k_cpu_proc st) (V2P d) (p_kstack c + KSTACKSIZE) (set_mem k2 s3))).
    { unfold switchuvm. rewrite (bind_ok _ _ _ _ _ (get_proc_ok cur c3 (set_mem k2 s3) L3)). change (p_kstack c3) with (p_kstack c).
      change (p_pgdir c3) with d. rewrite (proj2 (Z.eqb_neq (p_kstack c) 0)) by (by eapply page_pos).
      by rewrite (proj2 (Z.eqb_neq d 0)) by (exact (beside_nonzero _ _ _ _ _ _ B)). }
    rewrite (bind_ok _ _ _ _ _ Es). change (p_pgdir c1) with (p_pgdir c).
    by rewrite (bind_ok _ _ _ _ _ (inmem_ok _ (set_cpu _ _ _ (set_mem k2 s3)) _ _ E3)).
  - exists d, l3, name. cbn [k_procs k_mem k_cr3 set_mem set_cpu set_procs]. rewrite Esz, top_pages. split_and!; try done.
    + by rewrite <- Esz.
    + intros va Hva. assert (Hr : 0 ≤ va < KERNBASE) by lia. destruct (vpn_range va Hr) as (Hv & _ & Ho).
      assert (Hu : upto (g + 2) (vpn va) = true) by (apply upto_true; unfold top in *; by apply vpn_pages).
      rewrite <- By by (unfold top in *; lia). unfold ubyte, upage. rewrite (su_entry _ _ _ _ C2) by done.
      apply (su_mem _ _ _ _ C2 (vpn va)); [done|done|]. unfold in_page, upage. lia.
    + replace (g + 2 - 2) with g by lia. rewrite (user_page_entry k); [done|].
      apply (su_entry _ _ _ _ C2); [unfold top, KERNBASE, NUSER, PGSIZE in *; lia|apply upto_true; lia].
Qed.

(** ** [exec] *)

Context (data : Z) (Hdata : data mod PGSIZE = 0) (Hrange : KERNLINK < data < KERNBASE + PHYSTOP).

(** What [exec] comes to, if [want] is the image. *)
Definition exec_result (path : list Z) (want : option image) (r : Z) (st' : kern F) : Prop :=
  if_done (k_files st') ∧
  match want with
  | Some im => (r = 0 ∧ replaced path im st') ∨ (r = -1 ∧ unchanged st' ∧ short l0 (im_size im))
  | None => r = -1 ∧ unchanged st'
  end.

Lemma result_bad path want st' :
  if_done (k_files st') → unchanged st' → (∀ im, want = Some im → short l0 (im_size im)) → exec_result path want (-1) st'.
Proof. intros Hd Hu Hs. split; [done|]. destruct want as [im|]; [right|]; split_and!; auto. Qed.

(** The way out: with and without the inode, with and without a page table. *)
Lemma bad_close i b f k l :
  restored s0 l0 k l → if_open i b f → i ≠ 0 →
  ∃ f', exec_bad 0 i (at_mem st k f) = Ok (-1) (at_mem st k f') ∧ if_done f' ∧ unchanged (at_mem st k f').
Proof.
  intros Rs Ho Hi. destruct (if_close i b f Ho) as (f1 & f2 & E1 & E2 & Hd). exists f2. split_and!; [|done|by eapply unchanged_restored].
  unfold exec_bad. cbn [Z.eqb negb]. rewrite bind_ret, (proj2 (Z.eqb_neq i 0) Hi). cbn [negb].
  rewrite (bind_ok _ _ (at_mem st k f) tt (at_mem st k f2)); [done|].
  rewrite (bind_ok _ _ _ _ _ (infiles_ok _ (at_mem st k f) _ _ E1)). exact (infiles_ok _ (at_mem st k f1) _ _ E2).
Qed.

Lemma bad_free d i f k l N :
  beside s0 l0 d k l N →
  ∃ k' l', exec_bad d i (at_mem st k f) = exec_bad 0 i (at_mem st k' f) ∧ restored s0 l0 k' l'.
Proof.
  intros B. destruct (beside_free _ _ _ _ _ _ B) as (k' & l' & E & Rs). exists k', l'. split; [|done].
  unfold exec_bad. rewrite (proj2 (Z.eqb_neq d 0)) by (exact (beside_nonzero _ _ _ _ _ _ B)). cbn [negb Z.eqb].
  by rewrite (bind_ok _ _ _ _ _ (inmem_ok _ (at_mem st k f) _ _ E)).
Qed.

Lemma stack_image_sp entry sz mem argv im : 0 ≤ sz < KERNBASE → stack_image entry sz mem argv = Some im → 0 ≤ im_sp im < 2 ^ 32.
Proof.
  intros Hsz. unfold stack_image. destruct (push_strings argv _ mem) as [[sp ps] mem'] eqn:Ep. apply push_strings_spec in Ep as [Ep _].
  case_b; [done|]. intros [= <-]. cbn [im_sp]. unfold pages, KERNBASE, PGSIZE in *. split; [dlia|lia].
Qed.

Lemma stack_image_size entry sz mem argv im : 0 ≤ sz → stack_image entry sz mem argv = Some im → sz ≤ im_size im.
Proof.
  intros Hsz. unfold stack_image. destruct (push_strings argv _ mem) as [[sp ps] mem']. case_b; [done|]. intros [= <-]. cbn [im_size].
  unfold pages, PGSIZE. dlia.
Qed.

Lemma new_loading d k l : beside s0 l0 d k l no_pages → loading s0 l0 d k l 0 (λ _, 0).
Proof.
  intros B. change (pages 0) with 0 in *. split; [|by vm_compute|change (pages 0) with 0; intros; lia|done].
  apply (beside_ext _ _ _ _ _ no_pages); [|done]. intros j _. unfold upto, no_pages. change (pages 0) with 0.
  destruct (Z.leb_spec 0 j), (Z.ltb_spec j 0); done || lia.
Qed.

(** The stack and the commitment. *)
Lemma exec_finish path argv entry d f k l sz mem :
  loading s0 l0 d k l sz mem → if_done f → 0 ∈ path → Forall arg_ok argv → 0 ≤ entry < 2 ^ 32 →
  returns ((exec_stack d sz argv ≫= λ r, match r with None => exec_bad d 0 | Some (sz, sp) => exec_commit cur path d sz sp entry end)
    (at_mem st k f)) (exec_result path (stack_image entry sz mem argv)).
Proof.
  intros L Hd Hpath Ha He. pose proof (ld_size _ _ _ _ _ _ _ L) as Hs. destruct (pages_eq sz) as [_ Hg]; [lia|].
  assert (Hnd : NoDup l0) by (apply (us_km _ _ _ _ (rn_space _ _ _ _ _ R))).
  destruct (exec_stack_ok st s0 l0 d (pages sz) ltac:(lia) f k l sz mem entry argv L eq_refl Ha Hnd) as (r & k' & E & Hr).
  rewrite (bind_ok _ _ _ _ _ E).
  assert (Hbad : ∀ l' N, beside s0 l0 d k' l' N → (∀ im, stack_image entry sz mem argv = Some im → short l0 (im_size im)) →
    returns (exec_bad d 0 (at_mem st k' f)) (exec_result path (stack_image entry sz mem argv))).
  { intros l' N B Hsh. destruct (bad_free d 0 f k' l' N B) as (k2 & l2 & -> & Rs). apply result_bad; [done|by eapply unchanged_restored|done]. }
  destruct (stack_image entry sz mem argv) as [im|] eqn:Ei.
  - destruct Hr as [(-> & Esz & Een & l' & S)|(-> & (l' & N & B) & Hsh)].
    + destruct (exec_commit_ok path d (pages sz) k' l' f im ltac:(lia) S Hpath Esz) as (st' & Ec & Ef & Hrep);
        [by rewrite Een|by eapply stack_image_sp|]. rewrite <- Een, Ec. split; [by rewrite Ef|]. by left.
    + apply (Hbad l' N B). by intros ? [= <-].
  - destruct Hr as (-> & l' & N & B). by apply (Hbad l' N B).
Qed.

Lemma exec_load_ok path argv i b f elf :
  if_open i b f → i ≠ 0 → 0 ∈ path → Forall arg_ok argv → 0 ≤ e_entry elf < 2 ^ 32 →
  returns (exec_load data cur path argv i elf (at_mem st s0 f)) (exec_result path (load_image b argv elf)).
Proof.
  intros Ho Hi Hpath Ha He. unfold exec_load. assert (Hnd : NoDup l0) by (apply (us_km _ _ _ _ (rn_space _ _ _ _ _ R))).
  assert (Hsm : ∀ sz im, short l0 sz → sz ≤ im_size im → short l0 (im_size im)) by (intros; by eapply short_mono).
  destruct (beside_new data Hdata Hrange _ _ _ _ (rn_space _ _ _ _ _ R)) as (d & k1 & l1 & E1 & Hr).
  rewrite (bind_ok _ _ _ _ _ (inmem_ok _ (at_mem st s0 f) _ _ E1)). change (set_mem k1 (at_mem st s0 f)) with (at_mem st k1 f).
  destruct Hr as [B|(-> & Rs & Hsh)].
  2: { cbn [Z.eqb]. destruct (bad_close i b f k1 l1 Rs Ho Hi) as (f' & -> & Hd & Hu). apply result_bad; [done|done|].
       intros im. unfold load_image. destruct (segments_image _ _ _ _ _) as [[sz mem]|] eqn:Es; [|done].
       apply segments_image_size in Es. intros Hss%stack_image_size; [|done]. unfold short. assert (0 ≤ pages (im_size im)) by (unfold pages, PGSIZE; dlia). lia. }
  rewrite (proj2 (Z.eqb_neq d 0)) by (exact (beside_nonzero _ _ _ _ _ _ B)).
  destruct (exec_segments_ok st s0 l0 d i b Hnd (Z.to_nat (e_phnum elf)) k1 f l1 (i32 (e_phoff elf)) 0 (λ _, 0) (new_loading _ _ _ B) Ho)
    as (r & k2 & f2 & E2 & Ho2 & Hp). rewrite (bind_ok _ _ _ _ _ E2). unfold load_image.
  assert (Hbad : ∀ want l' N, beside s0 l0 d k2 l' N → (∀ im, want = Some im → short l0 (im_size im)) →
    returns (exec_bad d i (at_mem st k2 f2)) (exec_result path want)).
  { intros want l' N B' Hsh. destruct (bad_free d i f2 k2 l' N B') as (k3 & l3 & -> & Rs).
    destruct (bad_close i b f2 k3 l3 Rs Ho2 Hi) as (f' & -> & Hd & Hu). by apply result_bad. }
  unfold piece in Hp. destruct (segments_image _ _ _ _ _) as [[sz mem]|] eqn:Es.
  - destruct Hp as [(-> & l2 & L2)|(-> & (l2 & N2 & B2) & Hsh)].
    + destruct (if_close i b f2 Ho2) as (f3 & f4 & E3 & E4 & Hd).
      rewrite (bind_ok _ _ _ _ _ (infiles_ok _ (at_mem st k2 f2) _ _ E3)).
      rewrite (bind_ok _ _ _ _ _ (infiles_ok _ (set_files f3 (at_mem st k2 f2)) _ _ E4)). by eapply exec_finish.
    + apply (Hbad _ l2 N2 B2). intros im Him. pose proof (segments_image_size _ _ _ _ _ _ _ Es).
      apply (Hsm sz im Hsh). by eapply stack_image_size.
  - destruct Hp as (-> & l2 & N2 & B2). by apply (Hbad _ l2 N2 B2).
Qed.

Lemma exec_ok path content argv :
  if_ready path content (k_files st) → 0 ∈ path → Forall arg_ok argv →
  returns (exec data cur path argv st) (exec_result path (b ← content; image_of b argv)).
Proof.
  intros Hr Hpath Ha. assert (Est : st = at_mem st s0 (k_files st)) by (by destruct st). rewrite Est at 1. unfold exec.
  assert (Rs : restored s0 l0 s0 l0) by (split; [apply (us_km _ _ _ _ (rn_space _ _ _ _ _ R))|done..]).
  destruct content as [b|].
  2: { destruct (if_none path _ Hr) as (f1 & f2 & f3 & E1 & E2 & E3 & Hd).
       rewrite (bind_ok _ _ _ _ _ (infiles_ok _ (at_mem st s0 _) _ _ E1)), (bind_ok _ _ _ _ _ (infiles_ok _ (at_mem st s0 f1) _ _ E2)).
       cbn [Z.eqb]. rewrite (bind_ok _ _ _ _ _ (infiles_ok _ (at_mem st s0 f2) _ _ E3)).
       apply (result_bad path None (at_mem st s0 f3)); [done|by eapply unchanged_restored|done]. }
  destruct (if_some path b _ Hr) as (i & f1 & f2 & f3 & E1 & E2 & Hi & E3 & Ho).
  rewrite (bind_ok _ _ _ _ _ (infiles_ok _ (at_mem st s0 _) _ _ E1)), (bind_ok _ _ _ _ _ (infiles_ok _ (at_mem st s0 f1) _ _ E2)).
  rewrite (proj2 (Z.eqb_neq i 0) Hi), (bind_ok _ _ _ _ _ (infiles_ok _ (at_mem st s0 f2) _ _ E3)).
  destruct (read_header i b f3 0 elf_size Ho) as (h & f4 & E4 & Ho4 & Hh); [by vm_compute|]. change (u32 0) with 0 in *.
  rewrite (bind_ok _ _ _ _ _ (infiles_ok _ (at_mem st s0 f3) _ _ E4)). cbn [mbind option_bind]. unfold image_of.
  change (set_files f4 (at_mem st s0 f3)) with (at_mem st s0 f4).
  destruct (bad_close i b f4 s0 l0 Rs Ho4 Hi) as (f' & Eb & Hd & Hu). rewrite Z.add_0_l in Hh.
  destruct (Z.of_nat (length b) <? elf_size); [rewrite Hh; cbn [negb]; rewrite Eb; by apply result_bad|].
  destruct Hh as (-> & Eh & Hb). cbn [negb]. change (Z.to_nat 0) with 0%nat in Eh. rewrite drop_0 in Eh. rewrite <- Eh.
  destruct (e_magic (read_elfhdr h.2) =? ELF_MAGIC); cbn [negb]; [|rewrite Eb; by apply result_bad].
  apply exec_load_ok; try done. by apply load_word_range; [|lia].
Qed.
End commit.

Context (data : Z) (cur : nat) (c : proc) (st : kern F) (l : list Z) (M : Z → bool).

(** C6: [exec] is all or nothing.  If the file at the path is a program that fits, and memory suffices, [exec] returns 0
    and the process has the program's image: its segments, zeroes where the file has none, the arguments on a stack of
    one page over an inaccessible one, the entry point and the stack pointer in its trap frame; the pages of the old
    image are free.  In every other case it returns -1 and the process is as it was, with every page it took given back.
    It always returns, with the transaction closed, and touches no other memory. *)
Theorem exec_replaces path content argv :
  data mod PGSIZE = 0 → KERNLINK < data < KERNBASE + PHYSTOP → running cur c st l M →
  if_ready path content (k_files st) → 0 ∈ path → Forall arg_ok argv →
  returns (exec data cur path argv st) (λ r st', if_done (k_files st') ∧
    match b ← content; image_of b argv with
    | Some im => (r = 0 ∧ replaced cur c st l M path im st') ∨ (r = -1 ∧ unchanged c st l M st' ∧ short l (im_size im))
    | None => r = -1 ∧ unchanged c st l M st'
    end).
Proof. intros Hd Hr R Hf Hp Ha. exact (exec_ok cur c st l M R data Hd Hr path content argv Hf Hp Ha). Qed.

(** C19: [main] gets its arguments.  After [exec], the stack pointer of the process points at a return address, [argc]
    and [argv], in the memory the process sees: [argv] has a pointer for each argument, at a copy of the string, and ends
    with a null pointer. *)
Theorem exec_passes_args path content argv :
  data mod PGSIZE = 0 → KERNLINK < data < KERNBASE + PHYSTOP → running cur c st l M →
  if_ready path content (k_files st) → 0 ∈ path → Forall arg_ok argv →
  returns (exec data cur path argv st) (λ r st', r = 0 → ∃ c', k_procs st' !! cur = Some c' ∧
    args_at (λ va, ubyte (k_mem st') (p_pgdir c') va) (ldw (phys (k_mem st')) (V2P (p_kstack c) + (PGSIZE - 76) + 68)) argv).
Proof.
  intros Hd Hr R Hf Hp Ha. eapply returns_mono; [exact (exec_ok cur c st l M R data Hd Hr path content argv Hf Hp Ha)|].
  intros r st' [_ Hres] ->. destruct (b ← content; image_of b argv) as [im|] eqn:Ei; [|by destruct Hres].
  destruct Hres as [[_ Hrep]|[? _]]; [|done]. destruct content as [b|]; [|done]. cbn in Ei.
  destruct Hrep as (d & l' & name & _ & Eps & _ & _ & Hby & _ & _ & -> & _). rewrite Eps. exists (set_sz (im_size im) (set_pgdir d (set_name name c))).
  split; [apply list_lookup_insert_eq; by eapply lookup_lt_Some, (rn_proc _ _ _ _ _ R)|]. by eapply image_of_args.
Qed.
End run.

(** ** A program

    One segment of four bytes and 96 zeroes, in a file system that has only this file. *)
Module ExecExample.

Definition program : list Z :=
  [127; 69; 76; 70] ++ replicate 20 0 ++ [0; 0; 0; 0] ++ [52; 0; 0; 0] ++ replicate 12 0 ++ [1; 0] ++ replicate 6 0 ++
  [1; 0; 0; 0] ++ [84; 0; 0; 0] ++ replicate 8 0 ++ [4; 0; 0; 0] ++ [100; 0; 0; 0] ++ replicate 8 0 ++ [144; 144; 235; 254].

#[local] Instance one_file : Inodes unit := {|
  in_begin_op := mret tt;
  in_end_op := mret tt;
  in_namei _ := mret 1;
  in_ilock _ := mret tt;
  in_readi _ off n := mret (file_read program off n);
  in_iunlockput _ := mret tt
|}.

#[local] Instance one_file_ok : InodesOk unit.
Proof.
  refine (Build_InodesOk unit _ (λ _ c _, c = Some program) (λ _ c _, c = program) (λ _, True) _ _ _ _ _).
  - intros i c f ->. split; [|by vm_compute]. by repeat constructor.
  - by intros.
  - intros path c [] [= ->]. exists 1, tt, tt, tt. done.
  - intros i c [] off n -> Ho Hn. by exists tt.
  - intros i c [] Ho. by exists tt, tt.
Defined.

Import CopyExample.

Definition the_proc (d : Z) : proc :=
  Proc 0 d stack_page RUNNING 1 0 (stack_page + KSTACKSIZE - 76) 0 0 0 (replicate 16 0) 1 (replicate 16 0).
Definition kernel (d : Z) (s : kmem) : kern unit := Kern s tt [the_proc d] 2 0 [] 0 0 0.
Definition args : list (list Z) := [[97; 0]; [98; 99; 0]].

Lemma some_running : ∃ d s l, running 0 (the_proc d) (kernel d s) l no_pages ∧ 1034 < Z.of_nat (length l).
Proof.
  destruct some_process as (d & s & l & U & He & Hl & Hst & Ho). exists d, s, l. split; [|lia]. split; try done.
  cbn [k_mem kernel p_kstack the_proc]. rewrite He. by vm_compute.
Qed.

Lemma program_image : match image_of program args with Some im => im_size im = 12288 ∧ im_sp im = 12256 ∧ im_mem im 2 = 235 | None => False end.
Proof. vm_compute. done. Qed.

Lemma args_strings : Forall arg_ok args.
Proof. repeat constructor; unfold arg_ok, PGSIZE; cbn; set_solver || lia. Qed.

Lemma exec_replaces_witness :
  ∃ d s, returns (exec kdata 0 [47; 97; 0] args (kernel d s)) (λ r st', r = 0 ∧ ∃ c', k_procs st' !! 0%nat = Some c' ∧
    p_sz c' = 12288 ∧ ubyte (k_mem st') (p_pgdir c') 2 = 235).
Proof.
  destruct some_running as (d & s & l & R & Hl). exists d, s.
  eapply returns_mono; [apply (exec_replaces kdata 0 (the_proc d) (kernel d s) l no_pages [47; 97; 0] (Some program) args)|].
  - reflexivity.
  - exact (conj eq_refl eq_refl).
  - exact R.
  - reflexivity.
  - right. right. left.
  - exact args_strings.
  - intros r st' [_ Hres]. cbn [mbind option_bind] in Hres. pose proof program_image as Hi.
    destruct (image_of program args) as [im|]; [|contradiction]. destruct Hi as (Hsz & _ & Hm).
    destruct Hres as [[-> Hrep]|(_ & _ & Hs)]; [|exfalso; unfold short in Hs; rewrite Hsz in Hs; change (pages 12288) with 3 in Hs; lia].
    split; [reflexivity|]. destruct Hrep as (d' & l' & name & _ & Eps & _ & _ & Hby & _). rewrite Eps. eexists.
    split; [reflexivity|]. split; [exact Hsz|]. rewrite <- Hm. apply Hby. rewrite Hsz. lia.
Defined.

Lemma exec_passes_args_witness :
  ∃ d s, returns (exec kdata 0 [47; 97; 0] args (kernel d s)) (λ r st', r = 0 → ∃ c', k_procs st' !! 0%nat = Some c' ∧
    args_at (λ va, ubyte (k_mem st') (p_pgdir c') va) (ldw (phys (k_mem st')) (V2P stack_page + (PGSIZE - 76) + 68)) args).
Proof.
  destruct some_running as (d & s & l & R & Hl). exists d, s.
  apply (exec_passes_args kdata 0 (the_proc d) (kernel d s) l no_pages [47; 97; 0] (Some program) args).
  - reflexivity.
  - exact (conj eq_refl eq_refl).
  - exact R.
  - reflexivity.
  - right. right. left.
  - exact args_strings.
Defined.
End ExecExample.
