(* ===== verification/ExecFs.v ===== *)
(** * [exec] on the file system

    The interface [exec] asks of the files, discharged by [src/fs.c] and [src/log.c]: [namei] finds the program,
    [ilock], [readi] and [iunlockput] read it, within a transaction that changes nothing on disk.

    Theorem: [exec] runs the file that the path leads to. *)
From S2P Require Import Prelude Bytes Bio Log Disk Fs FsAlloc FsModel FsFile FsTheorems FsTx FsInode FsDir FsPath FsRest.
From S2P Require Import Kalloc Vm Uvm UvmCopy UvmWrite Proc Exec ExecTheorems.

Section calls.
(** The current directory of the process, and the bytes of [char name[DIRSIZ]] before [namei] fills them. *)
Context {X : Type} {swtch : Devices X} (cwd : nat) (name : list Z).

Definition inode_ptr (i : option nat) : Z := match i with Some i => Z.of_nat i + 1 | None => 0 end.
Definition ptr_inode (p : Z) : option nat := if p =? 0 then None else Some (Z.to_nat (p - 1)).

Definition fs_inodes : Inodes (fs log X) := {|
  in_begin_op := go ← on_disk Log.begin_op; if (go : bool) then mret tt else ub "sleeps";
  in_end_op := on_disk Log.end_op;
  in_namei path := i ← namei cwd path name; mret (inode_ptr i);
  in_ilock ip := ilock (ptr_inode ip);
  in_readi ip off n := match ptr_inode ip with Some i => readi i off n | None => ub "null inode" end;
  in_iunlockput ip := match ptr_inode ip with Some i => iunlockput i | None => ub "null inode" end
|}.

Lemma ptr_inode_ptr k : ptr_inode (inode_ptr (Some k)) = Some k.
Proof. unfold ptr_inode, inode_ptr. rewrite (proj2 (Z.eqb_neq _ 0)) by lia. f_equal. lia. Qed.
End calls.

Section laws.
Context {X : Type} {swtch : Devices X} (lst lsz dsize : Z) (sb : superblock) (p : Z) (x : X) (cwd : nat) (name : list Z).
Local Abbreviation state := (st (D := log) sb p x).
Local Abbreviation at_rest := (at_rest lst lsz dsize sb p x).

(** The file system at the call. *)
Context (V : Z → block) (A : Z → dinode) (rc : Z → Z) (used : list Z).
Context (Hgeo : fs_geo (log_usable lst lsz dsize) sb) (Rest : fs_at_rest sb V A rc) (Hroot : live sb A ROOTINO).
Context (Hused : ∀ i, 0 < rc i → i ∈ used) (Hroom : (length used + 2 ≤ NINODE)%nat).
Context (Bname : pathbytes name) (Hname : length name = DIRSIZ).

(** [path] leads to a file that is not a device, with the bytes [c]; or it leads nowhere. *)
Definition finds (cp : inode) (path : list Z) (c : option (list Z)) : Prop :=
  match walk false V A (starts_at cp path) (path_elems path) with
  | Some t => di_type (A t) ≠ T_DEV ∧ c = Some (contents V (A t))
  | None => c = None
  end.

Definition fs_ready (path : list Z) (c : option (list Z)) (s : fs log X) : Prop :=
  ∃ l cp, at_rest s V A rc l ∧ l !! cwd = Some cp ∧ 0 < i_ref cp ∧ pathbytes path ∧ finds cp path c.

(** Inode [t] is locked, with one more reference than before. *)
Record fs_open (i : Z) (c : list Z) (s : fs log X) (lg : log) (l : list inode) (k : nat) (ip : inode)
    (d0 : Z → block) (tr0 : list (Z * block)) : Prop := {
  xo_ptr : i = inode_ptr (Some k);
  xo_state : s = state lg l;
  xo_tx : open_tx lst lsz dsize d0 tr0 lg V [] ∅;
  xo_disk m : whole (d0 m);
  xo_cache : icache sb p A (count rc (i_inum ip) 1) (Some k) l;
  xo_at : l !! k = Some ip;
  xo_ref : 0 < i_ref ip;
  xo_copy : i_copy ip = A (i_inum ip);
  xo_type : di_type (A (i_inum ip)) ≠ T_DEV;
  xo_bytes : c = contents V (A (i_inum ip))
}.

(** Back at rest, the blocks as they were. *)
Definition fs_done (s : fs log X) : Prop :=
  ∃ V' l', at_rest s V' A rc l' ∧ ∀ n, log_usable lst lsz dsize n → V' n = V n.

#[local] Instance here : Inodes (fs log X) := fs_inodes cwd name.

Lemma file_length t : live sb A t → Z.of_nat (length (contents V (A t))) = di_size (A t) ∧ di_size (A t) < 2 ^ 31.
Proof.
  intros Hl. pose proof (ok_file _ _ _ (rest_ok _ _ _ _ Rest) _ Hl) as [Hf _ _ _ Hs _]. pose proof (df_size _ Hf).
  change (MAXFILE * BSIZE) with 71680 in Hs. unfold contents. rewrite length_fbytes. lia.
Qed.

Lemma begin_ready lg l :
  quiet lst lsz dsize V lg →
  ∃ lg', in_begin_op (state lg l) = Ok tt (state lg' l) ∧
    open_tx lst lsz dsize (disk (cache lg)) (trace (cache lg)) lg' V [] ∅.
Proof.
  intros Q. destruct (begin_quiet _ _ _ V lg Q) as (lg' & E & R). exists lg'. split; [|done]. cbn [in_begin_op here fs_inodes].
  by rewrite (bind_ok _ _ _ _ _ (on_disk_log sb p x _ lg l _ _ E)).
Qed.

Lemma end_done lg l d0 tr0 :
  open_tx lst lsz dsize d0 tr0 lg V [] ∅ → (∀ m, whole (d0 m)) → icache sb p A rc None l →
  ∃ s', in_end_op (state lg l) = Ok tt s' ∧ fs_done s'.
Proof.
  intros R Hd IC. destruct (end_quiet _ _ _ d0 tr0 lg V ∅ R Hd) as (lg' & V' & E & Q & Hag). exists (state lg' l).
  split; [by apply on_disk_log|]. exists V', l. split; [|done]. destruct Rest as [Hok Hsync _ _].
  assert (Hag' : ∀ m, sb_inodestart sb ≤ m < sb_size sb → V' m = V m) by (intros m Hm; by apply Hag, (fg_usable _ _ Hgeo)).
  split; [by exists lg'|by eapply agree_ok| |done]. by eapply agree_synced.
Qed.

(** What [namei] leaves within the transaction. *)
Lemma namei_ready lg l d0 tr0 cp path c :
  open_tx lst lsz dsize d0 tr0 lg V [] ∅ → icache sb p A rc None l → l !! cwd = Some cp → 0 < i_ref cp → pathbytes path →
  finds cp path c →
  ∃ lg' l', open_tx lst lsz dsize d0 tr0 lg' V [] ∅ ∧
    match c with
    | None => in_namei path (state lg l) = Ok 0 (state lg' l') ∧ icache sb p A rc None l'
    | Some b => ∃ k ip, in_namei path (state lg l) = Ok (inode_ptr (Some k)) (state lg' l') ∧
        icache sb p A (count rc (i_inum ip) 1) None l' ∧ l' !! k = Some ip ∧ 0 < i_ref ip ∧
        di_type (A (i_inum ip)) ≠ T_DEV ∧ b = contents V (A (i_inum ip))
    end.
Proof.
  intros R IC Hc Hr Bp Hf. pose (laws := log_disk_ok lst lsz dsize 1 0 d0 tr0).
  destruct (namex_ok (laws := laws) sb p x Hgeo V ∅ A rc used false lg l cwd cp path name Rest Hused Hroom R IC Hroot Hc Hr Bp Bname Hname)
    as (lg' & l' & nm & R' & H). exists lg', l'. split; [done|].
  assert (E : in_namei path (state lg l) = (i ← (r ← namex cwd path false name; mret r.1); mret (inode_ptr i)) (state lg l)) by done.
  unfold finds in Hf. destruct (walk false V A _ _) as [t|].
  - destruct H as (k & ip & E' & IC' & Hk & <- & Hi & _). destruct Hf as [Ht ->]. exists k, ip. split_and!; try done.
    rewrite E. unfold mbind, cm_bind. by rewrite E'.
  - subst c. destruct H as [E' IC']. split; [|done]. rewrite E. unfold mbind, cm_bind. by rewrite E'.
Qed.

Lemma lock_ready lg l d0 tr0 k ip :
  open_tx lst lsz dsize d0 tr0 lg V [] ∅ → (∀ m, whole (d0 m)) → icache sb p A (count rc (i_inum ip) 1) None l → l !! k = Some ip → 0 < i_ref ip →
  di_type (A (i_inum ip)) ≠ T_DEV →
  ∃ s' lg' l' ip', in_ilock (inode_ptr (Some k)) (state lg l) = Ok tt s' ∧
    fs_open (inode_ptr (Some k)) (contents V (A (i_inum ip))) s' lg' l' k ip' d0 tr0.
Proof.
  intros R Hd IC Hk Hr Ht. pose (laws := log_disk_ok lst lsz dsize 1 0 d0 tr0).
  destruct (ilock_ok (laws := laws) sb p x Hgeo A _ l lg k ip Hk Hr V ∅ IC R (rest_synced _ _ _ _ Rest)) as (lg' & E & R').
  eexists _, lg', _, (FsInode.loaded p A ip). split; [cbn [in_ilock here fs_inodes]; rewrite ptr_inode_ptr; exact E|].
  split; try done; [by apply icache_loaded|by eapply put_same].
Qed.

Lemma read_open i c s lg l k ip d0 tr0 off n :
  fs_open i c s lg l k ip d0 tr0 → 0 ≤ off < 2 ^ 32 → 0 ≤ n ≤ PGSIZE →
  ∃ s' lg', in_readi i off n s = Ok (file_read c off n) s' ∧ fs_open i c s' lg' l k ip d0 tr0.
Proof.
  intros [-> -> R Hd IC Hk Hr Hcp Ht ->] Ho Hn. pose (laws := log_disk_ok lst lsz dsize 1 0 d0 tr0).
  cbn [in_readi here fs_inodes]. rewrite ptr_inode_ptr. destruct (ic_live _ _ _ _ _ _ IC _ _ Hk Hr) as [Hdev Hlive].
  assert (O : opened (laws := laws) sb lg V ∅ A l k ip) by (split; try done; apply Rest).
  destruct (file_length _ Hlive) as [Hlen _].
  unfold file_read. rewrite Hlen. destruct ((di_size (A (i_inum ip)) <? off) || (2 ^ 32 <=? off + n)) eqn:Eb.
  - exists (state lg l), lg. split; [|by split]. unfold readi. rewrite (bind_ok _ _ _ _ _ (inode_at_ok sb p x lg l k ip Hk)).
    rewrite Hcp, (proj2 (Z.eqb_neq _ _) Ht). replace (_ || _) with true; [done|]. symmetry.
    apply orb_true_iff in Eb as [->|Eb]; [done|]. zbool. apply orb_true_iff. right. apply Z.ltb_lt. unfold u32, PGSIZE in *. dlia.
  - apply orb_false_iff in Eb as [E1 E2]. zbool.
    destruct (readi_slice (laws := laws) sb p x lg V ∅ A l k ip off n Hgeo O Ht) as (lg' & E & O'); [lia|lia|lia|].
    exists (state lg' l), lg'. split; [exact E|]. split; try done. apply O'.
Qed.

Lemma close_open i c s lg l k ip d0 tr0 :
  fs_open i c s lg l k ip d0 tr0 → ∃ s1 s2, in_iunlockput i s = Ok tt s1 ∧ in_end_op s1 = Ok tt s2 ∧ fs_done s2.
Proof.
  intros [-> -> R Hd IC Hk Hr Hcp Ht ->]. destruct (ic_live _ _ _ _ _ _ IC _ _ Hk Hr) as [Hdev Hlive].
  pose proof (ic_ref _ _ _ _ _ _ IC _ _ Hk Hr) as Hcnt. rewrite count_at, Z.eqb_refl in Hcnt.
  destruct (iunlockput_ok sb p x A _ l lg k ip Hk Hr IC) as [E IC'].
  { intros Hz. pose proof (rest_named _ _ _ _ Rest _ Hlive Hz). lia. }
  eapply (icache_ext sb p A _ rc) in IC'; [|intros j; rewrite !count_at; case_b; lia].
  destruct (end_done lg _ d0 tr0 R Hd IC') as (s2 & E2 & Hdone). eexists _, s2. split_and!; [|exact E2|done].
  cbn [in_iunlockput here fs_inodes]. rewrite ptr_inode_ptr. exact E.
Qed.

Lemma open_bytes i c s lg l k ip d0 tr0 : fs_open i c s lg l k ip d0 tr0 → Forall (λ b, 0 ≤ b < 256) c ∧ Z.of_nat (length c) < 2 ^ 31.
Proof.
  intros [-> -> R Hd IC Hk Hr Hcp Ht ->]. destruct (ic_live _ _ _ _ _ _ IC _ _ Hk Hr) as [_ Hlive].
  destruct (file_length _ Hlive) as [Hl Hs]. split; [|lia]. apply fbytes_bytes. intros m. apply R.
Qed.

(** The file system keeps the promises of the interface. *)
#[local] Instance fs_inodes_ok : InodesOk (fs log X).
Proof.
  refine (Build_InodesOk (fs log X) here fs_ready (λ i c s, ∃ lg l k ip d0 tr0, fs_open i c s lg l k ip d0 tr0) fs_done _ _ _ _ _).
  - intros i c s (lg & l & k & ip & d0 & tr0 & O). by eapply open_bytes.
  - intros path s (l & cp & [(lg & -> & Q) _ _ IC] & Hc & Hr & Bp & Hf). destruct (begin_ready lg l Q) as (lg1 & E1 & R1).
    destruct (namei_ready lg1 l _ _ cp path None R1 IC Hc Hr Bp Hf) as (lg2 & l2 & R2 & E2 & IC2).
    destruct (end_done lg2 l2 _ _ R2) as (s3 & E3 & Hd); [intros m; by eapply quiet_disk|done|]. eexists _, _, s3. done.
  - intros path c s (l & cp & [(lg & -> & Q) _ _ IC] & Hc & Hr & Bp & Hf). destruct (begin_ready lg l Q) as (lg1 & E1 & R1).
    destruct (namei_ready lg1 l _ _ cp path (Some c) R1 IC Hc Hr Bp Hf) as (lg2 & l2 & R2 & k & ip & E2 & IC2 & Hk & Hi & Ht & ->).
    destruct (lock_ready lg2 l2 _ _ k ip R2) as (s3 & lg3 & l3 & ip3 & E3 & O); try done; [intros m; by eapply quiet_disk|].
    exists (inode_ptr (Some k)). eexists _, _, s3. split_and!; try done; [cbn; lia|]. eexists lg3, l3, k, ip3, _, _. exact O.
  - intros i c s off n (lg & l & k & ip & d0 & tr0 & O) Ho Hn. destruct (read_open _ _ _ _ _ _ _ _ _ off n O Ho Hn) as (s' & lg' & E & O').
    exists s'. split; [done|]. eexists lg', l, k, ip, d0, tr0. exact O'.
  - intros i c s (lg & l & k & ip & d0 & tr0 & O). by eapply close_open.
Defined.
End laws.

Section disk.
Context {X : Type} {swtch : Devices X} (lst lsz dsize : Z) (sb : superblock) (p : Z) (x : X) (cwd : nat) (name : list Z).

(** C18: [exec] on the disk.  With the kernel's own file system underneath, [exec] runs the program that the path leads to,
    directory by directory, as [exec_replaces] says; and it leaves the file system at rest: the transaction ended, no inode
    locked, every reference count and every block as before. *)
Theorem exec_runs_file V A rc used data cur c (st : kern (fs log X)) l M path content argv :
  fs_geo (log_usable lst lsz dsize) sb → fs_at_rest sb V A rc → live sb A ROOTINO →
  (∀ i, 0 < rc i → i ∈ used) → (length used + 2 ≤ NINODE)%nat → pathbytes name → length name = DIRSIZ →
  data mod PGSIZE = 0 → KERNLINK < data < KERNBASE + PHYSTOP → running cur c st l M →
  fs_ready lst lsz dsize sb p x cwd V A rc path content (k_files st) → 0 ∈ path → Forall arg_ok argv →
  returns (exec (inodes := fs_inodes cwd name) data cur path argv st) (λ r st',
    (∃ V' l', at_rest lst lsz dsize sb p x (k_files st') V' A rc l' ∧ ∀ n, log_usable lst lsz dsize n → V' n = V n) ∧
    match b ← content; image_of b argv with
    | Some im => (r = 0 ∧ replaced cur c st l M path im st') ∨ (r = -1 ∧ unchanged c st l M st' ∧ short l (im_size im))
    | None => r = -1 ∧ unchanged c st l M st'
    end).
Proof.
  intros Hgeo Rest Hroot Hused Hroom Bn Hn Hd Hr R Hf Hp Ha.
  exact (exec_ok (laws := fs_inodes_ok lst lsz dsize sb p x cwd name V A rc used Hgeo Rest Hroot Hused Hroom Bn Hn)
    cur c st l M R data Hd Hr path content argv Hf Hp Ha).
Qed.
End disk.

(** ** A program on disk

    [exec] of [/a] in the file system of [PathExample]. *)
Module FileExample.
Import PathExample CopyExample ExecExample.
#[local] Existing Instance no_devices.

Definition idle : log := Log (binit 20 pe_disk 1) false 2 10 0 0 ROOTDEV 0 (replicate 30 0) 0.

Lemma idle_is_quiet : quiet 2 10 20 pe_disk idle.
Proof.
  destruct (binit_idle 20 pe_disk 1) as (Hw & Hp & Hh).
  split; try done; [|by apply pe_whole]. split; try done; try (cbn; lia).
  - by apply NoDup_nil_2.
  - unfold NBUF. cbn. lia.
  - split; [done|done|]. intros m. split; [by intros ?%Hp|by intros ?%not_elem_of_nil].
Qed.

Definition on_disk_kernel (d : Z) (s : kmem) : kern (fs log unit) :=
  Kern s (st pe_sb 1 tt idle pe_cache) [the_proc d] 2 0 [] 0 0 0.

Lemma program_ready d s : fs_ready 2 10 20 pe_sb 1 tt 0 pe_disk pe_table pe_rc [47; 97; 0] (Some program) (k_files (on_disk_kernel d s)).
Proof.
  exists pe_cache, pe_dir. split_and!; [|reflexivity|reflexivity|repeat constructor; lia|].
  - split; [exists idle; split; [reflexivity|apply idle_is_quiet]|apply pe_ok|apply pe_rest|apply pe_icache].
  - unfold finds. change (walk false pe_disk pe_table (starts_at _ _) (path_elems [47; 97; 0])) with (walk false pe_disk pe_table 1 [[97]]).
    assert (E : walk false pe_disk pe_table 1 [[97]] = Some 2) by (by vm_compute). rewrite E. destruct pe_inodes as [_ ->]. split; [discriminate|].
    by vm_compute.
Qed.

Lemma running_on_disk : ∃ d s l, running 0 (the_proc d) (on_disk_kernel d s) l no_pages ∧ 1034 < Z.of_nat (length l).
Proof. destruct some_running as (d & s & l & [] & ?). exists d, s, l. split; [by split|done]. Qed.

Lemma exec_runs_file_witness :
  ∃ d s, returns (exec (inodes := fs_inodes 0 (replicate 14 0)) kdata 0 [47; 97; 0] args (on_disk_kernel d s))
    (λ r st', r = 0 ∧ ∃ c', k_procs st' !! 0%nat = Some c' ∧ p_sz c' = 12288 ∧ ubyte (k_mem st') (p_pgdir c') 2 = 235).
Proof.
  destruct running_on_disk as (d & s & l & R & Hl). exists d, s.
  eapply returns_mono; [apply (exec_runs_file 2 10 20 pe_sb 1 tt 0 (replicate 14 0) pe_disk pe_table pe_rc [1] kdata 0 (the_proc d)
    (on_disk_kernel d s) l no_pages [47; 97; 0] (Some program) args)|].
  - apply pe_geo.
  - apply pe_rest.
  - apply pe_live_1.
  - intros i. unfold pe_rc, upd. case_b; [|lia]. intros _. subst i. left.
  - unfold NINODE. cbn. lia.
  - repeat constructor; lia.
  - reflexivity.
  - reflexivity.
  - exact (conj eq_refl eq_refl).
  - exact R.
  - apply program_ready.
  - right. right. left.
  - exact args_strings.
  - intros r st' [_ Hres]. cbn [mbind option_bind] in Hres. pose proof program_image as Hi.
    destruct (image_of program args) as [im|]; [|contradiction]. destruct Hi as (Hsz & _ & Hm).
    destruct Hres as [[-> Hrep]|(_ & _ & Hs)]; [|exfalso; unfold short in Hs; rewrite Hsz in Hs; change (pages 12288) with 3 in Hs; lia].
    split; [reflexivity|]. destruct Hrep as (d' & l' & name & _ & Eps & _ & _ & Hby & _). rewrite Eps. eexists.
    split; [reflexivity|]. split; [exact Hsz|]. rewrite <- Hm. apply Hby. rewrite Hsz. lia.
Defined.
End FileExample.
