(* ===== verification/Syscall.v ===== *)
(** * System calls: arguments and dispatch

    [src/syscall.c].  A process hands its arguments over in its own memory: [user] is the part of it that the
    kernel sees, its size, the saved stack pointer and the bytes by virtual address.  A fetch that fails
    ([-1]) is [None]; one that succeeds gives what it stores at the caller's pointer.

    Theorem: what the fetches accept lies inside the process, and they accept all that does. *)
From S2P Require Import Prelude Bytes Kalloc.

Record user : Type := User {
  u_sz : Z;               (* proc->sz *)
  u_esp : Z;              (* proc->tf->esp *)
  u_mem : Z → Z
}.

Definition fetchint (addr : Z) (u : user) : option Z :=
  if (u_sz u <=? addr) || (u_sz u <? u32 (addr + 4)) then None else Some (i32 (ldw (u_mem u) addr)).

(** The loop of [fetchstr]: the address of the first null byte in the [n] bytes from [s]. *)
Fixpoint fetchstr_loop (n : nat) (m : Z → Z) (s : Z) : option Z :=
  match n with
  | O => None
  | S n' => if m s =? 0 then Some s else fetchstr_loop n' m (s + 1)
  end.

(** The pointer and the length of the string. *)
Definition fetchstr (addr : Z) (u : user) : option (Z * Z) :=
  if u_sz u <=? addr then None else
  s ← fetchstr_loop (Z.to_nat (u_sz u - addr)) (u_mem u) addr;
  Some (addr, s - addr).

Definition argint (n : Z) (u : user) : option Z := fetchint (u32 (u_esp u + 4 + 4 * n)) u.

Definition argptr (n size : Z) (u : user) : option Z :=
  i ← argint n u;
  if (size <? 0) || (u_sz u <=? u32 i) || (u_sz u <? u32 (u32 i + size)) then None else Some (u32 i).

Definition argstr (n : Z) (u : user) : option (Z * Z) :=
  addr ← argint n u;
  fetchstr (u32 addr) u.

(** ** Dispatch *)

(** The handlers. *)
Inductive call : Type :=
| Sys_fork | Sys_exit | Sys_wait | Sys_pipe | Sys_read | Sys_kill | Sys_exec | Sys_fstat | Sys_chdir | Sys_dup
| Sys_getpid | Sys_sbrk | Sys_sleep | Sys_uptime | Sys_open | Sys_write | Sys_mknod | Sys_unlink | Sys_link
| Sys_mkdir | Sys_close | Sys_clrscr | Sys_setcursor | Sys_getcursor | Sys_setconsbuf | Sys_scrputc
| Sys_curmove | Sys_getcch | Sys_pushword | Sys_putchar | Sys_savescr | Sys_restorescr | Sys_mirrorctx
| Sys_setline | Sys_getline | Sys_deletech | Sys_getinput.

(** By number; there is no call 0. *)
Definition syscalls : list (option call) :=
  [None; Some Sys_fork; Some Sys_exit; Some Sys_wait; Some Sys_pipe; Some Sys_read; Some Sys_kill; Some Sys_exec;
   Some Sys_fstat; Some Sys_chdir; Some Sys_dup; Some Sys_getpid; Some Sys_sbrk; Some Sys_sleep; Some Sys_uptime;
   Some Sys_open; Some Sys_write; Some Sys_mknod; Some Sys_unlink; Some Sys_link; Some Sys_mkdir; Some Sys_close;
   Some Sys_clrscr; Some Sys_setcursor; Some Sys_getcursor; Some Sys_setconsbuf; Some Sys_scrputc;
   Some Sys_curmove; Some Sys_getcch; Some Sys_pushword; Some Sys_putchar; Some Sys_savescr; Some Sys_restorescr;
   Some Sys_mirrorctx; Some Sys_setline; Some Sys_getline; Some Sys_deletech; Some Sys_getinput].

(** [tf->eax] is a component of the state; [complain] is the message about an unknown number. *)
Definition syscall {S} (eax : S → Z) (set_eax : Z → S → S) (handler : call → cm S Z) (complain : Z → cm S unit)
    : cm S unit :=
  num ← gets (λ s, i32 (eax s));
  match (if (0 <? num) && (num <? Z.of_nat (length syscalls)) then arr_get syscalls num else None) with
  | Some (Some c) => r ← handler c; modify (set_eax (u32 r))
  | _ => complain num ;; modify (set_eax (u32 (-1)))
  end.

(** ** The strings of a process *)

Lemma fetchstr_loop_spec n m s e :
  fetchstr_loop n m s = Some e ↔ s ≤ e < s + Z.of_nat n ∧ m e = 0 ∧ ∀ a, s ≤ a < e → m a ≠ 0.
Proof.
  revert s. induction n as [|n IH]; intros s; cbn [fetchstr_loop]; [split; [done|lia]|].
  destruct (m s =? 0) eqn:E; zbool.
  - split; [intros [= <-]; split_and!; try done; lia|]. intros (H1 & H2 & H3). f_equal.
    destruct (decide (s = e)); [done|]. by destruct (H3 s ltac:(lia)).
  - rewrite IH. split; intros (H1 & H2 & H3).
    + split_and!; [lia|lia|done|]. intros a Ha. destruct (decide (a = s)) as [->|]; [done|]. apply H3. lia.
    + destruct (decide (s = e)) as [->|]; [done|]. split_and!; [lia|lia|done|]. intros a Ha. apply H3. lia.
Qed.

Lemma fetchint_some addr u v :
  0 ≤ u_sz u ≤ KERNBASE → 0 ≤ addr →
  fetchint addr u = Some v ↔ addr + 4 ≤ u_sz u ∧ v = i32 (ldw (u_mem u) addr).
Proof.
  intros Hs Ha. unfold fetchint, KERNBASE in *.
  destruct (Z.leb_spec (u_sz u) addr); cbn [orb]; [split; [done|lia]|].
  replace (u32 (addr + 4)) with (addr + 4) by (unfold u32; dlia).
  destruct (Z.ltb_spec (u_sz u) (addr + 4)); split; try done; try lia.
  - by intros [= <-].
  - by intros [_ ->].
Qed.

Lemma fetchstr_some addr u p k :
  0 ≤ addr →
  fetchstr addr u = Some (p, k) ↔
    p = addr ∧ 0 ≤ k ∧ p + k < u_sz u ∧ u_mem u (p + k) = 0 ∧ ∀ a, p ≤ a < p + k → u_mem u a ≠ 0.
Proof.
  intros Ha. unfold fetchstr. destruct (Z.leb_spec (u_sz u) addr); [split; [done|lia]|].
  destruct (fetchstr_loop _ _ _) as [e|] eqn:E; cbn [mbind option_bind].
  - apply fetchstr_loop_spec in E as (H1 & H2 & H3). split.
    + intros [= <- <-]. replace (addr + (e - addr)) with e by lia. split_and!; try done; lia.
    + intros (-> & H4 & H5 & H6 & H7). f_equal. f_equal. destruct (Z.lt_trichotomy e (addr + k)) as [?|[?|?]]; [|lia|].
      * by destruct (H7 e ltac:(lia)).
      * by destruct (H3 (addr + k) ltac:(lia)).
  - split; [done|]. intros (-> & H4 & H5 & H6 & H7).
    assert (fetchstr_loop (Z.to_nat (u_sz u - addr)) (u_mem u) addr = Some (addr + k)) as E'; [|by rewrite E' in E].
    apply fetchstr_loop_spec. split_and!; try done; lia.
Qed.

(** The word of argument [n], in the process. *)
Definition arg_word (n : Z) (u : user) (v : Z) : Prop :=
  let a := u32 (u_esp u + 4 + 4 * n) in a + 4 ≤ u_sz u ∧ v = i32 (ldw (u_mem u) a).

Lemma argint_some n u v : 0 ≤ u_sz u ≤ KERNBASE → argint n u = Some v ↔ arg_word n u v.
Proof. intros Hs. apply fetchint_some; [done|]. unfold u32. dlia. Qed.

Lemma argptr_some n size u p :
  0 ≤ u_sz u ≤ KERNBASE → size < 2 ^ 31 →
  argptr n size u = Some p ↔ ∃ v, arg_word n u v ∧ p = u32 v ∧ 0 ≤ size ∧ p < u_sz u ∧ p + size ≤ u_sz u.
Proof.
  intros Hs Hz. unfold argptr. destruct (argint n u) as [v|] eqn:E; cbn [mbind option_bind].
  - pose proof E as Ew%argint_some; [|done]. assert (0 ≤ u32 v < 2 ^ 32) as Hv by (unfold u32; dlia).
    assert (Hu : ∀ w, arg_word n u w → w = v). { intros w Hw%argint_some; [|done]. by simplify_eq. }
    unfold KERNBASE in *.
    destruct (Z.ltb_spec size 0); cbn [orb]; [split; [done|]; intros (w & ?); lia|].
    destruct (Z.leb_spec (u_sz u) (u32 v)); cbn [orb].
    { split; [done|]. intros (w & Hw & -> & ?). rewrite (Hu _ Hw) in *. lia. }
    replace (u32 (u32 v + size)) with (u32 v + size) by (unfold u32 at 2; dlia).
    destruct (Z.ltb_spec (u_sz u) (u32 v + size)).
    { split; [done|]. intros (w & Hw & -> & ?). rewrite (Hu _ Hw) in *. lia. }
    split; [intros [= <-]; exists v; split_and!; try done; lia|]. intros (w & Hw & -> & ?). by rewrite (Hu _ Hw).
  - split; [done|]. intros (v & Hw & _). apply argint_some in Hw; [|done]. by rewrite Hw in E.
Qed.

Lemma argstr_some n u p k :
  0 ≤ u_sz u ≤ KERNBASE →
  argstr n u = Some (p, k) ↔
    ∃ v, arg_word n u v ∧ p = u32 v ∧ 0 ≤ k ∧ p + k < u_sz u ∧ u_mem u (p + k) = 0 ∧
      ∀ a, p ≤ a < p + k → u_mem u a ≠ 0.
Proof.
  intros Hs. unfold argstr. destruct (argint n u) as [v|] eqn:E; cbn [mbind option_bind].
  - rewrite fetchstr_some by (unfold u32; dlia). apply argint_some in E; [|done]. split.
    + intros (-> & H). by exists v.
    + intros (w & Hw & H). assert (w = v) as ->; [|done]. destruct Hw as [_ ->], E as [_ ->]. done.
  - split; [done|]. intros (v & Hw & _). apply argint_some in Hw; [|done]. by rewrite Hw in E.
Qed.

(** C36: For a process below [KERNBASE] the fetches of system call arguments accept exactly what lies inside it: an
    integer whose four bytes do, a buffer whose [size] bytes do, a string that ends before the end of the
    process.  The 32-bit sums of the tests do not wrap round. *)
Theorem args_within u :
  0 ≤ u_sz u ≤ KERNBASE →
  (∀ n v, argint n u = Some v ↔ arg_word n u v) ∧
  (∀ n size p, size < 2 ^ 31 →
     argptr n size u = Some p ↔ ∃ v, arg_word n u v ∧ p = u32 v ∧ 0 ≤ size ∧ p < u_sz u ∧ p + size ≤ u_sz u) ∧
  (∀ n p k, argstr n u = Some (p, k) ↔
     ∃ v, arg_word n u v ∧ p = u32 v ∧ 0 ≤ k ∧ p + k < u_sz u ∧ u_mem u (p + k) = 0 ∧
       ∀ a, p ≤ a < p + k → u_mem u a ≠ 0).
Proof.
  intros Hs. split_and!; intros; [by apply argint_some|by apply argptr_some|by apply argstr_some].
Qed.

Module ArgsExample.
(** A stack at 8192 whose first argument points to the string "hi" at 100. *)
Definition mem (a : Z) : Z := if a =? 8196 then 100 else if a =? 100 then 104 else if a =? 101 then 105 else 0.
Definition caller : user := User 8204 8192 mem.

Lemma args_within_witness : argstr 0 caller = Some (100, 2) ∧ argint 2 caller = None.
Proof.
  destruct (args_within caller) as (Hi & _ & Hs); [vm_compute; split; discriminate|].
  split.
  - apply Hs. exists 100. split; [split; [vm_compute; discriminate|reflexivity]|].
    split; [reflexivity|]. split; [lia|]. split; [vm_compute; reflexivity|]. split; [reflexivity|].
    intros a Ha. assert (a = 100 ∨ a = 101) as [->| ->] by lia; vm_compute; discriminate.
  - destruct (argint 2 caller) as [v|] eqn:E; [|reflexivity]. apply Hi in E as [E _]. vm_compute in E. by destruct E.
Defined.

(** Beyond [KERNBASE] the sum in [argptr] wraps: a buffer that is not in the process is accepted. *)
Example argptr_wraps :
  argptr 0 (2 ^ 31 - 1) (User (2 ^ 31 + 2) 0 (λ a, if a =? 4 then 1 else if a =? 7 then 128 else 0)) = Some (2 ^ 31 + 1).
Proof. reflexivity. Qed.
End ArgsExample.
