(* ===== verification/Sysproc.v ===== *)
(** * System calls on processes and on the screen

    [src/sysproc.c], and [mirrorctx] of [src/console.c]: handlers over the processes of [Proc] and the console of
    [Console].  [user_of] is the current process as [Syscall] sees it: its memory is what its page table maps.
    The handlers for the screen do not test whether an argument could be fetched; they are declared with parameters,
    though called without: these are what the parameters hold then.

    A call that gives up the CPU ends in [Switch]; [sleep_round] is also what [sys_sleep] does when it is woken. *)
From S2P Require Import Prelude CString Bytes Kalloc Vm Proc Console Syscall.

(** The static variables of [mirrorctx]. *)
Record mirror : Type := Mirror {
  m_ctx : Z;
  m_l : Z;
  m_len : Z;
  m_ch : list Z
}.

Record sysk (F : Type) : Type := Sysk {
  sk : kern F;
  sc : console;
  sm : mirror;
  ticks : Z
}.
Arguments Sysk {F}. Arguments sk {F}. Arguments sc {F}. Arguments sm {F}. Arguments ticks {F}.

Definition set_sk {F} (v : kern F) (s : sysk F) : sysk F := Sysk v (sc s) (sm s) (ticks s).
Definition set_sc {F} (v : console) (s : sysk F) : sysk F := Sysk (sk s) v (sm s) (ticks s).
Definition set_sm {F} (v : mirror) (s : sysk F) : sysk F := Sysk (sk s) (sc s) v (ticks s).

Definition M_OUT : Z := 0.
Definition M_IN : Z := 1.

Section sysproc.
Context {F : Type} {files : FileRefs F} (ptable plock forkret_addr trapret_addr data kpgdir : Z).
(** [&tickslock] and [&ticks]. *)
Context (tickslock ticks_addr : Z).
Local Abbreviation K := (sysk F).

Definition on_kern {A} (m : cm (kern F) A) : cm K A := λ s,
  match m (sk s) with Ok a k => Ok a (set_sk k s) | Panic e => Panic e | Ub e => Ub e end.
Definition on_cons (f : console → console) : cm K unit := modify (λ s, set_sc (f (sc s)) s).

(** The byte at a virtual address. *)
Definition mapped_byte (m : pmem) (pgdir va : Z) : Z := m (PTE_ADDR (xlate m pgdir va) + va mod PGSIZE).

Definition user_of (p : proc) (m : pmem) : user :=
  User (p_sz p) (ldw m (V2P (p_tf p + 68))) (mapped_byte m (p_pgdir p)).

Section call.
Context (cur : nat).

Definition the_user : cm K user :=
  p ← on_kern (getp cur);
  m ← gets (λ s, phys (k_mem (sk s)));
  mret (user_of p m).

Definition int_arg (n : Z) : cm K (option Z) := u ← the_user; mret (argint n u).
(** [argint(n, &v)] with the result ignored: [v] afterwards. *)
Definition arg_or (n v : Z) : cm K Z := a ← int_arg n; mret (default v a).

(** ** Processes *)

Definition sys_fork : cm K (after Z) := r ← on_kern (fork ptable plock forkret_addr trapret_addr data cur); mret (Ret r).

Definition sys_exit : cm K (after Z) :=
  r ← on_kern (exit ptable plock cur);
  match r with Ret _ => mret (Ret 0) | Switch => mret Switch end.

Definition sys_wait : cm K (after Z) := on_kern (wait ptable plock cur).

Definition sys_kill : cm K Z :=
  a ← int_arg 0;
  match a with None => mret (-1) | Some pid => on_kern (kill plock pid) end.

Definition sys_getpid : cm K Z := p ← on_kern (getp cur); mret (p_pid p).

Definition sys_sbrk : cm K Z :=
  a ← int_arg 0;
  match a with
  | None => mret (-1)
  | Some n =>
      p ← on_kern (getp cur);
      let addr := i32 (p_sz p) in
      r ← on_kern (growproc cur n);
      mret (if r <? 0 then -1 else addr)
  end.

(** The loop of [sys_sleep], the lock held.  The comparison is unsigned. *)
Definition sleep_round (ticks0 n : Z) : cm K (after Z) :=
  t ← gets ticks;
  if u32 (t - ticks0) <? u32 n then
    p ← on_kern (getp cur);
    if negb (p_killed p =? 0) then on_kern (unlock tickslock) ;; mret (Ret (-1)) else
    on_kern (sleep plock cur ticks_addr tickslock) ;;
    mret Switch
  else on_kern (unlock tickslock) ;; mret (Ret 0).

Definition sys_sleep : cm K (after Z) :=
  a ← int_arg 0;
  match a with
  | None => mret (Ret (-1))
  | Some n => on_kern (lock tickslock) ;; ticks0 ← gets ticks; sleep_round ticks0 n
  end.

Definition sys_uptime : cm K Z :=
  on_kern (lock tickslock) ;;
  xticks ← gets ticks;
  on_kern (unlock tickslock) ;;
  mret (i32 xticks).

(** ** The screen *)

Definition sys_clrscr : cm K Z := on_cons clrscr ;; mret 0.
Definition sys_getcursor : cm K Z := gets (λ s, getcursor (sc s)).
Definition sys_setcursor (pos : Z) : cm K Z := pos ← arg_or 0 pos; on_cons (setcursor pos) ;; mret 0.
Definition sys_setconsbuf (isbuf : Z) : cm K Z := isbuf ← arg_or 0 isbuf; on_cons (setconsbuf isbuf) ;; mret 0.

Definition sys_scrputc (pos c : Z) : cm K Z :=
  pos ← arg_or 0 pos;
  c ← arg_or 1 c;
  on_cons (scrputc pos c) ;;
  mret 0.

Definition sys_curmove (move mode : Z) : cm K Z :=
  move ← arg_or 0 move;
  mode ← arg_or 1 mode;
  on_cons (curmove move mode) ;;
  mret 0.

Definition sys_getcch (pos : Z) : cm K Z := pos ← arg_or 0 pos; gets (λ s, getcch pos (sc s)).

Definition sys_pushword (pos line : Z) : cm K Z :=
  pos ← arg_or 0 pos;
  line ← arg_or 1 line;
  r ← gets (λ s, (pushword pos line (sc s)).1);
  on_cons (λ c, (pushword pos line c).2) ;;
  mret r.

Definition sys_putchar (pos c : Z) : cm K Z :=
  pos ← arg_or 0 pos;
  c ← arg_or 1 c;
  on_cons (putchar pos c) ;;
  mret 0.

Definition sys_savescr : cm K Z := on_cons savescr ;; mret 0.
Definition sys_restorescr : cm K Z := on_cons restorescr ;; mret 0.
Definition sys_getline : cm K Z := gets (λ s, getline (sc s)).
Definition sys_setline (l : Z) : cm K Z := l ← arg_or 0 l; on_cons (setline l) ;; mret 0.

Definition sys_deletech (currentline linecount : Z) : cm K Z :=
  currentline ← arg_or 0 currentline;
  linecount ← arg_or 1 linecount;
  on_cons (deletech currentline linecount) ;;
  mret 0.

Definition sys_getinput : cm K Z := gets (λ s, getinput (sc s)).

(** ** [mirrorctx]: the kernel follows the pointers of the editor *)

(** A word of the process; what lies outside it is not modelled. *)
Definition uword (a : Z) : cm K Z :=
  u ← the_user;
  if (0 <=? a) && (a + 4 <=? u_sz u) then mret (ldw (u_mem u) a) else ub "pointer".

(** [while(l && l->lineno < current_line) l = l->next]; [lineno] is at 84, [next] at 92 of [struct line]. *)
Fixpoint find_line (fuel : nat) (l : Z) : cm K Z :=
  if l =? 0 then mret l else
  n ← uword (l + 84);
  cl ← gets (λ s, current_line (sc s));
  if i32 n <? cl then
    match fuel with
    | O => ub "loop"
    | S fuel' => l ← uword (l + 92); find_line fuel' l
    end
  else mret l.

Definition mirrorctx (fuel : nat) (t mode : Z) : cm K unit :=
  if mode =? M_IN then
    m ← gets sm;
    modify (set_sm (Mirror t (m_l m) (m_len m) (m_ch m))) ;;
    if t =? 0 then panic "ctx is null" else
    start ← uword t;
    if start =? 0 then panic "ctx-start is null" else
    l ← find_line fuel start;
    u ← the_user;
    match fetchstr_loop (Z.to_nat (u_sz u - l)) (u_mem u) l with
    | None => ub "pointer"
    | Some e =>
        if l + 80 <=? u_sz u then
          modify (set_sm (Mirror t l (e - l) ((λ i, u_mem u (l + i)) <$> seqZ 0 80)))
        else ub "pointer"
    end
  else modify (λ s, set_sm (Mirror 0 (m_l (sm s)) (m_len (sm s)) (m_ch (sm s))) s).

(** [sizeof(struct ctext)] is 8. *)
Definition sys_mirrorctx (fuel : nat) (t mode : Z) : cm K Z :=
  u ← the_user;
  let t := default t (argptr 0 8 u) in
  mode ← arg_or 1 mode;
  mirrorctx fuel t mode ;;
  mret 0.
End call.

(** ** Arguments nobody tests *)

Lemma the_user_ok cur s p :
  k_procs (sk s) !! cur = Some p → the_user cur s = Ok (user_of p (phys (k_mem (sk s)))) s.
Proof.
  intros Hp. unfold the_user, on_kern, getp, mbind, cm_bind. rewrite Hp. cbn. unfold gets, set_sk, mret, cm_ret. by destruct s.
Qed.

Lemma arg_or_ok cur s p n v :
  k_procs (sk s) !! cur = Some p →
  arg_or cur n v s = Ok (default v (argint n (user_of p (phys (k_mem (sk s)))))) s.
Proof.
  intros Hp. unfold arg_or, int_arg, mbind, cm_bind. by rewrite (the_user_ok _ _ _ Hp).
Qed.

(** Any cell: [crt] has 2000, the rest is memory of the kernel. *)
Lemma putchar_anywhere cur s p pos0 c0 pos c :
  k_procs (sk s) !! cur = Some p →
  argint 0 (user_of p (phys (k_mem (sk s)))) = Some pos → argint 1 (user_of p (phys (k_mem (sk s)))) = Some c →
  returns (sys_putchar cur pos0 c0 s) (λ r s', r = 0 ∧ crt (sc s') pos = Z.lor (Z.land c 255) WHITE).
Proof.
  intros Hp E0 E1. unfold sys_putchar.
  rewrite (bind_ok _ _ _ _ _ (arg_or_ok _ _ _ 0 pos0 Hp)), E0. cbn [default].
  rewrite (bind_ok _ _ _ _ _ (arg_or_ok _ _ _ 1 c0 Hp)), E1. cbn [default].
  cbn. split; [done|]. unfold putchar, poke. cbn. rewrite upd_eq. unfold u16.
  rewrite <- Z.land_ones, Z.land_lor_distr_l, <- Z.land_assoc by lia. done.
Qed.

(** A null pointer, from any program, stops the kernel. *)
Lemma mirrorctx_panics cur s p fuel t0 mode0 :
  k_procs (sk s) !! cur = Some p → 8 ≤ p_sz p →
  argint 0 (user_of p (phys (k_mem (sk s)))) = Some 0 → argint 1 (user_of p (phys (k_mem (sk s)))) = Some M_IN →
  sys_mirrorctx cur fuel t0 mode0 s = Panic "ctx is null".
Proof.
  intros Hp H8 E0 E1. unfold sys_mirrorctx. rewrite (bind_ok _ _ _ _ _ (the_user_ok _ _ _ Hp)).
  set (u := user_of p (phys (k_mem (sk s)))) in *.
  assert (Ep : argptr 0 8 u = Some 0).
  { unfold argptr. rewrite E0. cbn. change (u32 0) with 0. change (u32 (0 + 8)) with 8.
    destruct (Z.leb_spec (p_sz p) 0); [lia|]. destruct (Z.ltb_spec (p_sz p) 8); [lia|done]. }
  rewrite Ep. cbn [default]. rewrite (bind_ok _ _ _ _ _ (arg_or_ok _ _ _ 1 mode0 Hp)). fold u. by rewrite E1.
Qed.

(** A negative number of ticks is taken for a huge one. *)
Lemma sleep_negative cur s p n ticks0 :
  k_procs (sk s) !! cur = Some p → p_killed p = 0 → - 2 ^ 31 ≤ n < 0 → 0 ≤ ticks0 ≤ ticks s → ticks s - ticks0 < 2 ^ 31 →
  ∀ r s', sleep_round cur ticks0 n s = Ok r s' → r = Switch.
Proof.
  intros Hp Hk Hn Ht Hd r s'. unfold sleep_round, mbind, cm_bind, gets.
  assert (E : (u32 (ticks s - ticks0) <? u32 n) = true) by (apply Z.ltb_lt; unfold u32; dlia).
  rewrite E. unfold on_kern at 1, getp. rewrite Hp. cbn. rewrite Hk. cbn.
  destruct (on_kern _ _) as [? ?| |]; try done. by intros [= <- _].
Qed.
End sysproc.
