(* ===== verification/File.v ===== *)
(** * Open files

    [src/file.c], and [pipealloc] of [src/pipe.c]: the table of open files, over the file system with its log,
    the pipes and the page allocator.  A [struct file *] is the index of the entry in the table, a
    [struct pipe *] the address of the page; an allocated pipe is seen as its fields, not as the bytes of its page.

    [fstate] also has what the system calls on files use of the current process: its memory, its descriptors,
    its current directory.  Wake-ups of other processes leave no trace in it.  A call that would sleep ends in
    [Ub "sleeps"]. *)
From S2P Require Import Prelude Bytes Bio Kalloc Pipe Log Disk Fs Syscall.

Definition NFILE : nat := 100.
Definition NOFILE : nat := 16.

Inductive ftype : Type := FD_NONE | FD_PIPE | FD_INODE.
Global Instance ftype_eq_dec : EqDecision ftype.
Proof. solve_decision. Defined.

Record file : Type := File {
  f_type : ftype;
  f_ref : Z;
  f_readable : bool;
  f_writable : bool;
  f_pipe : Z;
  f_ip : option nat;
  f_off : Z
}.

Definition with_fref (n : Z) (f : file) : file :=
  File (f_type f) n (f_readable f) (f_writable f) (f_pipe f) (f_ip f) (f_off f).
Definition with_ftype (t : ftype) (f : file) : file :=
  File t (f_ref f) (f_readable f) (f_writable f) (f_pipe f) (f_ip f) (f_off f).
Definition with_off (n : Z) (f : file) : file :=
  File (f_type f) (f_ref f) (f_readable f) (f_writable f) (f_pipe f) (f_ip f) n.

(** The page allocator; [pg_bytes a n] are the bytes in memory at [a]. *)
Class Pages (M : Type) : Type := {
  pg_kalloc : cm M Z;
  pg_kfree : Z → cm M unit;
  pg_bytes : Z → nat → M → list Z
}.

#[export] Instance kmem_pages : Pages kmem := {|
  pg_kalloc := kalloc;
  pg_kfree := kfree;
  pg_bytes a n s := (λ i, phys s (V2P (a + i))) <$> seqZ 0 (Z.of_nat n)
|}.

Section files.
Context {M X : Type} {pages : Pages M} {swtch : Devices X}.

Record fstate : Type := Fst {
  fsys : fs log X;
  pool : M;
  pipes : gmap Z pipe;
  ftable : list file;          (* ftable.file *)
  ft_lock : bool;              (* ftable.lock *)
  proc_mem : user;             (* the current process: its memory, ... *)
  ofile : list (option nat);   (* proc->ofile *)
  cwd : nat;                   (* proc->cwd *)
  killed : bool                (* proc->killed *)
}.

Definition set_fsys (v : fs log X) (s : fstate) : fstate :=
  Fst v (pool s) (pipes s) (ftable s) (ft_lock s) (proc_mem s) (ofile s) (cwd s) (killed s).
Definition set_pool (v : M) (s : fstate) : fstate :=
  Fst (fsys s) v (pipes s) (ftable s) (ft_lock s) (proc_mem s) (ofile s) (cwd s) (killed s).
Definition set_pipes (v : gmap Z pipe) (s : fstate) : fstate :=
  Fst (fsys s) (pool s) v (ftable s) (ft_lock s) (proc_mem s) (ofile s) (cwd s) (killed s).
Definition set_ftable (v : list file) (s : fstate) : fstate :=
  Fst (fsys s) (pool s) (pipes s) v (ft_lock s) (proc_mem s) (ofile s) (cwd s) (killed s).
Definition set_ft_lock (v : bool) (s : fstate) : fstate :=
  Fst (fsys s) (pool s) (pipes s) (ftable s) v (proc_mem s) (ofile s) (cwd s) (killed s).
Definition set_proc_mem (v : user) (s : fstate) : fstate :=
  Fst (fsys s) (pool s) (pipes s) (ftable s) (ft_lock s) v (ofile s) (cwd s) (killed s).
Definition set_ofile (v : list (option nat)) (s : fstate) : fstate :=
  Fst (fsys s) (pool s) (pipes s) (ftable s) (ft_lock s) (proc_mem s) v (cwd s) (killed s).
Definition set_cwd (v : nat) (s : fstate) : fstate :=
  Fst (fsys s) (pool s) (pipes s) (ftable s) (ft_lock s) (proc_mem s) (ofile s) v (killed s).

Definition on_fs {A} (m : cm (fs log X) A) : cm fstate A := λ s,
  match m (fsys s) with Ok a f => Ok a (set_fsys f s) | Panic e => Panic e | Ub e => Ub e end.
Definition on_pool {A} (m : cm M A) : cm fstate A := λ s,
  match m (pool s) with Ok a f => Ok a (set_pool f s) | Panic e => Panic e | Ub e => Ub e end.

(** An operation on the pipe at [p], without the channels it wakes. *)
Definition on_pipe {A} (p : Z) (m : pipe → outcome (list pchan * pipe) A) : cm fstate A := λ s,
  match pipes s !! p with
  | None => Ub "pipe pointer"
  | Some q =>
      match m q with
      | Ok a (_, q') => Ok a (set_pipes (<[p := q']> (pipes s)) s)
      | Panic e => Panic e
      | Ub e => Ub e
      end
  end.

Definition begin_op : cm fstate unit :=
  go ← on_fs (on_disk Log.begin_op);
  if (go : bool) then mret tt else ub "sleeps".
Definition end_op : cm fstate unit := on_fs (on_disk Log.end_op).

Definition file_at (f : nat) : cm fstate file := λ s,
  match ftable s !! f with Some v => Ok v s | None => Ub "file pointer" end.
Definition file_upd (f : nat) (g : file → file) : cm fstate unit :=
  v ← file_at f; modify (λ s, set_ftable (<[f := g v]> (ftable s)) s).

(** The inode behind a pointer that [ilock] accepted. *)
Definition deref (p : option nat) : cm fstate nat :=
  match p with Some i => mret i | None => ub "null inode" end.

(** ** The table *)

Definition fileinit : cm fstate unit := modify (set_ft_lock false).

Fixpoint free_file (l : list file) (i : nat) : option nat :=
  match l with
  | [] => None
  | f :: l' => if f_ref f =? 0 then Some i else free_file l' (S i)
  end.

Definition filealloc : cm fstate (option nat) :=
  acquire ft_lock set_ft_lock ;;
  l ← gets ftable;
  match free_file l 0 with
  | Some i => file_upd i (with_fref 1) ;; release ft_lock set_ft_lock ;; mret (Some i)
  | None => release ft_lock set_ft_lock ;; mret None
  end.

Definition filedup (f : nat) : cm fstate nat :=
  acquire ft_lock set_ft_lock ;;
  v ← file_at f;
  if f_ref v <? 1 then panic "filedup" else
  file_upd f (λ v, with_fref (f_ref v + 1) v) ;;
  release ft_lock set_ft_lock ;;
  mret f.

(** [pipeclose], with the page it frees. *)
Definition close_pipe (p : Z) (writable : bool) : cm fstate unit :=
  free ← on_pipe p (pipeclose writable);
  if (free : bool) then modify (λ s, set_pipes (delete p (pipes s)) s) ;; on_pool (pg_kfree p) else mret tt.

Definition fileclose (f : nat) : cm fstate unit :=
  acquire ft_lock set_ft_lock ;;
  v ← file_at f;
  if f_ref v <? 1 then panic "fileclose" else
  file_upd f (λ v, with_fref (f_ref v - 1) v) ;;
  ff ← file_at f;
  if 0 <? f_ref ff then release ft_lock set_ft_lock else
  file_upd f (λ v, with_ftype FD_NONE (with_fref 0 v)) ;;
  release ft_lock set_ft_lock ;;
  match f_type ff with
  | FD_PIPE => close_pipe (f_pipe ff) (f_writable ff)
  | FD_INODE => begin_op ;; i ← deref (f_ip ff); on_fs (iput i) ;; end_op
  | FD_NONE => mret tt
  end.

(** [-1] is [None]; otherwise what is stored at [st]. *)
Definition filestat (f : nat) : cm fstate (option stat) :=
  v ← file_at f;
  match f_type v with
  | FD_INODE =>
      on_fs (ilock (f_ip v)) ;;
      i ← deref (f_ip v);
      st ← on_fs (stati i);
      on_fs (iunlock (f_ip v)) ;;
      mret (Some st)
  | _ => mret None
  end.

(** ** Reading and writing *)

(** The return value and the bytes stored at [addr]. *)
Definition fileread (f : nat) (n : Z) : cm fstate (Z * list Z) :=
  v ← file_at f;
  if negb (f_readable v) then mret (-1, []) else
  match f_type v with
  | FD_PIPE =>
      k ← gets killed;
      r ← on_pipe (f_pipe v) (piperead k n);
      match r with RDone r bytes => mret (r, bytes) | RSleep => ub "sleeps" end
  | FD_INODE =>
      on_fs (ilock (f_ip v)) ;;
      i ← deref (f_ip v);
      r ← on_fs (readi i (f_off v) n);
      (if 0 <? r.1 then file_upd f (λ v, with_off (u32 (f_off v + r.1)) v) else mret tt) ;;
      on_fs (iunlock (f_ip v)) ;;
      mret r
  | FD_NONE => panic "fileread"
  end.

(** [((MAXOPBLOCKS-1-1-2) / 2) * 512]. *)
Definition max_chunk : Z := (MAXOPBLOCKS - 1 - 1 - 2) / 2 * 512.

(** One turn of the loop: a transaction that writes [src]. *)
Definition write_chunk (f : nat) (src : list Z) : cm fstate Z :=
  begin_op ;;
  v ← file_at f;
  on_fs (ilock (f_ip v)) ;;
  i ← deref (f_ip v);
  r ← on_fs (writei i src (f_off v));
  (if 0 <? r then file_upd f (λ v, with_off (u32 (f_off v + r)) v) else mret tt) ;;
  on_fs (iunlock (f_ip v)) ;;
  end_op ;;
  mret r.

(** The loop of [filewrite]: the last [i]. *)
Fixpoint filewrite_loop (fuel : nat) (f : nat) (src : list Z) (i : Z) : cm fstate Z :=
  let n := Z.of_nat (length src) in
  if i <? n then
    match fuel with
    | O => ub "loop"
    | S fuel' =>
        let n1 := n - i in
        let n1 := if max_chunk <? n1 then max_chunk else n1 in
        r ← write_chunk f (take (Z.to_nat n1) (drop (Z.to_nat i) src));
        if r <? 0 then mret i else
        if negb (r =? n1) then panic "short filewrite" else
        filewrite_loop fuel' f src (i + r)
    end
  else mret i.

(** [src] is the list of the [n] bytes at [addr]. *)
Definition filewrite (f : nat) (src : list Z) : cm fstate Z :=
  let n := Z.of_nat (length src) in
  v ← file_at f;
  if negb (f_writable v) then mret (-1) else
  match f_type v with
  | FD_PIPE =>
      k ← gets killed;
      r ← on_pipe (f_pipe v) (pipewrite k n src);
      match r with WDone r _ => mret r | WSleep _ => ub "sleeps" end
  | FD_INODE => i ← filewrite_loop (length src) f src 0; mret (if i =? n then n else -1)
  | FD_NONE => panic "filewrite"
  end.

(** ** [pipealloc]: the two ends, or [None] *)

(** [bad:], with the files allocated so far. *)
Definition pipealloc_bad (f0 f1 : option nat) : cm fstate (option (nat * nat)) :=
  (match f0 with Some f => fileclose f | None => mret tt end) ;;
  (match f1 with Some f => fileclose f | None => mret tt end) ;;
  mret None.

(** [data] starts after the lock, 52 bytes into the page. *)
Definition pipealloc : cm fstate (option (nat * nat)) :=
  f0 ← filealloc;
  match f0 with
  | None => pipealloc_bad None None
  | Some r =>
      f1 ← filealloc;
      match f1 with
      | None => pipealloc_bad f0 None
      | Some w =>
          p ← on_pool pg_kalloc;
          if p =? 0 then pipealloc_bad f0 f1 else
          junk ← gets (λ s, pg_bytes (p + 52) 512 (pool s));
          modify (λ s, set_pipes (<[p := pipealloc_init junk]> (pipes s)) s) ;;
          file_upd r (λ v, File FD_PIPE (f_ref v) true false p (f_ip v) (f_off v)) ;;
          file_upd w (λ v, File FD_PIPE (f_ref v) false true p (f_ip v) (f_off v)) ;;
          mret (Some (r, w))
      end
  end.
End files.
Arguments fstate M X : clear implicits.
