(* ===== verification/FileWrite.v ===== *)
(** * Writing to a file in several transactions

    [filewrite] of [src/file.c] cuts a long write into pieces that fit the log and commits each.
    Composes the log ([FsTx]), the inode cache ([FsInode]) and [writei] ([FsFile]). *)
From S2P Require Import Prelude Bytes Bio Kalloc Pipe Log Disk Fs FsAlloc FsModel FsFile FsTheorems FsTx FsInode FsDir FsPath FsLink FsRest Syscall File.

Lemma overwrite_overwrite c off a b :
  0 ≤ off ≤ Z.of_nat (length c) →
  overwrite (overwrite c off a) (off + Z.of_nat (length a)) b = overwrite c off (a ++ b).
Proof.
  intros Ho. unfold overwrite. set (o := Z.to_nat off). replace (Z.to_nat (off + Z.of_nat (length a))) with (o + length a)%nat by lia.
  assert (Hl : length (take o c) = o) by (rewrite length_take; lia).
  replace (take o c ++ a ++ drop (o + length a) c) with ((take o c ++ a) ++ drop (o + length a) c) by by rewrite <- app_assoc.
  rewrite take_app_length' by (rewrite length_app; lia).
  rewrite drop_app_ge by (rewrite length_app; lia). rewrite !length_app, Hl, drop_drop, <- !app_assoc.
  do 4 f_equal. lia.
Qed.

Section write.
Context {M X : Type} {pages : Pages M} {swtch : Devices X}.
Context (lst lsz dsize : Z) (sb : superblock) (p : Z) (x : X).
Local Abbreviation state := (st (D := log) sb p x).
Local Abbreviation at_rest := (at_rest lst lsz dsize sb p x).

Lemma on_fs_ok {A} (m : cm (fs log X) A) (s : fstate M X) f a f' :
  m f = Ok a f' → on_fs m (set_fsys f s) = Ok a (set_fsys f' s).
Proof. intros E. unfold on_fs. cbn [fsys set_fsys]. by rewrite E. Qed.

Lemma file_at_ok (s : fstate M X) f v : ftable s !! f = Some v → file_at f s = Ok v s.
Proof. intros E. unfold file_at. by rewrite E. Qed.

Lemma file_upd_ok (s : fstate M X) f v g :
  ftable s !! f = Some v → file_upd f g s = Ok tt (set_ftable (<[f := g v]> (ftable s)) s).
Proof. intros E. unfold file_upd. by rewrite (bind_ok _ _ _ _ _ (file_at_ok s f v E)). Qed.

Lemma begin_op_ok (s : fstate M X) lg l V :
  quiet lst lsz dsize V lg →
  ∃ lg', begin_op (set_fsys (state lg l) s) = Ok tt (set_fsys (state lg' l) s) ∧
    open_tx lst lsz dsize (disk (cache lg)) (trace (cache lg)) lg' V [] ∅.
Proof.
  intros Q. destruct (begin_quiet _ _ _ V lg Q) as (lg' & E & R). exists lg'. split; [|done].
  unfold begin_op. by rewrite (bind_ok _ _ _ _ _ (on_fs_ok _ s _ _ _ (on_disk_log sb p x _ lg l _ _ E))).
Qed.

Lemma end_op_ok (s : fstate M X) lg l V L d0 tr0 :
  open_tx lst lsz dsize d0 tr0 lg V [] L → (∀ m, whole (d0 m)) →
  ∃ lg' V', end_op (set_fsys (state lg l) s) = Ok tt (set_fsys (state lg' l) s) ∧ quiet lst lsz dsize V' lg' ∧
    ∀ n, log_usable lst lsz dsize n → V' n = V n.
Proof.
  intros R Hd. destruct (end_quiet _ _ _ d0 tr0 lg V L R Hd) as (lg' & V' & E & Q & Hag). exists lg', V'.
  split; [|done]. apply on_fs_ok. by apply on_disk_log.
Qed.

(** ** The space of one piece *)

Context (Hgeo : fs_geo (log_usable lst lsz dsize) sb).
(** The log holds a piece: the bitmap, the inode, the indirect block and four blocks of data. *)
Context (Hcap : Z.of_nat (card (bmaps sb)) + 6 < Z.of_nat (cap lsz)).

Lemma touched_chunk off n : 0 ≤ off → 0 ≤ n ≤ max_chunk → 0 ≤ touched off n ≤ 4.
Proof.
  unfold touched. change max_chunk with 1536. sizes. intros Ho Hn. destruct (Z.eqb_spec n 0); [lia|]. dlia.
Qed.

Lemma spend_empty i d : (spend sb ∅ i d ≤ card (bmaps sb) + 2)%nat.
Proof.
  unfold spend, fixed, demand. assert (Hu : ∀ a b : gset Z, (card (a ∪ b) ≤ card a + card b)%nat).
  { intros a b. unfold card. rewrite size_union_alt. pose proof (subseteq_size (b ∖ a) b ltac:(set_solver)). lia. }
  assert (H1 : ∀ z, card {[z]} = 1%nat) by (intros; apply size_singleton).
  assert (H0 : card ∅ = 0%nat) by apply size_empty.
  pose proof (Hu ∅ (bmaps sb ∪ {[IBLOCK i sb]} ∪ (if ind d =? 0 then ∅ else {[ind d]}))).
  pose proof (Hu (bmaps sb ∪ {[IBLOCK i sb]}) (if ind d =? 0 then ∅ else {[ind d]})).
  pose proof (Hu (bmaps sb) {[IBLOCK i sb]}). pose proof (H1 (IBLOCK i sb)). pose proof (H1 (ind d)).
  destruct (ind d =? 0); lia.
Qed.

Lemma space_four V di off n :
  0 ≤ off → 0 ≤ n ≤ max_chunk → (4 + demand di ≤ nfree sb V)%nat → space sb V di off n.
Proof.
  intros Ho Hn Hf. right. pose proof (touched_chunk off n Ho Hn).
  assert (holes V di (off / BSIZE) (touched off n) ≤ 4)%nat; [|lia].
  unfold holes. etrans; [apply length_filter|]. rewrite length_seqZ. lia.
Qed.

Lemma agree_nfree V V' : (∀ n, sb_inodestart sb ≤ n < sb_size sb → V' n = V n) → nfree sb V' = nfree sb V.
Proof. intros H. apply nfree_same. intros c Hc. by apply (agree_used _ _ _ _ Hgeo). Qed.

(** ** One piece *)

Definition moved (f : nat) (v : file) (off : Z) (s : fstate M X) : fstate M X :=
  set_ftable (<[f := with_off off v]> (ftable s)) s.

(** What a write to the file leaves: the new contents, and how many free blocks it took. *)
Record wrote (i : Z) (k : nat) (c : list Z) (need : Z) (V : Z → block) (A : Z → dinode) (rc : Z → Z)
    (fs' : fs log X) (V' : Z → block) (A' : Z → dinode) (l' : list inode) : Prop := {
  wr_rest : at_rest fs' V' A' rc l';
  wr_refers : refers l' k i;
  wr_updated : updated sb i c V A V' A';
  wr_free : Z.of_nat (nfree sb V) + Z.of_nat (demand (A' i)) ≤ Z.of_nat (nfree sb V') + need + Z.of_nat (demand (A i))
}.

(** In a transaction: [ilock], [writei], [iunlock]. *)
Definition locked_write (lg : log) (l : list inode) (k : nat) (i : Z) (src : list Z) (off : Z)
    (d0 : Z → block) (tr0 : list (Z * block)) (V : Z → block) (A : Z → dinode) (rc : Z → Z) : Prop :=
  ∃ lg1 l1 lg2 l2 V' L' A' l3,
    ilock (Some k) (state lg l) = Ok tt (state lg1 l1) ∧
    writei k src off (state lg1 l1) = Ok (Z.of_nat (length src)) (state lg2 l2) ∧
    iunlock (Some k) (state lg2 l2) = Ok tt (state lg2 l3) ∧
    open_tx lst lsz dsize d0 tr0 lg2 V' [] L' ∧ fs_ok sb V' A' ∧ icache sb p A' rc None l3 ∧ refers l3 k i ∧
    updated sb i (overwrite (contents V (A i)) off src) V A V' A' ∧ takes sb i V A V' A' (touched off (Z.of_nat (length src))).

Section piece.
Context (V : Z → block) (A : Z → dinode) (rc : Z → Z) (l : list inode) (k : nat) (i : Z) (src : list Z) (off : Z).
Context (Hok : fs_ok sb V A) (Hsync : synced sb V A) (IC : icache sb p A rc None l) (Hk : refers l k i).
Context (Ht : di_type (A i) ≠ T_DEV) (Ho : 0 ≤ off ≤ di_size (A i)).
Context (Hs : off + Z.of_nat (length src) ≤ MAXFILE * BSIZE) (Hb : Forall is_byte src).
Context (Hn : 0 < Z.of_nat (length src) ≤ max_chunk) (Hfree : (4 + demand (A i) ≤ nfree sb V)%nat).

Lemma locked_write_ok lg d0 tr0 :
  open_tx lst lsz dsize d0 tr0 lg V [] ∅ → locked_write lg l k i src off d0 tr0 V A rc.
Proof.
  intros R1. destruct Hk as (ip & Hl & Hi & Hr). pose (laws := log_disk_ok lst lsz dsize 1 0 d0 tr0).
  destruct (ilock_ok (laws := laws) sb p x Hgeo A rc l lg k ip Hl Hr V ∅ IC R1 Hsync) as (lg2 & E2 & R2).
  pose proof (icache_loaded sb p A rc l k ip Hl IC) as IC2.
  set (ip1 := loaded p A ip) in *. set (l1 := <[k := ip1]> l) in *.
  assert (Hl1 : l1 !! k = Some ip1) by (by eapply put_same).
  destruct (ic_live _ _ _ _ _ _ IC _ _ Hl Hr) as [Hdev Hlive].
  assert (O : opened (laws := laws) sb lg2 V ∅ A l1 k ip1) by (by split).
  pose proof (touched_chunk off (Z.of_nat (length src)) ltac:(lia) ltac:(lia)). pose proof (spend_empty i (A i)).
  destruct (writei_ok (laws := laws) sb p x Hgeo lg2 V ∅ A l1 k ip1 src off O Hsync)
    as (lg3 & V3 & L3 & A3 & E3 & O3 & U3 & _ & T3); cbn [ip1 loaded i_inum]; rewrite ?Hi; try done.
  { apply space_four; lia. }
  { cbn [log_cap laws log_disk_ok]. lia. }
  cbv zeta in E3, O3. cbn [ip1 loaded i_inum] in E3, O3, U3, T3. rewrite Hi in E3, O3, U3, T3.
  pose proof (icache_updated sb p A rc l1 k ip1 i _ V V3 A3 IC2 Hl1 Hr Hi U3) as IC3.
  set (ip3 := with_copy (A3 i) ip1) in *. set (l3 := <[k := ip3]> l1) in *.
  assert (Hl3 : l3 !! k = Some ip3) by (by eapply put_same).
  exists lg2, l1, lg3, l3, V3, L3, A3, (<[k := with_iowner None ip3]> l3).
  split_and!; try done; try apply O3.
  - by apply (iunlock_ok sb p x A3 rc l3 lg3 k ip3).
  - by apply icache_unlocked.
  - exists (with_iowner None ip3). split; [by eapply put_same|done].
Qed.

Lemma write_chunk_ok (s : fstate M X) f v :
  at_rest (fsys s) V A rc l → ftable s !! f = Some v → f_ip v = Some k → f_off v = off →
  ∃ fs' V' A' l',
    write_chunk f src s = Ok (Z.of_nat (length src)) (moved f v (off + Z.of_nat (length src)) (set_fsys fs' s)) ∧
    wrote i k (overwrite (contents V (A i)) off src) 4 V A rc fs' V' A' l'.
Proof.
  intros [(lg & Es & Q) _ _ _] Hv Hip Eo. set (n := Z.of_nat (length src)) in *.
  assert (Hs0 : set_fsys (state lg l) s = s) by (rewrite <- Es; by destruct s). rewrite <- Hs0. clear Es.
  destruct (begin_op_ok s lg l V Q) as (lg1 & E1 & R1).
  destruct (locked_write_ok lg1 _ _ R1) as (lg2 & l2 & lg3 & l3 & V' & L' & A' & l4 & E2 & E3 & E4 & R4 & Hok' & IC' & Hk' & U & T).
  destruct (end_op_ok (moved f v (off + n) s) lg3 l4 V' L' _ _ R4) as (lg5 & V5 & E5 & Q5 & Hag).
  { intros m. by eapply quiet_disk. }
  assert (Hag' : ∀ m, sb_inodestart sb ≤ m < sb_size sb → V5 m = V' m) by (intros m Hm; by apply Hag, (fg_usable _ _ Hgeo)).
  exists (state lg5 l4), V5, A', l4. split.
  - unfold write_chunk. rewrite (bind_ok _ _ _ _ _ E1). rewrite (bind_ok _ _ _ _ _ (file_at_ok (set_fsys (state lg1 l) s) f v Hv)).
    rewrite Hip, Eo. rewrite (bind_ok _ _ _ _ _ (on_fs_ok _ s _ _ _ E2)). unfold deref. rewrite bind_ret.
    rewrite (bind_ok _ _ _ _ _ (on_fs_ok _ s _ _ _ E3)). fold n. rewrite (proj2 (Z.ltb_lt 0 n)) by lia.
    rewrite (bind_ok _ _ _ _ _ (file_upd_ok (set_fsys (state lg3 l3) s) f v _ Hv)). rewrite Eo.
    rewrite u32_small by (change (MAXFILE * BSIZE) with 71680 in Hs; lia).
    change (set_ftable _ (set_fsys (state lg3 l3) s)) with (set_fsys (state lg3 l3) (moved f v (off + n) s)).
    rewrite (bind_ok _ _ _ _ _ (on_fs_ok _ (moved f v (off + n) s) _ _ _ E4)). by rewrite (bind_ok _ _ _ _ _ E5).
  - split; [|done| |].
    + split; [by exists lg5|by eapply agree_ok| |done]. eapply agree_synced; [done|exact Hag'|]. apply U.
    + eapply updated_agree; [done|exact U|done| |done].
      destruct Hk' as (q & Hq & <- & Hqr). apply (ic_live _ _ _ _ _ _ IC' _ _ Hq Hqr).
    + rewrite (agree_nfree V' V5) by done. unfold takes in T.
      pose proof (touched_chunk off n ltac:(lia) ltac:(lia)). fold n in T. lia.
Qed.
End piece.

(** ** The loop *)

(** The transactions a write of [n] bytes takes. *)
Definition pieces (n : Z) : Z := (n + (max_chunk - 1)) / max_chunk.

Lemma pieces_step n : 0 < n → pieces n = 1 + pieces (n - Z.min n max_chunk) ∧ 0 ≤ pieces (n - Z.min n max_chunk).
Proof. unfold pieces. change max_chunk with 1536. intros Hn. destruct (decide (n ≤ 1536)); dlia. Qed.

Lemma wrote_trans i k c1 c2 n1 n2 V A rc fs1 V1 A1 l1 fs2 V2 A2 l2 :
  wrote i k c1 n1 V A rc fs1 V1 A1 l1 → wrote i k c2 n2 V1 A1 rc fs2 V2 A2 l2 →
  wrote i k c2 (n1 + n2) V A rc fs2 V2 A2 l2.
Proof. intros [_ _ U1 F1] [R2 K2 U2 F2]. split; [done|done|by eapply updated_trans|lia]. Qed.

Lemma wrote_nothing (s : fstate M X) i k V A rc l :
  at_rest (fsys s) V A rc l → refers l k i → wrote i k (contents V (A i)) 0 V A rc (fsys s) V A l.
Proof.
  intros R K. pose proof R as [_ Hok Hsync IC]. split; [done|done| |lia]. apply updated_refl; try done.
  destruct K as (q & Hq & <- & Hr). apply (ic_live _ _ _ _ _ _ IC _ _ Hq Hr).
Qed.

Section loop.
Context (rc : Z → Z) (f k : nat) (i : Z) (src : list Z) (Hb : Forall is_byte src).
Local Abbreviation n := (Z.of_nat (length src)).

(** With [pos] bytes written. *)
Record writing (s : fstate M X) V A l v (pos : Z) : Prop := {
  wi_rest : at_rest (fsys s) V A rc l;
  wi_file : ftable s !! f = Some v;
  wi_ip : f_ip v = Some k;
  wi_refers : refers l k i;
  wi_type : di_type (A i) ≠ T_DEV;
  wi_off : 0 ≤ f_off v ≤ di_size (A i);
  wi_pos : 0 ≤ pos ≤ n;
  wi_fits : f_off v + (n - pos) ≤ MAXFILE * BSIZE;
  wi_space : 4 * pieces (n - pos) + Z.of_nat (demand (A i)) ≤ Z.of_nat (nfree sb V)
}.

Lemma writing_step s V A l v pos n1 fs' V' A' l' :
  writing s V A l v pos → pos < n → n1 = Z.min (n - pos) max_chunk →
  wrote i k (overwrite (contents V (A i)) (f_off v) (take (Z.to_nat n1) (drop (Z.to_nat pos) src))) 4 V A rc fs' V' A' l' →
  writing (moved f v (f_off v + n1) (set_fsys fs' s)) V' A' l' (with_off (f_off v + n1) v) (pos + n1).
Proof.
  intros [] Hlt Hn1 [R K U F]. assert (0 < n1 ≤ n - pos) by (change max_chunk with 1536 in *; lia).
  destruct (pieces_step (n - pos)) as [Hp Hp0]; [lia|]. rewrite <- Hn1 in Hp, Hp0.
  split; try done.
  - cbn. apply list_lookup_insert_eq. by eapply lookup_lt_Some.
  - by rewrite (up_meta _ _ _ _ _ _ _ U).
  - cbn [f_off with_off]. rewrite (up_size _ _ _ _ _ _ _ U), overwrite_length, length_take, length_drop; [lia|].
    unfold contents. rewrite length_fbytes. lia.
  - lia.
  - cbn [f_off with_off]. lia.
  - replace (n - (pos + n1)) with (n - pos - n1) by lia. lia.
Qed.

(** The rest, after the piece [a]. *)
Lemma wrote_more V A V1 A1 pos n1 off fs1 l1 fs2 V2 A2 l2 :
  let piece := take (Z.to_nat n1) (drop (Z.to_nat pos) src) in
  0 ≤ pos → 0 < n1 ≤ n - pos → 0 ≤ off ≤ di_size (A i) → n1 = Z.min (n - pos) max_chunk →
  wrote i k (overwrite (contents V (A i)) off piece) 4 V A rc fs1 V1 A1 l1 →
  wrote i k (overwrite (contents V1 (A1 i)) (off + n1) (drop (Z.to_nat (pos + n1)) src)) (4 * pieces (n - (pos + n1)))
    V1 A1 rc fs2 V2 A2 l2 →
  wrote i k (overwrite (contents V (A i)) off (drop (Z.to_nat pos) src)) (4 * pieces (n - pos)) V A rc fs2 V2 A2 l2.
Proof.
  intros piece Hpos Hn1 Ho Em W1 W2. pose proof (wrote_trans _ _ _ _ _ _ _ _ _ _ _ _ _ _ _ _ _ W1 W2) as W.
  assert (Hl : Z.of_nat (length piece) = n1) by (unfold piece; rewrite length_take, length_drop; lia).
  rewrite (up_contents _ _ _ _ _ _ _ (wr_updated _ _ _ _ _ _ _ _ _ _ _ W1)) in W.
  rewrite <- Hl, overwrite_overwrite, Hl in W by (unfold contents; rewrite length_fbytes; lia).
  destruct (pieces_step (n - pos)) as [Hp _]; [lia|]. rewrite <- Em in Hp.
  replace (n - (pos + n1)) with (n - pos - n1) in W by lia. rewrite Hp, Z.mul_add_distr_l.
  replace (drop (Z.to_nat pos) src) with (piece ++ drop (Z.to_nat (pos + n1)) src); [exact W|].
  rewrite <- (take_drop (Z.to_nat n1) (drop (Z.to_nat pos) src)). rewrite drop_drop. do 2 f_equal. lia.
Qed.

Lemma filewrite_loop_done fuel s V A l v :
  writing s V A l v n →
  filewrite_loop fuel f src n s = Ok n (moved f v (f_off v + (n - n)) (set_fsys (fsys s) s)) ∧
  wrote i k (overwrite (contents V (A i)) (f_off v) (drop (Z.to_nat n) src)) (4 * pieces (n - n)) V A rc (fsys s) V A l.
Proof.
  intros []. rewrite drop_ge, overwrite_nil, Z.sub_diag by lia. change (4 * pieces 0) with 0. split; [|by apply wrote_nothing].
  assert (Em : moved f v (f_off v + 0) (set_fsys (fsys s) s) = s); [|rewrite Em; destruct fuel; cbn; by rewrite Z.ltb_irrefl].
  unfold moved. rewrite Z.add_0_r. replace (with_off (f_off v) v) with v by by destruct v. cbn.
  rewrite list_insert_id by done. by destruct s.
Qed.

Lemma filewrite_loop_ok fuel s V A l v pos :
  writing s V A l v pos → n - pos ≤ Z.of_nat fuel →
  ∃ fs' V' A' l',
    filewrite_loop fuel f src pos s = Ok n (moved f v (f_off v + (n - pos)) (set_fsys fs' s)) ∧
    wrote i k (overwrite (contents V (A i)) (f_off v) (drop (Z.to_nat pos) src)) (4 * pieces (n - pos)) V A rc fs' V' A' l'.
Proof.
  revert s V A l v pos. induction fuel as [|fuel IH]; intros s V A l v pos W Hf; pose proof W as [].
  all: destruct (decide (pos = n)) as [->|Hne]; [by eexists _, _, _, _; apply filewrite_loop_done|].
  { lia. }
  cbn [filewrite_loop]. rewrite (proj2 (Z.ltb_lt pos n)) by lia.
  set (n1 := if max_chunk <? n - pos then max_chunk else n - pos).
  assert (Hn1 : n1 = Z.min (n - pos) max_chunk) by (unfold n1; destruct (Z.ltb_spec max_chunk (n - pos)); lia).
  assert (Hn1' : 0 < n1 ≤ n - pos ∧ n1 ≤ max_chunk) by (change max_chunk with 1536 in *; lia).
  set (piece := take (Z.to_nat n1) (drop (Z.to_nat pos) src)).
  assert (Hl : Z.of_nat (length piece) = n1) by (unfold piece; rewrite length_take, length_drop; lia).
  destruct (pieces_step (n - pos)) as [Hp Hp0]; [lia|]. rewrite <- Hn1 in Hp, Hp0.
  destruct (write_chunk_ok V A rc l k i piece (f_off v)) with (s := s) (f := f) (v := v)
    as (fs1 & V1 & A1 & l1 & E1 & W1); try done; try apply wi_rest0; try lia.
  { by apply Forall_take, Forall_drop. }
  rewrite Hl in E1. rewrite (bind_ok _ _ _ _ _ E1), (proj2 (Z.ltb_ge n1 0)), Z.eqb_refl by lia. cbn [negb].
  pose proof (writing_step s V A l v pos n1 fs1 V1 A1 l1 W ltac:(lia) Hn1 W1) as W2.
  destruct (IH _ _ _ _ _ _ W2) as (fs2 & V2 & A2 & l2 & E2 & W3); [lia|].
  exists fs2, V2, A2, l2. split.
  - rewrite E2. unfold moved, set_ftable, set_fsys. cbn. rewrite list_insert_insert_eq.
    by replace (f_off v + n1 + (n - (pos + n1))) with (f_off v + (n - pos)) by lia.
  - eapply wrote_more; try done; lia.
Qed.
End loop.

(** C8: [filewrite] writes the whole buffer, in as many transactions as it takes.  On an open file of a file system at rest, with
    four free blocks for each piece, it returns the number of bytes and moves the offset past them; the file has
    the bytes overwritten; every other file is as before; every transaction is committed, and the file
    system is at rest again. *)
Theorem filewrite_writes (s : fstate M X) V A rc l f v k i src :
  at_rest (fsys s) V A rc l →
  ftable s !! f = Some v → f_type v = FD_INODE → f_writable v = true → f_ip v = Some k → refers l k i →
  di_type (A i) ≠ T_DEV → 0 ≤ f_off v ≤ di_size (A i) →
  f_off v + Z.of_nat (length src) ≤ MAXFILE * BSIZE → Forall is_byte src →
  4 * pieces (Z.of_nat (length src)) + Z.of_nat (demand (A i)) ≤ Z.of_nat (nfree sb V) →
  ∃ fs' V' A' l',
    filewrite f src s = Ok (Z.of_nat (length src)) (moved f v (f_off v + Z.of_nat (length src)) (set_fsys fs' s)) ∧
    at_rest fs' V' A' rc l' ∧ refers l' k i ∧
    contents V' (A' i) = overwrite (contents V (A i)) (f_off v) src ∧
    ∀ j, live sb A j → j ≠ i → A' j = A j ∧ contents V' (A' j) = contents V (A j).
Proof.
  intros R Hv Hty Hw Hip Hk Ht Ho Hs Hb Hf. set (n := Z.of_nat (length src)) in *.
  destruct (filewrite_loop_ok rc f k i src Hb (length src) s V A l v 0) as (fs' & V' & A' & l' & E & [R' K' U' _]).
  { split; try done; rewrite ?Z.sub_0_r; fold n; try done; lia. }
  { lia. }
  fold n in E. rewrite Z.sub_0_r in E. exists fs', V', A', l'. split_and!; [|done|done|apply U'|].
  - unfold filewrite. rewrite (bind_ok _ _ _ _ _ (file_at_ok s f v Hv)), Hw, Hty. cbn [negb].
    rewrite (bind_ok _ _ _ _ _ E). fold n. by rewrite Z.eqb_refl.
  - intros j Hj Hji. rewrite (up_others _ _ _ _ _ _ _ U') by done. split; [done|]. by apply (up_frame _ _ _ _ _ _ _ U').
Qed.
End write.

Module WriteExample.
#[local] Instance no_devices : Devices unit := {| dev_read _ := None; dev_write _ := None |}.

Definition idle_log : log := Log (binit 20 ex_disk 1) false 2 10 0 0 ROOTDEV 0 (replicate 30 0) 0.
Definition idle_inode : inode := Inode ROOTDEV 1 1 None false zero_dinode.
Definition table : list inode := idle_inode :: replicate 49 (Inode 0 0 0 None false zero_dinode).
Definition open_file : file := File FD_INODE 1 false true 0 (Some 0%nat) 0.
Definition before : fstate kmem unit :=
  Fst (st ex_sb 1 tt idle_log table) (Kmem (λ _, 0) 0 false false 0) ∅ [open_file] false (User 0 0 (λ _, 0))
    [Some 0%nat] 0 false.

Lemma idle_quiet : quiet 2 10 20 ex_disk idle_log.
Proof.
  destruct (binit_idle 20 ex_disk 1) as (Hw & Hp & Hh).
  split; try done; [|by apply ex_whole]. split; try done; try (cbn; lia).
  - by apply NoDup_nil_2.
  - unfold NBUF. cbn. lia.
  - split; [done|done|]. intros m. split; [by intros ?%Hp|by intros ?%not_elem_of_nil].
Qed.

Lemma table_lookup k ip : table !! k = Some ip → k = 0%nat ∧ ip = idle_inode ∨ i_ref ip = 0 ∧ i_owner ip = None.
Proof.
  destruct k as [|k]; cbn [table]; [intros [= <-]; by left|]. intros Hk. right.
  apply lookup_replicate in Hk as [-> _]. done.
Qed.

Lemma table_cache : icache ex_sb 1 ex_table (λ i, if i =? 1 then 1 else 0) None table.
Proof.
  split.
  - reflexivity.
  - intros i. case_b; lia.
  - intros i Hi. destruct (Z.eqb_spec i 1); [|lia]. subst. exists 0%nat, idle_inode. done.
  - intros k ip [[-> ->]|[Hr _]]%table_lookup; [cbn; lia|lia].
  - intros k ip [[-> ->]|[Hr _]]%table_lookup; [done|lia].
  - intros k ip [[-> ->]|[Hr _]]%table_lookup Hp; [|lia]. split; [done|]. split; [cbn; lia|].
    change (di_type (ex_table 1) ≠ 0). by rewrite ex_inode_1.
  - intros k k' ip ip' [[-> ->]|[Hr _]]%table_lookup [[-> ->]|[Hr' _]]%table_lookup; done || lia.
  - intros k ip [[-> ->]|[Hr _]]%table_lookup; [done|lia].
  - intros k ip [[-> ->]|[_ ->]]%table_lookup; by rewrite decide_False.
Qed.

Lemma filewrite_writes_witness :
  ∃ fs' V' A' l', filewrite 0 [104; 105] before = Ok 2 (moved 0 open_file 2 (set_fsys fs' before)) ∧
    at_rest 2 10 20 ex_sb 1 tt fs' V' A' (λ i, if i =? 1 then 1 else 0) l' ∧ contents V' (A' 1) = [104; 105].
Proof.
  destruct (filewrite_writes 2 10 20 ex_sb 1 tt ex_geo ltac:(vm_compute; reflexivity) before ex_disk ex_table
    (λ i, if i =? 1 then 1 else 0) table 0 open_file 0 1 [104; 105]) as (fs' & V' & A' & l' & E & R & _ & C & _);
    rewrite ?ex_inode_1.
  - split; [exists idle_log; split; [reflexivity|exact idle_quiet]|exact ex_ok| |exact table_cache]. done.
  - reflexivity.
  - reflexivity.
  - reflexivity.
  - reflexivity.
  - exists idle_inode. split_and!; [reflexivity|reflexivity|cbn; lia].
  - discriminate.
  - cbn. lia.
  - vm_compute. discriminate.
  - by repeat constructor; unfold is_byte; lia.
  - vm_compute. discriminate.
  - exists fs', V', A', l'. split_and!; [exact E|exact R|]. rewrite C, ex_inode_1. vm_compute. reflexivity.
Defined.
End WriteExample.
