(* ===== verification/Sysfile.v ===== *)
(** * System calls on files

    [src/sysfile.c]: argument checks, then calls into [File] and [Fs].  A path is the bytes of the string and its
    null in the memory of the process.  [junk] stands for the uninitialised bytes of the [name] buffers.
    [exec] is an argument of [sys_exec].

    Theorem ([SysfileTheorems]): the reference counts of the table of open files are the descriptors. *)
From S2P Require Import Prelude Bytes Bio Kalloc Pipe Log Disk Fs Syscall File.

Definition O_RDONLY : Z := 0.
Definition O_WRONLY : Z := 1.
Definition O_RDWR : Z := 2.
Definition O_CREATE : Z := 512.
Definition MAXARG : nat := 32.

(** [n] bytes of memory from [a] on, and memory with [l] stored there. *)
Definition uread (m : Z → Z) (a : Z) (n : nat) : list Z := (λ i, m (a + i)) <$> seqZ 0 (Z.of_nat n).
Definition uwrite (m : Z → Z) (a : Z) (l : list Z) : Z → Z := λ b,
  if (a <=? b) && (b <? a + Z.of_nat (length l)) then nth (Z.to_nat (b - a)) l 0 else m b.

Definition with_mm (major minor : Z) (d : dinode) : dinode :=
  Dinode (di_type d) major minor (di_nlink d) (di_size d) (di_addrs d).

Section sysfile.
Context {M X : Type} {pages : Pages M} {swtch : Devices X} (junk : list Z).
Local Abbreviation F := (fstate M X).

(** ** Arguments *)

Definition int_arg (n : Z) : cm F (option Z) := gets (λ s, argint n (proc_mem s)).
Definition ptr_arg (n size : Z) : cm F (option Z) := gets (λ s, argptr n size (proc_mem s)).
(** The string, with its null. *)
Definition str_arg (n : Z) : cm F (option (list Z)) := gets (λ s,
  '(p, k) ← argstr n (proc_mem s); Some (uread (u_mem (proc_mem s)) p (Z.to_nat (k + 1)))).

Definition store (a : Z) (l : list Z) : cm F unit :=
  modify (λ s, let u := proc_mem s in set_proc_mem (User (u_sz u) (u_esp u) (uwrite (u_mem u) a l)) s).

(** The descriptor and the file. *)
Definition argfd (n : Z) : cm F (option (Z * nat)) :=
  a ← int_arg n;
  match a with
  | None => mret None
  | Some fd =>
      l ← gets ofile;
      if (fd <? 0) || (Z.of_nat NOFILE <=? fd) then mret None else
      match arr_get l fd with
      | None => ub "ofile"
      | Some None => mret None
      | Some (Some f) => mret (Some (fd, f))
      end
  end.

Fixpoint free_fd (l : list (option nat)) (fd : nat) : option nat :=
  match l with
  | [] => None
  | None :: _ => Some fd
  | Some _ :: l' => free_fd l' (S fd)
  end.

(** [-1] is [None]. *)
Definition fdalloc (f : nat) : cm F (option nat) :=
  l ← gets ofile;
  match free_fd l 0 with
  | Some fd => modify (set_ofile (<[fd := Some f]> l)) ;; mret (Some fd)
  | None => mret None
  end.

Definition clear_fd (fd : nat) : cm F unit := modify (λ s, set_ofile (<[fd := None]> (ofile s)) s).

(** ** Descriptors *)

Definition sys_dup : cm F Z :=
  a ← argfd 0;
  match a with
  | None => mret (-1)
  | Some (_, f) =>
      r ← fdalloc f;
      match r with
      | None => mret (-1)
      | Some fd => filedup f ;; mret (Z.of_nat fd)
      end
  end.

Definition sys_read : cm F Z :=
  a ← argfd 0;
  match a with
  | None => mret (-1)
  | Some (_, f) =>
      b ← int_arg 2;
      match b with
      | None => mret (-1)
      | Some n =>
          c ← ptr_arg 1 n;
          match c with
          | None => mret (-1)
          | Some p => r ← fileread f n; store p r.2 ;; mret r.1
          end
      end
  end.

Definition sys_write : cm F Z :=
  a ← argfd 0;
  match a with
  | None => mret (-1)
  | Some (_, f) =>
      b ← int_arg 2;
      match b with
      | None => mret (-1)
      | Some n =>
          c ← ptr_arg 1 n;
          match c with
          | None => mret (-1)
          | Some p => src ← gets (λ s, uread (u_mem (proc_mem s)) p (Z.to_nat n)); filewrite f src
          end
      end
  end.

Definition sys_close : cm F Z :=
  a ← argfd 0;
  match a with
  | None => mret (-1)
  | Some (fd, f) => clear_fd (Z.to_nat fd) ;; fileclose f ;; mret 0
  end.

(** [struct stat]: the fields at 0, 4, 8, 12 and 16 of its 20 bytes. *)
Definition store_stat (p : Z) (st : stat) : cm F unit :=
  store p (le_bytes 2 (u16 (st_type st))) ;;
  store (p + 4) (le_bytes 4 (u32 (st_dev st))) ;;
  store (p + 8) (le_bytes 4 (u32 (st_ino st))) ;;
  store (p + 12) (le_bytes 2 (u16 (st_nlink st))) ;;
  store (p + 16) (le_bytes 4 (u32 (st_size st))).

Definition sys_fstat : cm F Z :=
  a ← argfd 0;
  match a with
  | None => mret (-1)
  | Some (_, f) =>
      b ← ptr_arg 1 20;
      match b with
      | None => mret (-1)
      | Some p =>
          r ← filestat f;
          match r with Some st => store_stat p st ;; mret 0 | None => mret (-1) end
      end
  end.

(** ** Names *)

Definition namei_at (path : list Z) : cm F (option nat) :=
  d ← gets cwd; on_fs (namei d path junk).
Definition nameiparent_at (path : list Z) : cm F (option nat * list Z) :=
  d ← gets cwd; on_fs (nameiparent d path junk).
Definition copy_of (i : nat) : cm F dinode := ip ← on_fs (inode_at i); mret (i_copy ip).

(** [ip->nlink] changed by [n], and written to disk. *)
Definition add_nlink (i : nat) (n : Z) : cm F unit :=
  on_fs (copy_upd i (λ d, with_nlink (i16 (di_nlink d + n)) d)) ;;
  on_fs (iupdate i).

(** [bad:] of [sys_link]. *)
Definition link_bad (i : nat) : cm F Z :=
  on_fs (ilock (Some i)) ;;
  add_nlink i (-1) ;;
  on_fs (iunlockput i) ;;
  end_op ;;
  mret (-1).

Definition sys_link : cm F Z :=
  a ← str_arg 0;
  match a with
  | None => mret (-1)
  | Some old =>
      b ← str_arg 1;
      match b with
      | None => mret (-1)
      | Some new =>
          begin_op ;;
          r ← namei_at old;
          match r with
          | None => end_op ;; mret (-1)
          | Some i =>
              on_fs (ilock (Some i)) ;;
              d ← copy_of i;
              if di_type d =? T_DIR then on_fs (iunlockput i) ;; end_op ;; mret (-1) else
              add_nlink i 1 ;;
              on_fs (iunlock (Some i)) ;;
              r ← nameiparent_at new;
              match r with
              | (None, _) => link_bad i
              | (Some dp, name) =>
                  on_fs (ilock (Some dp)) ;;
                  di ← on_fs (inode_at dp);
                  ip ← on_fs (inode_at i);
                  ok ← (if negb (i_dev di =? i_dev ip) then mret false
                        else r ← on_fs (dirlink dp name (i_inum ip)); mret (negb (r <? 0)));
                  if (ok : bool) then
                    on_fs (iunlockput dp) ;; on_fs (iput i) ;; end_op ;; mret 0
                  else on_fs (iunlockput dp) ;; link_bad i
              end
          end
      end
  end.

Fixpoint isdirempty_loop (n : nat) (dp : nat) (off : Z) : cm F bool :=
  d ← copy_of dp;
  if off <? di_size d then
    match n with
    | O => ub "loop"
    | S n' =>
        r ← on_fs (readi dp off DIRENT);
        if negb (r.1 =? DIRENT) then panic "isdirempty: readi" else
        if negb (de_inum r.2 =? 0) then mret false else isdirempty_loop n' dp (off + DIRENT)
    end
  else mret true.

Definition isdirempty (dp : nat) : cm F bool :=
  d ← copy_of dp; isdirempty_loop (Z.to_nat (di_size d)) dp (2 * DIRENT).

Definition DOT : list Z := [46; 0].
Definition DOTDOT : list Z := [46; 46; 0].

(** [bad:] of [sys_unlink]. *)
Definition unlink_bad (dp : nat) : cm F Z := on_fs (iunlockput dp) ;; end_op ;; mret (-1).

Definition sys_unlink : cm F Z :=
  a ← str_arg 0;
  match a with
  | None => mret (-1)
  | Some path =>
      begin_op ;;
      r ← nameiparent_at path;
      match r with
      | (None, _) => end_op ;; mret (-1)
      | (Some dp, name) =>
          on_fs (ilock (Some dp)) ;;
          match namecmp name DOT, namecmp name DOTDOT with
          | Some c, Some c' =>
              if (c =? 0) || (c' =? 0) then unlink_bad dp else
              r ← on_fs (dirlookup dp name);
              match r with
              | None => unlink_bad dp
              | Some (i, off) =>
                  on_fs (ilock (Some i)) ;;
                  d ← copy_of i;
                  if di_nlink d <? 1 then panic "unlink: nlink < 1" else
                  full ← (if di_type d =? T_DIR then e ← isdirempty i; mret (negb e) else mret false);
                  if (full : bool) then on_fs (iunlockput i) ;; unlink_bad dp else
                  n ← on_fs (writei dp (replicate 16 0) off);
                  if negb (n =? DIRENT) then panic "unlink: writei" else
                  (if di_type d =? T_DIR then add_nlink dp (-1) else mret tt) ;;
                  on_fs (iunlockput dp) ;;
                  add_nlink i (-1) ;;
                  on_fs (iunlockput i) ;;
                  end_op ;;
                  mret 0
              end
          | _, _ => ub "name"
          end
      end
  end.

(** [dirlink(ip, ".", ip->inum) < 0 || dirlink(ip, "..", dp->inum) < 0]. *)
Definition create_dots (i : nat) (inum dinum : Z) : cm F unit :=
  r ← on_fs (dirlink i DOT inum);
  if r <? 0 then panic "create dots" else
  r ← on_fs (dirlink i DOTDOT dinum);
  if r <? 0 then panic "create dots" else mret tt.

(** The new inode, locked. *)
Definition create (path : list Z) (type major minor : Z) : cm F (option nat) :=
  r ← nameiparent_at path;
  match r with
  | (None, _) => mret None
  | (Some dp, name) =>
      on_fs (ilock (Some dp)) ;;
      r ← on_fs (dirlookup dp name);
      match r with
      | Some (i, _) =>
          on_fs (iunlockput dp) ;;
          on_fs (ilock (Some i)) ;;
          d ← copy_of i;
          if (type =? T_FILE) && (di_type d =? T_FILE) then mret (Some i) else
          on_fs (iunlockput i) ;; mret None
      | None =>
          dd ← on_fs (inode_at dp);
          i ← on_fs (ialloc (i_dev dd) type);
          on_fs (ilock (Some i)) ;;
          on_fs (copy_upd i (λ d, with_nlink 1 (with_mm major minor d))) ;;
          on_fs (iupdate i) ;;
          ip ← on_fs (inode_at i);
          (if type =? T_DIR then add_nlink dp 1 ;; create_dots i (i_inum ip) (i_inum dd) else mret tt) ;;
          r ← on_fs (dirlink dp name (i_inum ip));
          if r <? 0 then panic "create: dirlink" else
          on_fs (iunlockput dp) ;;
          mret (Some i)
      end
  end.

(** [sys_open] up to the inode, locked. *)
Definition open_inode (path : list Z) (omode : Z) : cm F (option nat) :=
  if negb (Z.land omode O_CREATE =? 0) then create path T_FILE 0 0 else
  r ← namei_at path;
  match r with
  | None => mret None
  | Some i =>
      on_fs (ilock (Some i)) ;;
      d ← copy_of i;
      if (di_type d =? T_DIR) && negb (omode =? O_RDONLY) then on_fs (iunlockput i) ;; mret None
      else mret (Some i)
  end.

(** The way out of [sys_open] when there is no file or no descriptor. *)
Definition open_bad (f : option nat) (i : nat) : cm F Z :=
  (match f with Some f => fileclose f | None => mret tt end) ;;
  on_fs (iunlockput i) ;;
  end_op ;;
  mret (-1).

Definition open_file (i : nat) (omode : Z) (v : file) : file :=
  File FD_INODE (f_ref v) (Z.land omode O_WRONLY =? 0)
    (negb (Z.land omode O_WRONLY =? 0) || negb (Z.land omode O_RDWR =? 0)) (f_pipe v) (Some i) 0.

Definition sys_open : cm F Z :=
  a ← str_arg 0;
  match a with
  | None => mret (-1)
  | Some path =>
      b ← int_arg 1;
      match b with
      | None => mret (-1)
      | Some omode =>
          begin_op ;;
          r ← open_inode path omode;
          match r with
          | None => end_op ;; mret (-1)
          | Some i =>
              r ← filealloc;
              match r with
              | None => open_bad None i
              | Some f =>
                  r ← fdalloc f;
                  match r with
                  | None => open_bad (Some f) i
                  | Some fd =>
                      on_fs (iunlock (Some i)) ;;
                      end_op ;;
                      file_upd f (open_file i omode) ;;
                      mret (Z.of_nat fd)
                  end
              end
          end
      end
  end.

(** The end of [sys_mkdir] and of [sys_mknod]. *)
Definition made (r : option nat) : cm F Z :=
  match r with
  | None => end_op ;; mret (-1)
  | Some i => on_fs (iunlockput i) ;; end_op ;; mret 0
  end.

Definition sys_mkdir : cm F Z :=
  begin_op ;;
  a ← str_arg 0;
  r ← (match a with None => mret None | Some path => create path T_DIR 0 0 end);
  made r.

Definition sys_mknod : cm F Z :=
  begin_op ;;
  a ← str_arg 0;
  b ← int_arg 1;
  c ← int_arg 2;
  r ← (match a, b, c with
       | Some path, Some major, Some minor => create path T_DEV (i16 major) (i16 minor)
       | _, _, _ => mret None
       end);
  made r.

Definition sys_chdir : cm F Z :=
  begin_op ;;
  a ← str_arg 0;
  r ← (match a with None => mret None | Some path => namei_at path end);
  match r with
  | None => end_op ;; mret (-1)
  | Some i =>
      on_fs (ilock (Some i)) ;;
      d ← copy_of i;
      if negb (di_type d =? T_DIR) then on_fs (iunlockput i) ;; end_op ;; mret (-1) else
      on_fs (iunlock (Some i)) ;;
      old ← gets cwd;
      on_fs (iput old) ;;
      end_op ;;
      modify (set_cwd i) ;;
      mret 0
  end.

(** The loop of [sys_exec] from [i] on: [argv], or [None] for [-1]. *)
Fixpoint exec_argv (n : nat) (u : user) (uargv i : Z) : option (list (Z * Z)) :=
  match n with
  | O => None
  | S n' =>
      uarg ← fetchint (u32 (uargv + 4 * i)) u;
      if u32 uarg =? 0 then Some [] else
      p ← fetchstr (u32 uarg) u;
      l ← exec_argv n' u uargv (i + 1);
      Some (p :: l)
  end.

(** [exec] gets the strings, each with its null. *)
Definition sys_exec (exec : list Z → list (list Z) → cm F Z) : cm F Z :=
  a ← str_arg 0;
  b ← int_arg 1;
  u ← gets proc_mem;
  match a, b with
  | Some path, Some uargv =>
      match exec_argv MAXARG u (u32 uargv) 0 with
      | None => mret (-1)
      | Some l => exec path ((λ '(p, k), uread (u_mem u) p (Z.to_nat (k + 1))) <$> l)
      end
  | _, _ => mret (-1)
  end.

Definition sys_pipe : cm F Z :=
  a ← ptr_arg 0 8;
  match a with
  | None => mret (-1)
  | Some p =>
      r ← pipealloc;
      match r with
      | None => mret (-1)
      | Some (rf, wf) =>
          fd0 ← fdalloc rf;
          match fd0 with
          | None => fileclose rf ;; fileclose wf ;; mret (-1)
          | Some fd0 =>
              fd1 ← fdalloc wf;
              match fd1 with
              | None => clear_fd fd0 ;; fileclose rf ;; fileclose wf ;; mret (-1)
              | Some fd1 =>
                  store p (le_bytes 4 (Z.of_nat fd0)) ;;
                  store (p + 4) (le_bytes 4 (Z.of_nat fd1)) ;;
                  mret 0
              end
          end
      end
  end.
End sysfile.
