(* ===== verification/SysfileTheorems.v ===== *)
(** * The references of the descriptors

    What the system calls of [src/sysfile.c] keep.  [counted held s]: the count of each open file is the number of
    descriptors of the current process that name it, plus the references [held] elsewhere: by other processes,
    and by the call in progress. *)
From S2P Require Import Prelude Bytes Bio Kalloc Pipe Log Disk Fs Syscall File Sysfile.

(** The descriptors in [l] that name [f]. *)
Definition refs (l : list (option nat)) (f : nat) : Z := Z.of_nat (length (filter (λ o, o = Some f) l)).

Definition more (held : nat → Z) (f : nat) (n : Z) (g : nat) : Z := held g + if decide (g = f) then n else 0.

Lemma refs_nonneg l f : 0 ≤ refs l f.
Proof. unfold refs. lia. Qed.

Lemma refs_cons o l f : refs (o :: l) f = refs l f + if decide (o = Some f) then 1 else 0.
Proof. unfold refs. rewrite filter_cons. case_decide; cbn [length]; lia. Qed.

Lemma refs_insert l fd o o' f :
  l !! fd = Some o →
  refs (<[fd := o']> l) f = refs l f + (if decide (o' = Some f) then 1 else 0) - (if decide (o = Some f) then 1 else 0).
Proof.
  revert fd. induction l as [|a l IH]; intros [|fd] E; try done.
  - injection E as ->. change (<[0%nat:=o']> (o :: l)) with (o' :: l). rewrite !refs_cons. lia.
  - change (<[S fd:=o']> (a :: l)) with (a :: <[fd:=o']> l). rewrite !refs_cons, (IH _ E). lia.
Qed.

Lemma refs_pos l fd f : l !! fd = Some (Some f) → 1 ≤ refs l f.
Proof.
  revert fd. induction l as [|a l IH]; intros [|fd] E; try done; rewrite refs_cons.
  - injection E as ->. rewrite decide_True by done. pose proof (refs_nonneg l f). lia.
  - specialize (IH _ E). case_decide; lia.
Qed.

Lemma free_fd_spec l i fd : free_fd l i = Some fd → ∃ j, fd = (i + j)%nat ∧ l !! j = Some None.
Proof.
  revert i. induction l as [|[f|] l IH]; intros i; cbn; try done.
  - intros (j & -> & Hj)%IH. exists (S j). split; [lia|done].
  - intros [= <-]. exists 0%nat. split; [lia|done].
Qed.

Lemma free_file_spec l i f : free_file l i = Some f → ∃ j v, f = (i + j)%nat ∧ l !! j = Some v ∧ f_ref v = 0.
Proof.
  revert i. induction l as [|v l IH]; intros i; cbn; [done|]. destruct (Z.eqb_spec (f_ref v) 0).
  - intros [= <-]. exists 0%nat, v. split; [lia|done].
  - intros (j & w & -> & Hj)%IH. exists (S j), w. split; [lia|done].
Qed.

Section counts.
Context {M X : Type} {pages : Pages M} {swtch : Devices X}.
Local Abbreviation F := (fstate M X).

Record counted (held : nat → Z) (s : F) : Prop := {
  ct_ref f v : ftable s !! f = Some v → f_ref v = held f + refs (ofile s) f;
  ct_there f : ftable s !! f = None → held f + refs (ofile s) f = 0
}.

(** From [P], a run that returns ends in [Q]. *)
Definition leads {A} (P : F → Prop) (m : cm F A) (Q : A → F → Prop) : Prop :=
  ∀ s a s', P s → m s = Ok a s' → Q a s'.

Lemma leads_bind {A B} P (m : cm F A) (k : A → cm F B) R Q :
  leads P m R → (∀ a, leads (R a) (k a) Q) → leads P (m ≫= k) Q.
Proof.
  intros Hm Hk s b s' HP. unfold mbind, cm_bind. destruct (m s) as [a s1| |] eqn:E; try done.
  intros E2. eapply Hk; [|exact E2]. by eapply Hm.
Qed.

Lemma leads_weaken {A} (P P' : F → Prop) (m : cm F A) Q : (∀ s, P s → P' s) → leads P' m Q → leads P m Q.
Proof. intros H Hm s a s' HP. apply Hm. auto. Qed.

Lemma leads_at {A} s (m : cm F A) Q : leads (eq s) m Q → ∀ a s', m s = Ok a s' → Q a s'.
Proof. intros H a s'. by apply H. Qed.

Lemma leads_ret {A} P (a : A) Q : (∀ s, P s → Q a s) → leads P (mret a) Q.
Proof. intros H s b s' HP [= <- <-]. auto. Qed.

Lemma leads_gets {A} P (g : F → A) (Q : A → F → Prop) : (∀ s, P s → Q (g s) s) → leads P (gets g) Q.
Proof. intros H s b s' HP [= <- <-]. auto. Qed.

Lemma leads_panic {A} P msg (Q : A → F → Prop) : leads P (panic msg) Q.
Proof. by intros s a s'. Qed.

Lemma leads_ub {A} P msg (Q : A → F → Prop) : leads P (ub msg) Q.
Proof. by intros s a s'. Qed.

Lemma counted_ext held held' s : (∀ f, held' f = held f) → counted held s → counted held' s.
Proof. intros E [H1 H2]. split; intros f; rewrite E; auto. Qed.

(** ** Operations that leave the counts alone *)

Definition keeps {A} (m : cm F A) : Prop := ∀ held, leads (counted held) m (λ _, counted held).

Lemma keeps_bind {A B} (m : cm F A) (k : A → cm F B) : keeps m → (∀ a, keeps (k a)) → keeps (m ≫= k).
Proof. intros Hm Hk held. eapply leads_bind; [apply Hm|]. intros a. apply Hk. Qed.

Lemma keeps_ret {A} (a : A) : keeps (mret a).
Proof. intros held. by apply leads_ret. Qed.

Lemma keeps_panic {A} msg : keeps (panic (A := A) msg).
Proof. intros held. apply leads_panic. Qed.

Lemma keeps_ub {A} msg : keeps (ub (A := A) msg).
Proof. intros held. apply leads_ub. Qed.

Lemma keeps_gets {A} (g : F → A) : keeps (gets g).
Proof. intros held. by apply leads_gets. Qed.

(** The tables are the same. *)
Lemma keeps_frame {A} (m : cm F A) :
  (∀ s a s', m s = Ok a s' → ftable s' = ftable s ∧ ofile s' = ofile s) → keeps m.
Proof. intros Hm held s a s' [H1 H2] E. destruct (Hm _ _ _ E) as [E1 E2]. split; intros f; rewrite E1, E2; auto. Qed.

Lemma keeps_modify (g : F → F) : (∀ s, ftable (g s) = ftable s ∧ ofile (g s) = ofile s) → keeps (modify g).
Proof. intros H. apply keeps_frame. intros s a s' [= _ <-]. apply H. Qed.

Lemma keeps_on_fs {A} (m : cm (fs log X) A) : keeps (on_fs m).
Proof. apply keeps_frame. intros s a s'. unfold on_fs. destruct (m (fsys s)); try done. by intros [= _ <-]. Qed.

Lemma keeps_on_pool {A} (m : cm M A) : keeps (on_pool m).
Proof. apply keeps_frame. intros s a s'. unfold on_pool. destruct (m (pool s)); try done. by intros [= _ <-]. Qed.

Lemma keeps_on_pipe {A} p (m : pipe → outcome (list pchan * pipe) A) : keeps (on_pipe p m).
Proof.
  apply keeps_frame. intros s a s'. unfold on_pipe. destruct (pipes s !! p); [|done].
  destruct (m _) as [b [w q]| |]; try done. by intros [= _ <-].
Qed.

Lemma keeps_acquire : keeps (acquire ft_lock set_ft_lock).
Proof. apply keeps_frame. intros s a s'. unfold acquire. destruct (ft_lock s); [done|]. by intros [= _ <-]. Qed.

Lemma keeps_release : keeps (release ft_lock set_ft_lock).
Proof. apply keeps_frame. intros s a s'. unfold release. destruct (ft_lock s); [|done]. by intros [= _ <-]. Qed.

Lemma keeps_file_at f : keeps (file_at (M := M) (X := X) f).
Proof. apply keeps_frame. intros s a s'. unfold file_at. destruct (ftable s !! f); [|done]. by intros [= _ <-]. Qed.

(** A change of the entry of [f] that adds [n] to its count. *)
Lemma file_upd_run f g n held (s : F) u s' :
  (∀ v, ftable s !! f = Some v → f_ref (g v) = f_ref v + n) → counted held s → file_upd f g s = Ok u s' →
  counted (more held f n) s'.
Proof.
  intros Hg [H1 H2]. unfold file_upd, file_at, modify, mbind, cm_bind. destruct (ftable s !! f) as [v|] eqn:Ev; [|done].
  intros [= _ <-]. split; intros h; cbn; unfold more.
  - intros w. destruct (decide (h = f)) as [->|Hne].
    + rewrite list_lookup_insert_eq by (by eapply lookup_lt_Some). intros [= <-]. rewrite (Hg v eq_refl), (H1 _ _ Ev). lia.
    + rewrite list_lookup_insert_ne by done. intros E%H1. lia.
  - destruct (decide (h = f)) as [->|Hne]; [by rewrite list_lookup_insert_eq by (by eapply lookup_lt_Some)|].
    rewrite list_lookup_insert_ne by done. intros E%H2. lia.
Qed.

Lemma file_upd_counts f g n held :
  (∀ v, f_ref (g v) = f_ref v + n) → leads (counted held) (file_upd f g) (λ _, counted (more held f n)).
Proof. intros Hg s u s'. by apply file_upd_run. Qed.

Lemma keeps_file_upd f g : (∀ v, f_ref (g v) = f_ref v) → keeps (file_upd (M := M) (X := X) f g).
Proof.
  intros Hg held s a s' Hc E. eapply counted_ext; [|eapply (file_upd_counts f g 0); [|done|done]].
  - intros h. unfold more. case_decide; lia.
  - intros v. rewrite Hg. lia.
Qed.
End counts.

Create HintDb keeps.
#[export] Hint Resolve keeps_ret keeps_panic keeps_ub keeps_gets keeps_on_fs keeps_on_pool keeps_on_pipe keeps_acquire
  keeps_release keeps_file_at : keeps.
#[export] Hint Extern 1 (keeps (modify _)) => apply keeps_modify; done : keeps.
#[export] Hint Extern 1 (keeps (file_upd _ _)) => apply keeps_file_upd; done : keeps.

(** Through the definitions, the binds and the branches of an operation. *)
Ltac head t := lazymatch t with ?f _ => head f | _ => t end.
Ltac keep :=
  lazymatch goal with
  | |- ∀ _, _ => intros ?; keep
  | |- keeps (_ ≫= _) => apply keeps_bind; [keep|intros ?; keep]
  | |- keeps (match ?x with _ => _ end) => destruct x; keep
  | |- keeps ?m => first [solve [auto with keeps] | let h := head m in unfold h; keep]
  end.

Section calls.
Context {M X : Type} {pages : Pages M} {swtch : Devices X} (junk : list Z).
Local Abbreviation F := (fstate M X).

Lemma keeps_filewrite_loop fuel f src i : keeps (filewrite_loop fuel f src i : cm F _).
Proof. revert i. induction fuel; intros i; cbn [filewrite_loop]; keep. Qed.

Lemma keeps_isdirempty_loop n dp off : keeps (isdirempty_loop n dp off : cm F _).
Proof. revert off. induction n; intros off; cbn [isdirempty_loop]; keep. Qed.
#[local] Hint Resolve keeps_filewrite_loop keeps_isdirempty_loop : keeps.

(** ** Operations that pass references on *)

Lemma leads_keeps {A B} (m : cm F A) (k : A → cm F B) held Q :
  keeps m → (∀ a, leads (counted held) (k a) Q) → leads (counted held) (m ≫= k) Q.
Proof. intros Hm Hk. eapply leads_bind; [apply Hm|done]. Qed.

Lemma leads_ext {A} (m : cm F A) held held' Q :
  (∀ f, held' f = held f) → leads (counted held') m Q → leads (counted held) m Q.
Proof. intros E. apply leads_weaken. intros s. by apply counted_ext. Qed.

Lemma more_more held f n m g : more (more held f n) f m g = more held f (n + m) g.
Proof. unfold more. case_decide; lia. Qed.

Lemma more_0 held f g : more held f 0 g = held g.
Proof. unfold more. case_decide; lia. Qed.

(** A new file: the caller has its reference. *)
Definition got (held : nat → Z) (r : option nat) : F → Prop :=
  match r with Some f => counted (more held f 1) | None => counted held end.

Lemma filealloc_counts held : leads (counted held) filealloc (got held).
Proof.
  apply leads_keeps; [keep|]. intros [] s r s' Hc. unfold mbind at 1, cm_bind at 1, gets.
  destruct (free_file (ftable s) 0) as [f|] eqn:Ef.
  - apply free_file_spec in Ef as (j & v & -> & Hj & Hv). cbn [Nat.add]. revert r s'.
    apply (leads_at s). eapply leads_bind with (R := λ _, counted (more held j 1)).
    + intros ? u s1 ->. apply file_upd_run; [|done]. intros w E. cbn. replace w with v by congruence. lia.
    + intros []. apply leads_keeps; [keep|]. intros []. by apply leads_ret.
  - revert s r s' Hc Ef. intros s r s' Hc _. revert s r s' Hc.
    apply leads_keeps; [keep|]. intros []. by apply leads_ret.
Qed.

Lemma filedup_counts held f : leads (counted held) (filedup f : cm F _) (λ _, counted (more held f 1)).
Proof.
  apply leads_keeps; [keep|]. intros []. apply leads_keeps; [keep|]. intros v. destruct (_ <? _); [apply leads_panic|].
  eapply leads_bind; [by apply (file_upd_counts _ _ 1)|]. intros []. apply leads_keeps; [keep|]. intros []. by apply leads_ret.
Qed.

(** The last reference clears the entry; then the count is 0 already. *)
Lemma fileclose_counts held f : leads (counted held) (fileclose f : cm F _) (λ _, counted (more held f (-1))).
Proof.
  apply leads_keeps; [keep|]. intros [].
  eapply leads_bind with (R := λ v s, counted held s ∧ ftable s !! f = Some v).
  { intros s v s' Hc. unfold file_at. destruct (ftable s !! f) eqn:E; [|done]. by intros [= <- <-]. }
  intros v. destruct (Z.ltb_spec (f_ref v) 1) as [|Hv]; [apply leads_panic|].
  eapply leads_bind with (R := λ _ s, counted (more held f (-1)) s ∧ ftable s !! f = Some (with_fref (f_ref v - 1) v)).
  { intros s u s' [Hc Ev] E. split; [by eapply file_upd_run; [|exact Hc|exact E]; intros; cbn; lia|].
    revert E. unfold file_upd, file_at, mbind, cm_bind, modify. rewrite Ev. intros [= _ <-]. cbn.
    apply list_lookup_insert_eq. by eapply lookup_lt_Some. }
  intros [].
  eapply leads_bind with (R := λ ff s, counted (more held f (-1)) s ∧ ftable s !! f = Some ff ∧ 0 ≤ f_ref ff).
  { intros s ff s' [Hc Ev]. unfold file_at. rewrite Ev. intros [= <- <-]. cbn. split_and!; [done|done|lia]. }
  intros ff. destruct (Z.ltb_spec 0 (f_ref ff)) as [|Hz].
  { eapply leads_weaken; [intros s [Hc _]; exact Hc|]. apply keeps_release. }
  eapply leads_bind with (R := λ _, counted (more held f (-1))).
  - intros s u s' (Hc & Ev & H0) E. eapply counted_ext; [|eapply (file_upd_run f _ 0); [|exact Hc|exact E]].
    + intros g. by rewrite more_0.
    + intros w Ew. cbn. replace w with ff by congruence. lia.
  - intros []. assert (K : keeps (release ft_lock set_ft_lock ;;
      match f_type ff with
      | FD_PIPE => close_pipe (f_pipe ff) (f_writable ff)
      | FD_INODE => begin_op ;; i ← deref (f_ip ff); on_fs (iput i) ;; end_op
      | FD_NONE => mret tt
      end : cm F unit)) by keep. apply K.
Qed.

Lemma fileclose_ofile f (s : F) u s' : fileclose f s = Ok u s' → ofile s' = ofile s.
Proof.
  unfold fileclose, close_pipe, begin_op, end_op, deref, file_upd, file_at, on_fs, on_pool, on_pipe, acquire, release,
    modify, mbind, cm_bind, mret, cm_ret, panic, ub. intros E.
  repeat (case_match; simplify_eq; try done).
Qed.

(** A descriptor takes a reference over. *)
Lemma fdalloc_counts held f :
  leads (counted held) (fdalloc f : cm F _)
    (λ r, match r with Some _ => counted (more held f (-1)) | None => counted held end).
Proof.
  intros s r s' Hc. unfold fdalloc, mbind, cm_bind, gets. destruct (free_fd (ofile s) 0) as [fd|] eqn:E.
  - apply free_fd_spec in E as (j & -> & Hj). cbn. intros [= <- <-]. destruct Hc as [H1 H2].
    split; intros g; cbn; rewrite (refs_insert _ _ _ _ _ Hj); unfold more; repeat case_decide; simplify_eq; try done;
      [intros v Hv%H1|intros v Hv%H1|intros Hv%H2|intros Hv%H2]; lia.
  - by intros [= <- <-].
Qed.

(** And gives it back. *)
Lemma clear_fd_counts held f fd :
  leads (λ s, counted held s ∧ ofile s !! fd = Some (Some f)) (clear_fd fd : cm F _) (λ _, counted (more held f 1)).
Proof.
  intros s r s' [[H1 H2] Hj]. unfold clear_fd, modify. intros [= _ <-].
  split; intros g; cbn; rewrite (refs_insert _ _ _ _ _ Hj); unfold more; repeat case_decide; simplify_eq; try done;
      [intros v Hv%H1|intros v Hv%H1|intros Hv%H2|intros Hv%H2]; lia.
Qed.

Lemma argfd_names held n :
  leads (counted held) (argfd n : cm F _)
    (λ r s, counted held s ∧ match r with Some (fd, f) => ofile s !! Z.to_nat fd = Some (Some f) | None => True end).
Proof.
  intros s r s' Hc. unfold argfd, int_arg, mbind, cm_bind, gets. destruct (argint n (proc_mem s)) as [fd|]; [|by intros [= <- <-]].
  destruct (_ || _) eqn:Eb; [by intros [= <- <-]|]. apply orb_false_iff in Eb as [E1 _]. zbool.
  unfold arr_get. destruct (0 <=? fd) eqn:E0; [|done]. destruct (ofile s !! Z.to_nat fd) as [[f|]|] eqn:E; try done; by intros [= <- <-].
Qed.

(** A close by a call that has the reference, and what follows. *)
Lemma leads_close {B} held f (k : unit → cm F B) Q :
  leads (counted held) (k tt) Q → leads (counted (more held f 1)) (fileclose f ≫= k) Q.
Proof.
  intros Hk. eapply leads_bind; [apply fileclose_counts|]. intros []. eapply leads_ext; [|exact Hk].
  intros g. by rewrite more_more, more_0.
Qed.

Lemma sys_dup_counts : keeps (sys_dup : cm F _).
Proof.
  intros held. apply leads_keeps; [keep|]. intros [[fd f]|]; [|by apply leads_ret].
  eapply leads_bind; [apply fdalloc_counts|]. intros [fd'|]; [|by apply leads_ret].
  eapply leads_bind; [apply filedup_counts|]. intros g. apply leads_ret. intros s. apply counted_ext.
  intros h. by rewrite more_more, more_0.
Qed.

Lemma sys_close_counts : keeps (sys_close : cm F _).
Proof.
  intros held. eapply leads_bind; [apply argfd_names|]. intros [[fd f]|]; [|by apply leads_ret; intros s [Hc _]].
  eapply leads_bind; [apply clear_fd_counts|]. intros []. apply leads_close. by apply leads_ret.
Qed.

Lemma open_bad_counts held f i :
  leads (got held f) (open_bad f i : cm F _) (λ _, counted held).
Proof.
  unfold open_bad. destruct f as [f|]; cbn [got]; [apply leads_close|].
  - assert (K : keeps (on_fs (iunlockput i) ;; end_op ;; mret (-1) : cm F Z)) by keep. apply K.
  - assert (K : keeps (mret tt ;; on_fs (iunlockput i) ;; end_op ;; mret (-1) : cm F Z)) by keep. apply K.
Qed.

Lemma sys_open_counts : keeps (sys_open junk : cm F _).
Proof.
  intros held. do 2 (apply leads_keeps; [keep|]; intros [?|]; [|by apply leads_ret]).
  apply leads_keeps; [keep|]. intros []. apply leads_keeps; [keep|]. intros [i|].
  2: { apply leads_keeps; [keep|]. intros []. by apply leads_ret. }
  eapply leads_bind; [apply filealloc_counts|]. intros [f|]; cbn [got]; [|by apply (open_bad_counts held None)].
  eapply leads_bind; [apply fdalloc_counts|]. intros [fd|]; [|by apply (open_bad_counts held (Some f))].
  eapply leads_ext; [|].
  2: { do 3 (apply leads_keeps; [keep|]; intros []). by apply leads_ret. }
  intros g. by rewrite more_more, more_0.
Qed.

Lemma more_comm held f g n m h : more (more held f n) g m h = more (more held g m) f n h.
Proof. unfold more. lia. Qed.

(** Both ends: two references of the caller. *)
Lemma close_both {B} held f g (k : unit → cm F B) Q :
  leads (counted held) (k tt) Q →
  leads (counted (more (more held f 1) g 1)) (fileclose f ≫= λ _, fileclose g ≫= k) Q.
Proof.
  intros Hk. eapply leads_ext; [intros h; apply more_comm|]. apply leads_close. by apply leads_close.
Qed.

Definition got_both (held : nat → Z) (r : option (nat * nat)) : F → Prop :=
  match r with Some (f, g) => counted (more (more held f 1) g 1) | None => counted held end.

Lemma pipealloc_counts held : leads (counted held) (pipealloc : cm F _) (got_both held).
Proof.
  unfold pipealloc, pipealloc_bad. eapply leads_bind; [apply filealloc_counts|]. intros [f|]; cbn [got].
  2: { do 2 (apply leads_keeps; [keep|]; intros []). by apply leads_ret. }
  eapply leads_bind; [apply filealloc_counts|]. intros [g|]; cbn [got].
  2: { apply leads_close. apply leads_keeps; [keep|]. intros []. by apply leads_ret. }
  apply leads_keeps; [keep|]. intros p. destruct (p =? 0).
  { apply close_both. by apply leads_ret. }
  apply leads_keeps; [keep|]. intros junk'. do 3 (apply leads_keeps; [keep|]; intros []). by apply leads_ret.
Qed.

Lemma sys_pipe_counts : keeps (sys_pipe : cm F _).
Proof.
  intros held. apply leads_keeps; [keep|]. intros [p|]; [|by apply leads_ret].
  eapply leads_bind; [apply pipealloc_counts|]. intros [[f g]|]; cbn [got_both]; [|by apply leads_ret].
  eapply leads_bind with (R := λ r s, match r with
    | Some fd => counted (more held g 1) s ∧ ofile s !! fd = Some (Some f)
    | None => counted (more (more held f 1) g 1) s end).
  { intros s r s' Hc E. pose proof (fdalloc_counts _ f s r s' Hc E) as Hc'. destruct r as [fd|]; [|done]. split.
    - eapply counted_ext; [|exact Hc']. intros h. unfold more. repeat case_decide; lia.
    - revert E. unfold fdalloc, mbind, cm_bind, gets. destruct (free_fd (ofile s) 0) as [k|] eqn:Ek; [|done].
      apply free_fd_spec in Ek as (j & -> & Hj). cbn. intros [= <- <-]. apply list_lookup_insert_eq. by eapply lookup_lt_Some. }
  intros [fd|]; [|apply close_both; by apply leads_ret].
  eapply leads_bind with (R := λ r s, match r with
    | Some _ => counted held s
    | None => counted (more held g 1) s ∧ ofile s !! fd = Some (Some f) end).
  { intros s r s' [Hc Hfd] E. pose proof (fdalloc_counts _ g s r s' Hc E) as Hc'. destruct r as [fd'|].
    - eapply counted_ext; [|exact Hc']. intros h. by rewrite more_more, more_0.
    - split; [done|]. revert E. unfold fdalloc, mbind, cm_bind, gets. destruct (free_fd (ofile s) 0); [done|]. by intros [= <-]. }
  intros [fd'|]; [do 2 (apply leads_keeps; [keep|]; intros []); by apply leads_ret|].
  eapply leads_bind; [apply clear_fd_counts|]. intros []. eapply leads_ext; [intros h; apply more_comm|].
  apply close_both. by apply leads_ret.
Qed.

(** ** Processes *)

(** The loop over the descriptors in [fork]. *)
Fixpoint fork_files (l : list (option nat)) : cm F unit :=
  match l with
  | [] => mret tt
  | o :: l' => (match o with Some f => filedup f ;; mret tt | None => mret tt end) ;; fork_files l'
  end.

(** And in [exit]. *)
Fixpoint exit_files (n fd : nat) : cm F unit :=
  match n with
  | O => mret tt
  | S n' =>
      l ← gets ofile;
      (match l !! fd with
       | None => ub "ofile"
       | Some None => mret tt
       | Some (Some f) => fileclose f ;; clear_fd fd
       end) ;;
      exit_files n' (S fd)
  end.

(** The calls. *)
Inductive fcall : Type :=
| FDup | FRead | FWrite | FClose | FFstat | FLink | FUnlink | FOpen | FMkdir | FMknod | FChdir | FPipe.

Definition run (c : fcall) : cm F Z :=
  match c with
  | FDup => sys_dup | FRead => sys_read | FWrite => sys_write | FClose => sys_close | FFstat => sys_fstat
  | FLink => sys_link junk | FUnlink => sys_unlink junk | FOpen => sys_open junk | FMkdir => sys_mkdir junk
  | FMknod => sys_mknod junk | FChdir => sys_chdir junk | FPipe => sys_pipe
  end.

(** The state with the current process, and the descriptors of the others. *)
Inductive wstep : F * list (list (option nat)) → F * list (list (option nat)) → Prop :=
| w_call c r s s' os : run c s = Ok r s' → wstep (s, os) (s', os)
| w_switch s u o d k os1 os2 :
    wstep (s, os1 ++ o :: os2)
      (Fst (fsys s) (pool s) (pipes s) (ftable s) (ft_lock s) u o d k, os1 ++ ofile s :: os2)
| w_fork s s' os : fork_files (ofile s) s = Ok tt s' → wstep (s, os) (s', ofile s :: os)
| w_exit s s' os : exit_files NOFILE 0 s = Ok tt s' → wstep (s, os) (s', os).

Fixpoint elsewhere (os : list (list (option nat))) (f : nat) : Z :=
  match os with [] => 0 | o :: os' => refs o f + elsewhere os' f end.

Lemma elsewhere_app os os' f : elsewhere (os ++ os') f = elsewhere os f + elsewhere os' f.
Proof. induction os as [|o os IH]; cbn; [done|]. lia. Qed.

Lemma elsewhere_nonneg os f : 0 ≤ elsewhere os f.
Proof. induction os as [|o os IH]; cbn; [done|]. pose proof (refs_nonneg o f). lia. Qed.

Lemma run_keeps c : keeps (run c).
Proof.
  destruct c; cbn [run]; first [apply sys_dup_counts | apply sys_close_counts | apply sys_open_counts | apply sys_pipe_counts | keep].
Qed.

Lemma fork_files_counts held l : leads (counted held) (fork_files l) (λ _, counted (λ f, held f + refs l f)).
Proof.
  revert held. induction l as [|[f|] l IH]; intros held; cbn [fork_files].
  - apply leads_ret. intros s. apply counted_ext. intros f. unfold refs. cbn. lia.
  - eapply leads_bind with (R := λ _, counted (more held f 1)).
    + eapply leads_bind; [apply filedup_counts|]. intros g. by apply leads_ret.
    + intros []. intros s u s' Hc E. eapply counted_ext; [|by eapply IH].
      intros g. cbn. rewrite refs_cons. unfold more. repeat case_decide; simplify_eq; lia.
  - apply leads_keeps; [keep|]. intros [] s u s' Hc E. eapply counted_ext; [|by eapply IH].
    intros g. cbn. rewrite refs_cons. case_decide; [done|lia].
Qed.

Lemma exit_files_keeps n fd : keeps (exit_files n fd).
Proof.
  revert fd. induction n as [|n IH]; intros fd held; cbn [exit_files]; [by apply leads_ret|].
  eapply leads_bind with (R := λ l s, counted held s ∧ ofile s = l); [by apply leads_gets|]. intros l.
  eapply leads_bind with (R := λ _, counted held); [|intros []; apply IH].
  destruct (l !! fd) as [[f|]|] eqn:E; [|by apply leads_ret; intros s [Hc _]|apply leads_ub].
  eapply leads_bind with (R := λ _ s, counted (more held f (-1)) s ∧ ofile s !! fd = Some (Some f)).
  - intros s u s' [Hc Eo] Er. split; [by eapply fileclose_counts|]. by rewrite (fileclose_ofile f s u s' Er), Eo.
  - intros []. intros s u s' Hc Er. eapply counted_ext; [|by eapply clear_fd_counts]. intros g. by rewrite more_more, more_0.
Qed.

Lemma wstep_counted s os s' os' :
  counted (elsewhere os) s → wstep (s, os) (s', os') → counted (elsewhere os') s'.
Proof.
  intros Hc Hs. remember (s, os) as w eqn:Ew. remember (s', os') as w' eqn:Ew'.
  destruct Hs as [c r t t' us E|t u o d k us1 us2|t t' us E|t t' us E]; simplify_eq.
  - by eapply run_keeps.
  - destruct Hc as [H1 H2]. split; intros f; cbn; [intros v Hv%H1|intros Hv%H2]; rewrite elsewhere_app in *; cbn in *; lia.
  - eapply counted_ext; [|by eapply fork_files_counts]. intros f. cbn. lia.
  - by eapply exit_files_keeps.
Qed.

Lemma wsteps_counted w w' : rtc wstep w w' → counted (elsewhere w.2) w.1 → counted (elsewhere w'.2) w'.1.
Proof. induction 1 as [|[s os] [s1 os1] w' Hs _ IH]; [done|]. intros Hc. apply IH. by eapply wstep_counted. Qed.

Lemma elsewhere_pos o os f : o ∈ os → refs o f ≤ elsewhere os f.
Proof.
  induction 1 as [o os|o o' os _ IH]; cbn; [pose proof (elsewhere_nonneg os f)|pose proof (refs_nonneg o' f)]; lia.
Qed.

(** C11: References.  Whatever system calls on files the processes make, in any order, with forks and exits between
    them, the count of each open file is the number of descriptors that name it, over all processes.  So the
    file behind a descriptor is never free, and the tests of [filedup] and [fileclose] do not fire. *)
Theorem descriptors_counted s os s' os' :
  (∀ f v, ftable s !! f = Some v → f_ref v = 0) → (∀ f, elsewhere (ofile s :: os) f = 0) →
  rtc wstep (s, os) (s', os') →
  (∀ f v, ftable s' !! f = Some v → f_ref v = elsewhere (ofile s' :: os') f) ∧
  (∀ o fd f, o ∈ ofile s' :: os' → o !! fd = Some (Some f) → ∃ v, ftable s' !! f = Some v ∧ 1 ≤ f_ref v).
Proof.
  intros H0 Hos Hr. destruct (wsteps_counted _ _ Hr) as [H1 H2]; cbn [fst snd] in *.
  { split; intros f; specialize (Hos f); cbn in Hos; [intros v ->%H0|intros _]; lia. }
  split; [intros f v Hv; rewrite (H1 _ _ Hv); cbn; lia|].
  intros o fd f Hin Hfd. pose proof (refs_pos _ _ _ Hfd). pose proof (elsewhere_pos _ _ f Hin) as Hp. cbn in Hp.
  destruct (ftable s' !! f) as [v|] eqn:Ev; [|specialize (H2 _ Ev); lia].
  exists v. split; [done|]. rewrite (H1 _ _ Ev). lia.
Qed.
End calls.

Module DescriptorExample.
#[local] Instance no_devices : Devices unit := {| dev_read _ := None; dev_write _ := None |}.

(** One free page; the argument of the calls, at 4, is where [pipe] stores the first descriptor. *)
Definition start : fstate kmem unit :=
  Fst (Fs (Log (binit 0 (λ _, []) 0) false 0 0 0 0 0 0 [] 0) (Superblock 0 0 0 0 0 0 0) [] false 1 tt)
    (Kmem (λ _, 0) 0 false false (KERNBASE + 4096)) ∅ (replicate NFILE (File FD_NONE 0 false false 0 None 0)) false
    (User 4096 0 (λ a, if a =? 4 then 4 else 0)) (replicate NOFILE None) 0 false.

Lemma dup_pipe_runs :
  match run [] FPipe start with
  | Ok _ s1 => match run [] FDup s1 with Ok _ s2 => f_ref <$> ftable s2 !! 0%nat = Some 2 | _ => False end
  | _ => False
  end.
Proof. vm_compute. reflexivity. Qed.

Lemma descriptors_counted_witness :
  ∃ s, rtc (wstep []) (start, []) (s, []) ∧ elsewhere [ofile s] 0 = 2 ∧
    ∃ v, ftable s !! 0%nat = Some v ∧ 1 ≤ f_ref v.
Proof.
  pose proof dup_pipe_runs as Hf.
  destruct (run [] FPipe start) as [r1 s1| |] eqn:E1; [|destruct Hf|destruct Hf].
  destruct (run [] FDup s1) as [r2 s2| |] eqn:E2; [|destruct Hf|destruct Hf].
  assert (Hr : rtc (wstep []) (start, []) (s2, [])).
  { eapply rtc_l; [eapply w_call; exact E1|]. eapply rtc_l; [eapply w_call; exact E2|]. apply rtc_refl. }
  destruct (descriptors_counted [] start [] s2 []) as [Hc _].
  - intros f v Hv. apply lookup_replicate in Hv as [-> _]. reflexivity.
  - intros f. reflexivity.
  - exact Hr.
  - exists s2. split; [exact Hr|].
    destruct (ftable s2 !! 0%nat) as [v|] eqn:Ev; [|discriminate Hf]. injection Hf as Hf.
    split; [exact (eq_trans (eq_sym (Hc 0%nat v Ev)) Hf)|]. exists v. split; [reflexivity|]. rewrite Hf. discriminate.
Defined.
End DescriptorExample.
