(* ===== verification/Tools.v ===== *)
(** * User programs: grep, wc and cat

    [src/grep.c], [src/wc.c] and [src/cat.c] over the system calls they make.  What they
    write is a list of bytes with the descriptor each went to; [exit] ends a program.
    The loops around [read] carry fuel, one unit per call.

    Theorems: the pattern matcher of [grep] decides the language of its patterns, and
    [grep] prints the matching lines of a file; [wc] counts lines, words and bytes
    however [read] cuts the input up. *)
From S2P Require Import Prelude CString Numeral Console Printf.

(** The calls: [read] returns its result and the bytes it stored. *)
Class Sys (S : Type) : Type := {
  sys_open : list Z → Z → S → Z * S;
  sys_read : Z → Z → S → Z * list Z * S;
  sys_close : Z → S → S
}.

Record tool (S : Type) : Type := Tool { t_io : S; t_out : list (Z * Z) }.
Arguments Tool {S}. Arguments t_io {S}. Arguments t_out {S}.

Section programs.
Context {S : Type} {sys : Sys S}.
Local Abbreviation T := (tool S).

Definition emit (fd : Z) (l : list Z) : cm T unit := modify (λ t, Tool (t_io t) (t_out t ++ ((λ b, (fd, b)) <$> l))).
Definition read (fd n : Z) : cm T (Z * list Z) := λ t,
  let '(k, l, s) := sys_read fd n (t_io t) in Ok (k, l) (Tool s (t_out t)).
Definition open (path : list Z) (mode : Z) : cm T Z := λ t,
  let '(fd, s) := sys_open path mode (t_io t) in Ok fd (Tool s (t_out t)).
Definition close (fd : Z) : cm T unit := modify (λ t, Tool (sys_close fd (t_io t)) (t_out t)).
Definition fprintf (fd : Z) (fmt : list Z) (args : list carg) : cm T unit :=
  match printf_chars false fmt args with Some l => emit fd l | None => ub "printf" end.

(** The loop of the three [main] functions over the files; [None] stops the program. *)
Fixpoint for_files (cannot : list Z → cm T unit) (f : Z → list Z → cm T bool) (names : list (list Z)) : cm T unit :=
  match names with
  | [] => mret tt
  | name :: names' =>
      fd ← open name 0;
      if fd <? 0 then cannot name
      else
        f fd name ≫= λ ok : bool, if ok then close fd ;; for_files cannot f names' else mret tt
  end.
End programs.

(** ** [grep] *)
Module Grep.

Definition STAR : Z := 42.
Definition CARET : Z := 94.
Definition DOLLAR : Z := 36.
Definition DOT : Z := 46.
Definition NL : Z := 10.

(** [matchstar] over the text, for the pattern [here] decides. *)
Fixpoint star (c : Z) (here : list Z → bool) (text : list Z) : bool :=
  if here text then true else
  match text with
  | [] => false
  | t :: text' => if (t =? c) || (c =? DOT) then star c here text' else false
  end.

Fixpoint matchhere (re text : list Z) {struct re} : bool :=
  match re with
  | [] => true
  | c :: re1 =>
      match re1 with
      | d :: re2 =>
          if d =? STAR then star c (matchhere re2) text else
          match text with
          | t :: text' => if (c =? DOT) || (c =? t) then matchhere re1 text' else false
          | [] => false
          end
      | [] =>
          if c =? DOLLAR then match text with [] => true | _ => false end else
          match text with
          | t :: text' => if (c =? DOT) || (c =? t) then matchhere re1 text' else false
          | [] => false
          end
      end
  end.

Definition matchstar (c : Z) (re text : list Z) : bool := star c (matchhere re) text.

(** The loop of [match]. *)
Fixpoint search (re text : list Z) : bool :=
  if matchhere re text then true else
  match text with
  | [] => false
  | _ :: text' => search re text'
  end.

Definition match_re (re text : list Z) : bool :=
  match re with
  | c :: re' => if c =? CARET then matchhere re' text else search re text
  | [] => search re text
  end.

Section grep.
Context {S : Type} {sys : Sys S}.
Local Abbreviation T := (tool S).

(** The loop over the lines of the buffer; it returns the bytes from [p] on. *)
Fixpoint grep_lines (n : nat) (pattern p : list Z) : cm T (list Z) :=
  match strchr (p ++ [0]) NL with
  | Some (Some k) =>
      match n with
      | O => ub "loop"
      | Datatypes.S n' =>
          let line := take (Z.to_nat k) p in
          (if match_re pattern line then emit 1 (line ++ [NL]) else mret tt) ;;
          grep_lines n' pattern (drop (Z.to_nat k + 1) p)
      end
  | _ => mret p
  end.

(** [buf]: the [m] bytes kept at the front of the buffer. *)
Fixpoint grep_loop (n : nat) (pattern : list Z) (fd : Z) (buf : list Z) : cm T unit :=
  match n with
  | O => ub "loop"
  | Datatypes.S n' =>
      r ← read fd (1024 - Z.of_nat (length buf) - 1);
      if 0 <? r.1 then
        let buf := buf ++ r.2 in
        p ← grep_lines (length buf) pattern buf;
        grep_loop n' pattern fd (if Nat.eqb (length p) (length buf) then [] else p)
      else mret tt
  end.

Definition grep (n : nat) (pattern : list Z) (fd : Z) : cm T unit := grep_loop n pattern fd [].

(** The messages. *)
Definition USAGE : list Z := [117;115;97;103;101;58;32;103;114;101;112;32;112;97;116;116;101;114;110;32;91;102;105;108;101;32;46;46;46;93;10].
Definition CANNOT : list Z := [103;114;101;112;58;32;99;97;110;110;111;116;32;111;112;101;110;32;37;115;10].

(** [argv] without the name of the program. *)
Definition main (n : nat) (argv : list (list Z)) : cm T unit :=
  match argv with
  | [] => fprintf 2 USAGE []
  | [pattern] => grep n pattern 0
  | pattern :: names =>
      for_files (λ name, fprintf 1 CANNOT [CStr (Some name)]) (λ fd _, grep n pattern fd ;; mret true) names
  end.
End grep.

(** ** What a pattern means *)

Definition accepts (c x : Z) : Prop := c = DOT ∨ c = x.

(** [Matches re t]: the pattern [re] matches a prefix of the text [t]. *)
Inductive Matches : list Z → list Z → Prop :=
| M_nil t : Matches [] t
| M_star c re s t : Forall (accepts c) s → Matches re t → Matches (c :: STAR :: re) (s ++ t)
| M_end : Matches [DOLLAR] []
| M_char c re x t : head re ≠ Some STAR → (c = DOLLAR → re ≠ []) → accepts c x → Matches re t →
    Matches (c :: re) (x :: t).

Lemma star_spec c here text :
  star c here text = true ↔ ∃ s t, text = s ++ t ∧ Forall (accepts c) s ∧ here t = true.
Proof.
  induction text as [|x text IH]; cbn [star].
  - destruct (here []) eqn:E; [by split; [exists [], []|]|]. split; [done|].
    intros (s & t & Et & _ & Hh). symmetry in Et. apply app_eq_nil in Et as [-> ->]. congruence.
  - destruct (here (x :: text)) eqn:E; [split; [by exists [], (x :: text)|done]|].
    assert (Hacc : ((x =? c) || (c =? DOT)) = true ↔ accepts c x).
    { rewrite orb_true_iff, !Z.eqb_eq. unfold accepts. naive_solver. }
    destruct ((x =? c) || (c =? DOT)) eqn:Ea.
    + rewrite IH. split.
      * intros (s & t & -> & Hs & Hh). exists (x :: s), t. split_and!; [done| |done]. constructor; [by apply Hacc|done].
      * intros (s & t & Et & Hs & Hh). destruct s as [|y s]; simplify_eq/=; [congruence|]. apply Forall_cons in Hs as [_ Hs]. eauto.
    + split; [done|]. intros (s & t & Et & Hs & Hh). destruct s as [|y s]; simplify_eq/=; [congruence|].
      apply Forall_cons in Hs as [Hs _]. by apply Hacc in Hs.
Qed.

Lemma accepts_eqb c x : ((c =? DOT) || (c =? x)) = true ↔ accepts c x.
Proof. rewrite orb_true_iff, !Z.eqb_eq. done. Qed.

Lemma matchhere_spec re : ∀ text, matchhere re text = true ↔ Matches re text.
Proof.
  induction re as [re IH] using (induction_ltof1 _ length). unfold ltof in IH. intros text.
  destruct re as [|c re1]; [by split; [constructor|]|].
  assert (Hchar : ∀ (H1 : head re1 ≠ Some STAR) (H2 : c = DOLLAR → re1 ≠ []),
    match text with t :: text' => if (c =? DOT) || (c =? t) then matchhere re1 text' else false | [] => false end = true ↔
    Matches (c :: re1) text).
  { intros H1 H2. destruct text as [|t text'].
    - split; [done|]. inversion 1; simplify_eq/=; naive_solver.
    - pose proof (accepts_eqb c t) as Ha. destruct ((c =? DOT) || (c =? t)).
      + rewrite IH by (cbn; lia). split; [intros; constructor; auto; by apply Ha|]. inversion 1; simplify_eq/=; naive_solver.
      + split; [done|]. inversion 1; simplify_eq/=; naive_solver. }
  cbn [matchhere]. destruct re1 as [|d re2].
  - destruct (c =? DOLLAR) eqn:Ec; zbool; [|by apply Hchar]. subst c. destruct text as [|t text'].
    + split; [intros; constructor|done].
    + split; [done|]. inversion 1; simplify_eq/=. naive_solver.
  - destruct (d =? STAR) eqn:Ed; zbool; [|apply Hchar; [by intros [=]|done]]. subst d. rewrite star_spec. split.
    + intros (s & t & -> & Hs & Hh). constructor; [done|]. apply IH; [cbn; lia|done].
    + inversion 1 as [|c' re' s t Hs Hm| |]; simplify_eq/=. exists s, t. split_and!; [done|done|]. apply IH; [cbn; lia|done].
Qed.

Lemma search_spec re text : search re text = true ↔ ∃ pre suf, text = pre ++ suf ∧ Matches re suf.
Proof.
  induction text as [|x text IH]; cbn [search]; destruct (matchhere re _) eqn:E; rewrite ?matchhere_spec in E.
  - split; [by exists [], []|done].
  - split; [done|]. intros (pre & suf & Et & Hm). symmetry in Et. apply app_eq_nil in Et as [-> ->].
    apply matchhere_spec in Hm. congruence.
  - split; [by exists [], (x :: text)|done].
  - rewrite IH. split.
    + intros (pre & suf & -> & Hm). by exists (x :: pre), suf.
    + intros (pre & suf & Et & Hm). destruct pre as [|y pre]; simplify_eq/=; [|eauto].
      apply matchhere_spec in Hm. congruence.
Qed.

(** ** [grep] on a file *)

(** The complete lines, without their newlines, and what follows the last newline. *)
Fixpoint split_lines (l : list Z) : list (list Z) * list Z :=
  match l with
  | [] => ([], [])
  | c :: l' =>
      let '(ls, t) := split_lines l' in
      if c =? NL then ([] :: ls, t) else
      match ls with
      | [] => ([], c :: t)
      | x :: ls' => ((c :: x) :: ls', t)
      end
  end.

Definition printed (pattern : list Z) (ls : list (list Z)) : list Z :=
  concat ((λ l, if match_re pattern l then l ++ [NL] else []) <$> ls).

Lemma printed_app pattern ls ls' : printed pattern (ls ++ ls') = printed pattern ls ++ printed pattern ls'.
Proof. unfold printed. by rewrite fmap_app, concat_app. Qed.

Lemma split_prefix a b :
  NL ∉ a → split_lines (a ++ b) =
    match split_lines b with ([], t) => ([], a ++ t) | (x :: ls, t) => ((a ++ x) :: ls, t) end.
Proof.
  induction a as [|c a IH]; intros Hn; cbn; [by destruct (split_lines b) as [[|x ls] t]|].
  apply not_elem_of_cons in Hn as [Hc Hn]. rewrite IH by done. rewrite (proj2 (Z.eqb_neq c NL)) by done.
  by destruct (split_lines b) as [[|x ls] t].
Qed.

Lemma split_none p : NL ∉ p → split_lines p = ([], p).
Proof. intros Hn. rewrite <- (app_nil_r p) at 1. rewrite split_prefix by done. cbn. by rewrite app_nil_r. Qed.

Lemma split_line line r : NL ∉ line → split_lines (line ++ NL :: r) = (line :: (split_lines r).1, (split_lines r).2).
Proof. intros Hn. rewrite split_prefix by done. cbn. destruct (split_lines r). by rewrite app_nil_r. Qed.

Lemma split_tail p : (NL ∉ (split_lines p).2) ∧ (length (split_lines p).2 ≤ length p)%nat ∧
  ((split_lines p).1 ≠ [] → (length (split_lines p).2 < length p)%nat).
Proof.
  induction p as [|c p IH]; cbn; [split_and!; [apply not_elem_of_nil|lia|done]|].
  destruct (split_lines p) as [ls t]; cbn in IH; destruct IH as (H1 & H2 & H3). destruct (c =? NL) eqn:E; zbool.
  - cbn. split_and!; [done|lia|intros; lia].
  - destruct ls as [|x ls]; cbn; split_and!; try done; try lia. apply not_elem_of_cons. split; [congruence|done].
Qed.

Lemma split_no_lines p : (split_lines p).1 = [] → NL ∉ p.
Proof.
  induction p as [|c p IH]; cbn; [intros _; apply not_elem_of_nil|]. destruct (split_lines p) as [[|x ls] t]; cbn in *.
  - destruct (c =? NL) eqn:E; zbool; cbn; [done|]. intros _. apply not_elem_of_cons. split; [congruence|auto].
  - by destruct (c =? NL).
Qed.

Lemma split_tail_sub p x : x ∈ (split_lines p).2 → x ∈ p.
Proof.
  induction p as [|c p IH]; cbn; [done|]. destruct (split_lines p) as [[|y ls] t]; cbn in *;
    destruct (c =? NL); cbn; rewrite ?elem_of_cons; tauto.
Qed.

Lemma split_app a b :
  split_lines (a ++ b) =
    ((split_lines a).1 ++ (split_lines ((split_lines a).2 ++ b)).1, (split_lines ((split_lines a).2 ++ b)).2).
Proof.
  induction a as [|c a IH]; [cbn; by destruct (split_lines b)|]. cbn [app split_lines]. rewrite IH.
  pose proof (split_tail a) as (Hn & _ & _). destruct (split_lines a) as [[|x ls] t]; cbn [fst snd app] in *; case_b; cbn [fst snd app].
  - done.
  - replace (c :: t ++ b) with ([c] ++ (t ++ b)) by done.
    rewrite (split_prefix [c]) by (intros ?%list_elem_of_singleton; congruence).
    by destruct (split_lines (t ++ b)) as [[|y ls'] t'].
  - done.
  - done.
Qed.

(** Lines that fit the buffer. *)
Definition fit (p : list Z) : Prop :=
  Forall (λ l, length l ≤ 1022)%nat (split_lines p).1 ∧ (length (split_lines p).2 ≤ 1022)%nat.

Lemma fit_tail a b : fit (a ++ b) → fit ((split_lines a).2 ++ b).
Proof. unfold fit. rewrite split_app. cbn. rewrite Forall_app. tauto. Qed.

Lemma fit_prefix a b : NL ∉ a → fit (a ++ b) → (length a ≤ 1022)%nat.
Proof.
  intros Hn [H1 H2]. rewrite split_prefix in * by done. destruct (split_lines b) as [[|x ls] t]; cbn in *.
  - rewrite length_app in H2. lia.
  - apply Forall_cons in H1 as [H1 _]. rewrite length_app in H1. lia.
Qed.

Section on_file.
Context {S : Type} {sys : Sys S} (fd : Z) (rest : S → list Z).

(** Reading the file returns what is asked for or all that is left. *)
Definition reads_file : Prop := ∀ s n, 0 < n → ∃ s',
  sys_read fd n s = (Z.of_nat (length (take (Z.to_nat n) (rest s))), take (Z.to_nat n) (rest s), s') ∧
  rest s' = drop (Z.to_nat n) (rest s).

Lemma cstr_text p : 0 ∉ p → cstr (p ++ [0]) = p.
Proof.
  induction p as [|b p IH]; intros Hn; [done|]. apply not_elem_of_cons in Hn as [Hb Hn]. cbn.
  rewrite (proj2 (Z.eqb_neq b 0)) by done. by rewrite IH.
Qed.

Lemma grep_lines_ok pattern n : ∀ p (t : tool S), 0 ∉ p → (length p ≤ n)%nat →
  grep_lines n pattern p t =
    Ok (split_lines p).2 (Tool (t_io t) (t_out t ++ ((λ b, (1, b)) <$> printed pattern (split_lines p).1))).
Proof.
  induction n as [|n IH]; intros p t H0 Hn.
  all: cbn [grep_lines]; rewrite strchr_spec by (done || set_solver); rewrite cstr_text by done;
    destruct (list_find (NL =.) p) as [[k x]|] eqn:Ef; cbn.
  - destruct p; [done|]. cbn in Hn. lia.
  - destruct p; [|cbn in Hn; lia]. cbn. rewrite app_nil_r. by destruct t.
  - apply list_find_Some in Ef as (Hk & <- & Hbefore). rewrite Nat2Z.id.
    assert (Hline : NL ∉ take k p).
    { intros Hin. apply list_elem_of_lookup in Hin as (j & Hj). apply lookup_take_Some in Hj as [Hj Hlt]. by apply (Hbefore j NL). }
    assert (Hp : p = take k p ++ NL :: drop (Datatypes.S k) p) by (by rewrite take_drop_middle).
    replace (split_lines p) with (split_lines (take k p ++ NL :: drop (Datatypes.S k) p)) by (by rewrite <- Hp).
    rewrite split_line by done. cbn [fst snd]. replace (k + 1)%nat with (Datatypes.S k) by lia.
    assert (Hkl : (k < length p)%nat) by (by eapply lookup_lt_Some).
    assert (H0' : 0 ∉ drop (Datatypes.S k) p).
    { intros Hin. apply H0. rewrite Hp. apply elem_of_app. right. by right. }
    change (printed pattern (take k p :: (split_lines (drop (Datatypes.S k) p)).1)) with
      ((if match_re pattern (take k p) then take k p ++ [NL] else []) ++ printed pattern (split_lines (drop (Datatypes.S k) p)).1).
    destruct (match_re pattern (take k p)).
    + unfold emit. rewrite bind_modify, IH by (done || rewrite length_drop; lia). cbn. by rewrite (fmap_app _ (take k p ++ [NL])), app_assoc.
    + rewrite bind_ret, IH by (done || rewrite length_drop; lia). done.
  - apply list_find_None in Ef. rewrite split_none; [cbn; rewrite app_nil_r; by destruct t|].
    intros Hin. rewrite Forall_forall in Ef. by apply (Ef NL).
Qed.

Lemma grep_loop_ok pattern n : reads_file → ∀ buf t,
  let text := buf ++ rest (t_io t) in
  (length (rest (t_io t)) < n)%nat → NL ∉ buf → (length buf ≤ 1022)%nat → 0 ∉ text → fit text →
  ∃ t', grep_loop (sys := sys) n pattern fd buf t = Ok tt t' ∧
    t_out t' = t_out t ++ ((λ b, (1, b)) <$> printed pattern (split_lines text).1).
Proof.
  intros Hread. induction n as [|n IH]; intros buf t text Hn Hnl Hbuf H0 Hfit; [lia|]. cbn [grep_loop].
  destruct (Hread (t_io t) (1024 - Z.of_nat (length buf) - 1)) as (s' & Er & Hrest); [lia|].
  set (k := Z.to_nat (1024 - Z.of_nat (length buf) - 1)) in *. set (c := take k (rest (t_io t))) in *.
  assert (E1 : read (sys := sys) fd (1024 - Z.of_nat (length buf) - 1) t = Ok (Z.of_nat (length c), c) (Tool s' (t_out t))).
  { unfold read. by rewrite Er. }
  rewrite (bind_ok _ _ _ _ _ E1). cbn [fst snd].
  destruct (0 <? Z.of_nat (length c)) eqn:Ec; zbool.
  2: { assert (Hr : rest (t_io t) = []).
    { destruct (rest (t_io t)) as [|x r]; [done|]. unfold c in Ec. replace k with (Datatypes.S (k - 1)) in Ec by lia. cbn in Ec. lia. }
    exists (Tool s' (t_out t)). split; [done|]. cbn. unfold text. rewrite Hr, app_nil_r, split_none by done.
    cbn. by rewrite app_nil_r. }
  assert (Htext : text = (buf ++ c) ++ rest s') by (unfold text, c; rewrite Hrest, <- app_assoc, take_drop; done).
  assert (H0c : 0 ∉ buf ++ c) by (intros ?; apply H0; rewrite Htext; set_solver).
  rewrite (bind_ok _ _ _ _ _ (grep_lines_ok pattern _ _ (Tool s' (t_out t)) H0c (le_n _))). cbn [t_io t_out].
  destruct (split_tail (buf ++ c)) as (Ht1 & Ht2 & Ht3).
  assert (Hlen : (length (rest s') < n)%nat).
  { rewrite Hrest, length_drop. unfold c in Ec. rewrite length_take in Ec. lia. }
  destruct (Nat.eqb (length (split_lines (buf ++ c)).2) (length (buf ++ c))) eqn:Ee.
  - (* no newline: the end of the file *)
    apply Nat.eqb_eq in Ee. assert (Hls : (split_lines (buf ++ c)).1 = []).
    { destruct (split_lines (buf ++ c)).1; [done|]. specialize (Ht3 ltac:(done)). lia. }
    pose proof (split_no_lines _ Hls) as Hno. rewrite Htext in Hfit. apply fit_prefix in Hfit; [|done].
    assert (Hr' : rest s' = []).
    { rewrite Hrest. apply drop_ge. rewrite length_app in Hfit. unfold c in Hfit. rewrite length_take in Hfit. lia. }
    destruct (IH [] (Tool s' (t_out t ++ ((λ b, (1, b)) <$> printed pattern (split_lines (buf ++ c)).1)))) as (t' & E' & Ho);
      cbn [t_io app]; rewrite ?Hr'; try (done || lia || apply not_elem_of_nil); try (cbn; lia); [split; cbn; [constructor|lia]|].
    exists t'. split; [exact E'|]. rewrite Ho. cbn [t_out t_io app]. rewrite Hr'. cbn [split_lines fst]. rewrite Htext, Hr', app_nil_r.
    by rewrite app_nil_r.
  - apply Nat.eqb_neq in Ee. set (tl := (split_lines (buf ++ c)).2) in *.
    assert (Hcl : (length c ≤ k)%nat) by (unfold c; rewrite length_take; lia).
    destruct (IH tl (Tool s' (t_out t ++ ((λ b, (1, b)) <$> printed pattern (split_lines (buf ++ c)).1)))) as (t' & E' & Ho);
      cbn [t_io]; try done.
    + rewrite length_app in *. lia.
    + intros Hin. apply elem_of_app in Hin as [Hin|Hin]; [|apply H0; rewrite Htext; set_solver].
      apply H0c. by apply split_tail_sub.
    + rewrite Htext in Hfit. by apply fit_tail.
    + exists t'. split; [exact E'|]. rewrite Ho. cbn [t_out t_io]. rewrite Htext, (split_app (buf ++ c)). cbn [fst]. fold tl.
      by rewrite printed_app, fmap_app, app_assoc.
Qed.
End on_file.

(** C29: the pattern matcher.  [match] accepts a text exactly when the pattern, with [^]
    anchoring it at the start, [$] at the end, [.] standing for any character and [*]
    for any repetition of the one before, describes a part of the text. *)
Theorem match_decides re text :
  match_re re text = true ↔
  match re with
  | c :: re' => if c =? CARET then Matches re' text else ∃ pre suf, text = pre ++ suf ∧ Matches re suf
  | [] => True
  end.
Proof.
  unfold match_re. destruct re as [|c re']; [by destruct text|]. destruct (c =? CARET); [apply matchhere_spec|apply search_spec].
Qed.

(** [grep] on a file whose lines fit its buffer and hold no zero byte returns and
    prints the lines that match, each with its newline and in order, and nothing else. *)
Theorem grep_prints {S : Type} {sys : Sys S} (fd : Z) (rest : S → list Z) pattern t n :
  reads_file fd rest → (length (rest (t_io t)) < n)%nat → 0 ∉ rest (t_io t) → fit (rest (t_io t)) →
  returns (grep n pattern fd t) (λ _ t',
    t_out t' = t_out t ++ ((λ b, (1, b)) <$> printed pattern (split_lines (rest (t_io t))).1)).
Proof.
  intros Hr Hn H0 Hf. destruct (grep_loop_ok fd rest pattern n Hr [] t) as (t' & E & Ho); try done.
  - apply not_elem_of_nil.
  - cbn. lia.
  - unfold grep. rewrite E. exact Ho.
Qed.
End Grep.

(** ** [wc] *)
Module Wc.

(** [strchr(" \r\t\n\v", b)]. *)
Definition SPACES : list Z := [32; 13; 9; 10; 11; 0].
Definition space (b : Z) : bool := match strchr SPACES b with Some (Some _) => true | _ => false end.

Record counts : Type := Counts { c_l : Z; c_w : Z; c_c : Z; c_inword : bool }.

Section wc.
Context {S : Type} {sys : Sys S}.
Local Abbreviation T := (tool S).

(** [x++] on an [int]; past the largest it is undefined. *)
Definition inc (x : Z) : cm T Z := if x + 1 <? 2 ^ 31 then mret (x + 1) else ub "int overflow".

(** The loop over the bytes of the buffer. *)
Fixpoint wc_bytes (buf : list Z) (k : counts) : cm T counts :=
  match buf with
  | [] => mret k
  | b :: buf' =>
      c ← inc (c_c k);
      l ← (if b =? 10 then inc (c_l k) else mret (c_l k));
      k' ← (if space b then mret (Counts l (c_w k) c false)
            else if negb (c_inword k) then w ← inc (c_w k); mret (Counts l w c true)
            else mret (Counts l (c_w k) c (c_inword k)));
      wc_bytes buf' k'
  end.

(** The loop around [read]; it returns the counts and the last [n]. *)
Fixpoint wc_loop (fuel : nat) (fd : Z) (k : counts) : cm T (counts * Z) :=
  match fuel with
  | O => ub "loop"
  | Datatypes.S fuel' =>
      r ← read fd 512;
      if 0 <? r.1 then k' ← wc_bytes r.2 k; wc_loop fuel' fd k' else mret (k, r.1)
  end.

Definition ERROR : list Z := [119; 99; 58; 32; 114; 101; 97; 100; 32; 101; 114; 114; 111; 114; 10].
Definition FORMAT : list Z := [37; 100; 32; 37; 100; 32; 37; 100; 32; 37; 115; 10].
Definition CANNOT : list Z := [119; 99; 58; 32; 99; 97; 110; 110; 111; 116; 32; 111; 112; 101; 110; 32; 37; 115; 10].

(** Whether the program goes on. *)
Definition wc (fuel : nat) (fd : Z) (name : list Z) : cm T bool :=
  r ← wc_loop fuel fd (Counts 0 0 0 false);
  if r.2 <? 0 then fprintf 1 ERROR [] ;; mret false else
  fprintf 1 FORMAT [CInt (c_l r.1); CInt (c_w r.1); CInt (c_c r.1); CStr (Some name)] ;; mret true.

Definition main (fuel : nat) (argv : list (list Z)) : cm T unit :=
  match argv with
  | [] => wc fuel 0 [] ;; mret tt
  | names => for_files (λ name, fprintf 1 CANNOT [CStr (Some name)]) (wc fuel) names
  end.
End wc.

(** ** What is counted *)

Definition newlines (l : list Z) : Z := Z.of_nat (length (filter (λ b, b = 10) l)).
(** The bytes that start a word: they are no white space, and white space or the start
    of the text is before them. *)
Definition words (l : list Z) : Z :=
  Z.of_nat (length (filter (λ p, space p.1 = true ∧ space p.2 = false) (zip (32 :: l) l))).

Fixpoint starts (after_space : bool) (l : list Z) : nat :=
  match l with
  | [] => 0
  | b :: l' => ((if after_space && negb (space b) then 1 else 0) + starts (space b) l')%nat
  end.

Lemma words_starts l : words l = Z.of_nat (starts true l).
Proof.
  unfold words. f_equal. assert (H : ∀ a, length (filter (λ p : Z * Z, space p.1 = true ∧ space p.2 = false) (zip (a :: l) l)) =
    starts (space a) l); [|apply (H 32)].
  induction l as [|b l IH]; intros a; [done|]. cbn [zip zip_with starts]. rewrite filter_cons. cbn [fst snd]. rewrite <- (IH b).
  destruct (decide (space a = true ∧ space b = false)) as [[-> ->]|Hn]; [done|].
  destruct (space a), (space b); cbn [andb negb]; try done. by destruct Hn.
Qed.

(** The counts of a text, from a state on. *)
Definition tally (k : counts) (l : list Z) : counts :=
  Counts (c_l k + newlines l) (c_w k + Z.of_nat (starts (negb (c_inword k)) l)) (c_c k + Z.of_nat (length l))
    (match last l with Some b => negb (space b) | None => c_inword k end).

Lemma tally_nil k : tally k [] = k.
Proof. destruct k. unfold tally, newlines. cbn. f_equal; lia. Qed.

Lemma tally_cons k b l :
  tally k (b :: l) =
  tally (Counts (if b =? 10 then c_l k + 1 else c_l k)
           (if space b then c_w k else if c_inword k then c_w k else c_w k + 1) (c_c k + 1) (negb (space b))) l.
Proof.
  unfold tally, newlines. cbn [c_l c_w c_c c_inword length starts]. rewrite negb_involutive. f_equal.
  - rewrite filter_cons. case_decide as Hb; [rewrite (proj2 (Z.eqb_eq b 10)) by done; cbn; lia|].
    rewrite (proj2 (Z.eqb_neq b 10)) by done. lia.
  - destruct (space b), (c_inword k); cbn [negb andb]; lia.
  - lia.
  - rewrite last_cons. by destruct (last l).
Qed.

Lemma tally_app k a b : tally k (a ++ b) = tally (tally k a) b.
Proof.
  revert k. induction a as [|x a IH]; intros k; cbn [app]; [by rewrite tally_nil|]. by rewrite !tally_cons, IH.
Qed.

Section on_stream.
Context {S : Type} {sys : Sys S} (fd : Z) (rest : S → list Z).
Local Abbreviation T := (tool S).

(** Reading returns some of what is left, and nothing only at the end. *)
Definition reads_stream : Prop := ∀ s n, 0 < n → ∃ k s',
  sys_read fd n s = (Z.of_nat k, take k (rest s), s') ∧ rest s' = drop k (rest s) ∧
  (k ≤ length (rest s))%nat ∧ (k = 0%nat → rest s = []).

(** The counts stay below the number of bytes read. *)
Definition bounded (k : counts) : Prop := 0 ≤ c_l k ≤ c_c k ∧ 0 ≤ c_w k ≤ c_c k.

Lemma inc_ok x (t : T) : x + 1 < 2 ^ 31 → inc x t = Ok (x + 1) t.
Proof. intros Hx. unfold inc. by rewrite (proj2 (Z.ltb_lt _ _) Hx). Qed.

Lemma wc_bytes_ok buf : ∀ k (t : T),
  bounded k → c_c k + Z.of_nat (length buf) < 2 ^ 31 → wc_bytes buf k t = Ok (tally k buf) t ∧ bounded (tally k buf).
Proof.
  induction buf as [|b buf IH]; intros k t [H1 H2] Hlen; cbn [wc_bytes]; [by rewrite tally_nil|]. cbn [length] in Hlen.
  rewrite tally_cons. rewrite (bind_ok _ _ _ _ _ (inc_ok (c_c k) t ltac:(lia))).
  assert (El : (if b =? 10 then inc (c_l k) else mret (c_l k)) t = Ok (if b =? 10 then c_l k + 1 else c_l k) t).
  { case_b; [apply inc_ok; lia|done]. }
  rewrite (bind_ok _ _ _ _ _ El). clear El. set (l := if b =? 10 then c_l k + 1 else c_l k) in *.
  assert (Hl : 0 ≤ l ≤ c_c k + 1) by (unfold l; case_b; lia).
  destruct (space b) eqn:Es; [|destruct (c_inword k) eqn:Ei]; cbn [negb].
  - rewrite bind_ret. apply IH; [split; cbn; lia|cbn; lia].
  - rewrite bind_ret. apply IH; [split; cbn; lia|cbn; lia].
  - rewrite (bind_ok _ _ t (Counts l (c_w k + 1) (c_c k + 1) true) t).
    + apply IH; [split; cbn; lia|cbn; lia].
    + by rewrite (bind_ok _ _ _ _ _ (inc_ok (c_w k) t ltac:(lia))).
Qed.

Lemma wc_loop_ok n : reads_stream → ∀ k t,
  (length (rest (t_io t)) < n)%nat → bounded k → c_c k + Z.of_nat (length (rest (t_io t))) < 2 ^ 31 →
  ∃ s', wc_loop n fd k t = Ok (tally k (rest (t_io t)), 0) (Tool s' (t_out t)).
Proof.
  intros Hread. induction n as [|n IH]; intros k t Hn Hk Hlen; [lia|]. cbn [wc_loop].
  destruct (Hread (t_io t) 512 ltac:(lia)) as (m & s' & Er & Hrest & Hm & Hend).
  assert (E1 : read fd 512 t = Ok (Z.of_nat m, take m (rest (t_io t))) (Tool s' (t_out t))) by (unfold read; by rewrite Er).
  rewrite (bind_ok _ _ _ _ _ E1). cbn [fst snd]. destruct (0 <? Z.of_nat m) eqn:Em; zbool.
  - set (a := take m (rest (t_io t))) in *.
    assert (Ha : length a = m) by (unfold a; rewrite length_take; lia).
    destruct (wc_bytes_ok a k (Tool s' (t_out t)) Hk) as [E2 Hk2]; [lia|]. rewrite (bind_ok _ _ _ _ _ E2).
    destruct (IH (tally k a) (Tool s' (t_out t))) as (s2 & E3); cbn [t_io]; rewrite ?Hrest, ?length_drop; [lia|done|cbn [tally c_c]; lia|].
    exists s2. rewrite E3. cbn [t_io t_out]. rewrite Hrest, <- tally_app. unfold a. by rewrite take_drop.
  - exists s'. rewrite Hend by lia. by rewrite tally_nil, (proj1 (Nat2Z.inj_iff m 0)) by lia.
Qed.
End on_stream.

(** [wc] counts.  However [read] cuts up the input, [wc] returns and prints the number
    of newlines, of words and of bytes of the whole of it. *)
Theorem wc_counts {S : Type} {sys : Sys S} (fd : Z) (rest : S → list Z) name t n out :
  reads_stream fd rest → let text := rest (t_io t) in
  (length text < n)%nat → Z.of_nat (length text) < 2 ^ 31 →
  printf_chars false FORMAT [CInt (newlines text); CInt (words text); CInt (Z.of_nat (length text)); CStr (Some name)] = Some out →
  returns (wc n fd name t) (λ r t', r = true ∧ t_out t' = t_out t ++ ((λ b, (1, b)) <$> out)).
Proof.
  intros Hr text Hn Hlen Hout. unfold wc.
  destruct (wc_loop_ok fd rest n Hr (Counts 0 0 0 false) t Hn) as (s' & E); [split; cbn; lia|cbn; done|].
  rewrite (bind_ok _ _ _ _ _ E). cbn [fst snd Z.ltb Z.compare]. unfold tally. cbn [c_l c_w c_c c_inword negb]. fold text.
  rewrite <- words_starts, !Z.add_0_l. unfold fprintf. rewrite Hout. done.
Qed.
End Wc.

(** ** [cat] *)
Module Cat.
Section cat.
Context {S : Type} {sys : Sys S}.
Local Abbreviation T := (tool S).

Definition ERROR : list Z := [99; 97; 116; 58; 32; 114; 101; 97; 100; 32; 101; 114; 114; 111; 114; 10].
Definition WERROR : list Z := [99; 97; 116; 58; 32; 119; 114; 105; 116; 101; 32; 101; 114; 114; 111; 114; 10].
Definition CANNOT : list Z := [99; 97; 116; 58; 32; 99; 97; 110; 110; 111; 116; 32; 111; 112; 101; 110; 32; 37; 115; 10].

(** [writes n]: what [write(1, buf, n)] returns. *)
Fixpoint cat (fuel : nat) (writes : Z → Z) (fd : Z) : cm T bool :=
  match fuel with
  | O => ub "loop"
  | Datatypes.S fuel' =>
      r ← read fd 512;
      if 0 <? r.1 then
        emit 1 (take (Z.to_nat (writes r.1)) r.2) ;;
        if negb (writes r.1 =? r.1) then fprintf 1 WERROR [] ;; mret false
        else cat fuel' writes fd
      else if r.1 <? 0 then fprintf 1 ERROR [] ;; mret false
      else mret true
  end.

Definition main (fuel : nat) (writes : Z → Z) (argv : list (list Z)) : cm T unit :=
  match argv with
  | [] => cat fuel writes 0 ;; mret tt
  | names => for_files (λ name, fprintf 1 CANNOT [CStr (Some name)]) (λ fd _, cat fuel writes fd) names
  end.
End cat.

(** However [read] cuts the input up, [cat] copies all of it when the writes succeed. *)
Lemma cat_copies {S : Type} {sys : Sys S} (fd : Z) (rest : S → list Z) n : Wc.reads_stream fd rest → ∀ t,
  (length (rest (t_io t)) < n)%nat →
  ∃ s', cat n id fd t = Ok true (Tool s' (t_out t ++ ((λ b, (1, b)) <$> rest (t_io t)))).
Proof.
  intros Hread. induction n as [|n IH]; intros t Hn; [lia|]. cbn [cat].
  destruct (Hread (t_io t) 512 ltac:(lia)) as (m & s' & Er & Hrest & Hm & Hend).
  assert (E1 : read fd 512 t = Ok (Z.of_nat m, take m (rest (t_io t))) (Tool s' (t_out t))) by (unfold read; by rewrite Er).
  rewrite (bind_ok _ _ _ _ _ E1). cbn [fst snd]. unfold id. destruct (0 <? Z.of_nat m) eqn:Em; zbool.
  - unfold emit. rewrite bind_modify, Z.eqb_refl, Nat2Z.id, take_take, Nat.min_id. cbn [negb t_io t_out].
    destruct (IH (Tool s' (t_out t ++ ((λ b, (1, b)) <$> take m (rest (t_io t)))))) as (s2 & E2).
    { cbn. rewrite Hrest, length_drop. lia. }
    exists s2. fold (@id Z). etransitivity; [exact E2|]. cbn [t_io t_out]. by rewrite Hrest, <- app_assoc, <- fmap_app, take_drop.
  - rewrite (proj2 (Z.ltb_ge _ 0)) by lia. exists s'. rewrite Hend by lia. cbn. by rewrite app_nil_r.
Qed.
End Cat.

(** ** Witnesses *)
Module ToolWitnesses.

(** One file that is read in full, and one that comes in pieces. *)
#[local] Instance whole_file : Sys (list Z) := {|
  sys_open _ _ s := (3, s);
  sys_read _ n s := (Z.of_nat (length (take (Z.to_nat n) s)), take (Z.to_nat n) s, drop (Z.to_nat n) s);
  sys_close _ s := s
|}.
Definition pieces : Sys (list (list Z)) := {|
  sys_open _ _ s := (3, s);
  sys_read _ n s := match s with [] => (0, [], []) | l :: s' => (Z.of_nat (length l), l, s') end;
  sys_close _ s := s
|}.

(** The line [ab] arrives in two pieces: the first is thrown away with the buffer. *)
Lemma grep_loses_partial_line :
  match Grep.grep (sys := pieces) 10 [97] 3 (Tool [[97]; [98; 10]] []) with Ok _ t => t_out t | _ => [(0, 0)] end = [] ∧
  Grep.match_re [97] [97; 98] = true.
Proof. by vm_compute. Qed.

End ToolWitnesses.
