(* ===== verification/Sh.v ===== *)
(** * The shell

    [src/sh.c]: the parser, [nulterminate], what the processes of a command are started
    with ([runcmd]), and the loop of the shell.

    A [char *] into the command line is the part of the line from there to its end, so
    that [s++] drops a byte and [s == es] is the empty list; a word of the line is the
    pair of the pointers [q] and [eq].  The functions of the parser call each other:
    they share one fuel, four units per byte of the line and some to start with.

    Theorems: printing a command and parsing it gives it back, with every word ended by
    the byte that [nulterminate] stores; the parser comes to an end on every line; the
    processes of a pipeline are wired to each other and nothing else. *)
From S2P Require Import Prelude CString.

Definition MAXARGS : nat := 10.
Definition O_RDONLY : Z := 0.
Definition O_WRONLY : Z := 1.
Definition O_CREATE : Z := 512.

(** [whitespace] and [symbols]. *)
Definition whitespace : list Z := [32; 9; 13; 10; 11; 0].
Definition symbols : list Z := [60; 124; 62; 38; 59; 40; 41; 0].
Definition isin (set : list Z) (b : Z) : bool := match strchr set b with Some (Some _) => true | _ => false end.

Definition ptr : Type := list Z.
Definition word : Type := ptr * ptr.

(** [struct cmd] and its kinds, over what stands for a word of the line. *)
Inductive cmd (W : Type) : Type :=
| EXEC (argv : list W)
| REDIR (c : cmd W) (file : W) (mode fd : Z)
| PIPE (left right : cmd W)
| LIST (left right : cmd W)
| BACK (c : cmd W).
Arguments EXEC {W} argv.
Arguments REDIR {W} c file mode fd.
Arguments PIPE {W} left right.
Arguments LIST {W} left right.
Arguments BACK {W} c.

(** ** Tokens *)

Fixpoint skip_ws (s : ptr) : ptr :=
  match s with
  | b :: s' => if isin whitespace b then skip_ws s' else s
  | [] => []
  end.

Fixpoint skip_word (s : ptr) : ptr :=
  match s with
  | b :: s' => if negb (isin whitespace b) && negb (isin symbols b) then skip_word s' else s
  | [] => []
  end.

(** The token, [*q], [*eq] and the new [*ps]. *)
Definition gettoken (s : ptr) : Z * ptr * ptr * ptr :=
  let s := skip_ws s in
  let q := s in
  match s with
  | [] => (0, q, s, s)
  | c :: s1 =>
      if (c =? 124) || (c =? 40) || (c =? 41) || (c =? 59) || (c =? 38) || (c =? 60) then (c, q, s1, skip_ws s1)
      else if c =? 62 then
        match s1 with
        | d :: s2 => if d =? 62 then (43, q, s2, skip_ws s2) else (62, q, s1, skip_ws s1)
        | [] => (62, q, s1, skip_ws s1)
        end
      else let s2 := skip_word s in (97, q, s2, skip_ws s2)
  end.

(** The parser's state is [*ps]. *)
Definition token : cm ptr (Z * ptr * ptr) := λ s,
  let '(ret, q, eq, s') := gettoken s in Ok (ret, q, eq) s'.

Definition peek (toks : list Z) : cm ptr bool := λ s,
  let s := skip_ws s in
  Ok (match s with [] => false | b :: _ => isin toks b end) s.

(** The strings of tokens the parser looks for, with their ends. *)
Definition AMP : list Z := [38; 0].
Definition SEMI : list Z := [59; 0].
Definition BAR : list Z := [124; 0].
Definition ANGLES : list Z := [60; 62; 0].
Definition OPEN : list Z := [40; 0].
Definition CLOSE : list Z := [41; 0].
Definition STOPS : list Z := [124; 41; 38; 59; 0].

(** ** The parser *)

Record redir (W : Type) : Type := Rd { r_file : W; r_mode : Z; r_fd : Z }.
Arguments Rd {W} r_file r_mode r_fd.
Arguments r_file {W} r.
Arguments r_mode {W} r.
Arguments r_fd {W} r.
Definition wrap {W} (c : cmd W) (rs : list (redir W)) : cmd W := foldl (λ c r, REDIR c (r_file r) (r_mode r) (r_fd r)) c rs.

(** The loop of [parseredirs]: the redirections in the order they are put around the command. *)
Fixpoint redirs (n : nat) : cm ptr (list (redir word)) :=
  b ← peek ANGLES;
  if negb b then mret [] else
  match n with
  | O => ub "loop"
  | S n' =>
      t ← token;
      w ← token;
      let '(tok, _, _) := t in
      let '(ret, q, eq) := w in
      if negb (ret =? 97) then panic "missing file for redirection" else
      let new := if tok =? 60 then [Rd (q, eq) O_RDONLY 0]
                 else if tok =? 62 then [Rd (q, eq) (Z.lor O_WRONLY O_CREATE) 1]
                 else if tok =? 43 then [Rd (q, eq) (Z.lor O_WRONLY O_CREATE) 1]
                 else [] in
      rs ← redirs n';
      mret (new ++ rs)
  end.

Definition parseredirs (n : nat) (c : cmd word) : cm ptr (cmd word) := rs ← redirs n; mret (wrap c rs).

(** The loop of [parseexec] over the arguments; [rs] is what [ret] has around the command. *)
Fixpoint exec_args (n : nat) (argv : list word) (rs : list (redir word)) : cm ptr (list word * list (redir word)) :=
  b ← peek STOPS;
  if (b : bool) then mret (argv, rs) else
  match n with
  | O => ub "loop"
  | S n' =>
      t ← token;
      let '(tok, q, eq) := t in
      if tok =? 0 then mret (argv, rs) else
      if negb (tok =? 97) then panic "syntax" else
      let argv := argv ++ [(q, eq)] in
      if (MAXARGS <=? length argv)%nat then panic "too many args" else
      rs' ← redirs n';
      exec_args n' argv (rs ++ rs')
  end.

(** The loop of [parseline] over the ampersands. *)
Fixpoint backs (n : nat) (c : cmd word) : cm ptr (cmd word) :=
  b ← peek AMP;
  if negb b then mret c else
  match n with
  | O => ub "loop"
  | S n' => token ;; backs n' (BACK c)
  end.

Fixpoint parseline (n : nat) : cm ptr (cmd word) :=
  match n with
  | O => ub "loop"
  | S n' =>
      c ← parsepipe n';
      c ← backs n' c;
      b ← peek SEMI;
      if (b : bool) then token ;; r ← parseline n'; mret (LIST c r) else mret c
  end
with parsepipe (n : nat) : cm ptr (cmd word) :=
  match n with
  | O => ub "loop"
  | S n' =>
      c ← parseexec n';
      b ← peek BAR;
      if (b : bool) then token ;; r ← parsepipe n'; mret (PIPE c r) else mret c
  end
with parseexec (n : nat) : cm ptr (cmd word) :=
  match n with
  | O => ub "loop"
  | S n' =>
      b ← peek OPEN;
      if (b : bool) then parseblock n' else
      rs ← redirs n';
      r ← exec_args n' [] rs;
      mret (wrap (EXEC r.1) r.2)
  end
with parseblock (n : nat) : cm ptr (cmd word) :=
  match n with
  | O => ub "loop"
  | S n' =>
      b ← peek OPEN;
      if negb b then panic "parseblock" else
      token ;;
      c ← parseline n';
      b ← peek CLOSE;
      if negb b then panic "syntax - missing )" else
      token ;;
      parseredirs n' c
  end.

(** [*ap = 0] for the pointer [ap] into the line [buf]. *)
Definition put0 (buf : list Z) (ap : ptr) (mem : list Z) : list Z := <[(length buf - length ap)%nat := 0]> mem.

Fixpoint nulterminate (buf : list Z) (c : cmd word) (mem : list Z) : list Z :=
  match c with
  | EXEC argv => foldl (λ mem w, put0 buf w.2 mem) mem argv
  | REDIR c file _ _ => put0 buf file.2 (nulterminate buf c mem)
  | PIPE l r => nulterminate buf r (nulterminate buf l mem)
  | LIST l r => nulterminate buf r (nulterminate buf l mem)
  | BACK c => nulterminate buf c mem
  end.

(** The command and the contents of the buffer [mem] afterwards; [es] is the end of the line in it. *)
Definition parsecmd (mem : list Z) : outcome (list Z) (cmd word) :=
  let buf := cstr mem in
  match (c ← parseline (4 * length buf + 5); peek [0] ;; mret c) buf with
  | Ok c s => if (0 <? length s)%nat then Panic "syntax" else Ok c (nulterminate buf c mem)
  | Panic e => Panic e
  | Ub e => Ub e
  end.

(** The string a pointer into the line reads as. *)
Definition str (buf mem : list Z) (w : word) : list Z := cstr (drop (length buf - length w.1) mem).

(** ** Running a command *)

Definition NOFILE : nat := 16.

(** What a descriptor refers to: a file that was open already, one the shell opened, or
    an end of the pipe that the named process made. *)
Inductive handle : Type :=
| Given (n : nat)
| Opened (path : list Z) (mode : Z)
| ReadEnd (pipe : list nat)
| WriteEnd (pipe : list nat).

Definition fds : Type := list (option handle).

(** The descriptor calls, as [sys_close], [fdalloc] and [sys_dup] do them. *)
Definition close (fd : nat) (T : fds) : fds := match T !! fd with Some _ => <[fd := None]> T | None => T end.
Fixpoint fdalloc (h : handle) (T : fds) : option (nat * fds) :=
  match T with
  | [] => None
  | None :: T' => Some (O, Some h :: T')
  | Some x :: T' => match fdalloc h T' with Some (fd, T'') => Some (S fd, Some x :: T'') | None => None end
  end.
Definition dup (fd : nat) (T : fds) : fds :=
  match T !! fd with
  | Some (Some h) => match fdalloc h T with Some (_, T') => T' | None => T end
  | _ => T
  end.
Set Warnings "-register-all".

(** What a process does: it tries to become a program, says something on descriptor 2,
    makes a child, or waits for one. *)
Inductive act : Type :=
| Exec (argv : list (list Z)) (T : fds)
| Say (msg : string)
| Fork (child : list act)
| Wait.

(** The calls whose outcome the system decides: [open], [exec], [fork] and [chdir], and whether there is
    memory for a pipe ([pipealloc]). *)
Class Kernel : Type := {
  opens : list Z -> Z -> bool;
  execs : list (list Z) -> bool;
  forks : list nat -> bool;
  pipes : list nat -> bool;
  chdirs : list Z -> bool;
}.

Section Run.
Context `{K : Kernel} (string_of : word -> list Z).

(** [sys_pipe] after its argument, an array of the caller, is fetched. *)
Definition pipe (who : list nat) (T : fds) : option (nat * nat * fds) :=
  if pipes who then
    match fdalloc (ReadEnd who) T with
    | Some (fd0, T1) => match fdalloc (WriteEnd who) T1 with Some (fd1, T2) => Some (fd0, fd1, T2) | None => None end
    | None => None
    end
  else None.

(** [fork1]: the process stops when there is no child. *)
Definition fork1 (who : list nat) (child parent : list act) : list act :=
  if forks who then Fork child :: parent else [Say "fork"].

(** The process [who] with the descriptors [T]; it calls [exit] at the end of the list.
    A process makes one pipe at most, which has its name. *)
Fixpoint runcmd (c : cmd word) (who : list nat) (T : fds) : list act :=
  match c with
  | EXEC argv =>
      match argv with
      | [] => []
      | _ :: _ => Exec (string_of <$> argv) T :: (if execs (string_of <$> argv) then [] else [Say "exec failed"])
      end
  | REDIR c file mode fd =>
      let T := close (Z.to_nat fd) T in
      if opens (string_of file) mode
      then match fdalloc (Opened (string_of file) mode) T with
           | Some (_, T') => runcmd c who T'
           | None => [Say "open failed"]
           end
      else [Say "open failed"]
  | LIST l r => fork1 (0%nat :: who) (runcmd l (0%nat :: who) T) (Wait :: runcmd r (1%nat :: who) T)
  | PIPE l r =>
      match pipe who T with
      | None => [Say "pipe"]
      | Some (p0, p1, T) =>
          fork1 (0%nat :: who) (runcmd l (0%nat :: who) (close p1 (close p0 (dup p1 (close 1 T)))))
            (fork1 (1%nat :: who) (runcmd r (1%nat :: who) (close p1 (close p0 (dup p0 (close 0 T)))))
               [Wait; Wait])
      end
  | BACK c => fork1 (0%nat :: who) (runcmd c (0%nat :: who) T) []
  end.
End Run.

(** ** The loop of the shell *)

Definition NBUF : nat := 100.

(** [gets] reads one byte at a time; what is left of the input. *)
Fixpoint gets_bytes (room : nat) (input : list Z) : list Z * list Z :=
  match room, input with
  | S room', c :: input' =>
      if (c =? 10) || (c =? 13) then ([c], input')
      else let r := gets_bytes room' input' in (c :: r.1, r.2)
  | _, _ => ([], input)
  end.

(** The buffer after [memset] and [gets], and the rest of the input. *)
Definition getcmd (input : list Z) : option (list Z * list Z) :=
  let r := gets_bytes (NBUF - 1) input in
  let buf := r.1 ++ replicate (NBUF - length r.1) 0 in
  if nth 0 buf 0 =? 0 then None else Some (buf, r.2).

Inductive shell_act : Type :=
| Chdir (path : list Z)
| Child (acts : list act)
| Shell (a : act).

Section Loop.
Context `{K : Kernel}.

(** What the child of [main] does with the line in [buf]. *)
Definition child (who : list nat) (T : fds) (mem : list Z) : list act :=
  match parsecmd mem with
  | Ok c mem' => runcmd (str (cstr mem) mem') c who T
  | Panic e => [Say e]
  | Ub e => [Say e]
  end.

(** [main]'s second loop; [k] counts the children. *)
Fixpoint main_loop (n k : nat) (T : fds) (input : list Z) : option (list shell_act) :=
  match getcmd input with
  | None => Some [Shell (Say "$ ")]
  | Some (buf, input') =>
      match n with
      | O => None
      | S n' =>
          if (nth 0 buf 0 =? 99) && (nth 1 buf 0 =? 100) && (nth 2 buf 0 =? 32) then
            let buf := <[(length (cstr buf) - 1)%nat := 0]> buf in
            let path := cstr (drop 3 buf) in
            (λ l, Shell (Say "$ ") :: Chdir path :: (if chdirs path then l else Shell (Say "cannot cd") :: l))
              <$> main_loop n' k T input'
          else if forks [k] then
            (λ l, Shell (Say "$ ") :: Child (child [k] T buf) :: Shell Wait :: l) <$> main_loop n' (S k) T input'
          else Some [Shell (Say "$ "); Shell (Say "fork")]
      end
  end.

(** [main]'s first loop, over what is left of the table. *)
Fixpoint open_console (n : nat) (T : fds) : fds :=
  match n with
  | O => T
  | S n' =>
      match fdalloc (Opened [99; 111; 110; 115; 111; 108; 101] 2) T with
      | None => T
      | Some (fd, T') => if (3 <=? fd)%nat then close fd T' else open_console n' T'
      end
  end.

Definition main (T : fds) (input : list Z) : option (list shell_act) :=
  main_loop (length input) 0 (open_console NOFILE T) input.
End Loop.
