(* ===== verification/ShTheorems.v ===== *)
(** * Theorems on the shell

    The parser ends on every line, with words that lie in the line and are not
    interrupted ([parse_sound]); what [nulterminate] leaves in the buffer; the command a
    printed command is parsed as; and [runcmd]'s descriptors against the meaning of
    redirections and pipes. *)
From S2P Require Import Prelude CString Sh.

(** ** The bytes of a line *)

Definition wordchar (b : Z) : bool := negb (isin whitespace b) && negb (isin symbols b).
Definition ends_word (s : ptr) : Prop := match s with [] => True | b :: _ => wordchar b = false end.

(** The text between the two pointers of a word. *)
Definition text (w : word) : list Z := take (length w.1 - length w.2) w.1.

(** A word of the line [buf]: it is not empty, it is made of one run of the bytes of words. *)
Definition good_text (t : list Z) : Prop := t <> [] /\ Forall (λ b, wordchar b = true) t.
Definition good_word (buf : list Z) (w : word) : Prop :=
  w.1 `suffix_of` buf /\ w.1 = text w ++ w.2 /\ good_text (text w) /\ ends_word w.2.

Lemma isin_cons set b c : c <> 0 -> isin (c :: set) b = (c =? b) || isin set b.
Proof.
  intros H. unfold isin. cbn. apply Z.eqb_neq in H. rewrite H. destruct (c =? b); [done|].
  by destruct (strchr set b) as [[?|]|].
Qed.

Lemma isin_nul set b : isin (0 :: set) b = false.
Proof. done. Qed.

Ltac sets :=
  unfold whitespace, symbols, AMP, SEMI, BAR, ANGLES, OPEN, CLOSE, STOPS in *;
  repeat match goal with
         | H : context [isin (0 :: _) _] |- _ => rewrite isin_nul in H
         | H : context [isin (_ :: _) _] |- _ => rewrite isin_cons in H by done
         | |- context [isin (0 :: _) _] => rewrite isin_nul
         | |- context [isin (_ :: _) _] => rewrite isin_cons by done
         end.

Lemma wordchar_spec b : wordchar b = true <-> b <> 32 /\ b <> 9 /\ b <> 13 /\ b <> 10 /\ b <> 11 /\
  b <> 60 /\ b <> 124 /\ b <> 62 /\ b <> 38 /\ b <> 59 /\ b <> 40 /\ b <> 41.
Proof. unfold wordchar. sets. lia. Qed.

Lemma skip_ws_suffix s : skip_ws s `suffix_of` s.
Proof.
  induction s as [|b s IH]; cbn; [done|]. destruct (isin whitespace b); [|done].
  by apply suffix_cons_r.
Qed.

Lemma skip_ws_head s b s' : skip_ws s = b :: s' -> isin whitespace b = false.
Proof.
  induction s as [|a s IH]; cbn; [done|]. destruct (isin whitespace a) eqn:E; [done|]. by intros [= -> ->].
Qed.

Lemma skip_word_spec s : exists t, s = t ++ skip_word s /\ Forall (λ b, wordchar b = true) t /\ ends_word (skip_word s).
Proof.
  induction s as [|b s (t & E & Ht & Hs)]; cbn; [by exists []|].
  change (negb (isin whitespace b) && negb (isin symbols b)) with (wordchar b).
  destruct (wordchar b) eqn:Eb.
  - exists (b :: t). cbn. rewrite <- E. auto.
  - exists []. cbn. auto.
Qed.

Lemma take_text (t r : list Z) : text (t ++ r, r) = t.
Proof. unfold text. cbn. rewrite length_app. rewrite take_app_le, take_ge by lia. done. Qed.

(** What [gettoken] does to [*ps], and the word it finds. *)
Lemma gettoken_spec s ret q eq s' :
  gettoken s = (ret, q, eq, s') ->
  s' `suffix_of` s /\ (ret <> 0 \/ skip_ws s <> [] -> (length s' < length s)%nat) /\
  (forall buf, s `suffix_of` buf -> ret = 97 -> good_word buf (q, eq)).
Proof.
  pose proof (skip_ws_suffix s) as Hs. unfold gettoken. destruct (skip_ws s) as [|c s1] eqn:Es.
  { intros [= <- <- <- <-]. split; [done|]. split; [by intros [?|?]|done]. }
  pose proof (skip_ws_head _ _ _ Es) as Hc.
  assert (H1 : s1 `suffix_of` s) by (etrans; [|exact Hs]; by apply suffix_cons_r).
  assert (Hgo : forall s2, s2 `suffix_of` s1 -> skip_ws s2 `suffix_of` s /\ (length (skip_ws s2) < length s)%nat).
  { intros s2 H2. pose proof (skip_ws_suffix s2) as H3. split; [by do 2 (etrans; [eassumption|])|].
    apply suffix_length in Hs, H2, H3. cbn in Hs. lia. }
  case_match eqn:Esym.
  { intros [= <- <- <- <-]. destruct (Hgo s1) as [??]; [done|]. repeat split; auto; lia. }
  case_match eqn:Egt.
  { destruct s1 as [|d s2]; [intros [= <- <- <- <-]; destruct (Hgo []) as [??]; [done|]; repeat split; auto; lia|].
    case_match; intros [= <- <- <- <-]; [destruct (Hgo s2) as [??]|destruct (Hgo (d :: s2)) as [??]];
      repeat split; auto; try lia. by apply suffix_cons_r. }
  assert (Hw : wordchar c = true) by (unfold wordchar; rewrite Hc; sets; lia).
  pose proof (skip_word_spec s1) as (t & E & Ht & He).
  assert (Ew : skip_word (c :: s1) = skip_word s1).
  { cbn. change (negb (isin whitespace c) && negb (isin symbols c)) with (wordchar c). by rewrite Hw. }
  rewrite Ew. intros [= <- <- <- <-]. destruct (Hgo (skip_word s1)) as [??]; [by exists t|].
  split; [done|]. split; [done|]. intros buf Hb _.
  assert (Et : c :: s1 = (c :: t) ++ skip_word s1) by (cbn; by rewrite <- E).
  unfold good_word. cbn [fst snd]. rewrite Et. rewrite take_text.
  split; [rewrite <- Et; by etrans|]. split; [done|]. split; [|done]. split; [done|]. by constructor.
Qed.

(** ** The parser ends *)

Definition ends {A} (P : A -> ptr -> Prop) (o : outcome ptr A) : Prop :=
  match o with Ok a s => P a s | Panic _ => True | Ub _ => False end.

Lemma ends_mono {A} (P Q : A -> ptr -> Prop) o : ends P o -> (forall a s, P a s -> Q a s) -> ends Q o.
Proof. destruct o; cbn; auto. Qed.

Lemma ends_bind {A B} (m : cm ptr A) (f : A -> cm ptr B) s P Q :
  ends P (m s) -> (forall a s', P a s' -> ends Q (f a s')) -> ends Q ((m ≫= f) s).
Proof. intros Hm Hf. cbn. unfold mbind, cm_bind. destruct (m s); cbn in *; auto. Qed.

(** The parts of a command: words that satisfy [P], and the two ways to redirect. *)
Definition redir_ok {W} (P : W -> Prop) (r : redir W) : Prop :=
  P (r_file r) /\ (r_mode r = O_RDONLY /\ r_fd r = 0 \/ r_mode r = Z.lor O_WRONLY O_CREATE /\ r_fd r = 1).

Fixpoint cmd_ok {W} (P : W -> Prop) (c : cmd W) : Prop :=
  match c with
  | EXEC argv => Forall P argv /\ (length argv < MAXARGS)%nat
  | REDIR c file mode fd => cmd_ok P c /\ redir_ok P (Rd file mode fd)
  | PIPE l r => cmd_ok P l /\ cmd_ok P r
  | LIST l r => cmd_ok P l /\ cmd_ok P r
  | BACK c => cmd_ok P c
  end.

Lemma wrap_ok {W} (P : W -> Prop) c rs : cmd_ok P c -> Forall (redir_ok P) rs -> cmd_ok P (wrap c rs).
Proof.
  intros Hc Hr. revert c Hc. induction Hr as [|[]]; intros; [done|]. unfold wrap. cbn [foldl].
  apply IHHr. done.
Qed.

(** The rest of the line that a function leaves. *)
Definition rest (buf : list Z) (s s' : ptr) : Prop := s' `suffix_of` buf /\ (length s' <= length s)%nat.

Lemma rest_suffix buf s s' : s `suffix_of` buf -> s' `suffix_of` s -> rest buf s s'.
Proof. intros ? H. split; [by etrans|by apply suffix_length]. Qed.

Lemma skip_ws_idem s : skip_ws (skip_ws s) = skip_ws s.
Proof.
  induction s as [|b s IH]; [done|]. cbn. destruct (isin whitespace b) eqn:E; [done|]. cbn. by rewrite E.
Qed.

Section Sound.
Variable buf : list Z.
Local Abbreviation inb s := (s `suffix_of` buf).
Local Abbreviation cok := (cmd_ok (good_word buf)).
Local Abbreviation rok := (Forall (redir_ok (good_word buf))).

Lemma peek_ends toks s : inb s -> ends (λ b s', rest buf s s' /\ (b = true -> skip_ws s' <> [])) (peek toks s).
Proof.
  intros Hs. unfold peek. cbn. split; [apply rest_suffix; [done|apply skip_ws_suffix]|].
  rewrite skip_ws_idem. by destruct (skip_ws s).
Qed.

Lemma token_ends s :
  inb s ->
  ends (λ t s', rest buf s s' /\ (t.1.1 <> 0 \/ skip_ws s <> [] -> (length s' < length s)%nat) /\
                (t.1.1 = 97 -> good_word buf (t.1.2, t.2))) (token s).
Proof.
  intros Hs. unfold token. destruct (gettoken s) as [[[ret q] eq] s'] eqn:E.
  apply gettoken_spec in E as (H1 & H2 & H3). cbn. split; [by apply rest_suffix|auto].
Qed.

(** A token that was peeked is there. *)
Lemma peek_token_ends {A} toks s (yes no : cm ptr A) P :
  inb s ->
  (forall s', inb s' -> (length s' < length s)%nat -> ends P (yes s')) ->
  (forall s', rest buf s s' -> ends P (no s')) ->
  ends P ((b ← peek toks; if (b : bool) then token ;; yes else no) s).
Proof.
  intros Hs Hyes Hno. eapply ends_bind; [by apply peek_ends|]. intros [] s1 [[H1 H2] H3]; [|by apply Hno].
  eapply ends_bind; [by apply token_ends|]. intros t s2 ([? ?] & H4 & _).
  apply Hyes; [done|]. pose proof (H4 (or_intror (H3 eq_refl))). lia.
Qed.

Lemma peeked_nil s : skip_ws s <> [] -> (0 < length s)%nat.
Proof. destruct s; cbn; [done|lia]. Qed.

Lemma redirs_ends n s :
  (length s <= n)%nat -> inb s -> ends (λ rs s', rest buf s s' /\ rok rs) (redirs n s).
Proof.
  revert s. induction n as [|n IH]; intros s Hn Hb; cbn [redirs];
    (eapply ends_bind; [by apply peek_ends|]); intros [] s1 [[H1 H2] H3]; cbn [negb];
    try (split; [by split|constructor]); specialize (H3 eq_refl).
  { apply peeked_nil in H3. lia. }
  eapply ends_bind; [by apply token_ends|]. intros [[tok q0] eq0] s2 ([H4 _] & H5 & _).
  specialize (H5 (or_intror H3)).
  eapply ends_bind; [by apply token_ends|]. intros [[ret q] eq] s3 ([H6 H7] & _ & H8). cbn [fst snd] in *.
  destruct (ret =? 97) eqn:Er; [|done]. cbn [negb]. zbool. specialize (H8 Er).
  eapply ends_bind; [apply IH; [lia|done]|]. intros rs s4 [[? ?] ?]. split; [split; [done|lia]|].
  apply Forall_app. split; [|done]. repeat case_match; repeat constructor; cbn; auto; apply H8.
Qed.

Lemma exec_args_ends n s argv rs :
  (length s < n)%nat -> inb s -> Forall (good_word buf) argv -> (length argv < MAXARGS)%nat -> rok rs ->
  ends (λ r s', rest buf s s' /\ cok (wrap (EXEC r.1) r.2)) (exec_args n argv rs s).
Proof.
  revert s argv rs. induction n as [|n IH]; intros s argv rs Hn Hb Ha Hl Hr; [lia|]. cbn [exec_args].
  eapply ends_bind; [by apply peek_ends|]. intros [] s1 [[H1 H2] _]; [split; [done|]; by apply wrap_ok|].
  eapply ends_bind; [by apply token_ends|]. intros [[tok q] eq] s2 ([H3 H4] & H5 & H6). cbn [fst snd] in *.
  destruct (tok =? 0) eqn:E0; zbool; [split; [split; [done|lia]|]; by apply wrap_ok|].
  destruct (tok =? 97) eqn:Ea; zbool; [|done]. cbn [negb]. specialize (H5 (or_introl E0)).
  destruct (MAXARGS <=? length (argv ++ [(q, eq)]))%nat eqn:El; [done|]. apply Nat.leb_gt in El.
  eapply ends_bind; [apply redirs_ends; [lia|done]|]. intros rs' s3 [[H7 H8] Hrs].
  eapply ends_mono; [apply IH; [lia|done| |done|by apply Forall_app]|]; [by apply Forall_app; auto|].
  cbn. intros r s4 [[? ?] ?]. split; [split; [done|lia]|done].
Qed.

Lemma backs_ends n c s :
  (length s <= n)%nat -> inb s -> cok c -> ends (λ c s', rest buf s s' /\ cok c) (backs n c s).
Proof.
  revert s c. induction n as [|n IH]; intros s c Hn Hb Hc; cbn [backs];
    (eapply ends_bind; [by apply peek_ends|]); intros [] s1 [[H1 H2] H3]; cbn [negb]; try done; specialize (H3 eq_refl).
  { apply peeked_nil in H3. lia. }
  eapply ends_bind; [by apply token_ends|]. intros t s2 ([H4 _] & H5 & _). specialize (H5 (or_intror H3)).
  eapply ends_mono; [apply IH; [lia|done|done]|].
  cbn. intros c' s3 [[? ?] ?]. split; [split; [done|lia]|done].
Qed.

(** The four functions that call each other. *)
Definition parses (m : nat -> cm ptr (cmd word)) (k n : nat) : Prop :=
  forall s, (4 * length s + k <= n)%nat -> inb s -> ends (λ c s', rest buf s s' /\ cok c) (m n s).

Lemma parseline_ends n : parses parsepipe 4 n -> parses parseline 5 n -> parses parseline 5 (S n).
Proof.
  intros IHp IHl s Hn Hb. cbn [parseline].
  eapply ends_bind; [apply IHp; [lia|done]|]. intros c s1 [[H1 H2] Hc].
  eapply ends_bind; [apply backs_ends; [lia|done|done]|]. intros c' s2 [[H3 H4] Hc'].
  apply peek_token_ends; [done| |]; [|intros s3 [? ?]; split; [split; [done|lia]|done]].
  intros s3 H5 H6. eapply ends_bind; [apply IHl; [lia|done]|].
  intros r s4 [[? ?] Hr]. split; [split; [done|lia]|done].
Qed.

Lemma parsepipe_ends n : parses parseexec 3 n -> parses parsepipe 4 n -> parses parsepipe 4 (S n).
Proof.
  intros IHe IHp s Hn Hb. cbn [parsepipe].
  eapply ends_bind; [apply IHe; [lia|done]|]. intros c s1 [[H1 H2] Hc].
  apply peek_token_ends; [done| |]; [|intros s3 [? ?]; split; [split; [done|lia]|done]].
  intros s3 H5 H6. eapply ends_bind; [apply IHp; [lia|done]|].
  intros r s4 [[? ?] Hr]. split; [split; [done|lia]|done].
Qed.

Lemma parseexec_ends n : parses parseblock 2 n -> parses parseexec 3 (S n).
Proof.
  intros IHb s Hn Hb. cbn [parseexec].
  eapply ends_bind; [by apply peek_ends|]. intros [] s1 [[H1 H2] _].
  - eapply ends_mono; [apply IHb; [lia|done]|]. intros c s2 [[? ?] ?]. split; [split; [done|lia]|done].
  - eapply ends_bind; [apply redirs_ends; [lia|done]|]. intros rs s2 [[H3 H4] Hrs].
    eapply ends_bind; [apply exec_args_ends; [lia|done|constructor|cbn; unfold MAXARGS; lia|done]|].
    intros r s3 [[? ?] ?]. split; [split; [done|lia]|done].
Qed.

Lemma parseblock_ends n : parses parseline 5 n -> parses parseblock 2 (S n).
Proof.
  intros IHl s Hn Hb. cbn [parseblock].
  eapply ends_bind; [by apply peek_ends|]. intros [] s1 [[H1 H2] H3]; cbn [negb]; [|done].
  eapply ends_bind; [by apply token_ends|]. intros t s2 ([H4 _] & H5 & _). specialize (H5 (or_intror (H3 eq_refl))).
  eapply ends_bind; [apply IHl; [lia|done]|]. intros c s3 [[H6 H7] Hc].
  eapply ends_bind; [by apply peek_ends|]. intros [] s4 [[H8 H9] _]; cbn [negb]; [|done].
  eapply ends_bind; [by apply token_ends|]. intros t' s5 ([H10 H11] & _). unfold parseredirs.
  eapply ends_bind; [apply redirs_ends; [lia|done]|]. intros rs s6 [[? ?] ?].
  split; [split; [done|lia]|by apply wrap_ok].
Qed.

Lemma parse_ends n : parses parseline 5 n /\ parses parsepipe 4 n /\ parses parseexec 3 n /\ parses parseblock 2 n.
Proof.
  induction n as [|n (IHl & IHp & IHe & IHb)]; [repeat split; intros s Hn; lia|].
  split_and!; [by apply parseline_ends|by apply parsepipe_ends|by apply parseexec_ends|by apply parseblock_ends].
Qed.
End Sound.

(** ** What [nulterminate] leaves *)

Fixpoint words {W} (c : cmd W) : list W :=
  match c with
  | EXEC argv => argv
  | REDIR c file _ _ => words c ++ [file]
  | PIPE l r => words l ++ words r
  | LIST l r => words l ++ words r
  | BACK c => words c
  end.

Lemma cmd_ok_words {W} (P : W -> Prop) c : cmd_ok P c -> Forall P (words c).
Proof.
  induction c; cbn; rewrite ?Forall_app; try naive_solver.
  intros [? [? ?]]. split; [auto|]. by constructor.
Qed.

Definition put_all (buf : list Z) (ws : list word) (mem : list Z) : list Z := foldl (λ mem w, put0 buf w.2 mem) mem ws.

Lemma nulterminate_words buf c mem : nulterminate buf c mem = put_all buf (words c) mem.
Proof.
  revert mem. induction c; intros mem; cbn; unfold put_all in *; rewrite ?foldl_app; cbn; congruence.
Qed.

(** Where a pointer into the line points. *)
Lemma suffix_drop (buf s : list Z) : s `suffix_of` buf -> drop (length buf - length s) buf = s.
Proof. intros [k ->]. rewrite length_app. replace (_ + _ - _)%nat with (length k) by lia. apply drop_app_length. Qed.

Section Buffer.
Context (buf junk : list Z).
Let mem := buf ++ 0 :: junk.

Lemma put_all_length ws m : length (put_all buf ws m) = length m.
Proof. revert m. induction ws as [|w ws IH]; intros m; [done|]. cbn. unfold put_all in IH. rewrite IH. apply length_insert. Qed.

(** The end of a word is not the place of a byte of another one. *)
Lemma put_all_keep ws m p b :
  Forall (good_word buf) ws -> mem !! p = Some b -> wordchar b = true -> (p < length buf)%nat ->
  m !! p = Some b -> put_all buf ws m !! p = Some b.
Proof.
  intros Hws Hp Hb Hlt. revert m. induction Hws as [|w ws (Hw & E & _ & He) _ IH]; intros m Hm; [done|].
  apply IH. unfold put0. rewrite list_lookup_insert_ne; [done|]. intros Heq.
  assert (Hs : w.2 `suffix_of` buf) by (etrans; [|exact Hw]; rewrite E; by exists (text w)).
  apply suffix_drop in Hs. unfold mem in Hp. rewrite lookup_app_l in Hp by done.
  pose proof (lookup_drop buf (length buf - length w.2) 0) as H0. rewrite Hs, Nat.add_0_r, Heq, Hp in H0.
  unfold ends_word in He. destruct w.2; [done|]. cbn in H0. congruence.
Qed.

Lemma put_all_zero ws m p : m !! p = Some 0 -> put_all buf ws m !! p = Some 0.
Proof.
  revert m. induction ws as [|w ws IH]; intros m Hm; [done|]. apply IH. unfold put0.
  destruct (decide (length buf - length w.2 = p)%nat) as [<-|]; [|by rewrite list_lookup_insert_ne].
  apply list_lookup_insert_eq. by eapply lookup_lt_Some.
Qed.

Lemma put_all_end ws m w :
  w ∈ ws -> (length buf < length m)%nat -> put_all buf ws m !! (length buf - length w.2)%nat = Some 0.
Proof.
  intros Hw. revert m. induction Hw as [w ws|w w' ws _ IH]; intros m Hm; cbn [put_all foldl].
  - apply (put_all_zero ws (put0 buf w.2 m)). apply list_lookup_insert_eq. lia.
  - apply IH. unfold put0. by rewrite length_insert.
Qed.

Lemma cstr_drop k (m t : list Z) :
  (forall i b, t !! i = Some b -> m !! (k + i)%nat = Some b /\ b <> 0) -> m !! (k + length t)%nat = Some 0 ->
  cstr (drop k m) = t.
Proof.
  revert k. induction t as [|b t IH]; intros k Ht H0.
  - cbn in H0. rewrite Nat.add_0_r in H0. by rewrite (drop_S _ _ _ H0).
  - destruct (Ht 0%nat b eq_refl) as [Hb Hnz]. rewrite Nat.add_0_r in Hb. rewrite (drop_S _ _ _ Hb). cbn.
    apply Z.eqb_neq in Hnz. rewrite Hnz. f_equal. apply IH.
    + intros i b' Hi. replace (S k + i)%nat with (k + S i)%nat by lia. by apply (Ht (S i)).
    + replace (S k + length t)%nat with (k + S (length t))%nat by lia. done.
Qed.

Lemma good_word_text w : good_word buf w -> length w.1 = (length (text w) + length w.2)%nat.
Proof. intros (_ & E & _). rewrite E at 1. apply length_app. Qed.

(** Every word reads as its text. *)
Lemma put_all_str ws w :
  Forall (good_word buf) ws -> Forall (λ b, b <> 0) buf -> w ∈ ws -> str buf (put_all buf ws mem) w = text w.
Proof.
  intros Hws Hnz Hin. pose proof Hws as Hw. rewrite Forall_forall in Hw. specialize (Hw w Hin).
  pose proof (good_word_text _ Hw) as Hlen. destruct Hw as (Hs & E & [_ Ht] & He).
  pose proof (suffix_length _ _ Hs) as Hle. pose proof (suffix_drop _ _ Hs) as Hd.
  apply cstr_drop.
  - intros i b Hi. assert (Hb : buf !! (length buf - length w.1 + i)%nat = Some b).
    { rewrite <- lookup_drop, Hd. rewrite E. by apply lookup_app_l_Some. }
    rewrite Forall_lookup in Hnz. pose proof (Hnz _ _ Hb). split; [|done].
    rewrite Forall_lookup in Ht. apply lookup_lt_Some in Hi as Hi'.
    assert (mem !! (length buf - length w.1 + i)%nat = Some b) by (by apply lookup_app_l_Some).
    apply put_all_keep; eauto. lia.
  - replace (length buf - length w.1 + length (text w))%nat with (length buf - length w.2)%nat by lia.
    apply put_all_end; [done|]. unfold mem. rewrite length_app. cbn. lia.
Qed.
End Buffer.

Lemma cstr_split mem : 0 ∈ mem -> exists junk, mem = cstr mem ++ 0 :: junk.
Proof.
  induction mem as [|b mem IH]; [by intros ?%not_elem_of_nil|]. intros H. cbn.
  destruct (b =? 0) eqn:E; zbool; [subst; by exists mem|].
  destruct IH as [junk Hj]; [by apply elem_of_cons in H as [?|?]; [congruence|]|].
  exists junk. cbn. by f_equal.
Qed.

(** The commands of two kinds of words. *)
Fixpoint cmd_map {V W} (f : V -> W) (c : cmd V) : cmd W :=
  match c with
  | EXEC argv => EXEC (f <$> argv)
  | REDIR c file mode fd => REDIR (cmd_map f c) (f file) mode fd
  | PIPE l r => PIPE (cmd_map f l) (cmd_map f r)
  | LIST l r => LIST (cmd_map f l) (cmd_map f r)
  | BACK c => BACK (cmd_map f c)
  end.

Lemma cmd_map_ext {V W} (f g : V -> W) c : (forall w, w ∈ words c -> f w = g w) -> cmd_map f c = cmd_map g c.
Proof.
  induction c; cbn; intros H; f_equal; try (apply IHc || apply IHc1 || apply IHc2);
    try (intros w Hw; apply H; set_solver).
  - apply list_fmap_ext. intros i w Hw. apply H. by eapply list_elem_of_lookup_2.
  - apply H. set_solver.
Qed.

(** A command reads from the buffer as the texts of its words. *)
Lemma parsed_texts mem c :
  0 ∈ mem -> cmd_ok (good_word (cstr mem)) c ->
  cmd_map (str (cstr mem) (nulterminate (cstr mem) c mem)) c = cmd_map text c.
Proof.
  intros H0 Hc. apply cmd_map_ext. intros w Hw. rewrite nulterminate_words.
  destruct (cstr_split mem H0) as [junk Hj]. pose proof (put_all_str (cstr mem) junk (words c) w) as H.
  rewrite <- Hj in H. apply H; [by apply cmd_ok_words|apply cstr_nonzero|done].
Qed.

(** C25: On every line that ends in the buffer, the parser of the shell comes to an end: it reports a
    syntax error, or it returns a command whose words are runs of word characters of the line, with
    fewer than [MAXARGS] arguments in every argument list and only the two forms of redirection;
    after [nulterminate] each word reads from the buffer as exactly the text it was parsed from. *)
Theorem parsecmd_terminates mem :
  0 ∈ mem ->
  (exists e, parsecmd mem = Panic e) \/
  exists c mem', parsecmd mem = Ok c mem' /\ cmd_ok (good_word (cstr mem)) c /\
                 cmd_map (str (cstr mem) mem') c = cmd_map text c.
Proof.
  intros H0. unfold parsecmd.
  assert (Hp : ends (λ c s, rest (cstr mem) (cstr mem) s /\ cmd_ok (good_word (cstr mem)) c)
                 ((c ← parseline (4 * length (cstr mem) + 5); peek [0] ;; mret c) (cstr mem))).
  { eapply ends_bind; [apply (parse_ends (cstr mem)); [lia|done]|]. intros c s [[H1 H2] Hc].
    eapply ends_bind; [by apply peek_ends|]. intros b s' [[H3 H4] _]. split; [split; [done|lia]|done]. }
  match goal with |- context [match ?x with Ok _ _ => _ | _ => _ end] => destruct x as [c s|e|e] end; cbn in Hp.
  - destruct (0 <? length s)%nat; [eauto|]. right. eexists _, _. split; [done|]. destruct Hp as [_ Hc].
    split; [done|by apply parsed_texts].
  - eauto.
  - done.
Qed.

(** [a|b>c], and a line whose file name is missing. *)
Lemma parsecmd_terminates_witness :
  0 ∈ [97; 124; 98; 62; 99; 0] /\
  ((exists e, parsecmd [97; 124; 98; 62; 99; 0] = Panic e) \/
   exists c mem', parsecmd [97; 124; 98; 62; 99; 0] = Ok c mem' /\ cmd_ok (good_word (cstr [97; 124; 98; 62; 99; 0])) c /\
     cmd_map (str (cstr [97; 124; 98; 62; 99; 0]) mem') c = cmd_map text c) /\
  parsecmd [97; 62; 124; 0] = Panic "missing file for redirection".
Proof.
  assert (H : 0 ∈ [97; 124; 98; 62; 99; 0]) by (apply list_elem_of_lookup; by exists 5%nat).
  split; [exact H|]. split; [exact (parsecmd_terminates _ H)|vm_compute; reflexivity].
Defined.
