(* ===== verification/ShPrint.v ===== *)
(** * Printing and parsing commands

    [print] writes a command as a line, with parentheses where the grammar of
    [src/sh.c] needs them; the parser reads the line back as the same command. *)
From S2P Require Import Prelude CString Sh ShTheorems.

(** ** The printer

    The level says what may stand here without parentheses: 0 a simple command, 1 also a
    pipeline, 2 also a background command, 3 also a list. *)

Definition pword (w : list Z) : list Z := w ++ [32].
Definition predir (r : redir (list Z)) : list Z := (if r_fd r =? 0 then 60 else 62) :: pword (r_file r).
Definition paren (b : bool) (s : list Z) : list Z := if b then [40] ++ s ++ [41] else s.

Fixpoint print (level : nat) (t : cmd (list Z)) : list Z :=
  match t with
  | EXEC argv => concat (pword <$> argv)
  | REDIR c file mode fd => print 0 c ++ predir (Rd file mode fd)
  | PIPE l r => paren (level <? 1)%nat (print 0 l ++ [124] ++ print 1 r)
  | BACK c => paren (level <? 2)%nat (print 2 c ++ [38])
  | LIST l r => paren (level <? 3)%nat (print 2 l ++ [59] ++ print 3 r)
  end.

(** ** Tokens of a printed line *)

(** Nothing to skip; and a place where a command may end. *)
Definition tight (s : ptr) : Prop := skip_ws s = s.
Definition stops (toks : list Z) (s : ptr) : Prop := match s with [] => True | b :: _ => isin toks b = true end.

Lemma tight_cons b s : isin whitespace b = false -> tight (b :: s).
Proof. intros H. unfold tight. cbn. by rewrite H. Qed.

Lemma skip_tight s : tight s -> skip_ws s = s.
Proof. done. Qed.

Lemma stops_tight s : stops STOPS s -> tight s.
Proof. destruct s as [|b s]; [done|]. cbn. intros H. apply tight_cons. sets. lia. Qed.

Lemma peek_tight toks s : tight s -> peek toks s = Ok (match s with [] => false | b :: _ => isin toks b end) s.
Proof. unfold tight, peek. by intros ->. Qed.

Lemma token_symbol b s :
  isin [124; 40; 41; 59; 38; 60; 0] b = true -> tight s -> token (b :: s) = Ok (b, b :: s, s) s.
Proof.
  intros Hb Hs. unfold token, gettoken. rewrite skip_tight by (apply tight_cons; sets; lia).
  replace (_ || _) with true by (sets; lia). by rewrite Hs.
Qed.

Lemma token_gt s : tight s -> wordchar (hd 0 s) = true -> token (62 :: s) = Ok (62, 62 :: s, s) s.
Proof.
  intros Hs Hw. unfold token, gettoken. rewrite skip_tight by by apply tight_cons. cbn.
  destruct s as [|d s]; [done|]. destruct (d =? 62) eqn:E; zbool; [|by rewrite Hs].
  subst. done.
Qed.

Lemma skip_word_app t s : Forall (λ b, wordchar b = true) t -> skip_word (t ++ 32 :: s) = 32 :: s.
Proof.
  induction 1 as [|b t Hb _ IH]; [done|]. cbn [app skip_word].
  change (negb (isin whitespace b) && negb (isin symbols b)) with (wordchar b). by rewrite Hb.
Qed.

Lemma good_tight t s : good_text t -> tight (t ++ s).
Proof.
  intros [Hne Ht]. destruct Ht as [|b t Hb]; [done|]. apply tight_cons. unfold wordchar in Hb.
  by destruct (isin whitespace b).
Qed.

Lemma token_word t s : good_text t -> tight s -> token (pword t ++ s) = Ok (97, pword t ++ s, 32 :: s) s.
Proof.
  intros Hg Hs. unfold token, gettoken, pword. rewrite <- app_assoc. cbn [app].
  rewrite skip_tight by by apply good_tight. pose proof Hg as [Hne Ht].
  destruct Ht as [|b t Hb Ht]; [done|]. cbn [app].
  apply wordchar_spec in Hb as Hc. replace (_ || _) with false by lia. replace (b =? 62) with false by lia.
  change (b :: t ++ 32 :: s) with ((b :: t) ++ 32 :: s). rewrite skip_word_app by by constructor.
  assert (E : skip_ws (32 :: s) = s) by exact Hs. by rewrite E.
Qed.

Lemma text_pword t s : text (pword t ++ s, 32 :: s) = t.
Proof. unfold pword. rewrite <- app_assoc. apply take_text. Qed.

(** ** Redirections and arguments *)

Definition redir_map {V W} (f : V -> W) (r : redir V) : redir W := Rd (f (r_file r)) (r_mode r) (r_fd r).

Lemma wrap_map {V W} (f : V -> W) c rs : cmd_map f (wrap c rs) = wrap (cmd_map f c) (redir_map f <$> rs).
Proof. revert c. induction rs as [|r rs IH]; intros c; [done|]. unfold wrap in *. cbn [foldl]. by rewrite IH. Qed.

Definition rtext := redir_map text.
Definition predirs (rs : list (redir (list Z))) : list Z := concat (predir <$> rs).
Definition pwords (ws : list (list Z)) : list Z := concat (pword <$> ws).

(** What may follow the redirections. *)
Definition no_angle (s : ptr) : Prop := tight s /\ match s with [] => True | b :: _ => isin ANGLES b = false end.

Lemma predir_tight r s : tight (predir r ++ s).
Proof. unfold predir. cbn [app]. apply tight_cons. by destruct (r_fd r =? 0). Qed.

Lemma predirs_tight rs s : tight s -> tight (predirs rs ++ s).
Proof. destruct rs as [|r rs]; [done|]. intros _. unfold predirs. cbn. rewrite <- app_assoc. apply predir_tight. Qed.

Lemma redirs_none n s : no_angle s -> redirs n s = Ok [] s.
Proof.
  intros [Ht Hs]. destruct n; cbn [redirs]; rewrite (bind_ok _ _ _ _ _ (peek_tight ANGLES s Ht));
    (destruct s; [done|by rewrite Hs]).
Qed.

(** The operator and the file of one redirection. *)
Lemma redir_tokens r s :
  redir_ok good_text r -> tight s ->
  exists op w, op :: pword (r_file r) ++ s = predir r ++ s /\
    isin ANGLES op = true /\
    token (op :: pword (r_file r) ++ s) = Ok (op, op :: pword (r_file r) ++ s, pword (r_file r) ++ s) (pword (r_file r) ++ s) /\
    token (pword (r_file r) ++ s) = Ok (97, w.1, w.2) s /\
    rtext (Rd w (if op =? 60 then O_RDONLY else Z.lor O_WRONLY O_CREATE) (if op =? 60 then 0 else 1)) = r /\
    (op = 60 \/ op = 62).
Proof.
  intros [Hf Hm] Hs. destruct r as [file mode fd]. cbn [r_fd r_file r_mode] in *.
  assert (Hp : tight (pword file ++ s)) by (unfold pword; rewrite <- app_assoc; by apply good_tight).
  assert (Hh : wordchar (hd 0 (pword file ++ s)) = true) by (destruct Hf as [? Hf]; by destruct Hf).
  exists (if fd =? 0 then 60 else 62), (pword file ++ s, 32 :: s). unfold predir, rtext, redir_map. cbn [r_fd r_file r_mode].
  rewrite text_pword. split; [done|]. rewrite (token_word file s) by done.
  destruct Hm as [[-> ->]|[-> ->]]; cbn [Z.eqb Pos.eqb]; rewrite ?token_symbol, ?token_gt by done; auto 6.
Qed.

Lemma redirs_print rs n s :
  Forall (redir_ok good_text) rs -> no_angle s -> (length rs <= n)%nat ->
  exists rs', redirs n (predirs rs ++ s) = Ok rs' s /\ rtext <$> rs' = rs.
Proof.
  intros Hrs Hs. revert n. induction Hrs as [|r rs Hr _ IH]; intros n Hn.
  { exists []. split; [by apply redirs_none|done]. }
  destruct n as [|n]; [cbn in Hn; lia|]. destruct (IH n) as (rs' & E & Ers); [cbn in Hn; lia|].
  destruct (redir_tokens r (predirs rs ++ s) Hr) as (op & w & Eop & Hop & T1 & T2 & Er & Hv);
    [apply predirs_tight, Hs|].
  unfold predirs. cbn [fmap list_fmap concat]. rewrite <- app_assoc. change (concat _) with (predirs rs).
  rewrite <- Eop. cbn [redirs].
  rewrite (bind_ok _ _ _ _ _ (peek_tight ANGLES (op :: pword (r_file r) ++ predirs rs ++ s)
             ltac:(rewrite Eop; apply predir_tight))).
  rewrite Hop. cbn [negb]. rewrite (bind_ok _ _ _ _ _ T1), (bind_ok _ _ _ _ _ T2).
  change (negb (97 =? 97)) with false. cbn iota. rewrite (bind_ok _ _ _ _ _ E).
  exists (Rd w (if op =? 60 then O_RDONLY else Z.lor O_WRONLY O_CREATE) (if op =? 60 then 0 else 1) :: rs').
  split; [|cbn; by rewrite Er, Ers]. destruct w as [q eq]. by destruct Hv as [-> | ->].
Qed.

Lemma stops_no_angle s : stops STOPS s -> no_angle s.
Proof. intros H. split; [by apply stops_tight|]. destruct s as [|b s]; [done|]. cbn in H. sets. lia. Qed.


Lemma pword_head toks t s :
  good_text t -> (forall b, wordchar b = true -> isin toks b = false) ->
  peek toks (pword t ++ s) = Ok false (pword t ++ s).
Proof.
  intros Ht Hn. assert (tight (pword t ++ s)) by (unfold pword; rewrite <- app_assoc; by apply good_tight).
  rewrite peek_tight by done. destruct Ht as [? Ht]. destruct Ht as [|b t Hb Ht]; [done|]. cbn. by rewrite Hn.
Qed.

Lemma pword_no_angle t s : good_text t -> no_angle (pword t ++ s).
Proof.
  intros Ht. split; [unfold pword; rewrite <- app_assoc; by apply good_tight|].
  destruct Ht as [? Ht]. destruct Ht as [|b t Hb Ht]; [done|]. cbn. apply wordchar_spec in Hb. sets. lia.
Qed.

Lemma exec_args_stop n argv rs s : stops STOPS s -> exec_args (S n) argv rs s = Ok (argv, rs) s.
Proof.
  intros Hs. cbn [exec_args]. rewrite (bind_ok _ _ _ _ _ (peek_tight STOPS s (stops_tight s Hs))).
  destruct s as [|b s]; [|cbn in Hs; by rewrite Hs]. done.
Qed.

(** One argument and the redirections after it. *)
Lemma exec_args_word n argv rs0 a rs rs' s :
  good_text a -> (S (length argv) < MAXARGS)%nat -> tight (predirs rs ++ s) ->
  redirs n (predirs rs ++ s) = Ok rs' s ->
  exists w, exec_args (S n) argv rs0 (pword a ++ predirs rs ++ s) = exec_args n (argv ++ [w]) (rs0 ++ rs') s /\ text w = a.
Proof.
  intros Ha Hl Ht Hr. exists (pword a ++ predirs rs ++ s, 32 :: predirs rs ++ s). split; [|apply text_pword].
  cbn [exec_args].
  rewrite (bind_ok _ _ _ _ _ (pword_head STOPS a _ Ha ltac:(intros b Hb%wordchar_spec; sets; lia))).
  rewrite (bind_ok _ _ _ _ _ (token_word a _ Ha Ht)). cbn [Z.eqb Pos.eqb negb].
  replace (MAXARGS <=? _)%nat with false; [|symmetry; apply Nat.leb_gt; rewrite length_app; cbn; lia].
  by rewrite (bind_ok _ _ _ _ _ Hr).
Qed.

Lemma exec_args_print args : forall a n argv rs0 rs s,
  Forall good_text (a :: args) -> Forall (redir_ok good_text) rs -> stops STOPS s ->
  (length argv + S (length args) < MAXARGS)%nat -> (length args + length rs + 2 <= n)%nat ->
  exists argv' rs', exec_args n argv rs0 (pwords (a :: args) ++ predirs rs ++ s) = Ok (argv ++ argv', rs0 ++ rs') s /\
    text <$> argv' = a :: args /\ rtext <$> rs' = rs.
Proof.
  induction args as [|b args IH]; intros a n argv rs0 rs s Hg Hrs Hs Hl Hn; destruct n as [|n]; try lia;
    unfold pwords; cbn [fmap list_fmap concat length] in *; apply Forall_cons in Hg as [Ha Hg].
  - rewrite app_nil_r. destruct (redirs_print rs n s) as (rs' & E & Ers); [done|by apply stops_no_angle|lia|].
    destruct (exec_args_word n argv rs0 a rs rs' s) as (w & Ew & Ht); [done|lia|by apply predirs_tight, stops_tight|done|].
    exists [w], rs'. rewrite Ew. destruct n; [lia|]. rewrite exec_args_stop by done. cbn. by rewrite Ht.
  - rewrite <- app_assoc. change (pword b ++ concat _) with (pwords (b :: args)).
    set (s1 := pwords (b :: args) ++ predirs rs ++ s).
    assert (Hs1 : no_angle s1).
    { unfold s1, pwords. cbn. rewrite <- app_assoc. apply pword_no_angle. by apply Forall_cons in Hg as [? _]. }
    destruct (exec_args_word n argv rs0 a [] [] s1) as (w & Ew & Ht); [done|lia|apply Hs1|by apply redirs_none|].
    change (predirs [] ++ s1) with s1 in Ew. rewrite Ew, app_nil_r. clear Ew. unfold s1.
    destruct (IH b n (argv ++ [w]) rs0 rs s) as (argv' & rs' & E & E1 & E2); try done; [rewrite length_app; cbn; lia|lia|].
    exists (w :: argv'), rs'. rewrite E. rewrite <- app_assoc. cbn. by rewrite Ht, E1.
Qed.

(** ** Commands *)

Lemma print_wrap c rs : print 0 (wrap c rs) = print 0 c ++ predirs rs.
Proof.
  revert c. induction rs as [|r rs IH]; intros c; [by rewrite app_nil_r|]. unfold wrap in *. cbn [foldl].
  rewrite IH. cbn [print]. unfold predirs. cbn. rewrite <- app_assoc. by destruct r.
Qed.

Lemma print_tight t : forall level s, cmd_ok good_text t -> tight s -> tight (print level t ++ s).
Proof.
  induction t as [argv|c IHc file mode fd|l IHl r IHr|l IHl r IHr|c IHc]; intros level s Hok Hs;
    cbn [print]; unfold paren; cbn [cmd_ok] in Hok.
  - destruct Hok as [Hg _]. destruct Hg as [|w argv Hw _]; [done|]. cbn. unfold pword.
    rewrite <- !app_assoc. by apply good_tight.
  - rewrite <- app_assoc. apply IHc; [apply Hok|]. apply predir_tight.
  - case_match; [by apply tight_cons|]. rewrite <- app_assoc. apply IHl; [apply Hok|]. by apply tight_cons.
  - case_match; [by apply tight_cons|]. rewrite <- app_assoc. apply IHl; [apply Hok|]. by apply tight_cons.
  - case_match; [by apply tight_cons|]. rewrite <- app_assoc. apply IHc; [apply Hok|]. by apply tight_cons.
Qed.

(** The function [m] reads the command [t] printed at a level, up to a byte of [toks]. *)
Definition reads (m : nat -> cm ptr (cmd word)) (k : nat) (toks : list Z) (level : nat) (t : cmd (list Z)) : Prop :=
  forall n s, (4 * length (print level t ++ s) + k <= n)%nat -> stops toks s ->
  exists c, m n (print level t ++ s) = Ok c s /\ cmd_map text c = t.

Definition PIPE_STOPS : list Z := [41; 38; 59; 0].
Definition reads_exec := reads parseexec 3 STOPS 0.
Definition reads_pipe := reads parsepipe 4 PIPE_STOPS 1.
Definition reads_line := reads parseline 5 CLOSE 3.

Lemma predirs_length rs : (length rs <= length (predirs rs))%nat.
Proof. induction rs as [|r rs IH]; [done|]. unfold predirs in *. cbn. rewrite length_app. lia. Qed.

Lemma pwords_length ws : (length ws <= length (pwords ws))%nat.
Proof. induction ws as [|w ws IH]; [done|]. unfold pwords, pword in *. cbn. rewrite !length_app. cbn. lia. Qed.

(** A simple command with its redirections. *)
Lemma exec_reads argv rs :
  Forall good_text argv -> (length argv < MAXARGS)%nat -> Forall (redir_ok good_text) rs ->
  reads_exec (wrap (EXEC argv) rs).
Proof.
  intros Hg Hl Hrs n s Hn Hs. rewrite print_wrap in *. cbn [print] in *. change (concat _) with (pwords argv) in *.
  rewrite <- app_assoc in *. rewrite !length_app in Hn. pose proof (predirs_length rs). pose proof (pwords_length argv).
  destruct n as [|n]; [lia|]. cbn [parseexec].
  assert (Ep : peek OPEN (pwords argv ++ predirs rs ++ s) = Ok false (pwords argv ++ predirs rs ++ s)).
  { destruct Hg as [|a argv Ha _].
    - cbn [pwords fmap list_fmap concat app]. rewrite peek_tight by by apply predirs_tight, stops_tight.
      destruct Hrs as [|r rs _ _].
      + cbn [predirs fmap list_fmap concat app]. destruct s as [|b s]; [done|]. cbn in Hs. f_equal. sets. lia.
      + cbn. by destruct (r_fd r =? 0).
    - unfold pwords. cbn [fmap list_fmap concat]. rewrite <- app_assoc.
      apply pword_head; [done|]. intros b Hb%wordchar_spec. sets. lia. }
  rewrite (bind_ok _ _ _ _ _ Ep). cbn iota. destruct argv as [|a argv].
  - destruct (redirs_print rs n s) as (rs' & E & Ers); [done|by apply stops_no_angle|lia|].
    rewrite (bind_ok _ _ _ _ _ E : (redirs n ≫= _) (pwords [] ++ predirs rs ++ s) = _).
    destruct n as [|n]; [lia|]. rewrite (bind_ok _ _ _ _ _ (exec_args_stop n [] rs' s Hs)).
    exists (wrap (EXEC []) rs'). split; [done|]. rewrite wrap_map. cbn. change (redir_map text) with rtext. by rewrite Ers.
  - assert (E : redirs n (pwords (a :: argv) ++ predirs rs ++ s) = Ok [] (pwords (a :: argv) ++ predirs rs ++ s)).
    { apply redirs_none. unfold pwords. cbn [fmap list_fmap concat]. rewrite <- app_assoc. apply pword_no_angle.
      by apply Forall_cons in Hg as [? _]. }
    rewrite (bind_ok _ _ _ _ _ E). cbn [length] in *.
    destruct (exec_args_print argv a n [] [] rs s) as (argv' & rs' & Ea & E1 & E2); try done; [lia|].
    rewrite (bind_ok _ _ _ _ _ Ea). cbn [app fst snd].
    exists (wrap (EXEC argv') rs'). split; [done|]. rewrite wrap_map. cbn. change (redir_map text) with rtext. by rewrite E1, E2.
Qed.

(** A command in parentheses. *)
Lemma block_reads b rs :
  cmd_ok good_text b -> Forall (redir_ok good_text) rs -> print 0 b = [40] ++ print 3 b ++ [41] ->
  reads_line b -> reads_exec (wrap b rs).
Proof.
  intros Hb Hrs Epr HL n s Hn Hs. rewrite print_wrap, Epr in *. rewrite <- !app_assoc in *. rewrite !length_app in Hn.
  cbn [length] in Hn. pose proof (predirs_length rs).
  set (rest2 := [41] ++ predirs rs ++ s) in *.
  assert (Tr : tight (predirs rs ++ s)) by by apply predirs_tight, stops_tight.
  assert (T2 : tight rest2) by by apply tight_cons.
  assert (T3 : tight (print 3 b ++ rest2)) by by apply print_tight.
  destruct n as [|[|n]]; try lia. cbn [parseexec parseblock app].
  rewrite (bind_ok _ _ _ _ _ (peek_tight OPEN (40 :: print 3 b ++ rest2) ltac:(by apply tight_cons))).
  change (isin OPEN 40) with true. cbn iota.
  rewrite (bind_ok _ _ _ _ _ (peek_tight OPEN (40 :: print 3 b ++ rest2) ltac:(by apply tight_cons))).
  change (negb (isin OPEN 40)) with false. cbn iota.
  rewrite (bind_ok _ _ _ _ _ (token_symbol 40 _ eq_refl T3)).
  destruct (HL n rest2) as (c & E & Et); [unfold rest2; rewrite !length_app; cbn [length]; lia|done|].
  rewrite (bind_ok _ _ _ _ _ E), (bind_ok _ _ _ _ _ (peek_tight CLOSE rest2 T2)).
  change (negb (isin CLOSE 41)) with false. cbn iota. unfold rest2. cbn [app].
  rewrite (bind_ok _ _ _ _ _ (token_symbol 41 _ eq_refl Tr)). unfold parseredirs.
  destruct (redirs_print rs n s) as (rs' & Er & Ers); [done|by apply stops_no_angle|lia|].
  rewrite (bind_ok _ _ _ _ _ Er). exists (wrap c rs'). split; [done|]. rewrite wrap_map, Et.
  change (redir_map text) with rtext. by rewrite Ers.
Qed.

Lemma stops_weaken toks toks' s : (forall b, isin toks b = true -> isin toks' b = true) -> stops toks s -> stops toks' s.
Proof. destruct s; cbn; auto. Qed.

Lemma pipe_stops s : stops PIPE_STOPS s -> stops STOPS s.
Proof. apply stops_weaken. intros b. unfold PIPE_STOPS. sets. lia. Qed.

Lemma peek_stop toks toks' s :
  (forall b, isin toks' b = true -> isin STOPS b = true /\ isin toks b = false) -> stops toks' s -> peek toks s = Ok false s.
Proof.
  intros H Hs. rewrite peek_tight; [|apply stops_tight; revert Hs; apply stops_weaken; naive_solver].
  destruct s as [|b s]; [done|]. cbn in Hs. f_equal. naive_solver.
Qed.

Lemma pipe_of_exec t : print 1 t = print 0 t -> reads_exec t -> reads_pipe t.
Proof.
  intros Epr HE n s Hn Hs. rewrite Epr in *. destruct n as [|n]; [lia|]. cbn [parsepipe].
  destruct (HE n s) as (c & E & Et); [lia|by apply pipe_stops|].
  rewrite (bind_ok _ _ _ _ _ E). rewrite (bind_ok _ _ _ _ _ (peek_stop BAR PIPE_STOPS s
    ltac:(intros b; unfold PIPE_STOPS; sets; lia) Hs)). eauto.
Qed.

Lemma pipe_pipe l r : cmd_ok good_text r -> reads_exec l -> reads_pipe r -> reads_pipe (PIPE l r).
Proof.
  intros Hr HE HP n s Hn Hs. cbn [print] in *. change (paren (1 <? 1)%nat) with (λ s : list Z, s) in *. cbv beta in *.
  rewrite <- !app_assoc in *. rewrite !length_app in Hn. cbn [length] in Hn. destruct n as [|n]; [lia|].
  cbn [parsepipe]. destruct (HE n ([124] ++ print 1 r ++ s)) as (c & E & Et); [rewrite !length_app; cbn [length]; lia|done|].
  rewrite (bind_ok _ _ _ _ _ E).
  assert (T : tight (print 1 r ++ s)) by by apply print_tight, stops_tight, pipe_stops.
  cbn [app]. rewrite (bind_ok _ _ _ _ _ (peek_tight BAR (124 :: print 1 r ++ s) ltac:(by apply tight_cons))).
  change (isin BAR 124) with true. cbn iota. rewrite (bind_ok _ _ _ _ _ (token_symbol 124 _ eq_refl T)).
  destruct (HP n s) as (c' & E' & Et'); [rewrite length_app; lia|done|].
  rewrite (bind_ok _ _ _ _ _ E'). exists (PIPE c c'). cbn. by rewrite Et, Et'.
Qed.

(** Background marks. *)
Definition LINE_STOPS : list Z := [41; 59; 0].
Definition amps (k : nat) : list Z := replicate k 38.
Definition back_by {W} (k : nat) (c : cmd W) : cmd W := Nat.iter k BACK c.

Lemma line_stops s : stops LINE_STOPS s -> stops PIPE_STOPS s.
Proof. apply stops_weaken. intros b. unfold LINE_STOPS, PIPE_STOPS. sets. lia. Qed.

Lemma amps_stops k s : stops LINE_STOPS s -> stops PIPE_STOPS (amps k ++ s).
Proof. intros Hs. destruct k; [by apply line_stops|done]. Qed.

Lemma back_by_S {W} k (c : cmd W) : back_by k (BACK c) = back_by (S k) c.
Proof. unfold back_by. by rewrite Nat.iter_succ_r. Qed.

Lemma back_by_map {V W} (f : V -> W) k c : cmd_map f (back_by k c) = back_by k (cmd_map f c).
Proof.
  induction k as [|k IH]; [done|].
  change (BACK (cmd_map f (back_by k c)) = BACK (back_by k (cmd_map f c))). by rewrite IH.
Qed.

Lemma backs_print k n c s :
  stops LINE_STOPS s -> (k <= n)%nat -> backs n c (amps k ++ s) = Ok (back_by k c) s.
Proof.
  intros Hs. revert n c. induction k as [|k IH]; intros n c Hn.
  - assert (E : peek AMP s = Ok false s) by (apply (peek_stop AMP LINE_STOPS); [|done]; intros b; unfold LINE_STOPS; sets; lia).
    destruct n; cbn [backs amps replicate app]; by rewrite (bind_ok _ _ _ _ _ E).
  - destruct n as [|n]; [lia|]. cbn [backs amps replicate app].
    rewrite (bind_ok _ _ _ _ _ (peek_tight AMP (38 :: amps k ++ s) ltac:(by apply tight_cons))).
    change (negb (isin AMP 38)) with false. cbn iota.
    rewrite (bind_ok _ _ _ _ _ (token_symbol 38 (amps k ++ s) eq_refl
      (stops_tight _ (pipe_stops _ (amps_stops k s Hs))))).
    rewrite IH by lia. by rewrite back_by_S.
Qed.

Lemma pipe_backs t0 k n s :
  reads_pipe t0 -> (4 * length (print 1 t0 ++ amps k ++ s) + 4 <= n)%nat -> stops LINE_STOPS s ->
  exists c0 c, parsepipe n (print 1 t0 ++ amps k ++ s) = Ok c0 (amps k ++ s) /\ backs n c0 (amps k ++ s) = Ok c s /\
               cmd_map text c = back_by k t0.
Proof.
  intros HP Hn Hs. destruct (HP n (amps k ++ s)) as (c0 & E & Et); [lia|by apply amps_stops|].
  exists c0, (back_by k c0). split; [done|]. split; [|by rewrite back_by_map, Et].
  apply backs_print; [done|]. rewrite !length_app in Hn. unfold amps in Hn. rewrite length_replicate in Hn. lia.
Qed.

Lemma close_stops s : stops CLOSE s -> stops LINE_STOPS s.
Proof. apply stops_weaken. intros b. unfold LINE_STOPS. sets. lia. Qed.

Lemma line_backs t t0 k : t = back_by k t0 -> print 3 t = print 1 t0 ++ amps k -> reads_pipe t0 -> reads_line t.
Proof.
  intros -> Epr HP n s Hn Hs. rewrite Epr in *. rewrite <- app_assoc in *. destruct n as [|n]; [lia|]. cbn [parseline].
  destruct (pipe_backs t0 k n s) as (c0 & c & E1 & E2 & Et); [done|lia|by apply close_stops|].
  rewrite (bind_ok _ _ _ _ _ E1), (bind_ok _ _ _ _ _ E2).
  rewrite (bind_ok _ _ _ _ _ (peek_stop SEMI CLOSE s ltac:(intros b; sets; lia) Hs)). eauto.
Qed.

Lemma line_list l r t0 k :
  cmd_ok good_text r -> l = back_by k t0 -> print 2 l = print 1 t0 ++ amps k -> reads_pipe t0 -> reads_line r ->
  reads_line (LIST l r).
Proof.
  intros Hr -> Epr HP HL n s Hn Hs. cbn [print] in *. change (paren (3 <? 3)%nat) with (λ s : list Z, s) in *. cbv beta in *.
  rewrite Epr in *. rewrite <- !app_assoc in *. rewrite !length_app in Hn. cbn [length] in Hn.
  destruct n as [|n]; [lia|]. cbn [parseline].
  destruct (pipe_backs t0 k n ([59] ++ print 3 r ++ s)) as (c0 & c & E1 & E2 & Et); [done| |done|].
  { rewrite !length_app. cbn [length]. lia. }
  rewrite (bind_ok _ _ _ _ _ E1), (bind_ok _ _ _ _ _ E2). cbn [app].
  assert (T : tight (print 3 r ++ s)) by by apply print_tight, stops_tight, pipe_stops, line_stops, close_stops.
  rewrite (bind_ok _ _ _ _ _ (peek_tight SEMI (59 :: print 3 r ++ s) ltac:(by apply tight_cons))).
  change (isin SEMI 59) with true. cbn iota. rewrite (bind_ok _ _ _ _ _ (token_symbol 59 _ eq_refl T)).
  destruct (HL n s) as (c' & E' & Et'); [rewrite length_app; lia|done|].
  rewrite (bind_ok _ _ _ _ _ E'). exists (LIST c c'). cbn. by rewrite Et, Et'.
Qed.

(** What is read of a command at each level, with the command under its background marks
    and the one under its redirections. *)
Definition under_backs (t : cmd (list Z)) : Prop :=
  exists t0 k, t = back_by k t0 /\ print 2 t = print 1 t0 ++ amps k /\ reads_pipe t0.
Definition under_redirs (t : cmd (list Z)) : Prop :=
  exists b rs, t = wrap b rs /\ Forall (redir_ok good_text) rs /\ cmd_ok good_text b /\
    ((exists argv, b = EXEC argv) \/ print 0 b = [40] ++ print 3 b ++ [41] /\ reads_line b).
Definition read_back (t : cmd (list Z)) : Prop :=
  reads_exec t /\ reads_pipe t /\ reads_line t /\ under_backs t /\ under_redirs t.

Lemma under_redirs_reads t : under_redirs t -> reads_exec t.
Proof.
  intros (b & rs & -> & Hrs & Hb & [[argv ->]|[Epr HL]]); [|by apply block_reads].
  destruct Hb. by apply exec_reads.
Qed.

(** A command that is neither a pipeline, nor in the background, nor a list. *)
Lemma read_back_simple t :
  print 1 t = print 0 t -> print 2 t = print 1 t -> print 3 t = print 1 t -> under_redirs t -> read_back t.
Proof.
  intros E1 E2 E3 Hu. pose proof (under_redirs_reads _ Hu) as HE. pose proof (pipe_of_exec _ E1 HE) as HP.
  split; [done|]. split; [done|]. split; [|split; [|done]].
  - apply (line_backs t t 0); [done|by rewrite app_nil_r|done].
  - exists t, O. split; [done|]. by rewrite app_nil_r.
Qed.

(** A command that is put in parentheses. *)
Lemma read_back_line t :
  cmd_ok good_text t -> print 0 t = [40] ++ print 3 t ++ [41] -> reads_line t ->
  reads_exec t /\ under_redirs t.
Proof.
  intros Hok Epr HL. assert (Hu : under_redirs t) by (exists t, []; split_and!; auto).
  split; [by apply under_redirs_reads|done].
Qed.

Lemma read_back_list l r : cmd_ok good_text (LIST l r) -> read_back l -> read_back r -> read_back (LIST l r).
Proof.
  intros Hok (_ & _ & _ & (t0 & k & El & Epr & HP) & _) (_ & _ & HLr & _ & _).
  assert (HL : reads_line (LIST l r)) by (apply (line_list l r t0 k); try done; apply Hok).
  destruct (read_back_line (LIST l r)) as [HE Hu]; [done|done|done|].
  assert (HPp : reads_pipe (LIST l r)) by by apply pipe_of_exec.
  split_and!; try done. exists (LIST l r), O. split; [done|]. by rewrite app_nil_r.
Qed.

Lemma read_back_back c : cmd_ok good_text (BACK c) -> read_back c -> read_back (BACK c).
Proof.
  intros Hok (_ & _ & _ & (t0 & k & -> & Epr & HP) & _).
  assert (Epr2 : print 2 (BACK (back_by k t0)) = print 1 t0 ++ amps (S k)).
  { cbn [print]. change (paren (2 <? 2)%nat) with (λ s : list Z, s). cbv beta. rewrite Epr, <- app_assoc.
    unfold amps. by rewrite replicate_S_end. }
  assert (HL : reads_line (BACK (back_by k t0))) by by apply (line_backs _ t0 (S k)).
  destruct (read_back_line (BACK (back_by k t0))) as [HE Hu]; [done|done|done|].
  assert (reads_pipe (BACK (back_by k t0))) by by apply pipe_of_exec.
  split_and!; try done. by exists t0, (S k).
Qed.

Lemma read_back_pipe l r : cmd_ok good_text (PIPE l r) -> read_back l -> read_back r -> read_back (PIPE l r).
Proof.
  intros Hok (HE & _) (_ & HP & _). assert (HPp : reads_pipe (PIPE l r)) by (apply pipe_pipe; try done; apply Hok).
  assert (HL : reads_line (PIPE l r)) by (apply (line_backs _ (PIPE l r) 0); [done|by rewrite app_nil_r|done]).
  destruct (read_back_line (PIPE l r)) as [HE' Hu]; [done|done|done|].
  split_and!; try done. exists (PIPE l r), O. split; [done|]. by rewrite app_nil_r.
Qed.

Lemma read_back_redir c file mode fd :
  cmd_ok good_text (REDIR c file mode fd) -> read_back c -> read_back (REDIR c file mode fd).
Proof.
  intros [_ Hr] (_ & _ & _ & _ & (b & rs & -> & Hrs & Hb & Hk)). apply read_back_simple; try done.
  exists b, (rs ++ [Rd file mode fd]). split; [unfold wrap; by rewrite foldl_app|]. split; [|done].
  apply Forall_app. auto.
Qed.

Lemma read_back_all t : cmd_ok good_text t -> read_back t.
Proof.
  induction t as [argv|c IHc file mode fd|l IHl r IHr|l IHl r IHr|c IHc]; intros Hok.
  - apply read_back_simple; try done. exists (EXEC argv), []. split_and!; eauto.
  - apply read_back_redir; [done|]. apply IHc, Hok.
  - apply read_back_pipe; [done|apply IHl, Hok|apply IHr, Hok].
  - apply read_back_list; [done|apply IHl, Hok|apply IHr, Hok].
  - apply read_back_back; [done|]. apply IHc, Hok.
Qed.

Definition no_nul (t : list Z) : Prop := Forall (λ b, b <> 0) t.

Lemma print_no_nul t : forall level, Forall no_nul (words t) -> no_nul (print level t).
Proof.
  unfold no_nul.
  induction t as [argv|c IHc file mode fd|l IHl r IHr|l IHl r IHr|c IHc]; intros level Hw; cbn [print words] in *;
    rewrite ?Forall_app in Hw.
  - induction Hw as [|w argv Hw _ IH]; [constructor|]. unfold pword in *. cbn. rewrite !Forall_app. repeat split; auto.
  - destruct Hw as [Hc Hf]. apply Forall_cons in Hf as [Hf _]. unfold predir, pword.
    rewrite Forall_app, Forall_cons, Forall_app. split_and!; auto. by destruct (_ =? 0).
  - destruct Hw. unfold paren. case_match; rewrite ?Forall_app; split_and!; auto.
  - destruct Hw. unfold paren. case_match; rewrite ?Forall_app; split_and!; auto.
  - unfold paren. case_match; rewrite ?Forall_app; split_and!; auto.
Qed.

(** C12: A command that is printed as a line and parsed by the shell comes back: for every command
    whose words are made of word characters, with fewer than [MAXARGS] arguments each and
    redirections of the two forms, the parser returns a command that, read from the buffer after
    [nulterminate], is the command that was printed. *)
Theorem parse_print t junk :
  cmd_ok good_text t -> Forall no_nul (words t) ->
  exists c mem', parsecmd (print 3 t ++ 0 :: junk) = Ok c mem' /\ cmd_map (str (print 3 t) mem') c = t.
Proof.
  intros Hok Hn. apply read_back_all in Hok as HL. destruct HL as (_ & _ & HL & _).
  set (mem := print 3 t ++ 0 :: junk). assert (Eb : cstr mem = print 3 t) by by apply cstr_app, print_no_nul.
  assert (H0 : 0 ∈ mem) by (unfold mem; set_solver).
  destruct (HL (4 * length (print 3 t) + 5)%nat []) as (c & E & Et); [rewrite app_nil_r; lia|done|].
  rewrite app_nil_r in E.
  assert (Hc : cmd_ok (good_word (print 3 t)) c).
  { pose proof (parse_ends (print 3 t) (4 * length (print 3 t) + 5)) as (Hp & _).
    specialize (Hp (print 3 t) ltac:(lia) ltac:(done)). rewrite E in Hp. apply Hp. }
  exists c, (nulterminate (print 3 t) c mem). split.
  - unfold parsecmd. rewrite Eb, (bind_ok _ _ _ _ _ E). done.
  - rewrite <- Eb in *. by rewrite parsed_texts.
Qed.

(** [(a <b &)|c de]. *)
Definition ex_tree : cmd (list Z) := PIPE (BACK (REDIR (EXEC [[97]]) [98] 0 0)) (EXEC [[99]; [100; 101]]).

Lemma parse_print_witness :
  cmd_ok good_text ex_tree /\ Forall no_nul (words ex_tree) /\
  exists c mem', parsecmd (print 3 ex_tree ++ [0]) = Ok c mem' /\ cmd_map (str (print 3 ex_tree) mem') c = ex_tree.
Proof.
  assert (H1 : cmd_ok good_text ex_tree).
  { unfold ex_tree. cbn. unfold redir_ok, good_text, MAXARGS. cbn. repeat split; auto; try done; try lia; repeat constructor; done. }
  assert (H2 : Forall no_nul (words ex_tree)) by (unfold no_nul; cbn; repeat constructor; done).
  split; [exact H1|]. split; [exact H2|]. exact (parse_print ex_tree [] H1 H2).
Defined.
