(* ===== verification/ShRun.v ===== *)
(** * Running commands

    What the processes of a command are started with ([runcmd] of [src/sh.c]), against
    the meaning of redirections and pipes; and the shell's loop over its input. *)
From S2P Require Import Prelude CString Sh ShTheorems.

(** ** The meaning of a command

    A process has an input, an output and an error output and nothing else open. *)

Record streams : Type := Streams { s_in : handle; s_out : handle; s_err : handle }.
Definition table (s : streams) : fds :=
  Some (s_in s) :: Some (s_out s) :: Some (s_err s) :: replicate (NOFILE - 3) None.

Section Meaning.
Context `{K : Kernel} (string_of : word -> list Z).



End Meaning.

(** ** The loop *)

(** A line of input: it fits in the buffer with its newline, which is its only line end, and has no NUL. *)
Definition line_ok (l : list Z) : Prop :=
  Forall (λ b, b <> 0 /\ b <> 10 /\ b <> 13) l /\ (length l < NBUF - 1)%nat.

Definition typed (lines : list (list Z)) : list Z := concat ((λ l, l ++ [10]) <$> lines).

Lemma gets_line room l r :
  Forall (λ b, b <> 0 /\ b <> 10 /\ b <> 13) l -> (length l < room)%nat -> gets_bytes room (l ++ 10 :: r) = (l ++ [10], r).
Proof.
  intros Hl. revert room. induction Hl as [|b l Hb _ IH]; intros [|room] Hr; cbn in *; try lia; [done|].
  replace ((b =? 10) || (b =? 13)) with false by lia. rewrite IH by lia. done.
Qed.

(** The buffer that holds a line. *)
Definition line_buf (l : list Z) : list Z := (l ++ [10]) ++ replicate (NBUF - length (l ++ [10])) 0.

Lemma line_buf_split l : line_ok l -> exists junk, line_buf l = (l ++ [10]) ++ 0 :: junk.
Proof.
  intros [_ Hl]. unfold line_buf. rewrite length_app. cbn [length].
  destruct (NBUF - (length l + 1))%nat eqn:E; [lia|]. cbn. eauto.
Qed.

Lemma getcmd_line l r : line_ok l -> getcmd (l ++ 10 :: r) = Some (line_buf l, r).
Proof.
  intros [Hl Hlen]. unfold getcmd. rewrite gets_line by done. cbn [fst snd].
  change ((l ++ [10]) ++ _) with (line_buf l). unfold line_buf. destruct Hl as [|b l Hb _]; [done|]. cbn.
  by replace (b =? 0) with false by lia.
Qed.

Lemma insert_middle {A} (l r : list A) x y : <[length l := y]> (l ++ x :: r) = l ++ y :: r.
Proof. induction l; cbn; [done|]. by f_equal. Qed.

Definition is_cd (l : list Z) : bool := (nth 0 l 0 =? 99) && (nth 1 l 0 =? 100) && (nth 2 l 0 =? 32).

Lemma is_cd_buf l : line_ok l -> is_cd (line_buf l) = is_cd l.
Proof.
  intros Hl. destruct (line_buf_split l Hl) as [junk ->]. unfold is_cd.
  destruct l as [|a [|b [|c l]]]; cbn; try done; destruct (a =? 99); cbn; try done; by destruct (b =? 100).
Qed.

(** The path of a [cd] line is the rest of the line, without the newline. *)
Lemma cd_path l :
  line_ok l -> is_cd l = true ->
  cstr (drop 3 (<[(length (cstr (line_buf l)) - 1)%nat := 0]> (line_buf l))) = drop 3 l.
Proof.
  intros Hl Hcd. destruct (line_buf_split l Hl) as [junk ->]. destruct Hl as [Hl _].
  assert (Hnz : Forall (λ b, b <> 0) l) by (eapply Forall_impl; [exact Hl|]; cbn; intros; lia).
  rewrite cstr_app by (apply Forall_app; split; [done|by repeat constructor]).
  rewrite length_app. cbn [length]. replace (length l + 1 - 1)%nat with (length l) by lia.
  rewrite <- app_assoc. cbn [app]. rewrite insert_middle.
  destruct l as [|a [|b [|c l]]];
    [by unfold is_cd in Hcd; cbn in Hcd; rewrite ?andb_false_r in Hcd..|]. cbn [drop app]. apply cstr_app.
  by do 3 apply Forall_cons in Hnz as [_ Hnz].
Qed.

Section Loop.
Context `{K : Kernel}.

(** What the shell does for each line: [cd] itself, everything else in a child it waits for. *)
Fixpoint serve (k : nat) (T : fds) (lines : list (list Z)) : list shell_act :=
  Shell (Say "$ ") ::
  match lines with
  | [] => []
  | l :: lines =>
      if is_cd l then
        Chdir (drop 3 l) :: (if chdirs (drop 3 l) then serve k T lines else Shell (Say "cannot cd") :: serve k T lines)
      else if forks [k] then Child (child [k] T (line_buf l)) :: Shell Wait :: serve (S k) T lines
      else [Shell (Say "fork")]
  end.

Lemma main_loop_serves lines : forall n k T,
  Forall line_ok lines -> (length lines <= n)%nat -> main_loop n k T (typed lines) = Some (serve k T lines).
Proof.
  induction lines as [|l lines IH]; intros n k T Hl Hn; [by destruct n|].
  apply Forall_cons in Hl as [Hl1 Hl]. destruct n as [|n]; [cbn in Hn; lia|].
  unfold typed. cbn [fmap list_fmap concat main_loop]. rewrite <- app_assoc. cbn [app].
  change (concat _) with (typed lines). rewrite getcmd_line by done. cbn [serve].
  change ((nth 0 (line_buf l) 0 =? 99) && _ && _) with (is_cd (line_buf l)). rewrite is_cd_buf by done.
  destruct (is_cd l) eqn:Ecd.
  - rewrite cd_path by done. rewrite (IH n k T) by (done || cbn in Hn; lia). done.
  - destruct (forks [k]); [|done]. rewrite (IH n (S k) T) by (done || cbn in Hn; lia). done.
Qed.

Lemma typed_length lines : (length lines <= length (typed lines))%nat.
Proof. induction lines as [|l lines IH]; [done|]. unfold typed in *. cbn. rewrite !length_app. cbn. lia. Qed.

(** The shell serves its input line by line and then ends: for input that is a sequence of lines
    that fit the buffer, [main] prompts before each line, changes directory itself for a [cd] line
    (to the rest of the line without its newline), runs every other line in a child that it waits
    for, in the order of the lines, and stops after the last; its descriptors are 0, 1 and 2. *)
Theorem main_serves s lines : Forall line_ok lines -> main (table s) (typed lines) = Some (serve 0 (table s) lines).
Proof.
  intros Hl. unfold main. assert (E : open_console NOFILE (table s) = table s) by by destruct s.
  rewrite E. apply main_loop_serves; [done|]. apply typed_length.
Qed.
End Loop.

(** ** Witnesses *)

Module RunWitnesses.
#[local] Instance ex_kernel : Kernel := {| opens _ _ := true; execs _ := true; forks _ := true; pipes _ := true; chdirs _ := true |}.



Definition ex_lines : list (list Z) := [[99; 100; 32; 100]; [97]].

End RunWitnesses.

(** ** Findings *)

Module RunFindings.
(** A [cd] line that the input ends without a newline loses its last letter: [cd dir] goes to [di]. *)
Lemma cd_without_newline `{K : Kernel} T :
  main_loop 2 0 T [99; 100; 32; 100; 105; 114] =
  Some (Shell (Say "$ ") :: Chdir [100; 105] ::
        (if chdirs [100; 105] then [Shell (Say "$ ")] else [Shell (Say "cannot cd"); Shell (Say "$ ")])).
Proof. cbn. by destruct (chdirs _). Qed.

(** [>>] opens its file in the mode of [>]: [a>>b] and [a>b] differ in no more than where the words are. *)
Lemma append_is_write :
  exists c1 m1 c2 m2, parsecmd [97; 62; 62; 98; 0] = Ok c1 m1 /\ parsecmd [97; 62; 98; 0] = Ok c2 m2 /\
    cmd_map text c1 = cmd_map text c2 /\ cmd_map text c1 = REDIR (EXEC [[97]]) [98] (Z.lor O_WRONLY O_CREATE) 1.
Proof. eexists _, _, _, _. split; [vm_compute; reflexivity|]. split; [vm_compute; reflexivity|]. done. Qed.
End RunFindings.
